(* ===== verification/_CoqProject ===== *)
-Q . S2P
Prelude.v
Words.v
Loops.v
Abi.v
Unicorn.v
Bytes.v
Engine.v
Memory.v
Scheduler.v
Trampoline.v
JavaRuntime.v
Jni.v
JniTable.v
JniFacts.v
GdbStub.v
GdbSession.v
Rc4.v
Elf.v
Aps2.v
ElfReloc.v
ElfLoader.v
DexFile.v
Sha1.v
Rebuilder.v
DalvikOps.v
CText.v
DevirtLog.v
Devirt.v
DexIndex.v
RebuildDriver.v
Dalvik.v
Exec.v
Framework.v
Lifecycle.v
Vfs.v
System.v
SysTable.v
Syscalls.v
SyscallFacts.v
SyscallIo.v
Libc.v
LibcStr.v
LibcFmt.v
LibcWide.v
LibcScan.v
LibcFacts.v
Strtok.v
LibcBounds.v
LibcNum.v
Civil.v
LibcTime.v
Stubs.v
StubRuntime.v
StubFiles.v
StubZlib.v
StubTable.v
StubFacts.v
StubDirs.v
InstallPaths.v
EnvMethods.v
AndroidEnv.v
EnvFacts.v
EnvGraph.v
ArtRuntime.v
ArtFrame.v
ArtFacts.v
ArtLoad.v
ArtExamples.v
ArtBringup.v
BringupFacts.v
Extractor.v
Beside.v
Vm.v
Capi.v
CapiFacts.v
CapiExamples.v
