(* ===== verification/Prelude.v ===== *)
(** * vardoger: a verification library

    vardoger runs packed Android code in an emulator, lets the packer decrypt
    its payload, and rebuilds the payload as loadable DEX files.  This library
    models the program's own logic, function by function, and proves what the
    parts promise to each other.  This file holds what all of them share; the
    rest of this comment documents the whole.

    ** Conventions

    Integers are [Z] with the width of the code written out ([u32], [s64],
    ... in Words).  Buffers are lists of bytes.  Results are [outcome]: a
    value, a C++ exception, or undefined behaviour ([UB]: an access outside a
    vector, a signed overflow), so that the absence of undefined behaviour is
    always part of a statement and never an assumption.  Stateful code is in
    the monad [M]; a throw keeps the state reached, as members do.  A
    [std::map] or [std::set] is a [gmap] or [gset]; where the code iterates in
    key order the model does too ([keys]).  A family of lambdas the program
    registers is an inductive type with a constructor for each, what a lambda
    captures being its arguments, so that a table of handlers is a value.  Log
    output is dropped.

    ** The parts, in dependency order

    Foundations:
    - Prelude, Words, Loops: results, the state monad, reachability ([star]),
      machine words, little-endian bytes, in-place writes, loops over words.
    - Abi: the address map and the calling conventions
      (include/vardoger/engine/abi.hpp, address_space.hpp).
    - Unicorn, Bytes: the interface the engine needs from the CPU emulator,
      which is third-party: a class of operations [UcOps], a class of
      documented laws [UcLaws] (mapping is page-granular and refuses overlaps,
      memory and registers hold what was written), a concrete instance [RefUc]
      that satisfies them, on which every witness runs, and the view of memory
      byte by byte the proofs use.

    The machine:
    - Engine: core/engine/engine.cpp, args.hpp: register and memory access,
      argument passing, the W^X run loop with its protection flips, [call]
      and its re-entrancy flag.
    - Memory: core/engine/memory.cpp: the sorted region table, the bump
      arenas, map, protect and unmap.
    - Scheduler: core/engine/scheduler.cpp: green threads, round robin, joins,
      mutexes, condition variables, context switches.  What the guest does in
      a time slice is a parameter that acts only through these operations.
    - Trampoline: core/engine/trampoline.cpp: host stubs on a guest page.
    - GdbStub, GdbSession: core/engine/gdb_stub.cpp: packets, commands and the
      life of a debugging session, the socket being the bytes it carries.

    Java:
    - JavaRuntime: core/jni/java_runtime.cpp: the handle table.
    - Jni, JniTable, JniFacts: core/jni/jni.cpp: the two function tables,
      every installed handler, argument marshalling.
    - Framework, Lifecycle: core/dex/lifecycle.cpp: framework methods, method
      resolution, class loading and the entry points, as a host of Dalvik.

    Libraries and payloads:
    - Elf, Aps2, ElfReloc, ElfLoader: core/elf/elf_loader.cpp: structures, the
      packed relocation format, the four relocation tables, loading.
    - Rc4: include/vardoger/util/rc4.hpp.
    - DexFile: core/dex/dex_file.cpp: the DEX reader.
    - Sha1, Rebuilder: include/vardoger/dex/rebuilder.hpp: the hash and the
      writer that appends recovered code and relinks a DEX.
    - DalvikOps: devirt_rebuild.hpp, the opcode table, encoder and two-pass
      assembler.
    - CText, DevirtLog, Devirt: devirt_rebuild.hpp, the C text functions its
      parsers call, the log parsers, and the decoder: op families,
      classification, decoding, lowering, signatures.
    - DexIndex, RebuildDriver: devirt_rebuild.hpp, the method index and the
      driver from the log to the files it writes and checks.
    - Dalvik: core/dex/dalvik.cpp: the Dalvik interpreter.
    - Exec: theorems that span the assembler, the rebuilder, the reader and
      the interpreter.
    - Extractor: core/extract/extractor.cpp: the payload scanner.

    The device:
    - Vfs: core/android/vfs.cpp: the in-memory file system.
    - System: core/android/system.cpp: properties, process identity, /proc.
    - SysTable, Syscalls, SyscallFacts, SyscallIo: core/android/syscalls.cpp:
      the number tables, every handler, and what a guest program observes.
    - Libc, LibcStr, LibcFmt, LibcWide, LibcScan: the C library of
      core/android/stubs.cpp ([register_defaults]); LibcFacts, Strtok,
      LibcBounds and LibcNum hold theorems about it.
    - Civil, LibcTime: the host's calendar and the [struct tm] stubs.
    - Stubs, StubRuntime, StubFiles, StubZlib: the stub table, and the stubs
      over threads, the dynamic linker, the device and zlib; StubTable lists
      all registrations in the order of the code, StubFacts and StubDirs hold
      theorems.
    - InstallPaths, EnvMethods, AndroidEnv: core/android/android_env.cpp:
      install paths, the Java methods the device answers, the constructor and
      the context graph; EnvFacts and EnvGraph hold what they promise.
    - ArtRuntime: core/art/art_runtime.cpp: a DEX in guest memory and the
      Java methods that load one; ArtFrame (what the Java table leaves alone
      in memory), ArtFacts, ArtLoad and ArtExamples hold theorems.
    - ArtBringup: core/art/art_bringup.cpp: the symbols of libart and the
      objects filled in for it; BringupFacts holds theorems.

    The whole:
    - Beside: any part run with the rest of the program beside its emulator, so
      that what the part calls back reaches all of it.
    - Vm: core/py/vardoger_capi.cpp, [struct VM]: the machine the constructor
      wires from the parts above, its interrupt hook, import resolution and
      guest calls, over a parameter for the world outside it ([Outside]).
    - Capi: the mv_ functions of the same file; CapiFacts and CapiExamples hold
      theorems and a machine built on [RefUc].

    How they meet: a guest call to an import lands on a stub of the trampoline
    page, whose handler is a [Code] of StubTable or a [JniFn] of Jni; a system
    call lands in Syscalls.  Both work on the memory manager and the System
    facade, which owns the file system.  JNI handlers and the lifecycle driver
    share the Java table; the driver hosts the interpreter, which may call
    back into it.  The environment and the DEX-load surface register methods
    on that table and answer the calls that reach them; their methods are
    types of their own, which a client joins to the type [HM] of host methods
    as summands: [VHost] of Vm is that sum, [VCode] the one for the handlers of
    the shared page of stubs.  The rebuild driver needs none of these: it works on the
    decode log and DEX bytes alone.

    ** What the theorems show

    - Rebuilding is right: a rebuilt file contains every recovered code item
      and differs from the input only where it must (build_relinks,
      build_seals); the driver leaves no decoded native method native and
      reports for every input what became of it (rebuilt_methods,
      driver_verifies); the index finds methods by what they are called
      (method_lookup); parsing accepts exactly the well-bounded files
      (parse_spec).
    - Devirtualized code means what it should: every instruction is known to
      the assembler and jumps inside its method (devirt_well_formed); the
      assembler places each at its counted offset (assemble_layout) with the
      right displacement exactly when it fits (branch_reaches_iff); the
      interpreter takes the branches as meant (branch_executes).
    - Libraries load: segments hold their file bytes in room enough
      (segments_placed), packed and RELR relocations are decoded to what was
      encoded (aps2_roundtrip, apply_relr_spec), the symbols of a file are
      reported once each (symbols_reported).
    - A packer finds what it looks for: the Build fields agree with the
      fingerprint (build_matches_fingerprint), the signature chain ends in
      the certificate (certificate_read), the context graph is wired as on a
      device but for two of its methods (graph_wired), install directories of
      packages differ (install_dirs_apart).  A DEX it loads is captured
      (open_captures) and stays where native code looks for it until somebody
      overwrites the way there (dexes_stay); class loaders and enumerations
      lead to it (classloader_walk, entries_enumerate).
    - The machine holds together: a stub a client asks for runs its callback at
      every later trap (trampoline_reaches_client), imports are looked for in
      the C library, then in the libraries loaded before, then answered by a
      stub (import_order), a load lets no exception out, appends one library or
      none and takes no handler away (load_appends), text copied out stays in
      the caller's buffer (copy_out_fits).
    - Nothing runs away: nested interpretation is cut off by the depth guard
      (invoke_at_enough, lifecycle_bounded), the scheduler is fair and loses
      no join (pick_fair, joins_never_lost), the debugger server comes to an
      end on every input (serve_total).
    - State stays well formed in every reachable state: the region table
      (mem_reachable_wf), the heap up to lengths that wrap (heap_alloc_fresh), the mutexes
      (mutex_exclusion), the Java table (handles_typed, jni_keeps_table,
      lifecycle_keeps_table), a session (session_invariant), the device under
      system calls (dispatch_wf).
    - The guest is told the truth: files read back as written (file_round_trip),
      refused calls change nothing (refused_call), directories but the root list what
      they hold (dir_listing), Java calls with arguments of one word reach
      their implementation (call_marshals), function tables and imports lead to the handlers named
      (build_tables, imports_resolve).
    - The C library is one: strtok splits as the standard says
      (strtok_splits), stubs that are told a size stay in bounds, vsnprintf of
      size 0 aside (stays_in_buffer),
      numbers and dates survive printing and reading (number_round_trip,
      date_round_trip).

    Where the code does not do what it means to, a lemma or an [Example] next
    to the definition shows the concrete input: far_goto_truncated,
    code_at_wraps, partial_unmap_stale, main_mutex_not_exclusive,
    throw_leaks_depth, add_double_is_and, misaligned_missed,
    same_name_overwrites, overloads_hide_native, readlink_wrong_slot,
    maps_hides_code, read_after_truncate_throws, graph_drops_placeholder,
    data_dirs_differ, huge_block_overlaps, vsnprintf_size_zero,
    unwritten_looks_right, negative_int_argument, stale_dex, graph_takes_enumeration, relinked_unwired,
    adrp_backward, link_out_of_bounds, negative_offset, exception_escapes and
    others.

    ** Bounds and fuel

    Loops with a bound in the code keep it: 200000 interpreter steps
    ([max_steps]), 2000000 W^X iterations, 4096 gap-search tries, five
    uleb128 bytes in the reader, 4096 bytes of a string argument.  The depth
    limit is the default 64.  Re-entry of the interpreter through its host
    takes the nesting as fuel; invoke_at_enough shows that 65 minus the depth
    levels are enough, lifecycle_bounded that the driver never needs more.
    Loops that walk guest memory ([while_]) have 2^64 turns, one for every
    position a word can hold.  The SHA-1 padding and the scan of a region run
    on the length of their buffer, the parsers of text, the format expanders
    and the scanner of sscanf on the length of the text, of which they consume
    a character per turn; serving a debugger runs on the bytes the client
    sends.  The uleb128 writer emits at most five bytes, enough for the 32-bit
    values it is given.  The scheduling loop takes the number of turns as fuel
    and gives no result when it runs out; the theorems about it are about its
    turns.  The trampoline page has 8192 slots; a table of stubs, with its 494
    of them, is proved to fit.

    ** Not modelled

    zlib, fnmatch, the emulator, the host's [%p] and the bodies of client
    callbacks are parameters.  The stubs over floating-point registers are in
    the table of stubs with parameters for bodies: they are the host's <cmath>
    through a register move.  Left out: the functions of the C interface that
    register hooks with Unicorn or serve a debugger from inside a machine, and
    the Python bindings, which declare that interface once more; the
    disassembler and the tracer, wrappers around Capstone; the debug hooks,
    which environment variables switch on (most print; under VARDOGER_RC4_FAST
    two of them run a packer's RC4 natively); all log output, which no result
    of the program depends on;
    [Extractor::write_artifacts], which only touches the host's disk. *)

From stdpp Require Export base numbers list strings option gmap.
From stdpp Require Import sorting.
From Stdlib Require Export Lia.
#[global] Open Scope Z_scope.

(** ** Results of C++ code

    A call either returns, throws a [std::runtime_error] (or lets another
    exception escape) or runs into undefined behaviour: an access outside a
    vector, an oversized shift, a signed overflow.  The three are kept apart,
    so that "no undefined behaviour" is a statement and not an assumption. *)

Inductive outcome (A : Type) : Type :=
| Ret (a : A)
| Throw (what : string)
| UB.
Arguments Ret {A} a.
Arguments Throw {A} what.
Arguments UB {A}.

Definition outcome_bind {A B} (f : A -> outcome B) (m : outcome A) : outcome B :=
  match m with Ret a => f a | Throw e => Throw e | UB => UB end.
#[export] Instance outcome_mret : MRet outcome := fun A a => Ret a.
#[export] Instance outcome_mbind : MBind outcome := @outcome_bind.

Definition is_ret {A} (m : outcome A) : bool :=
  match m with Ret _ => true | _ => false end.

(** An access that is undefined behaviour when it is out of range. *)
Definition or_ub {A} (o : option A) : outcome A :=
  match o with Some a => Ret a | None => UB end.

(** ** State and exceptions

    [M S A] is a member function on an object in state [S].  A throw keeps
    the state reached so far: C++ does not roll members back. *)

Definition M (S A : Type) : Type := S -> outcome A * S.

Definition M_ret {S A} (a : A) : M S A := fun s => (Ret a, s).
Definition M_bind {S A B} (f : A -> M S B) (m : M S A) : M S B := fun s =>
  match m s with
  | (Ret a, s') => f a s'
  | (Throw e, s') => (Throw e, s')
  | (UB, s') => (UB, s')
  end.
#[export] Instance M_mret S : MRet (M S) := fun A => M_ret.
#[export] Instance M_mbind S : MBind (M S) := fun A B => M_bind.

Definition get {S} : M S S := fun s => (Ret s, s).
Definition put {S} (s : S) : M S unit := fun _ => (Ret tt, s).
Definition modify {S} (f : S -> S) : M S unit := fun s => (Ret tt, f s).
Definition gets {S A} (f : S -> A) : M S A := fun s => (Ret (f s), s).
Definition throw {S A} (e : string) : M S A := fun s => (Throw e, s).
Definition lift {S A} (o : outcome A) : M S A := fun s => (o, s).
(** [try { m } catch (const std::exception&) { h }]. *)
Definition try_catch {S A} (m h : M S A) : M S A := fun s =>
  match m s with
  | (Throw _, s') => h s'
  | r => r
  end.
Definition skip {S} : M S unit := M_ret tt.

(** Every run of [m] from a state satisfying [P] ends in one satisfying [P],
    however it ends. *)
Definition preserves {S A} (P : S -> Prop) (m : M S A) : Prop :=
  forall s r s', P s -> m s = (r, s') -> P s'.

Section Preserves.
Context {S : Type} (P : S -> Prop).

Lemma preserves_ret {A} (a : A) : preserves P (M_ret a).
Proof. intros s r s' Hs [= <- <-]. done. Qed.

Lemma preserves_gets {A} (f : S -> A) : preserves P (gets f).
Proof. intros s r s' Hs [= <- <-]. done. Qed.

Lemma preserves_throw {A} e : preserves P (throw (A := A) e).
Proof. intros s r s' Hs [= <- <-]. done. Qed.

Lemma preserves_lift {A} (o : outcome A) : preserves P (lift o).
Proof. intros s r s' Hs [= <- <-]. done. Qed.

Lemma preserves_modify f : (forall s, P s -> P (f s)) -> preserves P (modify f).
Proof. intros Hf s r s' Hs [= <- <-]. auto. Qed.

Lemma preserves_bind {A B} (m : M S A) (f : A -> M S B) :
  preserves P m -> (forall a, preserves P (f a)) -> preserves P (M_bind f m).
Proof.
  intros Hm Hf s r s' Hs. unfold M_bind.
  destruct (m s) as [[a|e|] s1] eqn:E; intros H; simplify_eq.
  - eapply Hf; [|done]. by eapply Hm.
  - by eapply Hm.
  - by eapply Hm.
Qed.

Lemma preserves_try {A} (m h : M S A) :
  preserves P m -> preserves P h -> preserves P (try_catch m h).
Proof.
  intros Hm Hh s r s' Hs. unfold try_catch.
  destruct (m s) as [[a|e|] s1] eqn:E; intros H; simplify_eq.
  - by eapply Hm.
  - eapply Hh; [|done]. by eapply Hm.
  - by eapply Hm.
Qed.

Lemma preserves_if {A} (b : bool) (m1 m2 : M S A) :
  preserves P m1 -> preserves P m2 -> preserves P (if b then m1 else m2).
Proof. by destruct b. Qed.
End Preserves.

Create HintDb preserves.
#[export] Hint Resolve preserves_ret preserves_gets preserves_throw preserves_lift
  preserves_bind preserves_try preserves_if : preserves.

(** Reading the state is transparent. *)
Lemma bind_get {S A} (f : S -> M S A) s : (get ≫= f) s = f s s.
Proof. done. Qed.
Lemma bind_gets {S A B} (g : S -> B) (f : B -> M S A) s : (gets g ≫= f) s = f (g s) s.
Proof. done. Qed.
Lemma bind_modify {S A} g (f : unit -> M S A) s : (modify g ≫= f) s = f tt (g s).
Proof. done. Qed.
Lemma bind_skip {S A} (f : unit -> M S A) s : (skip ≫= f) s = f tt s.
Proof. done. Qed.
Lemma bind_lift_ret {S A B} (a : B) (f : B -> M S A) s : (lift (Ret a) ≫= f) s = f a s.
Proof. done. Qed.
Create Rewrite HintDb monad.
#[export] Hint Rewrite @bind_get @bind_gets @bind_modify @bind_skip @bind_lift_ret : monad.

(** Running a bind whose first half is known. *)
Lemma bind_run {S A B} (m : M S A) (f : A -> M S B) s a s' :
  m s = (Ret a, s') -> (m ≫= f) s = f a s'.
Proof. unfold mbind, M_mbind, M_bind. by intros ->. Qed.
Lemma bind_throw {S A B} (m : M S A) (f : A -> M S B) s e s' :
  m s = (Throw e, s') -> (m ≫= f) s = (Throw e, s').
Proof. unfold mbind, M_mbind, M_bind. by intros ->. Qed.

(** Inverting a bind that returned. *)
Lemma bind_ret_inv {S A B} (m : M S A) (f : A -> M S B) s b s' :
  M_bind f m s = (Ret b, s') ->
  exists a s1, m s = (Ret a, s1) /\ f a s1 = (Ret b, s').
Proof. unfold M_bind. destruct (m s) as [[a|e|] s1]; naive_solver. Qed.

Lemma outcome_bind_ret {A B} (f : A -> outcome B) m b :
  outcome_bind f m = Ret b -> exists a, m = Ret a /\ f a = Ret b.
Proof. destruct m; naive_solver. Qed.

(** ** Finite sequences of steps *)

Section Star.
Context {St : Type} (R : St -> St -> Prop).

Inductive star : St -> St -> Prop :=
| star_refl s : star s s
| star_step s1 s2 s3 : R s1 s2 -> star s2 s3 -> star s1 s3.

(** Rule induction: what every step preserves holds at every reachable
    state. *)
Lemma star_invariant (P : St -> Prop) s s' :
  (forall s1 s2, P s1 -> R s1 s2 -> P s2) -> P s -> star s s' -> P s'.
Proof. intros Hstep H0 H. induction H; eauto. Qed.

Lemma star_one s s' : R s s' -> star s s'.
Proof. intros. eapply star_step; [done|constructor]. Qed.

Lemma star_trans s1 s2 s3 : star s1 s2 -> star s2 s3 -> star s1 s3.
Proof. induction 1; eauto using star. Qed.
End Star.

(** ** Case analysis on the booleans of the code *)

Ltac case_Z :=
  match goal with
  | |- context [Z.leb ?a ?b] => destruct (Z.leb_spec a b)
  | |- context [Z.ltb ?a ?b] => destruct (Z.ltb_spec a b)
  | |- context [Z.eqb ?a ?b] => destruct (Z.eqb_spec a b)
  | H : context [Z.leb ?a ?b] |- _ => destruct (Z.leb_spec a b)
  | H : context [Z.ltb ?a ?b] |- _ => destruct (Z.ltb_spec a b)
  | H : context [Z.eqb ?a ?b] |- _ => destruct (Z.eqb_spec a b)
  end; cbn [andb orb negb] in *.

Ltac bool_to_Prop :=
  repeat match goal with
  | H : andb _ _ = true |- _ => apply andb_true_iff in H; destruct H
  | H : orb _ _ = false |- _ => apply orb_false_iff in H; destruct H
  | H : negb _ = true |- _ => apply negb_true_iff in H
  | H : negb _ = false |- _ => apply negb_false_iff in H
  | H : Z.leb _ _ = true |- _ => apply Z.leb_le in H
  | H : Z.leb _ _ = false |- _ => apply Z.leb_gt in H
  | H : Z.ltb _ _ = true |- _ => apply Z.ltb_lt in H
  | H : Z.ltb _ _ = false |- _ => apply Z.ltb_ge in H
  | H : Z.eqb _ _ = true |- _ => apply Z.eqb_eq in H
  | H : Z.eqb _ _ = false |- _ => apply Z.eqb_neq in H
  end.

(** ** Lists *)

(** [l.at(i)] for a [size_t]/[int] index. *)
Definition znth {A} (l : list A) (i : Z) : option A :=
  if 0 <=? i then l !! Z.to_nat i else None.

(** [std::string] / [std::vector] indices below the length are safe. *)
Lemma znth_lt_Some {A} (l : list A) i :
  0 <= i < Z.of_nat (length l) -> is_Some (znth l i).
Proof.
  intros [? ?]. unfold znth. rewrite (proj2 (Z.leb_le _ _)) by done.
  apply lookup_lt_is_Some. lia.
Qed.

(** An in-place permutation step: exchanging two cells. *)
Lemma insert_swap_lt {A} (l : list A) (i j : nat) x y :
  (i < j)%nat -> l !! i = Some x -> l !! j = Some y ->
  Permutation (<[j:=x]> (<[i:=y]> l)) l.
Proof.
  intros Hlt Hi Hj.
  pose proof (take_drop_middle l i x Hi) as E1.
  assert (drop (S i) l !! (j - S i)%nat = Some y) as Hj'
    by (rewrite lookup_drop; rewrite <- Hj; f_equal; lia).
  pose proof (take_drop_middle _ _ _ Hj') as E2. rewrite <- E1, <- E2.
  set (a := take i l). set (b := take (j - S i) (drop (S i) l)).
  set (c := drop (S (j - S i)) (drop (S i) l)).
  assert (length a = i) as La
    by (unfold a; rewrite length_take; apply lookup_lt_Some in Hi; lia).
  assert (length b = j - S i)%nat as Lb
    by (unfold b; rewrite length_take, length_drop; apply lookup_lt_Some in Hj; lia).
  assert (<[j:=x]> (<[i:=y]> (a ++ x :: b ++ y :: c)) = a ++ y :: b ++ x :: c) as ->.
  { rewrite <- La at 1. rewrite <- (Nat.add_0_r (length a)), insert_app_r. simpl.
    replace j with (length a + S (length b + 0))%nat by lia.
    rewrite insert_app_r. simpl. rewrite insert_app_r. done. }
  apply Permutation_app_head. rewrite !Permutation_middle, perm_swap.
  by rewrite <- !Permutation_middle.
Qed.

Lemma insert_swap_Permutation {A} (l : list A) (i j : nat) x y :
  l !! i = Some x -> l !! j = Some y ->
  Permutation (<[j:=x]> (<[i:=y]> l)) l.
Proof.
  intros Hi Hj. destruct (Nat.lt_trichotomy i j) as [?|[->|?]].
  - by apply insert_swap_lt.
  - assert (x = y) as -> by congruence. rewrite !list_insert_id; try done.
    by rewrite list_insert_id.
  - rewrite list_insert_insert_ne by lia. by apply insert_swap_lt.
Qed.

(** ** Ordered maps *)

(** Iteration over a [std::map<uint64_t, _>] visits the keys in increasing
    order. *)
Definition keys {A} (m : gmap Z A) : list Z := merge_sort Z.le (map_to_list m).*1.

Lemma keys_elem {A} (m : gmap Z A) id : id ∈ keys m <-> is_Some (m !! id).
Proof.
  unfold keys. rewrite merge_sort_Permutation. rewrite list_elem_of_fmap. split.
  - intros ([k a] & -> & Hk). apply elem_of_map_to_list in Hk. by exists a.
  - intros [a Ha]. exists (id, a). by rewrite elem_of_map_to_list.
Qed.

Lemma keys_NoDup {A} (m : gmap Z A) : NoDup (keys m).
Proof. unfold keys. rewrite merge_sort_Permutation. apply NoDup_fst_map_to_list. Qed.

Lemma keys_sorted {A} (m : gmap Z A) : StronglySorted Z.le (keys m).
Proof.
  apply StronglySorted_merge_sort; [intros ???; lia|intros x y; lia].
Qed.

Lemma keys_length {A} (m : gmap Z A) : length (keys m) = size m.
Proof. unfold keys. by rewrite merge_sort_Permutation, length_fmap, length_map_to_list. Qed.
