(* ===== verification/Words.v ===== *)
(** Machine-width integers and little-endian byte strings.

    A [w]-bit unsigned value of the C++ code ([uint8_t], [uint16_t],
    [uint32_t], [uint64_t], [size_t]) is a [Z] in [0, 2^w); the casts of the
    code are the truncations [u8] .. [u64] and the sign reinterpretations
    [s8] .. [s64] below.  A byte buffer ([std::vector<uint8_t>], a
    [memcpy]'d struct field, the raw contents of a [std::string]) is a list
    of such bytes. *)

From stdpp Require Export base numbers list strings option gmap.
From Stdlib Require Export Lia.
#[global] Open Scope Z_scope.

(** ** Casts *)

Definition u8 (x : Z) : Z := x mod 2 ^ 8.
Definition u16 (x : Z) : Z := x mod 2 ^ 16.
Definition u32 (x : Z) : Z := x mod 2 ^ 32.
Definition u64 (x : Z) : Z := x mod 2 ^ 64.

(** Reinterpretation of the low [w] bits as a two's complement number. *)
Definition sext (w x : Z) : Z :=
  let y := x mod 2 ^ w in if y <? 2 ^ (w - 1) then y else y - 2 ^ w.

Definition s8 := sext 8.
Definition s16 := sext 16.
Definition s32 := sext 32.
Definition s64 := sext 64.

Definition in_s64 (x : Z) : bool := (- 2 ^ 63 <=? x) && (x <? 2 ^ 63).

(** ** Bytes *)

Definition is_byte (b : Z) : Prop := 0 <= b < 256.
Definition bytes_ok (l : list Z) : Prop := Forall is_byte l.

(** The size of a buffer as the [size_t] the code compares with. *)
Definition zlen {A} (l : list A) : Z := Z.of_nat (length l).

Fixpoint le_bytes (n : nat) (v : Z) : list Z :=
  match n with
  | O => []
  | S k => v mod 256 :: le_bytes k (v / 256)
  end.

Fixpoint le_val (l : list Z) : Z :=
  match l with
  | [] => 0
  | b :: r => b + 256 * le_val r
  end.

(** The [n] bytes at offset [o] of [d], when they are inside [d]. *)
Definition slice (d : list Z) (o : Z) (n : nat) : option (list Z) :=
  if (0 <=? o) && (o + Z.of_nat n <=? zlen d)
  then Some (take n (drop (Z.to_nat o) d)) else None.

(** [memcpy(d.data() + o, bs, n)]: overwrite in place, [None] out of range. *)
Definition blit (d : list Z) (o : Z) (bs : list Z) : option (list Z) :=
  if (0 <=? o) && (o + zlen bs <=? zlen d)
  then Some (take (Z.to_nat o) d ++ bs ++ drop (Z.to_nat o + length bs) d)
  else None.

(** The raw bytes of a string literal. *)
Definition bs (s : string) : list Z :=
  (fun a => Z.of_N (Ascii.N_of_ascii a)) <$> String.list_ascii_of_string s.

(** ** Arithmetic facts *)

Lemma mod_range x w : 0 <= w -> 0 <= x mod 2 ^ w < 2 ^ w.
Proof. intros. apply Z.mod_pos_bound. by apply Z.pow_pos_nonneg. Qed.

Lemma u8_range x : 0 <= u8 x < 256.
Proof. apply (mod_range x 8). lia. Qed.
Lemma u16_range x : 0 <= u16 x < 65536.
Proof. apply (mod_range x 16). lia. Qed.
Lemma u32_range x : 0 <= u32 x < 2 ^ 32.
Proof. by apply mod_range. Qed.
Lemma u64_range x : 0 <= u64 x < 2 ^ 64.
Proof. by apply mod_range. Qed.

Lemma u8_id x : 0 <= x < 256 -> u8 x = x.
Proof. intros. by apply Z.mod_small. Qed.
Lemma u16_id x : 0 <= x < 65536 -> u16 x = x.
Proof. intros. by apply Z.mod_small. Qed.
Lemma u32_id x : 0 <= x < 2 ^ 32 -> u32 x = x.
Proof. intros. by apply Z.mod_small. Qed.
Lemma u64_id x : 0 <= x < 2 ^ 64 -> u64 x = x.
Proof. intros. by apply Z.mod_small. Qed.

Create HintDb words.
Create Rewrite HintDb words.
#[export] Hint Rewrite u8_id u16_id u32_id u64_id using lia : words.
#[export] Hint Resolve u8_range u16_range u32_range u64_range : words.

Lemma sext_range w x : 0 < w -> - 2 ^ (w - 1) <= sext w x < 2 ^ (w - 1).
Proof.
  intros Hw. unfold sext.
  pose proof (mod_range x w ltac:(lia)) as Hr.
  assert (2 ^ w = 2 * 2 ^ (w - 1)) as E.
  { rewrite <- Z.pow_succ_r by lia. f_equal. lia. }
  destruct (Z.ltb_spec (x mod 2 ^ w) (2 ^ (w - 1))); lia.
Qed.

Lemma sext_id w x : 0 < w -> - 2 ^ (w - 1) <= x < 2 ^ (w - 1) -> sext w x = x.
Proof.
  intros Hw Hx. unfold sext.
  assert (2 ^ w = 2 * 2 ^ (w - 1)) as E.
  { rewrite <- Z.pow_succ_r by lia. f_equal. lia. }
  destruct (decide (0 <= x)).
  - rewrite Z.mod_small by lia. destruct (Z.ltb_spec x (2 ^ (w - 1))); lia.
  - assert (x mod 2 ^ w = x + 2 ^ w) as ->.
    { symmetry. apply (Z.mod_unique_pos _ _ (-1)); lia. }
    destruct (Z.ltb_spec (x + 2 ^ w) (2 ^ (w - 1))); lia.
Qed.

(** Truncating first does not change the sign reinterpretation. *)
Lemma sext_mod w x : sext w (x mod 2 ^ w) = sext w x.
Proof. unfold sext. by rewrite Zmod_mod. Qed.

(** ** Little-endian words *)

Lemma length_le_bytes n v : length (le_bytes n v) = n.
Proof. revert v. induction n; simpl; auto. Qed.

Lemma le_bytes_ok n v : bytes_ok (le_bytes n v).
Proof.
  revert v. induction n as [|n IH]; intros v; simpl; constructor; [|apply IH].
  apply Z.mod_pos_bound. lia.
Qed.

Lemma le_val_bytes n v : le_val (le_bytes n v) = v mod 2 ^ (8 * Z.of_nat n).
Proof.
  revert v. induction n as [|n IH]; intros v; simpl.
  - by rewrite Z.mod_1_r.
  - rewrite IH. replace (8 * Z.of_nat (S n)) with (8 + 8 * Z.of_nat n) by lia.
    rewrite Z.pow_add_r by lia. change (2 ^ 8) with 256.
    rewrite Z.rem_mul_r; lia.
Qed.

Lemma le_val_range l : bytes_ok l -> 0 <= le_val l < 2 ^ (8 * zlen l).
Proof.
  unfold zlen. induction 1 as [|b l Hb _ IH]; simpl; [lia|].
  replace (8 * Z.of_nat (S (length l))) with (8 + 8 * Z.of_nat (length l)) by lia.
  rewrite Z.pow_add_r by lia. unfold is_byte in Hb. change (2 ^ 8) with 256. lia.
Qed.

Lemma le_bytes_val l : bytes_ok l -> le_bytes (length l) (le_val l) = l.
Proof.
  induction 1 as [|b l Hb _ IH]; simpl; [done|]. unfold is_byte in Hb.
  rewrite (Z.mul_comm 256).
  rewrite Z.mod_add, Z.div_add by lia. rewrite Z.mod_small, Z.div_small by lia.
  by rewrite Z.add_0_l, IH.
Qed.

Lemma bytes_ok_app l1 l2 : bytes_ok l1 -> bytes_ok l2 -> bytes_ok (l1 ++ l2).
Proof. intros. by apply Forall_app. Qed.

#[export] Hint Resolve le_bytes_ok bytes_ok_app : words.
#[export] Hint Rewrite length_le_bytes le_val_bytes : words.

(** ** Slices and in-place writes *)

Lemma zlen_nonneg {A} (l : list A) : 0 <= zlen l.
Proof. unfold zlen. lia. Qed.
Lemma zlen_to_nat {A} (l : list A) : Z.to_nat (zlen l) = length l.
Proof. unfold zlen. lia. Qed.
Lemma zlen_app {A} (l1 l2 : list A) : zlen (l1 ++ l2) = zlen l1 + zlen l2.
Proof. unfold zlen. rewrite length_app. lia. Qed.

Lemma slice_Some d o n l :
  slice d o n = Some l ->
  0 <= o /\ o + Z.of_nat n <= zlen d /\ l = take n (drop (Z.to_nat o) d).
Proof.
  unfold slice. destruct (Z.leb_spec 0 o), (Z.leb_spec (o + Z.of_nat n) (zlen d));
    simpl; naive_solver.
Qed.

Lemma slice_ok d o n :
  0 <= o -> o + Z.of_nat n <= zlen d ->
  slice d o n = Some (take n (drop (Z.to_nat o) d)).
Proof.
  intros. unfold slice.
  by rewrite (proj2 (Z.leb_le _ _)), (proj2 (Z.leb_le _ _)) by lia.
Qed.

Lemma slice_is_Some d o n :
  0 <= o -> o + Z.of_nat n <= zlen d -> is_Some (slice d o n).
Proof. intros. rewrite slice_ok by done. by eexists. Qed.

Lemma slice_length d o n l : slice d o n = Some l -> length l = n.
Proof.
  intros (?&?&->)%slice_Some. unfold zlen in *.
  rewrite length_take, length_drop. lia.
Qed.

(** A slice is determined by its position in a concatenation. *)
Lemma slice_middle (l1 l2 l3 : list Z) :
  slice (l1 ++ l2 ++ l3) (zlen l1) (length l2) = Some l2.
Proof.
  pose proof (zlen_nonneg l1). rewrite slice_ok.
  - unfold zlen. by rewrite Nat2Z.id, drop_app_length, take_app_length.
  - done.
  - unfold zlen. rewrite !length_app. lia.
Qed.

Lemma blit_Some d o l d' :
  blit d o l = Some d' ->
  0 <= o /\ o + zlen l <= zlen d /\
  d' = take (Z.to_nat o) d ++ l ++ drop (Z.to_nat o + length l) d.
Proof.
  unfold blit. destruct (Z.leb_spec 0 o), (Z.leb_spec (o + zlen l) (zlen d));
    simpl; naive_solver.
Qed.

Lemma blit_ok d o l :
  0 <= o -> o + zlen l <= zlen d ->
  blit d o l = Some (take (Z.to_nat o) d ++ l ++ drop (Z.to_nat o + length l) d).
Proof.
  intros. unfold blit.
  by rewrite (proj2 (Z.leb_le _ _)), (proj2 (Z.leb_le _ _)) by lia.
Qed.

Lemma blit_length d o l d' : blit d o l = Some d' -> length d' = length d.
Proof.
  intros (?&?&->)%blit_Some. unfold zlen in *.
  rewrite !length_app, length_take, length_drop. lia.
Qed.

(** Byte-wise view of an in-place write. *)
Lemma blit_lookup d o l d' i :
  blit d o l = Some d' ->
  d' !! i = if decide (Z.to_nat o <= i < Z.to_nat o + length l)%nat
            then l !! (i - Z.to_nat o)%nat else d !! i.
Proof.
  intros (?&?&->)%blit_Some. unfold zlen in *.
  assert (length (take (Z.to_nat o) d) = Z.to_nat o) as E
    by (rewrite length_take; lia).
  case_decide as Hi.
  - rewrite lookup_app_r, E, lookup_app_l by lia. done.
  - destruct (decide (i < Z.to_nat o)%nat).
    + rewrite lookup_app_l, lookup_take_lt by lia. done.
    + rewrite lookup_app_r, E, lookup_app_r, lookup_drop by lia.
      f_equal. lia.
Qed.

(** Reading back what was just written. *)
Lemma slice_blit_eq d o l d' :
  blit d o l = Some d' -> slice d' o (length l) = Some l.
Proof.
  intros Hb. pose proof (blit_length _ _ _ _ Hb) as Hl.
  apply blit_Some in Hb as (?&?&->). unfold zlen in *.
  rewrite slice_ok; [|done|unfold zlen; lia]. f_equal.
  rewrite drop_app_length' by (rewrite length_take; lia).
  by rewrite take_app_length.
Qed.

(** Reading elsewhere is unaffected. *)
Lemma slice_blit_ne d o l d' o' n :
  blit d o l = Some d' ->
  o' + Z.of_nat n <= o \/ o + zlen l <= o' ->
  slice d' o' n = slice d o' n.
Proof.
  intros Hb Hdis. unfold slice, zlen in *.
  pose proof (blit_length _ _ _ _ Hb) as Hl. rewrite Hl.
  destruct (Z.leb_spec 0 o'), (Z.leb_spec (o' + Z.of_nat n) (Z.of_nat (length d)));
    simpl; try done.
  f_equal. apply list_eq. intros i.
  destruct (decide (i < n)%nat).
  - rewrite !lookup_take_lt, !lookup_drop by lia.
    rewrite (blit_lookup _ _ _ _ _ Hb). rewrite decide_False; [done|].
    apply blit_Some in Hb as (?&?&_). unfold zlen in *. lia.
  - rewrite !lookup_take_ge by lia. done.
Qed.

Lemma bytes_ok_slice d o n l : bytes_ok d -> slice d o n = Some l -> bytes_ok l.
Proof.
  intros H (?&?&->)%slice_Some. by apply Forall_take, Forall_drop.
Qed.

Lemma bytes_ok_blit d o l d' :
  bytes_ok d -> bytes_ok l -> blit d o l = Some d' -> bytes_ok d'.
Proof.
  intros Hd Hl (?&?&->)%blit_Some.
  apply bytes_ok_app; [by apply Forall_take|].
  apply bytes_ok_app; [done|by apply Forall_drop].
Qed.

#[export] Hint Resolve bytes_ok_slice bytes_ok_blit : words.

(** ** Bit operations as arithmetic *)

Lemma land_ones_mod x n : 0 <= n -> Z.land x (2 ^ n - 1) = x mod 2 ^ n.
Proof. intros. rewrite <- Z.land_ones by lia. by rewrite Z.ones_equiv. Qed.

Lemma land_255 x : Z.land x 255 = x mod 256.
Proof. apply (land_ones_mod x 8). lia. Qed.
Lemma land_15 x : Z.land x 15 = x mod 16.
Proof. apply (land_ones_mod x 4). lia. Qed.
Lemma land_127 x : Z.land x 127 = x mod 128.
Proof. apply (land_ones_mod x 7). lia. Qed.

(** Or-ing fields that do not overlap is adding them. *)
Lemma land_shiftl_low a b n : 0 <= n -> 0 <= b < 2 ^ n -> Z.land (Z.shiftl a n) b = 0.
Proof.
  intros Hn Hb. rewrite <- (Z.mod_small b (2 ^ n)) by done.
  apply Z.bits_inj'. intros i Hi. rewrite Z.land_spec, Z.bits_0.
  destruct (decide (i < n)).
  - by rewrite Z.shiftl_spec_low.
  - by rewrite Z.mod_pow2_bits_high, andb_false_r by lia.
Qed.

Lemma lor_add_shift a b n :
  0 <= n -> 0 <= b < 2 ^ n -> Z.lor (Z.shiftl a n) b = a * 2 ^ n + b.
Proof.
  intros Hn Hb. pose proof (land_shiftl_low a b n Hn Hb) as E.
  rewrite <- Z.shiftl_mul_pow2 by lia.
  by rewrite <- Z.lxor_lor, <- Z.add_nocarry_lxor.
Qed.

Lemma lor_u32 a b : 0 <= a < 2 ^ 32 -> 0 <= b < 2 ^ 32 -> 0 <= Z.lor a b < 2 ^ 32.
Proof.
  intros Ha Hb. split; [apply Z.lor_nonneg; lia|].
  destruct (Z.eq_dec (Z.lor a b) 0) as [->|Hne]; [lia|].
  assert (0 <= Z.lor a b) by (apply Z.lor_nonneg; lia).
  apply Z.log2_lt_pow2; [lia|]. rewrite Z.log2_lor by lia.
  apply Z.max_lub_lt.
  - destruct (Z.eq_dec a 0) as [->|]; [simpl; lia|]. apply Z.log2_lt_pow2; lia.
  - destruct (Z.eq_dec b 0) as [->|]; [simpl; lia|]. apply Z.log2_lt_pow2; lia.
Qed.

(** Deciding [bytes_ok] on a concrete buffer. *)
Definition bytes_okb (l : list Z) : bool := forallb (fun b => (0 <=? b) && (b <? 256)) l.

Lemma bytes_okb_ok l : bytes_okb l = true -> bytes_ok l.
Proof.
  unfold bytes_okb. rewrite forallb_forall. intros Hl. apply Forall_forall.
  intros x Hx%list_elem_of_In. specialize (Hl x Hx).
  apply andb_true_iff in Hl as [?%Z.leb_le ?%Z.ltb_lt]. by split.
Qed.

(** Reading a number back from [w] bits gives it back exactly when it fits. *)
Lemma sext_eq_iff w x : 0 < w -> sext w x = x <-> - 2 ^ (w - 1) <= x < 2 ^ (w - 1).
Proof.
  intros Hw. split; [|by apply sext_id]. intros E. rewrite <- E. by apply sext_range.
Qed.

(** Splitting and truncating little-endian words. *)
Lemma le_bytes_mod n v : le_bytes n (v mod 2 ^ (8 * Z.of_nat n)) = le_bytes n v.
Proof.
  revert v. induction n as [|n IH]; intros v; [done|]. cbn [le_bytes].
  replace (8 * Z.of_nat (S n)) with (8 + 8 * Z.of_nat n) by lia.
  rewrite Z.pow_add_r by lia. change (2 ^ 8) with 256. rewrite Z.rem_mul_r by lia.
  pose proof (Z.mod_pos_bound v 256 ltac:(lia)).
  rewrite (Z.mul_comm 256), Z.mod_add, Z.mod_mod, Z.div_add by lia.
  rewrite (Z.div_small (v mod 256)), Z.add_0_l by lia. by rewrite IH.
Qed.

Lemma le_bytes_app n k v :
  le_bytes (n + k) v = le_bytes n v ++ le_bytes k (v / 2 ^ (8 * Z.of_nat n)).
Proof.
  revert v. induction n as [|n IH]; intros v; [by rewrite Z.div_1_r|]. cbn [Nat.add le_bytes app].
  rewrite IH. replace (8 * Z.of_nat (S n)) with (8 + 8 * Z.of_nat n) by lia.
  rewrite Z.pow_add_r by lia. change (2 ^ 8) with 256. by rewrite Z.div_div by lia.
Qed.
