(* ===== verification/Loops.v ===== *)
(** Loops whose number of turns is not a small constant.

    [while_] runs the body of a loop until it answers [inr].  The loops it
    models keep their position in a machine word, so that one still running
    after 2^64 turns has come back to a position it was in and never ends:
    undefined behaviour, since C++ assumes that a loop without I/O makes
    progress.  The turns are counted in binary, so that the definitions
    compute; [while_stop] is the rule the proofs use.  [table_loop] is the
    loop over the entries of a table in guest memory. *)

From S2P Require Import Prelude.
From S2P Require Import Words.
#[local] Open Scope Z_scope.

Section Loops.
Context {S St R : Type}.
Implicit Types (f : St -> M S (St + R)).

(** Go on from [inl], stay at [inr]. *)
Definition loop_then (k : St -> M S (St + R)) (r : St + R) : M S (St + R) :=
  match r with inl s => k s | inr x => M_ret (inr x) end.

Fixpoint pos_loop (n : positive) f (s : St) : M S (St + R) :=
  match n with
  | xH => f s
  | xO p => M_bind (loop_then (pos_loop p f)) (pos_loop p f s)
  | xI p => M_bind (loop_then (fun s => M_bind (loop_then (pos_loop p f)) (pos_loop p f s))) (f s)
  end.

Definition max_turns : positive := 2 ^ 64.

Definition while_ f (s : St) : M S R :=
  M_bind (fun r => match r with inl _ => lift UB | inr x => M_ret x end) (pos_loop max_turns f s).

(** *** Counting the turns in unary *)

Fixpoint nat_loop (n : nat) f (s : St) : M S (St + R) :=
  match n with
  | O => M_ret (inl s)
  | Datatypes.S k => M_bind (loop_then (nat_loop k f)) (f s)
  end.

Lemma nat_loop_step n f s w r w' :
  f s w = (Ret r, w') -> nat_loop (Datatypes.S n) f s w = loop_then (nat_loop n f) r w'.
Proof. intros E. cbn [nat_loop]. unfold M_bind. by rewrite E. Qed.

Lemma nat_loop_add a b f s w :
  nat_loop (a + b) f s w = M_bind (loop_then (nat_loop b f)) (nat_loop a f s) w.
Proof.
  revert s w. induction a as [|a IH]; intros s w; [done|].
  cbn [Nat.add nat_loop]. unfold M_bind in *.
  destruct (f s w) as [[[s'|x]|e|] w']; try done.
  cbn [loop_then]. rewrite IH. done.
Qed.

Lemma pos_loop_nat n f s w : pos_loop n f s w = nat_loop (Pos.to_nat n) f s w.
Proof.
  revert s w.
  assert (forall p, (forall s w, pos_loop p f s w = nat_loop (Pos.to_nat p) f s w) ->
    forall s w, M_bind (loop_then (pos_loop p f)) (pos_loop p f s) w
                = nat_loop (Pos.to_nat p + Pos.to_nat p) f s w) as Hd.
  { intros p IH s w. rewrite nat_loop_add. unfold M_bind. rewrite IH.
    destruct (nat_loop _ f s w) as [[[s'|x]|e|] w']; try done. apply IH. }
  induction n as [p IH|p IH|]; intros s w.
  - replace (Pos.to_nat p~1) with (Datatypes.S (Pos.to_nat p + Pos.to_nat p)) by lia.
    cbn [pos_loop nat_loop]. unfold M_bind at 1 3.
    destruct (f s w) as [[[s'|x]|e|] w']; try done. apply Hd, IH.
  - replace (Pos.to_nat p~0) with (Pos.to_nat p + Pos.to_nat p)%nat by lia. apply Hd, IH.
  - change (Pos.to_nat 1) with 1%nat. cbn [pos_loop nat_loop]. unfold M_bind.
    by destruct (f s w) as [[[s'|x]|e|] w'].
Qed.

(** A run that is over. *)
Definition ended (r : outcome (St + R) * S) : option (outcome R * S) :=
  match r with
  | (Ret (inl _), _) => None
  | (Ret (inr x), w) => Some (Ret x, w)
  | (Throw e, w) => Some (Throw e, w)
  | (UB, w) => Some (UB, w)
  end.

Lemma while_stop n f s w r :
  Z.of_nat n <= 2 ^ 64 -> ended (nat_loop n f s w) = Some r -> while_ f s w = r.
Proof.
  intros Hn Hr. unfold while_, M_bind at 1. rewrite pos_loop_nat.
  assert (exists k, Pos.to_nat max_turns = n + k)%nat as [k ->].
  { exists (Z.to_nat (2 ^ 64 - Z.of_nat n)). apply Nat2Z.inj.
    rewrite Nat2Z.inj_add, Z2Nat.id, positive_nat_Z by lia.
    change (Z.pos max_turns) with (2 ^ 64). lia. }
  rewrite nat_loop_add. unfold M_bind.
  destruct (nat_loop n f s w) as [[[s'|x]|e|] w'];
    cbn [ended] in Hr; [discriminate Hr|injection Hr as <-; reflexivity..].
Qed.

(** What the body keeps, the loop keeps. *)
Lemma preserves_while (P : S -> Prop) f :
  (forall s, preserves P (f s)) -> forall s, preserves P (while_ f s).
Proof.
  intros Hf s. apply preserves_bind.
  - assert (forall n, (forall s, preserves P (pos_loop n f s)) ->
      forall r, preserves P (loop_then (pos_loop n f) r)) as Ht.
    { intros n Hn [s'|x]; cbn [loop_then]; [apply Hn|apply preserves_ret]. }
    revert s. induction max_turns as [p IH|p IH|]; intros s; cbn [pos_loop]; auto.
    + apply preserves_bind; [apply Hf|]. intros [s'|x]; cbn [loop_then]; [|apply preserves_ret].
      apply preserves_bind; [apply IH|auto].
    + apply preserves_bind; [apply IH|auto].
  - intros [s'|x]; [apply preserves_lift|apply preserves_ret].
Qed.
End Loops.

(** ** Folding an action over a list *)

Fixpoint foldM {S A B} (f : B -> A -> M S A) (l : list B) (a : A) : M S A :=
  match l with
  | [] => M_ret a
  | b :: r => M_bind (foldM f r) (f b a)
  end.

Lemma foldM_app {S A B} (f : B -> A -> M S A) l1 l2 a w :
  foldM f (l1 ++ l2) a w = M_bind (foldM f l2) (foldM f l1 a) w.
Proof.
  revert a w. induction l1 as [|b l1 IH]; intros a w; [done|].
  cbn [app foldM]. unfold M_bind in *.
  destruct (f b a w) as [[a'|e|] w']; [apply IH|done..].
Qed.

Lemma preserves_foldM {S A B} (P : S -> Prop) (f : B -> A -> M S A) l :
  (forall b a, preserves P (f b a)) -> forall a, preserves P (foldM f l a).
Proof.
  intros Hf. induction l as [|b l IH]; intros a; [apply preserves_ret|].
  apply preserves_bind; auto.
Qed.

(** The loop [for (x : l) m(x)]. *)
Definition for_each {S B} (f : B -> M S unit) (l : list B) : M S unit :=
  foldM (fun b _ => f b) l tt.

Lemma for_each_cons {S B} (f : B -> M S unit) b l w :
  for_each f (b :: l) w = M_bind (fun _ => for_each f l) (f b) w.
Proof.
  unfold for_each. cbn [foldM]. unfold M_bind. by destruct (f b w) as [[[]|e|] w'].
Qed.

Lemma for_each_app {S B} (f : B -> M S unit) l1 l2 w :
  for_each f (l1 ++ l2) w = M_bind (fun _ => for_each f l2) (for_each f l1) w.
Proof.
  unfold for_each. rewrite foldM_app. unfold M_bind.
  by destruct (foldM _ l1 tt w) as [[[]|e|] w'].
Qed.

Lemma preserves_for_each {S B} (P : S -> Prop) (f : B -> M S unit) l :
  (forall b, preserves P (f b)) -> preserves P (for_each f l).
Proof. intros Hf. by apply preserves_foldM. Qed.

(** ** Tables

    [for (uint64_t o = 0; o + sz <= bytes; o += sz)]; [a] is what the turns
    hand on. *)

Section Table.
Context {S A : Type}.

Definition table_loop (sz bytes : Z) (body : Z -> A -> M S A) (a : A) : M S A :=
  while_ (fun '(o, a) =>
    if u64 (o + sz) <=? bytes
    then M_bind (fun a' => M_ret (inl (u64 (o + sz), a'))) (body o a)
    else M_ret (inr a)) (0, a).

Lemma preserves_table (P : S -> Prop) sz bytes (body : Z -> A -> M S A) a :
  (forall o a, preserves P (body o a)) -> preserves P (table_loop sz bytes body a).
Proof.
  intros Hb. apply preserves_while. intros [o a']. destruct (_ <=? _); [|apply preserves_ret].
  apply preserves_bind; [done|]. intros. apply preserves_ret.
Qed.

(** When the end of the table does not wrap around, the loop visits its whole
    entries in order. *)
Lemma table_loop_eq sz bytes (body : Z -> A -> M S A) a w :
  0 < sz -> 0 <= bytes -> bytes + sz < 2 ^ 64 ->
  table_loop sz bytes body a w = foldM (fun i => body (i * sz)) (seqZ 0 (bytes / sz)) a w.
Proof.
  intros Hs Hb Hw.
  assert (0 <= bytes / sz <= bytes) as Hd.
  { split; [by apply Z.div_pos|]. apply Z.div_le_upper_bound; nia. }
  unfold table_loop. set (step := fun '(o, a) => _).
  assert (forall o a, step (o, a) = if u64 (o + sz) <=? bytes
    then M_bind (fun a' => M_ret (inl (u64 (o + sz), a'))) (body o a)
    else M_ret (inr a)) as Hstep by done. clearbody step.
  assert (forall n i a w, 0 <= i -> Z.of_nat n = bytes / sz - i ->
    ended (nat_loop (Datatypes.S n) step (i * sz, a) w)
    = Some (foldM (fun i => body (i * sz)) (seqZ i (Z.of_nat n)) a w)) as Hloop.
  { pose proof (Z.mul_div_le bytes sz Hs) as Hle.
    pose proof (Z.mul_succ_div_gt bytes sz Hs) as Hgt.
    induction n as [|n IH]; intros i a' w' Hi Hn.
    - cbn [nat_loop]. rewrite Hstep, u64_id by nia.
      rewrite (proj2 (Z.leb_gt _ _)) by nia. done.
    - rewrite Nat2Z.inj_succ, seqZ_cons, Z.pred_succ by lia.
      cbn [nat_loop foldM]. rewrite Hstep, u64_id by nia.
      rewrite (proj2 (Z.leb_le _ _)) by nia. unfold M_bind.
      destruct (body (i * sz) a' w') as [[a2|e|] w2]; try done.
      cbn [loop_then M_ret]. replace (i * sz + sz) with (Z.succ i * sz) by lia.
      apply (IH (Z.succ i)); lia. }
  apply (while_stop (Datatypes.S (Z.to_nat (bytes / sz)))); [lia|].
  replace (0, a) with (0 * sz, a) by done. rewrite Hloop by lia.
  by rewrite Z2Nat.id by lia.
Qed.
End Table.
