(* ===== verification/Abi.v ===== *)
(** The guest address-space layout ([include/vardoger/engine/address_space.hpp])
    and the ABI tags and register roles ([include/vardoger/engine/abi.hpp]). *)

From S2P Require Import Prelude.
From S2P Require Import Words.

(** ** Address space *)

Definition kPageSize : Z := 0x1000.
Definition kLibBase : Z := 0x12000000.
Definition kFiniPage : Z := 0x1FFF0000.
Definition kTrampolineBase : Z := 0x20000000.
Definition kTrampolineSize : Z := 0x00010000.
Definition kJavaBase : Z := 0x30000000.
Definition kJavaSize : Z := 0x04000000.
Definition kHeapBase : Z := 0x40000000.
Definition kHeapSize : Z := 0x08000000.
Definition kHeapExtent : Z := 0x04000000.
Definition kTlsBase : Z := 0x50000000.
Definition kTlsSize : Z := 0x00010000.
Definition kBigMallocBase : Z := 0x54000000.
Definition kMmapBase : Z := 0x70000000.
Definition kStackTop : Z := 0xC0000000.
Definition kStackSize : Z := 0x00800000.
Definition kLibBase64 : Z := 0x7000000000.

(** [~(n - 1)] on [uint64_t]. *)
Definition mask64 (n : Z) : Z := u64 (Z.lnot (n - 1)).

Definition page_align_down (a : Z) : Z := Z.land a (mask64 kPageSize).
Definition page_align_up (a : Z) : Z :=
  Z.land (u64 (a + kPageSize - 1)) (mask64 kPageSize).

(** ** ABIs and register roles *)

Inductive Abi := Arm64 | Arm32 | X86 | X86_64.
#[export] Instance Abi_eq_dec : EqDecision Abi.
Proof. solve_decision. Defined.

Inductive Reg :=
| A0 | A1 | A2 | A3 | A4 | A5 | A6 | A7
| Ret0 | Ret1 | Sp | Lr | Pc | SyscallNr.
#[export] Instance Reg_eq_dec : EqDecision Reg.
Proof. solve_decision. Defined.

Definition kIs64 (abi : Abi) : bool :=
  match abi with Arm64 | X86_64 => true | _ => false end.
Definition kIsX86 (abi : Abi) : bool :=
  match abi with X86 | X86_64 => true | _ => false end.
Definition kIsArm (abi : Abi) : bool :=
  match abi with Arm64 | Arm32 => true | _ => false end.
Definition kRetAddrOnStack (abi : Abi) : bool := kIsX86 abi.
Definition kPointerSize (abi : Abi) : Z := if kIs64 abi then 8 else 4.

(** ** Alignment as arithmetic *)

(** Masking with [~(2^n - 1)] clears the low [n] bits. *)
Lemma land_mask64 a n :
  0 <= n <= 64 -> 0 <= a < 2 ^ 64 -> Z.land a (mask64 (2 ^ n)) = a - a mod 2 ^ n.
Proof.
  intros Hn Ha.
  assert (Z.land a (mask64 (2 ^ n)) = Z.ldiff a (Z.ones n)) as ->.
  { apply Z.bits_inj'. intros i Hi. unfold mask64, u64.
    rewrite Z.land_spec, Z.ldiff_spec.
    destruct (decide (i < 64)).
    - rewrite Z.mod_pow2_bits_low by lia. rewrite Z.lnot_spec by lia.
      by rewrite Z.ones_equiv, Z.sub_1_r.
    - rewrite Z.mod_pow2_bits_high by lia.
      assert (Z.testbit a i = false) as ->; [|done].
      rewrite <- (Z.mod_small a (2 ^ 64)) by done.
      apply Z.mod_pow2_bits_high. lia. }
  rewrite Z.ldiff_ones_r by lia. rewrite Z.shiftl_mul_pow2, Z.shiftr_div_pow2 by lia.
  pose proof (Z.div_mod a (2 ^ n)). lia.
Qed.

Lemma page_align_down_eq a : 0 <= a < 2 ^ 64 -> page_align_down a = a - a mod 4096.
Proof. intros. unfold page_align_down. by apply (land_mask64 a 12). Qed.

Lemma page_align_up_eq a :
  0 <= a -> a + 4095 < 2 ^ 64 ->
  page_align_up a = (a + 4095) - (a + 4095) mod 4096.
Proof.
  intros. unfold page_align_up. replace (a + kPageSize - 1) with (a + 4095)
    by (unfold kPageSize; lia).
  rewrite u64_id by lia. apply (land_mask64 _ 12); lia.
Qed.

(** Page alignment in general: the result is a page boundary in range, and
    when nothing wraps it is the nearest one on that side. *)
Lemma page_align_down_spec a :
  0 <= a < 2 ^ 64 ->
  page_align_down a mod 4096 = 0 /\ page_align_down a <= a < page_align_down a + 4096
  /\ 0 <= page_align_down a.
Proof.
  intros. rewrite page_align_down_eq by done.
  pose proof (Z.mod_pos_bound a 4096 ltac:(lia)).
  pose proof (Z.mod_le a 4096 ltac:(lia) ltac:(lia)).
  split; [|lia]. rewrite Zminus_mod_idemp_r. by rewrite Z.sub_diag.
Qed.

Lemma page_align_up_spec a :
  0 <= a -> a + 4095 < 2 ^ 64 ->
  page_align_up a mod 4096 = 0 /\ a <= page_align_up a < a + 4096.
Proof.
  intros. rewrite page_align_up_eq by done.
  pose proof (Z.mod_pos_bound (a + 4095) 4096 ltac:(lia)).
  split; [|lia]. rewrite Zminus_mod_idemp_r. by rewrite Z.sub_diag.
Qed.
