(* ===== verification/Unicorn.v ===== *)
(** The CPU emulator as an interface.

    Unicorn is a third-party library the sources only call, so it is a
    parameter: [UcOps] names the calls [core/engine/engine.cpp] makes on the
    [uc_engine*], [UcLaws] states the documented behaviour the wrapper relies
    on (unicorn.h: mappings are 4 KiB aligned and non-empty, never overlap,
    host reads return what host writes stored, registers hold what was
    written).  [RefUc] is a concrete instance, used by the witnesses. *)

From S2P Require Import Prelude.
From S2P Require Import Words.
From S2P Require Import Abi.

(** The [UC_*_REG_*] identifiers the sources mention. *)
Inductive ucreg :=
| A64_X (n : nat) | A64_SP | A64_PC | A64_NZCV | A64_TPIDR_EL0 | A64_V (n : nat)
| A64_FPSR | A64_FPCR
| A32_R (n : nat) | A32_SP | A32_LR | A32_PC | A32_CPSR | A32_C13_C0_3
| R_RDI | R_RSI | R_RDX | R_RCX | R_R8 | R_R9 | R_R10 | R_RAX | R_RSP | R_RIP
| R_EAX | R_EBX | R_ECX | R_EDX | R_ESI | R_EDI | R_EBP | R_ESP | R_EIP.
#[export] Instance ucreg_eq_dec : EqDecision ucreg.
Proof. solve_decision. Defined.

(** Registers that store every bit written to them, with their width; status
    registers keep only some of theirs and are left out. *)
Definition reg_width (r : ucreg) : option Z :=
  match r with
  | A64_X _ | A64_SP | A64_PC | A64_TPIDR_EL0 => Some 64
  | A64_V _ => Some 128
  | A32_R _ | A32_SP | A32_LR | A32_C13_C0_3 => Some 32
  | R_RDI | R_RSI | R_RDX | R_RCX | R_R8 | R_R9 | R_R10 | R_RAX | R_RSP | R_RIP =>
      Some 64
  | R_EAX | R_EBX | R_ECX | R_EDX | R_ESI | R_EDI | R_EBP | R_ESP | R_EIP => Some 32
  | _ => None
  end.

Class UcOps (U : Type) := {
  uc_mapped : U -> Z -> bool;
  uc_mem_map : U -> Z -> Z -> Z -> option U;
  uc_mem_unmap : U -> Z -> Z -> option U;
  uc_mem_protect : U -> Z -> Z -> Z -> option U;
  uc_mem_read : U -> Z -> Z -> option (list Z);
  uc_mem_write : U -> Z -> list Z -> option U;
  uc_reg_read : U -> ucreg -> Z;
  uc_reg_write : U -> ucreg -> Z -> U;
}.

(** [x] is one of the [n] addresses from [a] on. *)
Definition in_range (a n x : Z) : bool := (a <=? x) && (x <? a + n).

Lemma in_range_spec a n x : in_range a n x = true <-> a <= x < a + n.
Proof. unfold in_range. rewrite andb_true_iff, Z.leb_le, Z.ltb_lt. done. Qed.

Class UcLaws (U : Type) `{UcOps U} : Prop := {
  law_map_args u a n p u' :
    uc_mem_map u a n p = Some u' ->
    0 <= a /\ 0 < n /\ a + n <= 2 ^ 64 /\ a mod 4096 = 0 /\ n mod 4096 = 0;
  law_map_free u a n p u' x :
    uc_mem_map u a n p = Some u' -> a <= x < a + n -> uc_mapped u x = false;
  law_map_mapped u a n p u' x :
    uc_mem_map u a n p = Some u' ->
    uc_mapped u' x = uc_mapped u x || in_range a n x;
  law_read_map u a n p u' b m :
    uc_mem_map u a n p = Some u' -> b + m <= a \/ a + n <= b -> uc_mem_read u' b m = uc_mem_read u b m;
  law_unmap_mapped u a n u' x :
    uc_mem_unmap u a n = Some u' ->
    uc_mapped u' x = uc_mapped u x && negb (in_range a n x);
  law_protect_mapped u a n p u' x :
    uc_mem_protect u a n p = Some u' -> uc_mapped u' x = uc_mapped u x;
  law_write_mapped u a l u' x :
    uc_mem_write u a l = Some u' -> uc_mapped u' x = uc_mapped u x;
  law_reg_mapped u r v x : uc_mapped (uc_reg_write u r v) x = uc_mapped u x;
  law_write_ok u a l :
    (forall x, a <= x < a + zlen l -> uc_mapped u x = true) ->
    is_Some (uc_mem_write u a l);
  law_read_write u a l u' :
    bytes_ok l -> uc_mem_write u a l = Some u' -> uc_mem_read u' a (zlen l) = Some l;
  law_read_write_ne u a l u' b n :
    uc_mem_write u a l = Some u' -> b + n <= a \/ a + zlen l <= b ->
    uc_mem_read u' b n = uc_mem_read u b n;
  law_read_ok u a n :
    0 <= n -> (forall x, a <= x < a + n -> uc_mapped u x = true) -> is_Some (uc_mem_read u a n);
  law_read_mapped u a n l x :
    uc_mem_read u a n = Some l -> a <= x < a + n -> uc_mapped u x = true;
  law_read_split u a n m l :
    0 <= n -> 0 <= m -> uc_mem_read u a (n + m) = Some l ->
    uc_mem_read u a n = Some (take (Z.to_nat n) l) /\
    uc_mem_read u (a + n) m = Some (drop (Z.to_nat n) l);
  law_read_len u a n l :
    uc_mem_read u a n = Some l -> zlen l = n /\ bytes_ok l;
  law_read_reg u r v a n : uc_mem_read (uc_reg_write u r v) a n = uc_mem_read u a n;
  law_reg_mem u a l u' r :
    uc_mem_write u a l = Some u' -> uc_reg_read u' r = uc_reg_read u r;
  law_reg_same u r v w :
    reg_width r = Some w -> uc_reg_read (uc_reg_write u r v) r = v mod 2 ^ w;
  law_reg_other u r r' v :
    r <> r' -> uc_reg_read (uc_reg_write u r v) r' = uc_reg_read u r';
}.

(** ** A concrete instance *)

Record RefUc := mkRefUc {
  ru_ranges : list (Z * Z);     (* mapped [base, base + size) *)
  ru_mem : gmap Z Z;            (* absent = 0, as a fresh mapping reads *)
  ru_regs : ucreg -> Z;
}.

Definition ru_init : RefUc := mkRefUc [] ∅ (fun _ => 0).

Definition ru_mapped (u : RefUc) (x : Z) : bool :=
  existsb (fun '(b, s) => in_range b s x) (ru_ranges u).

Definition ru_overlaps (u : RefUc) (a n : Z) : bool :=
  existsb (fun '(b, s) => (a <? b + s) && (b <? a + n)) (ru_ranges u).

Definition page_args (a n : Z) : bool :=
  (0 <=? a) && (0 <? n) && (a + n <=? 2 ^ 64)
  && (a mod 4096 =? 0) && (n mod 4096 =? 0).

Definition ru_map (u : RefUc) (a n p : Z) : option RefUc :=
  if page_args a n && negb (ru_overlaps u a n)
  then Some (mkRefUc ((a, n) :: ru_ranges u) (ru_mem u) (ru_regs u)) else None.

(** The parts of the range [(b, s)] outside [a, a + n). *)
Definition cut (a n : Z) (r : Z * Z) : list (Z * Z) :=
  let '(b, s) := r in
  [(b, Z.min (b + s) a - b); (Z.max b (a + n), b + s - Z.max b (a + n))].

Definition ru_unmap (u : RefUc) (a n : Z) : option RefUc :=
  if page_args a n
  then Some (mkRefUc (List.flat_map (cut a n) (ru_ranges u)) (ru_mem u) (ru_regs u))
  else None.

(** Every byte of [a, a + n) is mapped. *)
Definition ru_all_mapped (u : RefUc) (a n : Z) : bool :=
  forallb (ru_mapped u) (seqZ a n).

Definition ru_protect (u : RefUc) (a n p : Z) : option RefUc :=
  if page_args a n then Some u else None.

Definition ru_read (u : RefUc) (a n : Z) : option (list Z) :=
  if (0 <=? n) && ru_all_mapped u a n
  then Some ((fun x => u8 (default 0 (ru_mem u !! x))) <$> seqZ a n) else None.

Fixpoint mem_store (m : gmap Z Z) (a : Z) (l : list Z) : gmap Z Z :=
  match l with [] => m | b :: r => mem_store (<[a := b]> m) (a + 1) r end.

Definition ru_write (u : RefUc) (a : Z) (l : list Z) : option RefUc :=
  if ru_all_mapped u a (zlen l)
  then Some (mkRefUc (ru_ranges u) (mem_store (ru_mem u) a l) (ru_regs u)) else None.

Definition ru_reg_write (u : RefUc) (r : ucreg) (v : Z) : RefUc :=
  let v' := match reg_width r with Some w => v mod 2 ^ w | None => v end in
  mkRefUc (ru_ranges u) (ru_mem u)
          (fun r' => if decide (r = r') then v' else ru_regs u r').

#[export] Instance RefUc_ops : UcOps RefUc := {
  uc_mapped := ru_mapped;
  uc_mem_map := ru_map;
  uc_mem_unmap := ru_unmap;
  uc_mem_protect := ru_protect;
  uc_mem_read := ru_read;
  uc_mem_write := ru_write;
  uc_reg_read := ru_regs;
  uc_reg_write := ru_reg_write;
}.

Lemma mem_store_lookup m a l x :
  mem_store m a l !! x =
  if in_range a (zlen l) x then l !! Z.to_nat (x - a) else m !! x.
Proof.
  revert m a. induction l as [|b l IH]; intros m a; simpl.
  - destruct (in_range a (zlen (@nil Z)) x) eqn:E; [|done].
    apply in_range_spec in E. unfold zlen in E. simpl in E. lia.
  - rewrite IH. assert (zlen (b :: l) = 1 + zlen l) as -> by (unfold zlen; simpl; lia).
    pose proof (zlen_nonneg l).
    destruct (in_range (a + 1) (zlen l) x) eqn:E1, (in_range a (1 + zlen l) x) eqn:E2;
      unfold in_range in *; bool_to_Prop.
    + replace (Z.to_nat (x - a)) with (S (Z.to_nat (x - (a + 1)))) by lia. done.
    + apply andb_false_iff in E2 as [?|?]; bool_to_Prop; lia.
    + assert (x = a) as -> by (apply andb_false_iff in E1 as [?|?]; bool_to_Prop; lia).
      rewrite lookup_insert_eq, Z.sub_diag. done.
    + rewrite lookup_insert_ne; [done|]. intros ->.
      apply andb_false_iff in E2 as [?|?]; bool_to_Prop; lia.
Qed.

Lemma ru_all_mapped_spec u a n :
  ru_all_mapped u a n = true <-> forall x, a <= x < a + n -> ru_mapped u x = true.
Proof.
  unfold ru_all_mapped. rewrite forallb_forall. split; intros H x Hx; apply H.
  - apply list_elem_of_In, elem_of_seqZ. lia.
  - apply list_elem_of_In, elem_of_seqZ in Hx. lia.
Qed.

Lemma existsb_flat_map {A B} (f : A -> list B) (p : B -> bool) l :
  existsb p (List.flat_map f l) = existsb (fun x => existsb p (f x)) l.
Proof. induction l as [|x l IH]; [done|]. simpl. by rewrite existsb_app, IH. Qed.

Lemma page_args_spec a n :
  page_args a n = true ->
  0 <= a /\ 0 < n /\ a + n <= 2 ^ 64 /\ a mod 4096 = 0 /\ n mod 4096 = 0.
Proof. unfold page_args. intros. bool_to_Prop. lia. Qed.

Lemma ru_map_inv u a n p u' :
  ru_map u a n p = Some u' ->
  page_args a n = true /\ ru_overlaps u a n = false /\
  u' = mkRefUc ((a, n) :: ru_ranges u) (ru_mem u) (ru_regs u).
Proof.
  unfold ru_map. destruct (page_args a n); [|done].
  destruct (ru_overlaps u a n); naive_solver.
Qed.

Lemma ru_read_map u a n p u' b m :
  ru_map u a n p = Some u' -> b + m <= a \/ a + n <= b -> ru_read u' b m = ru_read u b m.
Proof.
  intros (_ & _ & ->)%ru_map_inv Hd. unfold ru_read. f_equal.
  assert (ru_all_mapped (mkRefUc ((a, n) :: ru_ranges u) (ru_mem u) (ru_regs u)) b m = ru_all_mapped u b m) as ->;
    [|done].
  apply eq_true_iff_eq. rewrite !ru_all_mapped_spec. unfold ru_mapped. cbn [ru_ranges existsb].
  assert (forall x, b <= x < b + m -> in_range a n x = false) as Hout.
  { intros x Hx. unfold in_range. repeat case_Z; done || lia. }
  split; intros Hm x Hx; specialize (Hm x Hx); specialize (Hout x Hx); by rewrite Hout in *.
Qed.

Lemma ru_unmap_mapped u a n u' x :
  ru_unmap u a n = Some u' ->
  ru_mapped u' x = ru_mapped u x && negb (in_range a n x).
Proof.
  unfold ru_unmap. destruct (page_args a n) eqn:E; [|done]. intros [= <-].
  unfold ru_mapped. simpl. rewrite existsb_flat_map.
  induction (ru_ranges u) as [|[b s] l IH]; [done|].
  simpl. rewrite IH. unfold in_range.
  repeat case_Z; try lia; rewrite ?orb_true_r, ?andb_false_r; try done.
Qed.

Lemma ru_read_write u a l u' :
  bytes_ok l -> ru_write u a l = Some u' -> ru_read u' a (zlen l) = Some l.
Proof.
  unfold ru_write, ru_read. destruct (ru_all_mapped u a (zlen l)) eqn:E; [|done].
  intros Hl [= <-].
  assert (ru_all_mapped (mkRefUc (ru_ranges u) (mem_store (ru_mem u) a l) (ru_regs u))
            a (zlen l) = true) as -> by done.
  pose proof (zlen_nonneg l). rewrite (proj2 (Z.leb_le _ _)) by done. simpl. f_equal.
  apply list_eq. intros i. rewrite list_lookup_fmap.
  destruct (decide (i < length l)%nat) as [Hi|Hi].
  - rewrite lookup_seqZ_lt by (unfold zlen; lia). simpl.
    rewrite mem_store_lookup.
    rewrite (proj2 (in_range_spec _ _ _)) by (unfold zlen; lia).
    replace (Z.to_nat (a + Z.of_nat i - a)) with i by lia.
    destruct (l !! i) as [b|] eqn:Eb; [|apply lookup_ge_None in Eb; lia].
    simpl. f_equal. apply u8_id. by eapply Forall_lookup in Hl.
  - rewrite lookup_seqZ_ge by (unfold zlen; lia).
    symmetry. apply lookup_ge_None. lia.
Qed.

Lemma ru_read_write_ne u a l u' b n :
  ru_write u a l = Some u' -> b + n <= a \/ a + zlen l <= b ->
  ru_read u' b n = ru_read u b n.
Proof.
  unfold ru_write, ru_read. destruct (ru_all_mapped u a (zlen l)) eqn:E; [|done].
  intros [= <-] Hd. destruct (Z.leb_spec 0 n); [|done]. simpl.
  destruct (ru_all_mapped u b n) eqn:E2; unfold ru_all_mapped, ru_mapped in *;
    simpl; rewrite E2; [|done]. f_equal.
  apply list_fmap_ext. intros i x Hx%list_elem_of_lookup_2%elem_of_seqZ.
  rewrite mem_store_lookup.
  destruct (in_range a (zlen l) x) eqn:Er; [|done].
  apply in_range_spec in Er. lia.
Qed.

Lemma ru_read_split u a n m l :
  0 <= n -> 0 <= m -> ru_read u a (n + m) = Some l ->
  ru_read u a n = Some (take (Z.to_nat n) l) /\ ru_read u (a + n) m = Some (drop (Z.to_nat n) l).
Proof.
  intros Hn Hm. unfold ru_read.
  destruct ((0 <=? n + m) && ru_all_mapped u a (n + m)) eqn:E; [|done]. intros [= <-].
  apply andb_true_iff in E as [_ E]. rewrite ru_all_mapped_spec in E.
  rewrite (proj2 (Z.leb_le 0 n)), (proj2 (Z.leb_le 0 m)) by done. cbn [andb].
  rewrite !(proj2 (ru_all_mapped_spec _ _ _)) by (intros; apply E; lia).
  rewrite <- fmap_take, <- fmap_drop.
  replace (seqZ a (n + m)) with (seqZ a n ++ seqZ (a + n) m).
  - rewrite take_app_length', drop_app_length' by (rewrite length_seqZ; lia). done.
  - rewrite <- seqZ_app by lia. done.
Qed.

#[export] Instance RefUc_laws : UcLaws RefUc.
Proof.
  split; simpl.
  - intros u a n p u' (Hp & _ & _)%ru_map_inv. by apply page_args_spec.
  - intros u a n p u' x (_ & Ho & _)%ru_map_inv Hx. unfold ru_mapped, ru_overlaps in *.
    induction (ru_ranges u) as [|[b s] l IH]; [done|]. simpl in *.
    apply orb_false_iff in Ho as [H1 H2]. rewrite IH by done.
    rewrite orb_false_r. unfold in_range. repeat case_Z; done || lia.
  - intros u a n p u' x (_ & _ & ->)%ru_map_inv. unfold ru_mapped. simpl. apply orb_comm.
  - apply ru_read_map.
  - intros *. apply ru_unmap_mapped.
  - unfold ru_protect. intros u a n p u' x H. case_match; by simplify_eq.
  - unfold ru_write. intros u a l u' x H. case_match; by simplify_eq.
  - done.
  - intros u a l H. unfold ru_write. rewrite (proj2 (ru_all_mapped_spec _ _ _)); eauto.
  - apply ru_read_write.
  - apply ru_read_write_ne.
  - intros u a n Hn Hm. unfold ru_read. rewrite (proj2 (Z.leb_le _ _)), (proj2 (ru_all_mapped_spec _ _ _)) by done.
    by eexists.
  - unfold ru_read. intros u a n l x H Hx. destruct (0 <=? n); [|done].
    destruct (ru_all_mapped u a n) eqn:E; [|done]. by eapply ru_all_mapped_spec.
  - apply ru_read_split.
  - unfold ru_read. intros u a n l H.
    destruct (Z.leb_spec 0 n), (ru_all_mapped u a n); simplify_eq/=. split.
    + unfold zlen. rewrite length_fmap, length_seqZ. lia.
    + apply Forall_fmap, Forall_true. intros x. apply u8_range.
  - done.
  - unfold ru_write. intros u a l u' r H. case_match; by simplify_eq.
  - intros u r v w Hw. cbn [ru_reg_write ru_regs]. by rewrite Hw, decide_True.
  - intros u r r' v Hne. by rewrite decide_False.
Qed.
