(* ===== verification/Bytes.v ===== *)
(** Guest memory byte by byte.

    [byte_at u x] is what a one-byte read returns.  A longer read returns the
    bytes of its range, a write changes the bytes of its range and no other,
    so that overlapping ranges need no case analysis. *)

From S2P Require Import Prelude.
From S2P Require Import Words.
From S2P Require Import Abi.
From S2P Require Import Unicorn.
#[local] Open Scope Z_scope.

Section Bytes.
Context {U : Type} `{UcLaws U}.

Definition byte_at (u : U) (x : Z) : option Z := uc_mem_read u x 1 ≫= head.
(** The bytes [l] stand at [a]. *)
Definition holds (u : U) (a : Z) (l : list Z) : Prop :=
  forall i c, l !! i = Some c -> byte_at u (a + Z.of_nat i) = Some c.

Lemma byte_at_read u x c : byte_at u x = Some c <-> uc_mem_read u x 1 = Some [c].
Proof.
  unfold byte_at. split; [|by intros ->].
  destruct (uc_mem_read u x 1) as [l|] eqn:E; [|done].
  apply law_read_len in E as [E _]. unfold zlen in E.
  destruct l as [|b [|b' l]]; simpl in E; try lia. by intros [= ->].
Qed.
Lemma byte_at_is_byte u x c : byte_at u x = Some c -> is_byte c.
Proof. intros [_ Hc]%byte_at_read%law_read_len. by inv Hc. Qed.
Lemma byte_at_mapped u x : is_Some (byte_at u x) <-> uc_mapped u x = true.
Proof.
  split.
  - intros [c Hc%byte_at_read]. eapply law_read_mapped; [exact Hc|lia].
  - intros Hx. destruct (law_read_ok u x 1) as [l Hl]; [lia|intros y Hy; by replace y with x by lia|].
    unfold byte_at. rewrite Hl. apply law_read_len in Hl as [Hl _].
    destruct l; [done|]. by eexists.
Qed.

(** The one-byte reads inside a longer one. *)
Lemma read_holds u a n l : uc_mem_read u a n = Some l -> holds u a l.
Proof.
  intros Hl i c Hi. destruct (law_read_len _ _ _ _ Hl) as [En _]. unfold zlen in En.
  pose proof (lookup_lt_Some _ _ _ Hi) as Hlt.
  destruct (law_read_split u a (Z.of_nat i) (n - Z.of_nat i) l) as [_ H2]; [lia..|by rewrite Zplus_minus|].
  replace (n - Z.of_nat i) with (1 + (n - Z.of_nat i - 1)) in H2 by lia.
  apply law_read_split in H2 as [H3 _]; [|lia..].
  apply byte_at_read. rewrite H3. f_equal. rewrite Nat2Z.id.
  rewrite (drop_S _ _ _ Hi). done.
Qed.

Lemma holds_read u a l : holds u a l -> uc_mem_read u a (zlen l) = Some l.
Proof.
  intros Hl.
  destruct (law_read_ok u a (zlen l)) as [l' Hl']; [apply zlen_nonneg| |].
  - intros x Hx. unfold zlen in Hx. apply byte_at_mapped.
    destruct (lookup_lt_is_Some_2 l (Z.to_nat (x - a))) as [c Hc]; [lia|].
    exists c. apply Hl in Hc. by replace (a + Z.of_nat (Z.to_nat (x - a))) with x in Hc by lia.
  - rewrite Hl'. f_equal. destruct (law_read_len _ _ _ _ Hl') as [En _].
    apply read_holds in Hl'. apply list_eq. intros i.
    destruct (l !! i) as [c|] eqn:Ei.
    + destruct (lookup_lt_is_Some_2 l' i) as [c' Hc'].
      { apply lookup_lt_Some in Ei. unfold zlen in En. lia. }
      rewrite Hc'. f_equal. apply Hl in Ei. apply Hl' in Hc'. congruence.
    + apply lookup_ge_None in Ei. apply lookup_ge_None. unfold zlen in En. lia.
Qed.
Lemma holds_iff u a l : holds u a l <-> uc_mem_read u a (zlen l) = Some l.
Proof. split; [apply holds_read|apply read_holds]. Qed.

Lemma holds_app u a l1 l2 : holds u a (l1 ++ l2) <-> holds u a l1 /\ holds u (a + zlen l1) l2.
Proof.
  unfold holds, zlen. split.
  - intros Hl. split; intros i c Hi.
    + apply Hl. by apply lookup_app_l_Some.
    + rewrite <- Z.add_assoc, <- Nat2Z.inj_add. apply Hl. by rewrite lookup_app_r, Nat.add_comm, Nat.add_sub by lia.
  - intros [H1 H2] i c [Hi|[Hle Hi]]%lookup_app_Some; [by apply H1|].
    apply H2 in Hi. rewrite Nat2Z.inj_sub in Hi by done. rewrite <- Hi. f_equal. lia.
Qed.
Lemma holds_one u a c : holds u a [c] <-> byte_at u a = Some c.
Proof.
  unfold holds. split; [intros Hc; rewrite <- (Z.add_0_r a); by apply (Hc O)|].
  intros Hc [|i] c' Hi; [|done]. injection Hi as <-. by rewrite Z.add_0_r.
Qed.
Lemma holds_cons u a c l : holds u a (c :: l) <-> byte_at u a = Some c /\ holds u (a + 1) l.
Proof. rewrite (holds_app _ _ [c] l), holds_one. done. Qed.
Lemma holds_bytes u a l : holds u a l -> bytes_ok l.
Proof. intros Hl. apply Forall_lookup. intros i c Hi. eapply byte_at_is_byte, Hl, Hi. Qed.

(** *** Writes *)

Lemma write_total u a l :
  (forall x, a <= x < a + zlen l -> is_Some (byte_at u x)) -> is_Some (uc_mem_write u a l).
Proof. intros Hx. apply law_write_ok. intros x Hr. by apply byte_at_mapped, Hx. Qed.

Lemma byte_at_write u a l u' x :
  bytes_ok l -> uc_mem_write u a l = Some u' ->
  byte_at u' x = if in_range a (zlen l) x then l !! Z.to_nat (x - a) else byte_at u x.
Proof.
  intros Hb Hw. destruct (in_range a (zlen l) x) eqn:E.
  - apply in_range_spec in E. unfold zlen in E.
    destruct (lookup_lt_is_Some_2 l (Z.to_nat (x - a))) as [c Hc]; [lia|]. rewrite Hc.
    pose proof (law_read_write _ _ _ _ Hb Hw) as Hr. apply read_holds in Hr. apply Hr in Hc.
    by replace (a + Z.of_nat (Z.to_nat (x - a))) with x in Hc by lia.
  - unfold byte_at. rewrite (law_read_write_ne _ _ _ _ x 1 Hw); [done|].
    unfold in_range in E. pose proof (zlen_nonneg l). apply andb_false_iff in E as [E|E]; bool_to_Prop; lia.
Qed.
Lemma write_holds u a l u' : bytes_ok l -> uc_mem_write u a l = Some u' -> holds u' a l.
Proof. intros Hb Hw. by eapply read_holds, law_read_write. Qed.

(** Nothing that can be read is different. *)
Definition same_bytes (u u' : U) : Prop := forall x, byte_at u' x = byte_at u x.
#[export] Instance same_bytes_equiv : Equivalence same_bytes.
Proof. split; [by intros u x|by intros u v Huv x|]. intros u v w Huv Hvw x. by rewrite Hvw, Huv. Qed.
#[export] Instance holds_proper : Proper (same_bytes ==> eq ==> eq ==> iff) holds.
Proof.
  intros u u' Hu a ? <- l ? <-. unfold holds.
  split; intros Hl i c Hi; [rewrite Hu|rewrite <- (Hu (a + Z.of_nat i))]; by apply Hl.
Qed.

Lemma same_bytes_reg u r v : same_bytes u (uc_reg_write u r v).
Proof. intros x. unfold byte_at. by rewrite law_read_reg. Qed.

(** Only the bytes from [a] on, [n] of them, may be different. *)
Definition changed_in (a n : Z) (u u' : U) : Prop :=
  forall x, ~ (a <= x < a + n) -> byte_at u' x = byte_at u x.
Lemma write_changed u a l u' : uc_mem_write u a l = Some u' -> changed_in a (zlen l) u u'.
Proof.
  intros Hw x Hx. unfold byte_at. rewrite (law_read_write_ne _ _ _ _ x 1 Hw); [done|lia].
Qed.
Lemma changed_none a n u u' : same_bytes u u' -> changed_in a n u u'.
Proof. intros Hs x _. apply Hs. Qed.
Lemma changed_sub a n b m u u' : changed_in b m u u' -> a <= b -> b + m <= a + n -> changed_in a n u u'.
Proof. intros Hc ?? x Hx. apply Hc. lia. Qed.
Lemma changed_trans a n u1 u2 u3 : changed_in a n u1 u2 -> changed_in a n u2 u3 -> changed_in a n u1 u3.
Proof. intros H1 H2 x Hx. by rewrite (H2 x Hx), (H1 x Hx). Qed.
Lemma changed_in_holds a n u u' b l :
  changed_in a n u u' -> holds u b l -> b + zlen l <= a \/ a + n <= b -> holds u' b l.
Proof.
  intros Hc Hl Hd i c Hi. rewrite Hc; [by apply Hl|]. apply lookup_lt_Some in Hi. unfold zlen in Hd. lia.
Qed.
End Bytes.
