(* ===== verification/Engine.v ===== *)
(** The Unicorn wrapper: [core/engine/engine.cpp],
    [include/vardoger/engine/engine.hpp] and the argument reader of
    [include/vardoger/engine/args.hpp].

    [check] turns an error code into a [std::runtime_error]; here each
    primitive is an [M U] computation that throws with the failing call's
    name.  The diagnostic environment variables of [Engine::write]
    (VARDOGER_EWRITE_WATCH, VARDOGER_AUTOMAP, VARDOGER_WRITEFAULT_SRC) are
    unset. *)

From S2P Require Import Prelude.
From S2P Require Import Words.
From S2P Require Import Abi.
From S2P Require Import Unicorn.

Section Primitives.
Context {U : Type} `{UcOps U}.

Definition check (what : string) (o : U -> option U) : M U unit := fun u =>
  match o u with Some u' => (Ret tt, u') | None => (Throw what, u) end.

Definition e_map (a n p : Z) : M U unit := check "uc_mem_map" (fun u => uc_mem_map u a n p).
Definition e_unmap (a n : Z) : M U unit := check "uc_mem_unmap" (fun u => uc_mem_unmap u a n).
Definition e_protect (a n p : Z) : M U unit :=
  check "uc_mem_protect" (fun u => uc_mem_protect u a n p).
Definition e_write (a : Z) (l : list Z) : M U unit :=
  check "uc_mem_write" (fun u => uc_mem_write u a l).
Definition e_read (a n : Z) : M U (list Z) := fun u =>
  match uc_mem_read u a n with
  | Some l => (Ret l, u)
  | None => (Throw "uc_mem_read", u)
  end.

(** [read_t<T>] / [write_t<T>] for an [n]-byte unsigned [T]. *)
Definition read_t (n : nat) (a : Z) : M U Z :=
  l ← e_read a (Z.of_nat n); mret (le_val l).
Definition write_t (n : nat) (a v : Z) : M U unit := e_write a (le_bytes n v).

Definition read_uc_reg (r : ucreg) : M U Z := gets (fun u => uc_reg_read u r).
Definition write_uc_reg (r : ucreg) (v : Z) : M U unit :=
  modify (fun u => uc_reg_write u r v).

(** Up to [max] bytes, stopping at a NUL or at an unmapped byte. *)
Fixpoint read_cstr (a : Z) (max : nat) (u : U) : list Z :=
  match max with
  | O => []
  | S m =>
      match uc_mem_read u a 1 with
      | Some [c] => if c =? 0 then [] else c :: read_cstr (a + 1) m u
      | _ => []
      end
  end.

(** *** Registers by role *)

Definition reg_id (abi : Abi) (r : Reg) : outcome ucreg :=
  match abi with
  | Arm64 =>
      match r with
      | A0 | Ret0 => Ret (A64_X 0)
      | A1 | Ret1 => Ret (A64_X 1)
      | A2 => Ret (A64_X 2)
      | A3 => Ret (A64_X 3)
      | A4 => Ret (A64_X 4)
      | A5 => Ret (A64_X 5)
      | A6 => Ret (A64_X 6)
      | A7 => Ret (A64_X 7)
      | Sp => Ret A64_SP
      | Lr => Ret (A64_X 30)
      | Pc => Ret A64_PC
      | SyscallNr => Ret (A64_X 8)
      end
  | Arm32 =>
      match r with
      | A0 | Ret0 => Ret (A32_R 0)
      | A1 | Ret1 => Ret (A32_R 1)
      | A2 => Ret (A32_R 2)
      | A3 => Ret (A32_R 3)
      | Sp => Ret A32_SP
      | Lr => Ret A32_LR
      | Pc => Ret A32_PC
      | SyscallNr => Ret (A32_R 7)
      | A4 | A5 | A6 | A7 => Throw "arm32: argument slots A4..A7 live on the stack"
      end
  | X86_64 =>
      match r with
      | A0 => Ret R_RDI
      | A1 => Ret R_RSI
      | A2 => Ret R_RDX
      | A3 => Ret R_RCX
      | A4 => Ret R_R8
      | A5 => Ret R_R9
      | Ret0 | SyscallNr => Ret R_RAX
      | Ret1 => Ret R_RDX
      | Sp => Ret R_RSP
      | Pc => Ret R_RIP
      | A6 | A7 => Throw "x86_64: argument slots A6/A7 live on the stack"
      | Lr => Throw "x86_64 has no link register"
      end
  | X86 =>
      match r with
      | Ret0 | SyscallNr => Ret R_EAX
      | Ret1 => Ret R_EDX
      | Sp => Ret R_ESP
      | Pc => Ret R_EIP
      | A0 | A1 | A2 | A3 | A4 | A5 | A6 | A7 =>
          Throw "x86 (cdecl): all arguments live on the stack"
      | Lr => Throw "x86 has no link register"
      end
  end.

Definition read_reg (abi : Abi) (r : Reg) : M U Z :=
  id ← lift (reg_id abi r); read_uc_reg id.
Definition write_reg (abi : Abi) (r : Reg) (v : Z) : M U unit :=
  id ← lift (reg_id abi r); write_uc_reg id v.

(** [static_cast<Reg>(static_cast<int>(Reg::A0) + i)]. *)
Definition arg_reg (i : nat) : Reg :=
  match i with
  | 0 => A0 | 1 => A1 | 2 => A2 | 3 => A3 | 4 => A4 | 5 => A5 | 6 => A6 | 7 => A7
  | 8 => Ret0 | 9 => Ret1 | 10 => Sp | 11 => Lr | 12 => Pc | _ => SyscallNr
  end%nat.

(** *** Passing arguments *)

Definition set_args_nreg (abi : Abi) : nat :=
  match abi with Arm64 => 8 | Arm32 => 4 | X86_64 => 6 | X86 => 0 end.

Fixpoint set_reg_args (abi : Abi) (i : nat) (args : list Z) : M U unit :=
  match args with
  | [] => skip
  | a :: r => _ ← write_reg abi (arg_reg i) a; set_reg_args abi (S i) r
  end.

Fixpoint push_words (psz : nat) (cur : Z) (l : list Z) : M U unit :=
  match l with
  | [] => skip
  | a :: r => _ ← write_t psz cur a; push_words psz (u64 (cur + Z.of_nat psz)) r
  end.

Definition set_args (abi : Abi) (args : list Z) : M U unit :=
  let nreg := set_args_nreg abi in
  _ ← (if decide (abi = X86_64)
       then sp ← read_reg abi Sp; write_reg abi Sp (Z.land sp (mask64 16))
       else skip);
  _ ← set_reg_args abi 0 (take nreg args);
  let overflow := drop nreg args in
  if (length overflow =? 0)%nat then skip else
  let psz := kPointerSize abi in
  let bytes := zlen overflow * psz in
  let bytes := if kIs64 abi then Z.land (u64 (bytes + 15)) (mask64 16) else bytes in
  sp0 ← read_reg abi Sp;
  let sp := u64 (sp0 - bytes) in
  _ ← push_words (Z.to_nat psz) sp overflow;
  write_reg abi Sp sp.

Definition set_return_address (abi : Abi) (magic_return : Z) : M U unit :=
  if negb (kRetAddrOnStack abi) then write_reg abi Lr magic_return else
  let psz := kPointerSize abi in
  sp0 ← read_reg abi Sp;
  let sp := u64 (sp0 - psz) in
  _ ← write_t (Z.to_nat psz) sp magic_return;
  write_reg abi Sp sp.

(** CPSR.T follows the low bit of the entry address. *)
Definition kThumbBit : Z := 32.
Definition set_thumb (addr : Z) : M U unit :=
  cpsr ← read_uc_reg A32_CPSR;
  write_uc_reg A32_CPSR (if Z.odd addr then Z.lor cpsr kThumbBit
                         else Z.land cpsr (u64 (Z.lnot kThumbBit))).

Definition redirect (abi : Abi) (fn : Z) : M U unit :=
  if decide (abi = Arm32)
  then _ ← set_thumb fn; write_reg abi Pc (Z.land fn (mask64 2))
  else write_reg abi Pc fn.

(** *** The [Args] reader *)

Record Args := mkArgs { reg_idx_ : nat; stack_off_ : Z }.
Definition args_init : Args := mkArgs 0 0.

Definition next_int (abi : Abi) (a : Args) : M U (Z * Args) :=
  let nreg := (if decide (abi = Arm64) then 8 else 4)%nat in
  if (reg_idx_ a <? nreg)%nat
  then v ← read_reg abi (arg_reg (reg_idx_ a));
       mret (v, mkArgs (S (reg_idx_ a)) (stack_off_ a))
  else
    let psz := kPointerSize abi in
    sp ← read_reg abi Sp;
    v ← read_t (Z.to_nat psz) (u64 (sp + stack_off_ a));
    mret (v, mkArgs (reg_idx_ a) (stack_off_ a + psz)).

Fixpoint next_ints (abi : Abi) (n : nat) (a : Args) : M U (list Z) :=
  match n with
  | O => mret []
  | S k => r ← next_int abi a; rest ← next_ints abi k (snd r); mret (fst r :: rest)
  end.
End Primitives.

(** ** Running guest code *)

Inductive uc_err := UC_ERR_OK | UC_ERR_FETCH_PROT | UC_ERR_WRITE_PROT | UC_ERR_OTHER (n : Z).
#[export] Instance uc_err_eq_dec : EqDecision uc_err.
Proof. solve_decision. Defined.

Definition kDefaultTimeoutUs : Z := 10000000.
Definition UC_PROT_READ : Z := 1.
Definition UC_PROT_WRITE : Z := 2.
Definition UC_PROT_EXEC : Z := 4.
Definition UC_PROT_ALL : Z := 7.

Section Run.
Context {U : Type} `{UcOps U}.
Variable abi : Abi.
(** [uc_emu_start uc start until timeout count], hooks included: what the
    guest and the host callbacks do to the world. *)
Variable uc_emu_start : Z -> Z -> Z -> Z -> M U uc_err.
(** The host's callbacks; a [std::function] that is not set does nothing. *)
Variable wx_page_cb : Z -> M U unit.
Variable on_error : uc_err -> Z -> M U unit.

Record Engine := mkEngine {
  es_uc : U;
  in_emu_ : bool;
  wx_ : bool;
  write_prot_flip_ : bool;
  write_prot_lo_ : Z;
  write_prot_hi_ : Z;
}.

Definition set_wx (on : bool) : M Engine unit := modify (fun e =>
  mkEngine (es_uc e) (in_emu_ e) on (write_prot_flip_ e) (write_prot_lo_ e)
           (write_prot_hi_ e)).
Definition set_write_prot_flip (lo hi : Z) : M Engine unit := modify (fun e =>
  mkEngine (es_uc e) (in_emu_ e) (wx_ e) (lo <? hi) lo hi).

Definition with_uc (e : Engine) (u : U) : Engine :=
  mkEngine u (in_emu_ e) (wx_ e) (write_prot_flip_ e) (write_prot_lo_ e)
           (write_prot_hi_ e).
Definition with_in_emu (e : Engine) (b : bool) : Engine :=
  mkEngine (es_uc e) b (wx_ e) (write_prot_flip_ e) (write_prot_lo_ e)
           (write_prot_hi_ e).

Definition on_uc {A} (m : M U A) : M Engine A := fun e =>
  let '(r, u) := m (es_uc e) in (r, with_uc e u).

(** [uc_mem_protect] called for its effect, its error code ignored. *)
Definition protect_rwx (a n : Z) : M U unit := fun u =>
  (Ret tt, default u (uc_mem_protect u a n UC_PROT_ALL)).

(** The last part of the loop body: a fatal error is reported, then thrown. *)
Definition run_end (err : uc_err) : M Engine unit :=
  if decide (err = UC_ERR_OK) then skip else
  pc ← on_uc (read_reg abi Pc);
  _ ← on_uc (on_error err pc);
  throw "uc_emu_start".

(** The stop-fix-restart loop.  [iters] counts down from 2000000 the
    restarts still allowed ([wx_iters < 2000000]). *)
Fixpoint run_loop (iters : nat) (start until timeout_us count : Z) : M Engine unit :=
  err ← on_uc (uc_emu_start start until timeout_us count);
  e ← get;
  match iters with
  | S k =>
      if (if decide (err = UC_ERR_FETCH_PROT) then wx_ e else false) then
        pc0 ← on_uc (read_reg abi Pc);
        let pc := Z.land pc0 (mask64 2) in
        let page := Z.land pc (mask64 0x1000) in
        _ ← on_uc (protect_rwx page 0x1000);
        _ ← on_uc (wx_page_cb page);
        run_loop k pc until timeout_us count
      else if (if decide (err = UC_ERR_WRITE_PROT) then write_prot_flip_ e else false)
              && (write_prot_lo_ e <? write_prot_hi_ e) then
        let lo := Z.land (write_prot_lo_ e) (mask64 0x1000) in
        let hi := Z.land (u64 (write_prot_hi_ e + 0xFFF)) (mask64 0x1000) in
        _ ← on_uc (protect_rwx lo (u64 (hi - lo)));
        _ ← on_uc (wx_page_cb lo);
        pc0 ← on_uc (read_reg abi Pc);
        run_loop k (Z.land pc0 (mask64 2)) until timeout_us count
      else run_end err
  | O => run_end err
  end.

(** [Restore] puts [in_emu_] back whatever way the loop is left. *)
Definition guarded {A} (m : M Engine A) : M Engine A := fun e =>
  let '(r, e') := m (with_in_emu e true) in (r, with_in_emu e' (in_emu_ e)).

Definition max_wx_iters : nat := Z.to_nat 2000000.

Definition run (start until timeout_us count : Z) : M Engine unit :=
  if decide (abi = Arm32) then
    _ ← on_uc (set_thumb start);
    guarded (run_loop max_wx_iters (Z.land start (mask64 2))
                      (Z.land until (mask64 2)) timeout_us count)
  else guarded (run_loop max_wx_iters start until timeout_us count).

Definition call (fn : Z) (args : list Z) (magic_return timeout_us : Z) : M Engine Z :=
  e ← get;
  if in_emu_ e then throw "nested Engine::call is unsupported by Unicorn" else
  _ ← on_uc (set_args abi args);
  _ ← on_uc (set_return_address abi magic_return);
  _ ← run fn magic_return timeout_us 0;
  on_uc (read_reg abi Ret0).

(** ** Re-entrancy flag *)

Lemma guarded_in_emu {A} (m : M Engine A) e r e' :
  guarded m e = (r, e') -> in_emu_ e' = in_emu_ e.
Proof. unfold guarded. destruct (m _) as [r1 e1]. by intros [= _ <-]. Qed.

Lemma on_uc_in_emu {A} (m : M U A) b :
  preserves (fun e => in_emu_ e = b) (on_uc m).
Proof.
  intros e r e' He. unfold on_uc. destruct (m (es_uc e)) as [r1 u1].
  by intros [= _ <-].
Qed.

Lemma run_in_emu start until t c b :
  preserves (fun e => in_emu_ e = b) (run start until t c).
Proof.
  assert (forall A (m : M Engine A), preserves (fun e => in_emu_ e = b) (guarded m))
    as Hg.
  { intros A m e r e' He Hm. apply guarded_in_emu in Hm. congruence. }
  unfold run. destruct (decide _); [|apply Hg].
  apply preserves_bind; [apply on_uc_in_emu|intros _; apply Hg].
Qed.

(** [in_emu_] never sticks: however a run or a call ends (a normal
    return, a guest fault, a host exception unwinding through
    [uc_emu_start], undefined behaviour), the flag has its old value, so a
    later top-level call is not mistaken for a nested one. *)
Lemma call_restores_in_emu fn args magic t e r e' :
  call fn args magic t e = (r, e') -> in_emu_ e' = in_emu_ e.
Proof.
  enough (preserves (fun e0 => in_emu_ e0 = in_emu_ e) (call fn args magic t)) as Hp.
  { by apply Hp. }
  intros e0 r0 e0' He. unfold call. rewrite bind_get.
  destruct (in_emu_ e0) eqn:E.
  - intros [= <- <-]. congruence.
  - apply (preserves_bind (fun x => in_emu_ x = in_emu_ e)); [apply on_uc_in_emu| |congruence].
    intros _. apply preserves_bind; [apply on_uc_in_emu|]. intros _.
    apply preserves_bind; [apply run_in_emu|]. intros _. apply on_uc_in_emu.
Qed.

(** A nested call is refused before anything is touched. *)
Lemma nested_call_rejected fn args magic t e :
  in_emu_ e = true ->
  call fn args magic t e =
  (Throw "nested Engine::call is unsupported by Unicorn", e).
Proof. intros He. unfold call. rewrite bind_get. by rewrite He. Qed.
End Run.

(** ** The calling convention *)

Section CallingConvention.
Context {U : Type} `{UcLaws U}.

(** The two ARM ABIs pass the first [nreg] arguments in registers. *)
Definition arm_argreg (abi : Abi) (i : nat) : ucreg :=
  match abi with Arm64 => A64_X i | _ => A32_R i end.
Definition arm_sp (abi : Abi) : ucreg :=
  match abi with Arm64 => A64_SP | _ => A32_SP end.

Lemma reg_id_arg abi i :
  kIsArm abi = true -> (i < set_args_nreg abi)%nat ->
  reg_id abi (arg_reg i) = Ret (arm_argreg abi i).
Proof.
  intros Ha Hi. destruct abi; try done; simpl in Hi;
    repeat (destruct i as [|i]; [done|]); lia.
Qed.

Lemma reg_id_sp abi : kIsArm abi = true -> reg_id abi Sp = Ret (arm_sp abi).
Proof. by destruct abi. Qed.

Lemma reg_width_arg abi i :
  kIsArm abi = true -> reg_width (arm_argreg abi i) = Some (8 * kPointerSize abi).
Proof. by destruct abi. Qed.
Lemma reg_width_sp abi :
  kIsArm abi = true -> reg_width (arm_sp abi) = Some (8 * kPointerSize abi).
Proof. by destruct abi. Qed.
Lemma arm_argreg_inj abi i j :
  kIsArm abi = true -> arm_argreg abi i = arm_argreg abi j -> i = j.
Proof. destruct abi; simpl; congruence. Qed.
Lemma arm_argreg_sp abi i : arm_argreg abi i <> arm_sp abi.
Proof. by destruct abi. Qed.

Lemma write_reg_run abi r id v (u : U) :
  reg_id abi r = Ret id -> write_reg abi r v u = (Ret tt, uc_reg_write u id v).
Proof. intros E. unfold write_reg. rewrite E. done. Qed.
Lemma read_reg_run abi r id (u : U) :
  reg_id abi r = Ret id -> read_reg abi r u = (Ret (uc_reg_read u id), u).
Proof. intros E. unfold read_reg. rewrite E. done. Qed.

(** The register part of [set_args]. *)
Lemma set_reg_args_spec abi i args (u : U) :
  kIsArm abi = true -> (i + length args <= set_args_nreg abi)%nat ->
  exists u', set_reg_args abi i args u = (Ret tt, u') /\
    (forall k v, args !! k = Some v ->
       uc_reg_read u' (arm_argreg abi (i + k)) = v mod 2 ^ (8 * kPointerSize abi)) /\
    (forall r, (forall k, (i <= k)%nat -> r <> arm_argreg abi k) ->
       uc_reg_read u' r = uc_reg_read u r) /\
    (forall a n, uc_mem_read u' a n = uc_mem_read u a n) /\
    (forall x, uc_mapped u' x = uc_mapped u x).
Proof.
  intros Ha. revert i u. induction args as [|v args IH]; intros i u Hl.
  { exists u. split; [done|]. split; [intros k v; by rewrite lookup_nil|done]. }
  simpl in Hl. cbn [set_reg_args].
  unfold mbind, M_mbind, M_bind.
  rewrite (write_reg_run _ _ _ _ _ (reg_id_arg abi i Ha ltac:(lia))).
  destruct (IH (S i) (uc_reg_write u (arm_argreg abi i) v) ltac:(lia))
    as (u' & -> & Hargs & Hrest & Hmem & Hmap).
  exists u'. split; [done|]. split; [|split; [|split]].
  - intros [|k] w; simpl.
    + intros [= ->]. rewrite Nat.add_0_r, Hrest.
      * apply law_reg_same. by apply reg_width_arg.
      * intros k Hk E. apply arm_argreg_inj in E; [lia|done].
    + intros Hk. rewrite <- (Hargs k w Hk). do 2 f_equal. lia.
  - intros r Hr. rewrite Hrest by (intros k ?; apply Hr; lia).
    apply law_reg_other. intros <-. by apply (Hr i).
  - intros a n. by rewrite Hmem, law_read_reg.
  - intros x. by rewrite Hmap, law_reg_mapped.
Qed.

(** The stack part: consecutive words from [cur] on. *)
Lemma push_words_spec (psz : nat) cur l (u : U) :
  (0 < psz)%nat -> 0 <= cur -> cur + Z.of_nat psz * zlen l <= 2 ^ 64 ->
  (forall x, cur <= x < cur + Z.of_nat psz * zlen l -> uc_mapped u x = true) ->
  exists u', push_words psz cur l u = (Ret tt, u') /\
    (forall k v, l !! k = Some v ->
       uc_mem_read u' (cur + Z.of_nat psz * Z.of_nat k) (Z.of_nat psz)
       = Some (le_bytes psz v)) /\
    (forall r, uc_reg_read u' r = uc_reg_read u r) /\
    (forall a n, a + n <= cur -> uc_mem_read u' a n = uc_mem_read u a n).
Proof.
  intros Hp. revert cur u. induction l as [|v l IH]; intros cur u Hc Hl Hm.
  { exists u. split; [done|]. split; [intros k v; by rewrite lookup_nil|done]. }
  assert (zlen (v :: l) = 1 + zlen l) as E by (unfold zlen; simpl; lia).
  rewrite E in *. pose proof (zlen_nonneg l).
  assert (zlen (le_bytes psz v) = Z.of_nat psz) as Elen
    by (unfold zlen; by rewrite length_le_bytes).
  destruct (law_write_ok u cur (le_bytes psz v)) as [u1 Hu1].
  { intros x Hx. apply Hm. rewrite Elen in Hx. nia. }
  cbn [push_words]. unfold mbind, M_mbind, M_bind, write_t, e_write, check.
  rewrite Hu1. destruct (decide (l = [])) as [->|Hne].
  { exists u1. split; [done|]. split; [|split].
    - intros [|k] w Hk; [|by destruct k]. injection Hk as ->.
      rewrite Z.mul_0_r, Z.add_0_r, <- Elen. eapply law_read_write; [apply le_bytes_ok|done].
    - intros r. by eapply law_reg_mem.
    - intros a n Ha. eapply law_read_write_ne; [done|]. lia. }
  assert (1 <= zlen l) by (destruct l; [done|unfold zlen; simpl; lia]).
  rewrite u64_id by nia.
  destruct (IH (cur + Z.of_nat psz) u1) as (u' & -> & Hargs & Hreg & Hmem); [nia|nia| |].
  { intros x Hx. erewrite law_write_mapped by done. apply Hm. nia. }
  exists u'. split; [done|]. split; [|split].
  - intros [|k] w Hk; simpl in Hk.
    + injection Hk as ->. rewrite Hmem by lia.
      rewrite Z.mul_0_r, Z.add_0_r, <- Elen. eapply law_read_write; [apply le_bytes_ok|done].
    + rewrite <- (Hargs k w Hk). f_equal. lia.
  - intros r. rewrite Hreg. by eapply law_reg_mem.
  - intros a n Ha. rewrite Hmem by lia. eapply law_read_write_ne; [done|]. lia.
Qed.

Lemma next_int_reg abi i off (u : U) :
  kIsArm abi = true -> (i < set_args_nreg abi)%nat ->
  next_int abi (mkArgs i off) u
  = (Ret (uc_reg_read u (arm_argreg abi i), mkArgs (S i) off), u).
Proof.
  intros Ha Hi. unfold next_int. cbn [reg_idx_ stack_off_].
  replace (if decide (abi = Arm64) then 8%nat else 4%nat) with (set_args_nreg abi)
    by (by destruct abi).
  rewrite (proj2 (Nat.ltb_lt _ _)) by done.
  unfold mbind, M_mbind, M_bind. by rewrite (read_reg_run _ _ _ _ (reg_id_arg abi i Ha Hi)).
Qed.

Lemma next_int_stack abi off v (u : U) :
  kIsArm abi = true -> 0 <= v < 2 ^ (8 * kPointerSize abi) ->
  uc_mem_read u (u64 (uc_reg_read u (arm_sp abi) + off)) (kPointerSize abi)
    = Some (le_bytes (Z.to_nat (kPointerSize abi)) v) ->
  next_int abi (mkArgs (set_args_nreg abi) off) u
  = (Ret (v, mkArgs (set_args_nreg abi) (off + kPointerSize abi)), u).
Proof.
  intros Ha Hv Hm. unfold next_int. cbn [reg_idx_ stack_off_].
  replace (if decide (abi = Arm64) then 8%nat else 4%nat) with (set_args_nreg abi)
    by (by destruct abi).
  rewrite Nat.ltb_irrefl.
  assert (0 <= kPointerSize abi) by (destruct abi; done).
  unfold mbind, M_mbind, M_bind. rewrite (read_reg_run _ _ _ _ (reg_id_sp abi Ha)).
  unfold read_t, mbind, M_mbind, M_bind, e_read.
  rewrite Z2Nat.id, Hm by done. cbn.
  rewrite le_val_bytes, Z2Nat.id by done. by rewrite Z.mod_small.
Qed.

Lemma next_ints_stack abi l off (u : U) :
  kIsArm abi = true ->
  (forall k v, l !! k = Some v -> 0 <= v < 2 ^ (8 * kPointerSize abi) /\
     uc_mem_read u (u64 (uc_reg_read u (arm_sp abi) + off
                         + kPointerSize abi * Z.of_nat k)) (kPointerSize abi)
     = Some (le_bytes (Z.to_nat (kPointerSize abi)) v)) ->
  next_ints abi (length l) (mkArgs (set_args_nreg abi) off) u = (Ret l, u).
Proof.
  intros Ha. revert off. induction l as [|v l IH]; intros off Hl; [done|].
  destruct (Hl 0%nat v eq_refl) as [Hv Hm].
  rewrite Z.mul_0_r, Z.add_0_r in Hm.
  cbn [length next_ints]. unfold mbind, M_mbind, M_bind.
  rewrite (next_int_stack abi off v u Ha Hv Hm). cbn [fst snd].
  rewrite IH; [done|]. intros k w Hk. destruct (Hl (S k) w Hk) as [? Hr].
  split; [done|]. rewrite <- Hr. f_equal. f_equal. lia.
Qed.

Lemma next_ints_regs abi l1 l2 i (u : U) :
  kIsArm abi = true -> (i + length l1 <= set_args_nreg abi)%nat ->
  (forall k v, l1 !! k = Some v -> uc_reg_read u (arm_argreg abi (i + k)) = v) ->
  next_ints abi (length l2) (mkArgs (i + length l1) 0) u = (Ret l2, u) ->
  next_ints abi (length (l1 ++ l2)) (mkArgs i 0) u = (Ret (l1 ++ l2), u).
Proof.
  intros Ha. revert i. induction l1 as [|v l1 IH]; intros i Hi Hr Hl2.
  { by rewrite Nat.add_0_r in Hl2. }
  simpl in Hi. cbn [app length next_ints]. unfold mbind, M_mbind, M_bind.
  rewrite next_int_reg by (done || lia). cbn [fst snd].
  rewrite (IH (S i)).
  - rewrite <- (Hr 0%nat v eq_refl), Nat.add_0_r. done.
  - lia.
  - intros k w Hk. rewrite <- (Hr (S k) w Hk). do 2 f_equal. lia.
  - rewrite <- Hl2. do 2 f_equal. simpl. lia.
Qed.

(** Bytes [set_args] takes from the stack for [n] overflow words. *)
Definition overflow_bytes (abi : Abi) (n : Z) : Z :=
  let bytes := n * kPointerSize abi in
  if kIs64 abi then Z.land (u64 (bytes + 15)) (mask64 16) else bytes.

Lemma overflow_bytes_spec abi n :
  0 <= n < 2 ^ 32 ->
  n * kPointerSize abi <= overflow_bytes abi n < n * kPointerSize abi + 16.
Proof.
  intros Hn. unfold overflow_bytes.
  assert (0 < kPointerSize abi <= 8) by (by destruct abi).
  destruct (kIs64 abi); [|lia].
  rewrite u64_id by nia. rewrite (land_mask64 _ 4) by nia.
  pose proof (Z.mod_pos_bound (n * kPointerSize abi + 15) (2 ^ 4)). lia.
Qed.

(** What [set_args] still does after the registers, on the ARM ABIs. *)
Lemma set_args_eq abi args (u u1 : U) :
  kIsArm abi = true ->
  set_reg_args abi 0 (take (set_args_nreg abi) args) u = (Ret tt, u1) ->
  set_args abi args u =
  (let overflow := drop (set_args_nreg abi) args in
   if (length overflow =? 0)%nat then skip else
   sp0 ← read_reg abi Sp;
   let sp := u64 (sp0 - overflow_bytes abi (zlen overflow)) in
   _ ← push_words (Z.to_nat (kPointerSize abi)) sp overflow;
   write_reg abi Sp sp) u1.
Proof.
  intros Ha E1. unfold set_args. rewrite decide_False by (by destruct abi).
  rewrite bind_skip. unfold mbind at 1, M_mbind, M_bind at 1. by rewrite E1.
Qed.

(** Reading arguments the last of which were pushed at [sp0], the new SP. *)
Lemma next_ints_pushed abi l ov (u : U) sp0 :
  let ps := kPointerSize abi in
  kIsArm abi = true -> length l = set_args_nreg abi ->
  0 <= sp0 < 2 ^ (8 * ps) -> sp0 + ps * zlen ov <= 2 ^ 64 ->
  Forall (fun v => 0 <= v < 2 ^ (8 * ps)) ov ->
  (forall k v, l !! k = Some v -> uc_reg_read u (arm_argreg abi (0 + k)) = v) ->
  (forall k v, ov !! k = Some v ->
     uc_mem_read u (sp0 + ps * Z.of_nat k) ps = Some (le_bytes (Z.to_nat ps) v)) ->
  let u' := uc_reg_write u (arm_sp abi) sp0 in
  next_ints abi (length (l ++ ov)) args_init u' = (Ret (l ++ ov), u').
Proof.
  intros ps Ha Hl Hsp Hend Hv Hregs Hst u'. unfold args_init, u'.
  assert (0 < ps <= 8) as Hps by (unfold ps; by destruct abi).
  apply next_ints_regs; [done|by rewrite Hl| |].
  { intros k v Hk. rewrite law_reg_other by (intros E; by apply (arm_argreg_sp abi (0 + k))).
    by apply Hregs. }
  simpl plus. rewrite Hl. apply next_ints_stack; [done|]. intros k v Hk. split.
  { by apply (Forall_lookup_1 _ _ _ _ Hv Hk). }
  pose proof (lookup_lt_Some _ _ _ Hk) as Hlt. fold ps.
  rewrite law_read_reg, (law_reg_same _ _ _ _ (reg_width_sp abi Ha)).
  rewrite (Z.mod_small sp0) by (fold ps; lia). rewrite Z.add_0_r.
  rewrite u64_id by (unfold zlen in *; nia). by apply Hst.
Qed.

Lemma args_passed abi args (u : U) :
  kIsArm abi = true -> zlen args < 2 ^ 32 ->
  Forall (fun v => 0 <= v < 2 ^ (8 * kPointerSize abi)) args ->
  let sp := uc_reg_read u (arm_sp abi) in
  let room := overflow_bytes abi (zlen (drop (set_args_nreg abi) args)) in
  room <= sp < 2 ^ (8 * kPointerSize abi) ->
  (forall x, sp - room <= x < sp -> uc_mapped u x = true) ->
  exists u', set_args abi args u = (Ret tt, u') /\
             next_ints abi (length args) args_init u' = (Ret args, u').
Proof.
  intros Ha Hn Hv sp room Hsp Hm.
  set (nreg := set_args_nreg abi) in *. set (ps := kPointerSize abi) in *.
  assert (0 < ps <= 8) as Hps by (unfold ps; by destruct abi).
  assert (2 ^ (8 * ps) <= 2 ^ 64) as Hw by (apply Z.pow_le_mono_r; lia).
  destruct (set_reg_args_spec abi 0 (take nreg args) u Ha) as
    (u1 & E1 & Hargs & Hrest & Hmem & Hmap).
  { rewrite length_take. fold nreg. lia. }
  assert (uc_reg_read u1 (arm_sp abi) = sp) as Hsp1.
  { apply Hrest. intros k _ E. by apply (arm_argreg_sp abi k). }
  rewrite Forall_forall in Hv.
  assert (forall k v, take nreg args !! k = Some v ->
            uc_reg_read u1 (arm_argreg abi (0 + k)) = v) as Hregs.
  { intros k v Hk. rewrite (Hargs k v Hk). apply Z.mod_small, Hv.
    eapply list_elem_of_lookup_2. by apply lookup_take_Some in Hk as [? _]. }
  rewrite (set_args_eq abi args u u1 Ha E1). fold ps room.
  cbv zeta. fold nreg. set (ov := drop nreg args) in *.
  destruct (Nat.eqb_spec (length ov) 0) as [E0|E0].
  { exists u1. split; [done|]. unfold args_init.
    rewrite <- (take_drop nreg args). fold ov.
    apply next_ints_regs; [done| |done|].
    - rewrite length_take. fold nreg. lia.
    - rewrite E0. by apply nil_length_inv in E0 as ->. }
  assert (length (take nreg args) = nreg) as Ltake.
  { rewrite length_take. unfold ov in E0. rewrite length_drop in E0. lia. }
  assert (zlen ov <= zlen args) as Hov
    by (unfold zlen, ov; rewrite length_drop; lia).
  pose proof (zlen_nonneg ov).
  destruct (overflow_bytes_spec abi (zlen ov)) as [Hr1 Hr2]; [lia|].
  fold ps room in Hr1, Hr2.
  unfold mbind, M_mbind, M_bind. rewrite (read_reg_run _ _ _ _ (reg_id_sp abi Ha)), Hsp1.
  fold room. rewrite (u64_id (sp - room)) by lia.
  destruct (push_words_spec (Z.to_nat ps) (sp - room) ov u1) as
    (u2 & -> & Hst & Hreg2 & _); [lia|lia|nia| |].
  { intros x Hx. rewrite Hmap. apply Hm. nia. }
  rewrite (write_reg_run _ _ _ _ _ (reg_id_sp abi Ha)).
  eexists. split; [done|]. rewrite <- (take_drop nreg args). fold ov.
  apply next_ints_pushed; [done|done|fold ps; lia|fold ps; lia| | |].
  - apply Forall_drop, Forall_forall. exact Hv.
  - intros m v Hk. rewrite Hreg2. by apply Hregs.
  - intros m v Hk. rewrite Z2Nat.id in Hst by lia. by apply Hst.
Qed.

(** Passing and reading arguments agree on the ARM ABIs.  After
    [set_args] puts any list of pointer-sized arguments in registers and on
    the stack, a callee that reads them in order with [Args::next_int]
    gets exactly that list, provided the stack below SP is mapped. *)
Lemma args_roundtrip abi args (u : U) :
  kIsArm abi = true -> zlen args < 2 ^ 32 ->
  Forall (fun v => 0 <= v < 2 ^ (8 * kPointerSize abi)) args ->
  let sp := uc_reg_read u (arm_sp abi) in
  let room := overflow_bytes abi (zlen (drop (set_args_nreg abi) args)) in
  room <= sp < 2 ^ (8 * kPointerSize abi) ->
  (forall x, sp - room <= x < sp -> uc_mapped u x = true) ->
  exists u', set_args abi args u = (Ret tt, u') /\
             next_ints abi (length args) args_init u' = (Ret args, u').
Proof. apply args_passed. Qed.

End CallingConvention.

(** Eleven arguments on arm64 (three of them on the stack). *)
Definition demo_uc : RefUc :=
  ru_reg_write (default ru_init (ru_map ru_init 0x10000 0x1000 3)) A64_SP 0x10800.

Lemma args_roundtrip_witness :
  exists u', set_args Arm64 (seqZ 100 11) demo_uc = (Ret tt, u') /\
             next_ints Arm64 11 args_init u' = (Ret (seqZ 100 11), u').
Proof.
  apply (args_roundtrip Arm64 (seqZ 100 11) demo_uc).
  - reflexivity.
  - vm_compute. reflexivity.
  - apply Forall_forall. intros v Hv%elem_of_seqZ.
    change (2 ^ (8 * kPointerSize Arm64)) with 18446744073709551616. lia.
  - split; [vm_compute; discriminate|vm_compute; reflexivity].
  - intros x Hx. change (ru_mapped demo_uc x = true).
    assert (65536 <= x < 65536 + 4096) as Hr.
    { assert (uc_reg_read demo_uc (arm_sp Arm64) = 67584) as E by (vm_compute; reflexivity).
      rewrite E in Hx.
      assert (overflow_bytes Arm64 (zlen (drop (set_args_nreg Arm64) (seqZ 100 11))) = 32)
        as E2 by (vm_compute; reflexivity).
      rewrite E2 in Hx. lia. }
    unfold demo_uc, ru_mapped. cbn. apply orb_true_iff. left. by apply in_range_spec.
Defined.

Lemma nested_call_rejected_witness :
  call (U := RefUc) Arm64 (fun _ _ _ _ => M_ret UC_ERR_OK) (fun _ => skip)
       (fun _ _ => skip) 0x1000 [1; 2] kFiniPage kDefaultTimeoutUs
       (mkEngine demo_uc true false false 1 0)
  = (Throw "nested Engine::call is unsupported by Unicorn",
     mkEngine demo_uc true false false 1 0).
Proof. apply nested_call_rejected. reflexivity. Defined.

Lemma call_restores_in_emu_witness :
  in_emu_ (snd (call (U := RefUc) Arm64 (fun _ _ _ _ => throw "stub threw")
       (fun _ => skip) (fun _ _ => skip) 0x1000 [1] kFiniPage kDefaultTimeoutUs
       (mkEngine demo_uc false false false 1 0))) = false.
Proof.
  exact (call_restores_in_emu Arm64 (fun _ _ _ _ => throw "stub threw")
       (fun _ => skip) (fun _ _ => skip) 0x1000 [1] kFiniPage kDefaultTimeoutUs
       (mkEngine demo_uc false false false 1 0) _ _ (surjective_pairing _)).
Defined.
