(* ===== verification/Memory.v ===== *)
(** The guest memory manager: [core/engine/memory.cpp],
    [include/vardoger/engine/memory.hpp].

    The class keeps a region vector sorted by base and a bump cursor per
    area on top of the emulator's raw mappings.  Its state here carries the
    emulator too, since every allocation maps pages in it. *)

From S2P Require Import Prelude.
From S2P Require Import Words.
From S2P Require Import Abi.
From S2P Require Import Unicorn.
From S2P Require Import Engine.
From Stdlib Require Import Sorting.Sorted.

Inductive Kind := Lib | Stack | Heap | Mmap | KTrampoline | Java | Tls | Kuser | Fini | Other.
#[export] Instance Kind_eq_dec : EqDecision Kind.
Proof. solve_decision. Defined.

Record Region := mkRegion {
  r_base : Z;
  r_size : Z;
  r_prot : Z;
  r_kind : Kind;
  r_label : string;
  r_watched : bool;
}.

Definition kind_name (k : Kind) : string :=
  match k with
  | Lib => "Lib"
  | Stack => "Stack"
  | Heap => "Heap"
  | Mmap => "Mmap"
  | KTrampoline => "Trampoline"
  | Java => "Java"
  | Tls => "Tls"
  | Kuser => "Kuser"
  | Fini => "Fini"
  | Other => "Other"
  end.

(** Insertion before the first region with a greater base
    ([std::upper_bound] on the sorted vector). *)
Fixpoint insert_region (r : Region) (l : list Region) : list Region :=
  match l with
  | [] => [r]
  | x :: t => if r_base r <? r_base x then r :: l else x :: insert_region r t
  end.

Definition region_end (r : Region) : Z := u64 (r_base r + r_size r).

Definition region_of (l : list Region) (addr : Z) : option Region :=
  List.find (fun r => (r_base r <=? addr) && (addr <? region_end r)) l.

Definition is_mapped (l : list Region) (addr : Z) : bool :=
  match region_of l addr with Some _ => true | None => false end.

(** One scan of the region vector: the end of the first region that meets
    [base, base + size). *)
Definition first_clash (l : list Region) (base size : Z) : option Z :=
  region_end <$> List.find (fun r =>
    (base <? region_end r) && (r_base r <? u64 (base + size))) l.

(** [for (tries = 0; tries < 4096; ++tries)]: move past what is in the way. *)
Fixpoint gap_search (tries : nat) (l : list Region) (base size : Z) : Z :=
  match tries with
  | O => base
  | S k => match first_clash l base size with
           | Some base' => gap_search k l base' size
           | None => base
           end
  end.

(** [(p + (align - 1)) & ~(align - 1)] on 64 bits. *)
Definition align_up (p align : Z) : Z :=
  Z.land (u64 (p + (align - 1))) (mask64 align).

(** The page addresses visited by [for (p = base; p < base + size; p += 0x1000)]. *)
Definition page_loop (base size : Z) : list Z :=
  let e := u64 (base + size) in
  (fun k => base + 0x1000 * k) <$> seqZ 0 ((e - base + 0xfff) / 0x1000).

(** [%llx]. *)
Fixpoint hex_digits (fuel : nat) (n : Z) (acc : string) : string :=
  match fuel with
  | O => acc
  | S k =>
      let d := Z.to_N (n mod 16) in
      let c := Ascii.ascii_of_N (if (d <? 10)%N then (48 + d)%N else (87 + d)%N) in
      if n <? 16 then String c acc else hex_digits k (n / 16) (String c acc)
  end.
Definition hex (n : Z) : string := hex_digits 16 n "".

(** [snprintf] into [char buf[288]] keeps at most 287 characters. *)
Definition describe (l : list Region) (addr : Z) : string :=
  String.substring 0 287
    (match region_of l addr with
     | None => "0x" +:+ hex addr +:+ " [unmapped]"
     | Some r => r_label r +:+ "+0x" +:+ hex (addr - r_base r) +:+ " ["
                 +:+ kind_name (r_kind r) +:+ "]"
     end).

(** The turns of [for (p = lo; p < hi; p += 0x1000)], both ends aligned. *)
Definition pages_between (lo hi : Z) : list Z := (fun k => lo + 0x1000 * k) <$> seqZ 0 ((hi - lo) / 0x1000).

Section Memory.
Context {U : Type} `{UcOps U}.
Variable abi : Abi.
(** Environment variables read by the code: VARDOGER_LOW_LIB_BASE and
    VARDOGER_HEAP_TIGHT. *)
Variable low_lib_base : bool.
Variable tight : bool.

Record Memory := mkMemory {
  m_uc : U;
  regions_ : list Region;
  lib_next_ : Z;
  mmap_next_ : Z;
  big_next_ : Z;
  heap_next_ : Z;
  heap_end_ : Z;
  java_next_ : Z;
  java_end_ : Z;
}.

Definition init_memory (u : U) : Memory :=
  mkMemory u [] (if kIs64 abi && negb low_lib_base then kLibBase64 else kLibBase)
           kMmapBase kBigMallocBase 0 0 0 0.

Definition with_m_uc (m : Memory) (u : U) : Memory :=
  mkMemory u (regions_ m) (lib_next_ m) (mmap_next_ m) (big_next_ m)
           (heap_next_ m) (heap_end_ m) (java_next_ m) (java_end_ m).
Definition with_regions (m : Memory) (l : list Region) : Memory :=
  mkMemory (m_uc m) l (lib_next_ m) (mmap_next_ m) (big_next_ m)
           (heap_next_ m) (heap_end_ m) (java_next_ m) (java_end_ m).
Definition set_lib_next (v : Z) : M Memory unit := modify (fun m =>
  mkMemory (m_uc m) (regions_ m) v (mmap_next_ m) (big_next_ m)
           (heap_next_ m) (heap_end_ m) (java_next_ m) (java_end_ m)).
Definition set_mmap_next (v : Z) : M Memory unit := modify (fun m =>
  mkMemory (m_uc m) (regions_ m) (lib_next_ m) v (big_next_ m)
           (heap_next_ m) (heap_end_ m) (java_next_ m) (java_end_ m)).
Definition set_big_next (v : Z) : M Memory unit := modify (fun m =>
  mkMemory (m_uc m) (regions_ m) (lib_next_ m) (mmap_next_ m) v
           (heap_next_ m) (heap_end_ m) (java_next_ m) (java_end_ m)).
Definition set_heap_next (v : Z) : M Memory unit := modify (fun m =>
  mkMemory (m_uc m) (regions_ m) (lib_next_ m) (mmap_next_ m) (big_next_ m)
           v (heap_end_ m) (java_next_ m) (java_end_ m)).
Definition set_heap (v e : Z) : M Memory unit := modify (fun m =>
  mkMemory (m_uc m) (regions_ m) (lib_next_ m) (mmap_next_ m) (big_next_ m)
           v e (java_next_ m) (java_end_ m)).
Definition set_java (v e : Z) : M Memory unit := modify (fun m =>
  mkMemory (m_uc m) (regions_ m) (lib_next_ m) (mmap_next_ m) (big_next_ m)
           (heap_next_ m) (heap_end_ m) v e).

Definition uc_do {A} (op : M U A) : M Memory A := fun m =>
  let '(r, u) := op (m_uc m) in (r, with_m_uc m u).

(** [engine_.map(base, size, prot); insert_region({...})]. *)
Definition map_insert (base size prot : Z) (kind : Kind) (label : string) : M Memory unit :=
  _ ← uc_do (e_map base size prot);
  modify (fun m => with_regions m
    (insert_region (mkRegion base size prot kind label false) (regions_ m))).

Definition map_fixed (addr len prot : Z) (kind : Kind) (label : string) : M Memory Z :=
  let base := page_align_down addr in
  let e := page_align_up (u64 (addr + len)) in
  let size := u64 (e - base) in
  rs ← gets regions_;
  match List.find (fun r => (base <? region_end r) && (r_base r <? e)) rs with
  | Some r => throw ("map_fixed: [" +:+ label +:+ "] overlaps existing region ["
                     +:+ r_label r +:+ "]")
  | None => _ ← map_insert base size prot kind label; mret base
  end.

Definition mmap_alloc (len prot : Z) (label : string) : M Memory Z :=
  if 2 ^ 32 <? len then throw "mmap_alloc: absurd len (bogus/mis-resolved call)" else
  let size := page_align_up (if len =? 0 then 1 else len) in
  m ← get;
  let base := gap_search 4096 (regions_ m) (mmap_next_ m) size in
  _ ← map_insert base size prot Mmap label;
  _ ← set_mmap_next (u64 (base + size));
  mret base.

Definition big_alloc (len prot : Z) (label : string) : M Memory Z :=
  let size := page_align_up (if len =? 0 then 1 else len) in
  base ← gets big_next_;
  if kMmapBase <? u64 (base + size) then mmap_alloc len prot label else
  _ ← map_insert base size prot Mmap label;
  _ ← set_big_next (u64 (base + size));
  mret base.

Definition map_lib (total prot : Z) (label : string) : M Memory Z :=
  base ← gets lib_next_;
  let size := page_align_up total in
  _ ← map_insert base size prot Lib label;
  _ ← set_lib_next (u64 (base + size + kPageSize));
  mret base.

Definition UC_PROT_RW : Z := Z.lor UC_PROT_READ UC_PROT_WRITE.

Definition setup_stack (len : Z) : M Memory Z :=
  let size := page_align_up len in
  let base := u64 (kStackTop - size) in
  _ ← map_insert base size UC_PROT_RW Stack "stack";
  let sp := Z.land (kStackTop - 16) (mask64 16) in
  _ ← uc_do (write_reg abi Sp sp);
  mret sp.

Definition setup_tls : M Memory Z :=
  _ ← map_insert kTlsBase kTlsSize UC_PROT_RW Tls "tls";
  _ ← uc_do (write_t 8 (kTlsBase + 0x00) kTlsBase);
  _ ← uc_do (write_t 8 (kTlsBase + 0x28) 0x1122334455667788);
  _ ← uc_do (write_uc_reg (if decide (abi = Arm64) then A64_TPIDR_EL0
                           else A32_C13_C0_3) kTlsBase);
  mret kTlsBase.

(** The cursor after handing out [p]: tight, or with size-class rounding and
    a 16-byte gap. *)
Definition heap_bump (p len : Z) : Z :=
  if tight then u64 (p + len)
  else u64 (p + Z.land (u64 (len + 0x1f)) (mask64 0x20) + 16).

(** [tight] aside, [heap_alloc] after its arena is mapped and [p] chosen. *)
Definition heap_take (p len : Z) : M Memory Z :=
  _ ← set_heap_next (heap_bump p len); mret p.

Definition heap_alloc (len align : Z) : M Memory Z :=
  m ← get;
  _ ← (if heap_next_ m =? 0
       then _ ← map_insert kHeapBase kHeapSize UC_PROT_RW Heap "heap";
            set_heap kHeapBase (kHeapBase + kHeapSize)
       else skip);
  m1 ← get;
  let p := align_up (heap_next_ m1) align in
  if heap_end_ m1 <? u64 (p + len) then
    let want := page_align_up (if kHeapExtent <? len then len else kHeapExtent) in
    ext ← try_catch (mmap_alloc want UC_PROT_RW "heap-extent") (mret 0);
    if ext =? 0 then mret 0 else
    _ ← set_heap ext (u64 (ext + want));
    let p := align_up ext align in
    if u64 (ext + want) <? u64 (p + len) then mret 0 else heap_take p len
  else heap_take p len.

Definition java_alloc (len align : Z) : M Memory Z :=
  m ← get;
  _ ← (if java_next_ m =? 0
       then _ ← map_insert kJavaBase kJavaSize UC_PROT_RW Java "java";
            set_java kJavaBase (kJavaBase + kJavaSize)
       else skip);
  m1 ← get;
  let p := align_up (java_next_ m1) align in
  if java_end_ m1 <? u64 (p + len) then throw "java region exhausted" else
  _ ← set_java (u64 (p + len)) (java_end_ m1);
  mret p.

(** One page of the tolerant [protect] loop. *)
Definition protect_page (prot p : Z) : M Memory unit :=
  m ← get;
  if is_mapped (regions_ m) p then uc_do (e_protect p 0x1000 prot) else
  _ ← map_fixed p 0x1000 (if prot =? 0 then UC_PROT_RW else prot) Other "mprotect-fill";
  skip.

Fixpoint protect_pages (prot : Z) (l : list Z) : M Memory unit :=
  match l with
  | [] => skip
  | p :: r => _ ← protect_page prot p; protect_pages prot r
  end.

Fixpoint update_prot (base size prot : Z) (l : list Region) : list Region :=
  match l with
  | [] => []
  | r :: t =>
      if (r_base r =? base) && (r_size r =? size)
      then mkRegion (r_base r) (r_size r) prot (r_kind r) (r_label r) (r_watched r) :: t
      else r :: update_prot base size prot t
  end.

Definition protect (addr len prot : Z) : M Memory unit :=
  let base := page_align_down addr in
  let size := u64 (page_align_up (u64 (addr + len)) - base) in
  m ← get;
  let pages := page_loop base size in
  let hole := existsb (fun p => negb (is_mapped (regions_ m) p)) pages in
  _ ← (if hole then protect_pages prot pages else uc_do (e_protect base size prot));
  modify (fun m => with_regions m (update_prot base size prot (regions_ m))).

Definition unmap (addr len : Z) : M Memory unit :=
  let base := page_align_down addr in
  let size := u64 (page_align_up (u64 (addr + len)) - base) in
  _ ← uc_do (e_unmap base size);
  modify (fun m => with_regions m
    (List.filter (fun r => negb ((r_base r =? base) && (r_size r =? size))) (regions_ m))).

Definition heap_used (m : Memory) : Z :=
  if heap_next_ m =? 0 then 0 else u64 (heap_next_ m - kHeapBase).
Definition mmap_used (m : Memory) : Z := u64 (mmap_next_ m - kMmapBase).
End Memory.

#[global] Arguments Memory U : clear implicits.

(** ** Well-formed region maps *)

Section MemoryFacts.
Context {U : Type} `{UcLaws U}.
Variable abi : Abi.
Variables low_lib_base tight : bool.

Definition below (a b : Region) : Prop := r_base a + r_size a <= r_base b.

Definition region_ok (r : Region) : Prop :=
  0 <= r_base r /\ 0 < r_size r /\ r_base r + r_size r <= 2 ^ 64 /\
  r_base r mod 4096 = 0 /\ r_size r mod 4096 = 0.

(** The region vector is sorted, its regions are page-aligned, non-empty and
    pairwise disjoint, and every byte of every region is mapped in the
    emulator. *)
Record mem_wf (m : Memory U) : Prop := {
  wf_sorted : StronglySorted below (regions_ m);
  wf_regions : Forall region_ok (regions_ m);
  wf_mirror : Forall (fun r => forall x, r_base r <= x < r_base r + r_size r ->
                        uc_mapped (m_uc m) x = true) (regions_ m);
}.

Lemma insert_region_Forall (P : Region -> Prop) r l :
  P r -> Forall P l -> Forall P (insert_region r l).
Proof.
  intros Hr. induction 1 as [|x t Hx Ht IH]; simpl; [by constructor|].
  destruct (_ <? _); by repeat constructor.
Qed.

Lemma insert_region_elem r l x : x ∈ insert_region r l <-> x = r \/ x ∈ l.
Proof.
  induction l as [|y t IH]; simpl.
  - rewrite list_elem_of_singleton, elem_of_nil. tauto.
  - destruct (_ <? _); rewrite !elem_of_cons; [done|]. rewrite IH. tauto.
Qed.

Lemma insert_region_sorted r l :
  region_ok r -> Forall region_ok l ->
  Forall (fun x => below r x \/ below x r) l ->
  StronglySorted below l -> StronglySorted below (insert_region r l).
Proof.
  intros Hr Hok Hdis. induction 1 as [|x t Ht IH Hx]; simpl.
  { repeat constructor. }
  apply Forall_cons in Hok as [Hxok Htok]. apply Forall_cons in Hdis as [Hxd Htd].
  unfold below, region_ok in *. destruct (Z.ltb_spec (r_base r) (r_base x)) as [Hlt|Hge].
  - constructor; [by constructor|]. constructor; [lia|].
    rewrite Forall_forall in *. intros y Hy. specialize (Hx y Hy). lia.
  - constructor; [by apply IH|]. apply insert_region_Forall; [lia|done].
Qed.

(** Two page ranges, one mapped and the other not, do not meet. *)
Lemma disjoint_from_unmapped (u : U) r b s :
  region_ok r -> 0 < s ->
  (forall x, r_base r <= x < r_base r + r_size r -> uc_mapped u x = true) ->
  (forall x, b <= x < b + s -> uc_mapped u x = false) ->
  r_base r + r_size r <= b \/ b + s <= r_base r.
Proof.
  intros (?&?&?&_) Hs Hm Hf.
  destruct (decide (r_base r + r_size r <= b)); [by left|].
  destruct (decide (b + s <= r_base r)); [by right|].
  assert (uc_mapped u (Z.max b (r_base r)) = true) by (apply Hm; lia).
  assert (uc_mapped u (Z.max b (r_base r)) = false) by (apply Hf; lia).
  congruence.
Qed.

Lemma e_map_run a n p (u u' : U) x :
  e_map a n p u = (Ret x, u') -> uc_mem_map u a n p = Some u'.
Proof. unfold e_map, check. destruct (uc_mem_map u a n p); naive_solver. Qed.

Lemma uc_do_run {A} (op : M U A) (m m' : Memory U) r :
  uc_do op m = (r, m') -> exists u', op (m_uc m) = (r, u') /\ m' = with_m_uc m u'.
Proof. unfold uc_do. destruct (op (m_uc m)) as [r1 u1]. naive_solver. Qed.

(** An emulator call that leaves the mappings alone. *)
Definition keeps_mapped {A} (op : M U A) : Prop :=
  forall u r u', op u = (r, u') -> forall x, uc_mapped u' x = uc_mapped u x.

Lemma keeps_write a l : keeps_mapped (e_write a l).
Proof.
  intros u r u'. unfold e_write, check.
  destruct (uc_mem_write u a l) eqn:E; intros [= _ <-] x; [|done].
  by eapply law_write_mapped.
Qed.
Lemma keeps_protect a n p : keeps_mapped (e_protect a n p).
Proof.
  intros u r u'. unfold e_protect, check.
  destruct (uc_mem_protect u a n p) eqn:E; intros [= _ <-] x; [|done].
  by eapply law_protect_mapped.
Qed.
Lemma keeps_write_uc_reg r v : keeps_mapped (write_uc_reg r v).
Proof. intros u r1 u' [= _ <-] x. apply law_reg_mapped. Qed.
Lemma keeps_write_reg a r v : keeps_mapped (write_reg a r v).
Proof.
  intros u r1 u'. unfold write_reg. destruct (reg_id a r) as [id|e|].
  - rewrite bind_lift_ret. apply keeps_write_uc_reg.
  - by intros [= _ <-].
  - by intros [= _ <-].
Qed.

(** Reading the emulator changes nothing. *)
Lemma keeps_read a n : keeps_mapped (e_read a n).
Proof. intros u r u'. unfold e_read. destruct (uc_mem_read u a n); intros Hr x; by simplify_eq. Qed.
Lemma keeps_gets {A} (f : U -> A) : keeps_mapped (gets f).
Proof. by intros u r u' [= <- <-] x. Qed.
Lemma keeps_mapped_bind {A B} (m : M U A) (f : A -> M U B) :
  keeps_mapped m -> (forall a, keeps_mapped (f a)) -> keeps_mapped (M_bind f m).
Proof.
  intros Hm Hf u r u'. unfold M_bind. destruct (m u) as [[a|e|] u1] eqn:E; intros Hr x.
  - rewrite (Hf a _ _ _ Hr x). by eapply Hm.
  - injection Hr as <- <-. by eapply Hm.
  - injection Hr as <- <-. by eapply Hm.
Qed.
Lemma keeps_read_t n a : keeps_mapped (read_t n a).
Proof. apply keeps_mapped_bind; [apply keeps_read|]. by intros l u r u' [= <- <-] x. Qed.
Lemma keeps_read_reg ab r : keeps_mapped (read_reg ab r).
Proof. apply keeps_mapped_bind; [by intros u o u' [= <- <-] x|]. intros i. apply keeps_gets. Qed.

Lemma uc_do_wf {A} (op : M U A) : keeps_mapped op -> preserves mem_wf (uc_do op).
Proof.
  intros Hk m r m' [Hs Hr Hm] (u' & E & ->)%uc_do_run. split; simpl; try done.
  eapply Forall_impl; [exact Hm|]. intros reg Hreg x Hx.
  rewrite (Hk _ _ _ E). by apply Hreg.
Qed.

(** [engine_.map] + [insert_region], by cases on the emulator's answer. *)
Lemma map_insert_eq base size prot k l (m : Memory U) :
  map_insert base size prot k l m =
  match uc_mem_map (m_uc m) base size prot with
  | Some u' => (Ret tt, with_regions (with_m_uc m u')
                 (insert_region (mkRegion base size prot k l false) (regions_ m)))
  | None => (Throw "uc_mem_map", m)
  end.
Proof.
  unfold map_insert, mbind, M_mbind, M_bind, uc_do, e_map, check.
  destruct (uc_mem_map _ _ _ _); [done|]. by destruct m.
Qed.

Lemma map_insert_ret base size prot k l (m m' : Memory U) x :
  map_insert base size prot k l m = (Ret x, m') ->
  exists u', uc_mem_map (m_uc m) base size prot = Some u' /\
    m' = with_regions (with_m_uc m u')
           (insert_region (mkRegion base size prot k l false) (regions_ m)).
Proof. rewrite map_insert_eq. destruct (uc_mem_map _ _ _ _); naive_solver. Qed.

Lemma map_insert_wf base size prot k l : preserves mem_wf (map_insert base size prot k l).
Proof.
  intros m r m' Hwf. rewrite map_insert_eq.
  destruct (uc_mem_map _ _ _ _) as [u'|] eqn:Eu; intros [= _ <-]; [|done].
  destruct Hwf as [Hs Hr Hm].
  pose proof (law_map_args _ _ _ _ _ Eu) as Hargs.
  set (new := mkRegion base size prot k l false).
  assert (region_ok new) as Hnew by (unfold region_ok; simpl; lia).
  assert (Forall (fun y => below new y \/ below y new) (regions_ m)) as Hdis.
  { rewrite Forall_forall in *. intros y Hy. unfold below. simpl.
    destruct (disjoint_from_unmapped (m_uc m) y base size); [by apply Hr|lia| | |lia..].
    - by apply Hm.
    - intros z Hz. by eapply law_map_free. }
  split; simpl.
  - by apply insert_region_sorted.
  - by apply insert_region_Forall.
  - apply insert_region_Forall; simpl.
    + intros x0 Hx. rewrite (law_map_mapped _ _ _ _ _ _ Eu).
      rewrite (proj2 (in_range_spec _ _ _)) by done. apply orb_true_r.
    + eapply Forall_impl; [exact Hm|]. intros y Hy x0 Hx. simpl in Hy.
      rewrite (law_map_mapped _ _ _ _ _ _ Eu), Hy; done.
Qed.

Lemma modify_wf (f : Memory U -> Memory U) :
  (forall m, m_uc (f m) = m_uc m /\ regions_ (f m) = regions_ m) ->
  preserves mem_wf (modify f).
Proof.
  intros Hf. apply preserves_modify. intros m [Hs Hr Hm].
  destruct (Hf m) as [Eu Er]. split; rewrite ?Eu, Er; done.
Qed.

Lemma update_prot_fields base size prot l :
  (fun r => (r_base r, r_size r)) <$> update_prot base size prot l
  = (fun r => (r_base r, r_size r)) <$> l.
Proof.
  induction l as [|r t IH]; [done|]. cbn [update_prot].
  destruct (_ && _); rewrite !fmap_cons; [done|]. by rewrite IH.
Qed.

(** The invariant only looks at where the regions are. *)
Lemma wf_same_places (m : Memory U) l :
  (fun r => (r_base r, r_size r)) <$> l
  = (fun r => (r_base r, r_size r)) <$> regions_ m ->
  mem_wf m -> mem_wf (with_regions m l).
Proof.
  intros E [Hs Hr Hm].
  assert (forall (Q : Z * Z -> Prop) l1 l2,
    (fun r => (r_base r, r_size r)) <$> l1 = (fun r => (r_base r, r_size r)) <$> l2 ->
    Forall (fun r => Q (r_base r, r_size r)) l2 ->
    Forall (fun r => Q (r_base r, r_size r)) l1) as HF.
  { intros Q l1 l2 El. rewrite <- !(Forall_fmap (fun r => (r_base r, r_size r)) Q).
    by rewrite El. }
  split; simpl.
  - revert l E. induction Hs as [|x t Ht IH Hx]; intros [|y l]; simpl; try done.
    { intros _. constructor. }
    intros [= Eb Es El]. inversion Hr; inversion Hm; subst.
    constructor; [by apply IH|]. unfold below in *. rewrite Eb, Es.
    by apply (HF (fun p => r_base x + r_size x <= fst p) l t).
  - apply (HF (fun p => 0 <= fst p /\ 0 < snd p /\ fst p + snd p <= 2 ^ 64 /\
                        fst p mod 4096 = 0 /\ snd p mod 4096 = 0) l (regions_ m) E Hr).
  - apply (HF (fun p => forall x, fst p <= x < fst p + snd p ->
                        uc_mapped (m_uc m) x = true) l (regions_ m) E Hm).
Qed.

#[local] Hint Resolve map_insert_wf uc_do_wf keeps_write keeps_protect
  keeps_write_reg keeps_write_uc_reg : preserves.

(** One more layer of a handler: bind, branch, cursor update. *)
Ltac wf_step :=
  match goal with
  | |- preserves _ (mbind _ _) => apply preserves_bind; [|intros ?]
  | |- preserves _ (mret _) => apply preserves_ret
  | |- preserves _ skip => apply preserves_ret
  | |- preserves _ (gets _) => apply preserves_gets
  | |- preserves _ get => intros ?m ?r ?m' ? [= _ <-]; assumption
  | |- preserves _ (throw _) => apply preserves_throw
  | |- preserves _ (try_catch _ _) => apply preserves_try
  | |- preserves _ (modify _) => apply modify_wf; by intros
  | |- preserves _ (match ?x with _ => _ end) => destruct x
  | |- preserves _ _ => solve [eauto with preserves]
  end.
Ltac wf := repeat wf_step.

Lemma map_fixed_wf a n p k l : preserves mem_wf (map_fixed a n p k l).
Proof. unfold map_fixed. wf. Qed.
Lemma mmap_alloc_wf n p l : preserves mem_wf (mmap_alloc n p l).
Proof. unfold mmap_alloc, set_mmap_next. wf. Qed.
#[local] Hint Resolve map_fixed_wf mmap_alloc_wf : preserves.
Lemma big_alloc_wf n p l : preserves mem_wf (big_alloc n p l).
Proof. unfold big_alloc, set_big_next. wf. Qed.
Lemma map_lib_wf n p l : preserves mem_wf (map_lib n p l).
Proof. unfold map_lib, set_lib_next. wf. Qed.
Lemma setup_stack_wf n : preserves mem_wf (setup_stack abi n).
Proof. unfold setup_stack. wf. Qed.
Lemma setup_tls_wf : preserves mem_wf (setup_tls abi).
Proof. unfold setup_tls, write_t. wf. Qed.
Lemma heap_take_wf p n : preserves mem_wf (heap_take tight p n).
Proof. unfold heap_take, set_heap_next. wf. Qed.
#[local] Hint Resolve heap_take_wf : preserves.
Lemma heap_alloc_wf n a : preserves mem_wf (heap_alloc tight n a).
Proof. unfold heap_alloc, set_heap. wf. Qed.
Lemma java_alloc_wf n a : preserves mem_wf (java_alloc n a).
Proof. unfold java_alloc, set_java. wf. Qed.

Lemma protect_pages_wf p l : preserves mem_wf (protect_pages p l).
Proof.
  induction l as [|a l IH]; simpl; [wf|].
  apply preserves_bind; [unfold protect_page; wf|by intros].
Qed.
#[local] Hint Resolve protect_pages_wf : preserves.

Lemma protect_wf a n p : preserves mem_wf (protect a n p).
Proof.
  unfold protect. wf_step; [wf|]. wf_step; [wf|].
  apply preserves_modify. intros m0 Hm. apply wf_same_places; [|done].
  apply update_prot_fields.
Qed.

(** [unmap] names regions exactly: the range is a tracked region, or meets none. *)
Definition unmap_exact (m : Memory U) (addr len : Z) : Prop :=
  let base := page_align_down addr in
  let size := u64 (page_align_up (u64 (addr + len)) - base) in
  Forall (fun r => (r_base r = base /\ r_size r = size) \/
                   r_base r + r_size r <= base \/ base + size <= r_base r) (regions_ m).

Lemma filter_sorted (f : Region -> bool) l :
  StronglySorted below l -> StronglySorted below (List.filter f l).
Proof.
  induction 1 as [|x t Ht IH Hx]; simpl; [constructor|].
  destruct (f x); [|done]. constructor; [done|].
  rewrite Forall_forall in *. intros y Hy%list_elem_of_In%List.filter_In.
  apply Hx, list_elem_of_In. tauto.
Qed.

Lemma filter_Forall (P : Region -> Prop) f l : Forall P l -> Forall P (List.filter f l).
Proof.
  rewrite !Forall_forall. intros Hl x Hx%list_elem_of_In%List.filter_In.
  apply Hl, list_elem_of_In. tauto.
Qed.

Lemma unmap_wf a n (m m' : Memory U) r :
  mem_wf m -> unmap_exact m a n -> unmap a n m = (r, m') -> mem_wf m'.
Proof.
  intros Hwf Hex. unfold unmap, unmap_exact in *. cbv zeta in Hex. set (base := page_align_down a) in *.
  set (size := u64 (page_align_up (u64 (a + n)) - base)) in *.
  unfold mbind, M_mbind, M_bind, uc_do, e_unmap, check.
  destruct (uc_mem_unmap (m_uc m) base size) as [u'|] eqn:E; intros [= _ <-]; cycle 1.
  { by destruct m, Hwf. }
  destruct Hwf as [Hs Hr Hm]. split; simpl.
  - by apply filter_sorted.
  - by apply filter_Forall.
  - rewrite Forall_forall in *. intros y Hy x Hx.
    apply list_elem_of_In, List.filter_In in Hy as [Hy Hk].
    apply list_elem_of_In in Hy. rewrite (law_unmap_mapped _ _ _ _ _ E).
    rewrite (Hm y Hy x Hx). simpl. apply negb_true_iff, not_true_iff_false.
    rewrite in_range_spec. intros Hin.
    destruct (Hex y Hy) as [[E1 E2]|?]; [|lia].
    rewrite E1, E2 in Hk. by rewrite !Z.eqb_refl in Hk.
Qed.

(** *** Every reachable state *)

Inductive mem_op :=
| OMapFixed (addr len prot : Z) (k : Kind) (l : string)
| OMmap (len prot : Z) (l : string)
| OBig (len prot : Z) (l : string)
| OLib (total prot : Z) (l : string)
| OStack (len : Z)
| OTls
| OHeap (len align : Z)
| OJava (len align : Z)
| OProtect (addr len prot : Z)
| OUnmap (addr len : Z).

Definition exec_op (o : mem_op) : M (Memory U) unit :=
  match o with
  | OMapFixed a n p k l => _ ← map_fixed a n p k l; skip
  | OMmap n p l => _ ← mmap_alloc n p l; skip
  | OBig n p l => _ ← big_alloc n p l; skip
  | OLib n p l => _ ← map_lib n p l; skip
  | OStack n => _ ← setup_stack abi n; skip
  | OTls => _ ← setup_tls abi; skip
  | OHeap n a => _ ← heap_alloc tight n a; skip
  | OJava n a => _ ← java_alloc n a; skip
  | OProtect a n p => protect a n p
  | OUnmap a n => unmap a n
  end.

Inductive mem_step : Memory U -> Memory U -> Prop :=
| ms_op o r m m' :
    (forall a n, o = OUnmap a n -> unmap_exact m a n) ->
    exec_op o m = (r, m') -> mem_step m m'
| ms_cpu m u :
    (forall x, uc_mapped u x = uc_mapped (m_uc m) x) -> mem_step m (with_m_uc m u).

Lemma exec_op_wf o :
  (forall a n, o <> OUnmap a n) -> preserves mem_wf (exec_op o).
Proof.
  intros Ho. destruct o; simpl; try (apply preserves_bind; [|intros; apply preserves_ret]).
  - apply map_fixed_wf.
  - apply mmap_alloc_wf.
  - apply big_alloc_wf.
  - apply map_lib_wf.
  - apply setup_stack_wf.
  - apply setup_tls_wf.
  - apply heap_alloc_wf.
  - apply java_alloc_wf.
  - apply protect_wf.
  - by edestruct Ho.
Qed.

(** C3: the region map stays well formed: in every state reachable from the
    constructor by the allocators, [map_fixed], [protect] and exact [unmap]s
    (returning or throwing) interleaved with guest execution, the regions
    are sorted, page-aligned, non-empty, pairwise disjoint, and mapped in the
    emulator byte for byte. *)
Theorem mem_reachable_wf u m :
  star mem_step (init_memory abi low_lib_base u) m -> mem_wf m.
Proof.
  apply star_invariant; [|split; constructor].
  intros m1 m2 Hwf Hstep. destruct Hstep as [o r m3 m4 Hex E|m3 u3 Hu].
  - destruct o; try (refine (exec_op_wf _ _ _ _ _ Hwf E); by intros).
    exact (unmap_wf addr len _ _ _ Hwf (Hex addr len eq_refl) E).
  - destruct Hwf as [Hs Hr Hm]. split; simpl; try done.
    eapply Forall_impl; [exact Hm|]. intros y Hy x Hx. rewrite Hu. by apply Hy.
Qed.

(** *** Lookups *)

Lemma sorted_find (l : list Region) addr r :
  StronglySorted below l -> Forall region_ok l ->
  Forall (fun r => r_base r + r_size r < 2 ^ 64) l ->
  region_of l addr = Some r <-> r ∈ l /\ r_base r <= addr < r_base r + r_size r.
Proof.
  induction 1 as [|x t Ht IH Hx]; intros Hok Hend; simpl.
  { rewrite elem_of_nil. split; [done|tauto]. }
  apply Forall_cons in Hok as [Hxok Htok]. apply Forall_cons in Hend as [Hxe Hte].
  unfold region_of in *. cbn [List.find]. unfold region_ok in Hxok.
  assert (region_end x = r_base x + r_size x) as -> by (apply u64_id; lia).
  rewrite elem_of_cons. rewrite Forall_forall in Hx. unfold below in Hx.
  destruct (decide (r_base x <= addr < r_base x + r_size x)) as [Hin|Hout].
  - rewrite (proj2 (Z.leb_le _ _)), (proj2 (Z.ltb_lt _ _)) by lia. simpl. split.
    + intros [= ->]. auto.
    + intros [[->|Hr] ?]; [done|]. specialize (Hx r Hr). lia.
  - assert ((r_base x <=? addr) && (addr <? r_base x + r_size x) = false) as ->.
    { apply andb_false_iff. rewrite Z.leb_gt, Z.ltb_ge. lia. }
    rewrite IH by done. split; [tauto|]. intros [[->|Hr] ?]; [lia|done].
Qed.

(** [region_of] answers "what is this pointer": in a well-formed map
    whose regions stay below the very top of the address space it returns
    the region that contains the address, and there is only one. *)
Lemma region_of_spec (m : Memory U) addr r :
  mem_wf m -> Forall (fun r => r_base r + r_size r < 2 ^ 64) (regions_ m) ->
  region_of (regions_ m) addr = Some r <->
  r ∈ regions_ m /\ r_base r <= addr < r_base r + r_size r.
Proof. intros [Hs Hr _] He. by apply sorted_find. Qed.

(** *** The gap search *)

Definition meets (base size : Z) (r : Region) : Prop :=
  base < r_base r + r_size r /\ r_base r < base + size.

Definition past (base : Z) (r : Region) : bool := r_base r + r_size r <=? base.

Lemma first_clash_None l base size B :
  Forall (fun r => 0 <= r_base r /\ 0 <= r_size r /\ r_base r + r_size r <= B) l ->
  0 <= base -> 0 <= size -> base <= B -> B + size < 2 ^ 64 ->
  first_clash l base size = None -> Forall (fun r => ~ meets base size r) l.
Proof.
  intros Hl Hb Hs HB Hw. unfold first_clash. rewrite (u64_id (base + size)) by lia.
  induction Hl as [|r l Hr Hl IH]; simpl; [constructor|].
  assert (region_end r = r_base r + r_size r) as -> by (apply u64_id; lia).
  unfold meets.
  destruct (Z.ltb_spec base (r_base r + r_size r)),
           (Z.ltb_spec (r_base r) (base + size)); simpl; try done.
  all: intros Hn; constructor; [lia|by apply IH].
Qed.

Lemma first_clash_Some l base size B b' :
  Forall (fun r => 0 <= r_base r /\ 0 <= r_size r /\ r_base r + r_size r <= B) l ->
  0 <= base -> 0 <= size -> base <= B -> B + size < 2 ^ 64 ->
  first_clash l base size = Some b' ->
  exists r, r ∈ l /\ meets base size r /\ b' = r_base r + r_size r.
Proof.
  intros Hl Hb Hs HB Hw. unfold first_clash.
  destruct (List.find _ l) as [r|] eqn:E; [|done]. intros [= <-].
  apply List.find_some in E as [Hin Ht]. apply list_elem_of_In in Hin.
  rewrite Forall_forall in Hl. specialize (Hl r Hin).
  unfold region_end in *. rewrite !u64_id in * by lia.
  exists r. unfold meets. bool_to_Prop. done.
Qed.

Lemma count_mono {A} (f g : A -> bool) l :
  (forall x, f x = true -> g x = true) ->
  (length (List.filter f l) <= length (List.filter g l))%nat.
Proof.
  intros Hfg. induction l as [|x l IH]; simpl; [lia|].
  destruct (f x) eqn:Ef; [rewrite (Hfg x Ef); simpl; lia|].
  destruct (g x); simpl; lia.
Qed.

Lemma count_strict {A} (f g : A -> bool) l x :
  (forall y, f y = true -> g y = true) -> x ∈ l -> f x = false -> g x = true ->
  (length (List.filter f l) < length (List.filter g l))%nat.
Proof.
  intros Hfg Hx Hf Hg. induction l as [|y l IH]; [by apply elem_of_nil in Hx|].
  simpl. apply elem_of_cons in Hx as [->|Hx].
  - rewrite Hf, Hg. simpl. pose proof (count_mono f g l Hfg). lia.
  - specialize (IH Hx). destruct (f y) eqn:Ef; [rewrite (Hfg y Ef); simpl; lia|].
    destruct (g y); simpl; lia.
Qed.

(** Each move leaves at least one more region behind for good. *)
Lemma gap_search_spec tries l base size B :
  Forall (fun r => 0 <= r_base r /\ 0 <= r_size r /\ r_base r + r_size r <= B /\
                   r_base r mod 4096 = 0 /\ r_size r mod 4096 = 0) l ->
  0 <= base -> base mod 4096 = 0 -> 0 <= size -> base <= B -> B + size < 2 ^ 64 ->
  (length (List.filter (fun r => negb (past base r)) l) <= tries)%nat ->
  let b := gap_search tries l base size in
  Forall (fun r => ~ meets b size r) l /\ base <= b <= B /\ b mod 4096 = 0.
Proof.
  intros Hl. assert (Forall (fun r => 0 <= r_base r /\ 0 <= r_size r /\
                                r_base r + r_size r <= B) l) as Hl'.
  { eapply Forall_impl; [exact Hl|]. simpl. tauto. }
  revert base. induction tries as [|k IH]; intros base Hb Ha Hs HB Hw Hc; simpl.
  - split; [|done]. rewrite Forall_forall. intros r Hr [Hm _].
    assert (r ∈ List.filter (fun r => negb (past base r)) l) as Hin.
    { apply list_elem_of_In, List.filter_In. split; [by apply list_elem_of_In|].
      unfold past. destruct (Z.leb_spec (r_base r + r_size r) base); [lia|done]. }
    destruct (List.filter _ l); [by apply elem_of_nil in Hin|simpl in Hc; lia].
  - destruct (first_clash l base size) as [b'|] eqn:E.
    + destruct (first_clash_Some _ _ _ _ _ Hl' Hb Hs HB Hw E) as (r & Hr & [Hm1 Hm2] & ->).
      pose proof Hl as Hlr. rewrite Forall_forall in Hlr. specialize (Hlr r Hr).
      destruct (IH (r_base r + r_size r)) as (? & ? & ?); try lia.
      * rewrite Z.add_mod by lia. destruct Hlr as (_&_&_&->&->). done.
      * enough (length (List.filter (fun x => negb (past (r_base r + r_size r) x)) l)
                < length (List.filter (fun x => negb (past base x)) l))%nat by lia.
        apply (count_strict _ _ l r); [|done| |]; unfold past.
        -- intros y. destruct (Z.leb_spec (r_base y + r_size y) (r_base r + r_size r)),
             (Z.leb_spec (r_base y + r_size y) base); simpl; try done; lia.
        -- by rewrite Z.leb_refl.
        -- destruct (Z.leb_spec (r_base r + r_size r) base); [lia|done].
      * split; [done|]. split; [lia|done].
    + split; [|done]. by eapply first_clash_None.
Qed.

Lemma page_align_up_pos n : 0 < n -> n + 4095 < 2 ^ 64 ->
  n <= page_align_up n /\ page_align_up n mod 4096 = 0 /\ 0 < page_align_up n < n + 4096.
Proof. intros. destruct (page_align_up_spec n) as [? ?]; lia. Qed.

(** [mmap_alloc] picks a free range: with at most 4096 regions, all
    below 2^62, it asks the emulator for a page-aligned range of at least
    [len] bytes, at or above the cursor, that meets no tracked region; when
    the emulator agrees that range is returned, recorded and mapped, and was
    entirely unmapped before. *)
Lemma mmap_alloc_spec (m m' : Memory U) len prot l r :
  mem_wf m -> 0 <= len <= 2 ^ 32 -> (length (regions_ m) <= 4096)%nat ->
  Forall (fun r => r_base r + r_size r <= 2 ^ 62) (regions_ m) ->
  0 <= mmap_next_ m <= 2 ^ 62 -> mmap_next_ m mod 4096 = 0 ->
  mmap_alloc len prot l m = (r, m') ->
  exists b size, len <= size /\ 0 < size /\ b mod 4096 = 0 /\ size mod 4096 = 0 /\
    mmap_next_ m <= b /\ Forall (fun x => ~ meets b size x) (regions_ m) /\
    ((r = Throw "uc_mem_map" /\ m' = m) \/
     (r = Ret b /\ mmap_next_ m' = b + size /\
      (mkRegion b size prot Mmap l false) ∈ regions_ m' /\
      forall x, b <= x < b + size ->
        uc_mapped (m_uc m) x = false /\ uc_mapped (m_uc m') x = true)).
Proof.
  intros [Hs Hr Hm] Hlen Hcnt Hend Hcur Hal.
  unfold mmap_alloc. destruct (Z.ltb_spec (2 ^ 32) len); [lia|].
  set (n := if len =? 0 then 1 else len).
  assert (0 < n /\ len <= n <= 2 ^ 32) as Hn by (unfold n; case_Z; lia).
  destruct (page_align_up_pos n) as (Hge & Hmod & Hpos); [lia|lia|].
  set (size := page_align_up n) in *. rewrite bind_get.
  destruct (gap_search_spec 4096 (regions_ m) (mmap_next_ m) size (2 ^ 62))
    as (Hfree & Hb & Hbal); try lia.
  { rewrite Forall_forall in *. intros x Hx. specialize (Hr x Hx). specialize (Hend x Hx).
    unfold region_ok in Hr. lia. }
  { etrans; [apply List.filter_length_le|done]. }
  set (b := gap_search 4096 (regions_ m) (mmap_next_ m) size) in *.
  unfold mbind, M_mbind, M_bind. rewrite map_insert_eq.
  destruct (uc_mem_map (m_uc m) b size prot) as [u'|] eqn:Eu; intros [= <- <-];
    exists b, size; repeat (split; [lia || done|]); [right|by left].
  simpl. rewrite u64_id by lia. repeat (split; [done|]). split.
  - apply insert_region_elem. by left.
  - intros x Hx. split; [by eapply law_map_free|].
    rewrite (law_map_mapped _ _ _ _ _ _ Eu), (proj2 (in_range_spec _ _ _)) by done.
    apply orb_true_r.
Qed.

(** *** The heap *)

Definition in_block (b : Z * Z) (x : Z) : Prop := fst b <= x < fst b + snd b.

(** Live blocks are mapped and the free arena [lo, hi) is mapped and meets
    none of them. *)
Definition arena_ok (u : U) (lo hi : Z) (blocks : list (Z * Z)) : Prop :=
  Forall (fun b => forall x, in_block b x -> uc_mapped u x = true) blocks /\
  (forall x, lo <= x < hi ->
     uc_mapped u x = true /\ Forall (fun b => ~ in_block b x) blocks).

Definition heap_inv (m : Memory U) (blocks : list (Z * Z)) : Prop :=
  if heap_next_ m =? 0 then arena_ok (m_uc m) 0 0 blocks
  else arena_ok (m_uc m) (heap_next_ m) (heap_end_ m) blocks.

Lemma arena_ok_shrink u lo hi lo' blocks :
  arena_ok u lo hi blocks -> lo <= lo' -> arena_ok u lo' hi blocks.
Proof. intros [H1 H2] Hlo. split; [done|]. intros x Hx. apply H2. lia. Qed.

(** A fresh mapping is an arena of its own. *)
Lemma arena_ok_fresh (u u' : U) a n p lo hi blocks :
  arena_ok u lo hi blocks -> uc_mem_map u a n p = Some u' ->
  arena_ok u' a (a + n) blocks.
Proof.
  intros [H1 _] E. split.
  - eapply Forall_impl; [exact H1|]. intros b Hb x Hx.
    rewrite (law_map_mapped _ _ _ _ _ _ E), (Hb x Hx). done.
  - intros x Hx. split.
    + rewrite (law_map_mapped _ _ _ _ _ _ E), (proj2 (in_range_spec _ _ _)) by done.
      apply orb_true_r.
    + eapply Forall_impl; [exact H1|]. intros b Hb Hin.
      pose proof (law_map_free _ _ _ _ _ _ E Hx). specialize (Hb x Hin). congruence.
Qed.

(** Taking [p, p + len) out of an arena. *)
Lemma arena_ok_take u lo hi blocks p len lo' :
  arena_ok u lo hi blocks -> lo <= p -> 0 <= len -> p + len <= hi ->
  (p + len <= lo' \/ hi <= lo') ->
  arena_ok u lo' hi ((p, len) :: blocks) /\
  (forall x, p <= x < p + len -> uc_mapped u x = true /\ Forall (fun b => ~ in_block b x) blocks).
Proof.
  intros [H1 H2] Hp Hl0 Hl Hlo. split; [split|].
  - constructor; [|done]. intros x Hx. unfold in_block in Hx. simpl in Hx. apply H2. lia.
  - intros x Hx. destruct (H2 x) as [Hm Hb]; [lia|]. split; [done|].
    constructor; [|done]. unfold in_block. simpl. lia.
  - intros x Hx. apply H2. lia.
Qed.

Lemma align_up_spec p k :
  0 <= k <= 12 -> 0 <= p -> p + 4096 < 2 ^ 64 ->
  p <= align_up p (2 ^ k) < p + 2 ^ k /\ align_up p (2 ^ k) mod 2 ^ k = 0.
Proof.
  intros Hk Hp Hw.
  assert (0 < 2 ^ k <= 2 ^ 12) as Hk2.
  { split; [apply Z.pow_pos_nonneg; lia|apply Z.pow_le_mono_r; lia]. }
  unfold align_up. rewrite u64_id by lia. rewrite land_mask64 by lia.
  pose proof (Z.mod_pos_bound (p + (2 ^ k - 1)) (2 ^ k)). split; [lia|].
  rewrite Zminus_mod_idemp_r. by rewrite Z.sub_diag.
Qed.

Lemma page_mod_pow p k : 0 <= k <= 12 -> p mod 4096 = 0 -> p mod 2 ^ k = 0.
Proof.
  intros Hk [q ->]%Z.mod_divide; [|done]. change 4096 with (2 ^ 12).
  replace 12 with (12 - k + k) by lia. rewrite Z.pow_add_r by lia.
  rewrite Z.mul_assoc. apply Z.mod_mul. apply Z.pow_nonzero; lia.
Qed.

(** An aligned cursor stays where it is. *)
Lemma align_up_id p k :
  0 <= k <= 12 -> 0 <= p -> p mod 4096 = 0 -> p < 2 ^ 64 -> align_up p (2 ^ k) = p.
Proof.
  intros Hk Hp Ha Hw.
  assert (0 < 2 ^ k <= 2 ^ 12) as Hk2.
  { split; [apply Z.pow_pos_nonneg; lia|apply Z.pow_le_mono_r; lia]. }
  assert (p <= 2 ^ 64 - 4096) as Hp2.
  { apply Z.mod_divide in Ha as [q ->]; [|done]. lia. }
  pose proof (page_mod_pow p k Hk Ha) as Hpk.
  unfold align_up. rewrite u64_id by lia. rewrite land_mask64 by lia.
  rewrite <- Z.add_mod_idemp_l, Hpk, Z.add_0_l by lia. rewrite (Z.mod_small (2 ^ k - 1)); lia.
Qed.

Lemma heap_bump_range p len : 0 <= heap_bump tight p len.
Proof. unfold heap_bump. destruct tight; apply u64_range. Qed.

Lemma heap_bump_ge p len :
  0 <= p -> 0 <= len <= 2 ^ 63 -> p + len + 48 < 2 ^ 64 ->
  p + len <= heap_bump tight p len.
Proof.
  intros Hp Hl Hw. unfold heap_bump. destruct tight; [rewrite u64_id; lia|].
  rewrite (u64_id (len + 31)) by lia. rewrite (land_mask64 _ 5) by lia.
  pose proof (Z.mod_pos_bound (len + 31) (2 ^ 5)). rewrite u64_id; lia.
Qed.

Lemma mmap_alloc_ret len prot l (m m' : Memory U) b :
  mmap_alloc len prot l m = (Ret b, m') ->
  len <= 2 ^ 32 /\
  exists u', uc_mem_map (m_uc m) b (page_align_up (if len =? 0 then 1 else len)) prot
             = Some u' /\
    m_uc m' = u' /\ heap_next_ m' = heap_next_ m /\ heap_end_ m' = heap_end_ m.
Proof.
  unfold mmap_alloc. destruct (Z.ltb_spec (2 ^ 32) len); [done|]. rewrite bind_get.
  intros (? & m1 & E & Er)%bind_ret_inv.
  apply map_insert_ret in E as (u' & Eu & ->). injection Er as <- <-.
  split; [done|]. by exists u'.
Qed.

(** The state in which [heap_alloc] looks for room. *)
Lemma heap_first_use (m m1 : Memory U) blocks (x : unit) :
  heap_inv m blocks -> 0 <= heap_next_ m ->
  (if heap_next_ m =? 0
   then _ ← map_insert kHeapBase kHeapSize UC_PROT_RW Heap "heap";
        set_heap kHeapBase (kHeapBase + kHeapSize)
   else skip) m = (Ret x, m1) ->
  arena_ok (m_uc m1) (heap_next_ m1) (heap_end_ m1) blocks /\
  (heap_next_ m1 = heap_next_ m \/ heap_next_ m1 = kHeapBase) /\ 0 < heap_next_ m1.
Proof.
  unfold heap_inv. intros Hinv Hn. destruct (Z.eqb_spec (heap_next_ m) 0) as [E0|E0].
  - intros (? & m2 & E & Er)%bind_ret_inv.
    apply map_insert_ret in E as (u' & Eu & ->). injection Er as <- <-.
    split; [by eapply arena_ok_fresh|]. split; [by right|]. simpl. unfold kHeapBase. lia.
  - intros [= <- <-]. split; [done|]. split; [by left|lia].
Qed.

(** The extension path: a new arena from [mmap_alloc], then the block. *)
Lemma heap_extend_fresh (m1 m' : Memory U) blocks len k p :
  arena_ok (m_uc m1) (heap_next_ m1) (heap_end_ m1) blocks ->
  0 <= k <= 12 -> 0 <= len <= 2 ^ 63 -> p <> 0 ->
  (let want := page_align_up (if kHeapExtent <? len then len else kHeapExtent) in
   ext ← try_catch (mmap_alloc want UC_PROT_RW "heap-extent") (mret 0);
   if ext =? 0 then mret 0 else
   _ ← set_heap ext (u64 (ext + want));
   let p := align_up ext (2 ^ k) in
   if u64 (ext + want) <? u64 (p + len) then mret 0 else heap_take tight p len) m1
  = (Ret p, m') ->
  p mod 2 ^ k = 0 /\
  (forall x, p <= x < p + len -> uc_mapped (m_uc m') x = true /\
                                 Forall (fun b => ~ in_block b x) blocks) /\
  heap_inv m' ((p, len) :: blocks).
Proof.
  intros Har Hk Hlen Hp0. set (n := if kHeapExtent <? len then len else kHeapExtent).
  assert (len <= n /\ kHeapExtent <= n <= 2 ^ 63) as Hn.
  { unfold n, kHeapExtent. case_Z; lia. }
  unfold kHeapExtent in Hn.
  destruct (page_align_up_pos n) as (Hw1 & Hw2 & Hw3); [lia..|].
  cbv zeta. set (want := page_align_up n) in *.
  intros (ext & m2 & Et & E)%bind_ret_inv.
  destruct (Z.eqb_spec ext 0) as [->|Hext]; [by injection E|].
  assert (mmap_alloc want UC_PROT_RW "heap-extent" m1 = (Ret ext, m2)) as Em.
  { unfold try_catch in Et. destruct (mmap_alloc _ _ _ m1) as [[b|e|] mx]; try done.
    by injection Et. }
  apply mmap_alloc_ret in Em as (Hwant & u' & Eu & Eu2 & _ & _).
  destruct (Z.eqb_spec want 0); [lia|].
  assert (page_align_up want = want) as Ew.
  { rewrite page_align_up_eq by lia. rewrite <- Z.add_mod_idemp_l, Hw2 by lia.
    rewrite Z.add_0_l, (Z.mod_small 4095) by lia. lia. }
  rewrite Ew in Eu. pose proof (law_map_args _ _ _ _ _ Eu) as (Ha1 & _ & Ha2 & Ha3 & _).
  pose proof (arena_ok_fresh _ _ _ _ _ _ _ _ Har Eu) as Hnew.
  pose proof (page_mod_pow ext k Hk Ha3) as Hmod.
  rewrite align_up_id in E by lia.
  apply bind_ret_inv in E as (? & m3 & E3 & E). injection E3 as _ <-.
  destruct (u64 (ext + want) <? u64 (ext + len)) eqn:Elt; [by injection E|].
  unfold heap_take in E. injection E as <- <-. unfold heap_inv. cbn. rewrite Eu2.
  bool_to_Prop. fold (heap_bump tight ext len).
  assert (0 < want <= 2 ^ 33 /\ 0 <= len <= want) as Hlw by lia.
  clearbody want n.
  destruct (decide (ext + want = 2 ^ 64)) as [Ee|Ee].
  { rewrite Ee in *. change (u64 (2 ^ 64)) with 0 in *.
    assert (u64 (ext + len) = 0) as Hj by (pose proof (u64_range (ext + len)); lia).
    apply Z.mod_divide in Hj as [j Hj]; [|done].
    assert (len = want) as -> by lia.
    destruct (arena_ok_take u' ext (2 ^ 64) blocks ext want (2 ^ 64) Hnew)
      as [[Ha Ha'] Hx]; [lia..|].
    split; [done|]. split; [done|].
    pose proof (heap_bump_range ext want). destruct (_ =? 0); (split; [done|lia]). }
  assert (ext + want <= 2 ^ 64 - 4096) as Hlast.
  { assert ((ext + want) mod 4096 = 0) as Hj by (rewrite Z.add_mod, Ha3, Hw2 by lia; done).
    apply Z.mod_divide in Hj as [j Hj]; [|done]. rewrite Hj in *. lia. }
  rewrite !u64_id in * by lia.
  pose proof (heap_bump_ge ext len ltac:(lia) ltac:(lia) ltac:(lia)) as Hb.
  destruct (arena_ok_take u' ext (ext + want) blocks ext len (heap_bump tight ext len) Hnew)
    as [Ha Hx]; [lia..|].
  split; [done|]. split; [done|].
  destruct (Z.eqb_spec (heap_bump tight ext len) 0); [lia|done].
Qed.

Lemma heap_alloc_new (m m' : Memory U) blocks len k p :
  heap_inv m blocks -> 0 <= k <= 12 -> 0 <= len <= 2 ^ 63 ->
  0 <= heap_next_ m < 2 ^ 62 -> p <> 0 ->
  heap_alloc tight len (2 ^ k) m = (Ret p, m') ->
  p mod 2 ^ k = 0 /\
  (forall x, p <= x < p + len -> uc_mapped (m_uc m') x = true /\
                                 Forall (fun b => ~ in_block b x) blocks) /\
  heap_inv m' ((p, len) :: blocks).
Proof.
  intros Hinv Hk Hlen Hn Hp0. unfold heap_alloc. rewrite bind_get.
  intros (t1 & m1 & E1 & E)%bind_ret_inv. rewrite bind_get in E.
  destruct (heap_first_use _ _ _ _ Hinv ltac:(lia) E1) as (Har & Hm1 & Hpos).
  assert (0 < heap_next_ m1 < 2 ^ 62) as Hn1 by (unfold kHeapBase in Hm1; lia).
  destruct (align_up_spec (heap_next_ m1) k) as [Hal Hmod]; [lia..|].
  assert (0 < 2 ^ k <= 2 ^ 12) as Hk2.
  { split; [apply Z.pow_pos_nonneg; lia|apply Z.pow_le_mono_r; lia]. }
  set (q := align_up (heap_next_ m1) (2 ^ k)) in *.
  rewrite (u64_id (q + len)) in E by lia.
  destruct (Z.ltb_spec (heap_end_ m1) (q + len)) as [Hfull|Hfit].
  - apply (heap_extend_fresh m1 m' blocks len k p); auto; lia.
  - unfold heap_take in E. injection E as <- <-.
    pose proof (heap_bump_ge q len ltac:(lia) ltac:(lia) ltac:(lia)) as Hb.
    destruct (arena_ok_take _ _ _ _ q len (heap_bump tight q len) Har) as [Ha Hx];
      [lia..|].
    split; [done|]. split; [done|]. unfold heap_inv. simpl.
    destruct (Z.eqb_spec (heap_bump tight q len) 0); [lia|done].
Qed.

(** A length so large that the end of the block wraps round: the test against
    the end of the arena passes. *)
Lemma heap_alloc_wraps (m m' : Memory U) len k p :
  0 <= k <= 12 -> 2 ^ 63 < len < 2 ^ 64 -> 0 < heap_next_ m < 2 ^ 62 ->
  let q := align_up (heap_next_ m) (2 ^ k) in
  2 ^ 64 <= q + len -> q + len - 2 ^ 64 <= heap_end_ m ->
  heap_alloc tight len (2 ^ k) m = (Ret p, m') ->
  p = q /\ m_uc m' = m_uc m /\ heap_next_ m' <= q + 16.
Proof.
  intros Hk Hlen Hn q Hw He. unfold heap_alloc. rewrite bind_get, (proj2 (Z.eqb_neq _ _)) by lia.
  rewrite bind_skip, bind_get. fold q.
  destruct (align_up_spec (heap_next_ m) k) as [Hal _]; [lia..|]. fold q in Hal.
  assert (0 < 2 ^ k <= 2 ^ 12) as Hk2.
  { split; [apply Z.pow_pos_nonneg; lia|apply Z.pow_le_mono_r; lia]. }
  assert (u64 (q + len) = q + len - 2 ^ 64) as Eu.
  { unfold u64. rewrite <- (Z_mod_plus_full _ (-1)). apply Z.mod_small. lia. }
  rewrite Eu, (proj2 (Z.ltb_ge _ _)) by lia. unfold heap_take. intros [= <- <-].
  split; [done|]. split; [done|]. cbn. unfold heap_bump. destruct tight; [lia|].
  set (f := Z.land (u64 (len + 31)) (mask64 32)).
  assert (f = 0 \/ len <= f < 2 ^ 64) as [->|Hf].
  { unfold f. destruct (Z.le_gt_cases (2 ^ 64) (len + 31)) as [Hb|Hb].
    - left. assert (u64 (len + 31) = len + 31 - 2 ^ 64) as ->.
      { unfold u64. rewrite <- (Z_mod_plus_full _ (-1)). apply Z.mod_small. lia. }
      rewrite (land_mask64 _ 5) by lia. rewrite Z.mod_small by lia. lia.
    - right. rewrite (u64_id (len + 31)), (land_mask64 _ 5) by lia.
      pose proof (Z.mod_pos_bound (len + 31) (2 ^ 5)). lia. }
  - rewrite u64_id by lia. lia.
  - unfold u64. rewrite <- (Z_mod_plus_full _ (-1)).
    destruct (Z.le_gt_cases (2 ^ 64) (q + f + 16)); [rewrite Z.mod_small by lia; lia|lia].
Qed.

(** C26: [heap_alloc], asked for an alignment up to a page, hands out fresh memory
    for every length up to 2^63: a
    non-null result is aligned, every byte of it is mapped and belongs to no
    block handed out before, and the allocator can go on (the invariant holds
    with the new block added), whether the block came from the current arena,
    the first mapping of the heap, or an extension.  Beyond that the sum of the
    address and the length may wrap, and then the result is not memory: a block
    is returned all the same, nothing is mapped for it, and the cursor ends at
    most 16 bytes behind its start, inside the block or on older ones.  The
    cursor is taken to lie below 2^62, far above the arenas. *)
Theorem heap_alloc_fresh (m m' : Memory U) blocks len k p :
  heap_inv m blocks -> 0 <= k <= 12 -> 0 <= len < 2 ^ 64 ->
  0 <= heap_next_ m < 2 ^ 62 -> p <> 0 ->
  heap_alloc tight len (2 ^ k) m = (Ret p, m') ->
  if decide (len <= 2 ^ 63) then
    p mod 2 ^ k = 0 /\
    (forall x, p <= x < p + len -> uc_mapped (m_uc m') x = true /\
                                   Forall (fun b => ~ in_block b x) blocks) /\
    heap_inv m' ((p, len) :: blocks)
  else
    let q := align_up (heap_next_ m) (2 ^ k) in
    heap_next_ m <> 0 -> 2 ^ 64 <= q + len -> q + len - 2 ^ 64 <= heap_end_ m ->
    p = q /\ m_uc m' = m_uc m /\ heap_next_ m' <= q + 16.
Proof.
  intros Hinv Hk Hlen Hn Hp E. case_decide.
  - apply (heap_alloc_new m m' blocks len k p); [done|done|lia|done|done|done].
  - cbv zeta. intros Hn0 Hw He. apply (heap_alloc_wraps m m' len k p); [done|lia|lia|done|done|done].
Qed.
End MemoryFacts.

(** ** Instances on the reference emulator *)

Definition demo_mem0 : Memory RefUc := init_memory Arm64 false ru_init.
(** One library and one anonymous mapping. *)
Definition demo_mem1 : Memory RefUc :=
  snd ((_ ← map_lib 0x5000 5 "libfoo.so"; mmap_alloc 0x1800 3 "anon") demo_mem0).

Lemma demo_mem1_wf : mem_wf demo_mem1.
Proof.
  eapply (preserves_bind mem_wf (map_lib 0x5000 5 "libfoo.so")
            (fun _ => mmap_alloc 0x1800 3 "anon")
            (map_lib_wf _ _ _) (fun _ => mmap_alloc_wf _ _ _) demo_mem0);
    [split; constructor|apply surjective_pairing].
Qed.

Lemma demo_mem1_regions :
  regions_ demo_mem1 = [mkRegion kMmapBase 0x2000 3 Mmap "anon" false;
                        mkRegion kLibBase64 0x5000 5 Lib "libfoo.so" false].
Proof. vm_compute. reflexivity. Qed.

Lemma mem_reachable_wf_witness :
  mem_wf (snd (exec_op Arm64 false (OHeap 100 16) demo_mem0)).
Proof.
  apply (mem_reachable_wf Arm64 false false ru_init). apply star_one.
  apply (ms_op Arm64 false (OHeap 100 16) _ _ _ ltac:(by intros) (surjective_pairing _)).
Defined.

Lemma region_of_spec_witness :
  region_of (regions_ demo_mem1) (kMmapBase + 0x1234)
  = Some (mkRegion kMmapBase 0x2000 3 Mmap "anon" false).
Proof.
  apply (region_of_spec demo_mem1).
  - apply demo_mem1_wf.
  - rewrite demo_mem1_regions. repeat apply Forall_cons_2; [reflexivity..|constructor].
  - split; [|vm_compute; split; [discriminate|reflexivity]].
    rewrite demo_mem1_regions. apply list_elem_of_here.
Defined.

Lemma mmap_alloc_spec_witness :
  exists b size, 0x1800 <= size /\ 0 < size /\ b mod 4096 = 0 /\ size mod 4096 = 0 /\
    kMmapBase <= b /\ Forall (fun x => ~ meets b size x) [] /\
    ((fst (mmap_alloc 0x1800 3 "anon" demo_mem0) = Throw "uc_mem_map" /\
      snd (mmap_alloc 0x1800 3 "anon" demo_mem0) = demo_mem0) \/
     (fst (mmap_alloc 0x1800 3 "anon" demo_mem0) = Ret b /\
      mmap_next_ (snd (mmap_alloc 0x1800 3 "anon" demo_mem0)) = b + size /\
      mkRegion b size 3 Mmap "anon" false
        ∈ regions_ (snd (mmap_alloc 0x1800 3 "anon" demo_mem0)) /\
      forall x, b <= x < b + size ->
        uc_mapped (m_uc demo_mem0) x = false /\
        uc_mapped (m_uc (snd (mmap_alloc 0x1800 3 "anon" demo_mem0))) x = true)).
Proof.
  apply (mmap_alloc_spec demo_mem0 _ 0x1800 3 "anon").
  - split; constructor.
  - lia.
  - simpl. lia.
  - constructor.
  - vm_compute. by split.
  - reflexivity.
  - apply surjective_pairing.
Defined.

(** Two blocks out of a fresh heap, the second aligned to a page. *)
Definition demo_heap : Memory RefUc := snd (heap_alloc false 100 16 demo_mem0).

Definition demo_huge : Z := 2 ^ 64 - 0x80.

Lemma heap_alloc_fresh_witness :
  (let p := kHeapBase + 0x1000 in
   let m' := snd (heap_alloc false 24 (2 ^ 12) demo_heap) in
   p mod 2 ^ 12 = 0 /\
   (forall x, p <= x < p + 24 ->
      uc_mapped (m_uc m') x = true /\ Forall (fun b => ~ in_block b x) [(kHeapBase, 100)]) /\
   heap_inv m' [(p, 24); (kHeapBase, 100)]) /\
  (let q := kHeapBase + 0x90 in
   let m' := snd (heap_alloc false demo_huge 16 demo_heap) in
   q = q /\ m_uc m' = m_uc demo_heap /\ heap_next_ m' <= q + 16).
Proof.
  assert (heap_inv demo_heap [(kHeapBase, 100)]) as Hinv.
  { apply (heap_alloc_new false demo_mem0 demo_heap [] 100 4 kHeapBase);
      [split; [constructor|simpl; lia]|lia|lia|by vm_compute|done|vm_compute; reflexivity]. }
  split.
  - apply (heap_alloc_fresh false demo_heap _ [(kHeapBase, 100)] 24 12); [done|lia|lia| |done|vm_compute; reflexivity].
    vm_compute. by split.
  - apply (heap_alloc_fresh false demo_heap (snd (heap_alloc false demo_huge 16 demo_heap)) [(kHeapBase, 100)]
             demo_huge 4 (kHeapBase + 0x90));
      [done|lia|unfold demo_huge; lia|vm_compute; by split|done|vm_compute; reflexivity|vm_compute; discriminate..].
Defined.

(** Behind such a block the next one lies on the first. *)
Example huge_block_overlaps :
  let m := snd (heap_alloc false demo_huge 16 demo_heap) in
  fst (heap_alloc false demo_huge 16 demo_heap) = Ret (kHeapBase + 0x90) /\
  fst (heap_alloc false 24 16 m) = Ret (kHeapBase + 0x20) /\ in_block (kHeapBase, 100) (kHeapBase + 0x20).
Proof. vm_compute. by repeat split. Qed.

(** [unmap] of part of a region: the pages leave the emulator, the region
    stays in the table, so the hole still counts as mapped and as occupied. *)
Definition demo_partial : Memory RefUc := snd (unmap kMmapBase 0x1000 demo_mem1).

Lemma partial_unmap_stale :
  uc_mapped (m_uc demo_partial) kMmapBase = false /\
  is_mapped (regions_ demo_partial) kMmapBase = true /\
  is_ret (fst (map_fixed kMmapBase 0x1000 3 Other "reuse" demo_partial)) = false.
Proof. vm_compute. done. Qed.
