(* ===== verification/Scheduler.v ===== *)
(** The green-thread scheduler: [core/engine/scheduler.cpp],
    [include/vardoger/engine/scheduler.hpp].

    Guest threads are saved CPU contexts; the loop of [run] loads one, lets
    the emulator run until a stub stops it, and saves it again.  What happens
    inside a slice is the guest's business, so [engine_run] is a parameter:
    the theorems assume only that it acts on the scheduler through the public
    operations modelled here ([gstep]). *)

From S2P Require Import Prelude.
From S2P Require Import Words.
From S2P Require Import Abi.
From S2P Require Import Unicorn.
From S2P Require Import Engine.
From S2P Require Import Memory.
From Stdlib Require Import Sorting.Sorted.
#[local] Open Scope Z_scope.

Inductive State := Runnable | Blocked | Finished.
#[export] Instance State_eq_dec : EqDecision State.
Proof. solve_decision. Defined.

Inductive Block := BNone | Join | Mutex | Cond.
#[export] Instance Block_eq_dec : EqDecision Block.
Proof. solve_decision. Defined.

Inductive Stop := SNone | SExit | SBlock | SYield.
#[export] Instance Stop_eq_dec : EqDecision Stop.
Proof. solve_decision. Defined.

(** The saved CPU context: [x[31]], [sp], [pc], [nzcv], [tpidr], [v[32]]
    (a 16-byte vector register as a 128-bit number). *)
Record Ctx := mkCtx {
  c_x : list Z;
  c_sp : Z;
  c_pc : Z;
  c_nzcv : Z;
  c_tpidr : Z;
  c_v : list Z;
}.

Record Thread := mkThread {
  tid : Z;
  state : State;
  block : Block;
  block_obj : Z;
  join_out : Z;
  retval : Z;
  stack_top : Z;
  ctx : Ctx;
  ctx_valid : bool;
}.

Definition ctx0 : Ctx := mkCtx (replicate 31 0) 0 0 0 0 (replicate 32 0).
(** [Thread t{}; t.tid = tid;]. *)
Definition new_thread (id : Z) : Thread := mkThread id Runnable BNone 0 0 0 0 ctx0 false.

Definition set_state (st : State) (t : Thread) : Thread :=
  mkThread (tid t) st (block t) (block_obj t) (join_out t) (retval t) (stack_top t)
           (ctx t) (ctx_valid t).
Definition set_retval (v : Z) (t : Thread) : Thread :=
  mkThread (tid t) (state t) (block t) (block_obj t) (join_out t) v (stack_top t)
           (ctx t) (ctx_valid t).
Definition set_ctx (c : Ctx) (t : Thread) : Thread :=
  mkThread (tid t) (state t) (block t) (block_obj t) (join_out t) (retval t) (stack_top t)
           c (ctx_valid t).
(** [t.block = Block::None; t.state = State::Runnable;]. *)
Definition wake (t : Thread) : Thread :=
  mkThread (tid t) Runnable BNone (block_obj t) (join_out t) (retval t) (stack_top t)
           (ctx t) (ctx_valid t).
(** [self.state = Blocked; self.block = b; self.block_obj = obj;] and, for a
    join, [self.join_out = out]. *)
Definition park (b : Block) (obj out : Z) (t : Thread) : Thread :=
  mkThread (tid t) Blocked b obj out (retval t) (stack_top t) (ctx t) (ctx_valid t).

Definition blocked_on (b : Block) (obj : Z) (t : Thread) : bool :=
  bool_decide (state t = Blocked) && bool_decide (block t = b) && (block_obj t =? obj).

Definition kWorkerStack : Z := 0x100000.
Definition kXReg : list ucreg := A64_X <$> seq 0 31.
Definition kVReg : list ucreg := A64_V <$> seq 0 32.

Section Scheduler.
Context {U : Type} `{UcOps U}.
Variable abi : Abi.
(** VARDOGER_NO_VREGS, VARDOGER_SCHED_QUANTUM, VARDOGER_MAX_PREEMPT and
    VARDOGER_TOLERATE_WORKER_FAULT. *)
Variable kNoVregs : bool.
Variables kQuantum kMaxPreempt : Z.
Variable tolerate_worker_fault : bool.

Record Scheduler := mkScheduler {
  s_mem : Memory U;
  threads_ : gmap Z Thread;
  mutex_owner_ : gmap Z Z;
  cur_ : Z;
  next_tid_ : Z;
  rr_ : Z;
  prefer_ : Z;
  slice_us_ : Z;
  hybrid_ : bool;
  running_ : bool;
  stop_ : Stop;
  stopping : bool;    (* [uc_emu_stop] was requested in this slice *)
}.

Definition with_mem (s : Scheduler) (v : Memory U) : Scheduler :=
  mkScheduler v (threads_ s) (mutex_owner_ s) (cur_ s) (next_tid_ s) (rr_ s) (prefer_ s)
    (slice_us_ s) (hybrid_ s) (running_ s) (stop_ s) (stopping s).
Definition with_threads (s : Scheduler) (v : gmap Z Thread) : Scheduler :=
  mkScheduler (s_mem s) v (mutex_owner_ s) (cur_ s) (next_tid_ s) (rr_ s) (prefer_ s)
    (slice_us_ s) (hybrid_ s) (running_ s) (stop_ s) (stopping s).
Definition with_owner (s : Scheduler) (v : gmap Z Z) : Scheduler :=
  mkScheduler (s_mem s) (threads_ s) v (cur_ s) (next_tid_ s) (rr_ s) (prefer_ s)
    (slice_us_ s) (hybrid_ s) (running_ s) (stop_ s) (stopping s).
Definition with_cur (s : Scheduler) (v : Z) : Scheduler :=
  mkScheduler (s_mem s) (threads_ s) (mutex_owner_ s) v (next_tid_ s) (rr_ s) (prefer_ s)
    (slice_us_ s) (hybrid_ s) (running_ s) (stop_ s) (stopping s).
Definition with_next_tid (s : Scheduler) (v : Z) : Scheduler :=
  mkScheduler (s_mem s) (threads_ s) (mutex_owner_ s) (cur_ s) v (rr_ s) (prefer_ s)
    (slice_us_ s) (hybrid_ s) (running_ s) (stop_ s) (stopping s).
Definition with_rr (s : Scheduler) (v : Z) : Scheduler :=
  mkScheduler (s_mem s) (threads_ s) (mutex_owner_ s) (cur_ s) (next_tid_ s) v (prefer_ s)
    (slice_us_ s) (hybrid_ s) (running_ s) (stop_ s) (stopping s).
Definition with_prefer (s : Scheduler) (v : Z) : Scheduler :=
  mkScheduler (s_mem s) (threads_ s) (mutex_owner_ s) (cur_ s) (next_tid_ s) (rr_ s) v
    (slice_us_ s) (hybrid_ s) (running_ s) (stop_ s) (stopping s).
Definition with_running (s : Scheduler) (v : bool) : Scheduler :=
  mkScheduler (s_mem s) (threads_ s) (mutex_owner_ s) (cur_ s) (next_tid_ s) (rr_ s)
    (prefer_ s) (slice_us_ s) (hybrid_ s) v (stop_ s) (stopping s).
Definition with_stop (s : Scheduler) (v : Stop) (b : bool) : Scheduler :=
  mkScheduler (s_mem s) (threads_ s) (mutex_owner_ s) (cur_ s) (next_tid_ s) (rr_ s)
    (prefer_ s) (slice_us_ s) (hybrid_ s) (running_ s) v b.

(** Calls on the engine and on the memory manager the scheduler refers to. *)
Definition mem_do {A} (op : M (Memory U) A) : M Scheduler A := fun s =>
  let '(r, m) := op (s_mem s) in (r, with_mem s m).
Definition eng {A} (op : M U A) : M Scheduler A := mem_do (uc_do op).

(** [threads_.at(id)]. *)
Definition thread_at (id : Z) : M Scheduler Thread := fun s =>
  match threads_ s !! id with
  | Some t => (Ret t, s)
  | None => (Throw "map::at", s)
  end.
Definition put_thread (id : Z) (t : Thread) : M Scheduler unit :=
  modify (fun s => with_threads s (<[id := t]> (threads_ s))).
Definition update_thread (id : Z) (f : Thread -> Thread) : M Scheduler unit :=
  t ← thread_at id; put_thread id (f t).

(** [stop_ = s; e.stop();]. *)
Definition stop_slice (v : Stop) : M Scheduler unit := modify (fun s => with_stop s v true).
(** [e.stop()] alone. *)
Definition e_stop : M Scheduler unit := modify (fun s => with_stop s (stop_ s) true).

Fixpoint write_regs (rs : list ucreg) (vs : list Z) : M U unit :=
  match rs, vs with
  | r :: rs', v :: vs' => _ ← write_uc_reg r v; write_regs rs' vs'
  | _, _ => skip
  end.

Definition load_ctx (t : Thread) : M U unit :=
  _ ← write_regs kXReg (c_x (ctx t));
  _ ← write_uc_reg A64_SP (c_sp (ctx t));
  _ ← write_uc_reg A64_NZCV (c_nzcv (ctx t));
  _ ← write_uc_reg A64_TPIDR_EL0 (c_tpidr (ctx t));
  if kNoVregs then skip else write_regs kVReg (c_v (ctx t)).

Definition save_ctx (u : U) (t : Thread) : Thread :=
  set_ctx (mkCtx (uc_reg_read u <$> kXReg) (uc_reg_read u A64_SP) (uc_reg_read u A64_PC)
                 (uc_reg_read u A64_NZCV) (uc_reg_read u A64_TPIDR_EL0)
                 (if kNoVregs then c_v (ctx t) else uc_reg_read u <$> kVReg)) t.

(** [save_ctx(threads_.at(id))]. *)
Definition save_thread (id : Z) (f : Thread -> Thread) : M Scheduler unit :=
  s ← get; update_thread id (fun t => f (save_ctx (m_uc (s_mem s)) t)).

(** The scan of [pick_next] over [ids[(rr_ + k) % n]], from [k] on. *)
Fixpoint rr_scan (fuel : nat) (ids : list Z) (rr k : Z) (m : gmap Z Thread) : option (Z * Z) :=
  match fuel with
  | O => None
  | S f =>
      match ids !! Z.to_nat (u64 (rr + k) mod zlen ids) with
      | Some id =>
          match m !! id with
          | Some t => if decide (state t = Runnable) then Some (id, k)
                      else rr_scan f ids rr (k + 1) m
          | None => rr_scan f ids rr (k + 1) m
          end
      | None => None
      end
  end.

Definition round_robin : M Scheduler (option Z) := fun s =>
  let ids := keys (threads_ s) in
  match rr_scan (length ids) ids (rr_ s) 0 (threads_ s) with
  | Some (id, k) => (Ret (Some id), with_rr s (u64 (rr_ s + k + 1) mod zlen ids))
  | None => (Ret None, s)
  end.

Definition pick_next : M Scheduler (option Z) := fun s =>
  if prefer_ s =? 0 then round_robin s else
  let s1 := with_prefer s 0 in
  match threads_ s !! prefer_ s with
  | Some t => if decide (state t = Runnable) then (Ret (Some (prefer_ s)), s1)
              else round_robin s1
  | None => round_robin s1
  end.

Fixpoint wake_loop (g rv : Z) (ids : list Z) : M Scheduler unit :=
  match ids with
  | [] => skip
  | id :: r =>
      t ← thread_at id;
      _ ← (if blocked_on Join g t
           then _ ← (if join_out t =? 0 then skip else eng (write_t 8 (join_out t) rv));
                put_thread id (wake t)
           else skip);
      wake_loop g rv r
  end.

Definition wake_joiners (g : Z) : M Scheduler unit :=
  t ← thread_at g;
  s ← get;
  wake_loop g (retval t) (keys (threads_ s)).

(** *** Operations called by the pthread stubs *)

Definition resume_at_lr : M Scheduler unit :=
  lr ← eng (read_reg abi Lr); eng (write_reg abi Pc lr).

Definition fresh_tid : M Scheduler Z := fun s =>
  (Ret (next_tid_ s), with_next_tid s (u64 (next_tid_ s + 1))).

Definition spawn (out_ptr routine arg : Z) : M Scheduler unit :=
  id ← fresh_tid;
  st ← mem_do (mmap_alloc kWorkerStack UC_PROT_RW "thread stack");
  let top := Z.land (u64 (st + kWorkerStack)) (mask64 16) in
  tp ← eng (read_uc_reg A64_TPIDR_EL0);
  let c := mkCtx (<[0%nat := arg]> (<[30%nat := kFiniPage]> (replicate 31 0)))
                 top routine 0 tp (replicate 32 0) in
  _ ← put_thread id (mkThread id Runnable BNone 0 0 0 top c true);
  _ ← (if out_ptr =? 0 then skip else eng (write_t 8 out_ptr id));
  _ ← eng (write_reg abi Ret0 0);
  s ← get;
  if negb (hybrid_ s) then skip else
  _ ← resume_at_lr;
  _ ← update_thread (cur_ s) (set_state Runnable);
  _ ← modify (fun s => with_prefer s id);
  stop_slice SYield.

Definition clone_ctx (c : Ctx) (child_sp tls : Z) : Ctx :=
  let x0 := <[0%nat := 0]> (c_x c) in
  mkCtx (if child_sp =? 0 then x0 else <[30%nat := kFiniPage]> x0)
        (if child_sp =? 0 then c_sp c else Z.land child_sp (mask64 16))
        (c_pc c) (c_nzcv c) (if tls =? 0 then c_tpidr c else tls) (c_v c).

Definition spawn_clone (child_sp tls ptid ctid : Z) : M Scheduler Z :=
  s ← get;
  if negb (running_ s) || negb (bool_decide (abi = Arm64)) then mret 0 else
  id ← fresh_tid;
  let t := save_ctx (m_uc (s_mem s)) (new_thread id) in
  _ ← put_thread id (mkThread id Runnable BNone 0 0 0 0
                       (clone_ctx (ctx t) child_sp tls) true);
  _ ← (if ptid =? 0 then skip else eng (write_t 4 ptid (u32 id)));
  _ ← (if ctid =? 0 then skip else eng (write_t 4 ctid (u32 id)));
  _ ← eng (write_reg abi Ret0 id);
  if negb (hybrid_ s) then mret id else
  _ ← update_thread (cur_ s) (set_state Runnable);
  _ ← modify (fun s => with_prefer s id);
  _ ← stop_slice SYield;
  mret id.

Definition thread_exit (status : Z) : M Scheduler bool :=
  s ← get;
  if negb (running_ s) then mret false else
  _ ← eng (write_reg abi Ret0 status);
  _ ← eng (write_reg abi Pc kFiniPage);
  _ ← e_stop;
  mret true.

(** The tail of a blocking stub: return 0 at the caller, end the slice. *)
Definition block_here : M Scheduler unit :=
  _ ← eng (write_reg abi Ret0 0); _ ← resume_at_lr; stop_slice SBlock.

Definition do_join (g retval_out : Z) : M Scheduler unit :=
  s ← get;
  let done rv := _ ← (if retval_out =? 0 then skip else eng (write_t 8 retval_out rv));
                 eng (write_reg abi Ret0 0) in
  match threads_ s !! g with
  | None => done 0
  | Some t =>
      if decide (state t = Finished) then done (retval t) else
      _ ← update_thread (cur_ s) (park Join g retval_out);
      block_here
  end.

Definition do_yield : M Scheduler unit :=
  _ ← eng (write_reg abi Ret0 0); _ ← resume_at_lr; stop_slice SYield.

(** [Block] other than a join leaves [join_out] alone. *)
Definition park_self (b : Block) (obj : Z) : M Scheduler unit :=
  s ← get; update_thread (cur_ s) (fun t => park b obj (join_out t) t).

Definition mutex_lock (m : Z) : M Scheduler unit :=
  s ← get;
  if default 0 (mutex_owner_ s !! m) =? 0
  then _ ← modify (fun s => with_owner s (<[m := cur_ s]> (mutex_owner_ s)));
       eng (write_reg abi Ret0 0)
  else _ ← park_self Mutex m; block_here.

(** The first thread, in key order, that waits on [obj]. *)
Definition first_waiter (b : Block) (obj : Z) (m : gmap Z Thread) : option Z :=
  List.find (fun id => match m !! id with Some t => blocked_on b obj t | None => false end)
            (keys m).

Definition mutex_unlock (m : Z) : M Scheduler unit :=
  _ ← modify (fun s => with_owner s (<[m := 0]> (mutex_owner_ s)));
  s ← get;
  match first_waiter Mutex m (threads_ s) with
  | Some id =>
      t ← thread_at id;
      _ ← modify (fun s => with_owner s (<[m := tid t]> (mutex_owner_ s)));
      put_thread id (wake t)
  | None => skip
  end.

Definition cond_wait (cond mutex : Z) : M Scheduler unit :=
  _ ← mutex_unlock mutex; _ ← park_self Cond cond; block_here.

Definition cond_wake (cond : Z) (all : bool) : M Scheduler unit :=
  if all
  then modify (fun s => with_threads s
         ((fun t => if blocked_on Cond cond t then wake t else t) <$> threads_ s))
  else s ← get;
       match first_waiter Cond cond (threads_ s) with
       | Some id => update_thread id wake
       | None => skip
       end.

Definition set_hybrid (h : bool) : M Scheduler unit := modify (fun s =>
  mkScheduler (s_mem s) (threads_ s) (mutex_owner_ s) (cur_ s) (next_tid_ s) (rr_ s)
    (prefer_ s) (slice_us_ s) h (running_ s) (stop_ s) (stopping s)).
Definition set_slice_us (us : Z) : M Scheduler unit := modify (fun s =>
  mkScheduler (s_mem s) (threads_ s) (mutex_owner_ s) (cur_ s) (next_tid_ s) (rr_ s)
    (prefer_ s) us (hybrid_ s) (running_ s) (stop_ s) (stopping s)).
Definition active (s : Scheduler) : bool := running_ s.
Definition self_tid (s : Scheduler) : Z := cur_ s.

(** *** The loop of [run] *)

(** [engine_.run(pc, kFiniPage, slice_us_, kQuantum)] with every hook it
    fires. *)
Variable engine_run : Z -> Z -> Z -> Z -> M Scheduler unit.

(** [try { ... } catch (...)] around the slice: [false] when a faulting
    worker was retired. *)
Definition run_slice (pc : Z) : M Scheduler bool := fun s =>
  match engine_run pc kFiniPage (slice_us_ s) kQuantum s with
  | (Ret _, s1) => (Ret true, s1)
  | (Throw e, s1) =>
      if negb (cur_ s1 =? 0) && tolerate_worker_fault
      then (_ ← update_thread (cur_ s1) (set_state Finished);
            _ ← wake_joiners (cur_ s1); mret false) s1
      else (Throw e, s1)
  | (UB, s1) => (UB, s1)
  end.

(** One iteration: [inl preempts] to continue, [inr result] to break. *)
Definition loop_body (preempts : Z) : M Scheduler (Z + Z) :=
  o ← pick_next;
  match o with
  | None => throw "scheduler: no runnable thread (deadlock)"
  | Some id =>
      t ← thread_at id;
      _ ← modify (fun s => with_cur s (tid t));
      _ ← eng (load_ctx t);
      _ ← modify (fun s => with_stop s SNone false);
      ok ← run_slice (c_pc (ctx t));
      if negb ok then mret (inl preempts) else
      pc_now ← eng (read_uc_reg A64_PC);
      s ← get;
      _ ← thread_at (cur_ s);
      if decide (stop_ s = SBlock) then
        _ ← save_thread (cur_ s) (fun t => t); mret (inl preempts)
      else if decide (stop_ s = SYield) then
        _ ← save_thread (cur_ s) (set_state Runnable); mret (inl preempts)
      else if pc_now =? kFiniPage then
        rv ← eng (read_uc_reg (A64_X 0));
        _ ← update_thread (cur_ s) (fun t => set_state Finished (set_retval rv t));
        _ ← wake_joiners (cur_ s);
        if cur_ s =? 0 then mret (inr rv) else mret (inl preempts)
      else if negb (kQuantum =? 0) then
        _ ← save_thread (cur_ s) (set_state Runnable);
        if kMaxPreempt =? 0 then mret (inl preempts) else
        if kMaxPreempt <? u64 (preempts + 1)
        then _ ← modify (fun s => with_running s false);
             throw "scheduler: preempt cap exceeded (anti-spin)"
        else mret (inl (u64 (preempts + 1)))
      else throw "scheduler: slice ended unexpectedly"
  end.

Fixpoint loop (fuel : nat) (preempts : Z) : M Scheduler (option Z) :=
  match fuel with
  | O => mret None
  | S f => r ← loop_body preempts;
           match r with inl p => loop f p | inr v => mret (Some v) end
  end.

(** [main.x[i] = a] for the first 31 arguments. *)
Definition seed_args (args xs : list Z) : list Z :=
  take 31 args ++ drop (length args) xs.

(** The state in which [run] enters its loop. *)
Definition run_init (fn : Z) (args : list Z) (s : Scheduler) : Scheduler :=
  let c := ctx (save_ctx (m_uc (s_mem s)) (new_thread 0)) in
  let main := mkThread 0 Runnable BNone 0 0 0 0
    (mkCtx (<[30%nat := kFiniPage]> (seed_args args (c_x c))) (c_sp c) fn
           (c_nzcv c) (c_tpidr c) (c_v c)) true in
  mkScheduler (s_mem s) {[0 := main]} ∅ 0 1 0 (prefer_ s) (slice_us_ s) (hybrid_ s) true
              (stop_ s) (stopping s).

(** [Ret None] is a run that needs more slices than [fuel]. *)
Definition run (fuel : nat) (fn : Z) (args : list Z) : M Scheduler (option Z) :=
  _ ← modify (run_init fn args);
  r ← loop fuel 0;
  _ ← (match r with Some _ => modify (fun s => with_running s false) | None => skip end);
  mret r.
End Scheduler.

#[global] Arguments Scheduler U : clear implicits.

(** ** What a slice may do *)

Inductive sched_op :=
| OSpawn (out_ptr routine arg : Z)
| OClone (child_sp tls ptid ctid : Z)
| OExit (status : Z)
| OJoin (g retval_out : Z)
| OYield
| OLock (m : Z)
| OUnlock (m : Z)
| OCondWait (cond mutex : Z)
| OCondWake (cond : Z) (all : bool)
| OSetHybrid (h : bool)
| OSetSliceUs (us : Z).

Section SchedulerFacts.
Context {U : Type} `{UcLaws U}.
Variable abi : Abi.
Variable kNoVregs : bool.
Variables kQuantum kMaxPreempt : Z.
Variable tolerate_worker_fault : bool.

Definition exec_sched_op (o : sched_op) : M (Scheduler U) unit :=
  match o with
  | OSpawn p r a => spawn abi p r a
  | OClone sp tls p c => _ ← spawn_clone abi kNoVregs sp tls p c; skip
  | OExit st => _ ← thread_exit abi st; skip
  | OJoin g out => do_join abi g out
  | OYield => do_yield abi
  | OLock m => mutex_lock abi m
  | OUnlock m => mutex_unlock m
  | OCondWait c m => cond_wait abi c m
  | OCondWake c all => cond_wake c all
  | OSetHybrid h => set_hybrid h
  | OSetSliceUs us => set_slice_us us
  end.

(** Guest code and the other stubs change registers, memory and mappings at
    will; a scheduler operation runs to its return or its throw, and none
    follows once the emulator was asked to stop. *)
Inductive gstep (allowed : sched_op -> Prop) : Scheduler U -> Scheduler U -> Prop :=
| g_env s m : gstep allowed s (with_mem s m)
| g_op o r s s' :
    allowed o -> stopping s = false -> exec_sched_op o s = (r, s') -> gstep allowed s s'.

(** *** Joins *)

(** Every joiner waits for a thread that exists and has not finished. *)
Definition waits_ok (m : gmap Z Thread) (t : Thread) : Prop :=
  state t = Blocked -> block t = Join ->
  exists t', m !! block_obj t = Some t' /\ state t' <> Finished.

Definition joins_ok (s : Scheduler U) : Prop :=
  map_Forall (fun id t => tid t = id /\ waits_ok (threads_ s) t) (threads_ s).

(** The same, joins on [g] aside. *)
Definition joins_ok_but (g : Z) (s : Scheduler U) : Prop :=
  map_Forall (fun id t => tid t = id /\
    (blocked_on Join g t = false -> waits_ok (threads_ s) t)) (threads_ s).

Lemma joins_ok_insert (s : Scheduler U) id t :
  joins_ok s -> tid t = id ->
  (state t = Finished -> exists t0, threads_ s !! id = Some t0 /\ state t0 = Finished) ->
  waits_ok (<[id := t]> (threads_ s)) t ->
  joins_ok (with_threads s (<[id := t]> (threads_ s))).
Proof.
  intros HJ Ht Hf Hw. apply map_Forall_lookup. simpl. intros k t1 Hk.
  apply lookup_insert_Some in Hk as [[<- <-]|[Hne Hk]]; [done|].
  rewrite <- Ht in *. clear Ht.
  destruct (map_Forall_lookup_1 _ _ _ _ HJ Hk) as [Hid Hwk]. split; [done|].
  intros Hb Hj. destruct (Hwk Hb Hj) as (t' & Hl & Hs).
  destruct (decide (block_obj t1 = tid t)) as [E|E].
  - rewrite E in *. exists t. rewrite lookup_insert_eq. split; [done|].
    intros (t0 & Hl0 & Hs0)%Hf. congruence.
  - exists t'. by rewrite lookup_insert_ne.
Qed.

Lemma joins_ok_same (s s' : Scheduler U) : threads_ s' = threads_ s -> joins_ok s -> joins_ok s'.
Proof. unfold joins_ok. by intros ->. Qed.

(** Operations that do not touch the thread table. *)
Definition frames {A} (f : Scheduler U -> A) {B} (m : M (Scheduler U) B) : Prop :=
  forall s r s', m s = (r, s') -> f s' = f s.

Lemma frames_joins_ok {A} (m : M (Scheduler U) A) : frames threads_ m -> preserves joins_ok m.
Proof. intros Hm s r s' HJ E. eapply joins_ok_same; [|done]. by eapply Hm. Qed.

Lemma mem_do_run {A} (op : M (Memory U) A) (s s' : Scheduler U) r :
  mem_do op s = (r, s') -> exists m, s' = with_mem s m.
Proof. unfold mem_do. destruct (op (s_mem s)). naive_solver. Qed.

Lemma mem_do_frames {A B} (f : Scheduler U -> B) (op : M (Memory U) A) :
  (forall s m, f (with_mem s m) = f s) -> frames f (mem_do op).
Proof. intros Hf s r s' (m & ->)%mem_do_run. apply Hf. Qed.

Lemma mem_do_joins {A} (op : M (Memory U) A) : preserves joins_ok (mem_do op).
Proof. apply frames_joins_ok, mem_do_frames. done. Qed.

Lemma update_thread_joins id f :
  (forall t, tid (f t) = tid t /\
     (state (f t) = Finished -> state t = Finished) /\
     (state (f t) = Blocked -> block (f t) = Join ->
        state t = Blocked /\ block t = Join /\ block_obj (f t) = block_obj t)) ->
  preserves joins_ok (update_thread (U := U) id f).
Proof.
  intros Hf s r s' HJ. unfold update_thread, mbind, M_mbind, M_bind, thread_at.
  destruct (threads_ s !! id) as [t|] eqn:E; intros [= _ <-]; [|done].
  destruct (Hf t) as (Ht & Hs & Hb).
  destruct (map_Forall_lookup_1 _ _ _ _ HJ E) as [Hid Hw].
  apply joins_ok_insert; [done|congruence|eauto|].
  intros Hb1 Hj. destruct (Hb Hb1 Hj) as (Hb2 & Hj2 & Ho). rewrite Ho.
  destruct (Hw Hb2 Hj2) as (t' & Hl & Hs').
  destruct (decide (block_obj t = id)) as [->|E2].
  - rewrite lookup_insert_eq. exists (f t). split; [done|]. rewrite Hb1. done.
  - exists t'. by rewrite lookup_insert_ne.
Qed.

Lemma put_new_thread_joins id t :
  tid t = id -> state t = Runnable -> preserves joins_ok (put_thread (U := U) id t).
Proof.
  intros Ht Hs s r s' HJ [= _ <-]. apply joins_ok_insert; [done|done| |intros E]; congruence.
Qed.

Lemma get_joins : preserves joins_ok (get (S := Scheduler U)).
Proof. by intros s r s' HJ [= _ <-]. Qed.

Lemma modify_joins (f : Scheduler U -> Scheduler U) :
  (forall s, threads_ (f s) = threads_ s) -> preserves joins_ok (modify f).
Proof. intros Hf. apply preserves_modify. intros s. by apply joins_ok_same. Qed.

Lemma fresh_tid_joins : preserves joins_ok (fresh_tid (U := U)).
Proof. by apply frames_joins_ok; intros s r s' [= _ <-]. Qed.

Lemma eng_joins {A} (op : M U A) : preserves joins_ok (eng op).
Proof. apply mem_do_joins. Qed.

#[local] Hint Resolve mem_do_joins eng_joins get_joins fresh_tid_joins : preserves.

Ltac sched_step :=
  match goal with
  | |- preserves _ (mbind _ _) => apply preserves_bind; [|intros ?]
  | |- preserves _ (mret _) => apply preserves_ret
  | |- preserves _ skip => apply preserves_ret
  | |- preserves _ (throw _) => apply preserves_throw
  | |- preserves _ (modify _) => apply modify_joins; by intros
  | |- preserves _ (put_thread _ _) => by apply put_new_thread_joins
  | |- preserves _ (update_thread _ _) =>
      apply update_thread_joins; intros ?t; simpl; repeat split; done
  | |- preserves _ (match ?x with _ => _ end) => destruct x
  | |- preserves _ _ => solve [eauto with preserves]
  end.
Ltac sched := repeat sched_step.

Lemma resume_joins : preserves joins_ok (resume_at_lr (U := U) abi).
Proof. unfold resume_at_lr. sched. Qed.
#[local] Hint Resolve resume_joins : preserves.
Lemma block_here_joins : preserves joins_ok (block_here (U := U) abi).
Proof. unfold block_here, stop_slice. sched. Qed.
#[local] Hint Resolve block_here_joins : preserves.

Lemma spawn_joins p r a : preserves joins_ok (spawn (U := U) abi p r a).
Proof. unfold spawn, stop_slice. sched. Qed.

Lemma spawn_clone_joins sp tls p c :
  preserves joins_ok (spawn_clone (U := U) abi kNoVregs sp tls p c).
Proof. unfold spawn_clone, stop_slice. sched. Qed.

Lemma thread_exit_joins st : preserves joins_ok (thread_exit (U := U) abi st).
Proof. unfold thread_exit, e_stop. sched. Qed.

Lemma park_self_joins b obj : b <> Join -> preserves joins_ok (park_self (U := U) b obj).
Proof.
  intros Hb. unfold park_self. sched_step; [sched|]. apply update_thread_joins.
  intros t. simpl. repeat split; done.
Qed.

Lemma do_join_joins g out : preserves joins_ok (do_join (U := U) abi g out).
Proof.
  intros s r s' HJ. unfold do_join. rewrite bind_get.
  destruct (threads_ s !! g) as [t|] eqn:Eg; [destruct (decide _) as [Ef|Ef]|].
  1, 3: intros E; revert HJ E;
    match goal with |- joins_ok _ -> ?m _ = _ -> _ => enough (preserves joins_ok m) by eauto end;
    sched.
  intros E. unfold update_thread in E. revert E.
  unfold mbind at 1 2, M_mbind at 1 2, M_bind at 1 2. unfold thread_at.
  destruct (threads_ s !! cur_ s) as [self|] eqn:Es; [|by intros [= _ <-]].
  destruct (map_Forall_lookup_1 _ _ _ _ HJ Es) as [Hid _].
  apply block_here_joins. apply joins_ok_insert; try done.
  intros _ _. simpl. destruct (decide (g = cur_ s)) as [->|Hne].
  - rewrite lookup_insert_eq. by eexists.
  - rewrite lookup_insert_ne by done. eauto.
Qed.

Lemma first_waiter_Some b obj (m : gmap Z Thread) id :
  first_waiter b obj m = Some id ->
  exists t, m !! id = Some t /\ blocked_on b obj t = true.
Proof.
  unfold first_waiter. intros [_ Ht]%List.find_some.
  destruct (m !! id) as [t|]; [eauto|done].
Qed.

Lemma mutex_unlock_joins m : preserves joins_ok (mutex_unlock (U := U) m).
Proof.
  unfold mutex_unlock. sched_step; [sched|]. sched_step; [sched|].
  destruct (first_waiter _ _ _) as [id|]; [|sched].
  intros s r s' HJ. unfold mbind, M_mbind, M_bind, thread_at.
  destruct (threads_ s !! id) as [t|] eqn:E; [|by intros [= _ <-]].
  destruct (map_Forall_lookup_1 _ _ _ _ HJ E) as [Hid _].
  intros Es. eapply put_new_thread_joins, Es; [done..|]. by eapply joins_ok_same.
Qed.
#[local] Hint Resolve mutex_unlock_joins : preserves.

Lemma mutex_lock_joins m : preserves joins_ok (mutex_lock (U := U) abi m).
Proof. unfold mutex_lock. sched. by apply park_self_joins. Qed.

Lemma cond_wait_joins c m : preserves joins_ok (cond_wait (U := U) abi c m).
Proof. unfold cond_wait. sched. by apply park_self_joins. Qed.

(** Waking any set of waiters at once. *)
Lemma fmap_wake_joins (p : Thread -> bool) (s : Scheduler U) :
  joins_ok s ->
  joins_ok (with_threads s ((fun t => if p t then wake t else t) <$> threads_ s)).
Proof.
  intros HJ. apply map_Forall_lookup. simpl. intros id t.
  rewrite lookup_fmap. intros (t0 & Hl & ->)%fmap_Some_1.
  destruct (map_Forall_lookup_1 _ _ _ _ HJ Hl) as [Hid Hw].
  split; [by destruct (p t0)|]. intros Hb Hj.
  destruct (p t0); [done|]. destruct (Hw Hb Hj) as (t' & Hl' & Hs').
  exists (if p t' then wake t' else t'). rewrite lookup_fmap, Hl'. split; [done|].
  by destruct (p t').
Qed.

Lemma cond_wake_joins c all : preserves joins_ok (cond_wake (U := U) c all).
Proof.
  unfold cond_wake. destruct all; [|sched].
  apply preserves_modify, fmap_wake_joins.
Qed.

Lemma exec_sched_op_joins o : preserves joins_ok (exec_sched_op o).
Proof.
  destruct o; simpl; try (apply preserves_bind; [|intros; apply preserves_ret]).
  - apply spawn_joins.
  - apply spawn_clone_joins.
  - apply thread_exit_joins.
  - apply do_join_joins.
  - unfold do_yield, stop_slice. sched.
  - apply mutex_lock_joins.
  - apply mutex_unlock_joins.
  - apply cond_wait_joins.
  - apply cond_wake_joins.
  - unfold set_hybrid. sched.
  - unfold set_slice_us. sched.
Qed.

Lemma gstep_joins al s s' : joins_ok s -> gstep al s s' -> joins_ok s'.
Proof.
  intros HJ Hg. destruct Hg as [s m|o r s s' _ _ E]; [by eapply joins_ok_same|].
  by eapply exec_sched_op_joins.
Qed.

(** *** Waking joiners *)

Definition wake_on (g : Z) (t : Thread) : Thread :=
  if blocked_on Join g t then wake t else t.

Lemma wake_on_idem g t : wake_on g (wake_on g t) = wake_on g t.
Proof. unfold wake_on. destruct (blocked_on Join g t) eqn:E; [done|by rewrite E]. Qed.

Lemma wake_loop_ret g rv ids (s s' : Scheduler U) x :
  wake_loop g rv ids s = (Ret x, s') ->
  forall id, threads_ s' !! id =
    (if decide (id ∈ ids) then wake_on g else (fun t => t)) <$> threads_ s !! id.
Proof.
  revert s. induction ids as [|i ids IH]; intros s.
  { intros [= _ <-] id. rewrite decide_False by apply not_elem_of_nil. by destruct (_ !! _). }
  cbn [wake_loop]. intros (t & s1 & E1 & E)%bind_ret_inv.
  unfold thread_at in E1. destruct (threads_ s !! i) as [t1|] eqn:Ei; [|done].
  injection E1 as <- <-. apply bind_ret_inv in E as ([] & s2 & E2 & E).
  assert (threads_ s2 = <[i := wake_on g t1]> (threads_ s)) as Hs2.
  { unfold wake_on. destruct (blocked_on Join g t1).
    - apply bind_ret_inv in E2 as ([] & s3 & E3 & [= <-]). simpl. f_equal.
      destruct (join_out t1 =? 0); [by injection E3 as <-|].
      by apply mem_do_run in E3 as (m & ->).
    - injection E2 as <-. by rewrite insert_id. }
  intros id. rewrite (IH _ E id), Hs2.
  destruct (decide (id = i)) as [->|Hne].
  - rewrite lookup_insert_eq, Ei. rewrite (decide_True (P := i ∈ i :: ids)) by left.
    simpl. f_equal. case_decide; [apply wake_on_idem|done].
  - rewrite lookup_insert_ne by done. do 2 f_equal.
    destruct (decide (id ∈ ids)) as [Hin|Hin];
      [rewrite decide_True by (by right)|rewrite decide_False]; try done.
    intros [->|?]%elem_of_cons; done.
Qed.

Lemma wake_joiners_ret g (s s' : Scheduler U) x :
  wake_joiners g s = (Ret x, s') -> threads_ s' = wake_on g <$> threads_ s.
Proof.
  intros (t & s1 & E1 & E)%bind_ret_inv. unfold thread_at in E1.
  destruct (threads_ s !! g); [|done]. injection E1 as <- <-. rewrite bind_get in E.
  apply map_eq. intros id. rewrite (wake_loop_ret _ _ _ _ _ _ E id), lookup_fmap.
  destruct (threads_ s !! id) as [t1|] eqn:Ei; [|done]. simpl.
  by rewrite decide_True by (apply keys_elem; eauto).
Qed.

(** A thread retires: marked finished, then its joiners are woken. *)
Lemma retire_joins id f (s s1 s' : Scheduler U) x y :
  joins_ok s -> (forall t, tid (f t) = tid t /\ state (f t) = Finished) ->
  update_thread id f s = (Ret x, s1) -> wake_joiners id s1 = (Ret y, s') -> joins_ok s'.
Proof.
  intros HJ Hf E1 E2%wake_joiners_ret. apply bind_ret_inv in E1 as (t & s2 & E0 & E1).
  unfold thread_at in E0. destruct (threads_ s !! id) as [t0|] eqn:Ei; [|done].
  injection E0 as -> <-. injection E1 as _ <-. simpl in E2.
  destruct (Hf t) as [Ht Hst].
  apply map_Forall_lookup. rewrite E2. intros k tk. rewrite lookup_fmap.
  intros (t1 & Hl & ->)%fmap_Some_1.
  assert (tid t1 = k /\ (state t1 = Blocked -> waits_ok (threads_ s) t1)) as [Hid Hw].
  { apply lookup_insert_Some in Hl as [[<- <-]|[Hne Hl]].
    - destruct (map_Forall_lookup_1 _ _ _ _ HJ Ei). split; [congruence|]. by rewrite Hst.
    - destruct (map_Forall_lookup_1 _ _ _ _ HJ Hl). done. }
  unfold wake_on. destruct (blocked_on Join id t1) eqn:Eb; [done|]. split; [done|].
  intros Hb Hj. destruct (Hw Hb Hb Hj) as (t' & Hl' & Hs').
  assert (block_obj t1 <> id) as Hne.
  { intros Ho. unfold blocked_on in Eb. rewrite !bool_decide_true, Ho, Z.eqb_refl in Eb by done.
    done. }
  exists (wake_on id t'). rewrite lookup_fmap, lookup_insert_ne, Hl' by done.
  split; [done|]. unfold wake_on. by destruct (blocked_on Join id t').
Qed.

(** *** Picking a thread *)

Definition runnable (m : gmap Z Thread) (id : Z) : bool :=
  match m !! id with Some t => bool_decide (state t = Runnable) | None => false end.

Lemma rr_scan_spec fuel ids rr k m :
  0 <= rr -> 0 <= k -> rr + k + Z.of_nat fuel < 2 ^ 64 -> ids <> [] ->
  match rr_scan fuel ids rr k m with
  | Some (id, j) =>
      k <= j < k + Z.of_nat fuel /\ ids !! Z.to_nat ((rr + j) mod zlen ids) = Some id /\
      runnable m id = true /\
      forall i, k <= i < j -> forall id', ids !! Z.to_nat ((rr + i) mod zlen ids) = Some id' ->
        runnable m id' = false
  | None =>
      forall i, k <= i < k + Z.of_nat fuel ->
        forall id', ids !! Z.to_nat ((rr + i) mod zlen ids) = Some id' ->
        runnable m id' = false
  end.
Proof.
  intros Hr. revert k. induction fuel as [|f IH]; intros k Hk Hw Hne; cbn [rr_scan]; [lia|].
  rewrite u64_id by lia.
  assert (0 < zlen ids) as Hpos by (destruct ids; [done|unfold zlen; simpl; lia]).
  pose proof (Z.mod_pos_bound (rr + k) (zlen ids) Hpos) as Hb.
  destruct (lookup_lt_is_Some_2 ids (Z.to_nat ((rr + k) mod zlen ids))) as [id Hid];
    [unfold zlen in *; lia|]. rewrite Hid.
  destruct (runnable m id) eqn:Er.
  - unfold runnable in Er. destruct (m !! id) as [t|] eqn:Em; [|done].
    apply bool_decide_eq_true in Er. rewrite decide_True by done.
    split; [lia|]. split; [done|]. unfold runnable.
    rewrite Em, bool_decide_true by done. split; [done|]. intros; lia.
  - specialize (IH (k + 1) ltac:(lia) ltac:(lia) Hne).
    assert (rr_scan f ids rr (k + 1) m =
            match m !! id with
            | Some t => if decide (state t = Runnable) then Some (id, k)
                        else rr_scan f ids rr (k + 1) m
            | None => rr_scan f ids rr (k + 1) m end) as <-.
    { unfold runnable in Er. destruct (m !! id); [|done].
      apply bool_decide_eq_false in Er. by rewrite decide_False. }
    destruct (rr_scan f ids rr (k + 1) m) as [[id1 j]|].
    + destruct IH as (Hj & Hl & Hrun & Hbefore). split; [lia|]. split; [done|].
      split; [done|]. intros i Hi id' Hid'.
      destruct (decide (i = k)) as [->|]; [congruence|]. apply (Hbefore i); [lia|done].
    + intros i Hi id' Hid'. destruct (decide (i = k)) as [->|]; [congruence|].
      apply (IH i); [lia|done].
Qed.

Definition rr_ok (s : Scheduler U) : Prop :=
  0 <= rr_ s < 2 ^ 63 /\ Z.of_nat (size (threads_ s)) < 2 ^ 62.

(** [pick_next] with no preference, as one round-robin scan. *)
Lemma round_robin_spec (s s' : Scheduler U) r :
  rr_ok s -> round_robin s = (r, s') ->
  exists o, r = Ret o /\ threads_ s' = threads_ s /\ prefer_ s' = prefer_ s /\
    match o with
    | None => forall id, runnable (threads_ s) id = false
    | Some id => runnable (threads_ s) id = true
    end.
Proof.
  intros [Hr Hn] E. unfold round_robin in E. set (ids := keys (threads_ s)) in *.
  pose proof (keys_length (threads_ s)) as Hlen. fold ids in Hlen.
  destruct (decide (ids = [])) as [Enil|Hne].
  { rewrite Enil in E. injection E as <- <-. exists None. repeat (split; [done|]).
    intros id. unfold runnable. destruct (threads_ s !! id) eqn:El; [|done].
    assert (id ∈ ids) as Hin by (apply keys_elem; eauto). rewrite Enil in Hin.
    by apply elem_of_nil in Hin. }
  pose proof (rr_scan_spec (length ids) ids (rr_ s) 0 (threads_ s)
                ltac:(lia) ltac:(lia) ltac:(lia) Hne) as Hspec.
  destruct (rr_scan _ _ _ _ _) as [[id j]|]; injection E as <- <-.
  - exists (Some id). repeat (split; [done|]). tauto.
  - exists None. repeat (split; [done|]). intros id.
    destruct (runnable (threads_ s) id) eqn:Erun; [|done].
    unfold runnable in Erun. destruct (threads_ s !! id) as [t|] eqn:El; [|done].
    assert (id ∈ ids) as [q Hq]%list_elem_of_lookup by (apply keys_elem; eauto).
    pose proof (lookup_lt_Some _ _ _ Hq) as Hql. unfold zlen in Hspec.
    set (n := Z.of_nat (length ids)) in *.
    pose proof (Z.mod_pos_bound (Z.of_nat q - rr_ s) n ltac:(lia)) as Hmb.
    rewrite <- (Hspec ((Z.of_nat q - rr_ s) mod n) ltac:(lia) id); [|].
    + unfold runnable. by rewrite El.
    + rewrite Z.add_mod_idemp_r by lia.
      replace (rr_ s + (Z.of_nat q - rr_ s)) with (Z.of_nat q) by lia.
      rewrite Z.mod_small, Nat2Z.id by lia. done.
Qed.

Lemma round_robin_frames : frames threads_ (round_robin (U := U)).
Proof.
  intros s r s'. unfold round_robin. destruct (rr_scan _ _ _ _ _) as [[id k]|];
    by intros [= _ <-].
Qed.

Lemma pick_next_frames : frames threads_ (pick_next (U := U)).
Proof.
  intros s r s'. unfold pick_next. destruct (_ =? _); [apply round_robin_frames|].
  destruct (threads_ s !! prefer_ s); [destruct (decide _)|].
  - by intros [= _ <-].
  - by intros E%round_robin_frames.
  - by intros E%round_robin_frames.
Qed.

(** *** The loop *)

(** The documented contract of the emulation loop: it changes the scheduler
    only by guest steps. *)
Variable engine_run : Z -> Z -> Z -> Z -> M (Scheduler U) unit.
Variable allowed : sched_op -> Prop.
Hypothesis engine_run_steps : forall pc until us n s r s',
  engine_run pc until us n s = (r, s') -> star (gstep allowed) s s'.

Lemma engine_run_joins pc until us n : preserves joins_ok (engine_run pc until us n).
Proof.
  intros s r s' HJ E%engine_run_steps.
  refine (star_invariant _ _ _ _ _ HJ E). intros s1 s2. apply gstep_joins.
Qed.

(** What a slice leaves behind, unless the exception escapes [run]. *)
Lemma run_slice_joins pc (s s' : Scheduler U) b :
  joins_ok s ->
  run_slice kQuantum tolerate_worker_fault engine_run pc s = (Ret b, s') -> joins_ok s'.
Proof.
  intros HJ. unfold run_slice.
  destruct (engine_run _ _ _ _ s) as [[u|e|] s1] eqn:E; pose proof (engine_run_joins _ _ _ _ _ _ _ HJ E).
  - by intros [= <- <-].
  - destruct (negb _ && _); [|done].
    intros (x & s2 & E2 & E3)%bind_ret_inv.
    apply bind_ret_inv in E3 as (y & s3 & E3 & [= <- <-]).
    eapply retire_joins; [done| |done|done]. done.
  - done.
Qed.

Lemma save_thread_joins id f (s s' : Scheduler U) x :
  (forall t, tid (f t) = tid t /\
     (state (f t) = Finished -> state t = Finished) /\
     (state (f t) = Blocked -> block (f t) = Join ->
        state t = Blocked /\ block t = Join /\ block_obj (f t) = block_obj t)) ->
  joins_ok s -> save_thread kNoVregs id f s = (Ret x, s') -> joins_ok s'.
Proof.
  intros Hf HJ. unfold save_thread. rewrite bind_get. apply update_thread_joins; [|done].
  intros t. exact (Hf (save_ctx kNoVregs (m_uc (s_mem s)) t)).
Qed.

Abbreviation body := (loop_body kNoVregs kQuantum kMaxPreempt tolerate_worker_fault engine_run).

(** An iteration that neither throws nor faults keeps every joiner waiting
    for a live thread. *)
Lemma loop_body_joins p (s s' : Scheduler U) r :
  joins_ok s -> body p s = (Ret r, s') -> joins_ok s'.
Proof.
  intros HJ. unfold loop_body. intros (o & s1 & E1 & E)%bind_ret_inv.
  apply (joins_ok_same _ _ (pick_next_frames _ _ _ E1)) in HJ. clear E1 s.
  destruct o as [id|]; [|done]. apply bind_ret_inv in E as (t & s2 & E2 & E).
  unfold thread_at in E2. destruct (threads_ s1 !! id); [|done]. injection E2 as <- <-.
  rewrite bind_modify in E. apply bind_ret_inv in E as ([] & s3 & E3 & E).
  apply (eng_joins _ (with_cur s1 (tid t0)) _ _ HJ) in E3. rewrite bind_modify in E.
  apply bind_ret_inv in E as (ok & s4 & E4 & E).
  apply run_slice_joins in E4; [|done]. clear E3 HJ. rename E4 into HJ.
  destruct (negb ok); [by injection E as <- <-|].
  apply bind_ret_inv in E as (pc & s5 & E5 & E). apply eng_joins in E5; [|done].
  rewrite bind_get in E. apply bind_ret_inv in E as (t1 & s6 & E6 & E).
  assert (s6 = s5) as ->.
  { unfold thread_at in E6. destruct (threads_ s5 !! _); [by injection E6|done]. }
  clear E6 HJ. rename E5 into HJ.
  destruct (decide _).
  { apply bind_ret_inv in E as (x & s7 & E7 & [= <- <-]).
    by apply save_thread_joins in E7. }
  destruct (decide _).
  { apply bind_ret_inv in E as (x & s7 & E7 & [= <- <-]).
    by apply save_thread_joins in E7. }
  destruct (_ =? kFiniPage).
  { apply bind_ret_inv in E as (rv & s7 & E7 & E). apply eng_joins in E7; [|done].
    apply bind_ret_inv in E as (x & s8 & E8 & E).
    apply bind_ret_inv in E as (y & s9 & E9 & E).
    eapply retire_joins in E8; [|done| |done]; [|done].
    destruct (_ =? 0); by injection E as <- <-. }
  destruct (negb _); [|done].
  apply bind_ret_inv in E as (x & s7 & E7 & E). apply save_thread_joins in E7; [|done..].
  destruct (_ =? 0); [by injection E as <- <-|].
  destruct (_ <? _); [done|]. by injection E as <- <-.
Qed.

(** One turn of the loop of [run], on the preemption count and the state. *)
Definition loop_step (a b : Z * Scheduler U) : Prop :=
  body (fst a) (snd a) = (Ret (inl (fst b)), snd b).

(** C6: no join is lost.  Whatever the guest threads do in their slices
    (spawning, cloning, exiting, joining, faulting under
    VARDOGER_TOLERATE_WORKER_FAULT), at every turn of the loop of [run] each
    thread blocked in a join waits for a thread of the table that has not
    finished, so finishing threads always wake their joiners. *)
Theorem joins_never_lost fn args (s0 s : Scheduler U) p :
  star loop_step (0, run_init kNoVregs fn args s0) (p, s) -> joins_ok s.
Proof.
  intros Hs. refine (star_invariant loop_step (fun a => joins_ok (snd a)) _ (p, s) _ _ Hs).
  - intros [p1 s1] [p2 s2] HJ Hstep. by eapply loop_body_joins.
  - apply map_Forall_singleton. split; [done|]. by intros [=].
Qed.

(** *** Round robin is fair *)

(** [n] picks in a row, with no slice in between. *)
Fixpoint pick_n (n : nat) : M (Scheduler U) (list (option Z)) :=
  match n with
  | O => mret []
  | S k => o ← pick_next; l ← pick_n k; mret (o :: l)
  end.

(** How far ahead of the cursor the thread at position [q] is. *)
Definition rr_dist (n q rr : Z) : Z := (q - rr) mod n.

Lemma rr_dist_pos n q rr : 0 < n -> 0 <= q < n -> 0 <= rr -> (rr + rr_dist n q rr) mod n = q.
Proof.
  intros. unfold rr_dist. rewrite Z.add_mod_idemp_r by lia.
  replace (rr + (q - rr)) with q by lia. by apply Z.mod_small.
Qed.

Lemma rr_dist_step n q rr j :
  0 < n -> 0 <= q < n -> 0 <= j < rr_dist n q rr ->
  rr_dist n q ((rr + j + 1) mod n) = rr_dist n q rr - j - 1.
Proof.
  intros Hn Hq Hj. unfold rr_dist in *. pose proof (Z.mod_pos_bound (q - rr) n Hn).
  rewrite Zminus_mod_idemp_r.
  replace (q - (rr + j + 1)) with ((q - rr) - (j + 1)) by lia.
  rewrite <- Zminus_mod_idemp_l. rewrite Z.mod_small; lia.
Qed.

(** One pick, seen from a runnable thread at position [q]. *)
Lemma pick_next_dist (s : Scheduler U) id (q : nat) :
  rr_ok s -> prefer_ s = 0 -> keys (threads_ s) !! q = Some id ->
  runnable (threads_ s) id = true ->
  let n := zlen (keys (threads_ s)) in
  exists o s', pick_next s = (Ret o, s') /\ threads_ s' = threads_ s /\ prefer_ s' = 0 /\
    0 <= rr_ s' < n /\
    (o = Some id \/ rr_dist n (Z.of_nat q) (rr_ s') < rr_dist n (Z.of_nat q) (rr_ s)).
Proof.
  intros [Hr Hn] Hp Hq Hrun n. unfold pick_next. rewrite Hp. simpl. unfold round_robin.
  set (ids := keys (threads_ s)) in *.
  pose proof (keys_length (threads_ s)) as Hlen. fold ids in Hlen.
  pose proof (lookup_lt_Some _ _ _ Hq) as Hql.
  assert (ids <> []) as Hne by (intros E; rewrite E in Hq; done).
  assert (0 < n) as Hnpos by (unfold n, zlen; lia).
  pose proof (rr_scan_spec (length ids) ids (rr_ s) 0 (threads_ s)
                ltac:(lia) ltac:(lia) ltac:(lia) Hne) as Hspec.
  set (d := rr_dist n (Z.of_nat q) (rr_ s)) in *.
  assert (0 <= d < n) as Hd by (by apply Z.mod_pos_bound).
  assert (ids !! Z.to_nat ((rr_ s + d) mod zlen ids) = Some id) as Hat.
  { fold n. unfold d. rewrite rr_dist_pos, Nat2Z.id by (unfold n, zlen; lia). done. }
  destruct (rr_scan _ _ _ _ _) as [[id1 j]|].
  - destruct Hspec as (Hj & Hjl & Hjr & Hbefore).
    eexists _, _. split; [done|]. simpl. repeat (split; [done|]). fold n.
    rewrite u64_id by (unfold n, zlen in *; lia). split; [by apply Z.mod_pos_bound|].
    destruct (Z.lt_trichotomy j d) as [Hlt|[->|Hgt]].
    + right. rewrite rr_dist_step by (unfold n, zlen in *; lia). fold d. lia.
    + left. congruence.
    + rewrite (Hbefore d ltac:(lia) id Hat) in Hrun. done.
  - rewrite (Hspec d ltac:(unfold n, zlen in *; lia) id Hat) in Hrun. done.
Qed.

(** A pick with no preference, from a state where some thread is runnable. *)
Lemma pick_next_round (s : Scheduler U) id (q : nat) :
  rr_ok s -> prefer_ s = 0 -> keys (threads_ s) !! q = Some id ->
  runnable (threads_ s) id = true ->
  let n := zlen (keys (threads_ s)) in
  exists id' s', pick_next s = (Ret (Some id'), s') /\ runnable (threads_ s) id' = true /\
    threads_ s' = threads_ s /\ prefer_ s' = 0 /\ rr_ok s' /\
    (id' = id \/ rr_dist n (Z.of_nat q) (rr_ s') < rr_dist n (Z.of_nat q) (rr_ s)).
Proof.
  intros Hok Hp Hq Hrun n.
  destruct (pick_next_dist s id q Hok Hp Hq Hrun) as (o & s2 & E & Ht2 & Hp2 & Hr2 & Ho).
  pose proof E as E'. unfold pick_next in E'. rewrite Hp in E'. simpl in E'.
  destruct (round_robin_spec _ _ _ Hok E') as (o' & [= <-] & _ & _ & Hr').
  destruct o as [id'|]; [|by rewrite (Hr' id) in Hrun].
  exists id', s2. split; [done|]. split; [done|]. split; [done|]. split; [done|]. split.
  - destruct Hok as [_ Hsz]. split; [|by rewrite Ht2].
    unfold zlen in Hr2. rewrite keys_length in Hr2. lia.
  - destruct Ho as [[= ->]|Hlt]; [by left|by right].
Qed.

Definition all_runnable (m : gmap Z Thread) (l : list (option Z)) : Prop :=
  Forall (fun o => exists id, o = Some id /\ runnable m id = true) l.

(** As many picks in a row as the cursor is away from a runnable thread. *)
Lemma pick_n_round (s : Scheduler U) id (q k : nat) :
  rr_ok s -> prefer_ s = 0 -> keys (threads_ s) !! q = Some id ->
  runnable (threads_ s) id = true ->
  exists l s', pick_n k s = (Ret l, s') /\
    (rr_dist (zlen (keys (threads_ s))) (Z.of_nat q) (rr_ s) < Z.of_nat k -> Some id ∈ l) /\
    all_runnable (threads_ s) l /\ prefer_ s' = 0 /\ threads_ s' = threads_ s.
Proof.
  revert s. induction k as [|k IH]; intros s Hok Hp Hq Hrun; cbn [pick_n].
  { pose proof (lookup_lt_Some _ _ _ Hq) as Hql. exists [], s. split; [done|]. split; [|by repeat constructor].
    pose proof (Z.mod_pos_bound (Z.of_nat q - rr_ s) (zlen (keys (threads_ s))) ltac:(unfold zlen; lia)).
    unfold rr_dist. lia. }
  destruct (pick_next_round s id q Hok Hp Hq Hrun) as (id' & s2 & E & Hr & Ht & Hp2 & Hok2 & Ho).
  destruct (IH s2) as (l & s3 & E3 & Hin & Hall & Hp3 & Ht3); [done|done|by rewrite Ht..|].
  rewrite Ht in *. exists (Some id' :: l), s3. split; [|split; [|split]].
  - unfold mbind at 1, M_mbind, M_bind. rewrite E. unfold mbind, M_mbind, M_bind. by rewrite E3.
  - intros Hk. destruct Ho as [->|Hlt]; [by left|]. right. apply Hin. lia.
  - constructor; [by exists id'|done].
  - done.
Qed.

(** A pick that finds a preference: it is used up, whether or not the preferred
    thread can run. *)
Lemma pick_next_prefer (s : Scheduler U) id (q : nat) :
  rr_ok s -> prefer_ s <> 0 -> keys (threads_ s) !! q = Some id ->
  runnable (threads_ s) id = true ->
  exists id' s', pick_next s = (Ret (Some id'), s') /\ runnable (threads_ s) id' = true /\
    threads_ s' = threads_ s /\ prefer_ s' = 0 /\ rr_ok s' /\
    (runnable (threads_ s) (prefer_ s) = true -> id' = prefer_ s).
Proof.
  intros Hok Hp Hq Hrun. set (s1 := with_prefer s 0).
  assert (pick_next s1 = round_robin s1) as E1 by done.
  destruct (pick_next_round s1 id q) as (id' & s2 & E & Hr & Ht & Hp2 & Hok2 & _); [done..|].
  rewrite E1 in E. unfold pick_next, runnable. rewrite (proj2 (Z.eqb_neq _ _) Hp). fold s1.
  destruct (threads_ s !! prefer_ s) as [t|] eqn:El; [destruct (decide (state t = Runnable)) as [Hst|Hst]|].
  - exists (prefer_ s), s1. split; [done|]. split; [|done]. rewrite El. by apply bool_decide_eq_true_2.
  - exists id', s2. split; [done|]. split; [exact Hr|]. split; [done|]. split; [done|]. split; [done|].
    intros Hd%bool_decide_eq_true_1. done.
  - exists id', s2. done.
Qed.

(** C16: the scheduler starves nobody and picks only runnable threads.  Over as
    many consecutive picks as there are threads, and one more when a new
    worker is preferred, every runnable thread comes up, whatever the cursor.
    The preferred worker comes first if it can run, and the preference is
    used up: none is left afterwards. *)
Theorem pick_fair (s : Scheduler U) id :
  rr_ok s -> runnable (threads_ s) id = true ->
  exists l s', pick_n (size (threads_ s) + (if prefer_ s =? 0 then 0 else 1)) s = (Ret l, s') /\
    Some id ∈ l /\ all_runnable (threads_ s) l /\ prefer_ s' = 0 /\ threads_ s' = threads_ s /\
    (if prefer_ s =? 0 then True
     else runnable (threads_ s) (prefer_ s) = true -> head l = Some (Some (prefer_ s))).
Proof.
  intros Hok Hrun.
  assert (exists q, keys (threads_ s) !! q = Some id) as [q Hq].
  { apply list_elem_of_lookup, keys_elem. unfold runnable in Hrun.
    destruct (threads_ s !! id); [eauto|done]. }
  pose proof (lookup_lt_Some _ _ _ Hq) as Hql.
  assert (forall r, rr_dist (zlen (keys (threads_ s))) (Z.of_nat q) r < Z.of_nat (size (threads_ s))) as Hd.
  { intros r. rewrite <- (keys_length (threads_ s)). apply Z.mod_pos_bound. unfold zlen. lia. }
  destruct (Z.eqb_spec (prefer_ s) 0) as [Hp|Hp].
  - destruct (pick_n_round s id q (size (threads_ s)) Hok Hp Hq Hrun) as (l & s' & E & Hin & Hall & Hp' & Ht').
    rewrite Nat.add_0_r. exists l, s'. split; [done|]. split; [by apply Hin, Hd|]. done.
  - rewrite Nat.add_1_r. cbn [pick_n].
    destruct (pick_next_prefer s id q Hok Hp Hq Hrun) as (id' & s1 & E & Hr & Ht & Hp1 & Hok1 & Hpref).
    destruct (pick_n_round s1 id q (size (threads_ s)) Hok1 Hp1) as (l & s' & E' & Hin & Hall & Hp' & Ht');
      [by rewrite Ht..|]. rewrite Ht in *.
    exists (Some id' :: l), s'. split.
    { unfold mbind at 1, M_mbind, M_bind. rewrite E. unfold mbind, M_mbind, M_bind. by rewrite E'. }
    split; [right; by apply Hin, Hd|]. split; [constructor; [by exists id'|done]|]. split; [done|]. split; [done|].
    intros Hpr. cbn. by rewrite Hpref.
Qed.

(** *** Mutexes *)

Definition owned (m o : Z) (s : Scheduler U) : Prop := mutex_owner_ s !! m = Some o.

(** The operations that give up mutex [m]. *)
Definition releases (m : Z) (o : sched_op) : Prop :=
  o = OUnlock m \/ exists c, o = OCondWait c m.

Lemma frames_owned {A} m o (op : M (Scheduler U) A) :
  frames mutex_owner_ op -> preserves (owned m o) op.
Proof. intros Hf s r s' Ho E. unfold owned. by rewrite (Hf _ _ _ E). Qed.

Lemma eng_owned {A} m o (op : M U A) : preserves (owned m o) (eng op).
Proof. by apply frames_owned, mem_do_frames. Qed.
Lemma mem_do_owned {A} m o (op : M (Memory U) A) : preserves (owned m o) (mem_do op).
Proof. by apply frames_owned, mem_do_frames. Qed.
Lemma get_owned m o : preserves (owned m o) get.
Proof. by intros s r s' Ho [= _ <-]. Qed.
Lemma fresh_tid_owned m o : preserves (owned m o) fresh_tid.
Proof. by intros s r s' Ho [= _ <-]. Qed.
Lemma thread_at_owned m o id : preserves (owned m o) (thread_at id).
Proof. intros s r s' Ho. unfold thread_at. by destruct (_ !! _); intros [= _ <-]. Qed.
#[local] Hint Resolve eng_owned mem_do_owned get_owned fresh_tid_owned thread_at_owned
  : preserves.

Ltac owned_step :=
  match goal with
  | |- preserves _ (mbind _ _) => apply preserves_bind; [|intros ?]
  | |- preserves _ (mret _) => apply preserves_ret
  | |- preserves _ skip => apply preserves_ret
  | |- preserves _ (modify _) =>
      apply preserves_modify; unfold owned; intros ? ?; simpl; by rewrite ?lookup_insert_ne
  | |- preserves _ (put_thread _ _) => unfold put_thread
  | |- preserves _ (update_thread _ _) => unfold update_thread
  | |- preserves _ (match ?x with _ => _ end) => destruct x
  | |- preserves _ _ => solve [eauto with preserves]
  end.

Lemma block_here_owned m o : preserves (owned m o) (block_here abi).
Proof. unfold block_here, resume_at_lr, stop_slice. repeat owned_step. Qed.
Lemma park_self_owned m o b obj : preserves (owned m o) (park_self b obj).
Proof. unfold park_self. repeat owned_step. Qed.
#[local] Hint Resolve block_here_owned park_self_owned : preserves.

Lemma mutex_lock_owned m o m' : o <> 0 -> preserves (owned m o) (mutex_lock abi m').
Proof.
  intros Ho s r s' Hs. unfold mutex_lock. rewrite bind_get.
  destruct (decide (m' = m)) as [->|Hne].
  - rewrite Hs. simpl. destruct (Z.eqb_spec o 0); [done|].
    enough (preserves (owned m o) (_ ← park_self Mutex m; block_here abi)) as Hp
      by exact (Hp s r s' Hs).
    repeat owned_step.
  - revert Hs. destruct (_ =? 0).
    + enough (preserves (owned m o)
        (_ ← modify (fun s => with_owner s (<[m' := cur_ s]> (mutex_owner_ s)));
         eng (write_reg abi Ret0 0))) as Hp by (intros Hs E; by eapply Hp).
      repeat owned_step.
    + enough (preserves (owned m o) (_ ← park_self Mutex m'; block_here abi)) as Hp
        by (intros Hs E; by eapply Hp).
      repeat owned_step.
Qed.

Lemma mutex_unlock_owned m o m' : m' <> m -> preserves (owned m o) (mutex_unlock m').
Proof. intros Hne. unfold mutex_unlock. repeat owned_step. Qed.
#[local] Hint Resolve mutex_lock_owned mutex_unlock_owned : preserves.

Lemma exec_sched_op_owned m o op :
  o <> 0 -> ~ releases m op -> preserves (owned m o) (exec_sched_op op).
Proof.
  intros Ho Hr. destruct op; simpl;
    unfold spawn, spawn_clone, thread_exit, do_join, do_yield, cond_wait, cond_wake,
      set_hybrid, set_slice_us, resume_at_lr, stop_slice, e_stop;
    try (solve [repeat owned_step]).
  - apply mutex_unlock_owned. intros ->. apply Hr. by left.
  - owned_step; [|repeat owned_step]. apply mutex_unlock_owned.
    intros ->. apply Hr. right. by eexists.
Qed.

(** C29: a mutex held by a worker excludes every other thread: through any
    sequence of guest steps none of which releases [m] the owner stays, and
    at any point a further lock attempt, by any thread, leaves the owner and,
    when it returns, has blocked the caller on [m] and ended its slice. *)
Theorem mutex_exclusion m o (s s' : Scheduler U) :
  owned m o s -> o <> 0 -> star (gstep (fun op => ~ releases m op)) s s' ->
  owned m o s' /\
  forall r s2, mutex_lock abi m s' = (r, s2) ->
    owned m o s2 /\
    (r = Ret tt -> stop_ s2 = SBlock /\ stopping s2 = true /\
       exists t, threads_ s2 !! cur_ s' = Some t /\ blocked_on Mutex m t = true).
Proof.
  intros Hs Ho Hstar.
  assert (owned m o s') as Hs'.
  { refine (star_invariant _ _ _ _ _ Hs Hstar). intros s1 s2 H1 Hg.
    destruct Hg as [s1 mm|op r s1 s2 Hal _ E]; [done|].
    by eapply exec_sched_op_owned. }
  split; [done|]. intros r s2 E. split; [by eapply mutex_lock_owned|].
  intros ->. unfold mutex_lock in E. rewrite bind_get, Hs' in E. simpl in E.
  destruct (Z.eqb_spec o 0); [done|].
  apply bind_ret_inv in E as ([] & s3 & E1 & E).
  unfold park_self in E1. rewrite bind_get in E1.
  apply bind_ret_inv in E1 as (t & s4 & E1 & E2). unfold thread_at in E1.
  destruct (threads_ s' !! cur_ s') as [t0|] eqn:Et; [|done].
  injection E1 as -> <-. injection E2 as <-.
  unfold block_here, resume_at_lr in E.
  apply bind_ret_inv in E as (y & s5 & (m1 & ->)%mem_do_run & E).
  apply bind_ret_inv in E as (z & s6 & E6 & E).
  apply bind_ret_inv in E6 as (lr & s7 & (m2 & ->)%mem_do_run & (m3 & ->)%mem_do_run).
  injection E as <-. simpl. split; [done|]. split; [done|].
  rewrite lookup_insert_eq. eexists. split; [done|].
  unfold blocked_on. simpl. by rewrite Z.eqb_refl.
Qed.

(** The first waiter in key order is the least one. *)
Lemma find_sorted_least (p : Z -> bool) l w :
  StronglySorted Z.le l -> List.find p l = Some w ->
  w ∈ l /\ p w = true /\ forall x, x ∈ l -> p x = true -> w <= x.
Proof.
  induction 1 as [|y l Hs IH Hy]; simpl; [done|]. destruct (p y) eqn:Ep.
  - intros [= ->]. split; [by left|]. split; [done|].
    intros x [->|Hx]%elem_of_cons _; [lia|]. rewrite Forall_forall in Hy. by apply Hy.
  - intros (Hin & Hpw & Hleast)%IH. split; [by right|]. split; [done|].
    intros x [->|Hx]%elem_of_cons Hpx; [congruence|by apply Hleast].
Qed.

(** [mutex_unlock] hands over: with no waiter the mutex becomes free and
    no thread changes; otherwise the waiter with the least id becomes the
    owner and runnable, and nobody else changes. *)
Lemma unlock_hands_off m (s : Scheduler U) :
  joins_ok s ->
  exists s', mutex_unlock m s = (Ret tt, s') /\
    (((forall id t, threads_ s !! id = Some t -> blocked_on Mutex m t = false) /\
      threads_ s' = threads_ s /\ owned m 0 s') \/
     exists w t, threads_ s !! w = Some t /\ blocked_on Mutex m t = true /\
       (forall id t', threads_ s !! id = Some t' -> blocked_on Mutex m t' = true -> w <= id) /\
       owned m w s' /\ threads_ s' = <[w := wake t]> (threads_ s)).
Proof.
  intros HJ. unfold mutex_unlock. rewrite bind_modify, bind_get. simpl.
  set (p := fun id => match threads_ s !! id with
                      | Some t => blocked_on Mutex m t | None => false end).
  change (first_waiter Mutex m (threads_ s)) with (List.find p (keys (threads_ s))).
  destruct (List.find p (keys (threads_ s))) as [w|] eqn:E.
  - apply find_sorted_least in E as (_ & Hp & Hleast); [|apply keys_sorted].
    unfold p in Hp. destruct (threads_ s !! w) as [t|] eqn:Ew; [|done].
    destruct (map_Forall_lookup_1 _ _ _ _ HJ Ew) as [Hid _].
    unfold mbind, M_mbind, M_bind, thread_at. cbn [threads_ with_owner]. rewrite Ew.
    eexists. split; [done|]. right. exists w, t. repeat (split; [done|]). split.
    { intros id t' Hl Hb. apply Hleast; [apply keys_elem; eauto|]. unfold p. by rewrite Hl. }
    split; [|done]. unfold owned. simpl. by rewrite lookup_insert_eq, Hid.
  - eexists. split; [done|]. left. split; [|split; [done|]].
    + intros id t Hl. pose proof (List.find_none _ _ E id) as Hn.
      unfold p in Hn. rewrite Hl in Hn. apply Hn, list_elem_of_In, keys_elem. eauto.
    + unfold owned. simpl. by rewrite lookup_insert_eq.
Qed.

(** *** Context switches *)

Lemma write_regs_read rs vs (u u' : U) x :
  NoDup rs -> length rs = length vs -> write_regs rs vs u = (Ret x, u') ->
  (forall i r v w, rs !! i = Some r -> vs !! i = Some v -> reg_width r = Some w ->
     uc_reg_read u' r = v mod 2 ^ w) /\
  (forall r, r ∉ rs -> uc_reg_read u' r = uc_reg_read u r).
Proof.
  revert vs u. induction rs as [|r rs IH]; intros [|v vs] u Hnd Hlen; try done.
  { intros [= _ <-]. split; [by intros [|i]|done]. }
  apply NoDup_cons in Hnd as [Hr Hnd]. injection Hlen as Hlen. cbn [write_regs].
  intros ([] & u1 & [= <-] & E)%bind_ret_inv.
  destruct (IH vs _ Hnd Hlen E) as [Hin Hout]. split.
  - intros [|i] r1 v1 w; simpl; [|by apply Hin].
    intros [= <-] [= <-] Hw. rewrite Hout by done. by apply law_reg_same.
  - intros r1 [Hne Hn]%not_elem_of_cons. rewrite Hout by done. by apply law_reg_other.
Qed.

Lemma write_regs_total rs vs (u : U) : exists u', write_regs rs vs u = (Ret tt, u').
Proof.
  revert vs u. induction rs as [|r rs IH]; intros [|v vs] u; try by eexists.
  cbn [write_regs]. destruct (IH vs (uc_reg_write u r v)) as [u' E]. by exists u'.
Qed.

(** The registers a context carries and restores in full. *)
Definition ctx_regs : list ucreg :=
  kXReg ++ [A64_SP; A64_TPIDR_EL0] ++ (if kNoVregs then [] else kVReg).

(** The general registers after [load_ctx] has written them over [ua]. *)
Lemma core_regs_restored (u1 u2 ua : U) :
  (forall r w, r ∈ kXReg ++ [A64_SP; A64_TPIDR_EL0] -> reg_width r = Some w ->
     0 <= uc_reg_read u1 r < 2 ^ w) ->
  write_regs kXReg (uc_reg_read u1 <$> kXReg) u2 = (Ret tt, ua) ->
  let ub := uc_reg_write (uc_reg_write (uc_reg_write ua A64_SP (uc_reg_read u1 A64_SP))
              A64_NZCV (uc_reg_read u1 A64_NZCV)) A64_TPIDR_EL0 (uc_reg_read u1 A64_TPIDR_EL0) in
  forall r, r ∈ kXReg ++ [A64_SP; A64_TPIDR_EL0] -> uc_reg_read ub r = uc_reg_read u1 r.
Proof.
  intros Hrange Ea ub r Hr.
  assert (NoDup kXReg) as Hxn by (apply NoDup_fmap; [by intros ?? [=]|apply NoDup_seq]).
  destruct (write_regs_read kXReg (uc_reg_read u1 <$> kXReg) u2 ua tt Hxn) as [Hx _];
    [by rewrite length_fmap|done|].
  assert (exists w, reg_width r = Some w) as [w Hw].
  { apply elem_of_app in Hr as [(n & -> & _)%list_elem_of_fmap|Hr]; [by eexists|].
    apply elem_of_cons in Hr as [->|Hr]; [by eexists|].
    apply list_elem_of_singleton in Hr as ->. by eexists. }
  pose proof (Hrange r w Hr Hw) as Hrg. unfold ub. apply elem_of_app in Hr as [Hr|Hr].
  - assert (r <> A64_SP /\ r <> A64_NZCV /\ r <> A64_TPIDR_EL0) as (?&?&?)
      by (apply list_elem_of_fmap in Hr as (n & -> & _); done).
    rewrite !law_reg_other by done. apply list_elem_of_lookup in Hr as [i Hi].
    rewrite (Hx i r (uc_reg_read u1 r) w); [by apply Z.mod_small|done| |done].
    by rewrite list_lookup_fmap, Hi.
  - apply elem_of_cons in Hr as [->|Hr%list_elem_of_singleton]; [|subst r].
    + rewrite !law_reg_other by done. rewrite (law_reg_same _ _ _ _ Hw). by apply Z.mod_small.
    + rewrite (law_reg_same _ _ _ _ Hw). by apply Z.mod_small.
Qed.

(** A thread resumes with the registers it was stopped with: saving the
    context in one emulator state and loading it in any other makes every
    X register, SP, TPIDR_EL0 and (unless VARDOGER_NO_VREGS) every V register
    read as it did when it was saved, and the slice restarts at the saved
    PC. *)
Lemma switch_roundtrip (u1 u2 : U) t :
  (forall r w, r ∈ ctx_regs -> reg_width r = Some w -> 0 <= uc_reg_read u1 r < 2 ^ w) ->
  exists u3, load_ctx kNoVregs (save_ctx kNoVregs u1 t) u2 = (Ret tt, u3) /\
    (forall r, r ∈ ctx_regs -> uc_reg_read u3 r = uc_reg_read u1 r) /\
    c_pc (ctx (save_ctx kNoVregs u1 t)) = uc_reg_read u1 A64_PC.
Proof.
  intros Hrange. unfold load_ctx, save_ctx, set_ctx. cbn [ctx c_x c_sp c_nzcv c_tpidr c_v c_pc].
  set (xs := uc_reg_read u1 <$> kXReg).
  destruct (write_regs_total kXReg xs u2) as [ua Ea].
  assert (NoDup kVReg) as Hvn by (apply NoDup_fmap; [by intros ?? [=]|apply NoDup_seq]).
  set (ub := uc_reg_write (uc_reg_write (uc_reg_write ua A64_SP (uc_reg_read u1 A64_SP))
               A64_NZCV (uc_reg_read u1 A64_NZCV)) A64_TPIDR_EL0 (uc_reg_read u1 A64_TPIDR_EL0)).
  assert (forall r, r ∈ kXReg ++ [A64_SP; A64_TPIDR_EL0] ->
            uc_reg_read ub r = uc_reg_read u1 r) as Hb.
  { apply (core_regs_restored u1 u2 ua); [|done]. intros r w Hr. apply Hrange. unfold ctx_regs.
    rewrite app_assoc. apply elem_of_app. by left. }
  unfold mbind, M_mbind, M_bind. rewrite Ea. cbn. fold ub.
  unfold ctx_regs in *. destruct kNoVregs.
  { eexists. split; [done|]. split; [|done]. intros r.
    change (if true then [] else kVReg) with (@nil ucreg). rewrite ?app_nil_r. apply Hb. }
  change (if false then [] else kVReg) with kVReg in *.
  destruct (write_regs_total kVReg (uc_reg_read u1 <$> kVReg) ub) as [uc Ec].
  destruct (write_regs_read kVReg (uc_reg_read u1 <$> kVReg) ub uc tt Hvn) as [Hv Hvo];
    [by rewrite length_fmap|done|].
  exists uc. split; [done|]. split; [|done]. intros r Hr.
  change (r ∈ kXReg ++ [A64_SP; A64_TPIDR_EL0] ++ kVReg) in Hr.
  rewrite app_assoc in Hr. apply elem_of_app in Hr as [Hr|Hr].
  - rewrite Hvo; [by apply Hb|]. intros (n & -> & _)%list_elem_of_fmap.
    apply elem_of_app in Hr as [(k & [=] & _)%list_elem_of_fmap|Hr].
    apply elem_of_cons in Hr as [[=]|[=]%list_elem_of_singleton].
  - assert (Hr' := Hr). apply list_elem_of_lookup in Hr' as [i Hi].
    assert (reg_width r = Some 128) as Hw
      by (apply list_elem_of_fmap in Hr as (n & -> & _); done).
    rewrite (Hv i r (uc_reg_read u1 r) 128); [|done| |done].
    + apply Z.mod_small, Hrange; [|done]. rewrite !elem_of_app. auto.
    + by rewrite list_lookup_fmap, Hi.
Qed.
End SchedulerFacts.

(** ** Instances on the reference emulator *)

Definition demo_sched0 : Scheduler RefUc :=
  mkScheduler demo_mem0 ∅ ∅ 0 1 0 0 30000000 true false SNone false.

(** Main creates a worker, then joins it; the worker only yields. *)
Definition demo_engine (pc until us n : Z) : M (Scheduler RefUc) unit := fun s =>
  if stopping s then (Ret tt, s) else
  exec_sched_op Arm64 false
    (if negb (cur_ s =? 0) then OYield
     else if next_tid_ s =? 1 then OSpawn 0 0x4000 7 else OJoin 1 0) s.

Lemma demo_engine_steps pc until us n s r s' :
  demo_engine pc until us n s = (r, s') ->
  star (gstep Arm64 false (fun _ => True)) s s'.
Proof.
  unfold demo_engine. destruct (stopping s) eqn:Es; [intros [= _ <-]; constructor|].
  intros E. apply star_one. by eapply g_op.
Qed.

Definition demo_init : Scheduler RefUc := run_init false 0x1000 [] demo_sched0.
Definition demo_next (s : Scheduler RefUc) : Scheduler RefUc :=
  snd (loop_body false 0 0 false demo_engine 0 s).

Lemma demo_step (s : Scheduler RefUc) :
  fst (loop_body false 0 0 false demo_engine 0 s) = Ret (inl 0) ->
  loop_step false 0 0 false demo_engine (0, s) (0, demo_next s).
Proof.
  intros E. unfold loop_step, demo_next. cbn [fst snd]. rewrite <- E. apply surjective_pairing.
Qed.

(** Three turns: main spawns, the worker yields, main blocks in its join. *)
Lemma joins_never_lost_witness :
  joins_ok (demo_next (demo_next (demo_next demo_init))) /\
  (exists t, threads_ (demo_next (demo_next (demo_next demo_init))) !! 0 = Some t /\
             blocked_on Join 1 t = true).
Proof.
  split; [|eexists; split; [vm_compute; reflexivity|vm_compute; reflexivity]].
  apply (joins_never_lost Arm64 false 0 0 false demo_engine (fun _ => True)
           demo_engine_steps 0x1000 [] demo_sched0 _ 0).
  do 3 (eapply star_step; [apply demo_step; vm_compute; reflexivity|]).
  constructor.
Defined.

(** Two worker threads and a mutex at 0x9000 held by worker 1. *)
Definition demo_locked : Scheduler RefUc :=
  with_owner (with_cur (with_threads demo_sched0
    {[1 := new_thread 1; 2 := new_thread 2]}) 2) {[0x9000 := 1]}.

Lemma mutex_exclusion_witness :
  owned 0x9000 1 demo_locked /\
    forall r s2, mutex_lock Arm64 0x9000 demo_locked = (r, s2) ->
    owned 0x9000 1 s2 /\
    (r = Ret tt -> stop_ s2 = SBlock /\ stopping s2 = true /\
    exists t, threads_ s2 !! 2 = Some t /\ blocked_on Mutex 0x9000 t = true).
Proof.
  apply (mutex_exclusion Arm64 false 0x9000 1 demo_locked demo_locked);
    [vm_compute; reflexivity|lia|constructor].
Defined.

(** Worker 2 was spawned last. *)
Definition demo_preferred : Scheduler RefUc := with_prefer demo_locked 2.

Lemma pick_fair_witness :
  exists l s', pick_n (size (threads_ demo_preferred) + 1) demo_preferred = (Ret l, s') /\
    Some 1 ∈ l /\ all_runnable (threads_ demo_preferred) l /\ prefer_ s' = 0 /\
    threads_ s' = threads_ demo_preferred /\
    (runnable (threads_ demo_preferred) 2 = true -> head l = Some (Some 2)).
Proof.
  apply (pick_fair demo_preferred 1); [|vm_compute; reflexivity].
  split; [simpl; lia|vm_compute; reflexivity].
Defined.

(** Worker 2 waits for the mutex that worker 1 unlocks. *)
Definition demo_contended : Scheduler RefUc :=
  with_threads demo_locked {[1 := new_thread 1; 2 := park Mutex 0x9000 0 (new_thread 2)]}.

Lemma unlock_hands_off_witness :
  exists s', mutex_unlock 0x9000 demo_contended = (Ret tt, s') /\
    (((forall id t, threads_ demo_contended !! id = Some t ->
         blocked_on Mutex 0x9000 t = false) /\
    threads_ s' = threads_ demo_contended /\ owned 0x9000 0 s') \/
     exists w t, threads_ demo_contended !! w = Some t /\ blocked_on Mutex 0x9000 t = true /\
    (forall id t', threads_ demo_contended !! id = Some t' ->
          blocked_on Mutex 0x9000 t' = true -> w <= id) /\
    owned 0x9000 w s' /\ threads_ s' = <[w := wake t]> (threads_ demo_contended)).
Proof.
  apply (unlock_hands_off 0x9000 demo_contended). apply map_Forall_lookup.
  intros id t Hl. simpl in Hl. apply lookup_insert_Some in Hl as [[<- <-]|[_ Hl]].
  - split; [done|]. by intros.
  - apply lookup_singleton_Some in Hl as [<- <-]. split; [done|]. by intros _ [=].
Defined.

Lemma switch_roundtrip_witness :
  exists u3, load_ctx false (save_ctx false demo_uc (new_thread 3)) ru_init = (Ret tt, u3) /\
    (forall r, r ∈ ctx_regs false -> uc_reg_read u3 r = uc_reg_read demo_uc r) /\
    c_pc (ctx (save_ctx false demo_uc (new_thread 3))) = uc_reg_read demo_uc A64_PC.
Proof.
  apply (switch_roundtrip false demo_uc ru_init (new_thread 3)).
  intros r w _ Hw. destruct (decide (r = A64_SP)) as [->|Hne].
  - injection Hw as <-. by vm_compute.
  - assert (uc_reg_read demo_uc r = 0) as ->.
    { cbn [uc_reg_read RefUc_ops demo_uc ru_reg_write ru_regs]. by rewrite decide_False. }
    split; [done|]. destruct r; simplify_eq/=; done.
Defined.

(** The owner 0 means both "free" and "held by the main thread": a mutex
    locked by main is taken over by the next worker that locks it, and
    neither blocks. *)
Definition demo_two : Scheduler RefUc :=
  with_threads demo_sched0 {[0 := new_thread 0; 1 := new_thread 1]}.
Definition demo_main_locks : Scheduler RefUc := snd (mutex_lock Arm64 0x9000 demo_two).

Lemma main_mutex_not_exclusive :
  owned 0x9000 0 demo_main_locks /\
    let s := snd (mutex_lock Arm64 0x9000 (with_cur demo_main_locks 1)) in
  owned 0x9000 1 s /\ stop_ s = SNone.
Proof. vm_compute. done. Qed.

(** A deadlock escapes [run] with [running_] still set. *)
Lemma deadlock_leaves_running :
  let s := with_threads demo_init {[0 := park Mutex 0x9000 0 (new_thread 0)]} in
  let r := loop false 0 0 false demo_engine 5 0 s in
  is_ret (fst r) = false /\ active (snd r) = true.
Proof. vm_compute. done. Qed.
