(* ===== verification/Trampoline.v ===== *)
(** Host stubs reachable from the guest: [core/engine/trampoline.cpp],
    [include/vardoger/engine/trampoline.hpp].

    A stub is 8 bytes on a reserved page: a trap instruction and a return.
    When the trap fires, [dispatch] maps the PC back to the handler.  The body
    of a handler is a [std::function], opaque here: it is a parameter that
    may do anything to the emulator and may allocate more stubs. *)

From S2P Require Import Prelude.
From S2P Require Import Words.
From S2P Require Import Abi.
From S2P Require Import Unicorn.
From S2P Require Import Engine.
From S2P Require Import Memory.

Definition kStubSize : Z := 8.
Definition kA64_SVC0 : Z := 0xD4000001.
Definition kA64_RET : Z := 0xD65F03C0.
Definition kA32_SVC0 : Z := 0xEF000000.
Definition kA32_BXLR : Z := 0xE12FFF1E.
Definition kX86_STUB : list Z := [0xCD; 0x80; 0xC3].

Section Trampoline.
Context {U : Type} `{UcOps U}.
(** [std::function<void(Engine&)>] *)
Context {Handler : Type}.
Variable abi : Abi.

Record Trampoline := mkTrampoline {
  tr_uc : U;
  base_ : Z;
  next_ : Z;
  handlers_ : list (string * Handler);
}.

(** A handler called on the engine; it may re-enter [alloc]. *)
Variable invoke : Handler -> M Trampoline unit.

Definition tr_do {A} (op : M U A) : M Trampoline A := fun t =>
  let '(r, u) := op (tr_uc t) in (r, mkTrampoline u (base_ t) (next_ t) (handlers_ t)).

(** The constructor reserves the page. *)
Definition reserve_page : M (Memory U) Z :=
  map_fixed kTrampolineBase kTrampolineSize (Z.lor UC_PROT_READ UC_PROT_EXEC)
            KTrampoline "trampoline".
Definition init_trampoline (u : U) : Trampoline :=
  mkTrampoline u kTrampolineBase kTrampolineBase [].

(** The instructions of a stub at [addr]. *)
Definition write_stub (addr : Z) : M U unit :=
  match abi with
  | Arm64 => _ ← write_t 4 addr kA64_SVC0; write_t 4 (addr + 4) kA64_RET
  | Arm32 => _ ← write_t 4 addr kA32_SVC0; write_t 4 (addr + 4) kA32_BXLR
  | _ => e_write addr kX86_STUB
  end.

Definition alloc (name : string) (h : Handler) : M Trampoline Z :=
  t ← get;
  if base_ t + kTrampolineSize <? u64 (next_ t + kStubSize)
  then throw "trampoline page exhausted" else
  let addr := next_ t in
  _ ← modify (fun t => mkTrampoline (tr_uc t) (base_ t) (u64 (addr + kStubSize)) (handlers_ t));
  _ ← tr_do (write_stub addr);
  _ ← modify (fun t => mkTrampoline (tr_uc t) (base_ t) (next_ t) (handlers_ t ++ [(name, h)]));
  mret addr.

Definition contains (t : Trampoline) (addr : Z) : bool :=
  (base_ t <=? addr) && (addr <? base_ t + kTrampolineSize).

Definition dispatch : M Trampoline bool :=
  pc ← tr_do (read_reg abi Pc);
  t ← get;
  if negb (contains t pc) then mret false else
  let idx := (pc - base_ t) / kStubSize in
  match handlers_ t !! Z.to_nat idx with
  | Some (_, h) => _ ← invoke h; mret true
  | None => throw "trampoline dispatch: PC not on a known stub"
  end.

Definition count (t : Trampoline) : Z := zlen (handlers_ t).

Definition name_at (t : Trampoline) (addr : Z) : string :=
  if negb (contains t addr) then "" else
  match handlers_ t !! Z.to_nat ((addr - base_ t) / 8) with
  | Some (n, _) => n
  | None => ""
  end.
End Trampoline.

#[global] Arguments Trampoline U Handler : clear implicits.

(** ** Stubs and handlers stay in step *)

Section TrampolineFacts.
Context {U : Type} `{UcLaws U} {Handler : Type}.
Variable abi : Abi.
Variable invoke : Handler -> M (Trampoline U Handler) unit.

(** The stub area is mapped, the cursor counts the handlers, and they fit. *)
Record tramp_ok (t : Trampoline U Handler) : Prop := {
  to_base : base_ t = kTrampolineBase;
  to_next : next_ t = kTrampolineBase + 8 * zlen (handlers_ t);
  to_fits : 8 * zlen (handlers_ t) <= kTrampolineSize;
  to_mapped : forall x, kTrampolineBase <= x < kTrampolineBase + kTrampolineSize ->
                        uc_mapped (tr_uc t) x = true;
}.

Lemma e_write_run a l (u : U) :
  (forall x, a <= x < a + zlen l -> uc_mapped u x = true) ->
  exists u', e_write a l u = (Ret tt, u') /\ uc_mem_write u a l = Some u' /\
             forall x, uc_mapped u' x = uc_mapped u x.
Proof.
  intros Hm. destruct (law_write_ok u a l Hm) as [u' Eu]. exists u'.
  unfold e_write, check. rewrite Eu. split; [done|]. split; [done|].
  intros x. by eapply law_write_mapped.
Qed.

(** What the guest finds at a stub of each ABI. *)
Definition stub_bytes : list Z :=
  match abi with
  | Arm64 => le_bytes 4 kA64_SVC0 ++ le_bytes 4 kA64_RET
  | Arm32 => le_bytes 4 kA32_SVC0 ++ le_bytes 4 kA32_BXLR
  | _ => kX86_STUB
  end.

(** [n] consecutive bytes read as [l]. *)
Definition reads (u : U) (a : Z) (l : list Z) : Prop := uc_mem_read u a (zlen l) = Some l.

(** A stub is read back as the instruction words written. *)
Definition stub_at (u : U) (a : Z) : Prop :=
  match abi with
  | Arm64 => reads u a (le_bytes 4 kA64_SVC0) /\ reads u (a + 4) (le_bytes 4 kA64_RET)
  | Arm32 => reads u a (le_bytes 4 kA32_SVC0) /\ reads u (a + 4) (le_bytes 4 kA32_BXLR)
  | _ => reads u a kX86_STUB
  end.

Lemma two_words (u : U) a v w :
  (forall x, a <= x < a + 8 -> uc_mapped u x = true) ->
  exists u', (_ ← write_t 4 a v; write_t 4 (a + 4) w) u = (Ret tt, u') /\
    reads u' a (le_bytes 4 v) /\ reads u' (a + 4) (le_bytes 4 w) /\
    (forall x, uc_mapped u' x = uc_mapped u x) /\
    (forall b n, b + n <= a \/ a + 8 <= b -> uc_mem_read u' b n = uc_mem_read u b n).
Proof.
  intros Hm. assert (forall k, zlen (le_bytes 4 k) = 4) as Hz
    by (intros; unfold zlen; by rewrite length_le_bytes).
  destruct (e_write_run a (le_bytes 4 v) u) as (u1 & E1 & W1 & M1).
  { intros x Hx. rewrite Hz in Hx. apply Hm. lia. }
  destruct (e_write_run (a + 4) (le_bytes 4 w) u1) as (u2 & E2 & W2 & M2).
  { intros x Hx. rewrite Hz in Hx. rewrite M1. apply Hm. lia. }
  exists u2. split.
  { unfold mbind, M_mbind, M_bind. unfold write_t at 1. by rewrite E1. }
  unfold reads. split; [|split; [|split]].
  - rewrite (law_read_write_ne _ _ _ _ _ _ W2) by (rewrite Hz; lia).
    by apply (law_read_write u a _ _ (le_bytes_ok _ _)).
  - by apply (law_read_write u1 (a + 4) _ _ (le_bytes_ok _ _)).
  - intros x. by rewrite M2, M1.
  - intros b n Hd. rewrite (law_read_write_ne _ _ _ _ _ _ W2) by (rewrite Hz; lia).
    apply (law_read_write_ne _ _ _ _ _ _ W1). rewrite Hz. lia.
Qed.

Lemma int80_stub (u : U) a :
  (forall x, a <= x < a + 8 -> uc_mapped u x = true) ->
  exists u', e_write a kX86_STUB u = (Ret tt, u') /\ reads u' a kX86_STUB /\
    (forall x, uc_mapped u' x = uc_mapped u x) /\
    (forall b n, b + n <= a \/ a + 8 <= b -> uc_mem_read u' b n = uc_mem_read u b n).
Proof.
  intros Hm. assert (zlen kX86_STUB = 3) as Hz by done.
  destruct (e_write_run a kX86_STUB u) as (u' & E & W & M).
  { intros x Hx. apply Hm. lia. }
  exists u'. split; [done|]. split.
  { apply (law_read_write u a kX86_STUB u'); [by repeat constructor|done]. }
  split; [done|]. intros b n Hd. apply (law_read_write_ne _ _ _ _ _ _ W). lia.
Qed.

Lemma write_stub_run (u : U) a :
  (forall x, a <= x < a + 8 -> uc_mapped u x = true) ->
  exists u', write_stub abi a u = (Ret tt, u') /\ stub_at u' a /\
    (forall x, uc_mapped u' x = uc_mapped u x) /\
    (forall b n, b + n <= a \/ a + 8 <= b -> uc_mem_read u' b n = uc_mem_read u b n).
Proof.
  intros Hm. unfold write_stub, stub_at.
  destruct abi.
  - destruct (two_words u a kA64_SVC0 kA64_RET Hm) as (u' & E & R1 & R2 & M & N).
    by exists u'.
  - destruct (two_words u a kA32_SVC0 kA32_BXLR Hm) as (u' & E & R1 & R2 & M & N).
    by exists u'.
  - apply int80_stub, Hm.
  - apply int80_stub, Hm.
Qed.

(** [alloc] keeps stubs and handlers in step.  On a full page it throws
    and changes nothing; otherwise it returns the next slot, whose bytes are
    then the trap and return instructions of the ABI, leaves every byte
    outside the slot as it was, and appends the handler under the index that
    [dispatch] computes for that slot. *)
Lemma alloc_spec (t : Trampoline U Handler) name h :
  tramp_ok t ->
  if decide (zlen (handlers_ t) < kTrampolineSize / 8)
  then exists t', alloc abi name h t = (Ret (kTrampolineBase + 8 * zlen (handlers_ t)), t') /\
         tramp_ok t' /\ handlers_ t' = handlers_ t ++ [(name, h)] /\
         stub_at (tr_uc t') (kTrampolineBase + 8 * zlen (handlers_ t)) /\
         (forall b n, b + n <= kTrampolineBase + 8 * zlen (handlers_ t) \/
                      kTrampolineBase + 8 * zlen (handlers_ t) + 8 <= b ->
            uc_mem_read (tr_uc t') b n = uc_mem_read (tr_uc t) b n) /\
         (forall x, uc_mapped (tr_uc t') x = uc_mapped (tr_uc t) x)
  else alloc abi name h t = (Throw "trampoline page exhausted", t).
Proof.
  intros [Hb Hn Hf Hm]. unfold alloc. rewrite bind_get, Hb, Hn. unfold kStubSize.
  pose proof (zlen_nonneg (handlers_ t)) as Hz.
  set (a := kTrampolineBase + 8 * zlen (handlers_ t)) in *.
  assert (kTrampolineSize / 8 = 8192) as -> by done.
  assert (kTrampolineBase <= a <= kTrampolineBase + kTrampolineSize) as Ha by (unfold a; lia).
  unfold kTrampolineBase, kTrampolineSize in *.
  rewrite (u64_id (a + 8)) by lia.
  destruct (decide _) as [Hlt|Hge]; destruct (Z.ltb_spec (0x20000000 + 0x10000) (a + 8)); try lia.
  2: done.
  rewrite bind_modify. destruct (write_stub_run (tr_uc t) a) as (u' & E & Hs & HM & HN).
  { intros x Hx. apply Hm. lia. }
  unfold mbind at 1, M_mbind, M_bind. unfold tr_do at 1. cbn [tr_uc base_ next_ handlers_].
  rewrite E. eexists. split; [done|]. cbn [tr_uc base_ next_ handlers_].
  assert (zlen (handlers_ t ++ [(name, h)]) = zlen (handlers_ t) + 1) as Hlen.
  { unfold zlen. rewrite length_app. simpl. lia. }
  split; [|by split].
  split; cbn [tr_uc base_ next_ handlers_].
  - done.
  - rewrite Hlen. unfold a, kTrampolineBase. lia.
  - rewrite Hlen. unfold kTrampolineSize. unfold a in *. lia.
  - intros x Hx. rewrite HM. by apply Hm.
Qed.

Lemma dispatch_eq (t : Trampoline U Handler) pc :
  fst (read_reg abi Pc (tr_uc t)) = Ret pc ->
  dispatch abi invoke t =
  if negb (contains t pc) then (Ret false, t) else
  match handlers_ t !! Z.to_nat ((pc - base_ t) / kStubSize) with
  | Some (_, h) => (_ ← invoke h; mret true) t
  | None => (Throw "trampoline dispatch: PC not on a known stub", t)
  end.
Proof.
  intros Hpc.
  assert (tr_do (read_reg abi Pc) t = (Ret pc, t)) as E.
  { unfold tr_do. destruct (read_reg abi Pc (tr_uc t)) as [r u] eqn:Er. simpl in Hpc. subst r.
    unfold read_reg, read_uc_reg in Er. destruct (reg_id abi Pc); [|done|done].
    injection Er as _ <-. by destruct t. }
  unfold dispatch. rewrite (bind_run _ _ _ _ _ E), bind_get.
  destruct (negb _); [done|]. by destruct (handlers_ t !! _) as [[n h]|].
Qed.

(** [dispatch] runs the handler of the slot the PC is in, wherever in the
    slot it stopped; it leaves a PC outside the page to the syscall layer
    and throws on a slot that was never handed out. *)
Lemma dispatch_spec (t : Trampoline U Handler) pc :
  tramp_ok t -> fst (read_reg abi Pc (tr_uc t)) = Ret pc ->
  if decide (kTrampolineBase <= pc < kTrampolineBase + kTrampolineSize)
  then if decide (pc < next_ t)
       then exists i n h, handlers_ t !! i = Some (n, h) /\
              kTrampolineBase + 8 * Z.of_nat i <= pc < kTrampolineBase + 8 * Z.of_nat i + 8 /\
              dispatch abi invoke t = (_ ← invoke h; mret true) t /\ name_at t pc = n
       else dispatch abi invoke t =
              (Throw "trampoline dispatch: PC not on a known stub", t) /\ name_at t pc = ""
  else dispatch abi invoke t = (Ret false, t) /\ name_at t pc = "".
Proof.
  intros [Hb Hn Hf Hm] Hpc.
  rewrite (dispatch_eq t pc Hpc). unfold name_at, contains. rewrite Hb. unfold kStubSize.
  unfold kTrampolineBase, kTrampolineSize in *.
  case_decide as Hin.
  2: { assert ((0x20000000 <=? pc) && (pc <? 0x20000000 + 0x10000) = false) as ->; [|done].
       apply andb_false_iff. rewrite Z.leb_gt, Z.ltb_ge. lia. }
  rewrite (proj2 (Z.leb_le _ _)), (proj2 (Z.ltb_lt _ _)) by lia. cbn [negb andb].
  pose proof (Z.div_mod (pc - 0x20000000) 8 ltac:(lia)) as Hdm.
  pose proof (Z.mod_pos_bound (pc - 0x20000000) 8 ltac:(lia)) as Hmb.
  set (q := (pc - 0x20000000) / 8) in *. unfold zlen in *.
  case_decide as Hlt.
  - destruct (lookup_lt_is_Some_2 (handlers_ t) (Z.to_nat q)) as [[n h] Hh]; [lia|].
    exists (Z.to_nat q), n, h. rewrite Hh. split; [done|]. split; [lia|done].
  - rewrite (lookup_ge_None_2 (handlers_ t) (Z.to_nat q)) by lia. done.
Qed.
End TrampolineFacts.

(** ** An instance on the reference emulator *)

(** The page as the constructor maps it, and one stub on it. *)
Definition demo_page : RefUc := m_uc (snd (reserve_page demo_mem0)).
Definition demo_tramp0 : Trampoline RefUc nat := init_trampoline demo_page.
Definition demo_tramp : Trampoline RefUc nat := snd (alloc Arm64 "malloc" 0%nat demo_tramp0).
(** The guest stopped at the return instruction of the stub. *)
Definition demo_trapped : Trampoline RefUc nat :=
  mkTrampoline (ru_reg_write (tr_uc demo_tramp) A64_PC (kTrampolineBase + 4))
    (base_ demo_tramp) (next_ demo_tramp) (handlers_ demo_tramp).

Lemma demo_page_mapped x :
  kTrampolineBase <= x < kTrampolineBase + kTrampolineSize -> uc_mapped demo_page x = true.
Proof.
  intros Hx. assert (ru_ranges demo_page = [(kTrampolineBase, kTrampolineSize)]) as E
    by (vm_compute; reflexivity).
  cbn [uc_mapped RefUc_ops]. unfold ru_mapped. rewrite E. simpl.
  by rewrite (proj2 (in_range_spec _ _ _)).
Qed.

Lemma demo_tramp0_ok : tramp_ok demo_tramp0.
Proof. split; [done|done|done|]. apply demo_page_mapped. Qed.

Lemma alloc_spec_witness :
  exists t', alloc Arm64 "malloc" 0%nat demo_tramp0 = (Ret kTrampolineBase, t') /\
    tramp_ok t' /\ handlers_ t' = [("malloc", 0%nat)] /\
    stub_at Arm64 (tr_uc t') kTrampolineBase /\
    (forall b n, b + n <= kTrampolineBase \/ kTrampolineBase + 8 <= b ->
       uc_mem_read (tr_uc t') b n = uc_mem_read demo_page b n) /\
    (forall x, uc_mapped (tr_uc t') x = uc_mapped demo_page x).
Proof. exact (alloc_spec Arm64 demo_tramp0 "malloc" 0%nat demo_tramp0_ok). Defined.

Lemma demo_trapped_ok : tramp_ok demo_trapped.
Proof.
  split; [reflexivity|reflexivity|by vm_compute|].
  intros x Hx. unfold demo_trapped. cbn [tr_uc].
  change (ru_reg_write (tr_uc demo_tramp) A64_PC (kTrampolineBase + 4))
    with (uc_reg_write (tr_uc demo_tramp) A64_PC (kTrampolineBase + 4)).
  rewrite law_reg_mapped.
  destruct (alloc_spec Arm64 demo_tramp0 "malloc" 0%nat demo_tramp0_ok) as (t' & E & Hok & _).
  unfold demo_tramp. rewrite E. by apply Hok.
Qed.

Lemma dispatch_spec_witness :
  exists i n h, handlers_ demo_trapped !! i = Some (n, h) /\
    kTrampolineBase + 8 * Z.of_nat i <= kTrampolineBase + 4
      < kTrampolineBase + 8 * Z.of_nat i + 8 /\
    dispatch Arm64 (fun _ => skip) demo_trapped = (_ ← skip; mret true) demo_trapped /\
    name_at demo_trapped (kTrampolineBase + 4) = n.
Proof.
  destruct (dispatch_spec Arm64 (fun _ => skip) demo_trapped (kTrampolineBase + 4))
    as (i & n & h & Hrest); [apply demo_trapped_ok|reflexivity|].
  by exists i, n, h.
Defined.
