(* ===== verification/JavaRuntime.v ===== *)
(** The Java object table: [core/jni/java_runtime.cpp],
    [include/vardoger/jni/java_runtime.hpp].

    A handle is the address of a zeroed 0x80-byte shadow in guest memory; the
    table maps it to a host-side record.  Names are lists of bytes, a [double]
    is its 64 bits, and an unordered map is a [gmap]: none is iterated.  The
    host implementations of Java methods and the two observers are the
    client's: [host_methods_] maps names to implementations of a type [HM],
    which [call_method] runs through a parameter. *)

From S2P Require Import Prelude.
From S2P Require Import Words.
From S2P Require Import Abi.
From S2P Require Import Unicorn.
From S2P Require Import Engine.
From S2P Require Import Memory.
#[local] Open Scope Z_scope.

Abbreviation jstring := (list Z).

Inductive DvmValue := DVoid | DInt (i : Z) | DDouble (d : Z) | DObject (obj : Z).

Inductive RKind := RClass | RMethod | RField | RString | RObject | RByteArray | RObjectArray.
#[export] Instance RKind_eq_dec : EqDecision RKind.
Proof. solve_decision. Defined.

Record JRecord := mkRecord {
  kind : RKind;
  rname : jstring;
  rsig : jstring;
  owner : jstring;
  utf8 : jstring;
  is_static : bool;
  native_fn : Z;
  fields : gmap (list Z) DvmValue;
  jbytes : list Z;
  elems : list Z;
}.
Definition no_record (k : RKind) : JRecord := mkRecord k [] [] [] [] false 0 ∅ [] [].

Record Native := mkNative { n_cls : jstring; n_name : jstring; n_sig : jstring; n_fn : Z }.

Definition kShadowSize : Z := 0x80.
Definition kClassOff : Z := 0x00.
Definition kLengthOff : Z := 0x08.

Record JavaRuntime (U HM : Type) := mkJava {
  j_mem : Memory U;
  handles_ : gmap Z JRecord;
  class_by_name_ : gmap (list Z) Z;
  superclass_ : gmap (list Z) (list Z);
  member_cache_ : gmap (list Z) Z;
  static_fields_ : gmap (list Z) DvmValue;
  field_defaults_ : gmap (list Z) DvmValue;
  host_methods_ : gmap (list Z) HM;
  registered_ : list Native;
  pending_exc_ : Z;
}.
Arguments mkJava {U HM}. Arguments j_mem {U HM}. Arguments handles_ {U HM}.
Arguments class_by_name_ {U HM}. Arguments superclass_ {U HM}. Arguments member_cache_ {U HM}.
Arguments static_fields_ {U HM}. Arguments field_defaults_ {U HM}. Arguments host_methods_ {U HM}.
Arguments registered_ {U HM}. Arguments pending_exc_ {U HM}.

Section JavaRuntime.
Context {U HM : Type} `{UcOps U}.
#[local] Abbreviation J := (JavaRuntime U HM).

Definition init_java (m : Memory U) : J := mkJava m ∅ ∅ ∅ ∅ ∅ ∅ ∅ [] 0.

Definition with_j_mem (j : J) (m : Memory U) : J :=
  mkJava m (handles_ j) (class_by_name_ j) (superclass_ j) (member_cache_ j) (static_fields_ j)
         (field_defaults_ j) (host_methods_ j) (registered_ j) (pending_exc_ j).
Definition with_handles (h : gmap Z JRecord) (j : J) : J :=
  mkJava (j_mem j) h (class_by_name_ j) (superclass_ j) (member_cache_ j) (static_fields_ j)
         (field_defaults_ j) (host_methods_ j) (registered_ j) (pending_exc_ j).
Definition with_classes (c : gmap (list Z) Z) (j : J) : J :=
  mkJava (j_mem j) (handles_ j) c (superclass_ j) (member_cache_ j) (static_fields_ j)
         (field_defaults_ j) (host_methods_ j) (registered_ j) (pending_exc_ j).
Definition with_supers (s : gmap (list Z) (list Z)) (j : J) : J :=
  mkJava (j_mem j) (handles_ j) (class_by_name_ j) s (member_cache_ j) (static_fields_ j)
         (field_defaults_ j) (host_methods_ j) (registered_ j) (pending_exc_ j).
Definition with_members (c : gmap (list Z) Z) (j : J) : J :=
  mkJava (j_mem j) (handles_ j) (class_by_name_ j) (superclass_ j) c (static_fields_ j)
         (field_defaults_ j) (host_methods_ j) (registered_ j) (pending_exc_ j).
Definition with_statics (s : gmap (list Z) DvmValue) (j : J) : J :=
  mkJava (j_mem j) (handles_ j) (class_by_name_ j) (superclass_ j) (member_cache_ j) s
         (field_defaults_ j) (host_methods_ j) (registered_ j) (pending_exc_ j).
Definition with_defaults (d : gmap (list Z) DvmValue) (j : J) : J :=
  mkJava (j_mem j) (handles_ j) (class_by_name_ j) (superclass_ j) (member_cache_ j)
         (static_fields_ j) d (host_methods_ j) (registered_ j) (pending_exc_ j).
Definition with_hosts (h : gmap (list Z) HM) (j : J) : J :=
  mkJava (j_mem j) (handles_ j) (class_by_name_ j) (superclass_ j) (member_cache_ j)
         (static_fields_ j) (field_defaults_ j) h (registered_ j) (pending_exc_ j).
Definition with_registered (l : list Native) (j : J) : J :=
  mkJava (j_mem j) (handles_ j) (class_by_name_ j) (superclass_ j) (member_cache_ j)
         (static_fields_ j) (field_defaults_ j) (host_methods_ j) l (pending_exc_ j).
Definition with_pending (e : Z) (j : J) : J :=
  mkJava (j_mem j) (handles_ j) (class_by_name_ j) (superclass_ j) (member_cache_ j)
         (static_fields_ j) (field_defaults_ j) (host_methods_ j) (registered_ j) e.

Definition on_mem {A} (op : M (Memory U) A) : M J A := fun j =>
  let '(r, m) := op (j_mem j) in (r, with_j_mem j m).

(** [e_.write_t<uint32_t>(a, static_cast<uint32_t>(v))] *)
Definition write_u32 (a v : Z) : M J unit := on_mem (uc_do (write_t 4 (u64 a) (u32 v))).

(** [emplace] keeps an entry that is already there. *)
Definition alloc (r : JRecord) : M J Z :=
  addr ← on_mem (java_alloc kShadowSize 16);
  _ ← modify (fun j => with_handles
        (match handles_ j !! addr with Some _ => handles_ j | None => <[addr := r]> (handles_ j) end) j);
  mret addr.

Definition get_rec (j : J) (h : Z) : option JRecord := handles_ j !! h.
(** [get(h)] of a wanted kind. *)
Definition get_kind (j : J) (h : Z) (k : RKind) : option JRecord :=
  match get_rec j h with Some r => if decide (kind r = k) then Some r else None | None => None end.

Definition class_name (j : J) (h : Z) : jstring :=
  match get_kind j h RClass with Some r => rname r | None => [] end.
Definition string_of (j : J) (h : Z) : option jstring := utf8 <$> get_kind j h RString.
Definition method_name (j : J) (h : Z) : jstring :=
  match get_kind j h RMethod with Some r => rname r | None => [] end.
Definition method_sig (j : J) (h : Z) : jstring :=
  match get_kind j h RMethod with Some r => rsig r | None => [] end.
Definition field_name (j : J) (h : Z) : jstring :=
  match get_kind j h RField with Some r => rname r | None => [] end.
Definition field_owner (j : J) (h : Z) : jstring :=
  match get_kind j h RField with Some r => owner r | None => [] end.

Definition find_class (name : jstring) : M J Z :=
  j ← get;
  match class_by_name_ j !! name with
  | Some h => mret h
  | None =>
      h ← alloc (mkRecord RClass name [] [] [] false 0 ∅ [] []);
      _ ← modify (fun j => with_classes (<[name := h]> (class_by_name_ j)) j);
      _ ← write_u32 (h + 0) h;
      mret h
  end.

Definition set_superclass (cls super : jstring) : M J unit :=
  if bool_decide (cls = []) || bool_decide (super = []) || bool_decide (cls = super) then skip
  else modify (fun j => with_supers (<[cls := super]> (superclass_ j)) j).

Definition superclass_of (j : J) (cls : jstring) : jstring := default [] (superclass_ j !! cls).

(** The bounded walk up the chain. *)
Fixpoint chain_reaches (n : nat) (supers : gmap (list Z) (list Z)) (c sup : jstring) : bool :=
  match n with
  | O => false
  | S k =>
      if bool_decide (c = []) then false
      else if bool_decide (c = sup) then true
      else match supers !! c with Some c' => chain_reaches k supers c' sup | None => false end
  end.
Definition is_subclass (j : J) (sub sup : jstring) : bool :=
  if bool_decide (sub = sup) || bool_decide (sup = bs "java/lang/Object") then true
  else chain_reaches 64 (superclass_ j) sub sup.

Definition android_hierarchy : list (string * string) :=
  [("android/content/ContextWrapper", "android/content/Context");
   ("android/app/Application", "android/content/ContextWrapper");
   ("android/app/Service", "android/content/ContextWrapper");
   ("android/app/Activity", "android/content/ContextWrapper");
   ("dalvik/system/BaseDexClassLoader", "java/lang/ClassLoader");
   ("dalvik/system/PathClassLoader", "dalvik/system/BaseDexClassLoader");
   ("dalvik/system/DexClassLoader", "dalvik/system/BaseDexClassLoader");
   ("com/stub/StubApp", "android/app/Application")]%string.
Fixpoint set_superclasses (l : list (string * string)) : M J unit :=
  match l with
  | [] => skip
  | (c, s) :: r => _ ← set_superclass (bs c) (bs s); set_superclasses r
  end.
Definition register_android_hierarchy : M J unit := set_superclasses android_hierarchy.

(** The cache key of a method ([M]) or field ([F]). *)
Definition member_key (owner : jstring) (mark : string) (name sig : jstring) (is_static : bool) : jstring :=
  owner ++ bs "|" ++ (if is_static then bs "S" else bs "v") ++ bs mark ++ name ++ bs "|" ++ sig.

Definition get_member (k : RKind) (mark : string) (clazz : Z) (name sig : jstring) (is_static : bool) :
    M J Z :=
  j ← get;
  let owner := class_name j clazz in
  let key := member_key owner mark name sig is_static in
  match member_cache_ j !! key with
  | Some h => mret h
  | None =>
      h ← alloc (mkRecord k name sig owner [] is_static 0 ∅ [] []);
      _ ← modify (fun j => with_members (<[key := h]> (member_cache_ j)) j);
      mret h
  end.
Definition get_method_id := get_member RMethod "M|".
Definition get_field_id := get_member RField "F|".

(** [get(mid)->native_fn = fn]: the handle is taken to be there. *)
Definition register_native (clazz : Z) (name sig : jstring) (fn : Z) : M J unit :=
  mid ← get_method_id clazz name sig false;
  j ← get;
  match get_rec j mid with
  | None => lift UB
  | Some r =>
      let r' := mkRecord (kind r) (rname r) (rsig r) (owner r) (utf8 r) (is_static r) fn (fields r)
                         (jbytes r) (elems r) in
      modify (fun j => with_registered (registered_ j ++ [mkNative (class_name j clazz) name sig fn])
                         (with_handles (<[mid := r']> (handles_ j)) j))
  end.

(** An object of a class: its record, then the class reference of its shadow. *)
Definition new_of (r : JRecord) (cls : jstring) : M J Z :=
  h ← alloc r;
  c ← find_class cls;
  _ ← write_u32 (h + kClassOff) c;
  mret h.
Definition new_object (cls : jstring) : M J Z :=
  new_of (mkRecord RObject [] [] cls [] false 0 ∅ [] []) cls.
Definition new_string_utf (s : jstring) : M J Z :=
  new_of (mkRecord RString [] [] [] s false 0 ∅ [] []) (bs "java/lang/String").
Definition new_byte_array (l : list Z) : M J Z :=
  h ← new_of (mkRecord RByteArray [] [] [] [] false 0 ∅ l []) (bs "[B");
  _ ← write_u32 (h + kLengthOff) (zlen l); mret h.
(** The overload that zero-fills; a length no vector can have throws. *)
Definition new_byte_array_zero (len : Z) : M J Z :=
  if 2 ^ 63 <=? len then throw "vector" else new_byte_array (replicate (Z.to_nat len) 0).
Definition new_object_array (l : list Z) : M J Z :=
  h ← new_of (mkRecord RObjectArray [] [] [] [] false 0 ∅ [] l) (bs "[Ljava/lang/Object;");
  _ ← write_u32 (h + kLengthOff) (zlen l); mret h.

Definition bytes_view (j : J) (arr : Z) : option (list Z) := jbytes <$> get_kind j arr RByteArray.
Definition array_length (j : J) (arr : Z) : Z :=
  match get_rec j arr with
  | None => 0
  | Some r => match kind r with
              | RByteArray => zlen (jbytes r)
              | RObjectArray => zlen (elems r)
              | _ => 0
              end
  end.
Definition object_array_element (j : J) (arr i : Z) : Z :=
  match get_kind j arr RObjectArray with Some r => default 0 (znth (elems r) i) | None => 0 end.

(** Changing the record of a handle that is there. *)
Definition update_rec (h : Z) (f : JRecord -> JRecord) : M J unit :=
  modify (fun j => match get_rec j h with
                   | Some r => with_handles (<[h := f r]> (handles_ j)) j
                   | None => j
                   end).
Definition with_fields (fs : gmap (list Z) DvmValue) (r : JRecord) : JRecord :=
  mkRecord (kind r) (rname r) (rsig r) (owner r) (utf8 r) (is_static r) (native_fn r) fs (jbytes r) (elems r).
Definition with_elems (l : list Z) (r : JRecord) : JRecord :=
  mkRecord (kind r) (rname r) (rsig r) (owner r) (utf8 r) (is_static r) (native_fn r) (fields r) (jbytes r) l.
Definition with_bytes (l : list Z) (r : JRecord) : JRecord :=
  mkRecord (kind r) (rname r) (rsig r) (owner r) (utf8 r) (is_static r) (native_fn r) (fields r) l (elems r).

Definition set_object_array_element (arr i v : Z) : M J unit :=
  update_rec arr (fun r =>
    if decide (kind r = RObjectArray)
    then if (0 <=? i) && (i <? zlen (elems r)) then with_elems (<[Z.to_nat i := v]> (elems r)) r else r
    else r).
(** What a holder of [bytes_ptr(arr)] writes through it. *)
Definition set_bytes (arr : Z) (l : list Z) : M J unit :=
  update_rec arr (fun r => if decide (kind r = RByteArray) then with_bytes l r else r).

Definition class_of (j : J) (obj : Z) : Z :=
  match get_rec j obj with
  | None => 0
  | Some r => match kind r with
              | RObject => default 0 (class_by_name_ j !! owner r)
              | RString => default 0 (class_by_name_ j !! bs "java/lang/String")
              | _ => 0
              end
  end.

Definition set_field (obj : Z) (name : jstring) (v : DvmValue) : M J unit :=
  update_rec obj (fun r => with_fields (<[name := v]> (fields r)) r).
Definition get_field (j : J) (obj : Z) (name : jstring) : DvmValue :=
  match get_rec j obj ≫= (fun r => fields r !! name) with
  | Some v => v
  | None => default DVoid (field_defaults_ j !! name)
  end.
Definition set_field_default (name : jstring) (v : DvmValue) : M J unit :=
  modify (fun j => with_defaults (<[name := v]> (field_defaults_ j)) j).

Definition skey (cls name : jstring) : jstring := cls ++ [0x1f] ++ name.
Definition set_static (cls name : jstring) (v : DvmValue) : M J unit :=
  modify (fun j => with_statics (<[skey cls name := v]> (static_fields_ j)) j).
Definition get_static (j : J) (cls name : jstring) : DvmValue :=
  default DVoid (static_fields_ j !! skey cls name).

Definition register_method (name : jstring) (fn : HM) : M J unit :=
  modify (fun j => with_hosts (<[name := fn]> (host_methods_ j)) j).

(** The implementation of [owner#name], else of [name]. *)
Definition find_impl (j : J) (owner name : jstring) : option HM :=
  match (if bool_decide (owner = []) then None else host_methods_ j !! (owner ++ bs "#" ++ name)) with
  | Some f => Some f
  | None => host_methods_ j !! name
  end.

(** [observe] is [method_observer_], [run] runs an implementation. *)
Definition call_method
    (observe : jstring -> jstring -> jstring -> list DvmValue -> bool -> M J unit)
    (run : HM -> Z -> list DvmValue -> M J DvmValue)
    (mid self : Z) (args : list DvmValue) : M J DvmValue :=
  j ← get;
  let mr := get_kind j mid RMethod in
  let str (f : JRecord -> jstring) := match mr with Some r => f r | None => [] end in
  let impl := find_impl j (str owner) (str rname) in
  _ ← observe (str owner) (str rname) (str rsig) args
        (match impl with Some _ => true | None => false end);
  match impl with Some f => run f self args | None => mret DVoid end.

Definition named (name : jstring) (n : Native) : bool := bool_decide (n_name n = name).
Definition lookup_native (j : J) (cls name : jstring) : Z :=
  match List.find (fun n => bool_decide (n_cls n = cls) && named name n) (registered_ j) with
  | Some n => n_fn n
  | None => match List.filter (named name) (registered_ j) with [n] => n_fn n | _ => 0 end
  end.

Definition set_pending_exception (e : Z) : M J unit := modify (with_pending e).
Definition clear_pending_exception : M J unit := modify (with_pending 0).
End JavaRuntime.

(** ** Every reachable table *)

Section JavaFacts.
Context {U HM : Type} `{UcLaws U}.
#[local] Abbreviation J := (JavaRuntime U HM).

Definition kJavaEnd : Z := kJavaBase + kJavaSize.

(** The Java arena: not mapped yet, or a cursor inside it. *)
Definition arena_in (m : Memory U) : Prop :=
  java_next_ m = 0 \/ (kJavaBase <= java_next_ m <= kJavaEnd /\ java_end_ m = kJavaEnd).

Lemma java_alloc_shadow (m m' : Memory U) r :
  arena_in m -> java_alloc kShadowSize 16 m = (r, m') ->
  arena_in m' /\ java_next_ m <= java_next_ m' /\
  forall p, r = Ret p ->
    kJavaBase <= p /\ java_next_ m <= p /\ p + kShadowSize <= java_next_ m' /\ java_next_ m' <= kJavaEnd /\
    p mod 16 = 0.
Proof.
  intros Hin. unfold java_alloc. rewrite bind_get. unfold mbind at 1, M_mbind, M_bind at 1.
  set (m1 := if java_next_ m =? 0 then _ else _).
  destruct (m1 m) as [o m2] eqn:E1.
  assert (match o with
          | Ret _ => arena_in m2 /\ java_next_ m <= java_next_ m2 /\ kJavaBase <= java_next_ m2
          | _ => m2 = m end) as H1.
  { unfold m1 in E1. destruct (Z.eqb_spec (java_next_ m) 0) as [E0|E0].
    - unfold mbind, M_mbind, M_bind in E1. rewrite map_insert_eq in E1.
      destruct (uc_mem_map _ _ _ _); [|by injection E1 as <- <-].
      injection E1 as <- <-. unfold arena_in. cbn. unfold kJavaEnd, kJavaBase, kJavaSize in *. lia.
    - injection E1 as <- <-. unfold arena_in in *. cbn. lia. }
  destruct o as [[]|e|]; [|intros [= <- <-]; subst; split; [done|]; split; [lia|done]..].
  destruct H1 as (Hin2 & Hle & Hb). rewrite bind_get.
  assert (java_next_ m2 <= kJavaEnd /\ java_end_ m2 = kJavaEnd) as [Hhi Hend]
    by (unfold arena_in, kJavaBase in *; lia).
  unfold kJavaEnd, kJavaBase, kJavaSize in Hhi, Hend, Hb.
  destruct (align_up_spec (java_next_ m2) 4) as [Hal Hmod]; [lia..|]. change (2 ^ 4) with 16 in *.
  set (q := align_up (java_next_ m2) 16) in *. unfold kShadowSize.
  rewrite (u64_id (q + 0x80)) by lia.
  destruct (Z.ltb_spec (java_end_ m2) (q + 0x80)); [intros [= <- <-]; split; [done|]; split; [lia|done]|].
  intros [= <- <-]. unfold arena_in, kJavaEnd, kJavaBase, kJavaSize in *.
  cbn. split; [right; lia|]. split; [lia|]. intros p [= <-]. lia.
Qed.

(** What identifies a record: all but its contents. *)
Definition same_identity (r r' : JRecord) : Prop :=
  kind r' = kind r /\ rname r' = rname r /\ rsig r' = rsig r /\ owner r' = owner r /\
  utf8 r' = utf8 r /\ is_static r' = is_static r.

Lemma same_identity_refl r : same_identity r r.
Proof. by repeat split. Qed.

(** The record a cached member stands for. *)
Definition member_of (key : list Z) (r : JRecord) : Prop :=
  (kind r = RMethod /\ key = member_key (owner r) "M|" (rname r) (rsig r) (is_static r)) \/
  (kind r = RField /\ key = member_key (owner r) "F|" (rname r) (rsig r) (is_static r)).

Record java_ok (j : J) : Prop := {
  jo_arena : arena_in (j_mem j);
  jo_shadow h r : handles_ j !! h = Some r ->
    kJavaBase <= h /\ h + kShadowSize <= java_next_ (j_mem j) /\ h mod 16 = 0;
  jo_apart h h' : is_Some (handles_ j !! h) -> is_Some (handles_ j !! h') ->
    h < h' -> h + kShadowSize <= h';
  jo_class n h : class_by_name_ j !! n = Some h ->
    exists r, handles_ j !! h = Some r /\ kind r = RClass /\ rname r = n;
  jo_member k h : member_cache_ j !! k = Some h -> exists r, handles_ j !! h = Some r /\ member_of k r;
}.

(** A later table: handles are kept with their identity, caches only grow. *)
Record extends (j j' : J) : Prop := {
  ex_handles h r : handles_ j !! h = Some r ->
    exists r', handles_ j' !! h = Some r' /\ same_identity r r';
  ex_classes n h : class_by_name_ j !! n = Some h -> class_by_name_ j' !! n = Some h;
  ex_members k h : member_cache_ j !! k = Some h -> member_cache_ j' !! k = Some h;
}.

Lemma extends_refl j : extends j j.
Proof. split; eauto using same_identity_refl. Qed.
Lemma extends_trans j1 j2 j3 : extends j1 j2 -> extends j2 j3 -> extends j1 j3.
Proof.
  intros E1 E2. split.
  - intros h r (r2 & Hr2 & I2)%(ex_handles _ _ E1). destruct (ex_handles _ _ E2 _ _ Hr2) as (r3 & Hr3 & I3).
    exists r3. split; [done|]. unfold same_identity in *. intuition congruence.
  - intros n h Hn. by apply (ex_classes _ _ E2), (ex_classes _ _ E1).
  - intros k h Hk. by apply (ex_members _ _ E2), (ex_members _ _ E1).
Qed.

(** An operation that keeps tables well formed and extends them, however it
    ends. *)
Definition grows {A} (m : M J A) : Prop :=
  forall j r j', java_ok j -> m j = (r, j') -> java_ok j' /\ extends j j'.

Lemma grows_ret {A} (a : A) : grows (M_ret a).
Proof. intros j r j' Hj [= <- <-]. split; [done|apply extends_refl]. Qed.
Lemma grows_bind {A B} (m : M J A) (f : A -> M J B) :
  grows m -> (forall a, grows (f a)) -> grows (M_bind f m).
Proof.
  intros Hm Hf j r j' Hj. unfold M_bind. destruct (m j) as [o j1] eqn:E.
  destruct (Hm _ _ _ Hj E) as [H1 X1]. destruct o as [a|e|]; [|by intros [= <- <-]..].
  intros E'. destruct (Hf a _ _ _ H1 E') as [H2 X2]. split; [done|by eapply extends_trans].
Qed.

(** A change that leaves handles, caches and memory alone. *)
Lemma grows_modify (f : J -> J) :
  (forall j, j_mem (f j) = j_mem j /\ handles_ (f j) = handles_ j /\
             class_by_name_ (f j) = class_by_name_ j /\ member_cache_ (f j) = member_cache_ j) ->
  grows (modify f).
Proof.
  intros Hf j r j' Hj [= <- <-]. destruct (Hf j) as (E1 & E2 & E3 & E4). destruct Hj as [A B C D E].
  split; split; rewrite ?E1, ?E2, ?E3, ?E4; try done. intros h r Hr. by exists r.
Qed.

Lemma grows_write a v : grows (write_u32 (HM := HM) a v).
Proof.
  intros j r j' Hj. unfold write_u32, on_mem, uc_do, write_t, e_write, check.
  destruct (uc_mem_write _ _ _); intros [= _ <-]; destruct Hj;
    (split; [split; done|split; cbn; eauto using same_identity_refl]).
Qed.

(** A fresh record. *)
Lemma alloc_run r j o j' :
  java_ok j -> alloc r j = (o, j') ->
  java_ok j' /\ extends j j' /\ class_by_name_ j' = class_by_name_ j /\ member_cache_ j' = member_cache_ j /\
  forall h, o = Ret h -> handles_ j !! h = None /\ handles_ j' !! h = Some r.
Proof.
  intros Hj. destruct Hj as [A B C D E]. unfold alloc, mbind, M_mbind, M_bind, on_mem.
  destruct (java_alloc kShadowSize 16 (j_mem j)) as [p m'] eqn:Ea.
  destruct (java_alloc_shadow _ _ _ A Ea) as (A' & Hle & Hp).
  destruct p as [h|e|]; cycle 1.
  1, 2: intros [= <- <-]; split; [split; cbn; eauto; intros h r0 Hr; specialize (B h r0 Hr); lia|];
    split; [split; cbn; eauto using same_identity_refl|]; done.
  destruct (Hp h eq_refl) as (P1 & P2 & P3 & P4 & P5).
  assert (handles_ j !! h = None) as Hfresh.
  { destruct (handles_ j !! h) as [r0|] eqn:Er; [|done]. specialize (B h r0 Er).
    unfold kShadowSize in *. lia. }
  unfold modify. cbn [with_j_mem handles_]. rewrite Hfresh. intros [= <- <-].
  split; [split; cbn|split; [split; cbn|]]; eauto.
  - intros h' r0 [[-> ->]|[Hne Hr]]%lookup_insert_Some; [lia|]. specialize (B h' r0 Hr). lia.
  - intros h1 h2. destruct (decide (h1 = h)) as [->|N1], (decide (h2 = h)) as [->|N2];
      rewrite ?lookup_insert_eq, ?lookup_insert_ne by done; [lia| | |by apply C].
    + intros _ [r2 Hr2]. specialize (B h2 r2 Hr2). unfold kShadowSize in *. lia.
    + intros [r1 Hr1] _. specialize (B h1 r1 Hr1). lia.
  - intros n h' Hn. destruct (D n h' Hn) as (r0 & Hr & Hk). exists r0. split; [|done].
    rewrite lookup_insert_ne; [done|congruence].
  - intros k h' Hk. destruct (E k h' Hk) as (r0 & Hr & Hm). exists r0. split; [|done].
    rewrite lookup_insert_ne; [done|congruence].
  - intros h' r0 Hr. exists r0. split; [|apply same_identity_refl]. rewrite lookup_insert_ne; congruence.
  - split; [done|]. split; [done|]. intros h' [= <-]. cbn. by rewrite lookup_insert_eq.
Qed.

Lemma grows_alloc r : grows (alloc r).
Proof. intros j o j' Hj E. destruct (alloc_run r j o j' Hj E) as (? & ? & _). done. Qed.

(** Caching a fresh class or member. *)
Lemma cache_class n h r j :
  java_ok j -> handles_ j !! h = Some r -> kind r = RClass -> rname r = n ->
  class_by_name_ j !! n = None ->
  java_ok (with_classes (<[n := h]> (class_by_name_ j)) j) /\
  extends j (with_classes (<[n := h]> (class_by_name_ j)) j).
Proof.
  intros [A B C D E] Hr Hk Hn Hnone. split; split; cbn; eauto using same_identity_refl.
  - intros n' h' [[<- <-]|[? Hn']]%lookup_insert_Some; eauto.
  - intros n' h' Hn'. rewrite lookup_insert_ne; [done|congruence].
Qed.
Lemma cache_member k h r j :
  java_ok j -> handles_ j !! h = Some r -> member_of k r -> member_cache_ j !! k = None ->
  java_ok (with_members (<[k := h]> (member_cache_ j)) j) /\
  extends j (with_members (<[k := h]> (member_cache_ j)) j).
Proof.
  intros [A B C D E] Hr Hk Hnone. split; split; cbn; eauto using same_identity_refl.
  - intros n' h' [[<- <-]|[? Hn']]%lookup_insert_Some; eauto.
  - intros n' h' Hn'. rewrite lookup_insert_ne; [done|congruence].
Qed.

(** [find_class] interns: the handle it returns is the cached class of that
    name. *)
Lemma find_class_run n j o j' :
  java_ok j -> find_class n j = (o, j') ->
  java_ok j' /\ extends j j' /\ forall h, o = Ret h -> class_by_name_ j' !! n = Some h.
Proof.
  intros Hj. unfold find_class. rewrite bind_get.
  destruct (class_by_name_ j !! n) as [h|] eqn:En.
  { intros [= <- <-]. split; [done|]. split; [apply extends_refl|]. by intros h' [= <-]. }
  unfold mbind at 1, M_mbind, M_bind at 1.
  destruct (alloc _ j) as [p j1] eqn:Ea.
  destruct (alloc_run _ _ _ _ Hj Ea) as (H1 & X1 & Ec & _ & Hp).
  destruct p as [h|e|]; [|intros [= <- <-]; split; [done|]; split; done..].
  destruct (Hp h eq_refl) as [_ Hr]. rewrite bind_modify.
  destruct (cache_class n h _ j1 H1 Hr eq_refl eq_refl ltac:(by rewrite Ec)) as [H2 X2].
  set (j2 := with_classes _ j1) in *. unfold mbind, M_mbind, M_bind.
  destruct (write_u32 (h + 0) h j2) as [w j3] eqn:Ew.
  destruct (grows_write _ _ _ _ _ H2 Ew) as [H3 X3].
  assert (extends j j3) as X by (eapply extends_trans; [exact X1|by eapply extends_trans]).
  destruct w as [[]|e|]; [|intros [= <- <-]; split; [done|]; split; done..].
  intros [= <- <-]. split; [done|]. split; [done|]. intros h' [= <-].
  apply (ex_classes _ _ X3). cbn. apply lookup_insert_eq.
Qed.

Lemma get_member_run k mark c n s st j o j' :
  (k = RMethod /\ mark = "M|"%string) \/ (k = RField /\ mark = "F|"%string) ->
  java_ok j -> get_member k mark c n s st j = (o, j') ->
  java_ok j' /\ extends j j' /\
  forall h, o = Ret h -> member_cache_ j' !! member_key (class_name j c) mark n s st = Some h.
Proof.
  intros Hk Hj. unfold get_member. rewrite bind_get. set (key := member_key _ _ _ _ _).
  destruct (member_cache_ j !! key) as [h|] eqn:En.
  { intros [= <- <-]. split; [done|]. split; [apply extends_refl|]. by intros h' [= <-]. }
  unfold mbind at 1, M_mbind, M_bind at 1.
  destruct (alloc _ j) as [p j1] eqn:Ea.
  destruct (alloc_run _ _ _ _ Hj Ea) as (H1 & X1 & _ & Em & Hp).
  destruct p as [h|e|]; [|intros [= <- <-]; split; [done|]; split; done..].
  destruct (Hp h eq_refl) as [_ Hr]. rewrite bind_modify.
  destruct (cache_member key h _ j1 H1 Hr) as [H2 X2]; [|by rewrite Em|].
  { unfold member_of, key. cbn. destruct Hk as [[-> ->]|[-> ->]]; auto. }
  intros [= <- <-]. split; [done|]. split; [by eapply extends_trans|]. intros h' [= <-].
  cbn. apply lookup_insert_eq.
Qed.

(** Changing a record's contents. *)
Lemma set_record_ok h r r' j :
  java_ok j -> handles_ j !! h = Some r -> same_identity r r' ->
  java_ok (with_handles (<[h := r']> (handles_ j)) j) /\
  extends j (with_handles (<[h := r']> (handles_ j)) j).
Proof.
  intros [A B C D E] Hr (K1 & K2 & K3 & K4 & K5 & K6).
  assert (forall h1, is_Some (<[h := r']> (handles_ j) !! h1) -> is_Some (handles_ j !! h1)) as Hs.
  { intros h1. destruct (decide (h1 = h)) as [->|]; [by rewrite Hr|by rewrite lookup_insert_ne]. }
  split; split; cbn; eauto.
  - intros h1 r1 [[-> ->]|[Hne Hr1]]%lookup_insert_Some; eauto.
  - intros n h1 Hn. destruct (D n h1 Hn) as (r1 & Hr1 & I1 & I2).
    destruct (decide (h1 = h)) as [->|]; [|exists r1; by rewrite lookup_insert_ne].
    rewrite lookup_insert_eq. exists r'. split; [done|]. split; congruence.
  - intros k h1 Hk. destruct (E k h1 Hk) as (r1 & Hr1 & I1).
    destruct (decide (h1 = h)) as [->|]; [|exists r1; by rewrite lookup_insert_ne].
    rewrite lookup_insert_eq. exists r'. split; [done|]. replace r1 with r in * by congruence.
    unfold member_of in *. by rewrite K1, K2, K3, K4, K6.
  - intros h1 r1 Hr1. destruct (decide (h1 = h)) as [->|].
    + rewrite lookup_insert_eq. exists r'. split; [done|]. replace r1 with r by congruence. by repeat split.
    + rewrite lookup_insert_ne by done. exists r1. split; [done|apply same_identity_refl].
Qed.

Lemma grows_update h f :
  (forall r, same_identity r (f r)) -> grows (update_rec (U := U) (HM := HM) h f).
Proof.
  intros Hf j r j' Hj [= <- <-]. unfold get_rec. destruct (handles_ j !! h) as [r|] eqn:Er.
  - by apply (set_record_ok h r).
  - split; [done|apply extends_refl].
Qed.

Lemma grows_find_class n : grows (find_class (U := U) (HM := HM) n).
Proof. intros j o j' Hj E. destruct (find_class_run n j o j' Hj E) as (? & ? & _). done. Qed.
Lemma grows_method c n s st : grows (get_method_id (U := U) (HM := HM) c n s st).
Proof.
  intros j o j' Hj E.
  destruct (get_member_run RMethod "M|" c n s st j o j' (or_introl (conj eq_refl eq_refl)) Hj E)
    as (? & ? & _). done.
Qed.
Lemma grows_field c n s st : grows (get_field_id (U := U) (HM := HM) c n s st).
Proof.
  intros j o j' Hj E.
  destruct (get_member_run RField "F|" c n s st j o j' (or_intror (conj eq_refl eq_refl)) Hj E)
    as (? & ? & _). done.
Qed.
Lemma grows_lift {A} (o : outcome A) : grows (lift o).
Proof. intros j r j' Hj [= <- <-]. split; [done|apply extends_refl]. Qed.

Lemma grows_with_get {A} (f : J -> M J A) : (forall j, grows (f j)) -> grows (M_bind f get).
Proof. intros Hf j r j' Hj. unfold M_bind, get. by apply Hf. Qed.

Lemma grows_register_native c n s fn : grows (register_native (U := U) (HM := HM) c n s fn).
Proof.
  apply grows_bind; [apply grows_method|]. intros mid j r j' Hj. rewrite bind_get.
  destruct (get_rec j mid) as [r0|] eqn:Er; [|apply (grows_lift UB); done].
  unfold modify. intros [= <- <-].
  match goal with |- context [with_registered ?l (with_handles (<[mid := ?r']> _) _)] =>
    set (regs := l); set (r1 := r') end.
  destruct (set_record_ok mid r0 r1 j Hj Er) as [H1 X1]; [by repeat split|].
  assert (grows (modify (S := J) (with_registered regs))) as Hg by (apply grows_modify; done).
  destruct (Hg _ _ _ H1 eq_refl) as [H2 X2]. split; [done|by eapply extends_trans].
Qed.

#[local] Ltac grows :=
  first [ apply grows_alloc | apply grows_find_class | apply grows_write | apply grows_ret
        | apply grows_bind; [grows|intros; grows] ].

Lemma grows_new_of r c : grows (new_of (U := U) (HM := HM) r c).
Proof. by grows. Qed.
(** An object is a fresh handle to its record. *)
Lemma new_of_run r c j h j' :
  java_ok j -> new_of (U := U) (HM := HM) r c j = (Ret h, j') ->
  java_ok j' /\ handles_ j !! h = None /\ exists r', handles_ j' !! h = Some r' /\ same_identity r r'.
Proof.
  intros Hj E. apply bind_ret_inv in E as (h1 & j1 & E1 & E).
  destruct (alloc_run _ _ _ _ Hj E1) as (H1 & _ & _ & _ & Hh). destruct (Hh _ eq_refl) as [Hn Hr].
  apply bind_ret_inv in E as (cl & j2 & E2 & E). destruct (grows_find_class _ _ _ _ H1 E2) as [H2 X2].
  apply bind_ret_inv in E as (? & j3 & E3 & E). destruct (grows_write _ _ _ _ _ H2 E3) as [H3 X3].
  injection E as <- <-. split; [done|]. split; [done|].
  exact (ex_handles _ _ (extends_trans _ _ _ X2 X3) _ _ Hr).
Qed.

Lemma grows_new_sized r c n :
  grows (h ← new_of (U := U) (HM := HM) r c; _ ← write_u32 (h + kLengthOff) n; mret h).
Proof. by grows. Qed.

Lemma grows_superclass c s : grows (set_superclass (U := U) (HM := HM) c s).
Proof. unfold set_superclass. case_match; [apply grows_ret|by apply grows_modify]. Qed.
Lemma grows_superclasses l : grows (set_superclasses (U := U) (HM := HM) l).
Proof.
  induction l as [|[c s] l IH]; [apply grows_ret|].
  apply grows_bind; [apply grows_superclass|intros _; exact IH].
Qed.

Lemma grows_new_zeroes n : grows (new_byte_array_zero (U := U) (HM := HM) n).
Proof.
  unfold new_byte_array_zero. case_match; [apply (grows_lift (Throw "vector"))|apply grows_new_sized].
Qed.

Lemma grows_set_element a i v : grows (set_object_array_element (U := U) (HM := HM) a i v).
Proof. apply grows_update. intros r. repeat case_match; by repeat split. Qed.
Lemma grows_set_bytes a l : grows (set_bytes (U := U) (HM := HM) a l).
Proof. apply grows_update. intros r. case_match; by repeat split. Qed.
Lemma grows_set_field o n v : grows (set_field (U := U) (HM := HM) o n v).
Proof. apply grows_update. intros r. by repeat split. Qed.

(** Running host code that only acts through the table. *)
Lemma grows_call_method observe run mid self args :
  (forall o n s a b, grows (observe o n s a b)) -> (forall f t a, grows (run f t a)) ->
  grows (call_method (U := U) (HM := HM) observe run mid self args).
Proof.
  intros Ho Hr. apply grows_with_get. intros j. apply grows_bind; [apply Ho|]. intros _.
  case_match; [apply Hr|apply grows_ret].
Qed.

(** A string keeps its text. *)
Lemma string_of_keeps (j j' : J) h s : extends j j' -> string_of j h = Some s -> string_of j' h = Some s.
Proof.
  intros X. unfold string_of, get_kind, get_rec. destruct (handles_ j !! h) as [r|] eqn:Er; [|done].
  destruct (ex_handles _ _ X _ _ Er) as (r' & -> & (K & _ & _ & _ & Hu & _)).
  destruct (decide (kind r = RString)); [|done]. rewrite decide_True by congruence.
  cbn [fmap option_fmap option_map]. by rewrite Hu.
Qed.

(** The operations a client may call. *)
Inductive JavaOp :=
| OFindClass (n : jstring) | OSetSuperclass (c s : jstring) | OHierarchy
| OGetMethod (c : Z) (n s : jstring) (st : bool) | OGetField (c : Z) (n s : jstring) (st : bool)
| ORegisterNative (c : Z) (n s : jstring) (fn : Z)
| ONewObject (c : jstring) | ONewString (s : jstring) | ONewBytes (l : list Z) | ONewZeroes (n : Z)
| ONewArray (l : list Z) | OSetElement (a i v : Z) | OSetBytes (a : Z) (l : list Z)
| OSetField (o : Z) (n : jstring) (v : DvmValue) | OSetDefault (n : jstring) (v : DvmValue)
| OSetStatic (c n : jstring) (v : DvmValue) | ORegisterMethod (n : jstring) (f : HM)
| OSetPending (e : Z) | OClearPending.

Definition to_unit {A} (m : M J A) : M J unit := _ ← m; skip.
Definition java_op (o : JavaOp) : M J unit :=
  match o with
  | OFindClass n => to_unit (find_class n)
  | OSetSuperclass c s => set_superclass c s
  | OHierarchy => register_android_hierarchy
  | OGetMethod c n s st => to_unit (get_method_id c n s st)
  | OGetField c n s st => to_unit (get_field_id c n s st)
  | ORegisterNative c n s fn => register_native c n s fn
  | ONewObject c => to_unit (new_object c)
  | ONewString s => to_unit (new_string_utf s)
  | ONewBytes l => to_unit (new_byte_array l)
  | ONewZeroes n => to_unit (new_byte_array_zero n)
  | ONewArray l => to_unit (new_object_array l)
  | OSetElement a i v => set_object_array_element a i v
  | OSetBytes a l => set_bytes a l
  | OSetField o n v => set_field o n v
  | OSetDefault n v => set_field_default n v
  | OSetStatic c n v => set_static c n v
  | ORegisterMethod n f => register_method n f
  | OSetPending e => set_pending_exception e
  | OClearPending => clear_pending_exception
  end.

Lemma grows_to_unit {A} (m : M J A) : grows m -> grows (to_unit m).
Proof. intros Hm. apply grows_bind; [done|]. intros _. apply grows_ret. Qed.

Lemma java_op_grows o : grows (java_op o).
Proof.
  destruct o; cbn [java_op].
  - apply grows_to_unit, grows_find_class.
  - apply grows_superclass.
  - apply grows_superclasses.
  - apply grows_to_unit, grows_method.
  - apply grows_to_unit, grows_field.
  - apply grows_register_native.
  - apply grows_to_unit, grows_new_of.
  - apply grows_to_unit, grows_new_of.
  - apply grows_to_unit, grows_new_sized.
  - apply grows_to_unit, grows_new_zeroes.
  - apply grows_to_unit, grows_new_sized.
  - apply grows_set_element.
  - apply grows_set_bytes.
  - apply grows_set_field.
  - by apply grows_modify.
  - by apply grows_modify.
  - by apply grows_modify.
  - by apply grows_modify.
  - by apply grows_modify.
Qed.

(** A step: an operation, however it ends, or a change of the memory by
    someone else, who may take from the arena but not give back. *)
Inductive java_step : J -> J -> Prop :=
| js_op o j r j' : java_op o j = (r, j') -> java_step j j'
| js_mem j m : arena_in m -> java_next_ (j_mem j) <= java_next_ m -> java_step j (with_j_mem j m).

Lemma java_step_grows j j' : java_ok j -> java_step j j' -> java_ok j' /\ extends j j'.
Proof.
  intros Hj Hs. destruct Hs as [o j r j' E|j m Ha Hle]; [by eapply java_op_grows|].
  destruct Hj as [A B C D E]. split; split; cbn; eauto using same_identity_refl.
  intros h r Hr. specialize (B h r Hr). lia.
Qed.

Lemma java_star_grows j j' : java_ok j -> star java_step j j' -> java_ok j' /\ extends j j'.
Proof.
  intros Hj Hs. revert Hj. induction Hs as [j|j1 j2 j3 H1 _ IH]; intros Hj; [split; [done|apply extends_refl]|].
  destruct (java_step_grows _ _ Hj H1) as [Hj2 X1]. destruct (IH Hj2) as [Hj3 X2].
  split; [done|by eapply extends_trans].
Qed.

Lemma init_java_ok m : arena_in m -> java_ok (init_java m).
Proof.
  intros Hm. split; cbn; [done|..].
  - intros h r. by rewrite lookup_empty.
  - intros h h' [r Hr]. by rewrite lookup_empty in Hr.
  - intros n h. by rewrite lookup_empty.
  - intros k h. by rewrite lookup_empty.
Qed.
Lemma java_reachable m j : arena_in m -> star java_step (init_java m) j -> java_ok j.
Proof. intros Hm Hs. by destruct (java_star_grows _ _ (init_java_ok m Hm) Hs). Qed.

(** C28: in every reachable table a handle keeps the kind, name and owner it was
    created with in every later table; its shadow lies in the Java arena,
    below 2^32, so that the 32-bit reference stored for it is the handle
    itself; and the shadows of two handles never overlap. *)
Theorem handles_typed m j j' h r :
  arena_in m -> star java_step (init_java m) j -> star java_step j j' ->
  handles_ j !! h = Some r ->
  (exists r', handles_ j' !! h = Some r' /\ same_identity r r') /\
  kJavaBase <= h /\ h + kShadowSize <= kJavaEnd /\ u32 h = h /\
  (forall h2, is_Some (handles_ j' !! h2) -> h2 <> h -> h2 + kShadowSize <= h \/ h + kShadowSize <= h2).
Proof.
  intros Hm Hs Hs' Hr. pose proof (java_reachable m j Hm Hs) as Hj.
  destruct (java_star_grows j j' Hj Hs') as [Hj' X].
  destruct (ex_handles _ _ X _ _ Hr) as (r' & Hr' & I).
  destruct (jo_shadow _ Hj _ _ Hr) as (L1 & L2 & _).
  assert (kJavaBase <= h /\ h + kShadowSize <= kJavaEnd) as [B1 B2].
  { destruct (jo_arena _ Hj) as [E|[E _]]; unfold kShadowSize, kJavaBase in *; lia. }
  split; [by exists r'|]. split; [done|]. split; [done|]. split.
  { apply u32_id. unfold kJavaEnd, kJavaBase, kJavaSize, kShadowSize in *. lia. }
  intros h2 H2 Hne. destruct (Z.lt_total h2 h) as [?|[?|?]]; [left|done|right];
    apply (jo_apart _ Hj'); rewrite ?Hr'; eauto.
Qed.

(** [find_class] interns.  However much happens in between, two calls give the
    same handle exactly when they ask for the same name, and [class_name]
    reads the name back. *)
Lemma class_identity m j a h j1 j2 b h' j3 :
  arena_in m -> star java_step (init_java m) j ->
  find_class a j = (Ret h, j1) -> star java_step j1 j2 -> find_class b j2 = (Ret h', j3) ->
  (h = h' <-> a = b) /\ class_name j3 h = a /\ class_name j3 h' = b.
Proof.
  intros Hm Hs Ea Hs2 Eb. pose proof (java_reachable m j Hm Hs) as Hj.
  destruct (find_class_run _ _ _ _ Hj Ea) as (Hj1 & _ & Ca).
  destruct (java_star_grows _ _ Hj1 Hs2) as [Hj2 X2].
  destruct (find_class_run _ _ _ _ Hj2 Eb) as (Hj3 & X3 & Cb).
  specialize (Cb _ eq_refl). pose proof (ex_classes _ _ X3 _ _ (ex_classes _ _ X2 _ _ (Ca _ eq_refl))) as Ca3.
  destruct (jo_class _ Hj3 _ _ Ca3) as (ra & Ra & Ka & Na), (jo_class _ Hj3 _ _ Cb) as (rb & Rb & Kb & Nb).
  unfold class_name, get_kind, get_rec. rewrite Ra, Rb, Ka, Kb, !decide_True by done.
  split; [|done]. split; [intros <-; congruence|intros ->; congruence].
Qed.

(** *** Members *)

Definition no_bar (l : jstring) : Prop := 124 ∉ l.

Lemma bar_split (a a' r r' : jstring) :
  no_bar a -> no_bar a' -> a ++ 124 :: r = a' ++ 124 :: r' -> a = a' /\ r = r'.
Proof.
  unfold no_bar. revert a'. induction a as [|x a IH]; intros [|y a'] Ha Ha' E; cbn in E;
    injection E as E; rewrite ?elem_of_cons in *; subst; try tauto.
  destruct (IH a') as [-> ->]; tauto.
Qed.

Definition mark_of (fld : bool) : string := if fld then "F|" else "M|".
Definition member_id (fld : bool) : Z -> jstring -> jstring -> bool -> M J Z :=
  if fld then get_field_id else get_method_id.

Lemma member_key_inj o n s (st f : bool) o' n' s' (st' f' : bool) :
  no_bar o -> no_bar o' -> no_bar n -> no_bar n' ->
  member_key o (mark_of f) n s st = member_key o' (mark_of f') n' s' st' ->
  o = o' /\ n = n' /\ s = s' /\ st = st' /\ f = f'.
Proof.
  intros Ho Ho' Hn Hn'. unfold member_key, mark_of. intros E.
  assert (forall (b g : bool) (nm sg : jstring),
    bs "|" ++ (if b then bs "S" else bs "v") ++ bs (if g then "F|" else "M|") ++ nm ++ bs "|" ++ sg
    = 124 :: (if b then 83 else 118) :: (if g then 70 else 77) :: 124 :: nm ++ 124 :: sg) as Hk
    by (intros [] []; reflexivity).
  rewrite !Hk in E. apply bar_split in E as [-> E]; [|done..].
  injection E as E1 E2 E. apply bar_split in E as [-> ->]; [|done..].
  split; [done|]. split; [done|]. split; [done|]. by destruct st, st', f, f'.
Qed.

Lemma member_id_run f c n s st j o j' :
  java_ok j -> member_id f c n s st j = (o, j') ->
  java_ok j' /\ extends j j' /\
  forall h, o = Ret h -> member_cache_ j' !! member_key (class_name j c) (mark_of f) n s st = Some h.
Proof. intros Hj. destruct f; (apply get_member_run; [|done]); auto. Qed.

Lemma member_of_inj k k' r : member_of k r -> member_of k' r -> k = k'.
Proof. intros [[K ->]|[K ->]] [[K' ->]|[K' ->]]; congruence. Qed.

(** Member identifiers intern as well.  Two calls of [get_method_id] or [get_field_id], at
    any two moments, return the same handle exactly when both are of the same
    kind and agree on the class name, the member name, the signature and on
    being static.  The names must not contain the separator of the cache key, [|]. *)
Lemma member_identity m j f c n s st h j1 j2 f' c' n' s' st' h' j3 :
  arena_in m -> star java_step (init_java m) j ->
  member_id f c n s st j = (Ret h, j1) -> star java_step j1 j2 ->
  member_id f' c' n' s' st' j2 = (Ret h', j3) ->
  no_bar (class_name j c) -> no_bar (class_name j2 c') -> no_bar n -> no_bar n' ->
  (h = h' <-> f = f' /\ class_name j c = class_name j2 c' /\ n = n' /\ s = s' /\ st = st').
Proof.
  intros Hm Hs Ea Hs2 Eb B1 B2 B3 B4. pose proof (java_reachable m j Hm Hs) as Hj.
  destruct (member_id_run _ _ _ _ _ _ _ _ Hj Ea) as (Hj1 & _ & Ca).
  destruct (java_star_grows _ _ Hj1 Hs2) as [Hj2 X2].
  destruct (member_id_run _ _ _ _ _ _ _ _ Hj2 Eb) as (Hj3 & X3 & Cb).
  specialize (Cb _ eq_refl).
  pose proof (ex_members _ _ X3 _ _ (ex_members _ _ X2 _ _ (Ca _ eq_refl))) as Ca3.
  split; [|intros (-> & Eo & -> & -> & ->); rewrite Eo in Ca3; congruence]. intros <-.
  destruct (jo_member _ Hj3 _ _ Ca3) as (r & R & Ma), (jo_member _ Hj3 _ _ Cb) as (r' & R' & Mb).
  replace r' with r in Mb by congruence. pose proof (member_of_inj _ _ _ Ma Mb) as Ek.
  apply member_key_inj in Ek as (? & ? & ? & ? & ?); done.
Qed.

(** *** Subclasses *)

(** [c] has [sup] [n] steps up its chain. *)
Inductive ancestor (supers : gmap (list Z) (list Z)) : nat -> jstring -> jstring -> Prop :=
| anc_self c : c <> [] -> ancestor supers 0 c c
| anc_up n c c' sup : c <> [] -> supers !! c = Some c' -> ancestor supers n c' sup ->
    ancestor supers (S n) c sup.

Lemma chain_reaches_spec k supers c sup :
  chain_reaches k supers c sup = true <-> exists n, (n < k)%nat /\ ancestor supers n c sup.
Proof.
  revert c. induction k as [|k IH]; intros c; cbn; [split; [done|intros (n & ? & _); lia]|].
  case_bool_decide as E1.
  { split; [done|]. intros (n & _ & A). by destruct A. }
  case_bool_decide as E2.
  { split; [|done]. intros _. subst c. exists O. split; [lia|by constructor]. }
  destruct (supers !! c) as [c'|] eqn:Ec.
  - rewrite IH. split.
    + intros (n & ? & A). exists (S n). split; [lia|by econstructor].
    + intros (n & ? & A). destruct A as [|n c0 c2 sup ? Ec' A]; [done|].
      exists n. split; [lia|]. congruence.
  - split; [done|]. intros (n & _ & A). destruct A; congruence.
Qed.

(** [is_subclass]: the class itself, anything below [Object], or an ancestor
    fewer than 64 steps up; a cycle in the table is harmless. *)
Lemma is_subclass_spec j sub sup :
  is_subclass (U := U) (HM := HM) j sub sup = true <->
  sub = sup \/ sup = bs "java/lang/Object" \/
  exists n, (n < 64)%nat /\ ancestor (superclass_ j) n sub sup.
Proof.
  unfold is_subclass. case_bool_decide as E1; cbn [orb]; [tauto|].
  case_bool_decide as E2; [tauto|]. rewrite chain_reaches_spec. tauto.
Qed.

(** *** Registered natives *)

Definition is_native (cls name : jstring) (n : Native) : bool :=
  bool_decide (n_cls n = cls) && named name n.

Lemma find_app {A} (f : A -> bool) l x :
  List.find f (l ++ [x]) = match List.find f l with Some y => Some y | None => if f x then Some x else None end.
Proof. induction l as [|a l IH]; cbn; [done|]. by destruct (f a). Qed.

Lemma get_member_natives k mark c n s st j o j' :
  get_member (U := U) (HM := HM) k mark c n s st j = (o, j') -> registered_ j' = registered_ j.
Proof.
  unfold get_member. rewrite bind_get. case_match; [by intros [= _ <-]|].
  unfold alloc, on_mem, modify, mbind, M_mbind, M_bind.
  destruct (java_alloc _ _ _) as [[p|e|] m']; by intros [= _ <-].
Qed.

(** What [register_native] makes of a lookup of the same method: an
    implementation registered before stays the answer. *)
Lemma lookup_after_register c n s fn j j' :
  register_native (U := U) (HM := HM) c n s fn j = (Ret tt, j') -> java_ok j ->
  lookup_native j' (class_name j' c) n =
  match List.find (is_native (class_name j' c) n) (registered_ j) with Some old => n_fn old | None => fn end.
Proof.
  intros E Hj. unfold register_native, mbind, M_mbind, M_bind in E.
  destruct (get_method_id c n s false j) as [o j1] eqn:Em. destruct o as [mid|e|]; [|done..].
  unfold get in E. cbn beta iota in E. unfold get_rec in E.
  destruct (handles_ j1 !! mid) as [r|] eqn:Er; [|done]. injection E as <-.
  assert (registered_ j1 = registered_ j) as Hreg.
  { by eapply get_member_natives. }
  assert (class_name (with_registered (registered_ j1 ++ [mkNative (class_name j1 c) n s fn])
            (with_handles (<[mid := mkRecord (kind r) (rname r) (rsig r) (owner r) (utf8 r) (is_static r) fn
               (fields r) (jbytes r) (elems r)]> (handles_ j1)) j1)) c = class_name j1 c) as Hc.
  { unfold class_name, get_kind, get_rec. cbn. destruct (decide (c = mid)) as [->|];
      [rewrite lookup_insert_eq, Er|by rewrite lookup_insert_ne]. cbn. by case_decide. }
  rewrite Hc. unfold lookup_native. cbn [registered_ with_registered]. rewrite find_app, Hreg.
  fold (is_native (class_name j1 c) n). destruct (List.find _ _); [done|].
  unfold is_native, named. cbn. by rewrite !bool_decide_eq_true_2.
Qed.
End JavaFacts.

(** ** Concrete tables *)

#[local] Abbreviation J0 := (JavaRuntime RefUc unit).
Definition demo_java0 : J0 := init_java demo_mem0.
Definition demo_java1 : J0 := snd (java_op (OFindClass (bs "a/B")) demo_java0).
Definition demo_java : J0 :=
  snd (java_op (OGetMethod kJavaBase (bs "run") (bs "()V") false) demo_java1).

Lemma demo_arena : arena_in demo_mem0.
Proof. left. reflexivity. Qed.
Lemma js_run o (j : J0) : java_step j (snd (java_op o j)).
Proof. apply (js_op o j (fst (java_op o j))), surjective_pairing. Qed.
Lemma demo_java_reached : star java_step demo_java0 demo_java.
Proof. eapply star_step; [|apply star_one]; apply js_run. Qed.

Lemma handles_typed_witness :
  u32 (kJavaBase + 0x80) = kJavaBase + 0x80 /\
  (exists r', handles_ (snd (find_class (bs "x") demo_java)) !! (kJavaBase + 0x80) = Some r' /\
     kind r' = RMethod).
Proof.
  destruct (handles_typed demo_mem0 demo_java (snd (java_op (OFindClass (bs "x")) demo_java)) (kJavaBase + 0x80)
    (mkRecord RMethod (bs "run") (bs "()V") (bs "a/B") [] false 0 ∅ [] []))
    as ((r' & Hr & I) & _ & _ & E & _).
  - exact demo_arena.
  - exact demo_java_reached.
  - apply star_one, js_run.
  - vm_compute. reflexivity.
  - split; [exact E|]. exists r'. split; [|by destruct I].
    rewrite <- Hr. vm_compute. reflexivity.
Defined.

Lemma class_identity_witness :
  (kJavaBase = kJavaBase + 0x100 <-> bs "a/B" = bs "a/C") /\
  class_name (snd (find_class (bs "a/C") demo_java)) kJavaBase = bs "a/B" /\
  class_name (snd (find_class (bs "a/C") demo_java)) (kJavaBase + 0x100) = bs "a/C".
Proof.
  apply (class_identity demo_mem0 demo_java0 (bs "a/B") kJavaBase demo_java1 demo_java
           (bs "a/C") (kJavaBase + 0x100)).
  - exact demo_arena.
  - constructor.
  - vm_compute. reflexivity.
  - apply star_one, js_run.
  - vm_compute. reflexivity.
Defined.

Lemma member_identity_witness :
  kJavaBase + 0x80 = kJavaBase + 0x100 <->
  false = true /\ class_name demo_java kJavaBase = class_name demo_java kJavaBase /\
  bs "run" = bs "run" /\ bs "()V" = bs "()V" /\ false = false.
Proof.
  apply (member_identity demo_mem0 demo_java false kJavaBase (bs "run") (bs "()V") false (kJavaBase + 0x80)
           demo_java demo_java true kJavaBase (bs "run") (bs "()V") false (kJavaBase + 0x100)
           (snd (get_field_id kJavaBase (bs "run") (bs "()V") false demo_java))).
  - exact demo_arena.
  - exact demo_java_reached.
  - vm_compute. reflexivity.
  - constructor.
  - vm_compute. reflexivity.
  - apply (bool_decide_unpack (no_bar _)). vm_compute. exact I.
  - apply (bool_decide_unpack (no_bar _)). vm_compute. exact I.
  - apply (bool_decide_unpack (no_bar _)). vm_compute. exact I.
  - apply (bool_decide_unpack (no_bar _)). vm_compute. exact I.
Defined.

(** A class whose name carries the separator shares member identifiers with
    another class. *)
Example member_key_ambiguous :
  member_key (bs "a|vM|b") "M|" (bs "c") (bs "d") false = member_key (bs "a") "M|" (bs "b") (bs "vM|c|d") false.
Proof. reflexivity. Qed.

(** Registering a method again changes its record but not what
    [lookup_native] answers: the first function stays. *)
Example stale_native :
  let j := snd (java_op (ORegisterNative kJavaBase (bs "run") (bs "()V") 0x2000)
                 (snd (java_op (ORegisterNative kJavaBase (bs "run") (bs "()V") 0x1000) demo_java))) in
  lookup_native j (bs "a/B") (bs "run") = 0x1000 /\
  native_fn <$> get_rec j (kJavaBase + 0x80) = Some 0x2000.
Proof. vm_compute. done. Qed.

(** The fallback is blind to signatures: two overloads of one name leave a
    lookup under another class without an answer. *)
Example overloads_hide_native :
  let j := snd (java_op (ORegisterNative kJavaBase (bs "run") (bs "(I)V") 0x2000)
                 (snd (java_op (ORegisterNative kJavaBase (bs "run") (bs "()V") 0x1000) demo_java))) in
  lookup_native j (bs "x/Y") (bs "run") = 0.
Proof. vm_compute. done. Qed.
