(* ===== verification/Jni.v ===== *)
(** The JNI bridge: [core/jni/jni.cpp], [include/vardoger/jni/jni.hpp].

    A [JNIEnv*] points to a pointer to a table of function pointers in guest
    memory; every slot is a trampoline stub.  A handler is named by a
    constructor of [JniFn] and its body is the branch of [jni_run] for it, so
    that a table of handlers is a value; [as_fn] injects it into the handlers
    of the trampoline page, which other components share.

    The bridge works on one emulator, reached through the memory of the Java
    table.  The host implementations of Java methods are the parameters of
    [call_method]; what [notify_bytes] hands to the client's observer is
    recorded in [notified].  Logging is dropped; [evade] is false when
    VARDOGER_NO_TAMPER_EVASION is set. *)

From stdpp Require Import pretty.
From S2P Require Import Prelude.
From S2P Require Import Words.
From S2P Require Import Abi.
From S2P Require Import Unicorn.
From S2P Require Import Engine.
From S2P Require Import Memory.
From S2P Require Import Trampoline.
From S2P Require Import JavaRuntime.
#[local] Open Scope Z_scope.

Definition kJniVersion16 : Z := 0x00010006.
Definition kJniEnvReserved : nat := 4.
Definition kJavaVmReserved : nat := 3.
Definition kJniEnvSlots : list string := [
    "GetVersion"; "DefineClass"; "FindClass"; "FromReflectedMethod"; "FromReflectedField";
    "ToReflectedMethod"; "GetSuperclass"; "IsAssignableFrom"; "ToReflectedField"; "Throw";
    "ThrowNew"; "ExceptionOccurred"; "ExceptionDescribe"; "ExceptionClear"; "FatalError";
    "PushLocalFrame"; "PopLocalFrame"; "NewGlobalRef"; "DeleteGlobalRef"; "DeleteLocalRef";
    "IsSameObject"; "NewLocalRef"; "EnsureLocalCapacity"; "AllocObject"; "NewObject";
    "NewObjectV"; "NewObjectA"; "GetObjectClass"; "IsInstanceOf"; "GetMethodID";
    "CallObjectMethod"; "CallObjectMethodV"; "CallObjectMethodA"; "CallBooleanMethod";
    "CallBooleanMethodV"; "CallBooleanMethodA"; "CallByteMethod"; "CallByteMethodV";
    "CallByteMethodA"; "CallCharMethod"; "CallCharMethodV"; "CallCharMethodA"; "CallShortMethod";
    "CallShortMethodV"; "CallShortMethodA"; "CallIntMethod"; "CallIntMethodV"; "CallIntMethodA";
    "CallLongMethod"; "CallLongMethodV"; "CallLongMethodA"; "CallFloatMethod"; "CallFloatMethodV";
    "CallFloatMethodA"; "CallDoubleMethod"; "CallDoubleMethodV"; "CallDoubleMethodA";
    "CallVoidMethod"; "CallVoidMethodV"; "CallVoidMethodA"; "CallNonvirtualObjectMethod";
    "CallNonvirtualObjectMethodV"; "CallNonvirtualObjectMethodA"; "CallNonvirtualBooleanMethod";
    "CallNonvirtualBooleanMethodV"; "CallNonvirtualBooleanMethodA"; "CallNonvirtualByteMethod";
    "CallNonvirtualByteMethodV"; "CallNonvirtualByteMethodA"; "CallNonvirtualCharMethod";
    "CallNonvirtualCharMethodV"; "CallNonvirtualCharMethodA"; "CallNonvirtualShortMethod";
    "CallNonvirtualShortMethodV"; "CallNonvirtualShortMethodA"; "CallNonvirtualIntMethod";
    "CallNonvirtualIntMethodV"; "CallNonvirtualIntMethodA"; "CallNonvirtualLongMethod";
    "CallNonvirtualLongMethodV"; "CallNonvirtualLongMethodA"; "CallNonvirtualFloatMethod";
    "CallNonvirtualFloatMethodV"; "CallNonvirtualFloatMethodA"; "CallNonvirtualDoubleMethod";
    "CallNonvirtualDoubleMethodV"; "CallNonvirtualDoubleMethodA"; "CallNonvirtualVoidMethod";
    "CallNonvirtualVoidMethodV"; "CallNonvirtualVoidMethodA"; "GetFieldID"; "GetObjectField";
    "GetBooleanField"; "GetByteField"; "GetCharField"; "GetShortField"; "GetIntField";
    "GetLongField"; "GetFloatField"; "GetDoubleField"; "SetObjectField"; "SetBooleanField";
    "SetByteField"; "SetCharField"; "SetShortField"; "SetIntField"; "SetLongField";
    "SetFloatField"; "SetDoubleField"; "GetStaticMethodID"; "CallStaticObjectMethod";
    "CallStaticObjectMethodV"; "CallStaticObjectMethodA"; "CallStaticBooleanMethod";
    "CallStaticBooleanMethodV"; "CallStaticBooleanMethodA"; "CallStaticByteMethod";
    "CallStaticByteMethodV"; "CallStaticByteMethodA"; "CallStaticCharMethod";
    "CallStaticCharMethodV"; "CallStaticCharMethodA"; "CallStaticShortMethod";
    "CallStaticShortMethodV"; "CallStaticShortMethodA"; "CallStaticIntMethod";
    "CallStaticIntMethodV"; "CallStaticIntMethodA"; "CallStaticLongMethod";
    "CallStaticLongMethodV"; "CallStaticLongMethodA"; "CallStaticFloatMethod";
    "CallStaticFloatMethodV"; "CallStaticFloatMethodA"; "CallStaticDoubleMethod";
    "CallStaticDoubleMethodV"; "CallStaticDoubleMethodA"; "CallStaticVoidMethod";
    "CallStaticVoidMethodV"; "CallStaticVoidMethodA"; "GetStaticFieldID"; "GetStaticObjectField";
    "GetStaticBooleanField"; "GetStaticByteField"; "GetStaticCharField"; "GetStaticShortField";
    "GetStaticIntField"; "GetStaticLongField"; "GetStaticFloatField"; "GetStaticDoubleField";
    "SetStaticObjectField"; "SetStaticBooleanField"; "SetStaticByteField"; "SetStaticCharField";
    "SetStaticShortField"; "SetStaticIntField"; "SetStaticLongField"; "SetStaticFloatField";
    "SetStaticDoubleField"; "NewString"; "GetStringLength"; "GetStringChars";
    "ReleaseStringChars"; "NewStringUTF"; "GetStringUTFLength"; "GetStringUTFChars";
    "ReleaseStringUTFChars"; "GetArrayLength"; "NewObjectArray"; "GetObjectArrayElement";
    "SetObjectArrayElement"; "NewBooleanArray"; "NewByteArray"; "NewCharArray"; "NewShortArray";
    "NewIntArray"; "NewLongArray"; "NewFloatArray"; "NewDoubleArray"; "GetBooleanArrayElements";
    "GetByteArrayElements"; "GetCharArrayElements"; "GetShortArrayElements";
    "GetIntArrayElements"; "GetLongArrayElements"; "GetFloatArrayElements";
    "GetDoubleArrayElements"; "ReleaseBooleanArrayElements"; "ReleaseByteArrayElements";
    "ReleaseCharArrayElements"; "ReleaseShortArrayElements"; "ReleaseIntArrayElements";
    "ReleaseLongArrayElements"; "ReleaseFloatArrayElements"; "ReleaseDoubleArrayElements";
    "GetBooleanArrayRegion"; "GetByteArrayRegion"; "GetCharArrayRegion"; "GetShortArrayRegion";
    "GetIntArrayRegion"; "GetLongArrayRegion"; "GetFloatArrayRegion"; "GetDoubleArrayRegion";
    "SetBooleanArrayRegion"; "SetByteArrayRegion"; "SetCharArrayRegion"; "SetShortArrayRegion";
    "SetIntArrayRegion"; "SetLongArrayRegion"; "SetFloatArrayRegion"; "SetDoubleArrayRegion";
    "RegisterNatives"; "UnregisterNatives"; "MonitorEnter"; "MonitorExit"; "GetJavaVM";
    "GetStringRegion"; "GetStringUTFRegion"; "GetPrimitiveArrayCritical";
    "ReleasePrimitiveArrayCritical"; "GetStringCritical"; "ReleaseStringCritical";
    "NewWeakGlobalRef"; "DeleteWeakGlobalRef"; "ExceptionCheck"; "NewDirectByteBuffer";
    "GetDirectBufferAddress"; "GetDirectBufferCapacity"; "GetObjectRefType"]%string.
Definition kJavaVmSlots : list string := [
    "DestroyJavaVM"; "AttachCurrentThread"; "DetachCurrentThread"; "GetEnv";
    "AttachCurrentThreadAsDaemon"]%string.


(** The first position of a name in a list of slots. *)
Fixpoint slot_index (l : list string) (name : string) : option nat :=
  match l with
  | [] => None
  | x :: r => if bool_decide (name = x) then Some O else S <$> slot_index r name
  end.
Definition env_index (name : string) : outcome nat :=
  match slot_index kJniEnvSlots name with
  | Some i => Ret (kJniEnvReserved + i)%nat
  | None => Throw ("JNI: unknown JNIEnv slot '" +:+ name +:+ "'")
  end.
Definition vm_index (name : string) : outcome nat :=
  match slot_index kJavaVmSlots name with
  | Some i => Ret (kJavaVmReserved + i)%nat
  | None => Throw ("JNI: unknown JavaVM slot '" +:+ name +:+ "'")
  end.

(** *** Method descriptors *)

(** What is left from the first character satisfying [stop]. *)
Fixpoint skip_until (stop : Z -> bool) (l : list Z) : list Z :=
  match l with [] => [] | c :: r => if stop c then l else skip_until stop r end.

(** The arguments of a descriptor from just after its parenthesis, object or
    not; [n] bounds the characters left. *)
Fixpoint arg_objects (n : nat) (l : list Z) : list bool :=
  match n with
  | O => []
  | S k =>
      match l with
      | [] => []
      | c :: r =>
          if c =? 41 then []
          else if c =? 91 then
            true :: arg_objects k
              (match skip_until (fun x => negb (x =? 91)) l with
               | [] => []
               | d :: r' => if d =? 76 then drop 1 (skip_until (fun x => x =? 59) (d :: r')) else r'
               end)
          else if c =? 76 then true :: arg_objects k (drop 1 (skip_until (fun x => x =? 59) l))
          else false :: arg_objects k r
      end
  end.
Definition parse_arg_objects (sig : list Z) : list bool :=
  match skip_until (fun x => x =? 40) sig with
  | [] => []
  | _ :: r => arg_objects (length r) r
  end.

(** *** Handlers *)

Inductive RetKind := RetObj | RetInt | RetVoid.

Inductive JniFn :=
| JUnimplemented (name : string)
| JGetVersion | JGetJavaVM | JFindClass | JDefineClass
| JGetMethodID (is_static : bool) | JGetFieldID (is_static : bool) | JRegisterNatives
| JNewStringUTF | JGetStringUTFChars | JNothing | JGetStringUTFLength | JRetZero
| JEcho | JExceptionCheck | JExceptionOccurred | JExceptionClear
| JIsSameObject | JGetObjectClass | JIsInstanceOf | JIsAssignableFrom | JGetSuperclass
| JNewDirectByteBuffer | JGetDirectBufferAddress | JGetDirectBufferCapacity | JNewObjectV
| JCall (is_static : bool) (rk : RetKind) | JCallV (is_static : bool) (rk : RetKind)
| JNonvirtualV (rk : RetKind)
| JGetObjectField | JGetIntField | JSetObjectField | JSetIntField
| JGetStaticObjectField | JGetStaticIntField
| JGetArrayLength | JNewByteArray | JGetObjectArrayElement | JNewObjectArray
| JSetObjectArrayElement | JGetByteArrayRegion | JSetByteArrayRegion
| JGetArrayElements (empty : Z) | JReleaseLongArrayElements | JReleaseByteArrayElements
| JNewObject | JGetEnv.

Definition env_handlers : list (string * JniFn) := [
  ("GetVersion", JGetVersion); ("GetJavaVM", JGetJavaVM); ("FindClass", JFindClass);
  ("DefineClass", JDefineClass); ("GetMethodID", JGetMethodID false);
  ("GetStaticMethodID", JGetMethodID true); ("GetFieldID", JGetFieldID false);
  ("GetStaticFieldID", JGetFieldID true); ("RegisterNatives", JRegisterNatives);
  ("NewStringUTF", JNewStringUTF); ("GetStringUTFChars", JGetStringUTFChars);
  ("ReleaseStringUTFChars", JNothing); ("GetStringUTFLength", JGetStringUTFLength);
  ("PushLocalFrame", JRetZero); ("PopLocalFrame", JEcho); ("ExceptionCheck", JExceptionCheck);
  ("ExceptionOccurred", JExceptionOccurred); ("ExceptionClear", JExceptionClear);
  ("NewGlobalRef", JEcho); ("NewLocalRef", JEcho); ("DeleteGlobalRef", JNothing);
  ("DeleteLocalRef", JNothing); ("IsSameObject", JIsSameObject);
  ("GetObjectClass", JGetObjectClass); ("IsInstanceOf", JIsInstanceOf);
  ("IsAssignableFrom", JIsAssignableFrom); ("GetSuperclass", JGetSuperclass);
  ("NewDirectByteBuffer", JNewDirectByteBuffer);
  ("GetDirectBufferAddress", JGetDirectBufferAddress);
  ("GetDirectBufferCapacity", JGetDirectBufferCapacity); ("NewObjectV", JNewObjectV);
  ("CallObjectMethod", JCall false RetObj); ("CallIntMethod", JCall false RetInt);
  ("CallBooleanMethod", JCall false RetInt); ("CallVoidMethod", JCall false RetVoid);
  ("CallStaticObjectMethod", JCall true RetObj); ("CallStaticIntMethod", JCall true RetInt);
  ("CallStaticBooleanMethod", JCall true RetInt);
  ("CallObjectMethodV", JCallV false RetObj); ("CallIntMethodV", JCallV false RetInt);
  ("CallBooleanMethodV", JCallV false RetInt); ("CallVoidMethodV", JCallV false RetVoid);
  ("CallStaticObjectMethodV", JCallV true RetObj); ("CallStaticIntMethodV", JCallV true RetInt);
  ("CallStaticBooleanMethodV", JCallV true RetInt); ("CallStaticVoidMethodV", JCallV true RetVoid);
  ("CallLongMethod", JCall false RetInt); ("CallLongMethodV", JCallV false RetInt);
  ("CallStaticLongMethod", JCall true RetInt); ("CallStaticLongMethodV", JCallV true RetInt);
  ("CallNonvirtualObjectMethodV", JNonvirtualV RetObj);
  ("CallNonvirtualIntMethodV", JNonvirtualV RetInt);
  ("CallNonvirtualBooleanMethodV", JNonvirtualV RetInt);
  ("CallNonvirtualLongMethodV", JNonvirtualV RetInt);
  ("CallNonvirtualVoidMethodV", JNonvirtualV RetVoid);
  ("GetObjectField", JGetObjectField); ("GetIntField", JGetIntField);
  ("SetObjectField", JSetObjectField); ("SetIntField", JSetIntField);
  ("GetStaticObjectField", JGetStaticObjectField); ("GetStaticIntField", JGetStaticIntField);
  ("GetStaticBooleanField", JGetStaticIntField);
  ("GetArrayLength", JGetArrayLength); ("NewByteArray", JNewByteArray);
  ("GetObjectArrayElement", JGetObjectArrayElement); ("NewObjectArray", JNewObjectArray);
  ("SetObjectArrayElement", JSetObjectArrayElement); ("GetByteArrayRegion", JGetByteArrayRegion);
  ("SetByteArrayRegion", JSetByteArrayRegion); ("GetByteArrayElements", JGetArrayElements 1);
  ("GetLongArrayElements", JGetArrayElements 8);
  ("ReleaseLongArrayElements", JReleaseLongArrayElements);
  ("ReleaseByteArrayElements", JReleaseByteArrayElements); ("NewObject", JNewObject)]%string.
Definition vm_handlers : list (string * JniFn) := [
  ("GetEnv", JGetEnv); ("AttachCurrentThread", JGetEnv); ("AttachCurrentThreadAsDaemon", JGetEnv);
  ("DetachCurrentThread", JRetZero); ("DestroyJavaVM", JRetZero)]%string.

Definition kTamperClasses : list string := [
    "apksignaturekiller"; "xposed"; "/substrate"; "saurik"; "frida"; "lsposed"; "edxposed";
    "taichi"; "VirtualApp"; "sandhook"; "SandHook"; "/whale"; "dexposed"; "io/va/"; "andhook";
    "AndHook"; "/epic"; "/hooka"; "Cydia"; "Xposed"; "/windy/"; "FuckSign"; "np/manager";
    "hookzz"; "/magisk"; "Magisk"; "zygisk"; "youlor"; "Unpacker"; "fupk"; "FUPK"; "ZjDroid";
    "zjdroid"; "fart"; "Fart"; "/dumpDex"; "cn/mik"; "Fartext"; "mikrom"; "MikRom"; "/mik/"]%string.

(** [s.find(needle) != npos] *)
Fixpoint has_sub (needle l : list Z) : bool :=
  bool_decide (take (length needle) l = needle) ||
  match l with [] => false | _ :: r => has_sub needle r end.

Definition is_tamper_class (name : list Z) : bool := existsb (fun bad => has_sub (bs bad) name) kTamperClasses.

Record JniBridge (U HM H : Type) := mkJni {
  jb_java : JavaRuntime U HM;
  jb_base : Z;
  jb_next : Z;
  jb_handlers : list (string * H);
  env_ : Z;
  env_table_ : Z;
  vm_ : Z;
  vm_table_ : Z;
  notified : list (list Z * list Z);
}.
Arguments mkJni {U HM H}. Arguments jb_java {U HM H}. Arguments jb_base {U HM H}.
Arguments jb_next {U HM H}. Arguments jb_handlers {U HM H}. Arguments env_ {U HM H}.
Arguments env_table_ {U HM H}. Arguments vm_ {U HM H}. Arguments vm_table_ {U HM H}.
Arguments notified {U HM H}.

Section Jni.
Context {U HM H : Type} `{UcOps U}.
#[local] Abbreviation J := (JavaRuntime U HM).
#[local] Abbreviation B := (JniBridge U HM H).
Variable abi : Abi.
Variables tight evade : bool.
Variable as_fn : JniFn -> H.
Variable observe : jstring -> jstring -> jstring -> list DvmValue -> bool -> M J unit.
Variable run_host : HM -> Z -> list DvmValue -> M J DvmValue.

Definition init_jni (j : J) (base next : Z) (hs : list (string * H)) : B :=
  mkJni j base next hs 0 0 0 0 [].

Definition with_java (b : B) (j : J) : B :=
  mkJni j (jb_base b) (jb_next b) (jb_handlers b) (env_ b) (env_table_ b) (vm_ b) (vm_table_ b) (notified b).
Definition on_java {A} (op : M J A) : M B A := fun b =>
  let '(r, j) := op (jb_java b) in (r, with_java b j).
Definition on_memory {A} (op : M (Memory U) A) : M B A := on_java (on_mem op).
Definition on_engine {A} (op : M U A) : M B A := on_memory (uc_do op).
Definition on_tramp {A} (op : M (Trampoline U H) A) : M B A := fun b =>
  let m := j_mem (jb_java b) in
  let '(r, t) := op (mkTrampoline (m_uc m) (jb_base b) (jb_next b) (jb_handlers b)) in
  (r, mkJni (with_j_mem (jb_java b) (with_m_uc m (tr_uc t))) (base_ t) (next_ t) (handlers_ t)
            (env_ b) (env_table_ b) (vm_ b) (vm_table_ b) (notified b)).
Definition set_env_table (a : Z) : M B unit := modify (fun b =>
  mkJni (jb_java b) (jb_base b) (jb_next b) (jb_handlers b) (env_ b) a (vm_ b) (vm_table_ b) (notified b)).
Definition set_env_ptr (a : Z) : M B unit := modify (fun b =>
  mkJni (jb_java b) (jb_base b) (jb_next b) (jb_handlers b) a (env_table_ b) (vm_ b) (vm_table_ b) (notified b)).
Definition set_vm_table (a : Z) : M B unit := modify (fun b =>
  mkJni (jb_java b) (jb_base b) (jb_next b) (jb_handlers b) (env_ b) (env_table_ b) (vm_ b) a (notified b)).
Definition set_vm_ptr (a : Z) : M B unit := modify (fun b =>
  mkJni (jb_java b) (jb_base b) (jb_next b) (jb_handlers b) (env_ b) (env_table_ b) a (vm_table_ b) (notified b)).
Definition notify_bytes (l src : list Z) : M B unit := modify (fun b =>
  mkJni (jb_java b) (jb_base b) (jb_next b) (jb_handlers b) (env_ b) (env_table_ b) (vm_ b) (vm_table_ b)
        (notified b ++ [(l, src)])).

(** *** Building the tables *)

Definition psz : Z := kPointerSize abi.
Definition write_ptr (addr v : Z) : M B unit :=
  on_engine (if psz =? 8 then write_t 8 (u64 addr) v else write_t 4 (u64 addr) (u32 v)).
Definition read_ptr (addr : Z) : M B Z :=
  on_engine (if psz =? 8 then read_t 8 (u64 addr) else read_t 4 (u64 addr)).

Definition slot_names (reserved : nat) (l : list string) : list string :=
  ((fun i => "reserved" +:+ pretty i) <$> seq 0 reserved) ++ l.

(** The default stubs of a table, from slot [i] on. *)
Fixpoint fill_table (owner : string) (table : Z) (i : nat) (names : list string) : M B unit :=
  match names with
  | [] => skip
  | nm :: r =>
      stub ← on_tramp (Trampoline.alloc abi (owner +:+ "::" +:+ nm) (as_fn (JUnimplemented nm)));
      _ ← write_ptr (table + Z.of_nat i * psz) stub;
      fill_table owner table (S i) r
  end.

(** [set_env] and [set_vm]: the stub is allocated before the name is looked up. *)
Definition set_slot (owner : string) (index : string -> outcome nat) (table : Z)
    (name : string) (h : JniFn) : M B unit :=
  stub ← on_tramp (Trampoline.alloc abi (owner +:+ "::" +:+ name) (as_fn h));
  i ← lift (index name);
  write_ptr (table + Z.of_nat i * psz) stub.
Fixpoint install (owner : string) (index : string -> outcome nat) (table : Z)
    (l : list (string * JniFn)) : M B unit :=
  match l with
  | [] => skip
  | (name, h) :: r => _ ← set_slot owner index table name h; install owner index table r
  end.

Definition build_env : M B unit :=
  let names := slot_names kJniEnvReserved kJniEnvSlots in
  t ← on_memory (java_alloc (zlen names * psz) 16);
  _ ← set_env_table t;
  _ ← fill_table "JNIEnv" t 0 names;
  e ← on_memory (java_alloc psz 16);
  _ ← set_env_ptr e;
  _ ← write_ptr e t;
  install "JNIEnv" env_index t env_handlers.
Definition build_vm : M B unit :=
  let names := slot_names kJavaVmReserved kJavaVmSlots in
  t ← on_memory (java_alloc (zlen names * psz) 16);
  _ ← set_vm_table t;
  _ ← fill_table "JavaVM" t 0 names;
  v ← on_memory (java_alloc psz 16);
  _ ← set_vm_ptr v;
  _ ← write_ptr v t;
  install "JavaVM" vm_index t vm_handlers.
Definition build : M B Z := _ ← build_env; _ ← build_vm; gets vm_.

(** *** Arguments *)

(** The next [n] integer arguments and the reader after them. *)
Fixpoint take_ints (n : nat) (a : Args) : M U (list Z * Args) :=
  match n with
  | O => mret ([], a)
  | S k => x ← next_int abi a; r ← take_ints k (snd x); mret (fst x :: fst r, snd r)
  end.
Definition ints (n : nat) : M B (list Z * Args) := on_engine (take_ints n args_init).
Definition arg (l : list Z * Args) (i : nat) : Z := default 0 (fst l !! i).
Definition ret0 (v : Z) : M B unit := on_engine (write_reg abi Ret0 v).
Definition cstr (p : Z) : M B (list Z) := b ← get; mret (read_cstr p 4096 (m_uc (j_mem (jb_java b)))).
Definition java : M B J := gets jb_java.
Definition e_write_at (a : Z) (l : list Z) : M B unit := on_engine (e_write a l).

(** The AArch64 [va_list]; on arm32 it is the cursor [stack]. *)
Record VaList := mkVaList { va_stack : Z; gr_top : Z; vr_top : Z; gr_offs : Z; vr_offs : Z }.
Definition valist_next_int (v : VaList) : M U (Z * VaList) :=
  if decide (abi = Arm32) then
    x ← read_t 4 (va_stack v);
    mret (x, mkVaList (u64 (va_stack v + 4)) (gr_top v) (vr_top v) (gr_offs v) (vr_offs v))
  else if gr_offs v <? 0 then
    x ← read_t 8 (u64 (gr_top v + gr_offs v));
    mret (x, mkVaList (va_stack v) (gr_top v) (vr_top v) (gr_offs v + 8) (vr_offs v))
  else
    x ← read_t 8 (va_stack v);
    mret (x, mkVaList (u64 (va_stack v + 8)) (gr_top v) (vr_top v) (gr_offs v) (vr_offs v)).
Definition read_valist (vap : Z) : M U VaList :=
  if decide (abi = Arm32) then mret (mkVaList vap 0 0 0 0) else
  s ← read_t 8 (u64 (vap + 0));
  g ← read_t 8 (u64 (vap + 8));
  w ← read_t 8 (u64 (vap + 16));
  go ← read_t 4 (u64 (vap + 24));
  vo ← read_t 4 (u64 (vap + 28));
  mret (mkVaList s g w (s32 go) (s32 vo)).

(** One value per argument of the descriptor. *)
Definition as_value (is_obj : bool) (v : Z) : DvmValue := if is_obj then DObject v else DInt (s64 v).
Fixpoint marshal {A} (next : A -> M U (Z * A)) (objs : list bool) (a : A) : M U (list DvmValue) :=
  match objs with
  | [] => mret []
  | o :: r => x ← next a; l ← marshal next r (snd x); mret (as_value o (fst x) :: l)
  end.

Definition i_of (v : DvmValue) : Z := match v with DInt i => i | _ => 0 end.
Definition obj_of (v : DvmValue) : Z := match v with DObject o => o | _ => 0 end.
Definition give (rk : RetKind) (r : DvmValue) : M B unit :=
  match rk with
  | RetObj => ret0 (obj_of r)
  | RetInt => ret0 (u64 (i_of r))
  | RetVoid => skip
  end.

Definition call_dispatch (is_static : bool) (rk : RetKind) : M B unit :=
  a ← ints 3;
  j ← java;
  args ← on_engine (marshal (next_int abi) (parse_arg_objects (method_sig j (arg a 2))) (snd a));
  r ← on_java (call_method observe run_host (arg a 2) (if is_static then 0 else arg a 1) args);
  give rk r.
Definition call_dispatch_v (is_static : bool) (rk : RetKind) : M B unit :=
  a ← ints 4;
  v ← on_engine (read_valist (arg a 3));
  j ← java;
  args ← on_engine (marshal valist_next_int (parse_arg_objects (method_sig j (arg a 2))) v);
  r ← on_java (call_method observe run_host (arg a 2) (if is_static then 0 else arg a 1) args);
  give rk r.
(** The receiver, the ignored class, the method and the [va_list]. *)
Definition nonvirtual_v (rk : RetKind) : M B unit :=
  a ← ints 5;
  v ← on_engine (read_valist (arg a 4));
  j ← java;
  args ← on_engine (marshal valist_next_int (parse_arg_objects (method_sig j (arg a 3))) v);
  r ← on_java (call_method observe run_host (arg a 3) (arg a 1) args);
  give rk r.

(** *** Classes and members *)

Definition FindClass : M B unit :=
  a ← ints 2;
  name ← cstr (arg a 1);
  if evade && is_tamper_class name then ret0 0 else
  c ← on_java (find_class name); ret0 c.

Definition DefineClass : M B unit :=
  a ← ints 5;
  let buf := arg a 3 in
  let len := s64 (arg a 4) in
  name ← (if arg a 1 =? 0 then mret (bs "?") else cstr (arg a 1));
  _ ← (if negb (buf =? 0) && (0 <? len) && (len <? 64 * 2 ^ 20)
       then l ← on_engine (e_read buf len); notify_bytes l (bs "DefineClass:" ++ name)
       else skip);
  c ← on_java (find_class (if bool_decide (name = []) then bs "$defined" else name)); ret0 c.

(** [GetMethodID] and its three variants. *)
Definition get_id (op : Z -> jstring -> jstring -> bool -> M J Z) (is_static : bool) : M B unit :=
  a ← ints 4;
  name ← cstr (arg a 2);
  sig ← cstr (arg a 3);
  h ← on_java (op (arg a 1) name sig is_static); ret0 h.

Definition register_one (cls rec : Z) : M B unit :=
  np ← read_ptr rec; name ← cstr np;
  sp ← read_ptr (rec + psz); sig ← cstr sp;
  fn ← read_ptr (rec + 2 * psz);
  on_java (register_native cls name sig fn).
(** [n] records of three pointers, from the [i]-th on. *)
Fixpoint register_all (n : nat) (i cls arr : Z) : M B unit :=
  match n with
  | O => skip
  | S k => _ ← register_one cls (u64 (arr + i * 3 * psz)); register_all k (i + 1) cls arr
  end.
Definition RegisterNatives : M B unit :=
  a ← ints 4;
  _ ← register_all (Z.to_nat (arg a 3)) 0 (arg a 1) (arg a 2);
  ret0 0.

Definition GetObjectClass : M B unit :=
  a ← ints 2; j ← java;
  let cls := class_of j (arg a 1) in
  c ← (if cls =? 0 then on_java (find_class (bs "java/lang/Object")) else mret cls); ret0 c.
Definition IsInstanceOf : M B unit :=
  a ← ints 3; j ← java;
  let obj := arg a 1 in
  let clazz := arg a 2 in
  let oc := class_of j obj in
  ret0 (if obj =? 0 then 1
        else if negb (oc =? 0) && ((oc =? clazz) || is_subclass j (class_name j oc) (class_name j clazz))
             then 1 else 0).
Definition IsAssignableFrom : M B unit :=
  a ← ints 3; j ← java;
  ret0 (if (arg a 1 =? arg a 2) || is_subclass j (class_name j (arg a 1)) (class_name j (arg a 2))
        then 1 else 0).
Definition GetSuperclass : M B unit :=
  a ← ints 2; j ← java;
  let sup := superclass_of j (class_name j (arg a 1)) in
  c ← (if bool_decide (sup = []) then mret 0 else on_java (find_class sup)); ret0 c.

(** *** Strings *)

Definition NewStringUTF : M B unit :=
  a ← ints 2;
  s ← (if arg a 1 =? 0 then mret [] else cstr (arg a 1));
  h ← on_java (new_string_utf s); ret0 h.
Definition GetStringUTFChars : M B unit :=
  a ← ints 3; j ← java;
  let v := default [] (string_of j (arg a 1)) in
  buf ← on_memory (heap_alloc tight (zlen v + 1) 16);
  _ ← (if bool_decide (v = []) then skip else e_write_at buf v);
  _ ← e_write_at (u64 (buf + zlen v)) [0];
  _ ← (if arg a 2 =? 0 then skip else e_write_at (arg a 2) [1]);
  ret0 buf.
Definition GetStringUTFLength : M B unit :=
  a ← ints 2; j ← java;
  ret0 (match string_of j (arg a 1) with Some s => zlen s | None => 0 end).

(** *** Direct buffers and objects *)

Definition NewDirectByteBuffer : M B unit :=
  a ← ints 3;
  let addr := arg a 1 in
  let cap := arg a 2 in
  b ← get;
  let mapped := is_mapped (regions_ (j_mem (jb_java b))) addr in
  magic ← (if (16 <=? cap) && mapped then on_engine (e_read addr 16) else mret (replicate 16 0));
  _ ← (if bool_decide (take 4 magic = bs "dex" ++ [10]) && negb (cap =? 0) && mapped then
         if 2 ^ 63 <=? cap then throw "vector" else
         v ← on_engine (e_read addr cap); notify_bytes v (bs "DirectByteBuffer")
       else skip);
  bb ← on_java (new_object (bs "java/nio/DirectByteBuffer"));
  _ ← on_java (set_field bb (bs "address") (DInt (s64 addr)));
  _ ← on_java (set_field bb (bs "capacity") (DInt (s64 cap)));
  ret0 bb.
Definition GetDirectBuffer (field : list Z) : M B unit :=
  a ← ints 2; j ← java; ret0 (u64 (i_of (get_field j (arg a 1) field))).
Definition NewObjectV : M B unit :=
  a ← ints 2; j ← java;
  let name := class_name j (arg a 1) in
  h ← on_java (new_object (if bool_decide (name = []) then bs "java/lang/Object" else name)); ret0 h.

(** The byte arrays among the arguments of a class loader's constructor. *)
Fixpoint capture_loader_args (is_loader : bool) (objs : list bool) (a : Args) : M B unit :=
  match objs with
  | [] => skip
  | o :: r =>
      x ← on_engine (next_int abi a);
      j ← java;
      _ ← (if o && is_loader then
             match bytes_view j (fst x) with
             | Some l => notify_bytes l (bs "InMemoryDexClassLoader ctor")
             | None => skip
             end
           else skip);
      capture_loader_args is_loader r (snd x)
  end.
Definition NewObject : M B unit :=
  a ← ints 3; j ← java;
  let cls := class_name j (arg a 1) in
  _ ← capture_loader_args (has_sub (bs "DexClassLoader") cls)
        (parse_arg_objects (method_sig j (arg a 2))) (snd a);
  h ← on_java (new_object cls); ret0 h.

(** *** Fields and arrays *)

Definition GetField (pick : DvmValue -> Z) : M B unit :=
  a ← ints 3; j ← java; ret0 (pick (get_field j (arg a 1) (field_name j (arg a 2)))).
Definition SetField (make : Z -> DvmValue) : M B unit :=
  a ← ints 4; j ← java; on_java (set_field (arg a 1) (field_name j (arg a 2)) (make (arg a 3))).
Definition GetStaticField (pick : DvmValue -> Z) : M B unit :=
  a ← ints 3; j ← java;
  ret0 (pick (get_static j (field_owner j (arg a 2)) (field_name j (arg a 2)))).

Definition NewObjectArray : M B unit :=
  a ← ints 4;
  let len := arg a 1 in
  if 2 ^ 60 <=? len then throw "vector" else
  h ← on_java (new_object_array (replicate (Z.to_nat len) (arg a 3))); ret0 h.

(** [b && start + len <= b->size() && len], in 64 bits. *)
Definition region_fits (l : list Z) (start len : Z) : bool :=
  (u64 (start + len) <=? zlen l) && negb (len =? 0).
(** [len] bytes from [b->data() + start]: undefined behaviour outside the vector. *)
Definition bytes_region (l : list Z) (start len : Z) : outcome (list Z) :=
  if start + len <=? zlen l then Ret (take (Z.to_nat len) (drop (Z.to_nat start) l)) else UB.
Definition GetByteArrayRegion : M B unit :=
  a ← ints 5; j ← java;
  let start := arg a 2 in
  let len := arg a 3 in
  match bytes_view j (arg a 1) with
  | Some l =>
      if region_fits l start len
      then piece ← lift (bytes_region l start len); e_write_at (arg a 4) piece
      else skip
  | None => skip
  end.
Definition SetByteArrayRegion : M B unit :=
  a ← ints 5; j ← java;
  let start := arg a 2 in
  let len := arg a 3 in
  match bytes_view j (arg a 1) with
  | Some l =>
      if region_fits l start len then
        _ ← lift (bytes_region l start len);
        piece ← on_engine (e_read (arg a 4) len);
        let l' := take (Z.to_nat start) l ++ piece ++ drop (Z.to_nat (start + len)) l in
        _ ← on_java (set_bytes (arg a 1) l');
        notify_bytes l' (bs "SetByteArrayRegion")
      else skip
  | None => skip
  end.
Definition GetArrayElements (empty : Z) : M B unit :=
  a ← ints 3; j ← java;
  let l := default [] (bytes_view j (arg a 1)) in
  p ← on_memory (heap_alloc tight (if bool_decide (l = []) then empty else zlen l) 16);
  _ ← (if bool_decide (l = []) then skip else e_write_at p l);
  _ ← (if arg a 2 =? 0 then skip else e_write_at (arg a 2) [1]);
  ret0 p.
Definition ReleaseByteArrayElements : M B unit :=
  a ← ints 4; j ← java;
  match bytes_view j (arg a 1) with
  | Some l =>
      if negb (arg a 3 =? 2) && negb (bool_decide (l = [])) then
        l' ← on_engine (e_read (arg a 2) (zlen l));
        _ ← on_java (set_bytes (arg a 1) l');
        notify_bytes l' (bs "ReleaseByteArrayElements")
      else skip
  | None => skip
  end.

Definition GetEnv : M B unit :=
  a ← ints 3; b ← get; _ ← write_ptr (arg a 1) (env_ b); ret0 0.

(** *** The short ones *)

Definition GetVersion : M B unit := _ ← ints 1; ret0 kJniVersion16.
Definition GetJavaVM : M B unit := a ← ints 2; b ← get; _ ← write_ptr (arg a 1) (vm_ b); ret0 0.
(** [PopLocalFrame], [NewGlobalRef] and [NewLocalRef] hand their argument back. *)
Definition Echo : M B unit := a ← ints 2; ret0 (arg a 1).
Definition ExceptionCheck : M B unit := j ← java; ret0 (if pending_exc_ j =? 0 then 0 else 1).
Definition ExceptionOccurred : M B unit := j ← java; ret0 (pending_exc_ j).
Definition ExceptionClear : M B unit := on_java clear_pending_exception.
Definition IsSameObject : M B unit := a ← ints 3; ret0 (if arg a 1 =? arg a 2 then 1 else 0).
Definition GetArrayLength : M B unit := a ← ints 2; j ← java; ret0 (array_length j (arg a 1)).
Definition NewByteArray : M B unit := a ← ints 2; h ← on_java (new_byte_array_zero (arg a 1)); ret0 h.
Definition GetObjectArrayElement : M B unit :=
  a ← ints 3; j ← java; ret0 (object_array_element j (arg a 1) (arg a 2)).
Definition SetObjectArrayElement : M B unit :=
  a ← ints 4; on_java (set_object_array_element (arg a 1) (arg a 2) (arg a 3)).
Definition ReleaseLongArrayElements : M B unit := _ ← ints 1; ret0 0.

(** The body of every handler. *)
Definition jni_run (f : JniFn) : M B unit :=
  match f with
  | JUnimplemented _ | JRetZero => ret0 0
  | JGetVersion => GetVersion
  | JGetJavaVM => GetJavaVM
  | JFindClass => FindClass
  | JDefineClass => DefineClass
  | JGetMethodID st => get_id get_method_id st
  | JGetFieldID st => get_id get_field_id st
  | JRegisterNatives => RegisterNatives
  | JNewStringUTF => NewStringUTF
  | JGetStringUTFChars => GetStringUTFChars
  | JNothing => skip
  | JGetStringUTFLength => GetStringUTFLength
  | JEcho => Echo
  | JExceptionCheck => ExceptionCheck
  | JExceptionOccurred => ExceptionOccurred
  | JExceptionClear => ExceptionClear
  | JIsSameObject => IsSameObject
  | JGetObjectClass => GetObjectClass
  | JIsInstanceOf => IsInstanceOf
  | JIsAssignableFrom => IsAssignableFrom
  | JGetSuperclass => GetSuperclass
  | JNewDirectByteBuffer => NewDirectByteBuffer
  | JGetDirectBufferAddress => GetDirectBuffer (bs "address")
  | JGetDirectBufferCapacity => GetDirectBuffer (bs "capacity")
  | JNewObjectV => NewObjectV
  | JCall st rk => call_dispatch st rk
  | JCallV st rk => call_dispatch_v st rk
  | JNonvirtualV rk => nonvirtual_v rk
  | JGetObjectField => GetField obj_of
  | JGetIntField => GetField (fun v => u64 (i_of v))
  | JSetObjectField => SetField DObject
  | JSetIntField => SetField (fun v => DInt (s64 v))
  | JGetStaticObjectField => GetStaticField obj_of
  | JGetStaticIntField => GetStaticField (fun v => u64 (i_of v))
  | JGetArrayLength => GetArrayLength
  | JNewByteArray => NewByteArray
  | JGetObjectArrayElement => GetObjectArrayElement
  | JNewObjectArray => NewObjectArray
  | JSetObjectArrayElement => SetObjectArrayElement
  | JGetByteArrayRegion => GetByteArrayRegion
  | JSetByteArrayRegion => SetByteArrayRegion
  | JGetArrayElements empty => GetArrayElements empty
  | JReleaseLongArrayElements => ReleaseLongArrayElements
  | JReleaseByteArrayElements => ReleaseByteArrayElements
  | JNewObject => NewObject
  | JGetEnv => GetEnv
  end.
End Jni.
