(* ===== verification/JniTable.v ===== *)
(** The function tables of the JNI bridge: after [build] every slot of both
    tables, reserved ones included, leads to the stub of its handler. *)

From S2P Require Import Prelude.
From S2P Require Import Words.
From S2P Require Import Abi.
From S2P Require Import Unicorn.
From S2P Require Import Engine.
From S2P Require Import Memory.
From S2P Require Import Trampoline.
From S2P Require Import JavaRuntime.
From S2P Require Import Jni.
#[local] Open Scope Z_scope.

(** The handler a slot ends up with: the one installed under its name. *)
Definition bound_fn (hs : list (string * JniFn)) (name : string) : JniFn :=
  match List.find (fun p => bool_decide (p.1 = name)) hs with
  | Some p => p.2
  | None => JUnimplemented name
  end.

(** The slots of a table, before and after the handlers are installed. *)
Definition default_slots (names : list string) : list (string * JniFn) :=
  (fun nm => (nm, JUnimplemented nm)) <$> names.
Fixpoint put_slots (index : string -> outcome nat) (hs slots : list (string * JniFn)) :
    outcome (list (string * JniFn)) :=
  match hs with
  | [] => Ret slots
  | (name, h) :: r => i ← index name; put_slots index r (<[i := (name, h)]> slots)
  end.

Definition bound_slots (hs : list (string * JniFn)) (names : list string) : list (string * JniFn) :=
  (fun nm => (nm, bound_fn hs nm)) <$> names.

Definition env_names : list string := slot_names kJniEnvReserved kJniEnvSlots.
Definition vm_names : list string := slot_names kJavaVmReserved kJavaVmSlots.

(** Every handler is installed under a name of the table, so that no lookup
    throws, and overwrites the default stub of that name and of no other. *)
Lemma env_slots : put_slots env_index env_handlers (default_slots env_names) = Ret (bound_slots env_handlers env_names).
Proof. vm_compute. reflexivity. Qed.
Lemma vm_slots : put_slots vm_index vm_handlers (default_slots vm_names) = Ret (bound_slots vm_handlers vm_names).
Proof. vm_compute. reflexivity. Qed.

Section Tables.
Context {U HM Fn : Type} `{UcLaws U}.
#[local] Abbreviation B := (JniBridge U HM Fn).
Variable abi : Abi.
Variable as_fn : JniFn -> Fn.
#[local] Abbreviation p := (psz abi).

Lemma psz_cases : p = 4 \/ p = 8.
Proof. unfold psz, kPointerSize. destruct (kIs64 abi); auto. Qed.

(** The bridge [b] on emulator [u] with handlers [hs]. *)
Definition at_ (b : B) (u : U) (hs : list (string * Fn)) : B :=
  mkJni (with_j_mem (jb_java b) (with_m_uc (j_mem (jb_java b)) u)) (jb_base b)
        (kTrampolineBase + 8 * zlen hs) hs (env_ b) (env_table_ b) (vm_ b) (vm_table_ b) (notified b).

(** The trampoline page: mapped, with room for [hs]. *)
Definition page_ok (u : U) (hs : list (string * Fn)) : Prop :=
  8 * zlen hs <= kTrampolineSize /\
  forall x, kTrampolineBase <= x < kTrampolineBase + kTrampolineSize -> uc_mapped u x = true.

(** [u'] differs from [u] only in the trampoline page and in [lo, hi). *)
Definition keeps (u u' : U) (lo hi : Z) : Prop :=
  (forall x, uc_mapped u' x = uc_mapped u x) /\
  (forall a n, (a + n <= lo \/ hi <= a) ->
     (a + n <= kTrampolineBase \/ kTrampolineBase + kTrampolineSize <= a) ->
     uc_mem_read u' a n = uc_mem_read u a n).

Lemma keeps_trans u1 u2 u3 lo hi lo' hi' :
  keeps u1 u2 lo hi -> keeps u2 u3 lo hi -> lo' <= lo -> hi <= hi' -> keeps u1 u3 lo' hi'.
Proof.
  intros [M1 R1] [M2 R2] Hl Hh. split; [intros x; by rewrite M2, M1|].
  intros a n Ha Hp. rewrite R2, R1 by lia. done.
Qed.
Lemma keeps_weaken u u' lo hi lo' hi' : keeps u u' lo hi -> lo' <= lo -> hi <= hi' -> keeps u u' lo' hi'.
Proof. intros [M1 R1] Hl Hh. split; [done|]. intros a n Ha Hp. apply R1; lia. Qed.
Lemma keeps_refl u lo hi : keeps u u lo hi.
Proof. by split. Qed.

(** A word-sized cell of the Java arena. *)
Definition cell_ok (u : U) (a : Z) : Prop :=
  kJavaBase <= a /\ a + p <= kJavaEnd /\ forall x, a <= x < a + p -> uc_mapped u x = true.
Lemma cell_range u a : cell_ok u a -> 0 <= a < 2 ^ 64.
Proof.
  intros (A1 & A2 & _). pose proof psz_cases. unfold kJavaEnd, kJavaBase, kJavaSize in *. lia.
Qed.
Definition points_to (u : U) (a v : Z) : Prop := reads u a (le_bytes (Z.to_nat p) v).

Lemma on_engine_run {A} (op : M U A) (b : B) u hs r u' :
  op u = (r, u') -> on_engine op (at_ b u hs) = (r, at_ b u' hs).
Proof. intros E. unfold on_engine, on_memory, on_java, on_mem, uc_do. cbn. by rewrite E. Qed.

Lemma write_ptr_run (b : B) u hs a v :
  cell_ok u a -> 0 <= v < 2 ^ 32 ->
  exists u', write_ptr abi a v (at_ b u hs) = (Ret tt, at_ b u' hs) /\ points_to u' a v /\
             keeps u u' a (a + p).
Proof.
  intros Hc Hv. pose proof (cell_range _ _ Hc) as Ha. destruct Hc as (A1 & A2 & A3). unfold write_ptr.
  rewrite (u64_id a) by lia.
  rewrite (u32_id v) by done.
  assert ((if p =? 8 then write_t 8 a v else write_t 4 a v) = e_write a (le_bytes (Z.to_nat p) v)) as ->
    by (destruct psz_cases as [-> | ->]; done).
  assert (zlen (le_bytes (Z.to_nat p) v) = p) as Hz
    by (unfold zlen; rewrite length_le_bytes; destruct psz_cases; lia).
  destruct (e_write_run a (le_bytes (Z.to_nat p) v) u) as (u' & E & W & M); [by rewrite Hz|].
  exists u'. split.
  { by apply on_engine_run. }
  split; [by apply (law_read_write u a _ _ (le_bytes_ok _ _))|]. split; [done|].
  intros c n Hc _. apply (law_read_write_ne _ _ _ _ _ _ W). rewrite Hz. lia.
Qed.

Lemma read_ptr_run (b : B) u hs a v :
  cell_ok u a -> 0 <= v < 2 ^ 32 -> points_to u a v ->
  read_ptr abi a (at_ b u hs) = (Ret v, at_ b u hs).
Proof.
  intros Hc Hv Hr. pose proof (cell_range _ _ Hc) as Ha. unfold read_ptr, points_to, reads in *.
  rewrite (u64_id a) by lia.
  assert (zlen (le_bytes (Z.to_nat p) v) = p) as Hz
    by (unfold zlen; rewrite length_le_bytes; destruct psz_cases; lia).
  rewrite Hz in Hr.
  assert (le_val (le_bytes (Z.to_nat p) v) = v) as Hle.
  { rewrite le_val_bytes. apply Z.mod_small.
    assert (2 ^ 32 <= 2 ^ (8 * Z.of_nat (Z.to_nat p))); [|lia].
    apply Z.pow_le_mono_r; [lia|]. destruct psz_cases; lia. }
  apply on_engine_run. destruct psz_cases as [E | E]; rewrite E in *; cbn -[read_t];
    unfold read_t, e_read, mbind, M_mbind, M_bind.
  - change (Z.of_nat 4) with 4. by rewrite Hr, Hle.
  - change (Z.of_nat 8) with 8. by rewrite Hr, Hle.
Qed.

(** One more stub. *)
Lemma tramp_alloc_run (b : B) u hs name h :
  jb_base b = kTrampolineBase -> page_ok u hs -> zlen hs < 8192 ->
  exists u', on_tramp (Trampoline.alloc abi name h) (at_ b u hs) =
               (Ret (kTrampolineBase + 8 * zlen hs), at_ b u' (hs ++ [(name, h)])) /\
             page_ok u' (hs ++ [(name, h)]) /\ forall lo hi, keeps u u' lo hi.
Proof.
  intros Hb [P1 P2] Hn.
  set (t := mkTrampoline u kTrampolineBase (kTrampolineBase + 8 * zlen hs) hs).
  assert (tramp_ok t) as Ht by (split; done).
  pose proof (alloc_spec abi t name h Ht) as Hs.
  assert (zlen (handlers_ t) < kTrampolineSize / 8) as Hlt by (cbn; done).
  rewrite decide_True in Hs by done. destruct Hs as (t' & E & Ht' & Hh & _ & HN & Hmap).
  exists (tr_uc t'). unfold on_tramp. cbn [at_ jb_java j_mem with_j_mem with_m_uc m_uc jb_base jb_next jb_handlers].
  rewrite Hb. fold t. rewrite E. destruct Ht' as [T1 T2 T3 T4]. cbn [handlers_ t] in Hh.
  rewrite Hh in T2, T3. split; [|split; [by split|intros lo hi; split; [exact Hmap|]]].
  - unfold at_. rewrite T1, T2, Hh, Hb. done.
  - intros a n _ Ha. apply HN. cbn [handlers_ t]. unfold kTrampolineSize in *.
    pose proof (zlen_nonneg hs). rewrite zlen_app in T3. unfold zlen in T3 at 2. cbn in T3. lia.
Qed.

(** Cell [a] points to the stub of handler [h]. *)
Definition slot_is (u : U) (hs : list (string * Fn)) (a : Z) (h : string * Fn) : Prop :=
  exists k, hs !! k = Some h /\ points_to u a (kTrampolineBase + 8 * Z.of_nat k).

Lemma slot_is_keeps u u' hs l a lo hi h :
  slot_is u hs a h -> keeps u u' lo hi -> a + p <= lo \/ hi <= a -> kJavaBase <= a ->
  slot_is u' (hs ++ l) a h.
Proof.
  intros (k & Hk & R) [_ K] Ha Hb. exists k. split; [by apply lookup_app_l_Some|].
  unfold points_to, reads in *.
  assert (zlen (le_bytes (Z.to_nat p) (kTrampolineBase + 8 * Z.of_nat k)) = p) as Hz
    by (unfold zlen; rewrite length_le_bytes; destruct psz_cases; lia).
  rewrite Hz in *. rewrite K; [done|done|]. right. unfold kJavaBase, kTrampolineBase, kTrampolineSize in *. lia.
Qed.

Lemma slot_is_fresh u hs a h :
  points_to u a (kTrampolineBase + 8 * zlen hs) -> slot_is u (hs ++ [h]) a h.
Proof. intros R. exists (length hs). split; [|done]. by rewrite lookup_app_r, Nat.sub_diag. Qed.

(** What a building step does: [k] stubs more, and memory changed only in the
    page and in [lo, hi). *)
Definition builds (m : M B unit) (b : B) (u : U) (hs : list (string * Fn)) (k : Z) (lo hi : Z)
    (P : U -> list (string * Fn) -> Prop) : Prop :=
  exists u' l, m (at_ b u hs) = (Ret tt, at_ b u' (hs ++ l)) /\ zlen l = k /\ page_ok u' (hs ++ l) /\
               keeps u u' lo hi /\ P u' (hs ++ l).

Lemma stub_range (hs : list (string * Fn)) : 8 * zlen hs <= kTrampolineSize -> 0 <= kTrampolineBase + 8 * zlen hs < 2 ^ 32.
Proof. pose proof (zlen_nonneg hs). unfold kTrampolineBase, kTrampolineSize. lia. Qed.

(** A stub and the cell that leads to it. *)
Lemma stub_cell (b : B) u hs name h a (i : nat) :
  jb_base b = kTrampolineBase -> page_ok u hs -> zlen hs < 8192 -> cell_ok u a ->
  builds (stub ← on_tramp (Trampoline.alloc abi name h); _ ← lift (Ret i); write_ptr abi a stub) b u hs 1
    a (a + p) (fun u' hs' => slot_is u' hs' a (name, h)).
Proof.
  intros Hb Hp Hn Hc. destruct (tramp_alloc_run b u hs name h Hb Hp Hn) as (u1 & E1 & P1 & K1). specialize (K1 a (a + p)).
  assert (cell_ok u1 a) as Hc1.
  { destruct Hc as (A1 & A2 & A3). split; [done|]. split; [done|]. intros x Hx. rewrite (proj1 K1). by apply A3. }
  destruct (write_ptr_run b u1 (hs ++ [(name, h)]) a _ Hc1 (stub_range hs (proj1 Hp))) as (u2 & E2 & R2 & K2).
  exists u2, [(name, h)]. split.
  { rewrite (bind_run _ _ _ _ _ E1). rewrite bind_lift_ret. exact E2. }
  split; [done|]. split; [|split].
  - destruct P1 as [Q1 Q2]. split; [done|]. intros x Hx. rewrite (proj1 K2). by apply Q2.
  - eapply keeps_trans; [exact K1|exact K2|lia..].
  - by apply slot_is_fresh.
Qed.

(** A table of [n] cells. *)
Definition table_ok (u : U) (t n : Z) : Prop :=
  kJavaBase <= t /\ t + n * p <= kJavaEnd /\ forall x, t <= x < t + n * p -> uc_mapped u x = true.

Lemma table_cell u t n i : table_ok u t n -> 0 <= i < n -> cell_ok u (t + i * p).
Proof.
  intros (T1 & T2 & T3) Hi. assert (0 <= i * p /\ i * p + p <= n * p) as [? ?].
  { destruct psz_cases as [-> | ->]; lia. }
  split; [lia|]. split; [lia|]. intros x Hx. apply T3. lia.
Qed.
Lemma table_ok_keeps u u' t n lo hi : table_ok u t n -> keeps u u' lo hi -> table_ok u' t n.
Proof. intros (T1 & T2 & T3) [K _]. split; [done|]. split; [done|]. intros x Hx. rewrite K. by apply T3. Qed.

Definition table_is (owner : string) (t : Z) (i : nat) (slots : list (string * JniFn))
    (u : U) (hs : list (string * Fn)) : Prop :=
  forall j nm f, slots !! j = Some (nm, f) ->
    slot_is u hs (t + Z.of_nat (i + j) * p) (owner +:+ "::" +:+ nm, as_fn f).

Lemma table_is_keeps owner t i slots u hs u' l lo hi n :
  table_is owner t i slots u hs -> keeps u u' lo hi -> kJavaBase <= t ->
  (i + length slots <= n)%nat -> t + Z.of_nat n * p <= lo \/ hi <= t + Z.of_nat i * p ->
  table_is owner t i slots u' (hs ++ l).
Proof.
  intros Ht K Hb Hn Hd j nm f Hj. pose proof (lookup_lt_Some _ _ _ Hj) as Hlt.
  eapply slot_is_keeps; [by apply Ht|exact K| |destruct psz_cases; nia].
  destruct psz_cases as [E|E]; rewrite E in *; lia.
Qed.

Lemma builds_bind (m k : M B unit) b u hs n n' lo hi P Q :
  builds m b u hs n lo hi P ->
  (forall u1 l, zlen l = n -> page_ok u1 (hs ++ l) -> keeps u u1 lo hi -> P u1 (hs ++ l) ->
     builds k b u1 (hs ++ l) n' lo hi Q) ->
  builds (_ ← m; k) b u hs (n + n') lo hi Q.
Proof.
  intros (u1 & l1 & E1 & L1 & P1 & K1 & Q1) Hk.
  destruct (Hk u1 l1 L1 P1 K1 Q1) as (u2 & l2 & E2 & L2 & P2 & K2 & Q2).
  exists u2, (l1 ++ l2). rewrite app_assoc. split; [by rewrite (bind_run _ _ _ _ _ E1)|].
  split; [rewrite zlen_app; lia|]. split; [done|]. split; [|done]. eapply keeps_trans; [done|done|lia..].
Qed.
Lemma builds_weaken m b u hs n lo hi lo' hi' (P Q : U -> list (string * Fn) -> Prop) :
  builds m b u hs n lo hi P -> lo' <= lo -> hi <= hi' -> (forall u1 hs1, P u1 hs1 -> Q u1 hs1) ->
  builds m b u hs n lo' hi' Q.
Proof.
  intros (u1 & l1 & E1 & L1 & P1 & K1 & Q1) Hl Hh HQ. exists u1, l1.
  do 3 (split; [done|]). split; [by eapply keeps_weaken|by apply HQ].
Qed.

(** The default stubs. *)
Lemma fill_run (b : B) owner t names n : forall i u hs,
  jb_base b = kTrampolineBase -> page_ok u hs -> zlen hs + zlen names <= 8192 ->
  table_ok u t (Z.of_nat n) -> (i + length names <= n)%nat ->
  builds (fill_table abi as_fn owner t i names) b u hs (zlen names)
    (t + Z.of_nat i * p) (t + Z.of_nat n * p) (table_is owner t i (default_slots names)).
Proof.
  induction names as [|nm names IH]; intros i u hs Hb Hp Hn Ht Hi.
  { exists u, []. rewrite app_nil_r. split; [done|]. split; [done|]. split; [done|].
    split; [apply keeps_refl|]. by intros j nm f Hj. }
  cbn [fill_table]. unfold zlen in Hn. cbn [length] in Hn, Hi.
  assert (cell_ok u (t + Z.of_nat i * p)) as Hc by (apply (table_cell u t (Z.of_nat n)); [done|lia]).
  pose proof (stub_cell b u hs (owner +:+ "::" +:+ nm) (as_fn (JUnimplemented nm)) _ i Hb Hp
                ltac:(unfold zlen; lia) Hc) as (u1 & l1 & E1 & L1 & P1 & K1 & S1).
  assert (zlen (hs ++ l1) = zlen hs + 1) as Hz by (rewrite zlen_app; lia).
  pose proof (table_ok_keeps _ _ _ _ _ _ Ht K1) as Ht1.
  destruct (IH (S i) u1 (hs ++ l1) Hb P1 ltac:(rewrite Hz; unfold zlen; lia) Ht1 ltac:(lia))
    as (u2 & l2 & E2 & L2 & P2 & K2 & S2).
  assert (0 < p) as Hp0 by (destruct psz_cases; lia).
  exists u2, (l1 ++ l2). rewrite app_assoc. split.
  { unfold mbind, M_mbind, M_bind in E1 |- *. unfold lift in E1.
    destruct (on_tramp _ _) as [[a|e|] b1]; [|done..]. by rewrite E1. }
  split; [rewrite zlen_app; unfold zlen in *; cbn [length]; lia|]. split; [done|]. split.
  { split; [intros x; by rewrite (proj1 K2), (proj1 K1)|]. intros a k Ha Hpg.
    rewrite (proj2 K2), (proj2 K1) by (done || nia). done. }
  intros j nm' f Hj. destruct j as [|j]; cbn in Hj.
  - injection Hj as <- <-. rewrite Nat.add_0_r.
    eapply slot_is_keeps; [exact S1|exact K2|left; nia|destruct Ht as (T1 & _); nia].
  - replace (i + S j)%nat with (S i + j)%nat by lia. by apply S2.
Qed.

(** Installing handlers over them. *)
Lemma install_run (b : B) owner index t n handlers : forall slots slots' u hs,
  jb_base b = kTrampolineBase -> page_ok u hs -> zlen hs + zlen handlers <= 8192 ->
  table_ok u t (Z.of_nat n) -> length slots = n ->
  (forall name i, index name = Ret i -> (i < n)%nat) ->
  put_slots index handlers slots = Ret slots' -> table_is owner t 0 slots u hs ->
  builds (install abi as_fn owner index t handlers) b u hs (zlen handlers)
    t (t + Z.of_nat n * p) (table_is owner t 0 slots').
Proof.
  induction handlers as [|[name h] handlers IH]; intros slots slots' u hs Hb Hp Hn Ht Hlen Hidx Hput His.
  { injection Hput as <-. exists u, []. rewrite app_nil_r. split; [done|]. split; [done|].
    split; [done|]. split; [apply keeps_refl|done]. }
  cbn [put_slots] in Hput. apply outcome_bind_ret in Hput as (i & Ei & Hput).
  unfold zlen in Hn. cbn [length] in Hn. pose proof (Hidx _ _ Ei) as Hi.
  assert (cell_ok u (t + Z.of_nat i * p)) as Hc by (apply (table_cell u t (Z.of_nat n)); [done|lia]).
  assert (0 < p) as Hp0 by (destruct psz_cases; lia).
  replace (zlen ((name, h) :: handlers)) with (1 + zlen handlers) by (unfold zlen; cbn [length]; lia).
  cbn [install]. eapply builds_bind.
  { apply (builds_weaken _ _ _ _ _ (t + Z.of_nat i * p) (t + Z.of_nat i * p + p) _ _
             (fun u1 hs1 => slot_is u1 hs1 (t + Z.of_nat i * p) (owner +:+ "::" +:+ name, as_fn h) /\
                            table_is owner t 0 (<[i := (name, h)]> slots) u1 hs1)); [|nia|nia|by intros ?? []].
    pose proof (stub_cell b u hs (owner +:+ "::" +:+ name) (as_fn h) _ i Hb Hp
                  ltac:(unfold zlen; lia) Hc) as (u1 & l1 & E1 & L1 & P1 & K1 & S1).
    exists u1, l1. split; [|split; [done|split; [done|split; [done|split; [done|]]]]].
    { unfold set_slot. rewrite Ei. exact E1. }
    intros j nm f Hj. cbn [Nat.add]. destruct (decide (j = i)) as [->|Hne].
    - rewrite list_lookup_insert_eq in Hj by lia. injection Hj as <- <-. done.
    - rewrite list_lookup_insert_ne in Hj by done. pose proof (lookup_lt_Some _ _ _ Hj).
      eapply slot_is_keeps; [apply (His j nm f Hj)|exact K1|cbn [Nat.add]; nia|].
      destruct Ht as (T1 & _). cbn [Nat.add]. nia. }
  intros u1 l1 L1 P1 K1 S1.
  apply (IH (<[i := (name, h)]> slots)); try done.
  - rewrite zlen_app, L1. unfold zlen. lia.
  - by eapply table_ok_keeps.
  - by rewrite length_insert.
Qed.

(** *** The arena *)

(** [need] bytes can still be taken from the Java arena. *)
Definition arena_ready (m : Memory U) (need : Z) : Prop :=
  (java_next_ m = 0 /\ is_Some (uc_mem_map (m_uc m) kJavaBase kJavaSize UC_PROT_RW) /\ need <= kJavaSize) \/
  (kJavaBase <= java_next_ m /\ java_next_ m + need <= kJavaEnd /\ java_end_ m = kJavaEnd /\
   forall x, kJavaBase <= x < kJavaEnd -> uc_mapped (m_uc m) x = true).

Lemma java_alloc_run (m : Memory U) len rest :
  0 <= len <= kJavaSize -> 0 <= rest -> arena_ready m (len + 16 + rest) ->
  exists q m', java_alloc len 16 m = (Ret q, m') /\ kJavaBase <= q /\ java_next_ m <= q /\
    java_next_ m' = q + len /\ q + len + rest <= kJavaEnd /\ arena_ready m' rest /\
    (forall x, kJavaBase <= x < kJavaEnd -> uc_mapped (m_uc m') x = true) /\
    (forall x, uc_mapped (m_uc m) x = true -> uc_mapped (m_uc m') x = true) /\
    (java_next_ m <> 0 -> m_uc m' = m_uc m).
Proof.
  intros Hlen Hrest Hr. unfold java_alloc. rewrite bind_get.
  assert (exists m1, (if java_next_ m =? 0
      then _ ← map_insert kJavaBase kJavaSize UC_PROT_RW Java "java"; set_java kJavaBase (kJavaBase + kJavaSize)
      else skip) m = (Ret tt, m1) /\ kJavaBase <= java_next_ m1 /\ java_next_ m <= java_next_ m1 /\
      java_next_ m1 + (len + 16 + rest) <= kJavaEnd /\ java_end_ m1 = kJavaEnd /\
      (forall x, kJavaBase <= x < kJavaEnd -> uc_mapped (m_uc m1) x = true) /\
      (forall x, uc_mapped (m_uc m) x = true -> uc_mapped (m_uc m1) x = true) /\
      (java_next_ m <> 0 -> m_uc m1 = m_uc m)) as (m1 & E1 & A1 & A2 & A3 & A4 & A5 & A6 & A7).
  { destruct Hr as [(E0 & [u' Eu] & Hn)|(E0 & Hn & He & Hm)].
    - rewrite E0. cbn [Z.eqb]. eexists. split.
      { unfold mbind, M_mbind, M_bind. rewrite map_insert_eq, Eu. reflexivity. }
      cbn. unfold kJavaEnd. split; [lia|]. split; [unfold kJavaBase; lia|]. split; [lia|]. split; [done|].
      split; [|split; [|done]]; intros x Hx; rewrite (law_map_mapped _ _ _ _ _ _ Eu).
      + apply orb_true_iff. right. by apply in_range_spec.
      + by rewrite Hx.
    - destruct (Z.eqb_spec (java_next_ m) 0) as [E|_]; [unfold kJavaBase in *; lia|].
      exists m. do 5 (split; [done || lia|]). by split. }
  rewrite (bind_run _ _ _ _ _ E1), bind_get.
  unfold kJavaEnd, kJavaBase, kJavaSize in *.
  destruct (align_up_spec (java_next_ m1) 4) as [Hal _]; [lia..|]. change (2 ^ 4) with 16 in Hal.
  set (q := align_up (java_next_ m1) 16) in *. rewrite (u64_id (q + len)) by lia.
  destruct (Z.ltb_spec (java_end_ m1) (q + len)); [lia|].
  eexists q, _. split; [reflexivity|]. cbn. do 4 (split; [lia|]). split; [|by split].
  right. cbn. unfold kJavaEnd, kJavaBase, kJavaSize. by repeat split; try lia.
Qed.

#[local] Abbreviation mem b := (j_mem (jb_java b)).
Definition pointers (b : B) : Z * Z * Z * Z := (env_ b, env_table_ b, vm_ b, vm_table_ b).

(** A bridge whose trampoline page is in order. *)
Definition bridge_ok (b : B) : Prop :=
  jb_base b = kTrampolineBase /\ jb_next b = kTrampolineBase + 8 * zlen (jb_handlers b) /\
  page_ok (m_uc (mem b)) (jb_handlers b).

Lemma at_eta b : bridge_ok b -> at_ b (m_uc (mem b)) (jb_handlers b) = b.
Proof. intros (_ & E & _). unfold at_. rewrite <- E. by destruct b as [[[]]]. Qed.

Lemma bridge_alloc_run (b : B) len rest :
  bridge_ok b -> 0 <= len <= kJavaSize -> 0 <= rest -> arena_ready (mem b) (len + 16 + rest) ->
  exists q b', on_memory (java_alloc len 16) b = (Ret q, b') /\ bridge_ok b' /\
    jb_handlers b' = jb_handlers b /\ pointers b' = pointers b /\ arena_ready (mem b') rest /\
    kJavaBase <= q /\ java_next_ (mem b) <= q /\ java_next_ (mem b') = q + len /\ q + len + rest <= kJavaEnd /\
    (forall x, kJavaBase <= x < kJavaEnd -> uc_mapped (m_uc (mem b')) x = true) /\
    (java_next_ (mem b) <> 0 -> m_uc (mem b') = m_uc (mem b)).
Proof.
  intros (B1 & B2 & B3 & B4) Hlen Hrest Hr.
  destruct (java_alloc_run _ _ _ Hlen Hrest Hr) as (q & m' & E & Q1 & Q2 & Q3 & Q4 & Q5 & Q6 & Q7 & Q8).
  exists q, (with_java b (with_j_mem (jb_java b) m')).
  split; [unfold on_memory, on_java, on_mem; by rewrite E|].
  split; [split; [done|split; [done|split; [done|]]]|by repeat split].
  intros x Hx. apply Q7. by apply B4.
Qed.

(** *** One table *)

(** The common shape of [build_env] and [build_vm], in two parts. *)
Definition build_first (owner : string) (names : list string) (set_table : Z -> B -> B) : M B Z :=
  t ← on_memory (java_alloc (zlen names * p) 16);
  _ ← modify (set_table t);
  _ ← fill_table abi as_fn owner t 0 names;
  mret t.
Definition build_rest (owner : string) (index : string -> outcome nat)
    (handlers : list (string * JniFn)) (set_ptr : Z -> B -> B) (t : Z) : M B unit :=
  e ← on_memory (java_alloc p 16);
  _ ← modify (set_ptr e);
  _ ← write_ptr abi e t;
  install abi as_fn owner index t handlers.

(** A setter of one of the four pointers. *)
Definition setter (f : Z -> B -> B) (F : Z -> Z * Z * Z * Z -> Z * Z * Z * Z) : Prop :=
  forall a b, jb_java (f a b) = jb_java b /\ jb_base (f a b) = jb_base b /\ jb_next (f a b) = jb_next b /\
              jb_handlers (f a b) = jb_handlers b /\ pointers (f a b) = F a (pointers b).

Lemma setter_ok f F a b : setter f F -> bridge_ok b -> bridge_ok (f a b).
Proof. intros Hf (B1 & B2 & B3). destruct (Hf a b) as (E1 & E2 & E3 & E4 & _). unfold bridge_ok. by rewrite E1, E2, E3, E4. Qed.

(** The outcome of building one table: where it is, and what memory holds. *)
Record built (owner : string) (n : nat) (slots : list (string * JniFn)) (b b' : B) (t e rest : Z) : Prop := {
  bt_ok : bridge_ok b';
  bt_prefix : exists l, jb_handlers b' = jb_handlers b ++ l;
  bt_ready : arena_ready (mem b') rest;
  bt_place : kJavaBase <= t /\ java_next_ (mem b) <= t /\ t + Z.of_nat n * p <= e /\
             e + p <= java_next_ (mem b') /\ java_next_ (mem b') + rest <= kJavaEnd;
  bt_mapped : forall x, kJavaBase <= x < kJavaEnd -> uc_mapped (m_uc (mem b')) x = true;
  bt_pointer : points_to (m_uc (mem b')) e t;
  bt_slots : table_is owner t 0 slots (m_uc (mem b')) (jb_handlers b');
  bt_frame : java_next_ (mem b) <> 0 -> keeps (m_uc (mem b)) (m_uc (mem b')) t (e + p);
}.

(** The part before the handlers are installed. *)
Lemma build_defaults owner names (st : Z -> B -> B) F1 b rest :
  setter st F1 -> bridge_ok b -> zlen (jb_handlers b) + zlen names <= 8192 -> 0 <= rest ->
  arena_ready (mem b) (zlen names * p + 16 + (p + 16 + rest)) ->
  exists t b', build_first owner names st b = (Ret t, b') /\
    bridge_ok b' /\ (exists l, jb_handlers b' = jb_handlers b ++ l /\ zlen l = zlen names) /\
    pointers b' = F1 t (pointers b) /\ arena_ready (mem b') (p + 16 + rest) /\
    kJavaBase <= t /\ java_next_ (mem b) <= t /\ java_next_ (mem b') = t + zlen names * p /\
    table_ok (m_uc (mem b')) t (zlen names) /\
    table_is owner t 0 (default_slots names) (m_uc (mem b')) (jb_handlers b') /\
    (java_next_ (mem b) <> 0 -> keeps (m_uc (mem b)) (m_uc (mem b')) t (t + zlen names * p)).
Proof.
  intros Hst Hb Hn Hrest Hr. pose proof (zlen_nonneg names) as Hz. pose proof (zlen_nonneg (jb_handlers b)) as Hz2.
  assert (0 < p <= 8) as Hp by (destruct psz_cases; lia).
  destruct (bridge_alloc_run b (zlen names * p) (p + 16 + rest) Hb ltac:(unfold kJavaSize; nia) ltac:(lia) Hr)
    as (t & b1 & E1 & B1 & H1 & P1 & R1 & T1 & T2 & T3 & T4 & T5 & T6).
  destruct (Hst t b1) as (S1 & S2 & S3 & S4 & S5). pose proof (setter_ok _ _ t b1 Hst B1) as B2.
  set (b2 := st t b1) in *. pose proof (at_eta b2 B2) as Eta. rewrite S1, S4 in Eta.
  assert (table_ok (m_uc (mem b1)) t (Z.of_nat (length names))) as Htab.
  { change (Z.of_nat (length names)) with (zlen names). split; [done|]. split; [lia|]. intros x Hx. apply T5. lia. }
  destruct (fill_run b2 owner t names (length names) 0 (m_uc (mem b1)) (jb_handlers b1))
    as (u3 & l & E3 & L3 & P3 & K3 & Q3); [by destruct B2|by destruct B1 as (_ & _ & ?)|by rewrite H1|done|lia|].
  rewrite Eta in E3. exists t, (at_ b2 u3 (jb_handlers b1 ++ l)). split.
  { unfold build_first. rewrite (bind_run _ _ _ _ _ E1), bind_modify. fold b2. by rewrite (bind_run _ _ _ _ _ E3). }
  assert (mem (at_ b2 u3 (jb_handlers b1 ++ l)) = with_m_uc (mem b1) u3) as Em by (cbn; by rewrite S1).
  rewrite Em. cbn [at_ jb_handlers]. replace (t + Z.of_nat 0 * p) with t in * by lia.
  split; [split; [by destruct B2|by split; [|rewrite Em]]|].
  split; [exists l; by rewrite H1|]. split; [unfold pointers in *; cbn; by rewrite <- P1|].
  split.
  { destruct R1 as [(E0 & _)|(E0 & ? & ? & ?)]; [unfold kJavaBase in *; lia|].
    right. cbn. do 3 (split; [done|]). intros x Hx. rewrite (proj1 K3). by apply T5. }
  split; [done|]. split; [done|]. split; [done|]. split; [by eapply table_ok_keeps|]. split; [done|].
  intros Hne. rewrite <- (T6 Hne). exact K3.
Qed.

Lemma build_handlers owner index handlers slots slots' (sp : Z -> B -> B) F2 t b rest :
  setter sp F2 -> bridge_ok b -> zlen (jb_handlers b) + zlen handlers <= 8192 -> 0 <= rest ->
  arena_ready (mem b) (p + 16 + rest) -> kJavaBase <= t ->
  java_next_ (mem b) = t + Z.of_nat (length slots) * p ->
  table_ok (m_uc (mem b)) t (Z.of_nat (length slots)) ->
  (forall name i, index name = Ret i -> (i < length slots)%nat) ->
  put_slots index handlers slots = Ret slots' ->
  table_is owner t 0 slots (m_uc (mem b)) (jb_handlers b) ->
  exists e b', build_rest owner index handlers sp t b = (Ret tt, b') /\
    pointers b' = F2 e (pointers b) /\ zlen (jb_handlers b') = zlen (jb_handlers b) + zlen handlers /\
    exists l, jb_handlers b' = jb_handlers b ++ l /\
    bridge_ok b' /\ arena_ready (mem b') rest /\
    t + Z.of_nat (length slots) * p <= e /\ e + p = java_next_ (mem b') /\ java_next_ (mem b') + rest <= kJavaEnd /\
    (forall x, kJavaBase <= x < kJavaEnd -> uc_mapped (m_uc (mem b')) x = true) /\
    points_to (m_uc (mem b')) e t /\ table_is owner t 0 slots' (m_uc (mem b')) (jb_handlers b') /\
    keeps (m_uc (mem b)) (m_uc (mem b')) t (e + p).
Proof.
  intros Hsp Hb Hn Hrest Hr Ht Hnext Htab Hidx Hput His.
  assert (0 < p <= 8) as Hp by (destruct psz_cases; lia).
  assert (java_next_ (mem b) <> 0) as Hne by (unfold kJavaBase in *; nia).
  destruct (bridge_alloc_run b p rest Hb ltac:(unfold kJavaSize; lia) Hrest Hr)
    as (e & b1 & E1 & B1 & H1 & P1 & R1 & T1 & T2 & T3 & T4 & T5 & T6).
  destruct (Hsp e b1) as (S1 & S2 & S3 & S4 & S5). pose proof (setter_ok _ _ e b1 Hsp B1) as B2.
  set (b2 := sp e b1) in *. pose proof (at_eta b2 B2) as Eta. rewrite S1, S4, (T6 Hne), H1 in Eta.
  set (u := m_uc (mem b)) in *. set (hs := jb_handlers b) in *.
  assert (cell_ok u e) as He.
  { split; [done|]. split; [lia|]. intros x Hx. rewrite <- (T6 Hne). apply T5. unfold kJavaBase in *. lia. }
  assert (0 <= t < 2 ^ 32) as Ht32 by (unfold kJavaEnd, kJavaBase, kJavaSize in *; nia).
  destruct (write_ptr_run b2 u hs e t He Ht32) as (u3 & E3 & R3 & K3).
  assert (page_ok u hs) as Hpg by (by destruct Hb as (_ & _ & ?)).
  assert (page_ok u3 hs) as Hpg3 by (destruct Hpg as [? Hm]; split; [done|intros x Hx; rewrite (proj1 K3); by apply Hm]).
  assert (table_is owner t 0 slots u3 (hs ++ [])) as His3.
  { eapply table_is_keeps; [exact His|exact K3|done|reflexivity|left; cbn [Nat.add]; lia]. }
  rewrite app_nil_r in His3.
  destruct (install_run b2 owner index t (length slots) handlers slots slots' u3 hs)
    as (u4 & l & E4 & L4 & P4 & K4 & Q4);
    [by destruct B2|done|done|by eapply table_ok_keeps|done|done|done|done|].
  exists e, (at_ b2 u4 (hs ++ l)).
  assert (mem (at_ b2 u4 (hs ++ l)) = with_m_uc (mem b1) u4) as Em by (cbn; by rewrite S1).
  rewrite Em. cbn [at_ jb_handlers].
  split.
  { unfold build_rest. rewrite (bind_run _ _ _ _ _ E1), bind_modify. fold b2. rewrite <- Eta.
    by rewrite (bind_run _ _ _ _ _ E3). }
  split; [unfold pointers in *; cbn; by rewrite <- P1|]. split; [rewrite zlen_app; lia|].
  exists l. split; [done|]. split; [split; [by destruct B2|by split; [|rewrite Em]]|].
  assert (keeps u u4 t (e + p)) as K by (split; [intros x; by rewrite (proj1 K4), (proj1 K3)|intros a n Ha Hg;
    rewrite (proj2 K4), (proj2 K3) by (done || nia); done]).
  assert (forall x, kJavaBase <= x < kJavaEnd -> uc_mapped u4 x = true) as Hmap.
  { intros x Hx. rewrite (proj1 K). rewrite <- (T6 Hne). by apply T5. }
  split; [right; cbn; destruct R1 as [(E0 & _)|(E0 & ? & ? & _)]; [unfold kJavaBase in *; lia|by repeat split]|].
  split; [lia|]. split; [done|]. split; [cbn; lia|]. split; [done|]. split; [|by split].
  unfold points_to, reads in *. rewrite (proj2 K4); [done|right|right].
  - lia.
  - unfold kJavaBase, kTrampolineBase, kTrampolineSize in *. lia.
Qed.

Lemma arena_ready_less m n n' : arena_ready m n -> n' <= n -> arena_ready m n'.
Proof.
  intros [(E & Hm & Hn)|(E & Hn & He & Hm)] Hle; [left|right]; (split; [done|]); split; done || (try split; done || lia).
Qed.

(** One whole table. *)
Lemma build_one_run owner index names handlers slots' st sp F1 F2 b rest :
  setter st F1 -> setter sp F2 -> bridge_ok b ->
  zlen (jb_handlers b) + (zlen names + zlen handlers) <= 8192 -> 0 <= rest ->
  arena_ready (mem b) (zlen names * p + 16 + (p + 16 + rest)) ->
  (forall name i, index name = Ret i -> (i < length names)%nat) ->
  put_slots index handlers (default_slots names) = Ret slots' ->
  exists t e b', (t ← build_first owner names st; build_rest owner index handlers sp t) b = (Ret tt, b') /\
    pointers b' = F2 e (F1 t (pointers b)) /\
    zlen (jb_handlers b') = zlen (jb_handlers b) + (zlen names + zlen handlers) /\
    built owner (length names) slots' b b' t e rest.
Proof.
  intros Hst Hsp Hb Hn Hrest Hr Hidx Hput.
  pose proof (zlen_nonneg handlers) as Hz.
  destruct (build_defaults owner names st F1 b rest Hst Hb ltac:(lia) Hrest Hr)
    as (t & b1 & E1 & B1 & (l1 & H1 & L1) & P1 & R1 & T1 & T2 & T3 & T4 & T5 & T6).
  assert (length (default_slots names) = length names) as Hlen by apply length_fmap.
  assert (zlen names = Z.of_nat (length names)) as Hzn by done.
  assert (zlen (jb_handlers b1) = zlen (jb_handlers b) + zlen names) as Hh by (rewrite H1, zlen_app; lia).
  destruct (build_handlers owner index handlers (default_slots names) slots' sp F2 t b1 rest)
    as (e & b2 & E2 & P2 & L2 & l2 & H2 & B2 & R2 & U1 & U2 & U3 & U4 & U5 & U6 & U7);
    [done|done|lia|done|done|done|by rewrite Hlen|by rewrite Hlen|by rewrite Hlen|done|done|].
  rewrite Hlen in U1. exists t, e, b2. split; [by rewrite (bind_run _ _ _ _ _ E1)|].
  split; [by rewrite P2, P1|]. split; [lia|]. split; try done.
  - exists (l1 ++ l2). by rewrite H2, H1, app_assoc.
  - lia.
  - intros Hne. assert (0 < p) by (destruct psz_cases; lia). 
    apply (keeps_trans _ (m_uc (mem b1)) _ t (e + p)); [|exact U7|lia..].
    eapply keeps_weaken; [exact (T6 Hne)|lia..].
Qed.

(** The four setters. *)
Definition put_env_table (a : Z) (b : B) : B := snd (set_env_table a b).
Definition put_env_ptr (a : Z) (b : B) : B := snd (set_env_ptr a b).
Definition put_vm_table (a : Z) (b : B) : B := snd (set_vm_table a b).
Definition put_vm_ptr (a : Z) (b : B) : B := snd (set_vm_ptr a b).

Lemma bind_three {A} (m1 : M B Z) (m2 : Z -> M B unit) (m3 : Z -> M B unit) (k : Z -> M B A) b :
  (t ← m1; _ ← m2 t; _ ← m3 t; k t) b = (t ← (t ← m1; _ ← m2 t; _ ← m3 t; mret t); k t) b.
Proof.
  unfold mbind, M_mbind, M_bind, mret, M_mret, M_ret. destruct (m1 b) as [[t|e|] b1]; [|done..].
  destruct (m2 t b1) as [[[]|e|] b2]; [|done..]. by destruct (m3 t b2) as [[[]|e|] b3].
Qed.

Lemma build_env_parts b :
  build_env abi as_fn b =
  (t ← build_first "JNIEnv" env_names put_env_table;
   build_rest "JNIEnv" env_index env_handlers put_env_ptr t) b.
Proof. apply bind_three. Qed.
Lemma build_vm_parts b :
  build_vm abi as_fn b =
  (t ← build_first "JavaVM" vm_names put_vm_table;
   build_rest "JavaVM" vm_index vm_handlers put_vm_ptr t) b.
Proof. apply bind_three. Qed.

Lemma slot_index_lt l name i : slot_index l name = Some i -> (i < length l)%nat.
Proof.
  revert i. induction l as [|x l IH]; intros i; cbn; [done|]. case_bool_decide; [intros [= <-]; lia|].
  destruct (slot_index l name) as [k|]; [|done]. intros [= <-]. specialize (IH k eq_refl). lia.
Qed.
Lemma env_index_lt name i : env_index name = Ret i -> (i < length env_names)%nat.
Proof.
  unfold env_index. destruct (slot_index _ _) as [k|] eqn:E; [|done]. intros [= <-].
  apply slot_index_lt in E. unfold env_names, slot_names. rewrite length_app, length_fmap, length_seq.
  change kJniEnvReserved with 4%nat. lia.
Qed.
Lemma vm_index_lt name i : vm_index name = Ret i -> (i < length vm_names)%nat.
Proof.
  unfold vm_index. destruct (slot_index _ _) as [k|] eqn:E; [|done]. intros [= <-].
  apply slot_index_lt in E. unfold vm_names, slot_names. rewrite length_app, length_fmap, length_seq.
  change kJavaVmReserved with 3%nat. lia.
Qed.

(** Reading the cell [a] gives the address of the stub of [h]: the one
    [dispatch] maps back to it. *)
Definition leads_to (b : B) (a : Z) (h : string * Fn) : Prop :=
  exists stub, read_ptr abi a b = (Ret stub, b) /\
    kTrampolineBase <= stub < kTrampolineBase + kTrampolineSize /\
    jb_handlers b !! Z.to_nat ((stub - jb_base b) / kStubSize) = Some h.

Lemma pointer_reads b a v :
  bridge_ok b -> cell_ok (m_uc (mem b)) a -> 0 <= v < 2 ^ 32 -> points_to (m_uc (mem b)) a v ->
  read_ptr abi a b = (Ret v, b).
Proof. intros Hok Hc Hv Hp. rewrite <- (at_eta b Hok) at 1 2. by apply read_ptr_run. Qed.

Lemma slot_leads b a h :
  bridge_ok b -> cell_ok (m_uc (mem b)) a -> slot_is (m_uc (mem b)) (jb_handlers b) a h -> leads_to b a h.
Proof.
  intros Hok Hc (k & Hk & Hp). pose proof (lookup_lt_Some _ _ _ Hk) as Hlt.
  destruct Hok as (B1 & B2 & B3 & B4). unfold zlen in B3.
  exists (kTrampolineBase + 8 * Z.of_nat k). split; [|split].
  - apply pointer_reads; [by repeat split|done| |done]. unfold kTrampolineBase, kTrampolineSize in *. lia.
  - unfold kTrampolineSize in *. lia.
  - rewrite B1. unfold kStubSize.
    replace (kTrampolineBase + 8 * Z.of_nat k - kTrampolineBase) with (Z.of_nat k * 8) by lia.
    by rewrite Z.div_mul, Nat2Z.id by lia.
Qed.

(** A table stays in place while more memory is taken from the arena. *)
Record table_here (owner : string) (slots : list (string * JniFn)) (b : B) (t e : Z) : Prop := {
  th_place : kJavaBase <= t /\ t + Z.of_nat (length slots) * p <= e /\ e + p <= java_next_ (mem b) /\
             java_next_ (mem b) <= kJavaEnd;
  th_mapped : forall x, kJavaBase <= x < kJavaEnd -> uc_mapped (m_uc (mem b)) x = true;
  th_pointer : points_to (m_uc (mem b)) e t;
  th_slots : table_is owner t 0 slots (m_uc (mem b)) (jb_handlers b);
}.

Lemma built_here owner n slots b b' t e rest :
  built owner n slots b b' t e rest -> length slots = n -> 0 <= rest -> table_here owner slots b' t e.
Proof. intros [_ _ _ (P1 & _ & P2 & P3 & P4) Hm Hp Hs _] <- Hrest. split; [lia|done..]. Qed.

Lemma table_here_later owner slots b b' t e owner' n' slots' t' e' rest :
  table_here owner slots b t e -> built owner' n' slots' b b' t' e' rest -> 0 <= rest ->
  table_here owner slots b' t e.
Proof.
  intros [(P1 & P2 & P3 & P4) Hm Hp Hs] [_ [l Hl] _ (Q1 & Q2 & Q3 & Q4 & Q5) Hm' _ _ Hf] Hrest.
  assert (0 < p) as Hp0 by (destruct psz_cases; lia).
  destruct (Hf ltac:(unfold kJavaBase in *; nia)) as [K1 K2].
  split; [nia|done| |rewrite Hl; eapply table_is_keeps; [done|by split|done|reflexivity|left; cbn [Nat.add]; nia]].
  unfold points_to, reads in *. rewrite K2; [done|left|right].
  - unfold zlen. rewrite length_le_bytes. destruct psz_cases; lia.
  - unfold kJavaBase, kTrampolineBase, kTrampolineSize in *. nia.
Qed.

Lemma table_here_reads owner slots b t e :
  bridge_ok b -> table_here owner slots b t e ->
  read_ptr abi e b = (Ret t, b) /\
  forall i nm f, slots !! i = Some (nm, f) -> leads_to b (t + Z.of_nat i * p) (owner +:+ "::" +:+ nm, as_fn f).
Proof.
  intros Hok [(P1 & P2 & P3 & P4) Hm Hp Hs]. assert (0 < p <= 8) as Hp0 by (destruct psz_cases; lia). split.
  - apply pointer_reads; [done| |unfold kJavaEnd, kJavaBase, kJavaSize in *; nia|done].
    split; [nia|]. split; [nia|]. intros x Hx. apply Hm. nia.
  - intros i nm f Hi. pose proof (lookup_lt_Some _ _ _ Hi) as Hlt.
    apply slot_leads; [done| |by apply (Hs i)].
    apply (table_cell _ t (Z.of_nat (length slots))); [|lia]. split; [done|]. split; [nia|].
    intros x Hx. apply Hm. nia.
Qed.

#[local] Abbreviation env_slots_of := (bound_slots env_handlers env_names).
#[local] Abbreviation vm_slots_of := (bound_slots vm_handlers vm_names).

Lemma build_env_run b rest :
  bridge_ok b -> zlen (jb_handlers b) + 307 <= 8192 -> 0 <= rest ->
  arena_ready (mem b) (233 * p + 16 + (p + 16 + rest)) ->
  exists b', build_env abi as_fn b = (Ret tt, b') /\
    vm_ b' = vm_ b /\ vm_table_ b' = vm_table_ b /\ zlen (jb_handlers b') = zlen (jb_handlers b) + 307 /\
    built "JNIEnv" 233 env_slots_of b b' (env_table_ b') (env_ b') rest.
Proof.
  intros Hok Hn Hrest Hr.
  destruct (build_one_run "JNIEnv" env_index env_names env_handlers env_slots_of put_env_table put_env_ptr
              (fun a '(x, _, z, w) => (x, a, z, w)) (fun a '(_, y, z, w) => (a, y, z, w)) b rest)
    as (t & e & b' & E & P & L & T);
    [by repeat split|by repeat split|done|exact Hn|done|exact Hr|apply env_index_lt|exact env_slots|].
  exists b'. rewrite build_env_parts. cbn in P. injection P as -> -> -> ->. by repeat split; try apply T.
Qed.

Lemma build_vm_run b rest :
  bridge_ok b -> zlen (jb_handlers b) + 13 <= 8192 -> 0 <= rest ->
  arena_ready (mem b) (8 * p + 16 + (p + 16 + rest)) ->
  exists b', build_vm abi as_fn b = (Ret tt, b') /\
    env_ b' = env_ b /\ env_table_ b' = env_table_ b /\
    built "JavaVM" 8 vm_slots_of b b' (vm_table_ b') (vm_ b') rest.
Proof.
  intros Hok Hn Hrest Hr.
  destruct (build_one_run "JavaVM" vm_index vm_names vm_handlers vm_slots_of put_vm_table put_vm_ptr
              (fun a '(x, y, z, _) => (x, y, z, a)) (fun a '(x, y, _, w) => (x, y, a, w)) b rest)
    as (t & e & b' & E & P & L & T);
    [by repeat split|by repeat split|done|exact Hn|done|exact Hr|apply vm_index_lt|exact vm_slots|].
  exists b'. rewrite build_vm_parts. cbn in P. injection P as -> -> -> ->. by repeat split; try apply T.
Qed.

(** C20: [build] succeeds and its tables are right.  Following the [JNIEnv*] and
    the [JavaVM*] leads to the tables, and every slot of both (the
    reserved ones included) to the stub whose handler is the one installed
    for the name at that position of the header's member order, or the default stub of that name when there is
    none; installing one handler never disturbs another slot. *)
Theorem build_tables (b : B) :
  bridge_ok b -> zlen (jb_handlers b) + 320 <= 8192 -> arena_ready (mem b) 0x1000 ->
  exists b', build abi as_fn b = (Ret (vm_ b'), b') /\ bridge_ok b' /\
    read_ptr abi (env_ b') b' = (Ret (env_table_ b'), b') /\
    read_ptr abi (vm_ b') b' = (Ret (vm_table_ b'), b') /\
    (forall i nm, env_names !! i = Some nm ->
       leads_to b' (env_table_ b' + Z.of_nat i * p) ("JNIEnv::" +:+ nm, as_fn (bound_fn env_handlers nm))) /\
    (forall i nm, vm_names !! i = Some nm ->
       leads_to b' (vm_table_ b' + Z.of_nat i * p) ("JavaVM::" +:+ nm, as_fn (bound_fn vm_handlers nm))).
Proof.
  intros Hok Hn Hr. assert (0 < p <= 8) as Hp0 by (destruct psz_cases; lia).
  destruct (build_env_run b (8 * p + 16 + (p + 16 + 0)) Hok ltac:(lia) ltac:(lia)
              ltac:(eapply arena_ready_less; [done|lia])) as (b1 & E1 & V1 & V2 & L1 & T1).
  destruct (build_vm_run b1 0 (bt_ok _ _ _ _ _ _ _ _ T1) ltac:(lia) ltac:(lia) (bt_ready _ _ _ _ _ _ _ _ T1))
    as (b2 & E2 & V3 & V4 & T2).
  pose proof (bt_ok _ _ _ _ _ _ _ _ T2) as Hok2. exists b2. split.
  { unfold build. by rewrite (bind_run _ _ _ _ _ E1), (bind_run _ _ _ _ _ E2). }
  pose proof (built_here _ _ _ _ _ _ _ _ T1 (length_fmap _ _) ltac:(lia)) as Th1.
  pose proof (table_here_later _ _ _ _ _ _ _ _ _ _ _ _ Th1 T2 ltac:(lia)) as Th1'.
  pose proof (built_here _ _ _ _ _ _ _ _ T2 (length_fmap _ _) ltac:(lia)) as Th2.
  destruct (table_here_reads _ _ _ _ _ Hok2 Th1') as [Re Se], (table_here_reads _ _ _ _ _ Hok2 Th2) as [Rv Sv].
  rewrite V3, V4. split; [done|]. split; [done|]. split; [done|].
  split; intros i nm Hi; [apply (Se i nm)|apply (Sv i nm)]; unfold bound_slots; by rewrite list_lookup_fmap, Hi.
Qed.
End Tables.

(** ** On the reference emulator *)

Definition demo_bridge : JniBridge RefUc unit JniFn :=
  init_jni (init_java (snd (reserve_page demo_mem0))) kTrampolineBase kTrampolineBase [].

Lemma demo_bridge_ok : bridge_ok demo_bridge.
Proof. split; [done|]. split; [done|]. split; [done|]. exact demo_page_mapped. Qed.
Lemma demo_bridge_ready : arena_ready (j_mem (jb_java demo_bridge)) 0x1000.
Proof. left. split; [reflexivity|]. split; [by vm_compute; eexists|done]. Qed.

(** The seventh slot of the table is [FindClass], and the first one of the VM's
    three functions is installed behind its reserved ones. *)
Lemma build_tables_witness :
  exists b', build Arm64 (fun f => f) demo_bridge = (Ret (vm_ b'), b') /\
    leads_to Arm64 b' (env_table_ b' + 6 * 8) ("JNIEnv::FindClass"%string, JFindClass) /\
    leads_to Arm64 b' (vm_table_ b' + 6 * 8) ("JavaVM::GetEnv"%string, JGetEnv).
Proof.
  destruct (build_tables Arm64 (fun f => f) demo_bridge) as (b' & E & _ & _ & _ & Se & Sv).
  - exact demo_bridge_ok.
  - vm_compute. discriminate.
  - exact demo_bridge_ready.
  - exists b'. split; [exact E|]. split.
    + apply (Se 6%nat "FindClass"%string). reflexivity.
    + apply (Sv 6%nat "GetEnv"%string). reflexivity.
Defined.

(** [CallStaticVoidMethod], unlike its [va_list] form and unlike the other
    varargs calls, is left on the default stub: the call is answered with 0
    and the host's implementation never runs. *)
Example static_void_unhandled :
  bound_fn env_handlers "CallStaticVoidMethod" = JUnimplemented "CallStaticVoidMethod" /\
  bound_fn env_handlers "CallStaticVoidMethodV" = JCallV true RetVoid /\
  bound_fn env_handlers "CallVoidMethod" = JCall false RetVoid.
Proof. vm_compute. done. Qed.
