(* ===== verification/JniFacts.v ===== *)
(** Theorems about the JNI bridge (Jni): method descriptors, the function
    tables, argument passing, strings and byte arrays across the boundary,
    and what every handler keeps of the Java table. *)

From S2P Require Import Prelude.
From S2P Require Import Words.
From S2P Require Import Abi.
From S2P Require Import Unicorn.
From S2P Require Import Engine.
From S2P Require Import Memory.
From S2P Require Import Trampoline.
From S2P Require Import JavaRuntime.
From S2P Require Import Jni.
From S2P Require Import JniTable.
#[local] Open Scope Z_scope.

(** ** Method descriptors *)

(** The types of the Java VM and their text. *)
Inductive JType := TPrim (c : Z) | TClass (name : list Z) | TArray (t : JType).
Fixpoint render (t : JType) : list Z :=
  match t with
  | TPrim c => [c]
  | TClass name => 76 :: name ++ [59]
  | TArray t => 91 :: render t
  end.
Fixpoint type_ok (t : JType) : Prop :=
  match t with
  | TPrim c => c ∈ bs "ZBCSIJFD"
  | TClass name => 59 ∉ name
  | TArray t => type_ok t
  end.
Definition is_ref (t : JType) : bool := match t with TPrim _ => false | _ => true end.
Definition descriptor (args : list JType) (ret : list Z) : list Z :=
  40 :: concat (render <$> args) ++ 41 :: ret.

Lemma skip_until_app stop l r :
  Forall (fun c => stop c = false) l -> skip_until stop (l ++ r) = skip_until stop r.
Proof. induction 1 as [|c l Hc Hl IH]; cbn; [done|]. by rewrite Hc. Qed.

Lemma prim_char c : c ∈ bs "ZBCSIJFD" -> (c =? 41) = false /\ (c =? 91) = false /\ (c =? 76) = false.
Proof. intros Hc. repeat (apply elem_of_cons in Hc as [->|Hc]; [done|]). by apply not_elem_of_nil in Hc. Qed.

Lemma skip_class name rest :
  59 ∉ name -> drop 1 (skip_until (fun x => x =? 59) (76 :: name ++ 59 :: rest)) = rest.
Proof.
  intros Hn. change (76 :: name ++ 59 :: rest) with ((76 :: name) ++ 59 :: rest).
  rewrite skip_until_app; [done|]. apply Forall_cons_2; [done|].
  apply Forall_forall. intros c Hc. apply Z.eqb_neq. by intros ->.
Qed.

(** What follows the brackets of an array type. *)
Lemma skip_brackets t rest :
  type_ok t ->
  (match skip_until (fun x => negb (x =? 91)) (render t ++ rest) with
   | [] => []
   | d :: r' => if d =? 76 then drop 1 (skip_until (fun x => x =? 59) (d :: r')) else r'
   end) = rest.
Proof.
  induction t as [c|name|t IH]; cbn [render type_ok app]; intros Ht.
  - destruct (prim_char c Ht) as (_ & E2 & E3). cbn [skip_until]. by rewrite E2; cbn [negb]; rewrite E3.
  - rewrite <- app_assoc. cbn [skip_until]. cbn [Z.eqb Pos.eqb negb app]. by apply skip_class.
  - cbn [skip_until]. cbn [Z.eqb Pos.eqb negb]. by apply IH.
Qed.

Lemma arg_objects_type t n rest :
  type_ok t -> (length (render t ++ rest) <= n)%nat ->
  exists k, (length rest <= k)%nat /\ arg_objects n (render t ++ rest) = is_ref t :: arg_objects k rest.
Proof.
  intros Ht Hn. rewrite length_app in Hn. destruct n as [|k].
  { destruct t; cbn in Hn; lia. }
  exists k. destruct t as [c|name|t]; cbn [render type_ok app is_ref length] in *.
  - split; [lia|]. destruct (prim_char c Ht) as (E1 & E2 & E3). cbn [arg_objects]. by rewrite E1, E2, E3.
  - split; [rewrite length_app in Hn; cbn in Hn; lia|]. rewrite <- app_assoc. cbn [arg_objects app].
    cbn [Z.eqb Pos.eqb]. f_equal. f_equal. by apply skip_class.
  - split; [lia|]. cbn [arg_objects]. cbn [Z.eqb Pos.eqb]. f_equal. f_equal.
    cbn [skip_until]. cbn [Z.eqb Pos.eqb negb]. by apply skip_brackets.
Qed.

Lemma arg_objects_types args n (ret : list Z) :
  Forall type_ok args -> (length (concat (render <$> args) ++ 41%Z :: ret) <= n)%nat ->
  arg_objects n (concat (render <$> args) ++ 41 :: ret) = is_ref <$> args.
Proof.
  intros Hargs. revert n. induction Hargs as [|t args Ht Hargs IH]; intros n Hn; cbn [fmap list_fmap concat app] in *.
  - destruct n; [cbn in Hn; lia|]. done.
  - rewrite <- app_assoc in *. destruct (arg_objects_type t n _ Ht Hn) as (k & Hk & ->).
    by rewrite (IH k Hk).
Qed.

(** The descriptor parser finds every argument of every well-formed method
    descriptor, in order, and tells references (classes and arrays of any
    depth) from primitives. *)
Lemma parse_descriptor args ret :
  Forall type_ok args -> parse_arg_objects (descriptor args ret) = is_ref <$> args.
Proof. intros Hargs. unfold parse_arg_objects, descriptor. cbn. by apply arg_objects_types. Qed.

(** [(I[[Ljava/lang/String;J[BLa;)V] *)
Lemma parse_descriptor_witness :
  parse_arg_objects (bs "(I[[Ljava/lang/String;J[BLa;)V") = [false; true; false; true; true].
Proof.
  apply (parse_descriptor
    [TPrim 73; TArray (TArray (TClass (bs "java/lang/String"))); TPrim 74; TArray (TPrim 66); TClass (bs "a")]
    (bs "V")).
  repeat apply Forall_cons_2; try apply Forall_nil_2; apply (bool_decide_unpack _); vm_compute; exact I.
Defined.

(** ** The Java table under the handlers *)

Section Keeps.
Context {U HM Fn : Type} `{UcLaws U}.
#[local] Abbreviation J := (JavaRuntime U HM).
#[local] Abbreviation B := (JniBridge U HM Fn).
Variable abi : Abi.
Variables tight evade : bool.
Variable observe : jstring -> jstring -> jstring -> list DvmValue -> bool -> M J unit.
Variable run_host : HM -> Z -> list DvmValue -> M J DvmValue.
Hypothesis observe_grows : forall o n s a b, grows (observe o n s a b).
Hypothesis run_grows : forall f self args, grows (run_host f self args).

(** [grows] for the bridge. *)
Definition jgrows {A} (m : M B A) : Prop :=
  forall b r b', java_ok (jb_java b) -> m b = (r, b') ->
    java_ok (jb_java b') /\ extends (jb_java b) (jb_java b').

Lemma jgrows_ret {A} (a : A) : jgrows (M_ret a).
Proof. intros b r b' Hb [= <- <-]. split; [done|apply extends_refl]. Qed.
Lemma jgrows_bind {A C} (m : M B A) (f : A -> M B C) :
  jgrows m -> (forall a, jgrows (f a)) -> jgrows (M_bind f m).
Proof.
  intros Hm Hf b r b' Hb. unfold M_bind. destruct (m b) as [o b1] eqn:E.
  destruct (Hm _ _ _ Hb E) as [H1 X1]. destruct o as [a|e|]; [|by intros [= <- <-]..].
  intros E'. destruct (Hf a _ _ _ H1 E') as [H2 X2]. split; [done|by eapply extends_trans].
Qed.
Lemma jgrows_get : jgrows get.
Proof. intros b r b' Hb [= _ <-]. split; [done|apply extends_refl]. Qed.
Lemma jgrows_gets {A} (f : B -> A) : jgrows (gets f).
Proof. intros b r b' Hb [= _ <-]. split; [done|apply extends_refl]. Qed.
Lemma jgrows_lift {A} (o : outcome A) : jgrows (lift o).
Proof. intros b r b' Hb [= _ <-]. split; [done|apply extends_refl]. Qed.
Lemma jgrows_java {A} (m : M J A) : grows m -> jgrows (on_java m).
Proof.
  intros Hm b r b' Hb. unfold on_java. destruct (m (jb_java b)) as [o j] eqn:E.
  intros [= _ <-]. exact (Hm _ _ _ Hb E).
Qed.
Lemma jgrows_notify l s : jgrows (notify_bytes l s).
Proof. intros b r b' Hb [= _ <-]. split; [done|apply extends_refl]. Qed.

(** A memory operation that leaves the Java arena alone. *)
Definition keeps_arena {A} (op : M (Memory U) A) : Prop :=
  forall m r m', op m = (r, m') -> java_next_ m' = java_next_ m /\ java_end_ m' = java_end_ m.

Lemma keeps_bind {A C} (m : M (Memory U) A) (f : A -> M (Memory U) C) :
  keeps_arena m -> (forall a, keeps_arena (f a)) -> keeps_arena (M_bind f m).
Proof.
  intros Hm Hf s r s' E. unfold M_bind in E. destruct (m s) as [o s1] eqn:E1.
  destruct (Hm _ _ _ E1) as [A1 A2]. destruct o as [a|e|]; [|by injection E as _ <-..].
  destruct (Hf _ _ _ _ E) as [B1 B2]. by rewrite B1, B2.
Qed.
Lemma keeps_ret {A} (a : A) : keeps_arena (M_ret a).
Proof. by intros m r m' [= _ <-]. Qed.
Lemma keeps_throw {A} e : keeps_arena (throw (A := A) e).
Proof. by intros m r m' [= _ <-]. Qed.
Lemma keeps_get : keeps_arena get.
Proof. by intros m r m' [= _ <-]. Qed.
Lemma keeps_uc_do {A} (op : M U A) : keeps_arena (uc_do op).
Proof. intros m r m'. unfold uc_do. destruct (op (m_uc m)). by intros [= _ <-]. Qed.
Lemma keeps_map_insert a n p k l : keeps_arena (map_insert a n p k l).
Proof. apply keeps_bind; [apply keeps_uc_do|]. intros _ m r m'. by intros [= _ <-]. Qed.
Lemma keeps_mmap n p l : keeps_arena (mmap_alloc n p l).
Proof.
  unfold mmap_alloc. case_match; [apply keeps_throw|]. apply keeps_bind; [apply keeps_get|]. intros m.
  apply keeps_bind; [apply keeps_map_insert|]. intros _.
  apply keeps_bind; [|intros _; apply keeps_ret]. by intros s r s' [= _ <-].
Qed.
Lemma keeps_heap n a : keeps_arena (heap_alloc tight n a).
Proof.
  unfold heap_alloc. apply keeps_bind; [apply keeps_get|]. intros m.
  assert (forall v e, keeps_arena (set_heap v e)) as Hs by (by intros v e s r s' [= _ <-]).
  assert (forall p l, keeps_arena (heap_take tight p l)) as Ht.
  { intros p l. apply keeps_bind; [|intros _; apply keeps_ret]. by intros s r s' [= _ <-]. }
  apply keeps_bind.
  { case_match; [|apply keeps_ret]. apply keeps_bind; [apply keeps_map_insert|intros _; apply Hs]. }
  intros _. apply keeps_bind; [apply keeps_get|]. intros m1. case_match; [|apply Ht].
  apply keeps_bind.
  { intros s r s'. unfold try_catch. destruct (mmap_alloc _ _ _ s) as [[x|e|] s1] eqn:E;
      pose proof (keeps_mmap _ _ _ _ _ _ E); by intros [= _ <-]. }
  intros ext. case_match; [apply keeps_ret|]. apply keeps_bind; [apply Hs|]. intros _.
  case_match; [apply keeps_ret|apply Ht].
Qed.

Lemma jgrows_memory {A} (op : M (Memory U) A) : keeps_arena op -> jgrows (on_memory (HM := HM) (H := Fn) op).
Proof.
  intros Hop. apply jgrows_java. intros j r j' Hj. unfold on_mem.
  destruct (op (j_mem j)) as [o m] eqn:E. intros [= _ <-]. destruct (Hop _ _ _ E) as [E1 E2].
  apply (java_step_grows j); [done|]. apply js_mem; [|lia].
  destruct Hj as [Ha _ _ _ _]. unfold arena_in in *. by rewrite E1, E2.
Qed.
Lemma jgrows_engine {A} (op : M U A) : jgrows (on_engine (HM := HM) (H := Fn) op).
Proof. apply jgrows_memory, keeps_uc_do. Qed.

(** The table operations a handler may call. *)
Ltac table_op :=
  lazymatch goal with
  | |- grows (find_class _) => apply grows_find_class
  | |- grows (get_method_id _ _ _ _) => apply grows_method
  | |- grows (get_field_id _ _ _ _) => apply grows_field
  | |- grows (register_native _ _ _ _) => apply grows_register_native
  | |- grows (new_byte_array_zero _) => apply grows_new_zeroes
  | |- grows (new_object_array _) => apply grows_new_sized
  | |- grows (set_object_array_element _ _ _) => apply grows_set_element
  | |- grows (set_bytes _ _) => apply grows_set_bytes
  | |- grows (set_field _ _ _) => apply grows_set_field
  | |- grows clear_pending_exception => by apply grows_modify
  | |- grows (call_method _ _ _ _ _) => apply grows_call_method; auto
  | |- grows _ => apply grows_new_of
  end.
Ltac bridge_op :=
  cbv zeta;
  lazymatch goal with
  | |- jgrows (mbind _ _) => apply jgrows_bind; [bridge_op|intros; bridge_op]
  | |- jgrows (on_java _) => apply jgrows_java; table_op
  | |- jgrows (on_memory (heap_alloc _ _ _)) => apply jgrows_memory, keeps_heap
  | |- jgrows (notify_bytes _ _) => apply jgrows_notify
  | |- jgrows (lift _) => apply jgrows_lift
  | |- jgrows (throw _) => apply (jgrows_lift (Throw _))
  | |- jgrows (mret _) => apply jgrows_ret
  | |- jgrows skip => apply jgrows_ret
  | |- jgrows get => apply jgrows_get
  | |- jgrows java => apply jgrows_gets
  | |- jgrows (cstr _) => apply jgrows_bind; [apply jgrows_get|intros; apply jgrows_ret]
  | |- jgrows (match ?x with _ => _ end) => destruct x; bridge_op
  | |- jgrows _ => apply jgrows_engine
  end.

Lemma jgrows_give rk r : jgrows (give (HM := HM) (H := Fn) abi rk r).
Proof. destruct rk; [apply jgrows_engine|apply jgrows_engine|apply jgrows_ret]. Qed.

Lemma jgrows_register_all n i c a : jgrows (register_all (HM := HM) (H := Fn) abi n i c a).
Proof.
  revert i. induction n as [|n IH]; intros i; [apply jgrows_ret|]. cbn [register_all].
  apply jgrows_bind; [unfold register_one; bridge_op|intros _; apply IH].
Qed.
Lemma jgrows_capture is_loader objs a :
  jgrows (capture_loader_args (HM := HM) (H := Fn) abi is_loader objs a).
Proof.
  revert a. induction objs as [|o objs IH]; intros a; [apply jgrows_ret|]. cbn [capture_loader_args].
  apply jgrows_bind; [apply jgrows_engine|]. intros x. apply jgrows_bind; [apply jgrows_gets|]. intros j.
  apply jgrows_bind; [bridge_op|intros _; apply IH].
Qed.

Lemma jgrows_calls st rk :
  jgrows (call_dispatch (H := Fn) abi observe run_host st rk) /\
  jgrows (call_dispatch_v (H := Fn) abi observe run_host st rk).
Proof. split; repeat (apply jgrows_bind; [bridge_op|intros]); apply jgrows_give. Qed.
Lemma jgrows_nonvirtual rk : jgrows (nonvirtual_v (H := Fn) abi observe run_host rk).
Proof. repeat (apply jgrows_bind; [bridge_op|intros]); apply jgrows_give. Qed.

Lemma jni_grows f : jgrows (jni_run (H := Fn) abi tight evade observe run_host f).
Proof.
  destruct f; cbn [jni_run]; try apply jgrows_calls; try apply jgrows_nonvirtual;
    unfold FindClass, DefineClass, get_id, GetObjectClass, IsInstanceOf, IsAssignableFrom, GetSuperclass,
      NewStringUTF, GetStringUTFChars, GetStringUTFLength, NewDirectByteBuffer, GetDirectBuffer, NewObjectV,
      GetField, SetField, GetStaticField, NewObjectArray, GetByteArrayRegion, SetByteArrayRegion,
      GetArrayElements, ReleaseByteArrayElements, GetEnv, GetVersion, GetJavaVM, Echo, ExceptionCheck, ExceptionOccurred,
      ExceptionClear, IsSameObject, GetArrayLength, NewByteArray, GetObjectArrayElement,
      SetObjectArrayElement, ReleaseLongArrayElements; try bridge_op.
  - apply jgrows_bind; [bridge_op|]. intros a.
    apply jgrows_bind; [apply jgrows_register_all|intros _; bridge_op].
  - apply jgrows_bind; [bridge_op|]. intros a. apply jgrows_bind; [bridge_op|]. intros j. cbv zeta.
    apply jgrows_bind; [apply jgrows_capture|intros _; bridge_op].
Qed.

(** Whatever the guest calls through the function table, and however the
    call ends, the Java table stays well formed and every handle given out
    before keeps denoting the same class, member, string or object, provided the host's
    implementations of Java methods behave so themselves. *)
Lemma jni_keeps_table f (b : B) r b' :
  java_ok (jb_java b) -> jni_run abi tight evade observe run_host f b = (r, b') ->
  java_ok (jb_java b') /\ extends (jb_java b) (jb_java b').
Proof. apply jni_grows. Qed.
End Keeps.

(** ** Arguments across the boundary *)

Section Marshal.
Context {U HM Fn : Type} `{UcLaws U}.
#[local] Abbreviation J := (JavaRuntime U HM).
#[local] Abbreviation B := (JniBridge U HM Fn).
Variable abi : Abi.
#[local] Abbreviation uc b := (m_uc (j_mem (jb_java b))).

(** [b] on another emulator state. *)
Definition with_uc_of (b : B) (u : U) : B :=
  with_java b (with_j_mem (jb_java b) (with_m_uc (j_mem (jb_java b)) u)).

Lemma on_engine_eq {A} (op : M U A) (b : B) r u : op (uc b) = (r, u) -> on_engine op b = (r, with_uc_of b u).
Proof. intros E. unfold on_engine, on_memory, on_java, on_mem, uc_do. by rewrite E. Qed.
Lemma with_uc_same (b : B) : with_uc_of b (uc b) = b.
Proof. by destruct b as [[[]]]. Qed.

(** [n] integers read with [next] from the cursor [a]. *)
Fixpoint next_values {A} (next : A -> M U (Z * A)) (n : nat) (a : A) : M U (list Z) :=
  match n with
  | O => mret []
  | S k => x ← next a; l ← next_values next k (snd x); mret (fst x :: l)
  end.
Lemma next_values_ints n a u : next_values (next_int abi) n a u = next_ints abi n a u.
Proof.
  revert a u. induction n as [|n IH]; intros a u; [done|]. cbn. unfold mbind, M_mbind, M_bind.
  destruct (next_int abi a u) as [[x|e|] u1]; [|done..]. by rewrite IH.
Qed.

Lemma marshal_values {A} (next : A -> M U (Z * A)) objs a u vals u' :
  next_values next (length objs) a u = (Ret vals, u') ->
  marshal next objs a u = (Ret (zip_with as_value objs vals), u').
Proof.
  revert a u vals. induction objs as [|o objs IH]; intros a u vals; cbn; [by intros [= <- <-]|].
  unfold mbind, M_mbind, M_bind. destruct (next a u) as [[x|e|] u1]; [|done..].
  destruct (next_values next (length objs) (snd x) u1) as [[l|e|] u2] eqn:E; [|done..].
  intros [= <- <-]. by rewrite (IH _ _ _ E).
Qed.

(** Reading arguments changes nothing, and reading on is reading more. *)
Lemma next_int_state a u r u' : next_int abi a u = (r, u') -> u' = u.
Proof.
  unfold next_int, read_reg, read_uc_reg, read_t, e_read, mbind, M_mbind, M_bind, lift, gets.
  destruct (_ <? _)%nat; [by destruct (reg_id _ _); intros [= _ <-]|].
  destruct (reg_id _ _); [|by intros [= _ <-]..]. by destruct (uc_mem_read _ _ _); intros [= _ <-].
Qed.
Lemma take_ints_split n k a u vals u' :
  next_ints abi (n + k) a u = (Ret vals, u') ->
  exists a', take_ints abi n a u = (Ret (take n vals, a'), u) /\ next_ints abi k a' u = (Ret (drop n vals), u') /\
             u' = u /\ length vals = (n + k)%nat.
Proof.
  revert a u vals. induction n as [|n IH]; intros a u vals E.
  - exists a. cbn in *. assert (u' = u /\ length vals = k) as [-> ?].
    { clear -E. revert a u vals E. induction k as [|k IHk]; intros a u vals; cbn; [by intros [= <- <-]|].
      unfold mbind, M_mbind, M_bind. destruct (next_int abi a u) as [[x|e|] u1] eqn:E1; [|done..].
      apply next_int_state in E1 as ->. destruct (next_ints abi k (snd x) u) as [[l|e|] u2] eqn:E2; [|done..].
      intros [= <- <-]. destruct (IHk _ _ _ E2) as [-> <-]. done. }
    done.
  - cbn in *. unfold mbind, M_mbind, M_bind in *.
    destruct (next_int abi a u) as [[x|e|] u1] eqn:E1; [|done..]. pose proof (next_int_state _ _ _ _ E1) as ->.
    destruct (next_ints abi (n + k) (snd x) u) as [[l|e|] u2] eqn:E2; [|done..]. injection E as <- <-.
    destruct (IH _ _ _ E2) as (a' & T1 & T2 & T3 & T4). exists a'. rewrite T1. cbn. split; [done|].
    split; [done|]. split; [done|]. lia.
Qed.

(** The arguments a handler finds. *)
Lemma ints_run (b : B) n k vals u' :
  next_ints abi (n + k) args_init (uc b) = (Ret vals, u') ->
  exists a', ints abi n b = (Ret (take n vals, a'), b) /\ next_ints abi k a' (uc b) = (Ret (drop n vals), uc b) /\
             length vals = (n + k)%nat.
Proof.
  intros E. destruct (take_ints_split _ _ _ _ _ _ E) as (a' & T1 & T2 & -> & T4). exists a'.
  split; [|done]. unfold ints. rewrite (on_engine_eq _ _ _ _ T1). by rewrite with_uc_same.
Qed.

Variable observe : jstring -> jstring -> jstring -> list DvmValue -> bool -> M J unit.
Variable run_host : HM -> Z -> list DvmValue -> M J DvmValue.

(** How a variadic call passes a value [v] of type [t] in one core-register
    word [w]: a reference as it is; a [long] on arm64; the low half of the word
    for anything of up to 32 bits, the rest of which the convention leaves
    open.  A [float] (promoted) or [double] is not passed this way, nor is a
    [long] on arm32, which takes a register pair. *)
Definition passes (t : JType) (v w : Z) : Prop :=
  match t with
  | TPrim c =>
      if c =? 74 then abi = Arm64 /\ - 2 ^ 63 <= v < 2 ^ 63 /\ w = u64 v
      else (c ∉ bs "FD") /\ 0 <= w < 2 ^ (8 * kPointerSize abi) /\ u32 w = u32 v
  | _ => w = v /\ 0 <= v < 2 ^ (8 * kPointerSize abi)
  end.
(** What the host implementation is handed for it. *)
Definition delivers (t : JType) (v : Z) (x : DvmValue) : Prop :=
  match t with
  | TPrim c => exists k, x = DInt k /\ if c =? 74 then k = v else u32 k = u32 v
  | _ => x = DObject v
  end.

Lemma passes_word t v w : passes t v w -> 0 <= w < 2 ^ (8 * kPointerSize abi).
Proof.
  destruct t as [c|n|t]; cbn [passes]; [|by intros [-> ?]..]. destruct (c =? 74); [|tauto].
  intros (-> & _ & ->). apply u64_range.
Qed.
Lemma u32_s64 w : u32 (s64 w) = u32 w.
Proof.
  assert ((w mod 2 ^ 64) mod 2 ^ 32 = w mod 2 ^ 32) as E
    by (apply Z.mod_mod_divide; by exists (2 ^ 32)).
  unfold u32, s64, sext. cbv zeta. case_match; [exact E|]. rewrite <- E, Zminus_mod.
  change (2 ^ 64 mod 2 ^ 32) with 0. by rewrite Z.sub_0_r, Zmod_mod.
Qed.
Lemma passes_delivers t v w : passes t v w -> delivers t v (as_value (is_ref t) w).
Proof.
  destruct t as [c|n|t]; cbn [passes delivers is_ref as_value]; [|by intros [-> _]..].
  intros Hp. exists (s64 w). split; [done|]. destruct (c =? 74).
  - destruct Hp as (_ & Hv & ->). unfold s64, u64. rewrite sext_mod. apply sext_id; [done|exact Hv].
  - rewrite u32_s64. tauto.
Qed.

(** A call with one word per argument. *)
Lemma call_words (b : B) env recv mid vals is_static rk :
  let words := env :: recv :: mid :: vals in
  let objs := parse_arg_objects (method_sig (jb_java b) mid) in
  let sp := uc_reg_read (uc b) (arm_sp abi) in
  let room := overflow_bytes abi (zlen (drop (set_args_nreg abi) words)) in
  kIsArm abi = true -> length vals = length objs -> zlen words < 2 ^ 32 ->
  Forall (fun v => 0 <= v < 2 ^ (8 * kPointerSize abi)) words ->
  room <= sp < 2 ^ (8 * kPointerSize abi) ->
  (forall x, sp - room <= x < sp -> uc_mapped (uc b) x = true) ->
  exists b1, on_engine (set_args abi words) b = (Ret tt, b1) /\
    call_dispatch abi observe run_host is_static rk b1 =
    (r ← on_java (call_method observe run_host mid (if is_static then 0 else recv) (zip_with as_value objs vals));
     give abi rk r) b1.
Proof.
  intros words objs sp room Ha Hlen Hw Hv Hsp Hm.
  destruct (args_passed abi words (uc b) Ha Hw Hv Hsp Hm) as (u & E1 & E2).
  exists (with_uc_of b u). split; [by apply on_engine_eq|].
  change (length words) with (3 + length vals)%nat in E2.
  destruct (ints_run (with_uc_of b u) 3 (length vals) words u E2) as (a & T1 & T2 & _).
  cbn [take drop words] in T1, T2.
  unfold call_dispatch. rewrite (bind_run _ _ _ _ _ T1). unfold java at 1. rewrite bind_gets.
  change (arg ([env; recv; mid], a) 2) with mid. change (arg ([env; recv; mid], a) 1) with recv.
  cbn [snd]. change (method_sig (jb_java (with_uc_of b u)) mid) with (method_sig (jb_java b) mid). fold objs.
  rewrite Hlen, <- next_values_ints in T2. apply marshal_values in T2.
  pose proof (on_engine_eq _ _ _ _ T2) as E3. rewrite with_uc_same in E3.
  by rewrite (bind_run _ _ _ _ _ E3).
Qed.

(** C27: a Java call from native code reaches the host implementation with the
    right receiver and arguments.  [nm] is a function of the table that
    [call_dispatch] serves (ten of the [Call...Method] names;
    [CallStaticVoidMethod] is not one).  When the guest has passed [env], the
    receiver, the method and the arguments of its descriptor by the calling
    convention, registers and stack alike, and each argument is one the
    convention passes in one word ([passes]), the function calls the method
    on them: references as objects, a [long] with its value, and anything
    shorter with its low 32 bits ([delivers]). *)
Theorem call_marshals tight evade (b : B) nm env recv mid args ret ws is_static rk :
  let words := env :: recv :: mid :: ws in
  let sp := uc_reg_read (uc b) (arm_sp abi) in
  let room := overflow_bytes abi (zlen (drop (set_args_nreg abi) words)) in
  bound_fn env_handlers nm = JCall is_static rk ->
  kIsArm abi = true -> zlen words < 2 ^ 32 ->
  method_sig (jb_java b) mid = descriptor (fst <$> args) ret -> Forall type_ok (fst <$> args) ->
  Forall (fun v => 0 <= v < 2 ^ (8 * kPointerSize abi)) [env; recv; mid] ->
  Forall2 (fun a w => passes a.1 a.2 w) args ws ->
  room <= sp < 2 ^ (8 * kPointerSize abi) ->
  (forall x, sp - room <= x < sp -> uc_mapped (uc b) x = true) ->
  exists b1 xs, on_engine (set_args abi words) b = (Ret tt, b1) /\
    Forall2 (fun a x => delivers a.1 a.2 x) args xs /\
    jni_run abi tight evade observe run_host (bound_fn env_handlers nm) b1 =
    (r ← on_java (call_method observe run_host mid (if is_static then 0 else recv) xs); give abi rk r) b1.
Proof.
  intros words sp room Hnm Ha Hw Hsig Hok Hv Hp Hsp Hm.
  assert (parse_arg_objects (method_sig (jb_java b) mid) = is_ref <$> (fst <$> args)) as Eo
    by (rewrite Hsig; by apply parse_descriptor).
  destruct (call_words b env recv mid ws is_static rk) as (b1 & E1 & E2); rewrite ?Eo, ?length_fmap; try done.
  - symmetry. by eapply Forall2_length.
  - change (Forall (fun v => 0 <= v < 2 ^ (8 * kPointerSize abi)) ([env; recv; mid] ++ ws)).
    apply Forall_app. split; [done|]. clear -Hp. induction Hp as [|a w args ws Hw _ IH]; constructor; [by eapply passes_word|done].
  - rewrite Eo in E2. exists b1, (zip_with as_value (is_ref <$> (fst <$> args)) ws). split; [done|]. split.
    + clear -Hp. induction Hp as [|a w args ws Hw _ IH]; cbn; constructor; [by apply passes_delivers|done].
    + rewrite Hnm. exact E2.
Qed.

(** Words [w] in memory from [a] on. *)
Definition words_at (u : U) (a : Z) (l : list Z) : Prop :=
  forall i v, l !! i = Some v -> uc_mem_read u (u64 (a + 8 * Z.of_nat i)) 8 = Some (le_bytes 8 v) /\ 0 <= v < 2 ^ 64.

Lemma words_at_cons u a v l : words_at u a (v :: l) -> words_at u (u64 (a + 8)) l.
Proof.
  intros Hw i x Hi. destruct (Hw (S i) x Hi) as [Hr Hx]. split; [|done]. rewrite <- Hr. f_equal.
  unfold u64. rewrite Zplus_mod_idemp_l. f_equal. lia.
Qed.

Lemma read_word u a v : uc_mem_read u a 8 = Some (le_bytes 8 v) -> 0 <= v < 2 ^ 64 -> read_t 8 a u = (Ret v, u).
Proof.
  intros Hr Hv. unfold read_t, e_read, mbind, M_mbind, M_bind. change (Z.of_nat 8) with 8. rewrite Hr.
  unfold mret, M_mret, M_ret. by rewrite le_val_bytes, Z.mod_small.
Qed.

Lemma valist_reg v x u :
  abi <> Arm32 -> gr_offs v < 0 -> uc_mem_read u (u64 (gr_top v + gr_offs v)) 8 = Some (le_bytes 8 x) -> 0 <= x < 2 ^ 64 ->
  valist_next_int abi v u = (Ret (x, mkVaList (va_stack v) (gr_top v) (vr_top v) (gr_offs v + 8) (vr_offs v)), u).
Proof.
  intros Ha Hg Hr Hx. unfold valist_next_int. destruct (decide (abi = Arm32)); [done|].
  rewrite (proj2 (Z.ltb_lt _ _)) by done. by rewrite (bind_run _ _ _ _ _ (read_word _ _ _ Hr Hx)).
Qed.
Lemma valist_stack v x u :
  abi <> Arm32 -> 0 <= gr_offs v -> uc_mem_read u (va_stack v) 8 = Some (le_bytes 8 x) -> 0 <= x < 2 ^ 64 ->
  valist_next_int abi v u = (Ret (x, mkVaList (u64 (va_stack v + 8)) (gr_top v) (vr_top v) (gr_offs v) (vr_offs v)), u).
Proof.
  intros Ha Hg Hr Hx. unfold valist_next_int. destruct (decide (abi = Arm32)); [done|].
  rewrite (proj2 (Z.ltb_ge _ _)) by done. by rewrite (bind_run _ _ _ _ _ (read_word _ _ _ Hr Hx)).
Qed.

(** The AArch64 [va_list]: first the saved registers, then the stack. *)
Lemma valist_spilled stack top vr vo spilled u :
  abi <> Arm32 -> 0 <= stack < 2 ^ 64 -> words_at u stack spilled ->
  next_values (valist_next_int abi) (length spilled) (mkVaList stack top vr 0 vo) u = (Ret spilled, u).
Proof.
  intros Ha. revert stack. induction spilled as [|v l IH]; intros stack Hst Hs; [done|]. cbn [length next_values].
  destruct (Hs 0%nat v eq_refl) as [Hr Hv]. rewrite Z.add_0_r, u64_id in Hr by done.
  rewrite (bind_run _ _ _ _ _ (valist_stack (mkVaList stack top vr 0 vo) v u Ha ltac:(done) Hr Hv)).
  cbn [snd fst va_stack gr_top vr_top gr_offs vr_offs].
  by rewrite (bind_run _ _ _ _ _ (IH _ (u64_range _) (words_at_cons _ _ _ _ Hs))).
Qed.
Lemma valist_values stack top vr vo regs spilled u :
  abi <> Arm32 -> 0 <= stack < 2 ^ 64 -> words_at u (u64 (top - 8 * zlen regs)) regs -> words_at u stack spilled ->
  next_values (valist_next_int abi) (length regs + length spilled)
    (mkVaList stack top vr (- 8 * zlen regs) vo) u = (Ret (regs ++ spilled), u).
Proof.
  intros Ha Hst Hr Hs. induction regs as [|v regs IH]; [by apply valist_spilled|].
  cbn [length Nat.add next_values app]. set (n := zlen (v :: regs)) in *.
  assert (n = zlen regs + 1) as Hz by (unfold n, zlen; cbn [length]; lia). pose proof (zlen_nonneg regs) as Hn.
  destruct (Hr 0%nat v eq_refl) as [Hrd Hv]. rewrite Z.add_0_r, (u64_id (u64 _)) in Hrd by apply u64_range.
  replace (top - 8 * n) with (top + -8 * n) in Hrd by lia.
  rewrite (bind_run _ _ _ _ _ (valist_reg (mkVaList stack top vr (-8 * n) vo) v u Ha ltac:(cbn; lia) Hrd Hv)).
  cbn [snd fst va_stack gr_top vr_top gr_offs vr_offs].
  replace (-8 * n + 8) with (-8 * zlen regs) by lia. rewrite (bind_run _ _ _ _ _ (IH ltac:(
    apply words_at_cons in Hr; replace (u64 (top - 8 * zlen regs)) with (u64 (u64 (top - 8 * n) + 8));
      [done|unfold u64; rewrite Zplus_mod_idemp_l; f_equal; lia]))). done.
Qed.
End Marshal.

(** ** Byte arrays *)

Section Bytes.
Context {U HM Fn : Type} `{UcLaws U}.
#[local] Abbreviation J := (JavaRuntime U HM).
#[local] Abbreviation B := (JniBridge U HM Fn).
Variable abi : Abi.
Variable tight : bool.
#[local] Abbreviation uc b := (m_uc (j_mem (jb_java b))).

(** The guest has passed [l]. *)
Definition passed (b : B) (l : list Z) : Prop := exists a, ints abi (length l) b = (Ret (l, a), b).

Lemma passed_intro (b : B) l : fst (next_ints abi (length l) args_init (uc b)) = Ret l -> passed b l.
Proof.
  intros E. destruct (next_ints abi (length l) args_init (uc b)) as [r u] eqn:En. cbn in E. subst r.
  rewrite <- (Nat.add_0_r (length l)) in En.
  destruct (ints_run abi b (length l) 0 l u En) as (a & Ha & _ & _). exists a.
  by rewrite firstn_all in Ha.
Qed.

Lemma bytes_view_set (j : J) arr l l' :
  bytes_view j arr = Some l -> bytes_view (snd (set_bytes arr l' j)) arr = Some l'.
Proof.
  unfold bytes_view, get_kind, set_bytes, update_rec, modify. cbn [snd].
  destruct (get_rec j arr) as [r|] eqn:Er; [|done]. destruct (decide (kind r = RByteArray)) as [Ek|]; [|done].
  intros _. unfold get_rec. cbn [with_handles handles_]. rewrite lookup_insert_eq. cbn [with_bytes kind jbytes].
  by rewrite decide_True.
Qed.

Lemma e_read_run (u : U) a n l : uc_mem_read u a n = Some l -> e_read a n u = (Ret l, u).
Proof. unfold e_read. by intros ->. Qed.

(** [SetByteArrayRegion] copies guest memory into the array and reports the
    whole new content.  For a range inside the array the bytes of the range
    become those at [buf], the others stay; for a range that is empty, or
    ends beyond the array without wrapping, or an unknown array, nothing happens at all. *)
Lemma set_region_spec (b : B) env arr start len buf :
  passed b [env; arr; start; len; buf] -> 0 <= start -> 0 <= len -> start + len < 2 ^ 64 ->
  match bytes_view (jb_java b) arr with
  | Some l =>
      if decide (0 < len /\ start + len <= zlen l) then
        forall piece, uc_mem_read (uc b) buf len = Some piece ->
        exists b' l', SetByteArrayRegion abi b = (Ret tt, b') /\ bytes_view (jb_java b') arr = Some l' /\
          zlen l' = zlen l /\ notified b' = notified b ++ [(l', bs "SetByteArrayRegion")] /\
          forall i, l' !! i = if decide (start <= Z.of_nat i < start + len)
                              then piece !! (i - Z.to_nat start)%nat else l !! i
      else SetByteArrayRegion abi b = (Ret tt, b)
  | None => SetByteArrayRegion abi b = (Ret tt, b)
  end.
Proof.
  intros [a Ha] Hs Hl Hw. unfold SetByteArrayRegion.
  rewrite (bind_run _ _ _ _ _ Ha). unfold java. rewrite bind_gets.
  change (arg (_, a) 1) with arr. change (arg (_, a) 2) with start. change (arg (_, a) 3) with len.
  change (arg (_, a) 4) with buf. cbv zeta.
  destruct (bytes_view (jb_java b) arr) as [l|] eqn:Ev; [|done].
  unfold region_fits. rewrite (u64_id (start + len)) by lia.
  case_decide as Hd.
  2: { destruct (Z.leb_spec (start + len) (zlen l)), (Z.eqb_spec len 0); cbn [andb negb]; done || lia. }
  rewrite (proj2 (Z.leb_le _ _)), (proj2 (Z.eqb_neq _ _)) by lia. cbn [andb negb].
  intros piece Hr. unfold bytes_region. rewrite (proj2 (Z.leb_le _ _)) by lia. rewrite bind_lift_ret.
  pose proof (on_engine_eq _ _ _ _ (e_read_run _ _ _ _ Hr)) as E. rewrite with_uc_same in E.
  rewrite (bind_run _ _ _ _ _ E). cbv zeta.
  set (l' := take (Z.to_nat start) l ++ piece ++ drop (Z.to_nat (start + len)) l).
  destruct (law_read_len _ _ _ _ Hr) as [Hp _]. unfold zlen in *.
  assert (length l' = length l) as Hlen by (unfold l'; rewrite !length_app, length_take, length_drop; lia).
  eexists _, l'. split; [reflexivity|]. split; [by apply (bytes_view_set (jb_java b) arr l)|].
  split; [by rewrite Hlen|]. split; [done|]. intros i. unfold l'.
  case_decide as Hi.
  - rewrite lookup_app_r by (rewrite length_take; lia). rewrite lookup_app_l by (rewrite length_take; lia).
    f_equal. rewrite length_take. lia.
  - destruct (decide (Z.of_nat i < start)).
    + rewrite lookup_app_l by (rewrite length_take; lia). by rewrite lookup_take_lt by lia.
    + rewrite lookup_app_r by (rewrite length_take; lia). rewrite lookup_app_r by (rewrite length_take; lia).
      rewrite lookup_drop. f_equal. rewrite length_take. lia.
Qed.

(** [GetByteArrayRegion] the other way round: the range arrives at [buf]. *)
Lemma get_region_spec (b : B) env arr start len buf l :
  passed b [env; arr; start; len; buf] -> 0 <= start -> 0 < len -> start + len <= zlen l -> zlen l < 2 ^ 64 ->
  bytes_view (jb_java b) arr = Some l -> bytes_ok l ->
  (forall x, buf <= x < buf + len -> uc_mapped (uc b) x = true) ->
  exists b', GetByteArrayRegion abi b = (Ret tt, b') /\
    uc_mem_read (uc b') buf len = Some (take (Z.to_nat len) (drop (Z.to_nat start) l)) /\
    (forall c n, c + n <= buf \/ buf + len <= c -> uc_mem_read (uc b') c n = uc_mem_read (uc b) c n).
Proof.
  intros [a Ha] Hs Hl Hf Hw Ev Hb Hm. unfold GetByteArrayRegion.
  rewrite (bind_run _ _ _ _ _ Ha). unfold java. rewrite bind_gets.
  change (arg (_, a) 1) with arr. change (arg (_, a) 2) with start. change (arg (_, a) 3) with len.
  change (arg (_, a) 4) with buf. cbv zeta. rewrite Ev. unfold region_fits. rewrite (u64_id (start + len)) by lia.
  rewrite (proj2 (Z.leb_le _ _)), (proj2 (Z.eqb_neq _ _)) by lia. cbn [andb negb].
  unfold bytes_region. rewrite (proj2 (Z.leb_le _ _)) by lia. rewrite bind_lift_ret.
  set (piece := take _ _). assert (zlen piece = len) as Hz.
  { unfold piece, zlen in *. rewrite length_take, length_drop. lia. }
  destruct (e_write_run buf piece (uc b)) as (u & E & W & _); [by rewrite Hz|].
  exists (with_uc_of b u). split; [unfold e_write_at; by rewrite (on_engine_eq _ _ _ _ E)|].
  split; [rewrite <- Hz at 1; apply (law_read_write (uc b) buf piece u); [by apply Forall_take, Forall_drop|done]|].
  intros c n Hc. apply (law_read_write_ne _ _ _ _ _ _ W). by rewrite Hz.
Qed.
End Bytes.

(** ** Strings *)

Section Strings.
Context {U HM Fn : Type} `{UcLaws U}.
#[local] Abbreviation J := (JavaRuntime U HM).
#[local] Abbreviation B := (JniBridge U HM Fn).
Variable abi : Abi.
Variable tight : bool.
#[local] Abbreviation uc b := (m_uc (j_mem (jb_java b))).

Definition ret_reg : ucreg := match abi with Arm64 => A64_X 0 | _ => A32_R 0 end.
Definition returned (b : B) : Z := uc_reg_read (uc b) ret_reg.

Lemma ret0_run (b : B) v :
  kIsArm abi = true ->
  exists b', ret0 abi v b = (Ret tt, b') /\ returned b' = v mod 2 ^ (8 * kPointerSize abi) /\
    jb_java b' = with_j_mem (jb_java b) (with_m_uc (j_mem (jb_java b)) (uc b')) /\
    (forall a n, uc_mem_read (uc b') a n = uc_mem_read (uc b) a n).
Proof.
  intros Ha. exists (with_uc_of b (uc_reg_write (uc b) ret_reg v)).
  split; [|split; [|split; [done|intros a n; apply law_read_reg]]].
  - unfold ret0. apply on_engine_eq. unfold write_reg, ret_reg. by destruct abi.
  - unfold returned, ret_reg. cbn [with_uc_of with_java jb_java with_j_mem j_mem with_m_uc m_uc].
    destruct abi; try done; by apply (law_reg_same (uc b) _ v).
Qed.

Lemma read_cstr_ok (u : U) p n : bytes_ok (read_cstr p n u) /\ zlen (read_cstr p n u) <= Z.of_nat n.
Proof.
  revert p. induction n as [|n IH]; intros p; cbn [read_cstr]; [split; [constructor|done]|].
  destruct (uc_mem_read u p 1) as [[|c [|]]|] eqn:E; [split; [constructor|unfold zlen; cbn; lia]| |split; [constructor|unfold zlen; cbn; lia]..].
  destruct (law_read_len _ _ _ _ E) as [_ Hc]. destruct (c =? 0); [split; [constructor|unfold zlen; cbn; lia]|].
  destruct (IH (p + 1)) as [I1 I2]. split; [constructor; [by inversion Hc|done]|]. unfold zlen in *. cbn [length]. lia.
Qed.

(** The handle [NewStringUTF] returns is that of the string at [p]. *)
Lemma new_string_run (b b1 : B) env p :
  kIsArm abi = true -> java_ok (jb_java b) -> p <> 0 -> passed abi b [env; p] -> NewStringUTF abi b = (Ret tt, b1) ->
  java_ok (jb_java b1) /\ string_of (jb_java b1) (returned b1) = Some (read_cstr p 4096 (uc b)).
Proof.
  intros Ha Hj Hp [a Hargs]. unfold NewStringUTF. rewrite (bind_run _ _ _ _ _ Hargs).
  change (arg (_, a) 1) with p. rewrite (proj2 (Z.eqb_neq _ _) Hp). 
  set (s := read_cstr p 4096 (uc b)).
  assert (forall (k : list Z -> M B unit), (x ← (c ← get; mret (read_cstr p 4096 (uc c))); k x) b = k s b) as Ek by done.
  rewrite Ek. clearbody s. clear Ek. intros (h & b2 & E2 & E3)%bind_ret_inv.
  unfold on_java in E2. destruct (new_string_utf s (jb_java b)) as [o j2] eqn:En. injection E2 as -> <-.
  destruct (new_of_run _ _ _ _ _ Hj En) as (Hj2 & _ & r' & Hr & Hid).
  destruct (jgrows_engine _ (with_java b j2) _ _ Hj2 E3) as [Hj1 _].
  destruct (ret0_run (with_java b j2) h Ha) as (b3 & E4 & R & Ej & _). rewrite E3 in E4. injection E4 as ->.
  assert (returned b3 = h) as ->.
  { rewrite R. destruct (jo_shadow _ Hj2 _ _ Hr) as (L1 & L2 & _). apply Z.mod_small.
    assert (h < 2 ^ 32) as ?.
    { destruct (jo_arena _ Hj2) as [E|[E _]]; unfold kShadowSize, kJavaEnd, kJavaBase, kJavaSize in *; lia. }
    unfold kJavaBase in *. unfold kPointerSize. destruct (kIs64 abi); cbn -[Z.pow]; lia. }
  split; [done|]. rewrite Ej. unfold string_of, get_kind, get_rec. cbn [with_java jb_java with_j_mem handles_].
  rewrite Hr. destruct Hid as (K & _ & _ & _ & Hu & _). rewrite decide_True by done. cbn [fmap option_fmap option_map].
  by rewrite Hu.
Qed.

Lemma read_nothing (u : U) a : uc_mem_read u a 0 = Some [].
Proof.
  destruct (law_write_ok u a []) as [u' W]; [intros x Hx; change (zlen []) with 0 in Hx; lia|].
  pose proof (law_read_write u a [] u' ltac:(constructor) W) as R. change (zlen []) with 0 in R.
  rewrite <- R. symmetry. apply (law_read_write_ne _ _ _ _ _ _ W). change (zlen []) with 0. lia.
Qed.

(** The bytes of a string, when there are any. *)
Lemma write_text_run (b : B) buf s :
  bytes_ok s -> (forall x, buf <= x < buf + zlen s -> uc_mapped (uc b) x = true) ->
  exists u, (if bool_decide (s = []) then skip else e_write_at buf s) b = (Ret tt, with_uc_of b u) /\
            reads u buf s /\ forall x, uc_mapped u x = uc_mapped (uc b) x.
Proof.
  intros Hok Hm. case_bool_decide as Es.
  - subst s. exists (uc b). rewrite with_uc_same. split; [done|]. split; [apply read_nothing|done].
  - destruct (e_write_run buf s (uc b) Hm) as (u & E & W & M). exists u. split; [by apply on_engine_eq|].
    split; [by apply (law_read_write _ _ _ _ Hok W)|done].
Qed.

(** What a later [GetStringUTFChars] of a string makes of it. *)
Lemma string_chars_run (b : B) env h s blocks buf m' :
  kIsArm abi = true -> passed abi b [env; h; 0] -> string_of (jb_java b) h = Some s -> bytes_ok s -> zlen s <= 4096 ->
  heap_inv (j_mem (jb_java b)) blocks -> 0 <= heap_next_ (j_mem (jb_java b)) < 2 ^ 62 ->
  heap_alloc tight (zlen s + 1) 16 (j_mem (jb_java b)) = (Ret buf, m') -> buf <> 0 ->
  0 <= buf -> buf + zlen s < 2 ^ 64 ->
  exists b', GetStringUTFChars abi tight b = (Ret tt, b') /\ returned b' = buf mod 2 ^ (8 * kPointerSize abi) /\
    reads (uc b') buf s /\ reads (uc b') (buf + zlen s) [0].
Proof.
  intros Ha [a Hargs] Hs Hok Hlen Hinv Hn Halloc Hb0 Hb1 Hb2. unfold GetStringUTFChars.
  rewrite (bind_run _ _ _ _ _ Hargs). unfold java. rewrite bind_gets.
  change (arg (_, a) 1) with h. change (arg (_, a) 2) with 0. cbv zeta. rewrite Hs. change (default [] (Some s)) with s.
  pose proof (zlen_nonneg s) as Hz.
  destruct (heap_alloc_new tight _ m' blocks (zlen s + 1) 4 buf Hinv ltac:(lia) ltac:(lia) Hn Hb0 Halloc)
    as (_ & Hmap & _).
  assert (on_memory (heap_alloc tight (zlen s + 1) 16) b
          = (Ret buf, with_java b (with_j_mem (jb_java b) m'))) as E1
    by (unfold on_memory, on_java, on_mem; by rewrite Halloc).
  rewrite (bind_run _ _ _ _ _ E1). set (b1 := with_java b _).
  assert (forall x, buf <= x < buf + (zlen s + 1) -> uc_mapped (uc b1) x = true) as Hm1 by (intros x Hx; by apply Hmap).
  destruct (write_text_run b1 buf s Hok ltac:(intros x Hx; apply Hm1; lia)) as (u2 & E2 & R2 & M2).
  rewrite (bind_run _ _ _ _ _ E2).
  rewrite (u64_id (buf + zlen s)) by lia.
  destruct (e_write_run (buf + zlen s) [0] u2) as (u3 & E3 & W3 & M3).
  { intros x Hx. change (zlen [0]) with 1 in Hx. rewrite M2. apply Hm1. lia. }
  assert (e_write_at (buf + zlen s) [0] (with_uc_of b1 u2) = (Ret tt, with_uc_of b1 u3)) as E4
    by (by apply (on_engine_eq _ (with_uc_of b1 u2))).
  rewrite (bind_run _ _ _ _ _ E4). cbn [Z.eqb]. rewrite bind_skip.
  destruct (ret0_run (with_uc_of b1 u3) buf Ha) as (b4 & E5 & R5 & _ & N5).
  exists b4. split; [exact E5|]. split; [exact R5|]. unfold reads in *. rewrite !N5. split.
  - rewrite <- R2. apply (law_read_write_ne _ _ _ _ _ _ W3). lia.
  - apply (law_read_write u2); [by repeat constructor|exact W3].
Qed.

(** A C string the guest turns into a Java string comes back the same,
    whatever happened to the Java table in between.  [NewStringUTF] reads it up to its NUL;
    [GetStringUTFChars] on the handle answers with a fresh buffer that holds
    exactly those bytes and a NUL. *)
Lemma string_roundtrip (b b1 b2 : B) env env' p blocks buf m' :
  let s := read_cstr p 4096 (uc b) in
  kIsArm abi = true -> java_ok (jb_java b) -> p <> 0 -> passed abi b [env; p] ->
  NewStringUTF abi b = (Ret tt, b1) -> extends (jb_java b1) (jb_java b2) -> passed abi b2 [env'; returned b1; 0] ->
  heap_inv (j_mem (jb_java b2)) blocks -> 0 <= heap_next_ (j_mem (jb_java b2)) < 2 ^ 62 ->
  heap_alloc tight (zlen s + 1) 16 (j_mem (jb_java b2)) = (Ret buf, m') -> 0 < buf < 2 ^ 63 ->
  exists b3, GetStringUTFChars abi tight b2 = (Ret tt, b3) /\ returned b3 = buf mod 2 ^ (8 * kPointerSize abi) /\
    reads (uc b3) buf s /\ reads (uc b3) (buf + zlen s) [0].
Proof.
  intros s Ha Hj Hp Hargs E X Hargs2 Hinv Hn Halloc Hb.
  destruct (new_string_run b b1 env p Ha Hj Hp Hargs E) as [_ Hs]. fold s in Hs.
  destruct (read_cstr_ok (uc b) p 4096) as [Hok Hlen]. fold s in Hok, Hlen. clearbody s.
  apply (string_chars_run b2 env' (returned b1) s blocks buf m'); try done; [|lia..].
  by apply (string_of_keeps (jb_java b1)).
Qed.
End Strings.

(** ** On the reference emulator *)

#[local] Abbreviation DB := (JniBridge RefUc unit unit).
Definition quiet (o n s : jstring) (a : list DvmValue) (handled : bool) : M (JavaRuntime RefUc unit) unit := skip.
Definition answers (v : DvmValue) (f : unit) (self : Z) (a : list DvmValue) : M (JavaRuntime RefUc unit) DvmValue :=
  mret v.

(** A mapped page with a stack pointer, a C string and some bytes on it. *)
Definition demo_memory : Memory RefUc :=
  snd ((_ ← map_fixed 0x10000 0x1000 3 Other "data"; _ ← uc_do (write_reg Arm64 Sp 0x10800);
        _ ← uc_do (e_write 0x10100 (bs "hello" ++ [0])); uc_do (e_write 0x10200 [1; 2; 3])) demo_mem0).
Definition demo_jni : DB := init_jni (init_java demo_memory) kTrampolineBase kTrampolineBase [].
(** The guest passes [l]. *)
Definition demo_pass (l : list Z) (b : DB) : DB := snd (on_engine (set_args Arm64 l) b).
(** The Java table holds a method and an array of five bytes. *)
Definition demo_objects : DB :=
  snd (on_java (_ ← find_class (bs "a/B"); _ ← get_method_id kJavaBase (bs "run") (bs "(ILa/B;J)V") false;
                new_byte_array [10; 11; 12; 13; 14]) demo_jni).
Definition demo_array : Z := kJavaBase + 0x100.

Lemma demo_jni_ok : java_ok (jb_java demo_jni).
Proof. apply init_java_ok. left. reflexivity. Qed.
Lemma demo_mapped x : 0x10000 <= x < 0x11000 -> uc_mapped (m_uc (j_mem (jb_java demo_objects))) x = true.
Proof.
  intros Hx. assert (ru_ranges (m_uc (j_mem (jb_java demo_objects))) = [(kJavaBase, kJavaSize); (0x10000, 0x1000)]) as E
    by (vm_compute; reflexivity).
  cbn [uc_mapped RefUc_ops]. unfold ru_mapped. rewrite E. cbn [existsb].
  rewrite (proj2 (in_range_spec 0x10000 0x1000 x)) by lia. apply orb_true_iff. by right.
Qed.

Lemma demo_pass_ok l b : java_ok (jb_java b) -> java_ok (jb_java (demo_pass l b)).
Proof. intros Hb. exact (proj1 (jgrows_engine (set_args Arm64 l) b _ _ Hb (surjective_pairing _))). Qed.
Lemma demo_pass_extends l b : java_ok (jb_java b) -> extends (jb_java b) (jb_java (demo_pass l b)).
Proof. intros Hb. exact (proj2 (jgrows_engine (set_args Arm64 l) b _ _ Hb (surjective_pairing _))). Qed.

(** The string "hello" on its way. *)
Definition demo_asked : DB := demo_pass [0x77; 0x10100] demo_jni.
Definition demo_string : DB := snd (NewStringUTF Arm64 demo_asked).
Lemma demo_string_run : NewStringUTF Arm64 demo_asked = (Ret tt, demo_string).
Proof.
  assert (fst (NewStringUTF Arm64 demo_asked) = Ret tt) as E by (vm_compute; reflexivity).
  rewrite <- E. apply surjective_pairing.
Qed.

Lemma quiet_grows o n s a b : grows (quiet o n s a b).
Proof. apply grows_ret. Qed.
Lemma answers_grows v f self a : grows (answers v f self a).
Proof. apply grows_ret. Qed.

Lemma demo_string_ok : java_ok (jb_java demo_string).
Proof.
  exact (proj1 (jni_grows Arm64 false true quiet (answers DVoid) quiet_grows (answers_grows DVoid) JNewStringUTF
           demo_asked (Ret tt) demo_string (demo_pass_ok _ _ demo_jni_ok) demo_string_run)).
Qed.

Lemma jni_keeps_table_witness :
  java_ok (jb_java demo_string) /\ extends (jb_java demo_asked) (jb_java demo_string).
Proof.
  exact (jni_keeps_table Arm64 false true quiet (answers DVoid) quiet_grows (answers_grows DVoid) JNewStringUTF
           demo_asked (Ret tt) demo_string (demo_pass_ok _ _ demo_jni_ok) demo_string_run).
Defined.

(** A call of [a/B.run(int, a/B, long)]; the upper half of the word of the
    [int] is what was left in the register. *)
Definition demo_call_args : list (JType * Z) := [(TPrim 73, -5); (TClass (bs "a/B"), kJavaBase); (TPrim 74, -6)].
Definition demo_call_words : list Z := [0x7_fffffffb; kJavaBase; 2 ^ 64 - 6].

Lemma call_marshals_witness :
  exists b1 xs, on_engine (set_args Arm64 ([0x77; 0x99; kJavaBase + 0x80] ++ demo_call_words)) demo_objects = (Ret tt, b1) /\
    Forall2 (fun a x => delivers a.1 a.2 x) demo_call_args xs /\
    jni_run Arm64 false true quiet (answers (DInt 42)) (bound_fn env_handlers "CallIntMethod") b1 =
    (r ← on_java (call_method quiet (answers (DInt 42)) (kJavaBase + 0x80) 0x99 xs); give Arm64 RetInt r) b1.
Proof.
  apply (call_marshals Arm64 quiet (answers (DInt 42)) false true demo_objects "CallIntMethod" 0x77 0x99 (kJavaBase + 0x80)
           demo_call_args (bs "V") demo_call_words false RetInt).
  - vm_compute. reflexivity.
  - reflexivity.
  - vm_compute. reflexivity.
  - vm_compute. reflexivity.
  - repeat apply Forall_cons_2; try apply Forall_nil_2; apply (bool_decide_unpack _); vm_compute; exact I.
  - repeat apply Forall_cons_2; try apply Forall_nil_2; (split; [vm_compute; discriminate|vm_compute; reflexivity]).
  - repeat apply Forall2_cons_2; try apply Forall2_nil_2; cbn [passes fst snd Z.eqb Pos.eqb].
    + split; [apply (bool_decide_unpack _); vm_compute; exact I|]. split; [by vm_compute|vm_compute; reflexivity].
    + split; [reflexivity|by vm_compute].
    + split; [reflexivity|]. split; [lia|vm_compute; reflexivity].
  - assert (uc_reg_read (m_uc (j_mem (jb_java demo_objects))) (arm_sp Arm64) = 0x10800) as -> by (vm_compute; reflexivity).
    split; [vm_compute; discriminate|vm_compute; reflexivity].
  - intros x Hx. exfalso. change (overflow_bytes Arm64 _) with 0 in Hx. lia.
Defined.

(** A negative [int] comes as a large positive number: the word is read as a
    signed 64-bit integer, on arm32 after being extended with zeroes. *)
Example negative_int_argument : as_value false (u32 (-5)) = DInt 4294967291.
Proof. vm_compute. reflexivity. Qed.

Definition demo_region : DB := demo_pass [0x77; demo_array; 1; 3; 0x10200] demo_objects.
Lemma set_region_spec_witness :
  exists b' l', SetByteArrayRegion Arm64 demo_region = (Ret tt, b') /\
    bytes_view (jb_java b') demo_array = Some l' /\ l' !! 0%nat = Some 10 /\ l' !! 1%nat = Some 1.
Proof.
  assert (passed Arm64 demo_region [0x77; demo_array; 1; 3; 0x10200]) as Hp by (apply passed_intro; vm_compute; reflexivity).
  assert (bytes_view (jb_java demo_region) demo_array = Some [10; 11; 12; 13; 14]) as Ev by (vm_compute; reflexivity).
  assert (uc_mem_read (m_uc (j_mem (jb_java demo_region))) 0x10200 3 = Some [1; 2; 3]) as Er by (vm_compute; reflexivity).
  pose proof (set_region_spec Arm64 demo_region 0x77 demo_array 1 3 0x10200 Hp ltac:(lia) ltac:(lia) ltac:(lia)) as T.
  rewrite Ev in T. rewrite decide_True in T by (unfold zlen; cbn; lia).
  destruct (T [1; 2; 3] Er) as (b' & l' & E & V & _ & _ & L).
  exists b', l'. split; [exact E|]. split; [exact V|]. split; rewrite L; reflexivity.
Defined.

(** A start near 2^64 passes the check, which adds in 64 bits, and the copy
    starts before the vector. *)
Example region_wraps :
  fst (SetByteArrayRegion Arm64 (demo_pass [0x77; demo_array; 2 ^ 64 - 1; 2; 0x10200] demo_objects)) = UB /\
  fst (GetByteArrayRegion Arm64 (demo_pass [0x77; demo_array; 2 ^ 64 - 1; 2; 0x10200] demo_objects)) = UB.
Proof. vm_compute. done. Qed.

(** Two handles that are no classes have the same, empty, class name, and so
    count as assignable to each other. *)
Example unknown_classes_assignable :
  returned Arm64 (snd (jni_run Arm64 false true quiet (answers DVoid) JIsAssignableFrom
                         (demo_pass [0x77; 0x1234; 0x5678] demo_objects))) = 1.
Proof. vm_compute. reflexivity. Qed.

(** The comment on [IsInstanceOf] says that only an exact match is affirmed;
    the registered hierarchy is consulted. *)
Example instance_of_superclass :
  let b := snd (on_java (_ ← register_android_hierarchy; _ ← find_class (bs "android/content/Context");
                         new_object (bs "com/stub/StubApp")) demo_jni) in
  returned Arm64 (snd (jni_run Arm64 false true quiet (answers DVoid) JIsInstanceOf
                         (demo_pass [0x77; kJavaBase + 0x80; kJavaBase] b))) = 1.
Proof. vm_compute. reflexivity. Qed.

(** The string there and back. *)
Definition demo_chars : DB := demo_pass [0x77; kJavaBase; 0] demo_string.
Lemma string_roundtrip_witness :
  exists b3, GetStringUTFChars Arm64 false demo_chars = (Ret tt, b3) /\ returned Arm64 b3 = kHeapBase /\
    reads (m_uc (j_mem (jb_java b3))) kHeapBase (bs "hello") /\
    reads (m_uc (j_mem (jb_java b3))) (kHeapBase + 5) [0].
Proof.
  assert (read_cstr 0x10100 4096 (m_uc (j_mem (jb_java demo_asked))) = bs "hello") as Es by (vm_compute; reflexivity).
  assert (returned Arm64 demo_string = kJavaBase) as Er by (vm_compute; reflexivity).
  assert (heap_next_ (j_mem (jb_java demo_chars)) = 0) as En by (vm_compute; reflexivity).
  pose proof (string_roundtrip Arm64 false demo_asked demo_string demo_chars 0x77 0x77 0x10100 [] kHeapBase
    (snd (heap_alloc false 6 16 (j_mem (jb_java demo_chars))))) as T.
  cbv zeta in T. rewrite Es, Er in T. apply T.
  - reflexivity.
  - apply demo_pass_ok, demo_jni_ok.
  - lia.
  - apply passed_intro. vm_compute. reflexivity.
  - exact demo_string_run.
  - apply demo_pass_extends, demo_string_ok.
  - apply passed_intro. vm_compute. reflexivity.
  - unfold heap_inv. rewrite En. split; [constructor|intros x Hx; lia].
  - rewrite En. lia.
  - assert (fst (heap_alloc false 6 16 (j_mem (jb_java demo_chars))) = Ret kHeapBase) as Ea by (vm_compute; reflexivity).
    change (zlen (bs "hello") + 1) with 6. rewrite <- Ea. apply surjective_pairing.
  - unfold kHeapBase. lia.
Defined.
