(* ===== verification/GdbStub.v ===== *)
(** The debugger server: [core/engine/gdb_stub.cpp],
    [include/vardoger/engine/gdb_stub.hpp].

    A packet is the list of its bytes.  The socket is two lists: the bytes the
    client is still to send, whose end is the closed connection, and the bytes
    sent to it.  Setting up the socket is the operating system's part: [listen]
    is given the client's bytes, or nothing when the setup fails. *)

From S2P Require Import Prelude.
From S2P Require Import Words.
From S2P Require Import Abi.
From S2P Require Import Unicorn.
From S2P Require Import Engine.
#[local] Open Scope Z_scope.

Definition kSigTrap : Z := 5.
Definition kSigInt : Z := 2.
Definition kSigSegv : Z := 11.

(** ** The register table *)

Record RegDesc := mkRegDesc {
  rd_name : string; uc_id : ucreg; bits : Z; rd_type : option string; generic : option string;
  fpu : bool;
}.

(** A decimal number ([std::to_string]). *)
Fixpoint dec_digits (fuel : nat) (n : Z) (acc : list Z) : list Z :=
  match fuel with
  | O => acc
  | S k => let acc := (48 + n mod 10) :: acc in if n <? 10 then acc else dec_digits k (n / 10) acc
  end.
Definition to_string (n : Z) : list Z := dec_digits 20 n [].

(** A name with a number: [x0], [v31]. *)
Definition numbered (c : string) (n : nat) : string :=
  (c +:+ String.string_of_list_ascii
     ((fun b => Ascii.ascii_of_N (Z.to_N b)) <$> to_string (Z.of_nat n)))%string.

Definition core_reg (c : string) (id : nat -> ucreg) (w : Z) (g : nat -> option string) (n : nat) :
    RegDesc := mkRegDesc (numbered c n) (id n) w None (g n) false.

Definition arg_role (n : nat) : option string :=
  match n with
  | 0 => Some "arg1" | 1 => Some "arg2" | 2 => Some "arg3" | 3 => Some "arg4" | _ => None
  end%nat%string.
Definition a64_role (n : nat) : option string :=
  if decide (n = 29%nat) then Some "fp"%string
  else if decide (n = 30%nat) then Some "lr"%string else arg_role n.
Definition a32_role (n : nat) : option string :=
  if decide (n = 11%nat) then Some "fp"%string else arg_role n.

Definition kArm64 : list RegDesc :=
  (core_reg "x" A64_X 64 a64_role <$> seq 0 31)
  ++ [mkRegDesc "sp" A64_SP 64 (Some "data_ptr") (Some "sp") false;
      mkRegDesc "pc" A64_PC 64 (Some "code_ptr") (Some "pc") false;
      mkRegDesc "cpsr" A64_NZCV 32 None (Some "flags") false]
  ++ ((fun n => mkRegDesc (numbered "v" n) (A64_V n) 128 None None true) <$> seq 0 32)
  ++ [mkRegDesc "fpsr" A64_FPSR 32 None None true; mkRegDesc "fpcr" A64_FPCR 32 None None true].

Definition kArm32 : list RegDesc :=
  (core_reg "r" A32_R 32 a32_role <$> seq 0 13)
  ++ [mkRegDesc "sp" A32_SP 32 (Some "data_ptr") (Some "sp") false;
      mkRegDesc "lr" A32_LR 32 None (Some "lr") false;
      mkRegDesc "pc" A32_PC 32 (Some "code_ptr") (Some "pc") false;
      mkRegDesc "cpsr" A32_CPSR 32 None (Some "flags") false].

Record RegTable := mkRegTable { regs : list RegDesc; arch : string; feature : string }.
Definition table_for (abi : Abi) : RegTable :=
  if decide (abi = Arm64) then mkRegTable kArm64 "aarch64" "org.gnu.gdb.aarch64.core"
  else mkRegTable kArm32 "arm" "org.vardoger.arm.core".

Definition reg_bytes (r : RegDesc) : nat := Z.to_nat (bits r / 8).

(** ** Hexadecimal *)

Definition hex_digit (v : Z) : Z :=
  let d := Z.land v 0xf in if d <? 10 then 48 + d else 87 + d.

Definition unhex_digit (c : Z) : Z :=
  if (48 <=? c) && (c <=? 57) then c - 48
  else if (97 <=? c) && (c <=? 102) then c - 97 + 10
  else if (65 <=? c) && (c <=? 70) then c - 65 + 10
  else 0.

Definition isxdigit (c : Z) : bool :=
  ((48 <=? c) && (c <=? 57)) || ((97 <=? c) && (c <=? 102)) || ((65 <=? c) && (c <=? 70)).

Definition bytes_to_hex (l : list Z) : list Z :=
  List.flat_map (fun b => [hex_digit (Z.shiftr b 4); hex_digit (Z.land b 0xf)]) l.

(** Bytes from pairs of digits; a last lone digit is left. *)
Fixpoint hex_pairs (l : list Z) : list Z :=
  match l with
  | h :: o :: r => u8 (Z.lor (Z.shiftl (unhex_digit h) 4) (unhex_digit o)) :: hex_pairs r
  | _ => []
  end.

Definition reg_to_hex (v bits : Z) : list Z := bytes_to_hex (le_bytes (Z.to_nat (bits / 8)) v).

(** [parse_hex_u64(s, i)], with the rest of the text instead of [i]. *)
Fixpoint parse_hex_from (v : Z) (s : list Z) : Z * list Z :=
  match s with
  | c :: r => if isxdigit c then parse_hex_from (Z.lor (u64 (Z.shiftl v 4)) (unhex_digit c)) r
              else (v, s)
  | [] => (v, [])
  end.
Definition parse_hex_u64 (s : list Z) : Z * list Z := parse_hex_from 0 s.

(** [if (i < pkt.size() && pkt[i] == c) ++i] *)
Definition skip_char (c : Z) (s : list Z) : list Z :=
  match s with x :: r => if x =? c then r else s | [] => [] end.

(** [n] bytes of [l], zeros after its end ([memset], then a copy). *)
Definition fill (n : nat) (l : list Z) : list Z := take n l ++ replicate (n - length l) 0.

Definition hex_to_reg_bytes (hex : list Z) (r : RegDesc) : list Z := fill (reg_bytes r) (hex_pairs hex).

(** ** The text replies *)

(** Text in which an apostrophe stands for a double quote. *)
Definition xml (s : string) : list Z := (fun b => if b =? 39 then 34 else b) <$> bs s.

Definition newline : list Z := [10].

(** One [<reg>] line. *)
Definition xml_reg (i : nat) (r : RegDesc) : list Z :=
  let type := match rd_type r with
              | Some t => Some t
              | None => if bits r =? 128 then Some "uint128"%string else None
              end in
  xml "    <reg name='" ++ bs (rd_name r) ++ xml "' bitsize='" ++ to_string (bits r)
  ++ xml "' regnum='" ++ to_string (Z.of_nat i) ++ xml "'"
  ++ match type with Some t => xml " type='" ++ bs t ++ xml "'" | None => [] end
  ++ bs "/>" ++ newline.

(** The lines of the registers that satisfy [f], from index [i] on. *)
Fixpoint xml_regs (f : RegDesc -> bool) (i : nat) (l : list RegDesc) : list Z :=
  match l with
  | [] => []
  | r :: l => (if f r then xml_reg i r else []) ++ xml_regs f (S i) l
  end.

Definition target_xml (abi : Abi) : list Z :=
  let t := table_for abi in
  xml "<?xml version='1.0'?>" ++ newline ++ xml "<!DOCTYPE target SYSTEM 'gdb-target.dtd'>" ++ newline
  ++ xml "<target version='1.0'>" ++ newline ++ bs "  <architecture>" ++ bs (arch t)
  ++ bs "</architecture>" ++ newline ++ xml "  <feature name='" ++ bs (feature t) ++ xml "'>" ++ newline
  ++ xml_regs (fun r => negb (fpu r)) 0 (regs t) ++ bs "  </feature>" ++ newline
  ++ (if existsb fpu (regs t)
      then xml "  <feature name='org.gnu.gdb.aarch64.fpu'>" ++ newline
           ++ xml_regs fpu 0 (regs t) ++ bs "  </feature>" ++ newline
      else [])
  ++ bs "</target>" ++ newline.

(** Bytes of the registers before the [n]-th. *)
Definition reg_offset (t : RegTable) (n : nat) : Z := foldr (fun r a => bits r / 8 + a) 0 (take n (regs t)).

Definition shown_role (g : string) : bool :=
  (g =? "pc")%string || (g =? "sp")%string || (g =? "fp")%string || (g =? "lr")%string
  || String.prefix "arg" g.

Definition register_info (abi : Abi) (regnum : Z) : list Z :=
  let t := table_for abi in
  match znth (regs t) regnum with
  | None => bs "E45"
  | Some r =>
      bs "name:" ++ bs (rd_name r) ++ bs ";bitsize:" ++ to_string (bits r)
      ++ bs ";offset:" ++ to_string (reg_offset t (Z.to_nat regnum))
      ++ (if fpu r && (bits r =? 128)
          then bs ";encoding:vector;format:vector-uint8;set:Floating Point Registers"
          else if fpu r then bs ";encoding:uint;format:hex;set:Floating Point Registers"
          else bs ";encoding:uint;format:hex;set:General Purpose Registers")
      ++ bs ";gcc:" ++ to_string regnum ++ bs ";dwarf:" ++ to_string regnum ++ bs ";"
      ++ match generic r with
         | Some g => if shown_role g then bs "generic:" ++ bs g ++ bs ";" else []
         | None => []
         end
  end.

(** [pkt.rfind(p, 0) == 0] *)
Definition starts_with (p l : list Z) : bool := bool_decide (take (length p) l = p).
Definition is_text (s : string) (l : list Z) : bool := bool_decide (l = bs s).

(** What follows the first [c]. *)
Fixpoint after (c : Z) (l : list Z) : list Z :=
  match l with [] => [] | x :: r => if x =? c then r else after c r end.

(** The chunk of target.xml asked for; [off + len] is computed in 64 bits, and
    [substr] with a wrapped length goes to the end. *)
Definition xfer_reply (abi : Abi) (rest : list Z) : list Z :=
  let '(off, r) := parse_hex_u64 (after 58 rest) in
  let '(len, _) := parse_hex_u64 (skip_char 44 r) in
  let x := target_xml abi in
  if zlen x <=? off then bs "l" else
  let end_ := Z.min (u64 (off + len)) (zlen x) in
  (if end_ <? zlen x then bs "m" else bs "l")
  ++ take (Z.to_nat (Z.min (u64 (end_ - off)) (zlen x))) (drop (Z.to_nat off) x).

(** The [q] queries. *)
Definition query_reply (abi : Abi) (pkt : list Z) : list Z :=
  let a64 := bool_decide (abi = Arm64) in
  let psz := if a64 then bs "8" else bs "4" in
  if starts_with (bs "qSupported") pkt
  then bs "PacketSize=4000;qXfer:features:read+;QStartNoAckMode+;swbreak+;hwbreak+;vContSupported+;"
  else if is_text "qC" pkt then bs "QC1"
  else if is_text "qAttached" pkt then bs "1"
  else if is_text "qfThreadInfo" pkt then bs "m1"
  else if is_text "qsThreadInfo" pkt then bs "l"
  else if is_text "qHostInfo" pkt then
    bs "triple:"
    ++ bytes_to_hex (bs (if a64 then "aarch64-unknown-linux-android" else "arm-unknown-linux-android"))
    ++ bs ";endian:little;ptrsize:" ++ psz ++ bs ";"
  else if is_text "qProcessInfo" pkt then bs "pid:1;endian:little;ptrsize:" ++ psz ++ bs ";"
  else if starts_with (bs "qRegisterInfo") pkt
  then register_info abi (fst (parse_hex_u64 (drop 13 pkt)))
  else if starts_with (bs "qXfer:features:read:") pkt then xfer_reply abi (drop 20 pkt)
  else [].

(** The payload of an [X] packet, un-escaped, at most [len] bytes. *)
Fixpoint unescape (len : Z) (l : list Z) : list Z :=
  match l with
  | b :: r =>
      if len <=? 0 then []
      else if b =? 0x7d
      then match r with c :: r' => Z.lxor c 0x20 :: unescape (len - 1) r' | [] => [] end
      else b :: unescape (len - 1) r
  | [] => []
  end.

(** ** The session *)

Inductive Resume := Continue | Step | Detach | Kill | Closed.
#[export] Instance Resume_eq_dec : EqDecision Resume.
Proof. solve_decision. Defined.

(** What a command asks for: a reply, or to stop serving. *)
Inductive Answer := Reply (l : list Z) | Leave (r : Resume).

(** [client_] says whether [client_fd_ >= 0]; [stopped] records that the
    emulation was asked to stop. *)
Record GdbStub (U : Type) := mkGdb {
  g_uc : U;
  g_in : list Z;
  g_out : list Z;
  client_ : bool;
  hook_ : bool;
  no_ack_ : bool;
  arm_no_ack_ : bool;
  resumed_ : bool;
  breakpoints_ : gset Z;
  stepping_ : bool;
  pending_int_ : bool;
  poll_ctr_ : Z;
  last_signal_ : Z;
  stopped : bool;
}.
Arguments mkGdb {U}. Arguments g_uc {U}. Arguments g_in {U}. Arguments g_out {U}.
Arguments client_ {U}. Arguments hook_ {U}. Arguments no_ack_ {U}. Arguments arm_no_ack_ {U}.
Arguments resumed_ {U}. Arguments breakpoints_ {U}. Arguments stepping_ {U}.
Arguments pending_int_ {U}. Arguments poll_ctr_ {U}. Arguments last_signal_ {U}.
Arguments stopped {U}.

Section Session.
Context {U : Type} `{UcOps U}.
Variable abi : Abi.
Implicit Types g : GdbStub U.

Definition init_gdb (u : U) : GdbStub U :=
  mkGdb u [] [] false false false false false ∅ false false 0 kSigTrap false.

(** Assignments to the members. *)
Definition with_uc (g : GdbStub U) (u : U) : GdbStub U := mkGdb u (g_in g) (g_out g) (client_ g) (hook_ g) (no_ack_ g) (arm_no_ack_ g)
  (resumed_ g) (breakpoints_ g) (stepping_ g) (pending_int_ g) (poll_ctr_ g) (last_signal_ g) (stopped g).
Definition with_io i o (g : GdbStub U) : GdbStub U := mkGdb (g_uc g) i o (client_ g) (hook_ g) (no_ack_ g) (arm_no_ack_ g)
  (resumed_ g) (breakpoints_ g) (stepping_ g) (pending_int_ g) (poll_ctr_ g) (last_signal_ g) (stopped g).
Definition with_client c (g : GdbStub U) : GdbStub U := mkGdb (g_uc g) (g_in g) (g_out g) c (hook_ g) (no_ack_ g) (arm_no_ack_ g)
  (resumed_ g) (breakpoints_ g) (stepping_ g) (pending_int_ g) (poll_ctr_ g) (last_signal_ g) (stopped g).
Definition with_hook h (g : GdbStub U) : GdbStub U := mkGdb (g_uc g) (g_in g) (g_out g) (client_ g) h (no_ack_ g) (arm_no_ack_ g)
  (resumed_ g) (breakpoints_ g) (stepping_ g) (pending_int_ g) (poll_ctr_ g) (last_signal_ g) (stopped g).
Definition with_acks n a (g : GdbStub U) : GdbStub U := mkGdb (g_uc g) (g_in g) (g_out g) (client_ g) (hook_ g) n a
  (resumed_ g) (breakpoints_ g) (stepping_ g) (pending_int_ g) (poll_ctr_ g) (last_signal_ g) (stopped g).
Definition with_resumed r (g : GdbStub U) : GdbStub U := mkGdb (g_uc g) (g_in g) (g_out g) (client_ g) (hook_ g) (no_ack_ g)
  (arm_no_ack_ g) r (breakpoints_ g) (stepping_ g) (pending_int_ g) (poll_ctr_ g) (last_signal_ g)
  (stopped g).
Definition with_breakpoints b (g : GdbStub U) : GdbStub U := mkGdb (g_uc g) (g_in g) (g_out g) (client_ g) (hook_ g) (no_ack_ g)
  (arm_no_ack_ g) (resumed_ g) b (stepping_ g) (pending_int_ g) (poll_ctr_ g) (last_signal_ g)
  (stopped g).
Definition with_stop_flags st p (g : GdbStub U) : GdbStub U := mkGdb (g_uc g) (g_in g) (g_out g) (client_ g) (hook_ g) (no_ack_ g)
  (arm_no_ack_ g) (resumed_ g) (breakpoints_ g) st p (poll_ctr_ g) (last_signal_ g) (stopped g).
Definition with_poll c (g : GdbStub U) : GdbStub U := mkGdb (g_uc g) (g_in g) (g_out g) (client_ g) (hook_ g) (no_ack_ g)
  (arm_no_ack_ g) (resumed_ g) (breakpoints_ g) (stepping_ g) (pending_int_ g) c (last_signal_ g)
  (stopped g).
Definition with_signal n (g : GdbStub U) : GdbStub U := mkGdb (g_uc g) (g_in g) (g_out g) (client_ g) (hook_ g) (no_ack_ g)
  (arm_no_ack_ g) (resumed_ g) (breakpoints_ g) (stepping_ g) (pending_int_ g) (poll_ctr_ g) n (stopped g).
Definition with_stopped (g : GdbStub U) : GdbStub U := mkGdb (g_uc g) (g_in g) (g_out g) (client_ g) (hook_ g) (no_ack_ g)
  (arm_no_ack_ g) (resumed_ g) (breakpoints_ g) (stepping_ g) (pending_int_ g) (poll_ctr_ g)
  (last_signal_ g) true.

Definition uc_op {A} (op : M U A) : M (GdbStub U) A := fun g =>
  let '(r, u) := op (g_uc g) in (r, with_uc g u).

(** *** Transport *)

Definition checksum (l : list Z) : Z := fold_left (fun s c => u8 (s + c)) l 0.

(** [recv] of one byte; [None] when the connection is closed. *)
Definition recv : M (GdbStub U) (option Z) := fun g =>
  match g_in g with
  | c :: r => (Ret (Some c), with_io r (g_out g) g)
  | [] => (Ret None, g)
  end.
Definition send (l : list Z) : M (GdbStub U) unit :=
  modify (fun g => with_io (g_in g) (g_out g ++ l) g).

Definition send_ack (ok : bool) : M (GdbStub U) unit := send [if ok then 43 else 45].

(** The bytes of a packet up to its [#], when there is one. *)
Fixpoint packet_body (l : list Z) : option (list Z * list Z) :=
  match l with
  | [] => None
  | c :: r => if c =? 35 then Some ([], r)
              else match packet_body r with Some (p, r') => Some (c :: p, r') | None => None end
  end.

Definition want_of (h o : Z) : Z := u8 (Z.lor (Z.shiftl (unhex_digit h) 4) (unhex_digit o)).

(** [read_packet] on the bytes [l] still to come, with the bytes left and the
    acknowledgements sent.  The recursion is on the number [n] of bytes. *)
Fixpoint read_from (n : nat) (acks : bool) (l out : list Z) : option (list Z) * list Z * list Z :=
  match n, l with
  | S k, c :: r =>
      if c =? 3 then (Some [3], r, out)
      else if negb (c =? 36) then read_from k acks r out
      else match packet_body r with
           | Some (p, h :: o :: r') =>
               let ok := checksum p =? want_of h o in
               let out' := if acks then out ++ [if ok then 43 else 45] else out in
               if ok then (Some p, r', out') else read_from k acks r' out'
           | _ => (None, [], out)
           end
  | _, _ => (None, l, out)
  end.
Definition read_packet : M (GdbStub U) (option (list Z)) := fun g =>
  let '(p, r, out) := read_from (length (g_in g)) (negb (no_ack_ g)) (g_in g) (g_out g) in
  (Ret p, with_io r out g).

(** The bytes of a packet on the wire. *)
Definition frame (p : list Z) : list Z :=
  36 :: p ++ [35; hex_digit (Z.shiftr (checksum p) 4); hex_digit (Z.land (checksum p) 0xf)].

(** The byte after it is taken for the client's acknowledgement. *)
Definition send_packet (p : list Z) : M (GdbStub U) unit :=
  _ ← send (frame p);
  g ← get;
  if no_ack_ g then skip else _ ← recv; skip.

(** *** Registers *)

Definition read_reg_bytes (r : RegDesc) : M U (list Z) :=
  v ← read_uc_reg (uc_id r); mret (le_bytes (reg_bytes r) v).
Definition write_reg_bytes (r : RegDesc) (l : list Z) : M U unit := write_uc_reg (uc_id r) (le_val l).

Definition reg_hex (r : RegDesc) : M U (list Z) := l ← read_reg_bytes r; mret (bytes_to_hex l).

Fixpoint regs_hex (l : list RegDesc) : M U (list Z) :=
  match l with
  | [] => mret []
  | r :: l => h ← reg_hex r; t ← regs_hex l; mret (h ++ t)
  end.
Definition read_all_regs_hex : M (GdbStub U) (list Z) := uc_op (regs_hex (regs (table_for abi))).

Fixpoint write_regs_hex (l : list RegDesc) (hex : list Z) : M U unit :=
  match l with
  | [] => skip
  | r :: l =>
      let nib := Z.to_nat (bits r / 4) in
      if (length hex <? nib)%nat then skip else
      _ ← write_reg_bytes r (hex_to_reg_bytes (take nib hex) r);
      write_regs_hex l (drop nib hex)
  end.
Definition write_all_regs_hex (hex : list Z) : M (GdbStub U) unit :=
  uc_op (write_regs_hex (regs (table_for abi)) hex).

Definition read_one_reg_hex (regnum : Z) : M (GdbStub U) (list Z) :=
  match znth (regs (table_for abi)) regnum with
  | Some r => uc_op (reg_hex r)
  | None => mret (bs "xxxxxxxx")
  end.
Definition write_one_reg_hex (regnum : Z) (hex : list Z) : M (GdbStub U) unit :=
  match znth (regs (table_for abi)) regnum with
  | Some r => uc_op (write_reg_bytes r (hex_to_reg_bytes hex r))
  | None => skip
  end.

(** *** Commands *)

(** The pc and sp entries of a stop reply. *)
Fixpoint stop_regs (i : Z) (l : list RegDesc) : M U (list Z) :=
  match l with
  | [] => mret []
  | r :: l =>
      t ← (if bool_decide (generic r = Some "pc"%string) || bool_decide (generic r = Some "sp"%string)
           then v ← read_uc_reg (uc_id r);
                mret ([hex_digit (Z.land (Z.shiftr i 4) 0xf); hex_digit (Z.land i 0xf); 58]
                      ++ reg_to_hex v (bits r) ++ [59])
           else mret []);
      rest ← stop_regs (i + 1) l;
      mret (t ++ rest)
  end.

Definition send_stop_reply (signal : Z) : M (GdbStub U) unit :=
  _ ← modify (with_signal signal);
  rs ← uc_op (stop_regs 0 (regs (table_for abi)));
  send_packet (bs "T" ++ [hex_digit (Z.land (Z.shiftr signal 4) 0xf); hex_digit (Z.land signal 0xf)]
               ++ rs ++ bs "thread:1;").

(** [std::vector<uint8_t>(len)] and [reserve(len)]: a length no vector can
    have throws; memory is taken to suffice for the others. *)
Definition vector_len (len : Z) : M (GdbStub U) unit :=
  if 2 ^ 63 <=? len then throw "vector" else skip.

Definition addr_len (s : list Z) : Z * Z * list Z :=
  let '(addr, r) := parse_hex_u64 s in
  let '(len, r) := parse_hex_u64 (skip_char 44 r) in (addr, len, r).

Definition cmd_read_mem (s : list Z) : M (GdbStub U) Answer :=
  let '(addr, len, _) := addr_len s in
  if (len =? 0) || (0x100000 <? len) then mret (Reply (bs "E01")) else
  try_catch (l ← uc_op (e_read addr len); mret (Reply (bytes_to_hex l))) (mret (Reply (bs "E01"))).

Definition cmd_write_mem (s : list Z) : M (GdbStub U) Answer :=
  let '(addr, len, r) := addr_len s in
  _ ← vector_len len;
  let buf := fill (Z.to_nat len) (hex_pairs (skip_char 58 r)) in
  try_catch (_ ← uc_op (e_write addr buf); mret (Reply (bs "OK"))) (mret (Reply (bs "E01"))).

Definition cmd_write_bin (s : list Z) : M (GdbStub U) Answer :=
  let '(addr, len, r) := addr_len s in
  _ ← vector_len len;
  let buf := unescape len (skip_char 58 r) in
  try_catch (_ ← (if bool_decide (buf = []) then skip else uc_op (e_write addr buf));
             mret (Reply (bs "OK"))) (mret (Reply (bs "E01"))).

Definition cmd_breakpoint (insert : bool) (pkt : list Z) : M (GdbStub U) Answer :=
  match pkt with
  | _ :: type :: _ =>
      if negb (type =? 48) && negb (type =? 49) then mret (Reply []) else
      let addr := fst (parse_hex_u64 (drop 3 pkt)) in
      _ ← modify (fun g => with_breakpoints
            (if insert then {[addr]} ∪ breakpoints_ g else breakpoints_ g ∖ {[addr]}) g);
      mret (Reply (bs "OK"))
  | _ => mret (Reply (bs "E01"))
  end.

Definition vcont_reply (pkt : list Z) : Answer :=
  if is_text "vCont?" pkt then Reply (bs "vCont;c;C;s;S")
  else if starts_with (bs "vCont;") pkt then
    let act := default 99 (pkt !! 6%nat) in
    Leave (if (act =? 115) || (act =? 83) then Step else Continue)
  else Reply [].

Definition handle_packet (pkt : list Z) : M (GdbStub U) Answer :=
  match pkt with
  | [] => mret (Reply [])
  | cmd :: s =>
      if cmd =? 3 then _ ← send_stop_reply kSigInt; mret (Reply [])
      else if cmd =? 63 (* ? *) then mret (Reply (bs "S05"))
      else if cmd =? 103 (* g *) then h ← read_all_regs_hex; mret (Reply h)
      else if cmd =? 71 (* G *) then _ ← write_all_regs_hex s; mret (Reply (bs "OK"))
      else if cmd =? 112 (* p *) then
        h ← read_one_reg_hex (fst (parse_hex_u64 s)); mret (Reply h)
      else if cmd =? 80 (* P *) then
        let '(n, r) := parse_hex_u64 s in
        _ ← write_one_reg_hex n (skip_char 61 r); mret (Reply (bs "OK"))
      else if cmd =? 109 (* m *) then cmd_read_mem s
      else if cmd =? 77 (* M *) then cmd_write_mem s
      else if cmd =? 88 (* X *) then cmd_write_bin s
      else if (cmd =? 99) || (cmd =? 67) (* c, C *) then mret (Leave Continue)
      else if (cmd =? 115) || (cmd =? 83) (* s, S *) then mret (Leave Step)
      else if cmd =? 90 (* Z *) then cmd_breakpoint true pkt
      else if cmd =? 122 (* z *) then cmd_breakpoint false pkt
      else if cmd =? 72 (* H *) then mret (Reply (bs "OK"))
      else if cmd =? 68 (* D *) then mret (Leave Detach)
      else if cmd =? 107 (* k *) then mret (Leave Kill)
      else if cmd =? 113 (* q *) then mret (Reply (query_reply abi pkt))
      else if cmd =? 81 (* Q *) then
        if is_text "QStartNoAckMode" pkt
        then _ ← modify (fun g => with_acks (no_ack_ g) true g); mret (Reply (bs "OK"))
        else mret (Reply [])
      else if cmd =? 118 (* v *) then mret (vcont_reply pkt)
      else mret (Reply [])
  end.

(** [serve]: each turn reads at least one byte, so that the bytes still to
    come bound the turns. *)
Fixpoint serve_n (n : nat) : M (GdbStub U) Resume :=
  p ← read_packet;
  match p, n with
  | None, _ => mret Closed
  | Some pkt, O => lift UB
  | Some pkt, S k =>
      _ ← modify (fun g => with_acks (no_ack_ g) false g);
      a ← handle_packet pkt;
      match a with
      | Leave r => mret r
      | Reply reply =>
          _ ← send_packet reply;
          _ ← modify (fun g => if arm_no_ack_ g then with_acks true (arm_no_ack_ g) g else g);
          serve_n k
      end
  end.
Definition serve : M (GdbStub U) Resume := g ← get; serve_n (length (g_in g)).

(** *** The session's steps *)

Definition close_client : M (GdbStub U) unit := modify (fun g =>
  with_stop_flags false (pending_int_ g)
    (with_breakpoints ∅ (with_resumed false (with_client false g)))).

(** [conn]: the bytes of the client that connects, if the socket could be set
    up. *)
Definition listen (conn : option (list Z)) : M (GdbStub U) bool :=
  g ← get;
  if client_ g then mret true else
  match conn with
  | None => throw "gdb: socket setup failed"
  | Some i =>
      _ ← modify (fun g => with_hook true (with_signal kSigTrap (with_stop_flags false false
            (with_resumed false (with_acks false (arm_no_ack_ g) (with_client true (with_io i [] g)))))));
      r ← serve;
      match r with
      | Continue => _ ← modify (with_resumed true); mret true
      | Step => _ ← modify (fun g => with_stop_flags true (pending_int_ g) (with_resumed true g));
                mret true
      | _ => _ ← close_client; mret false
      end
  end.

Definition detach : M (GdbStub U) unit :=
  _ ← modify (with_hook false); close_client.

Definition report_fault (pc : Z) : M (GdbStub U) unit :=
  g ← get;
  if negb (client_ g) || negb (resumed_ g) then skip else
  _ ← send_stop_reply kSigSegv;
  r ← serve;
  _ ← (match r with Continue | Step => send_packet (bs "X0b") | _ => skip end);
  close_client.

Definition end_run : M (GdbStub U) unit :=
  g ← get;
  if negb (client_ g) || negb (resumed_ g) then skip else
  _ ← send_stop_reply kSigTrap;
  r ← serve;
  _ ← (match r with Continue | Step => send_packet (bs "W00") | _ => skip end);
  modify (with_resumed false).

(** [recv] without blocking: a byte is seen only when it has [arrived]. *)
Definition poll_interrupt (arrived : bool) : M (GdbStub U) bool :=
  g ← get;
  match g_in g with
  | c :: _ => if arrived && (c =? 3) then _ ← recv; mret true else mret false
  | [] => mret false
  end.

(** The part of [on_instruction] that decides whether to stop. *)
Definition should_stop (arrived : bool) (pc : Z) : M (GdbStub U) bool :=
  g ← get;
  if stepping_ g || pending_int_ g || bool_decide (pc ∈ breakpoints_ g) then mret true else
  let c := u64 (poll_ctr_ g + 1) in
  _ ← modify (with_poll c);
  if Z.land c 0x3fff =? 0 then
    hit ← poll_interrupt arrived;
    if (hit : bool) then _ ← modify (fun g => with_stop_flags (stepping_ g) true g); mret true else mret false
  else mret false.

Definition on_instruction (arrived : bool) (pc : Z) : M (GdbStub U) unit :=
  g ← get;
  if negb (client_ g) then skip else
  brk ← should_stop arrived pc;
  if negb brk then skip else
  g ← get;
  let sig := if pending_int_ g then kSigInt else kSigTrap in
  _ ← modify (with_stop_flags false false);
  _ ← send_stop_reply sig;
  r ← serve;
  match r with
  | Continue => skip
  | Step => modify (fun g => with_stop_flags true (pending_int_ g) g)
  | Kill => _ ← close_client; modify with_stopped
  | Detach | Closed => close_client
  end.
End Session.
