(* ===== verification/GdbSession.v ===== *)
(** What the debugger server promises its client: replies survive framing,
    memory and registers read back as written, serving always ends, and no
    session state outlives its client. *)

From S2P Require Import Prelude.
From S2P Require Import Words.
From S2P Require Import Abi.
From S2P Require Import Unicorn.
From S2P Require Import Engine.
From S2P Require Import GdbStub.
#[local] Open Scope Z_scope.

(** ** Hexadecimal text *)

Definition is_hex (c : Z) : bool := ((48 <=? c) && (c <=? 57)) || ((97 <=? c) && (c <=? 102)).

Lemma hex_digit_cases v :
  hex_digit v = hex_digit (Z.land v 0xf) /\ is_hex (hex_digit v) = true /\
  unhex_digit (hex_digit v) = Z.land v 0xf /\ isxdigit (hex_digit v) = true.
Proof.
  assert (0 <= Z.land v 0xf < 16) as Hr by (rewrite land_15; apply Z.mod_pos_bound; lia).
  assert (hex_digit v = hex_digit (Z.land v 0xf)) as E.
  { unfold hex_digit. rewrite <- Z.land_assoc. done. }
  split; [done|]. rewrite E. generalize dependent (Z.land v 0xf). intros d Hd _.
  assert (forallb (fun d => is_hex (hex_digit d) && (unhex_digit (hex_digit d) =? d)
    && isxdigit (hex_digit d)) (seqZ 0 16) = true) as Hall by reflexivity.
  rewrite forallb_forall in Hall. specialize (Hall d ltac:(apply list_elem_of_In, elem_of_seqZ; lia)).
  bool_to_Prop. auto.
Qed.

Lemma bytes_to_hex_is_hex l : Forall (fun c => is_hex c = true) (bytes_to_hex l).
Proof.
  induction l as [|b l IH]; cbn; [constructor|].
  repeat constructor; [apply hex_digit_cases..|done].
Qed.

Lemma length_bytes_to_hex l : length (bytes_to_hex l) = (2 * length l)%nat.
Proof. induction l as [|b l IH]; cbn; [done|]. fold (bytes_to_hex l). rewrite IH. lia. Qed.

(** Bytes survive the trip through text. *)
Lemma hex_pairs_to_hex l rest :
  bytes_ok l -> hex_pairs (bytes_to_hex l ++ rest) = l ++ hex_pairs rest.
Proof.
  induction 1 as [|b l Hb Hl IH]; [done|]. cbn [bytes_to_hex List.flat_map app hex_pairs].
  fold (bytes_to_hex l). rewrite IH. f_equal. unfold is_byte in Hb.
  destruct (hex_digit_cases (Z.shiftr b 4)) as (_ & _ & -> & _).
  destruct (hex_digit_cases (Z.land b 0xf)) as (_ & _ & -> & _).
  assert (b / 16 < 16) by (apply Z.div_lt_upper_bound; lia).
  assert (0 <= b / 16) by (apply Z.div_pos; lia).
  pose proof (Z.mod_pos_bound b 16 ltac:(lia)).
  assert (Z.land (Z.shiftr b 4) 0xf = b / 16) as ->
    by (rewrite land_15, Z.shiftr_div_pow2 by lia; apply Z.mod_small; change (2 ^ 4) with 16; lia).
  assert (Z.land (Z.land b 0xf) 0xf = b mod 16) as ->
    by (rewrite <- Z.land_assoc; change (Z.land 0xf 0xf) with 0xf; apply land_15).
  rewrite lor_add_shift by lia. change (2 ^ 4) with 16.
  pose proof (Z.div_mod b 16 ltac:(lia)). rewrite u8_id; lia.
Qed.

(** *** Numbers *)

(** The digits of a number, without leading zeros. *)
Fixpoint hex_num_n (n : nat) (v : Z) : list Z :=
  match n with
  | O => []
  | S k => if v <? 16 then [hex_digit v] else hex_num_n k (v / 16) ++ [hex_digit (v mod 16)]
  end.
Definition hex_num (v : Z) : list Z := hex_num_n 16 v.

Lemma parse_hex_app v l1 l2 :
  Forall (fun c => isxdigit c = true) l1 ->
  parse_hex_from v (l1 ++ l2) = parse_hex_from (fst (parse_hex_from v l1)) l2.
Proof.
  intros Hl. revert v. induction Hl as [|c l1 Hc Hl IH]; intros v; [done|].
  cbn [app parse_hex_from]. by rewrite Hc, IH.
Qed.

Lemma parse_hex_num n v :
  (n <= 16)%nat -> 0 <= v < 16 ^ Z.of_nat n ->
  Forall (fun c => isxdigit c = true) (hex_num_n n v) /\ parse_hex_from 0 (hex_num_n n v) = (v, []).
Proof.
  revert v. induction n as [|n IH]; intros v Hn Hv.
  { split; [constructor|]. cbn in *. f_equal. lia. }
  rewrite Nat2Z.inj_succ, Z.pow_succ_r in Hv by lia. cbn [hex_num_n].
  destruct (Z.ltb_spec v 16) as [Hs|Hs].
  - destruct (hex_digit_cases v) as (_ & _ & Eu & Ex). split; [by repeat constructor|].
    cbn [parse_hex_from]. rewrite Ex, Eu, land_15, Z.mod_small by lia. done.
  - destruct (IH (v / 16)) as [Hx Hp]; [lia|split; [apply Z.div_pos; lia|]|].
    { apply Z.div_lt_upper_bound; lia. }
    destruct (hex_digit_cases (v mod 16)) as (_ & _ & Eu & Ex). split.
    { apply Forall_app. split; [done|]. by repeat constructor. }
    rewrite parse_hex_app by done. rewrite Hp. cbn [fst parse_hex_from]. rewrite Ex, Eu.
    rewrite land_15, Z.mod_mod by lia.
    assert (16 ^ Z.of_nat n <= 16 ^ 15) by (apply Z.pow_le_mono_r; lia).
    change (16 ^ 15) with (2 ^ 60) in *.
    pose proof (Z.mod_pos_bound v 16 ltac:(lia)). pose proof (Z.div_mod v 16 ltac:(lia)).
    rewrite Z.shiftl_mul_pow2 by lia. rewrite u64_id by lia.
    rewrite <- Z.shiftl_mul_pow2, lor_add_shift by lia. change (2 ^ 4) with 16. f_equal. lia.
Qed.

(** A number followed by anything but a digit is read back. *)
Lemma parse_hex_u64_num v rest :
  0 <= v < 2 ^ 64 -> match rest with c :: _ => isxdigit c = false | [] => True end ->
  parse_hex_u64 (hex_num v ++ rest) = (v, rest).
Proof.
  intros Hv Hr. unfold parse_hex_u64, hex_num.
  destruct (parse_hex_num 16 v) as [Hx Hp]; [done|change (16 ^ Z.of_nat 16) with (2 ^ 64); done|].
  rewrite parse_hex_app by done. rewrite Hp. cbn [fst].
  destruct rest as [|c r]; [done|]. cbn [parse_hex_from]. by rewrite Hr.
Qed.

(** ** Framing *)

Lemma packet_body_app p rest :
  Forall (fun c => c <> 35) p -> packet_body (p ++ 35 :: rest) = Some (p, rest).
Proof.
  induction 1 as [|c p Hc Hp IH]; [done|]. cbn [app packet_body].
  rewrite (proj2 (Z.eqb_neq _ _)) by done. by rewrite IH.
Qed.

Lemma checksum_range p : 0 <= checksum p < 256.
Proof.
  unfold checksum. destruct p as [|c q _] using rev_ind; [done|].
  rewrite fold_left_app. apply u8_range.
Qed.

Lemma want_of_digits s :
  0 <= s < 256 -> want_of (hex_digit (Z.shiftr s 4)) (hex_digit (Z.land s 0xf)) = s.
Proof.
  intros Hs. pose proof (hex_pairs_to_hex [s] [] ltac:(apply Forall_cons_2; [done|by apply Forall_nil_2])) as E.
  cbn in E. unfold want_of. congruence.
Qed.

(** Reading skips noise, takes one packet, and leaves the rest. *)
Lemma read_from_frame n acks noise p rest out :
  Forall (fun c => c <> 3 /\ c <> 36) noise -> Forall (fun c => c <> 35) p ->
  (length (noise ++ frame p) <= n)%nat ->
  read_from n acks (noise ++ frame p ++ rest) out
  = (Some p, rest, if acks then out ++ [43] else out).
Proof.
  intros Hn Hp. revert n. induction Hn as [|c noise [Hc1 Hc2] Hn IH]; intros n Hl.
  - cbn [app] in *. destruct n as [|n]; [cbn in Hl; lia|]. unfold frame. cbn [app read_from].
    change (36 =? 3) with false. change (negb (36 =? 36)) with false. cbv iota.
    rewrite <- app_assoc. cbn [app]. rewrite packet_body_app by done.
    rewrite want_of_digits by apply checksum_range. rewrite Z.eqb_refl. by destruct acks.
  - cbn [app length] in *. destruct n as [|n]; [lia|]. cbn [read_from].
    rewrite (proj2 (Z.eqb_neq _ 3)), (proj2 (Z.eqb_neq _ 36)) by done. cbn [negb].
    apply IH. lia.
Qed.

(** ** What the replies are made of *)

(** Every result of [m] satisfies [P]. *)
Definition yields {S A} (P : A -> Prop) (m : M S A) : Prop :=
  forall s a s', m s = (Ret a, s') -> P a.

Lemma yields_bind {S A B} (Q : A -> Prop) (P : B -> Prop) (m : M S A) f :
  yields Q m -> (forall a, Q a -> yields P (f a)) -> yields P (M_bind f m).
Proof.
  intros Hm Hf s b s' (a & s1 & E1 & E2)%bind_ret_inv. refine (Hf a _ _ _ _ E2). exact (Hm _ _ _ E1).
Qed.
Lemma yields_ret {S A} (P : A -> Prop) a : P a -> yields (S := S) P (M_ret a).
Proof. by intros Hp s b s' [= <- <-]. Qed.
Lemma yields_any {S A} (m : M S A) : yields (fun _ => True) m.
Proof. by intros s a s' _. Qed.
Lemma yields_throw {S A} (P : A -> Prop) e : yields (S := S) P (throw e).
Proof. by intros s b s' [=]. Qed.
Lemma yields_try {S A} (P : A -> Prop) (m h : M S A) :
  yields P m -> yields P h -> yields P (try_catch m h).
Proof.
  intros Hm Hh s a s'. unfold try_catch. destruct (m s) as [[b|e|] s1] eqn:E; [|apply Hh|done].
  intros [= <- <-]. exact (Hm _ _ _ E).
Qed.
Lemma yields_then {S A B} (P : B -> Prop) (m : M S A) f :
  (forall a, yields P (f a)) -> yields P (M_bind f m).
Proof. intros Hf. eapply yields_bind; [apply yields_any|auto]. Qed.

(** Not one of the characters the protocol gives a meaning: # $ * }. *)
Definition plain (c : Z) : bool :=
  negb (c =? 35) && negb (c =? 36) && negb (c =? 42) && negb (c =? 125).
Definition plain_text (l : list Z) : Prop := Forall (fun c => plain c = true) l.
Definition plain_answer (a : Answer) : Prop :=
  match a with Reply l => plain_text l | Leave _ => True end.

Lemma plain_text_dec l : forallb plain l = true -> plain_text l.
Proof. rewrite forallb_forall. intros Hl. apply Forall_forall. intros c Hc. by apply Hl, list_elem_of_In. Qed.

Lemma hex_plain l : Forall (fun c => is_hex c = true) l -> plain_text l.
Proof.
  intros Hl. eapply Forall_impl; [exact Hl|]. intros c. unfold is_hex, plain. cbv beta.
  destruct (Z.eqb_spec c 35) as [->|]; [done|]. destruct (Z.eqb_spec c 36) as [->|]; [done|].
  destruct (Z.eqb_spec c 42) as [->|]; [done|]. by destruct (Z.eqb_spec c 125) as [->|].
Qed.

Lemma plain_app l1 l2 : plain_text l1 -> plain_text l2 -> plain_text (l1 ++ l2).
Proof. intros. by apply Forall_app. Qed.

Section Replies.
Context {U : Type} `{UcOps U}.
Variable abi : Abi.

Lemma reg_hex_plain r : yields (A := list Z) plain_text (reg_hex (U := U) r).
Proof. apply yields_then. intros l. apply yields_ret, hex_plain, bytes_to_hex_is_hex. Qed.

Lemma regs_hex_plain l : yields (A := list Z) plain_text (regs_hex (U := U) l).
Proof.
  induction l as [|r l IH]; cbn [regs_hex]; [apply yields_ret; constructor|].
  eapply yields_bind; [apply reg_hex_plain|]. intros h Hh.
  eapply yields_bind; [apply IH|]. intros t Ht. by apply yields_ret, plain_app.
Qed.

Lemma uc_op_yields {A} (P : A -> Prop) (op : M U A) : yields P op -> yields P (uc_op op).
Proof.
  intros Hop g a g'. unfold uc_op. destruct (op (g_uc g)) as [r u] eqn:E. intros [= -> _].
  by eapply Hop.
Qed.

Lemma target_xml_plain : plain_text (target_xml abi).
Proof. apply plain_text_dec. destruct abi; vm_compute; reflexivity. Qed.

Lemma register_info_plain n : plain_text (register_info abi n).
Proof.
  unfold register_info. destruct (znth (regs (table_for abi)) n) as [r|] eqn:E;
    [|apply plain_text_dec; reflexivity].
  assert (forallb (fun n => forallb plain (register_info abi n))
            (seqZ 0 (zlen (regs (table_for abi)))) = true) as Hall
    by (destruct abi; vm_compute; reflexivity).
  rewrite forallb_forall in Hall. specialize (Hall n).
  unfold register_info in Hall. rewrite E in Hall. apply plain_text_dec, Hall.
  apply list_elem_of_In, elem_of_seqZ. unfold znth in E. destruct (Z.leb_spec 0 n); [|done].
  apply lookup_lt_Some in E. unfold zlen. lia.
Qed.

Lemma xfer_reply_plain l : plain_text (xfer_reply abi l).
Proof.
  unfold xfer_reply. destruct (parse_hex_u64 (after 58 l)) as [off r].
  destruct (parse_hex_u64 (skip_char 44 r)) as [len r']. destruct (_ <=? off).
  { by apply plain_text_dec. }
  apply plain_app; [by destruct (_ <? _); apply plain_text_dec|].
  apply Forall_take, Forall_drop, target_xml_plain.
Qed.

Lemma query_reply_plain pkt : plain_text (query_reply abi pkt).
Proof.
  unfold query_reply. repeat match goal with |- plain_text (if ?b then _ else _) => destruct b eqn:? end;
    first [apply register_info_plain|apply xfer_reply_plain|apply plain_text_dec; by destruct abi].
Qed.

Lemma handle_packet_plain pkt : yields plain_answer (handle_packet (U := U) abi pkt).
Proof.
  assert (forall l, forallb plain l = true ->
    yields (S := GdbStub U) plain_answer (M_ret (Reply l))) as Hconst
    by (intros l Hl; by apply yields_ret, plain_text_dec).
  assert (forall r, yields (S := GdbStub U) plain_answer (M_ret (Leave r))) as Hleave
    by (intros; by apply yields_ret).
  destruct pkt as [|cmd s]; [by apply Hconst|]. unfold handle_packet.
  repeat match goal with
  | |- yields _ (if ?b then _ else _) => destruct b
  end; try (by apply Hconst); try apply Hleave.
  - apply yields_then; intros _; by apply Hconst.
  - eapply yields_bind; [apply uc_op_yields, regs_hex_plain|]. intros h Hh. by apply yields_ret.
  - apply yields_then; intros _; by apply Hconst.
  - eapply (yields_bind plain_text).
    + unfold read_one_reg_hex. destruct (znth _ _); [apply uc_op_yields, reg_hex_plain|].
      by apply yields_ret, plain_text_dec.
    + intros h Hh. by apply yields_ret.
  - destruct (parse_hex_u64 s) as [n r]. apply yields_then; intros _; by apply Hconst.
  - unfold cmd_read_mem. destruct (addr_len s) as [[addr len] r]. destruct (_ || _); [by apply Hconst|].
    apply yields_try; [|by apply Hconst]. apply yields_then. intros l.
    apply yields_ret, hex_plain, bytes_to_hex_is_hex.
  - unfold cmd_write_mem. destruct (addr_len s) as [[addr len] r]. apply yields_then. intros _.
    apply yields_try; [|by apply Hconst]. apply yields_then; intros _; by apply Hconst.
  - unfold cmd_write_bin. destruct (addr_len s) as [[addr len] r]. apply yields_then. intros _.
    apply yields_try; [|by apply Hconst]. apply yields_then; intros _; by apply Hconst.
  - unfold cmd_breakpoint. destruct s as [|t s]; [by apply Hconst|].
    destruct (_ && _); [by apply Hconst|]. apply yields_then; intros _; by apply Hconst.
  - unfold cmd_breakpoint. destruct s as [|t s]; [by apply Hconst|].
    destruct (_ && _); [by apply Hconst|]. apply yields_then; intros _; by apply Hconst.
  - apply yields_ret, query_reply_plain.
  - apply yields_then; intros _; by apply Hconst.
  - apply yields_ret. unfold vcont_reply. destruct (is_text _ _); [by apply plain_text_dec|].
    destruct (starts_with _ _); [done|constructor].
Qed.

(** Every reply survives its framing: whatever a client asks and whatever
    the guest's registers and memory hold, the reply contains none of the
    characters the protocol reserves, so that a conforming reader of the
    framed reply gets exactly the reply, with nothing of what follows. *)
Lemma replies_read_back pkt g l g' n acks rest out :
  handle_packet (U := U) abi pkt g = (Ret (Reply l), g') -> (length (frame l) <= n)%nat ->
  plain_text l /\
  read_from n acks (frame l ++ rest) out = (Some l, rest, if acks then out ++ [43] else out).
Proof.
  intros Hh Hn. pose proof (handle_packet_plain _ _ _ _ Hh) as Hp. cbn in Hp. split; [done|].
  apply (read_from_frame n acks [] l rest out); [constructor| |done].
  eapply Forall_impl; [exact Hp|]. intros c Hc ->. done.
Qed.
End Replies.

(** ** Serving ends, and what it keeps *)

(** From a state satisfying [P], [m] has no undefined behaviour and ends in
    one satisfying [P]. *)
Definition safely {S A} (P : S -> Prop) (m : M S A) : Prop :=
  forall s r s', P s -> m s = (r, s') -> r <> UB /\ P s'.

Lemma safely_ret {S A} (P : S -> Prop) (a : A) : safely P (M_ret a).
Proof. by intros s r s' Hs [= <- <-]. Qed.
Lemma safely_throw {S A} (P : S -> Prop) e : safely (A := A) P (throw e).
Proof. by intros s r s' Hs [= <- <-]. Qed.
Lemma safely_modify {S} (P : S -> Prop) f : (forall s, P s -> P (f s)) -> safely P (modify f).
Proof. intros Hf s r s' Hs [= <- <-]. auto. Qed.
Lemma safely_bind {S A B} (P : S -> Prop) (m : M S A) (f : A -> M S B) :
  safely P m -> (forall a, safely P (f a)) -> safely P (M_bind f m).
Proof.
  intros Hm Hf s r s' Hs. unfold M_bind. destruct (m s) as [o s1] eqn:E.
  destruct (Hm _ _ _ Hs E) as [Hu H1]. destruct o as [a|e|]; [|by intros [= <- <-]|done].
  intros E'. by apply (Hf a s1).
Qed.
Lemma safely_try {S A} (P : S -> Prop) (m h : M S A) :
  safely P m -> safely P h -> safely P (try_catch m h).
Proof.
  intros Hm Hh s r s' Hs. unfold try_catch. destruct (m s) as [o s1] eqn:E.
  destruct (Hm _ _ _ Hs E) as [Hu H1]. destruct o as [a|e|]; [by intros [= <- <-]| |done].
  intros E'. by apply (Hh s1).
Qed.

Section Serving.
Context {U : Type} `{UcOps U}.
Variable abi : Abi.

(** While a session is served the client stays attached, its hook installed,
    and the input only gets shorter. *)
Definition serving (k : nat) (g : GdbStub U) : Prop :=
  client_ g = true /\ hook_ g = true /\ (length (g_in g) <= k)%nat.

(** An emulator call without undefined behaviour. *)
Definition no_ub {A} (op : M U A) : Prop := forall u, fst (op u) <> UB.

Lemma uc_op_safely {A} k (op : M U A) : no_ub op -> safely (serving k) (uc_op op).
Proof.
  intros Hop g r g' Hg. unfold uc_op. specialize (Hop (g_uc g)).
  destruct (op (g_uc g)) as [o u]. by intros [= <- <-].
Qed.

Lemma no_ub_ret {A} (a : A) : no_ub (M_ret a).
Proof. done. Qed.
Lemma no_ub_bind {A B} (m : M U A) (f : A -> M U B) :
  no_ub m -> (forall a, no_ub (f a)) -> no_ub (M_bind f m).
Proof.
  intros Hm Hf u. unfold M_bind. specialize (Hm u). destruct (m u) as [[a|e|] u1]; [|done..].
  apply Hf.
Qed.
Lemma no_ub_read r : no_ub (read_uc_reg r).
Proof. done. Qed.
Lemma no_ub_write r v : no_ub (write_uc_reg r v).
Proof. done. Qed.
Lemma no_ub_mem_read a n : no_ub (e_read a n).
Proof. intros u. unfold e_read. by destruct (uc_mem_read u a n). Qed.
Lemma no_ub_mem_write a l : no_ub (e_write a l).
Proof. intros u. unfold e_write, check. by destruct (uc_mem_write u a l). Qed.
Lemma no_ub_reg_hex r : no_ub (reg_hex r).
Proof. done. Qed.
Lemma no_ub_regs_hex l : no_ub (regs_hex l).
Proof.
  induction l as [|r l IH]; [done|]. apply no_ub_bind; [done|]. intros h.
  apply no_ub_bind; [apply IH|done].
Qed.
Lemma no_ub_write_regs l hex : no_ub (write_regs_hex l hex).
Proof.
  revert hex. induction l as [|r l IH]; intros hex; [done|]. cbn [write_regs_hex].
  destruct (_ <? _)%nat; [done|]. apply no_ub_bind; [done|]. intros _. apply IH.
Qed.
Lemma no_ub_stop_regs i l : no_ub (stop_regs i l).
Proof.
  revert i. induction l as [|r l IH]; intros i; [done|]. cbn [stop_regs].
  apply no_ub_bind; [by destruct (_ || _)|]. intros t. apply no_ub_bind; [apply IH|done].
Qed.

Create HintDb gdb.
#[local] Hint Resolve uc_op_safely no_ub_read no_ub_write no_ub_mem_read no_ub_mem_write no_ub_reg_hex
  no_ub_regs_hex no_ub_write_regs no_ub_stop_regs safely_throw : gdb.

Ltac safe_step :=
  match goal with
  | |- safely _ (mbind _ _) => apply safely_bind; [|intros ?]
  | |- safely _ (mret _) => apply safely_ret
  | |- safely _ skip => apply safely_ret
  | |- safely _ get => by intros ?g ?r ?g' ? [= <- <-]
  | |- safely _ (modify _) => apply safely_modify; by intros
  | |- safely _ (send _) => apply safely_modify; by intros
  | |- safely _ (try_catch _ _) => apply safely_try
  | |- safely _ (uc_op (write_reg_bytes _ _)) => apply uc_op_safely, no_ub_write
  | |- safely _ (uc_op _) => solve [eauto with gdb]
  | |- safely _ (if ?b then _ else _) => destruct b
  | |- safely _ (match ?x with _ => _ end) => destruct x
  | |- safely _ _ => solve [eauto with gdb]
  end.
Ltac safe := repeat safe_step.

Lemma recv_safely k : safely (serving k) recv.
Proof.
  intros g r g' (Hc & Hh & Hl). unfold recv. destruct (g_in g) as [|c l] eqn:E; intros [= <- <-].
  - split; [done|]. split; [done|]. split; [done|]. by rewrite E.
  - split; [done|]. split; [done|]. split; [done|]. cbn in *. lia.
Qed.
#[local] Hint Resolve recv_safely : gdb.
Lemma send_packet_safely k p : safely (serving k) (send_packet p).
Proof. unfold send_packet. safe. Qed.
#[local] Hint Resolve send_packet_safely : gdb.
Lemma send_stop_reply_safely k n : safely (serving k) (send_stop_reply abi n).
Proof. unfold send_stop_reply. safe. Qed.
#[local] Hint Resolve send_stop_reply_safely : gdb.

Lemma handle_packet_safely k pkt : safely (serving k) (handle_packet abi pkt).
Proof.
  destruct pkt as [|cmd s]; [apply safely_ret|]. unfold handle_packet.
  unfold read_all_regs_hex, write_all_regs_hex, read_one_reg_hex, write_one_reg_hex, cmd_read_mem,
    cmd_write_mem, cmd_write_bin, cmd_breakpoint, vector_len.
  safe.
Qed.
#[local] Hint Resolve handle_packet_safely : gdb.

Lemma packet_body_length l p r : packet_body l = Some (p, r) -> (length r < length l)%nat.
Proof.
  revert p r. induction l as [|c l IH]; intros p r; [done|]. cbn [packet_body length].
  destruct (c =? 35); [intros [= <- <-]; lia|].
  destruct (packet_body l) as [[p' r']|]; [|done]. intros [= <- <-].
  specialize (IH _ _ eq_refl). lia.
Qed.

Lemma read_from_length n acks l out p r out' :
  read_from n acks l out = (p, r, out') ->
  (length r <= length l)%nat /\ (p <> None -> (length r < length l)%nat).
Proof.
  revert l out. induction n as [|n IH]; intros l out; cbn [read_from].
  { by intros [= <- <- <-]. }
  destruct l as [|c l]; [by intros [= <- <- <-]|]. cbn [length].
  destruct (c =? 3); [intros [= <- <- <-]; lia|].
  destruct (negb (c =? 36)).
  { intros [? ?]%IH. split; [lia|]. intros Hp. specialize (H1 Hp). lia. }
  destruct (packet_body l) as [[b [|h [|o r']]]|] eqn:E; [by intros [= <- <- <-]; split;[cbn;lia|]..| |].
  - apply packet_body_length in E. cbn in E. destruct (_ =? _).
    + intros [= <- <- <-]. lia.
    + intros [? Hs]%IH. split; [lia|]. intros Hp. specialize (Hs Hp). lia.
  - by intros [= <- <- <-]; split; [cbn; lia|].
Qed.

Lemma serve_n_safely n k :
  (n <= k)%nat -> forall g r g', serving n g -> serve_n abi n g = (r, g') -> r <> UB /\ serving k g'.
Proof.
  intros Hnk g r g'. assert (forall n, safely (serving n) (serve_n abi n)) as H0.
  2: { intros Hg E. destruct (H0 n g r g' Hg E) as (? & ? & ? & ?). split; [done|].
       split; [done|]. split; [done|]. lia. }
  clear. induction n as [|n IH].
  all: intros g r g' (Hc & Hh & Hl) E; cbn [serve_n] in E.
  all: unfold mbind, M_mbind, M_bind at 1 in E; unfold read_packet at 1 in E.
  all: destruct (read_from (length (g_in g)) (negb (no_ack_ g)) (g_in g) (g_out g)) as [[p l] o] eqn:Er.
  all: pose proof (read_from_length _ _ _ _ _ _ _ Er) as [Hle Hlt].
  all: destruct p as [pkt|]; [|injection E as <- <-; split; [done|]; split; [done|]; split; [done|];
         cbn; lia].
  { specialize (Hlt ltac:(done)). lia. }
  specialize (Hlt ltac:(done)). set (g1 := with_io l o g) in *.
  assert (serving n g1) as Hg1 by (split; [done|]; split; [done|]; cbn; lia).
  assert (safely (serving n) (serve_n abi n)) as IH' by exact IH.
  refine (_ (safely_bind (serving n) _ _ _ _ g1 r g' Hg1 E)).
  - intros [Hr (? & ? & ?)]. split; [done|]. split; [done|]. split; [done|]. lia.
  - apply safely_modify. by intros.
  - intros _. apply safely_bind; [apply handle_packet_safely|]. intros [reply|rr]; [|apply safely_ret].
    apply safely_bind; [apply send_packet_safely|]. intros _. apply safely_bind; [|by intros].
    apply safely_modify. intros s Hs. by destruct (arm_no_ack_ s).
Qed.

(** C24: serving a client always comes to an end: for every sequence of bytes
    the client may send, well-formed packets or not, the loop returns why it
    stopped, or an exception (a memory write of an absurd length) leaves it;
    it never runs out of turns. *)
Theorem serve_total (g : GdbStub U) :
  client_ g = true -> hook_ g = true ->
  exists g', (exists r, serve abi g = (Ret r, g')) \/ (exists e, serve abi g = (Throw e, g')).
Proof.
  intros Hc Hh. destruct (serve abi g) as [r g'] eqn:E. exists g'.
  unfold serve in E. rewrite bind_get in E.
  destruct (serve_n_safely (length (g_in g)) _ (le_n _) g r g') as [Hr _]; [by repeat split|done|].
  destruct r as [r|e|]; [by left; exists r|by right; exists e|done].
Qed.

(** *** The session in every reachable state *)

(** Without a client nothing is armed: no breakpoint, no step, not resumed.
    With one, the instruction hook is installed. *)
Definition session_ok (g : GdbStub U) : Prop :=
  (client_ g = true -> hook_ g = true) /\
  (client_ g = false -> resumed_ g = false /\ breakpoints_ g = ∅ /\ stepping_ g = false).

(** The calls the driver and the emulator make, and the guest itself. *)
Inductive gdb_step : GdbStub U -> GdbStub U -> Prop :=
| gs_listen conn r g g' : listen abi conn g = (r, g') -> gdb_step g g'
| gs_detach r g g' : detach g = (r, g') -> gdb_step g g'
| gs_fault pc r g g' : report_fault abi pc g = (r, g') -> gdb_step g g'
| gs_end r g g' : end_run abi g = (r, g') -> gdb_step g g'
| gs_instruction arrived pc r g g' : on_instruction abi arrived pc g = (r, g') -> gdb_step g g'
| gs_guest g u : gdb_step g (with_uc g u).

Definition attached (g : GdbStub U) : Prop := client_ g = true /\ hook_ g = true.

Lemma attached_ok g : attached g -> session_ok g.
Proof. intros [Hc Hh]. split; [done|]. by rewrite Hc. Qed.

(** What keeps serving states keeps attached ones. *)
Lemma attached_keeps {A} (m : M (GdbStub U) A) :
  (forall k, safely (serving k) m) -> preserves attached m.
Proof.
  intros Hm g r g' [Hc Hh] E.
  by destruct (Hm (length (g_in g)) g r g') as (_ & ? & ? & _).
Qed.

Lemma serve_attached : preserves attached (serve abi).
Proof.
  intros g r g' [Hc Hh] E. unfold serve in E. rewrite bind_get in E.
  by destruct (serve_n_safely (length (g_in g)) _ (le_n _) g r g') as (_ & ? & ? & _).
Qed.

(** Running attached, then the rest. *)
Lemma attached_then {A B} (m : M (GdbStub U) A) (f : A -> M (GdbStub U) B) :
  preserves attached m -> (forall a g r g', attached g -> f a g = (r, g') -> session_ok g') ->
  forall g r g', attached g -> M_bind f m g = (r, g') -> session_ok g'.
Proof.
  intros Hm Hf g r g' Hg. unfold M_bind. destruct (m g) as [o g1] eqn:E.
  pose proof (Hm _ _ _ Hg E) as H1. destruct o as [a|e|].
  - by apply Hf.
  - intros [= _ <-]. by apply attached_ok.
  - intros [= _ <-]. by apply attached_ok.
Qed.

Lemma close_client_ok g r g' : attached g -> close_client g = (r, g') -> session_ok g'.
Proof. by intros Hg [= _ <-]. Qed.

Lemma modify_ok f g r g' :
  (forall g, attached g -> attached (f g)) -> attached g -> modify f g = (r, g') -> session_ok g'.
Proof. intros Hf Hg [= _ <-]. apply attached_ok. auto. Qed.

Lemma preserves_attached_modify f :
  (forall g, attached g -> attached (f g)) -> preserves attached (modify f).
Proof. intros Hf g r g' Hg [= _ <-]. auto. Qed.

#[local] Hint Resolve send_packet_safely send_stop_reply_safely : gdb.
Lemma send_packet_attached p : preserves attached (send_packet p).
Proof. apply attached_keeps. intros. apply send_packet_safely. Qed.
Lemma send_stop_attached n : preserves attached (send_stop_reply abi n).
Proof. apply attached_keeps. intros. apply send_stop_reply_safely. Qed.

Lemma final_packet_attached (r : Resume) p :
  preserves attached (match r with Continue | Step => send_packet p | _ => skip end).
Proof. destruct r; first [apply send_packet_attached|apply preserves_ret]. Qed.

Lemma listen_ok conn g r g' : session_ok g -> listen abi conn g = (r, g') -> session_ok g'.
Proof.
  intros Hg. unfold listen. rewrite bind_get.
  destruct (client_ g); [by intros [= _ <-]|]. destruct conn as [i|]; [|by intros [= _ <-]].
  rewrite bind_modify. set (g1 := with_hook true _).
  assert (attached g1) as H1 by (split; done). clearbody g1. revert r g' H1.
  enough (forall r g', attached g1 -> _ g1 = (r, g') -> session_ok g') as He by exact He.
  intros r g' H1. apply attached_then; [apply serve_attached| |done].
  clear. intros [] g r g' Hg E; first
    [injection E as _ <-; apply attached_ok; exact Hg
    |by injection E as _ <-].
Qed.

Lemma fault_ok pc g r g' : session_ok g -> report_fault abi pc g = (r, g') -> session_ok g'.
Proof.
  intros Hg. unfold report_fault. rewrite bind_get.
  destruct (negb (client_ g) || negb (resumed_ g)) eqn:E; [by intros [= _ <-]|].
  bool_to_Prop. assert (attached g) as Ha by (split; [done|by apply Hg]).
  revert Ha. apply attached_then; [apply send_stop_attached|]. intros _.
  apply attached_then; [apply serve_attached|]. intros rr.
  apply attached_then; [apply final_packet_attached|]. intros _. apply close_client_ok.
Qed.

Lemma end_run_ok g r g' : session_ok g -> end_run abi g = (r, g') -> session_ok g'.
Proof.
  intros Hg. unfold end_run. rewrite bind_get.
  destruct (negb (client_ g) || negb (resumed_ g)) eqn:E; [by intros [= _ <-]|].
  bool_to_Prop. assert (attached g) as Ha by (split; [done|by apply Hg]).
  revert Ha. apply attached_then; [apply send_stop_attached|]. intros _.
  apply attached_then; [apply serve_attached|]. intros rr.
  apply attached_then; [apply final_packet_attached|]. intros _ g1 r1 g1'. by apply modify_ok.
Qed.

Lemma should_stop_attached arrived pc : preserves attached (should_stop arrived pc).
Proof.
  intros g r g' Hg. unfold should_stop. rewrite bind_get.
  destruct (_ || _); [by intros [= _ <-]|]. rewrite bind_modify.
  destruct (_ =? 0); [|by intros [= _ <-]]. unfold poll_interrupt.
  unfold mbind at 1, M_mbind, M_bind at 1. rewrite bind_get. cbn [g_in with_poll].
  destruct (g_in g) as [|c l] eqn:Ei; [by intros [= _ <-]|].
  destruct (arrived && (c =? 3)); [|by intros [= _ <-]].
  unfold mbind, M_mbind, M_bind, recv. cbn [g_in with_poll]. rewrite Ei. by intros [= _ <-].
Qed.

Lemma on_instruction_ok arrived pc g r g' :
  session_ok g -> on_instruction abi arrived pc g = (r, g') -> session_ok g'.
Proof.
  intros Hg. unfold on_instruction. rewrite bind_get.
  destruct (client_ g) eqn:Ec; [|by intros [= _ <-]]. cbn [negb].
  assert (attached g) as Ha by (split; [done|by apply Hg]). clear Ec Hg. revert r g'.
  enough (forall r g', attached g -> _ g = (r, g') -> session_ok g') as He by (intros; by eapply He).
  intros r g'. apply attached_then; [apply should_stop_attached|].
  intros brk g1 r1 g1' H1. destruct (negb brk); [intros [= _ <-]; by apply attached_ok|].
  rewrite bind_get, bind_modify. revert H1.
  enough (forall g2, attached g2 -> _ g2 = (r1, g1') -> session_ok g1') as He2
    by (intros H1; apply He2; exact H1).
  intros g2. apply attached_then; [apply send_stop_attached|]. intros _.
  apply attached_then; [apply serve_attached|]. intros [] g3 r3 g3' H3.
  - intros [= _ <-]. by apply attached_ok.
  - by apply modify_ok.
  - by apply close_client_ok.
  - by intros [= _ <-].
  - by apply close_client_ok.
Qed.

(** C10: in every state the stub can reach, through connections, instructions,
    faults, ends of runs and detaches, each ending well or with an exception,
    and with any guest activity between them: without a client no breakpoint,
    single step or resumption is left over, and with one the instruction hook
    is installed. *)
Theorem session_invariant u g : star gdb_step (init_gdb u) g -> session_ok g.
Proof.
  apply star_invariant; [|by split].
  intros g1 g2 Hok Hs. destruct Hs; eauto using listen_ok, fault_ok, end_run_ok, on_instruction_ok.
  by injection H0 as _ <-.
Qed.
End Serving.

(** ** Commands end to end *)

Section Commands.
Context {U : Type} `{UcLaws U}.
Variable abi : Abi.

(** The text of the commands a debugger sends. *)
Definition write_mem_packet (addr : Z) (data : list Z) : list Z :=
  77 :: hex_num addr ++ 44 :: hex_num (zlen data) ++ 58 :: bytes_to_hex data.
Definition read_mem_packet (addr len : Z) : list Z := 109 :: hex_num addr ++ 44 :: hex_num len.
Definition write_reg_packet (n : Z) (data : list Z) : list Z :=
  80 :: hex_num n ++ 61 :: bytes_to_hex data.
Definition read_reg_packet (n : Z) : list Z := 112 :: hex_num n.

Lemma addr_len_text addr len rest :
  0 <= addr < 2 ^ 64 -> 0 <= len < 2 ^ 64 ->
  match rest with c :: _ => isxdigit c = false | [] => True end ->
  addr_len (hex_num addr ++ 44 :: hex_num len ++ rest) = (addr, len, rest).
Proof.
  intros Ha Hl Hr. unfold addr_len. rewrite parse_hex_u64_num by done. cbn [skip_char].
  change (44 =? 44) with true. cbv iota. by rewrite parse_hex_u64_num.
Qed.

Lemma fill_all l : fill (length l) l = l.
Proof. unfold fill. by rewrite Nat.sub_diag, app_nil_r, firstn_all. Qed.

(** What a debugger writes to mapped memory with [M] it reads back with
    [m]: both packets, as text with the address and length in hexadecimal, go
    through the parser, the emulator and the encoder unchanged. *)
Lemma memory_commands addr data (g : GdbStub U) :
  0 <= addr < 2 ^ 64 -> bytes_ok data -> 0 < zlen data <= 0x100000 ->
  (forall x, addr <= x < addr + zlen data -> uc_mapped (g_uc g) x = true) ->
  exists u', let g' := with_uc g u' in
    handle_packet abi (write_mem_packet addr data) g = (Ret (Reply (bs "OK")), g') /\
    handle_packet abi (read_mem_packet addr (zlen data)) g' = (Ret (Reply (bytes_to_hex data)), g').
Proof.
  intros Ha Hd Hlen Hm. destruct (law_write_ok (g_uc g) addr data Hm) as [u' Hu'].
  exists u'. cbv zeta. split.
  - change (handle_packet abi (write_mem_packet addr data) g) with
      (cmd_write_mem (hex_num addr ++ 44 :: hex_num (zlen data) ++ 58 :: bytes_to_hex data) g).
    unfold cmd_write_mem. rewrite addr_len_text by (done || lia). unfold vector_len.
    rewrite (proj2 (Z.leb_gt _ _)) by lia. rewrite bind_skip. cbn [skip_char].
    change (58 =? 58) with true. cbv iota zeta.
    pose proof (hex_pairs_to_hex data [] Hd) as Eh. rewrite !app_nil_r in Eh. rewrite Eh.
    rewrite zlen_to_nat, fill_all. unfold try_catch, mbind, M_mbind, M_bind, uc_op, e_write, check.
    by rewrite Hu'.
  - change (handle_packet abi (read_mem_packet addr (zlen data)) (with_uc g u')) with
      (cmd_read_mem (hex_num addr ++ 44 :: hex_num (zlen data)) (with_uc g u')).
    unfold cmd_read_mem. pose proof (addr_len_text addr (zlen data) []) as Et.
    rewrite app_nil_r in Et. rewrite Et by (done || lia).
    rewrite (proj2 (Z.eqb_neq _ 0)), (proj2 (Z.ltb_ge _ (zlen data))) by lia. cbn [orb].
    unfold try_catch, mbind, M_mbind, M_bind, uc_op, e_read. cbn [g_uc with_uc].
    by rewrite (law_read_write _ _ _ _ Hd Hu').
Qed.

(** A register that stores every bit written to it reads back through [p]
    what [P] wrote, byte for byte and whatever its width. *)
Lemma register_commands n r data (g : GdbStub U) :
  znth (regs (table_for abi)) n = Some r -> reg_width (uc_id r) = Some (bits r) ->
  bytes_ok data -> length data = reg_bytes r ->
  exists u', let g' := with_uc g u' in
    handle_packet abi (write_reg_packet n data) g = (Ret (Reply (bs "OK")), g') /\
    handle_packet abi (read_reg_packet n) g' = (Ret (Reply (bytes_to_hex data)), g').
Proof.
  intros Hr Hw Hd Hlen. exists (uc_reg_write (g_uc g) (uc_id r) (le_val data)). cbv zeta.
  assert (0 <= n < 2 ^ 64) as Hn.
  { unfold znth in Hr. destruct (Z.leb_spec 0 n); [|done]. apply lookup_lt_Some in Hr.
    assert (length (regs (table_for abi)) <= 100)%nat by (destruct abi; vm_compute; lia). lia. }
  split.
  - change (handle_packet abi (write_reg_packet n data) g) with
      ((let '(n, r) := parse_hex_u64 (hex_num n ++ 61 :: bytes_to_hex data) in
        _ ← write_one_reg_hex abi n (skip_char 61 r); mret (Reply (bs "OK"))) g).
    rewrite parse_hex_u64_num by done. cbn [skip_char]. change (61 =? 61) with true. cbv iota.
    unfold write_one_reg_hex. rewrite Hr. unfold hex_to_reg_bytes.
    pose proof (hex_pairs_to_hex data [] Hd) as Eh. rewrite !app_nil_r in Eh. rewrite Eh, <- Hlen, fill_all.
    done.
  - change (handle_packet abi (read_reg_packet n) (with_uc g (uc_reg_write (g_uc g) (uc_id r) (le_val data))))
      with ((h ← read_one_reg_hex abi (fst (parse_hex_u64 (hex_num n))); mret (Reply h))
              (with_uc g (uc_reg_write (g_uc g) (uc_id r) (le_val data)))).
    pose proof (parse_hex_u64_num n [] Hn I) as Ep. rewrite app_nil_r in Ep. rewrite Ep. cbn [fst].
    unfold read_one_reg_hex. rewrite Hr.
    unfold mbind, M_mbind, M_bind, uc_op, reg_hex, read_reg_bytes, mbind, M_mbind, M_bind,
      read_uc_reg, gets. cbn [g_uc with_uc mret M_mret M_ret].
    rewrite (law_reg_same _ _ _ _ Hw), <- Hlen. do 4 f_equal.
    assert (8 * Z.of_nat (length data) = bits r) as Eb.
    { rewrite Hlen. unfold reg_bytes. clear -Hr.
      assert (forallb (fun r => 8 * Z.of_nat (Z.to_nat (bits r / 8)) =? bits r) (regs (table_for abi)) = true)
        as Hall by (destruct abi; vm_compute; reflexivity).
      rewrite forallb_forall in Hall. apply Z.eqb_eq, Hall, list_elem_of_In.
      unfold znth in Hr. destruct (0 <=? n); [|done]. by apply list_elem_of_lookup_2 in Hr. }
    by rewrite <- Eb, le_bytes_mod, le_bytes_val.
Qed.
End Commands.

(** ** Sessions on the reference emulator *)

Definition gdb_uc : RefUc := mkRefUc [(0x10000, 0x1000)] ∅ (fun _ => 0).
Definition gdb_idle : GdbStub RefUc := init_gdb gdb_uc.
(** A client that sets a breakpoint and continues, in no-ack mode. *)
Definition gdb_script : list Z :=
  frame (bs "QStartNoAckMode") ++ [43] ++ frame (bs "Z0,10010,4") ++ frame (bs "c").
Definition gdb_running : GdbStub RefUc := snd (listen Arm64 (Some gdb_script) gdb_idle).

Example gdb_running_armed :
  client_ gdb_running = true /\ resumed_ gdb_running = true /\ no_ack_ gdb_running = true /\
  bool_decide (0x10010 ∈ breakpoints_ gdb_running) = true.
Proof. vm_compute. done. Qed.

Lemma replies_read_back_witness :
  plain_text (bs "S05") /\
  read_from 20 true (frame (bs "S05") ++ [43]) [] = (Some (bs "S05"), [43], [43]).
Proof.
  apply (replies_read_back Arm64 (bs "?") gdb_idle (bs "S05") gdb_idle 20 true [43] []).
  - vm_compute. reflexivity.
  - vm_compute. lia.
Defined.

Lemma serve_total_witness :
  exists g', (exists r, serve Arm64 gdb_running = (Ret r, g')) \/
             (exists e, serve Arm64 gdb_running = (Throw e, g')).
Proof. apply (serve_total Arm64 gdb_running); vm_compute; reflexivity. Defined.

Lemma session_invariant_witness : session_ok gdb_running.
Proof.
  apply (session_invariant Arm64 gdb_uc). apply star_one.
  exact (gs_listen Arm64 (Some gdb_script) _ _ _ (surjective_pairing (listen Arm64 (Some gdb_script) gdb_idle))).
Defined.

Lemma memory_commands_witness :
  exists u', let g' := with_uc gdb_running u' in
    handle_packet Arm64 (bs "M10020,3:0aff41") gdb_running = (Ret (Reply (bs "OK")), g') /\
    handle_packet Arm64 (bs "m10020,3") g' = (Ret (Reply (bs "0aff41")), g').
Proof.
  apply (memory_commands Arm64 0x10020 [10; 255; 65] gdb_running).
  - done.
  - apply bytes_okb_ok. reflexivity.
  - done.
  - intros x Hx. change (g_uc gdb_running) with (g_uc gdb_running).
    assert (ru_ranges (g_uc gdb_running) = [(0x10000, 0x1000)]) as E by (vm_compute; reflexivity).
    unfold uc_mapped, RefUc_ops, ru_mapped. rewrite E. cbn [existsb].
    rewrite (proj2 (in_range_spec _ _ _)); [done|]. change (zlen [10; 255; 65]) with 3 in Hx. lia.
Defined.

Lemma register_commands_witness :
  exists u', let g' := with_uc gdb_idle u' in
    handle_packet Arm64 (bs "P1f=8877665544332211") gdb_idle = (Ret (Reply (bs "OK")), g') /\
    handle_packet Arm64 (bs "p1f") g' = (Ret (Reply (bs "8877665544332211")), g').
Proof.
  apply (register_commands Arm64 31 (mkRegDesc "sp" A64_SP 64 (Some "data_ptr") (Some "sp") false)%string
           [0x88; 0x77; 0x66; 0x55; 0x44; 0x33; 0x22; 0x11] gdb_idle).
  - vm_compute. reflexivity.
  - reflexivity.
  - apply bytes_okb_ok. reflexivity.
  - reflexivity.
Defined.

(** ** Where the code falls short *)

(** A client that detaches at the final stop is not let go: [end_run] keeps it
    attached with its breakpoints, and the next [listen] reports success
    without waiting for anyone. *)
Definition gdb_ended : GdbStub RefUc :=
  snd (end_run Arm64 (with_io (frame (bs "D")) [] gdb_running)).
Example detach_at_end_ignored :
  client_ gdb_ended = true /\ bool_decide (0x10010 ∈ breakpoints_ gdb_ended) = true /\
  fst (listen Arm64 (Some (frame (bs "?"))) gdb_ended) = Ret true.
Proof. vm_compute. done. Qed.

(** A Ctrl-C while stopped is answered twice: the stop reply, then an empty
    packet. *)
Example interrupt_answered_twice :
  exists stop, g_out (snd (serve Arm64 (with_io [3] [] gdb_running))) = frame stop ++ frame [].
Proof.
  exists (bs "T021f:0000000000000000;20:0000000000000000;thread:1;"). vm_compute. reflexivity.
Qed.

(** A write of an absurd length is an exception out of the server, where the
    same read is an error reply. *)
Example absurd_write_throws :
  fst (handle_packet Arm64 (bs "M0,ffffffffffffffff:") gdb_running) = Throw "vector" /\
  fst (handle_packet Arm64 (bs "m0,ffffffffffffffff") gdb_running) = Ret (Reply (bs "E01")).
Proof. vm_compute. done. Qed.

(** The address a client may give to continue at is ignored. *)
Example continue_address_ignored :
  handle_packet Arm64 (bs "c10040") gdb_idle = handle_packet Arm64 (bs "c") gdb_idle.
Proof. reflexivity. Qed.
