(* ===== verification/Rc4.v ===== *)
(** RC4 of [include/vardoger/util/rc4.hpp]: key schedule, streaming cipher,
    guest-state serialisation and the one-shot helper.

    The S-box is the list of the 256 bytes of [uint8_t S[256]]; every index
    the code uses is a [uint8_t], so accesses are within the array. *)

From S2P Require Import Prelude.
From S2P Require Import Words.

Record Rc4 := mkRc4 { S_ : list Z; i_ : Z; j_ : Z }.

(** [S[k]] for a [uint8_t] index. *)
Definition sbox (T : list Z) (k : Z) : Z := T !!! Z.to_nat k.

(** [t = S[a]; S[a] = S[b]; S[b] = t]. *)
Definition swap (T : list Z) (a b : Z) : list Z :=
  <[Z.to_nat b := sbox T a]> (<[Z.to_nat a := sbox T b]> T).

Definition ksa_step (key : list Z) (st : list Z * Z) (k : nat) : list Z * Z :=
  let '(T, jj) := st in
  let keyb := if (length key =? 0)%nat then 0
              else key !!! (k mod length key)%nat in
  let jj' := u8 (jj + sbox T (Z.of_nat k) + keyb) in
  (swap T (Z.of_nat k) jj', jj').

Definition ksa (key : list Z) : Rc4 :=
  let S0 := Z.of_nat <$> seq 0 256 in
  let '(T, _) := fold_left (ksa_step key) (seq 0 256) (S0, 0) in
  mkRc4 T 0 0.

(** One round of [crypt]: the keystream byte and the next state. *)
Definition prga (r : Rc4) : Z * Rc4 :=
  let i := u8 (i_ r + 1) in
  let j := u8 (j_ r + sbox (S_ r) i) in
  let T := swap (S_ r) i j in
  (sbox T (u8 (sbox T i + sbox T j)), mkRc4 T i j).

Fixpoint crypt (r : Rc4) (buf : list Z) : list Z * Rc4 :=
  match buf with
  | [] => ([], r)
  | b :: rest =>
      let '(k, r1) := prga r in
      let '(out, r2) := crypt r1 rest in
      (Z.lxor b k :: out, r2)
  end.

Lemma crypt_cons r b rest :
  crypt r (b :: rest) =
  let out := crypt (snd (prga r)) rest in
  (Z.lxor b (fst (prga r)) :: fst out, snd out).
Proof.
  cbn [crypt]. destruct (prga r) as [k r1]. cbn [fst snd].
  by destruct (crypt r1 rest).
Qed.
#[global] Arguments crypt : simpl never.

(** The guest's 0x102-byte layout: S-box, then [i] at 0x100, [j] at 0x101. *)
Definition load_state (g : list Z) : outcome Rc4 :=
  T ← or_ub (slice g 0 256);
  i ← or_ub (g !! 256%nat);
  j ← or_ub (g !! 257%nat);
  mret (mkRc4 T i j).

Definition save_state (r : Rc4) (g : list Z) : outcome (list Z) :=
  g1 ← or_ub (blit g 0 (S_ r));
  or_ub (blit g1 256 [i_ r; j_ r]).

Definition rc4 (key data : list Z) : list Z := fst (crypt (ksa key) data).

(** ** Invariant *)

(** The S-box is a permutation of 0..255 and both indices are bytes. *)
Record rc4_ok (r : Rc4) : Prop := {
  ok_sbox : Permutation (S_ r) (Z.of_nat <$> seq 0 256);
  ok_i : is_byte (i_ r);
  ok_j : is_byte (j_ r);
}.

Lemma perm_length T : Permutation T (Z.of_nat <$> seq 0 256) -> length T = 256%nat.
Proof. intros H. by rewrite H, length_fmap, length_seq. Qed.

Lemma sbox_lookup T k :
  length T = 256%nat -> is_byte k -> T !! Z.to_nat k = Some (sbox T k).
Proof.
  intros HS Hk. unfold is_byte in Hk. unfold sbox.
  apply list_lookup_lookup_total_lt. lia.
Qed.

Lemma swap_perm T a b :
  length T = 256%nat -> is_byte a -> is_byte b -> Permutation (swap T a b) T.
Proof. intros. apply insert_swap_Permutation; by apply sbox_lookup. Qed.

Lemma sbox_byte T k :
  Permutation T (Z.of_nat <$> seq 0 256) -> is_byte k -> is_byte (sbox T k).
Proof.
  intros HS Hk. pose proof (sbox_lookup T k (perm_length T HS) Hk) as E.
  apply list_elem_of_lookup_2 in E. revert E. generalize (sbox T k). intros x E.
  rewrite HS in E. apply list_elem_of_fmap in E as (n & -> & Hn%elem_of_seq). unfold is_byte. lia.
Qed.

Lemma byte_u8 x : is_byte (u8 x).
Proof. apply u8_range. Qed.
#[local] Hint Resolve byte_u8 sbox_byte perm_length : core.

Lemma ksa_step_ok key T jj k :
  (k < 256)%nat -> Permutation T (Z.of_nat <$> seq 0 256) ->
  Permutation (fst (ksa_step key (T, jj) k)) (Z.of_nat <$> seq 0 256).
Proof.
  intros Hk HS. simpl. rewrite swap_perm; auto. unfold is_byte. lia.
Qed.

Lemma prga_ok r : rc4_ok r -> rc4_ok (snd (prga r)).
Proof.
  intros [HS Hi Hj]. unfold prga. split; simpl; auto.
  rewrite swap_perm; auto.
Qed.

Lemma crypt_ok r buf : rc4_ok r -> rc4_ok (snd (crypt r buf)).
Proof.
  revert r. induction buf as [|b buf IH]; intros r Hr; [done|].
  rewrite crypt_cons. by apply IH, prga_ok.
Qed.

Lemma ksa_fold_ok key ks st :
  Forall (fun k => (k < 256)%nat) ks ->
  Permutation (fst st) (Z.of_nat <$> seq 0 256) ->
  Permutation (fst (fold_left (ksa_step key) ks st)) (Z.of_nat <$> seq 0 256).
Proof.
  revert st. induction ks as [|k ks IH]; intros [T jj] Hks Hst; [done|].
  inversion_clear Hks. cbn [fold_left]. apply IH; [done|]. by apply ksa_step_ok.
Qed.

Lemma ksa_ok key : rc4_ok (ksa key).
Proof.
  unfold ksa.
  assert (Forall (fun k => (k < 256)%nat) (seq 0 256)) as Hks.
  { apply Forall_forall. intros k Hk%elem_of_seq. lia. }
  pose proof (ksa_fold_ok key _ (Z.of_nat <$> seq 0 256, 0) Hks) as H.
  destruct (fold_left _ _ _) as [T jj].
  split; cbn [S_ i_ j_]; [by apply H|unfold is_byte; lia..].
Qed.

(** RC4's key schedule and cipher keep the state well formed: whatever
    the key and the data, after [ksa] and any number of bytes through
    [crypt] the S-box is a permutation of 0..255 and [i], [j] are bytes. *)
Lemma rc4_state_ok key buf : rc4_ok (snd (crypt (ksa key) buf)).
Proof. apply crypt_ok, ksa_ok. Qed.

(** ** Functional behaviour *)

Lemma crypt_length r buf : length (fst (crypt r buf)) = length buf.
Proof.
  revert r. induction buf as [|b buf IH]; intros r; [done|].
  rewrite crypt_cons. simpl. by rewrite IH.
Qed.

(** The keystream does not depend on the data, so the state after a call
    only depends on how many bytes went through. *)
Lemma crypt_state_length r b1 b2 :
  length b1 = length b2 -> snd (crypt r b1) = snd (crypt r b2).
Proof.
  revert r b2. induction b1 as [|x b1 IH]; intros r [|y b2]; try done.
  intros [= H]. rewrite !crypt_cons. by apply IH.
Qed.

(** Decryption is encryption: running [crypt] twice from the same state
    gives back the buffer, and leaves the cipher in the same state. *)
Lemma crypt_involutive r buf :
  crypt r (fst (crypt r buf)) = (buf, snd (crypt r buf)).
Proof.
  revert r. induction buf as [|b buf IH]; intros r; [done|].
  rewrite !crypt_cons. cbn [fst snd]. rewrite crypt_cons, IH. cbn [fst snd].
  by rewrite Z.lxor_assoc, Z.lxor_nilpotent, Z.lxor_0_r.
Qed.

(** The cipher is a stream: feeding a buffer in two calls gives the same
    bytes and the same state as feeding it in one (the guest's DynCryptor
    calls it piecewise). *)
Lemma crypt_app r b1 b2 :
  crypt r (b1 ++ b2) =
  (fst (crypt r b1) ++ fst (crypt (snd (crypt r b1)) b2),
   snd (crypt (snd (crypt r b1)) b2)).
Proof.
  revert r. induction b1 as [|b b1 IH]; intros r.
  - simpl. by destruct (crypt r b2).
  - simpl app. rewrite !crypt_cons, IH. done.
Qed.

Lemma load_state_app T i j rest :
  length T = 256%nat -> load_state (T ++ i :: j :: rest) = Ret (mkRc4 T i j).
Proof.
  intros L. unfold load_state.
  assert (slice (T ++ i :: j :: rest) 0 256 = Some T) as ->.
  { rewrite <- L. apply (slice_middle [] T). }
  rewrite (lookup_app_r T _ 256), (lookup_app_r T _ 257), L by lia. done.
Qed.

Lemma save_state_app T i j a b rest :
  length T = 256%nat -> length a = 256%nat -> length b = 2%nat ->
  save_state (mkRc4 T i j) (a ++ b ++ rest) = Ret (T ++ i :: j :: rest).
Proof.
  intros LT La Lb. unfold save_state. cbn [S_ i_ j_].
  rewrite blit_ok by (unfold zlen; rewrite ?length_app; lia).
  cbn [or_ub mbind outcome_mbind outcome_bind].
  change (Z.to_nat 0) with 0%nat. rewrite take_0, Nat.add_0_l, app_nil_l.
  rewrite LT, <- La, drop_app_length.
  rewrite blit_ok by (unfold zlen; rewrite ?length_app; simpl; lia).
  change (Z.to_nat 256) with 256%nat. cbn [or_ub]. f_equal.
  rewrite <- LT, take_app_length. simpl app. do 3 f_equal.
  rewrite <- drop_drop, drop_app_length.
  rewrite <- Lb. by rewrite drop_app_length.
Qed.

(** Saving the state into a guest buffer of at least 0x102 bytes
    succeeds, and loading it back gives the same state; bytes after 0x102
    are untouched. *)
Lemma save_load_state r g :
  rc4_ok r -> 258 <= zlen g ->
  exists g', save_state r g = Ret g' /\ load_state g' = Ret r /\
             drop 258 g' = drop 258 g.
Proof.
  intros [HS _ _] Hg. pose proof (perm_length _ HS) as L. unfold zlen in Hg.
  destruct r as [T i j]. cbn [S_] in *.
  exists (T ++ i :: j :: drop 258 g). split; [|split].
  - rewrite <- (take_drop 256 g) at 1. rewrite <- (take_drop 2 (drop 256 g)), drop_drop.
    apply save_state_app; rewrite ?length_take, ?length_drop; lia.
  - by apply load_state_app.
  - rewrite drop_app_ge, L by lia. done.
Qed.

(** The published vectors for "Key" / "Plaintext" and "Wiki" / "pedia". *)
Example rc4_vector_key :
  rc4 (bs "Key") (bs "Plaintext") =
  [0xBB; 0xF3; 0x16; 0xE8; 0xD9; 0x40; 0xAF; 0x0A; 0xD3].
Proof. vm_compute. reflexivity. Qed.

Example rc4_vector_wiki :
  rc4 (bs "Wiki") (bs "pedia") = [0x10; 0x21; 0xBF; 0x04; 0x20].
Proof. vm_compute. reflexivity. Qed.

Lemma save_load_state_witness :
  exists g', save_state (ksa (bs "Key")) (repeat 7 260) = Ret g' /\
             load_state g' = Ret (ksa (bs "Key")) /\
             drop 258 g' = drop 258 (repeat 7 260).
Proof.
  apply save_load_state.
  - apply ksa_ok.
  - vm_compute. discriminate.
Defined.
