(* ===== verification/Elf.v ===== *)
(** ELF structures: [include/vardoger/elf/elf.hpp], [SoInfo] of
    [include/vardoger/elf/elf_loader.hpp] and the file reader of
    [core/elf/elf_loader.cpp].

    A structure is its fields; [*_of] reads one from the bytes [memcpy]
    copies, by the on-disk layout of its class (64- or 32-bit). *)

From S2P Require Import Prelude.
From S2P Require Import Words.
From S2P Require Import Abi.
From stdpp Require Import strings.
#[local] Open Scope Z_scope.

(** ** Constants *)

Definition EI_NIDENT : Z := 16.
Definition EI_CLASS : nat := 4.
Definition EI_DATA : nat := 5.
Definition ELFCLASS32 : Z := 1.
Definition ELFCLASS64 : Z := 2.
Definition ELFDATA2LSB : Z := 1.

Definition EM_AARCH64 : Z := 183.
Definition EM_386 : Z := 3.
Definition EM_X86_64 : Z := 62.

Definition PT_LOAD : Z := 1.
Definition PT_DYNAMIC : Z := 2.
Definition PF_X : Z := 1.
Definition PF_W : Z := 2.
Definition PF_R : Z := 4.

Definition DT_NULL : Z := 0.
Definition DT_NEEDED : Z := 1.
Definition DT_PLTRELSZ : Z := 2.
Definition DT_HASH : Z := 4.
Definition DT_STRTAB : Z := 5.
Definition DT_SYMTAB : Z := 6.
Definition DT_RELA : Z := 7.
Definition DT_RELASZ : Z := 8.
Definition DT_INIT : Z := 12.
Definition DT_FINI : Z := 13.
Definition DT_REL : Z := 17.
Definition DT_RELSZ : Z := 18.
Definition DT_PLTREL : Z := 20.
Definition DT_JMPREL : Z := 23.
Definition DT_INIT_ARRAY : Z := 25.
Definition DT_FINI_ARRAY : Z := 26.
Definition DT_INIT_ARRAYSZ : Z := 27.
Definition DT_FINI_ARRAYSZ : Z := 28.
Definition DT_PREINIT_ARRAY : Z := 32.
Definition DT_PREINIT_ARRAYSZ : Z := 33.
Definition DT_RELRSZ : Z := 0x23.
Definition DT_RELR : Z := 0x24.
Definition DT_ANDROID_RELA : Z := 0x60000011.
Definition DT_ANDROID_RELASZ : Z := 0x60000012.
Definition DT_GNU_HASH : Z := 0x6ffffef5.

Definition SHN_UNDEF : Z := 0.

(** The relocation numbers the loader knows, by machine. *)
Record RelocKinds := mkRelocKinds { relative : Z; glob_dat : Z; jump_slot : Z; abs : Z }.
Definition reloc_kinds (e_machine : Z) : RelocKinds :=
  if e_machine =? EM_AARCH64 then mkRelocKinds 1027 1025 1026 257
  else if e_machine =? EM_X86_64 then mkRelocKinds 8 6 7 1
  else if e_machine =? EM_386 then mkRelocKinds 8 6 7 1
  else mkRelocKinds 23 21 22 2.

(** [R64_SYM], [R64_TYPE], [R32_SYM], [R32_TYPE] *)
Definition r_sym (is64 : bool) (info : Z) : Z :=
  if is64 then u32 (Z.shiftr (u64 info) 32) else Z.shiftr (u32 info) 8.
Definition r_type (is64 : bool) (info : Z) : Z :=
  if is64 then Z.land (u64 info) 0xffffffff else Z.land (u32 info) 0xff.

(** [pf_to_uc]: the emulator's protection bits are 1, 2 and 4. *)
Definition pf_to_uc (pf : Z) : Z :=
  let bit f v p := if Z.land pf f =? 0 then p else Z.lor p v in
  bit PF_X 4 (bit PF_W 2 (bit PF_R 1 0)).

(** ** Structures *)

(** [n] bytes at [o] of a structure's bytes. *)
Definition fld (raw : list Z) (o n : nat) : Z := le_val (take n (drop o raw)).

Record Ehdr := mkEhdr {
  e_machine : Z; e_phoff : Z; e_shoff : Z; e_phentsize : Z; e_phnum : Z; e_shnum : Z;
  e_shstrndx : Z;
}.
Definition ehdr_size (is64 : bool) : nat := if is64 then 64 else 52.
Definition ehdr_of (is64 : bool) (raw : list Z) : Ehdr :=
  if is64
  then mkEhdr (fld raw 18 2) (fld raw 32 8) (fld raw 40 8) (fld raw 54 2) (fld raw 56 2)
              (fld raw 60 2) (fld raw 62 2)
  else mkEhdr (fld raw 18 2) (fld raw 28 4) (fld raw 32 4) (fld raw 42 2) (fld raw 44 2)
              (fld raw 48 2) (fld raw 50 2).

Record Phdr := mkPhdr {
  p_type : Z; p_flags : Z; p_offset : Z; p_vaddr : Z; p_filesz : Z; p_memsz : Z;
}.
Definition phdr_size (is64 : bool) : nat := if is64 then 56 else 32.
Definition phdr_of (is64 : bool) (raw : list Z) : Phdr :=
  if is64
  then mkPhdr (fld raw 0 4) (fld raw 4 4) (fld raw 8 8) (fld raw 16 8) (fld raw 32 8) (fld raw 40 8)
  else mkPhdr (fld raw 0 4) (fld raw 24 4) (fld raw 4 4) (fld raw 8 4) (fld raw 16 4) (fld raw 20 4).

Record Shdr := mkShdr { sh_name : Z; sh_addr : Z; sh_offset : Z; sh_size : Z }.
Definition shdr_size (is64 : bool) : nat := if is64 then 64 else 40.
Definition shdr_of (is64 : bool) (raw : list Z) : Shdr :=
  if is64 then mkShdr (fld raw 0 4) (fld raw 16 8) (fld raw 24 8) (fld raw 32 8)
  else mkShdr (fld raw 0 4) (fld raw 12 4) (fld raw 16 4) (fld raw 20 4).

Record Dyn := mkDyn { d_tag : Z; d_val : Z }.
Definition dyn_size (is64 : bool) : nat := if is64 then 16 else 8.
Definition dyn_of (is64 : bool) (raw : list Z) : Dyn :=
  if is64 then mkDyn (s64 (fld raw 0 8)) (fld raw 8 8) else mkDyn (s32 (fld raw 0 4)) (fld raw 4 4).

Record Sym := mkSym { st_name : Z; st_shndx : Z; st_value : Z }.
Definition sym_size (is64 : bool) : nat := if is64 then 24 else 16.
Definition sym_of (is64 : bool) (raw : list Z) : Sym :=
  if is64 then mkSym (fld raw 0 4) (fld raw 6 2) (fld raw 8 8)
  else mkSym (fld raw 0 4) (fld raw 14 2) (fld raw 4 4).

Record Rela := mkRela { r_offset : Z; r_info : Z; r_addend : Z }.
Definition rela_size (is64 : bool) : nat := if is64 then 24 else 12.
Definition rela_of (is64 : bool) (raw : list Z) : Rela :=
  if is64 then mkRela (fld raw 0 8) (fld raw 8 8) (s64 (fld raw 16 8))
  else mkRela (fld raw 0 4) (fld raw 4 4) (s32 (fld raw 8 4)).

(** A REL entry has no addend. *)
Definition rel_size (is64 : bool) : nat := if is64 then 16 else 8.
Definition rel_of (is64 : bool) (raw : list Z) : Rela :=
  if is64 then mkRela (fld raw 0 8) (fld raw 8 8) 0 else mkRela (fld raw 0 4) (fld raw 4 4) 0.

(** The width of [Addr], and truncation to it. *)
Definition addr_size (is64 : bool) : nat := if is64 then 8 else 4.
Definition to_addr (is64 : bool) (x : Z) : Z := if is64 then u64 x else u32 x.

(** ** A loaded object *)

Record Section_ := mkSection { sec_addr : Z; sec_size : Z }.

Record SoInfo := mkSoInfo {
  so_name : string;
  so_is64 : bool;
  load_bias : Z;
  base : Z;
  so_size : Z;
  jni_onload : Z;
  init : Z;
  fini : Z;
  preinit_array : list Z;
  init_array : list Z;
  fini_array : list Z;
  needed : list (list Z);
  exports : gmap (list Z) Z;
  sections : gmap (list Z) Section_;
}.

Definition lookup_sym (ex : gmap (list Z) Z) (sym : list Z) : Z := default 0 (ex !! sym).
Definition section (so : SoInfo) (n : list Z) : Section_ :=
  default (mkSection 0 0) (sections so !! n).

(** ** Reading the file *)

(** [read_at<T>(data, off)] with [sizeof(T) = n]: the bound is computed in 64
    bits. *)
Definition read_at (n : nat) (data : list Z) (off : Z) : outcome (list Z) :=
  if zlen data <? u64 (off + Z.of_nat n) then Throw "ELF: read past end of file"
  else or_ub (slice data off n).

(** What pass 1 gathers from the program headers. *)
Record Segments := mkSegments { loads : list Phdr; min_vaddr : Z; max_vaddr : Z; dyn_vaddr : Z }.
Definition no_segments : Segments := mkSegments [] (2 ^ 64 - 1) 0 0.

Definition add_phdr (is64 : bool) (sg : Segments) (ph : Phdr) : Segments :=
  if p_type ph =? PT_LOAD then
    mkSegments (loads sg ++ [ph]) (Z.min (min_vaddr sg) (page_align_down (p_vaddr ph)))
      (Z.max (max_vaddr sg) (page_align_up (to_addr is64 (p_vaddr ph + p_memsz ph))))
      (dyn_vaddr sg)
  else if p_type ph =? PT_DYNAMIC then
    mkSegments (loads sg) (min_vaddr sg) (max_vaddr sg) (p_vaddr ph)
  else sg.

(** The loop over [e_phnum] headers, from index [i]. *)
Fixpoint scan_phdrs (is64 : bool) (data : list Z) (eh : Ehdr) (n : nat) (i : Z) (sg : Segments) :
    outcome Segments :=
  match n with
  | O => Ret sg
  | S k =>
      raw ← read_at (phdr_size is64) data (u64 (e_phoff eh + i * e_phentsize eh));
      scan_phdrs is64 data eh k (i + 1) (add_phdr is64 sg (phdr_of is64 raw))
  end.

(** The characters of a NUL-terminated string, when a NUL ends it. *)
Fixpoint c_str (l : list Z) : option (list Z) :=
  match l with
  | [] => None
  | b :: r => if b =? 0 then Some [] else cons b <$> c_str r
  end.

(** One section header: its name lies in the file up to a NUL, which nothing
    checks is there. *)
Definition add_section (is64 : bool) (data : list Z) (bias stroff : Z) (sh : Shdr)
    (m : gmap (list Z) Section_) : outcome (gmap (list Z) Section_) :=
  let nameoff := to_addr is64 (stroff + sh_name sh) in
  if zlen data <=? nameoff then Ret m else
  nm ← or_ub (c_str (drop (Z.to_nat nameoff) data));
  Ret (if bool_decide (nm = []) then m
       else <[nm := mkSection (if sh_addr sh =? 0 then 0 else u64 (bias + sh_addr sh)) (sh_size sh)]> m).

Fixpoint scan_shdrs (is64 : bool) (data : list Z) (eh : Ehdr) (bias stroff : Z) (n : nat) (i : Z)
    (m : gmap (list Z) Section_) : outcome (gmap (list Z) Section_) :=
  match n with
  | O => Ret m
  | S k =>
      raw ← read_at (shdr_size is64) data (u64 (e_shoff eh + i * Z.of_nat (shdr_size is64)));
      m' ← add_section is64 data bias stroff (shdr_of is64 raw) m;
      scan_shdrs is64 data eh bias stroff k (i + 1) m'
  end.

(** The optional section table. *)
Definition read_sections (is64 : bool) (data : list Z) (eh : Ehdr) (bias : Z) :
    outcome (gmap (list Z) Section_) :=
  let sz := Z.of_nat (shdr_size is64) in
  if negb (e_shoff eh =? 0) && negb (e_shnum eh =? 0) && (e_shstrndx eh <? e_shnum eh)
     && (u64 (e_shoff eh + e_shnum eh * sz) <=? zlen data) then
    raw ← read_at (shdr_size is64) data (u64 (e_shoff eh + e_shstrndx eh * sz));
    scan_shdrs is64 data eh bias (sh_offset (shdr_of is64 raw)) (Z.to_nat (e_shnum eh)) 0 ∅
  else Ret ∅.
