(* ===== verification/Aps2.v ===== *)
(** The packed relocation format ("APS2") of [core/elf/elf_loader.cpp]:
    signed LEB128 numbers, and the walk over the groups of a stream.

    The code applies each entry as soon as it is decoded; the walk here takes
    what is done with an entry as a parameter, so that [aps2_decode], the flat
    list of entries a stream stands for, is the same walk.  The encoders
    [sleb_enc] and [aps2_encode] say what the format means. *)

From S2P Require Import Prelude.
From S2P Require Import Words.
From S2P Require Import Loops.
From S2P Require Import Elf.
#[local] Open Scope Z_scope.

(** ** Signed numbers of the packed format *)

(** [sleb]: the position [p] is kept as the rest of the buffer.  Reading past
    the buffer, shifting by 64 or more and negating the least [int64_t] are
    undefined. *)
Fixpoint sleb_from (l : list Z) (shift result : Z) : outcome (Z * list Z) :=
  match l with
  | [] => UB
  | b :: r =>
      if 64 <=? shift then UB else
      let result := Z.lor result (s64 (Z.shiftl (Z.land b 0x7f) shift)) in
      let shift := shift + 7 in
      if negb (Z.land b 0x80 =? 0) then sleb_from r shift result
      else if (shift <? 64) && negb (Z.land b 0x40 =? 0) then
        if shift =? 63 then UB else Ret (Z.lor result (- Z.shiftl 1 shift), r)
      else Ret (result, r)
  end.
Definition sleb (l : list Z) : outcome (Z * list Z) := sleb_from l 0 0.

(** [a += b] on [int64_t]. *)
Definition add_s64 (a b : Z) : outcome Z := if in_s64 (a + b) then Ret (a + b) else UB.

(** ** The packed format *)

Definition GROUPED_BY_INFO : Z := 1.
Definition GROUPED_BY_DELTA : Z := 2.
Definition GROUPED_BY_ADDEND : Z := 4.
Definition GROUP_HAS_ADDEND : Z := 8.

(** [flags & f] *)
Definition has_flag (flags f : Z) : bool := negb (Z.land flags f =? 0).

Section Walk.
Context {S : Type}.
(** What is done with an entry. *)
Variable emit : Rela -> M S unit.

(** What the loop over a group knows: the rest of the buffer, the running
    offset and the running addend. *)
Record Cursor := mkCursor { c_rest : list Z; c_off : Z; c_addend : Z }.

Definition when (b : bool) (m : M S (Z * list Z)) (v : Z) (l : list Z) : M S (Z * list Z) :=
  if b then m else mret (v, l).

(** One entry of a group. *)
Definition aps2_entry (flags delta info : Z) (c : Cursor) : M S Cursor :=
  let has_addend := has_flag flags GROUP_HAS_ADDEND in
  d ← when (negb (has_flag flags GROUPED_BY_DELTA)) (lift (sleb (c_rest c))) delta (c_rest c);
  off ← lift (add_s64 (c_off c) (fst d));
  i ← when (negb (has_flag flags GROUPED_BY_INFO)) (lift (sleb (snd d))) info (snd d);
  a ← when (has_addend && negb (has_flag flags GROUPED_BY_ADDEND)) (lift (sleb (snd i))) 0 (snd i);
  addend ← lift (add_s64 (c_addend c) (fst a));
  _ ← emit (mkRela off (fst i) (if has_addend then addend else 0));
  mret (mkCursor (snd a) off addend).

(** [for (i = 0; i < group_size; ++i)] *)
Definition aps2_entries (size flags delta info : Z) (c : Cursor) : M S Cursor :=
  while_ (fun '(i, c) =>
    if i <? size then c' ← aps2_entry flags delta info c; mret (inl (i + 1, c'))
    else mret (inr c)) (0, c).

(** One group: its header, its entries. *)
Definition aps2_group (done : Z) (c : Cursor) : M S (Z * Cursor) :=
  size ← lift (sleb (c_rest c));
  flags ← lift (sleb (snd size));
  let f := fst flags in
  let has_addend := has_flag f GROUP_HAS_ADDEND in
  delta ← when (has_flag f GROUPED_BY_DELTA) (lift (sleb (snd flags))) 0 (snd flags);
  info ← when (has_flag f GROUPED_BY_INFO) (lift (sleb (snd delta))) 0 (snd delta);
  a ← when (has_flag f GROUPED_BY_ADDEND && has_addend) (lift (sleb (snd info))) 0 (snd info);
  addend ← lift (add_s64 (c_addend c) (fst a));
  c' ← aps2_entries (fst size) f (fst delta) (fst info) (mkCursor (snd a) (c_off c) addend);
  done' ← lift (add_s64 done (fst size));
  mret (done', mkCursor (c_rest c') (c_off c') (if has_addend then c_addend c' else 0)).

(** [while (done < reloc_count && p < bytes)] *)
Definition aps2_groups (count : Z) (c : Cursor) : M S unit :=
  while_ (fun '(done, c) =>
    if (done <? count) && negb (bool_decide (c_rest c = []))
    then r ← aps2_group done c; mret (inl r) else mret (inr tt)) (0, c).

Definition aps2_walk (buf : list Z) : M S unit :=
  match buf with
  | a :: p :: s :: two :: rest =>
      if (a =? 0x41) && (p =? 0x50) && (s =? 0x53) && (two =? 0x32) then
        count ← lift (sleb rest);
        offset ← lift (sleb (snd count));
        aps2_groups (fst count) (mkCursor (snd offset) (fst offset) 0)
      else skip
  | _ => skip
  end.
End Walk.

(** The flat list of entries a stream stands for. *)
Definition aps2_decode (buf : list Z) : outcome (list Rela) :=
  match aps2_walk (fun r => modify (fun l => l ++ [r])) buf [] with
  | (Ret _, l) => Ret l
  | (Throw e, _) => Throw e
  | (UB, _) => UB
  end.

(** ** What a signed number reads back as *)

(** The shortest signed LEB128 encoding. *)
Fixpoint sleb_enc_n (n : nat) (v : Z) : list Z :=
  match n with
  | O => []
  | S k =>
      if (-64 <=? v) && (v <? 64) then [v mod 128]
      else (v mod 128 + 128) :: sleb_enc_n k (v / 128)
  end.
Definition sleb_enc (v : Z) : list Z := sleb_enc_n 10 v.

(** The numbers [sleb] reads back: of those that take nine bytes, the negative
    ones make it negate [1 << 63]. *)
Definition sleb_ok (v : Z) : bool := in_s64 v && negb ((- 2 ^ 62 <=? v) && (v <? - 2 ^ 55)).

(** The low seven bits of a byte, and its two flags. *)
Lemma sleb_byte b :
  0 <= b < 256 -> Z.land b 0x7f = b mod 128 /\
  (Z.land b 0x80 =? 0) = (b <? 128) /\ (Z.land b 0x40 =? 0) = (b mod 128 <? 64).
Proof.
  intros Hb. assert (forallb (fun b => (Z.land b 0x7f =? b mod 128)
    && Bool.eqb (Z.land b 0x80 =? 0) (b <? 128)
    && Bool.eqb (Z.land b 0x40 =? 0) (b mod 128 <? 64)) (seqZ 0 256) = true) as Hall
    by reflexivity.
  rewrite forallb_forall in Hall. specialize (Hall b).
  rewrite !andb_true_iff, Z.eqb_eq, !Bool.eqb_true_iff in Hall.
  destruct Hall as [[? ?] ?]; [|done]. apply list_elem_of_In, elem_of_seqZ. lia.
Qed.

(** Bits [k ..] of an [int64_t] placed above the [k] bits read so far. *)
Lemma sleb_place x r k :
  0 <= k -> 0 <= r < 2 ^ k -> Z.lor r (Z.shiftl x k) = x * 2 ^ k + r.
Proof. intros. rewrite Z.lor_comm. by apply lor_add_shift. Qed.

Lemma shiftl_s64 x k : 0 <= k <= 56 -> 0 <= x < 128 -> s64 (Z.shiftl x k) = Z.shiftl x k.
Proof.
  intros Hk Hx. apply sext_id; [lia|]. rewrite Z.shiftl_mul_pow2 by lia.
  assert (2 ^ k <= 2 ^ 56) by (apply Z.pow_le_mono_r; lia).
  assert (0 < 2 ^ k) by (apply Z.pow_pos_nonneg; lia). nia.
Qed.

(** One byte that is not the last. *)
Lemma sleb_more v k res l :
  0 <= k <= 56 -> 0 <= res < 2 ^ k ->
  sleb_from ((v mod 128 + 128) :: l) k res = sleb_from l (k + 7) (v mod 128 * 2 ^ k + res).
Proof.
  intros Hk Hr. cbn [sleb_from]. rewrite (proj2 (Z.leb_gt 64 k)) by lia.
  pose proof (Z.mod_pos_bound v 128 ltac:(lia)).
  destruct (sleb_byte (v mod 128 + 128)) as (-> & -> & _); [lia|].
  rewrite (proj2 (Z.ltb_ge _ 128)) by lia. cbn [negb].
  assert ((v mod 128 + 128) mod 128 = v mod 128) as ->.
  { replace (v mod 128 + 128) with (v mod 128 + 1 * 128) by lia. by rewrite Z.mod_add, Z.mod_mod. }
  rewrite shiftl_s64, sleb_place by lia. done.
Qed.

(** The last byte, before the 64th bit. *)
Lemma sleb_last v k res l :
  0 <= k <= 56 -> 0 <= res < 2 ^ k -> -64 <= v < 64 ->
  sleb_from (v mod 128 :: l) k res
  = if (v <? 0) && (k =? 56) then UB else Ret (v * 2 ^ k + res, l).
Proof.
  intros Hk Hr Hv. cbn [sleb_from]. rewrite (proj2 (Z.leb_gt 64 k)) by lia.
  pose proof (Z.mod_pos_bound v 128 ltac:(lia)).
  destruct (sleb_byte (v mod 128)) as (-> & -> & ->); [lia|].
  rewrite (proj2 (Z.ltb_lt _ 128)), Z.mod_mod by lia. cbn [negb].
  rewrite (proj2 (Z.ltb_lt (k + 7) 64)) by lia. cbn [andb].
  rewrite shiftl_s64, sleb_place by lia.
  destruct (Z.ltb_spec v 0) as [Hn|Hn]; cbn [andb].
  - assert (v mod 128 = v + 128) as -> by (symmetry; apply (Z.mod_unique_pos _ _ (-1)); lia).
    rewrite (proj2 (Z.ltb_ge _ 64)) by lia. cbn [negb].
    destruct (Z.eqb_spec (k + 7) 63), (Z.eqb_spec k 56); try lia; [done|].
    do 2 f_equal. rewrite Z.shiftl_1_l.
    assert (2 ^ (k + 7) = 128 * 2 ^ k) as E by (rewrite Z.pow_add_r by lia; lia).
    replace (- 2 ^ (k + 7)) with (Z.shiftl (-1) (k + 7)) by (rewrite Z.shiftl_mul_pow2; lia).
    rewrite sleb_place by nia. rewrite E. lia.
  - rewrite (Z.mod_small v) by lia. rewrite (proj2 (Z.ltb_lt v 64)) by lia. done.
Qed.

(** The last byte of a ten-byte number holds the sign alone. *)
Lemma sleb_tenth v res l :
  0 <= res < 2 ^ 63 -> v = 0 \/ v = -1 ->
  sleb_from (v mod 128 :: l) 63 res = Ret (v * 2 ^ 63 + res, l).
Proof.
  intros Hr Hv. assert (s64 (Z.shiftl (v mod 128) 63) = Z.shiftl v 63) as E
    by (destruct Hv as [-> | ->]; reflexivity).
  rewrite <- (sleb_place v) by lia. rewrite <- E.
  cbn [sleb_from]. change (64 <=? 63) with false. cbv iota.
  by destruct Hv as [-> | ->].
Qed.

Lemma sleb_enc_last j v res l :
  0 <= j <= 9 -> 0 <= res < 2 ^ (7 * j) -> -64 <= v < 64 ->
  - 2 ^ 63 <= v * 2 ^ (7 * j) + res < 2 ^ 63 ->
  j = 0 \/ ~ (- 2 ^ (7 * j - 1) <= v * 2 ^ (7 * j) + res < 2 ^ (7 * j - 1)) ->
  sleb_from (v mod 128 :: l) (7 * j) res
  = if (- 2 ^ 62 <=? v * 2 ^ (7 * j) + res) && (v * 2 ^ (7 * j) + res <? - 2 ^ 55)
    then UB else Ret (v * 2 ^ (7 * j) + res, l).
Proof.
  intros Hj Hr Hv Hs Hmin. destruct (decide (j = 9)) as [->|Hj9].
  - assert (v = 0 \/ v = -1) as Hv' by lia.
    change (7 * 9) with 63 in *. rewrite sleb_tenth by done.
    repeat case_Z; try done; lia.
  - rewrite sleb_last by lia. destruct (decide (j = 8)) as [->|Hj8].
    + change (7 * 8) with 56 in *. repeat case_Z; try done; lia.
    + assert (2 ^ (7 * j) <= 2 ^ 49) by (apply Z.pow_le_mono_r; lia).
      assert (0 < 2 ^ (7 * j)) by (apply Z.pow_pos_nonneg; lia).
      rewrite (proj2 (Z.eqb_neq _ 56)), andb_false_r by lia.
      rewrite (proj2 (Z.ltb_ge _ (- 2 ^ 55))), andb_false_r by nia. done.
Qed.

Lemma sleb_enc_from n j v res l :
  Z.of_nat n + j = 10 -> 0 <= j <= 9 -> 0 <= res < 2 ^ (7 * j) ->
  - 2 ^ 63 <= v * 2 ^ (7 * j) + res < 2 ^ 63 ->
  j = 0 \/ ~ (- 2 ^ (7 * j - 1) <= v * 2 ^ (7 * j) + res < 2 ^ (7 * j - 1)) ->
  sleb_from (sleb_enc_n n v ++ l) (7 * j) res
  = if (- 2 ^ 62 <=? v * 2 ^ (7 * j) + res) && (v * 2 ^ (7 * j) + res <? - 2 ^ 55)
    then UB else Ret (v * 2 ^ (7 * j) + res, l).
Proof.
  revert j v res. induction n as [|n IH]; intros j v res Hn Hj Hr Hs Hmin; [lia|].
  cbn [sleb_enc_n]. destruct ((-64 <=? v) && (v <? 64)) eqn:Eb.
  { bool_to_Prop. cbn [app]. by apply sleb_enc_last. }
  apply andb_false_iff in Eb. rewrite Z.leb_gt, Z.ltb_ge in Eb.
  assert (0 < 2 ^ (7 * j)) by (apply Z.pow_pos_nonneg; lia).
  assert (j <> 9) by (intros ->; change (7 * 9) with 63 in *; lia).
  cbn [app]. rewrite sleb_more by lia.
  assert (2 ^ (7 * (j + 1)) = 128 * 2 ^ (7 * j)) as E.
  { replace (7 * (j + 1)) with (7 * j + 7) by lia. rewrite Z.pow_add_r by lia. lia. }
  assert (2 ^ (7 * (j + 1) - 1) = 64 * 2 ^ (7 * j)) as E'.
  { replace (7 * (j + 1) - 1) with (7 * j + 6) by lia. rewrite Z.pow_add_r by lia. lia. }
  pose proof (Z.div_mod v 128 ltac:(lia)) as Hdm.
  pose proof (Z.mod_pos_bound v 128 ltac:(lia)) as Hm.
  assert (v / 128 * 2 ^ (7 * (j + 1)) + (v mod 128 * 2 ^ (7 * j) + res)
          = v * 2 ^ (7 * j) + res) as Ef by (rewrite E; nia).
  replace (7 * j + 7) with (7 * (j + 1)) by lia.
  rewrite IH, Ef; rewrite ?Ef, ?E, ?E'; [done|lia|lia|nia|lia|right; nia].
Qed.

Lemma sleb_enc_eq v l :
  - 2 ^ 63 <= v < 2 ^ 63 ->
  sleb (sleb_enc v ++ l) = if (- 2 ^ 62 <=? v) && (v <? - 2 ^ 55) then UB else Ret (v, l).
Proof.
  intros Hv. pose proof (sleb_enc_from 10 0 v 0 l) as E.
  change (2 ^ (7 * 0)) with 1 in E. change (7 * 0) with 0 in E.
  rewrite !Z.mul_1_r, !Z.add_0_r in E. apply E; lia.
Qed.

Lemma sleb_enc_ok v l : sleb_ok v = true -> sleb (sleb_enc v ++ l) = Ret (v, l).
Proof.
  unfold sleb_ok, in_s64. intros [[?%Z.leb_le ?%Z.ltb_lt]%andb_true_iff Hn%negb_true_iff]%andb_true_iff.
  rewrite sleb_enc_eq by lia. by rewrite Hn.
Qed.

(** [sleb] inverts the shortest encoding of every 64-bit number, whatever
    follows it, except for the negative numbers of nine bytes: those make the
    code negate [INT64_MIN]. *)
Lemma sleb_roundtrip v l :
  - 2 ^ 63 <= v < 2 ^ 63 ->
  sleb (sleb_enc v ++ l) = if (- 2 ^ 62 <=? v) && (v <? - 2 ^ 55) then UB else Ret (v, l).
Proof.
  apply sleb_enc_eq.
Qed.

(** ** Decoding, then applying

    The walk of the collector and the walk of any other action go in step. *)

Definition collect (r : Rela) : M (list Rela) unit := modify (fun l => l ++ [r]).

Section Simulation.
Context {S : Type} (emit : Rela -> M S unit).

(** [mc] decodes what [me] applies: when [mc] returns [a] having collected
    [l1], [me] is to apply [l1] and return [a]. *)
Definition sim {A} (mc : M (list Rela) A) (me : M S A) : Prop :=
  forall l a l', mc l = (Ret a, l') ->
    exists l1, l' = l ++ l1 /\ forall st, me st = M_bind (fun _ => M_ret a) (for_each emit l1) st.

Lemma sim_ret {A} (a : A) : sim (M_ret a) (M_ret a).
Proof. intros l b l' [= <- <-]. exists []. by rewrite app_nil_r. Qed.

Lemma sim_lift {A} (o : outcome A) : sim (lift o) (lift o).
Proof. intros l a l' [= -> <-]. exists []. by rewrite app_nil_r. Qed.

Lemma sim_bind {A B} mc me (fc : A -> M (list Rela) B) fe :
  sim mc me -> (forall a, sim (fc a) (fe a)) -> sim (M_bind fc mc) (M_bind fe me).
Proof.
  intros Hm Hf l b l' (a & l1 & E1 & E2)%bind_ret_inv.
  destruct (Hm _ _ _ E1) as (k1 & -> & H1). destruct (Hf _ _ _ _ E2) as (k2 & -> & H2).
  exists (k1 ++ k2). rewrite app_assoc. split; [done|]. intros st.
  unfold M_bind. rewrite H1, for_each_app. unfold M_bind.
  destruct (for_each emit k1 st) as [[[]|e|] st1]; try done.
  cbn [M_ret]. rewrite H2. done.
Qed.

Lemma sim_collect r : sim (collect r) (emit r).
Proof.
  intros l [] l' [= <-]. exists [r]. split; [done|]. intros st.
  unfold M_bind. rewrite for_each_cons. unfold M_bind.
  by destruct (emit r st) as [[[]|e|] st'].
Qed.

Lemma sim_while {St R} (fc : St -> M (list Rela) (St + R)) fe :
  (forall s, sim (fc s) (fe s)) -> forall s, sim (while_ fc s) (while_ fe s).
Proof.
  intros Hf s. apply sim_bind; [|intros [s'|x]; [apply sim_lift|apply sim_ret]].
  assert (forall n, (forall s, sim (pos_loop n fc s) (pos_loop n fe s)) ->
    forall r, sim (loop_then (pos_loop n fc) r) (loop_then (pos_loop n fe) r)) as Ht.
  { intros n Hn [s'|x]; cbn [loop_then]; [apply Hn|apply sim_ret]. }
  revert s. induction max_turns as [p IH|p IH|]; intros s; cbn [pos_loop]; auto.
  - apply sim_bind; [apply Hf|]. intros [s'|x]; cbn [loop_then]; [|apply sim_ret].
    apply sim_bind; [apply IH|auto].
  - apply sim_bind; [apply IH|auto].
Qed.

Lemma sim_when b o v l :
  sim (when b (lift o) v l) (when b (lift o) v l).
Proof. destruct b; [apply sim_lift|apply sim_ret]. Qed.

Ltac sim_step :=
  match goal with
  | |- sim (mbind _ _) _ => apply sim_bind; [|intros ?]
  | |- sim (M_bind _ _) _ => apply sim_bind; [|intros ?]
  | |- sim (mret _) _ => apply sim_ret
  | |- sim (lift _) _ => apply sim_lift
  | |- sim (when _ _ _ _) _ => apply sim_when
  | |- sim (collect _) _ => apply sim_collect
  | |- sim (while_ _ _) _ => apply sim_while; intros [? ?]
  | |- sim (if ?b then _ else _) _ => destruct b
  end.

Lemma sim_walk buf : sim (aps2_walk collect buf) (aps2_walk emit buf).
Proof.
  unfold aps2_walk.
  repeat (case_match; try apply sim_ret).
  unfold aps2_groups, aps2_group, aps2_entries, aps2_entry. repeat sim_step.
Qed.
End Simulation.

(** The interleaved walk is decoding followed by applying: when a stream
    decodes to the entries [l], walking it with any action does that action on
    each of [l] in order, and stops where it fails. *)
Lemma aps2_walk_decode {S} (emit : Rela -> M S unit) buf l st :
  aps2_decode buf = Ret l -> aps2_walk emit buf st = for_each emit l st.
Proof.
  unfold aps2_decode. fold collect. intros Hd.
  destruct (aps2_walk collect buf []) as [[[]|e|] l'] eqn:E; try done. injection Hd as ->.
  destruct (sim_walk emit _ _ _ _ E) as (l1 & -> & H). rewrite H. unfold M_bind. cbn [app].
  by destruct (for_each emit l1 st) as [[[]|e|] st'].
Qed.

(** ** What the format means

    A stream is a starting offset and groups of relocations.  A group may
    give its entries one offset step, one [r_info], and one addend or none;
    what it does not share is written per entry, as a difference. *)

Inductive Addends := NoAddend | Shared (a : Z) | Each.

Record Group := mkGroup {
  by_delta : option Z; by_info : option Z; addends : Addends; entries : list Rela;
}.

Definition has {A} (o : option A) : bool := match o with Some _ => true | None => false end.
Definition none_addend (g : Group) : bool := match addends g with NoAddend => true | _ => false end.
Definition shared_addend (g : Group) : bool := match addends g with Shared _ => true | _ => false end.
Definition each_addend (g : Group) : bool := match addends g with Each => true | _ => false end.

Definition group_flags (g : Group) : Z :=
  (if has (by_info g) then GROUPED_BY_INFO else 0)
  + (if has (by_delta g) then GROUPED_BY_DELTA else 0)
  + (if shared_addend g then GROUPED_BY_ADDEND else 0)
  + (if none_addend g then 0 else GROUP_HAS_ADDEND).

(** A number that is there or not. *)
Definition num (b : bool) (x : Z) : list Z := if b then sleb_enc x else [].

(** One entry after the offset [po] and the addend [pa]. *)
Definition entry_enc (g : Group) (po pa : Z) (r : Rela) : list Z :=
  num (negb (has (by_delta g))) (r_offset r - po) ++ num (negb (has (by_info g))) (r_info r)
  ++ num (each_addend g) (r_addend r - pa).
Definition entry_addend (g : Group) (pa : Z) (r : Rela) : Z :=
  if each_addend g then r_addend r else pa.

Fixpoint entries_enc (g : Group) (po pa : Z) (l : list Rela) : list Z :=
  match l with
  | [] => []
  | r :: l => entry_enc g po pa r ++ entries_enc g (r_offset r) (entry_addend g pa r) l
  end.

(** The addend a group's entries start from, and the state it leaves. *)
Definition group_addend (g : Group) (pa : Z) : Z :=
  match addends g with Shared a => a | _ => pa end.
Definition last_offset (po : Z) (l : list Rela) : Z := List.fold_left (fun _ r => r_offset r) l po.
Definition last_addend (g : Group) (pa : Z) (l : list Rela) : Z :=
  List.fold_left (entry_addend g) l pa.
Definition left_addend (g : Group) (pa : Z) : Z :=
  if none_addend g then 0 else last_addend g (group_addend g pa) (entries g).

Definition group_enc (g : Group) (po pa : Z) : list Z :=
  sleb_enc (zlen (entries g)) ++ sleb_enc (group_flags g)
  ++ num (has (by_delta g)) (default 0 (by_delta g)) ++ num (has (by_info g)) (default 0 (by_info g))
  ++ num (shared_addend g) (group_addend g pa - pa)
  ++ entries_enc g po (group_addend g pa) (entries g).

Fixpoint groups_enc (gs : list Group) (po pa : Z) : list Z :=
  match gs with
  | [] => []
  | g :: gs => group_enc g po pa ++ groups_enc gs (last_offset po (entries g)) (left_addend g pa)
  end.

Definition all_entries (gs : list Group) : list Rela := List.flat_map entries gs.

Definition aps2_encode (offset : Z) (gs : list Group) : list Z :=
  [0x41; 0x50; 0x53; 0x32] ++ sleb_enc (zlen (all_entries gs)) ++ sleb_enc offset
  ++ groups_enc gs offset 0.

(** The groups share what their entries have in common, and every number
    written is one [sleb] reads back. *)
Definition entry_ok (g : Group) (po pa : Z) (r : Rela) : bool :=
  in_s64 (r_offset r) && in_s64 (entry_addend g pa r)
  && match by_delta g with Some d => r_offset r =? po + d | None => sleb_ok (r_offset r - po) end
  && match by_info g with Some i => r_info r =? i | None => sleb_ok (r_info r) end
  && match addends g with
     | NoAddend => r_addend r =? 0
     | Shared a => (r_addend r =? a) && (pa =? a)
     | Each => sleb_ok (r_addend r - pa)
     end.
Fixpoint entries_ok (g : Group) (po pa : Z) (l : list Rela) : bool :=
  match l with
  | [] => true
  | r :: l => entry_ok g po pa r && entries_ok g (r_offset r) (entry_addend g pa r) l
  end.
Definition group_ok (g : Group) (po pa : Z) : bool :=
  sleb_ok (zlen (entries g)) && (0 <? zlen (entries g))
  && sleb_ok (default 0 (by_delta g)) && sleb_ok (default 0 (by_info g))
  && sleb_ok (group_addend g pa - pa) && in_s64 (group_addend g pa)
  && entries_ok g po (group_addend g pa) (entries g).
Fixpoint groups_ok (gs : list Group) (po pa : Z) : bool :=
  match gs with
  | [] => true
  | g :: gs => group_ok g po pa && groups_ok gs (last_offset po (entries g)) (left_addend g pa)
  end.

Lemma flags_spec g :
  has_flag (group_flags g) GROUPED_BY_DELTA = has (by_delta g) /\
  has_flag (group_flags g) GROUPED_BY_INFO = has (by_info g) /\
  has_flag (group_flags g) GROUPED_BY_ADDEND = shared_addend g /\
  has_flag (group_flags g) GROUP_HAS_ADDEND = negb (none_addend g) /\
  sleb_ok (group_flags g) = true.
Proof.
  unfold group_flags, shared_addend, none_addend.
  by destruct (by_info g), (by_delta g), (addends g).
Qed.

Lemma each_flags g : negb (none_addend g) && negb (shared_addend g) = each_addend g.
Proof. unfold each_addend, shared_addend, none_addend. by destruct (addends g). Qed.

Lemma bind_num {A} (b : bool) x v l (s : list Rela) (f : Z * list Z -> M (list Rela) A) :
  (b = true -> sleb_ok x = true) ->
  (when b (lift (sleb (num b x ++ l))) v (num b x ++ l) ≫= f) s = f (if b then x else v, l) s.
Proof.
  intros Hx. unfold when, num, mbind, M_mbind, M_bind, lift.
  destruct b; [|done]. by rewrite sleb_enc_ok by auto.
Qed.

Lemma bind_sleb {A} x l (s : list Rela) (f : Z * list Z -> M (list Rela) A) :
  sleb_ok x = true -> (lift (sleb (sleb_enc x ++ l)) ≫= f) s = f (x, l) s.
Proof. intros Hx. by rewrite sleb_enc_ok, bind_lift_ret. Qed.

Lemma bind_add {A} a b (s : list Rela) (f : Z -> M (list Rela) A) c :
  a + b = c -> in_s64 c = true -> (lift (add_s64 a b) ≫= f) s = f c s.
Proof. unfold add_s64. by intros -> ->. Qed.

Lemma sleb_enc_cons v : exists b r, sleb_enc v = b :: r.
Proof. unfold sleb_enc. cbn [sleb_enc_n]. destruct (_ && _); eauto. Qed.

(** One entry reads back. *)
Lemma entry_decode g po pa r rest l :
  entry_ok g po pa r = true ->
  aps2_entry collect (group_flags g) (default 0 (by_delta g)) (default 0 (by_info g))
    (mkCursor (entry_enc g po pa r ++ rest) po pa) l
  = (Ret (mkCursor rest (r_offset r) (entry_addend g pa r)), l ++ [r]).
Proof.
  unfold entry_ok. intros [[[[Ho Ha]%andb_true_iff Hd]%andb_true_iff
    Hi]%andb_true_iff Hm]%andb_true_iff.
  destruct (flags_spec g) as (Fd & Fi & Fa & Fh & _).
  unfold aps2_entry, entry_enc. cbn [c_rest c_off c_addend].
  rewrite Fd, Fi, Fa, Fh, each_flags, <- !app_assoc.
  rewrite bind_num by (by destruct (by_delta g)). cbn [fst snd].
  rewrite (bind_add _ _ _ _ (r_offset r)); [|by destruct (by_delta g); cbn; bool_to_Prop; lia|done].
  rewrite bind_num by (by destruct (by_info g)). cbn [fst snd].
  rewrite bind_num by (unfold each_addend; by destruct (addends g)). cbn [fst snd].
  rewrite (bind_add _ _ _ _ (entry_addend g pa r));
    [|unfold entry_addend; destruct (each_addend g); lia|done].
  unfold collect. rewrite bind_modify. unfold mret, M_mret, M_ret. do 4 f_equal.
  destruct r as [ro ri ra]; cbn [r_offset r_info r_addend] in *. f_equal.
  - destruct (by_info g); cbn; bool_to_Prop; congruence.
  - unfold none_addend, entry_addend, each_addend.
    destruct (addends g); cbn; bool_to_Prop; congruence.
Qed.

(** The entries of a group read back. *)
Lemma entries_decode g po pa es rest l :
  entries_ok g po pa es = true -> zlen es < 2 ^ 63 ->
  aps2_entries collect (zlen es) (group_flags g) (default 0 (by_delta g)) (default 0 (by_info g))
    (mkCursor (entries_enc g po pa es ++ rest) po pa) l
  = (Ret (mkCursor rest (last_offset po es) (last_addend g pa es)), l ++ es).
Proof.
  intros Hok Hlen. unfold aps2_entries. set (N := zlen es) in *. set (step := fun '(i, c) => _).
  assert (forall i c, step (i, c) =
    if i <? N then c' ← aps2_entry collect (group_flags g) (default 0 (by_delta g))
                          (default 0 (by_info g)) c; mret (inl (i + 1, c'))
    else mret (inr c)) as Hstep by done. clearbody step.
  assert (forall es i po pa l, entries_ok g po pa es = true -> i + zlen es = N ->
    ended (nat_loop (S (length es)) step (i, mkCursor (entries_enc g po pa es ++ rest) po pa) l)
    = Some (Ret (mkCursor rest (last_offset po es) (last_addend g pa es)), l ++ es)) as H.
  { clearbody N. clear es po pa l Hok Hlen. intros es. induction es as [|r es IH]; intros i po pa l Hok Hi.
    - cbn [length nat_loop]. unfold zlen in Hi. cbn [length Z.of_nat] in Hi.
      rewrite Hstep, (proj2 (Z.ltb_ge i _)) by lia. by rewrite app_nil_r.
    - cbn [entries_ok] in Hok. apply andb_true_iff in Hok as [Hr Hes].
      assert (zlen (r :: es) = 1 + zlen es) as E by (unfold zlen; cbn [length]; lia).
      pose proof (zlen_nonneg es). cbn [length]. remember (S (length es)) as n eqn:En.
      cbn [nat_loop]. rewrite Hstep, (proj2 (Z.ltb_lt i _)) by lia. unfold M_bind at 1.
      cbn [entries_enc]. rewrite <- app_assoc.
      rewrite (bind_run _ _ _ _ _ (entry_decode _ _ _ _ _ _ Hr)). cbn [mret M_mret M_ret loop_then].
      rewrite IH by (done || lia). by rewrite <- app_assoc. }
  apply (while_stop (S (length es))); [unfold N, zlen in *; lia|].
  apply H; [done|lia].
Qed.

(** A group reads back. *)
Lemma group_decode g po pa rest n l :
  group_ok g po pa = true -> in_s64 (n + zlen (entries g)) = true ->
  aps2_group collect n (mkCursor (group_enc g po pa ++ rest) po pa) l
  = (Ret (n + zlen (entries g), mkCursor rest (last_offset po (entries g)) (left_addend g pa)),
     l ++ entries g).
Proof.
  unfold group_ok. intros [[[[[[Hn Hpos]%andb_true_iff Hd]%andb_true_iff Hi]%andb_true_iff
    Ha]%andb_true_iff Hs]%andb_true_iff Hes]%andb_true_iff Hsum.
  destruct (flags_spec g) as (Fd & Fi & Fa & Fh & Fok).
  unfold aps2_group, group_enc. cbn [c_rest c_off c_addend]. rewrite <- !app_assoc.
  rewrite bind_sleb by done. cbn [fst snd]. rewrite bind_sleb by done. cbn [fst snd].
  rewrite Fd, Fi, Fa, Fh. rewrite bind_num by done. cbn [fst snd].
  rewrite bind_num by done. cbn [fst snd].
  assert (shared_addend g && negb (none_addend g) = shared_addend g) as ->
    by (unfold shared_addend, none_addend; by destruct (addends g)).
  rewrite bind_num by done. cbn [fst snd].
  rewrite (bind_add _ _ _ _ (group_addend g pa));
    [|unfold shared_addend, group_addend; destruct (addends g); lia|done].
  replace (if has (by_delta g) then default 0 (by_delta g) else 0) with (default 0 (by_delta g))
    by (by destruct (by_delta g)).
  replace (if has (by_info g) then default 0 (by_info g) else 0) with (default 0 (by_info g))
    by (by destruct (by_info g)).
  rewrite (bind_run _ _ _ _ _ (entries_decode _ _ _ _ _ _ Hes ltac:(
    unfold sleb_ok, in_s64 in Hn; bool_to_Prop; lia))).
  rewrite (bind_add _ _ _ _ (n + zlen (entries g))) by done.
  cbn [c_rest c_off c_addend]. unfold left_addend. by destruct (none_addend g).
Qed.

(** The groups read back. *)
Lemma groups_decode gs po rest :
  groups_ok gs po 0 = true -> zlen (all_entries gs) < 2 ^ 63 ->
  aps2_groups collect (zlen (all_entries gs)) (mkCursor (groups_enc gs po 0 ++ rest) po 0) []
  = (Ret tt, all_entries gs).
Proof.
  intros Hok Hlen. unfold aps2_groups. set (N := zlen (all_entries gs)) in *.
  set (step := fun '(n, c) => _).
  assert (forall n c, step (n, c) =
    if (n <? N) && negb (bool_decide (c_rest c = []))
    then r ← aps2_group collect n c; mret (inl r) else mret (inr tt)) as Hstep by done.
  clearbody step.
  assert (forall gs n po pa l, groups_ok gs po pa = true -> n + zlen (all_entries gs) = N -> 0 <= n ->
    ended (nat_loop (S (length gs)) step (n, mkCursor (groups_enc gs po pa ++ rest) po pa) l)
    = Some (Ret tt, l ++ all_entries gs) /\ zlen gs <= zlen (all_entries gs)) as H.
  { clearbody N. clear gs po Hok. intros gs. induction gs as [|g gs IH]; intros n po pa l Hok Hn H0.
    - cbn [length nat_loop]. unfold zlen in Hn at 1. cbn in Hn.
      rewrite Hstep, (proj2 (Z.ltb_ge n _)) by lia. cbn. by rewrite app_nil_r.
    - cbn [groups_ok] in Hok. apply andb_true_iff in Hok as [Hg Hgs].
      unfold all_entries in *. cbn [List.flat_map] in *. fold (all_entries gs) in *.
      rewrite zlen_app in *. pose proof (zlen_nonneg (all_entries gs)).
      assert (0 < zlen (entries g)) as Hpos by (unfold group_ok in Hg; bool_to_Prop; lia).
      assert (zlen (g :: gs) = 1 + zlen gs) as E by (unfold zlen; cbn [length]; lia).
      destruct (IH (n + zlen (entries g)) (last_offset po (entries g)) (left_addend g pa)
                   (l ++ entries g) Hgs) as [IH1 IH2]; [lia..|]. split; [|lia].
      cbn [length]. remember (S (length gs)) as k eqn:Ek.
      cbn [nat_loop]. rewrite Hstep, (proj2 (Z.ltb_lt n _)) by lia. unfold M_bind at 1.
      cbn [c_rest groups_enc]. rewrite <- app_assoc, bool_decide_false by
        (unfold group_enc; by destruct (sleb_enc_cons (zlen (entries g))) as (b & r & ->)).
      cbn [negb andb]. assert (in_s64 (n + zlen (entries g)) = true) as Hs
        by (unfold in_s64; rewrite andb_true_iff, Z.leb_le, Z.ltb_lt; lia).
      rewrite (bind_run _ _ _ _ _ (group_decode _ _ _ _ _ _ Hg Hs)). cbn [mret M_mret M_ret loop_then].
      rewrite IH1. by rewrite <- app_assoc. }
  destruct (H gs 0 po 0 [] Hok ltac:(done) ltac:(done)) as [H1 H2].
  apply (while_stop (S (length gs))); [unfold zlen in *; lia|]. exact H1.
Qed.

(** C5: the packed format is read correctly: for any grouping of relocations
    whose groups share what their entries have in common and whose numbers
    are ones [sleb] reads back, the encoded stream, whatever bytes follow it,
    decodes to exactly those relocations, in order. *)
Theorem aps2_roundtrip offset gs tail :
  sleb_ok offset = true -> groups_ok gs offset 0 = true ->
  sleb_ok (zlen (all_entries gs)) = true ->
  aps2_decode (aps2_encode offset gs ++ tail) = Ret (all_entries gs).
Proof.
  intros Ho Hg Hn. unfold aps2_decode, aps2_encode. fold collect. cbn [app aps2_walk Z.eqb Pos.eqb andb].
  rewrite <- !app_assoc. rewrite bind_sleb by done. cbn [fst snd]. rewrite bind_sleb by done.
  cbn [fst snd]. rewrite groups_decode; [done|done|].
  unfold sleb_ok, in_s64 in Hn. bool_to_Prop. lia.
Qed.

(** ** Concrete streams *)

(** Three relative relocations eight bytes apart with their addends, then two
    symbol relocations that share an addend. *)
Definition demo_groups : list Group :=
  [mkGroup (Some 8) (Some 1027) Each
     [mkRela 0x10000 1027 0x400; mkRela 0x10008 1027 0x408; mkRela 0x10010 1027 (-4)];
   mkGroup None None (Shared 16)
     [mkRela 0xfff0 0x300000101 16; mkRela 0x20000 0x500000101 16];
   mkGroup None (Some 0x700000402) NoAddend [mkRela 0x20100 0x700000402 0]].

Lemma aps2_roundtrip_witness :
  aps2_decode (aps2_encode 0xfff8 demo_groups ++ [0; 0]) = Ret (all_entries demo_groups).
Proof. apply (aps2_roundtrip 0xfff8 demo_groups [0; 0]); vm_compute; reflexivity. Defined.

Lemma aps2_walk_decode_witness :
  aps2_walk (fun r => modify (Z.add (r_offset r))) (aps2_encode 0xfff8 demo_groups) 0
  = for_each (fun r => modify (Z.add (r_offset r))) (all_entries demo_groups) 0.
Proof.
  apply (aps2_walk_decode _ (aps2_encode 0xfff8 demo_groups) (all_entries demo_groups) 0).
  vm_compute. reflexivity.
Defined.

Lemma sleb_roundtrip_witness :
  sleb (sleb_enc (- 2 ^ 55) ++ [7]) = Ret (- 2 ^ 55, [7]) /\
  sleb (sleb_enc (- 2 ^ 55 - 1) ++ [7]) = UB /\
  sleb (sleb_enc (- 2 ^ 63) ++ [7]) = Ret (- 2 ^ 63, [7]).
Proof.
  rewrite !sleb_roundtrip by lia. split; [|split]; reflexivity.
Defined.

(** A number cut off by the end of the buffer is read past it. *)
Example sleb_truncated : sleb [0x80] = UB.
Proof. reflexivity. Qed.
Example aps2_truncated : aps2_decode [0x41; 0x50; 0x53; 0x32; 1] = UB.
Proof. reflexivity. Qed.
