(* ===== verification/ElfReloc.v ===== *)
(** Relocations: the RELA, REL, RELR and packed (APS2) tables of
    [core/elf/elf_loader.cpp].

    Each table format is applied by a loop over guest memory, as in the code;
    the packed format is decoded in Aps2.  [relr_slots] is what a RELR stream
    means, the addresses it names, and [relr_encode] an encoder it inverts. *)

From S2P Require Import Prelude.
From S2P Require Import Words.
From S2P Require Import Loops.
From S2P Require Import Abi.
From S2P Require Import Unicorn.
From S2P Require Import Engine.
From S2P Require Import Memory.
From S2P Require Import Elf.
From S2P Require Import Aps2.
From stdpp Require Import sorting.
From Stdlib Require Import Sorting.Sorted.
#[local] Open Scope Z_scope.

(** ** Applying one entry *)

Section Apply.
Context {U : Type} `{UcOps U}.
Variable is64 : bool.
Variable bias : Z.
Variable rk : RelocKinds.
Variable resolve_sym : Z -> M (Memory U) Z.

Definition rd_addr (a : Z) : M (Memory U) Z := uc_do (read_t (addr_size is64) a).
Definition wr_addr (a v : Z) : M (Memory U) unit :=
  uc_do (write_t (addr_size is64) a (to_addr is64 v)).

(** One RELA entry; an unknown type is only logged. *)
Definition apply_rela_entry (r : Rela) : M (Memory U) unit :=
  let type := r_type is64 (r_info r) in
  let sym := r_sym is64 (r_info r) in
  let where_ := u64 (bias + r_offset r) in
  if type =? relative rk then wr_addr where_ (u64 (bias + r_addend r))
  else if (type =? glob_dat rk) || (type =? jump_slot rk) then
    v ← resolve_sym sym; wr_addr where_ v
  else if type =? abs rk then
    v ← resolve_sym sym; wr_addr where_ (u64 (v + r_addend r))
  else skip.

Definition apply_rela (table bytes : Z) : M (Memory U) unit :=
  table_loop (Z.of_nat (rela_size is64)) bytes (fun o _ =>
    raw ← uc_do (e_read (u64 (table + o)) (Z.of_nat (rela_size is64)));
    apply_rela_entry (rela_of is64 raw)) tt.

(** One REL entry: always a 32-bit [r_info], the addend is in the slot, which
    is read whatever the type. *)
Definition apply_rel_entry (r : Rela) : M (Memory U) unit :=
  let type := r_type false (r_info r) in
  let sym := r_sym false (r_info r) in
  let where_ := u64 (bias + r_offset r) in
  cur ← rd_addr where_;
  if type =? relative rk then wr_addr where_ (u64 (cur + bias))
  else if (type =? glob_dat rk) || (type =? jump_slot rk) then
    v ← resolve_sym sym; wr_addr where_ v
  else if type =? abs rk then
    v ← resolve_sym sym; wr_addr where_ (u64 (cur + v))
  else skip.

Definition apply_rel (table bytes : Z) : M (Memory U) unit :=
  table_loop (Z.of_nat (rel_size is64)) bytes (fun o _ =>
    raw ← uc_do (e_read (u64 (table + o)) (Z.of_nat (rel_size is64)));
    apply_rel_entry (rel_of is64 raw)) tt.

(** *** RELR *)

Definition wsz : Z := Z.of_nat (addr_size is64).

(** [write_t(w, read_t(w) + load_bias)] *)
Definition bias_slot (w : Z) : M (Memory U) unit :=
  v ← rd_addr w; wr_addr w (u64 (v + bias)).

(** [for (i = 0; bits; ++i, bits >>= 1)] *)
Definition relr_bits (where_ bits : Z) : M (Memory U) unit :=
  while_ (fun '(i, bits) =>
    if bits =? 0 then mret (inr tt) else
    _ ← (if Z.odd bits then bias_slot (u64 (where_ + i * wsz)) else skip);
    mret (inl (u64 (i + 1), Z.shiftr bits 1))) (0, bits).

(** One RELR entry at [where_]; the new [where_]. *)
Definition relr_entry (entry where_ : Z) : M (Memory U) Z :=
  if Z.even entry then
    let where_ := u64 (bias + entry) in
    _ ← bias_slot where_; mret (u64 (where_ + wsz))
  else
    _ ← relr_bits where_ (Z.shiftr entry 1); mret (u64 (where_ + 63 * wsz)).

Definition apply_relr (table bytes : Z) : M (Memory U) unit :=
  _ ← table_loop wsz bytes (fun o where_ =>
    entry ← rd_addr (u64 (table + o)); relr_entry entry where_) 0;
  skip.
End Apply.

(** [apply_android_rela] *)
Definition apply_android_rela {U} `{UcOps U} (is64 : bool) (bias : Z) (rk : RelocKinds)
    (resolve_sym : Z -> M (Memory U) Z) (table bytes : Z) : M (Memory U) unit :=
  buf ← uc_do (e_read table bytes);
  aps2_walk (apply_rela_entry is64 bias rk resolve_sym) buf.

(** ** What a RELR stream means *)

(** The slots a bitmap marks, from [where_] on. *)
Definition relr_marks (w where_ bits : Z) : list Z :=
  (fun i => u64 (where_ + i * w)) <$> List.filter (Z.testbit bits) (seqZ 0 63).

(** The slots a stream names, in order. *)
Fixpoint relr_slots (w bias : Z) (entries : list Z) (where_ : Z) : list Z :=
  match entries with
  | [] => []
  | e :: r =>
      if Z.even e then u64 (bias + e) :: relr_slots w bias r (u64 (u64 (bias + e) + w))
      else relr_marks w where_ (Z.shiftr e 1) ++ relr_slots w bias r (u64 (where_ + 63 * w))
  end.

Section RelrFacts.
Context {U : Type} `{UcLaws U}.
Variable is64 : bool.
Variable bias : Z.

#[local] Abbreviation n := (addr_size is64).
#[local] Abbreviation w := (wsz is64).
#[local] Abbreviation bias_slot := (bias_slot is64 bias).

Lemma filter_ext_in (f g : Z -> bool) l :
  (forall x, x ∈ l -> f x = g x) -> List.filter f l = List.filter g l.
Proof.
  induction l as [|x l IH]; intros Hfg; [done|]. cbn [List.filter].
  rewrite (Hfg x) by apply list_elem_of_here. rewrite IH; [done|].
  intros y Hy. apply Hfg. by apply list_elem_of_further.
Qed.

(** The bitmap loop biases the slots of the set bits. *)
Lemma relr_bits_eq where_ bits (m : Memory U) :
  0 <= bits < 2 ^ 63 ->
  relr_bits is64 bias where_ bits m = for_each bias_slot (relr_marks w where_ bits) m.
Proof.
  intros Hbits. unfold relr_bits, relr_marks. set (step := fun '(i, b) => _).
  assert (forall i b, step (i, b) = if b =? 0 then mret (inr tt) else
    _ ← (if Z.odd b then bias_slot (u64 (where_ + i * w)) else skip);
    mret (inl (u64 (i + 1), Z.shiftr b 1))) as Hstep by done. clearbody step.
  assert (forall k i b m, 0 <= i -> i + Z.of_nat k <= 64 -> 0 <= b < 2 ^ Z.of_nat k ->
    ended (nat_loop (S k) step (i, b) m)
    = Some (for_each bias_slot ((fun j => u64 (where_ + j * w)) <$>
              List.filter (fun j => Z.testbit b (j - i)) (seqZ i (Z.of_nat k))) m)) as Hl.
  { clear Hbits bits m. induction k as [|k IH]; intros i b m Hi Hk Hb.
    - assert (b = 0) as -> by lia. cbn [nat_loop]. rewrite Hstep. done.
    - remember (S k) as k'. cbn [nat_loop]. rewrite Hstep. destruct (Z.eqb_spec b 0) as [->|Hb0].
      + rewrite (filter_ext_in _ (fun _ => false)) by (intros; apply Z.bits_0).
        assert (forall l : list Z, List.filter (fun _ => false) l = []) as -> by (by intros l; induction l).
        done.
      + subst k'. rewrite Nat2Z.inj_succ, seqZ_cons, Z.pred_succ by lia.
        cbn [List.filter]. rewrite Z.sub_diag, Z.bit0_odd.
        rewrite (filter_ext_in _ (fun j => Z.testbit (Z.shiftr b 1) (j - Z.succ i))).
        2: { intros j Hj%elem_of_seqZ. rewrite Z.shiftr_spec by lia. f_equal. lia. }
        assert (0 <= Z.shiftr b 1 < 2 ^ Z.of_nat k) as Hb'.
        { rewrite Z.shiftr_div_pow2 by lia. rewrite Nat2Z.inj_succ, Z.pow_succ_r in Hb by lia.
          split; [by apply Z.div_pos; lia|]. apply Z.div_lt_upper_bound; lia. }
        rewrite u64_id by lia. unfold M_bind at 1.
        destruct (Z.odd b); cbn [fmap list_fmap].
        * rewrite for_each_cons. unfold mbind, M_mbind, M_bind.
          destruct (bias_slot _ m) as [[[]|e|] m1]; try done.
          cbn [mret M_mret M_ret loop_then]. apply (IH (Z.succ i)); lia.
        * cbn [mret M_mret M_ret loop_then]. apply (IH (Z.succ i)); lia. }
  pose proof (Hl 63%nat 0 bits m ltac:(done) ltac:(done) Hbits) as E.
  rewrite (filter_ext_in _ (Z.testbit bits)) in E by (intros j _; by rewrite Z.sub_0_r).
  change (Z.of_nat 63) with 63 in E. refine (while_stop (S 63) _ _ _ _ _ E). lia.
Qed.

(** *** What a run does to memory *)

(** The [w] bytes at [a] are mapped and hold [v]. *)
Definition word (u : U) (a v : Z) : Prop :=
  (forall x, a <= x < a + w -> uc_mapped u x = true) /\ uc_mem_read u a w = Some (le_bytes n v).

Definition apart (a b : Z) : Prop := a + w <= b \/ b + w <= a.

(** [u'] is [u] with [bias] added to the words at [l]. *)
Definition biased (l : list Z) (u u' : U) : Prop :=
  (forall x, uc_mapped u' x = uc_mapped u x) /\
  (forall s v, s ∈ l -> word u s v -> word u' s (v + bias)) /\
  (forall a k, (forall s, s ∈ l -> a + k <= s \/ s + w <= a) ->
     uc_mem_read u' a k = uc_mem_read u a k).

Lemma biased_nil u : biased [] u u.
Proof. split; [done|]. split; [|done]. by intros s v ?%elem_of_nil. Qed.

Lemma biased_app l1 l2 u u1 u2 :
  (forall a b, a ∈ l1 -> b ∈ l2 -> apart a b) ->
  biased l1 u u1 -> biased l2 u1 u2 -> biased (l1 ++ l2) u u2.
Proof.
  unfold apart. intros Hd (M1 & W1 & F1) (M2 & W2 & F2). split; [by intros; rewrite M2|]. split.
  - intros s v [Hs|Hs]%elem_of_app [Hm Hr].
    + destruct (W1 s v Hs (conj Hm Hr)) as [Hm1 Hr1]. split.
      * intros x Hx. rewrite M2. by apply Hm1.
      * rewrite F2; [done|]. intros t Ht. by apply Hd.
    + apply W2; [done|]. split; [intros x Hx; rewrite M1; by apply Hm|].
      rewrite F1; [done|]. intros t Ht. destruct (Hd t s Ht Hs); auto.
  - intros a k Ha. rewrite F2, F1; [done| |]; intros s Hs; apply Ha, elem_of_app; auto.
Qed.

Lemma rd_addr_run a v (m : Memory U) :
  0 <= v < 2 ^ (8 * w) -> uc_mem_read (m_uc m) a w = Some (le_bytes n v) ->
  rd_addr is64 a m = (Ret v, m).
Proof.
  intros Hv Hr. unfold rd_addr, uc_do, read_t, e_read, mbind, M_mbind, M_bind.
  change (Z.of_nat n) with w. rewrite Hr. cbn [mret M_mret M_ret].
  rewrite le_val_bytes, Z.mod_small by done. by destruct m.
Qed.

Lemma bias_slot_run s v (m : Memory U) :
  word (m_uc m) s v ->
  exists u', bias_slot s m = (Ret tt, with_m_uc m u') /\ biased [s] (m_uc m) u'.
Proof.
  intros [Hm Hr]. unfold ElfReloc.bias_slot.
  assert (uc_mem_read (m_uc m) s w = Some (le_bytes n (v mod 2 ^ (8 * w)))) as Hr'
    by (by rewrite le_bytes_mod).
  rewrite (bind_run _ _ _ _ _ (rd_addr_run _ _ _ ltac:(apply mod_range; by destruct is64) Hr')).
  set (bs := le_bytes n (to_addr is64 (u64 (v mod 2 ^ (8 * w) + bias)))).
  assert (bs = le_bytes n (v + bias)) as Ebs.
  { unfold bs. rewrite <- le_bytes_mod, <- (le_bytes_mod n (v + bias)). f_equal.
    unfold wsz, to_addr, u64, u32. destruct is64; cbn [addr_size].
    - change (8 * Z.of_nat 8) with 64. by rewrite !Z.mod_mod, Z.add_mod_idemp_l.
    - change (8 * Z.of_nat 4) with 32. rewrite Z.mod_mod by done.
      change (2 ^ 64) with (2 ^ 32 * 2 ^ 32).
      rewrite Z.rem_mul_r, (Z.mul_comm (2 ^ 32)), Z.mod_add, Z.mod_mod by done.
      by rewrite Z.add_mod_idemp_l. }
  assert (zlen bs = w) as Hlen by (unfold zlen, bs; by rewrite length_le_bytes).
  destruct (law_write_ok (m_uc m) s bs) as [u' Hu']; [by rewrite Hlen|].
  exists u'. split.
  { unfold wr_addr, uc_do, write_t, e_write, check. fold bs. by rewrite Hu'. }
  split; [intros x; by eapply law_write_mapped|]. split.
  - intros t v' ->%list_elem_of_singleton [Hm' Hr2].
    assert (le_bytes n v' = le_bytes n v) as Ev by congruence.
    split; [intros x Hx; erewrite law_write_mapped by done; by apply Hm|].
    replace w with (zlen bs) by done. erewrite law_read_write; [|apply le_bytes_ok|done].
    rewrite Ebs, <- (le_bytes_mod n (v + bias)), <- (le_bytes_mod n (v' + bias)). do 2 f_equal.
    apply (f_equal le_val) in Ev. rewrite !le_val_bytes in Ev.
    rewrite <- Z.add_mod_idemp_l, <- Ev, Z.add_mod_idemp_l by (by destruct is64). done.
  - intros a k Ha. eapply law_read_write_ne; [done|]. rewrite Hlen. apply Ha.
    apply list_elem_of_here.
Qed.

Lemma biased_slots l (m : Memory U) :
  ForallOrdPairs apart l -> (forall s, s ∈ l -> exists v, word (m_uc m) s v) ->
  exists u', for_each bias_slot l m = (Ret tt, with_m_uc m u') /\ biased l (m_uc m) u'.
Proof.
  intros Hl. revert m. induction Hl as [|s l Hs Hl IH]; intros m Hw.
  { exists (m_uc m). split; [by destruct m|apply biased_nil]. }
  destruct (Hw s) as [v Hv]; [apply list_elem_of_here|].
  destruct (bias_slot_run s v m Hv) as (u1 & E1 & B1).
  rewrite Forall_forall in Hs.
  destruct (IH (with_m_uc m u1)) as (u2 & E2 & B2).
  { intros t Ht. destruct (Hw t) as [vt [Hm Hr]]; [by apply list_elem_of_further|].
    exists vt. destruct B1 as (M1 & _ & F1). split.
    - intros x Hx. cbn [m_uc with_m_uc]. rewrite M1. by apply Hm.
    - cbn [m_uc with_m_uc]. rewrite F1; [done|]. intros y ->%list_elem_of_singleton.
      destruct (Hs t Ht); auto. }
  exists u2. rewrite for_each_cons. unfold M_bind. rewrite E1. split; [done|].
  apply (biased_app [s] l _ u1); [|done|done].
  intros a b ->%list_elem_of_singleton Hb. by apply Hs.
Qed.

Lemma FOP_app l1 l2 :
  ForallOrdPairs apart (l1 ++ l2) ->
  ForallOrdPairs apart l1 /\ ForallOrdPairs apart l2 /\ (forall a b, a ∈ l1 -> b ∈ l2 -> apart a b).
Proof.
  induction l1 as [|x l1 IH]; cbn [app]; intros Hp.
  { split; [constructor|]. split; [done|]. by intros a b ?%elem_of_nil. }
  inversion_clear Hp as [|? ? Hx Hl]. destruct (IH Hl) as (H1 & H2 & H3).
  rewrite Forall_app in Hx. destruct Hx as [Hx1 Hx2]. rewrite Forall_forall in Hx2.
  split; [by constructor|]. split; [done|]. intros a b [->|Ha]%elem_of_cons Hb; auto.
Qed.

(** One entry biases its slots. *)
Lemma relr_entry_run e where_ (m : Memory U) :
  0 <= e < 2 ^ (8 * w) ->
  ForallOrdPairs apart (relr_slots w bias [e] where_) ->
  (forall s, s ∈ relr_slots w bias [e] where_ -> exists v, word (m_uc m) s v) ->
  exists where' u', relr_entry is64 bias e where_ m = (Ret where', with_m_uc m u') /\
    biased (relr_slots w bias [e] where_) (m_uc m) u' /\
    forall r, relr_slots w bias (e :: r) where_
              = relr_slots w bias [e] where_ ++ relr_slots w bias r where'.
Proof.
  intros He Hp Hw. unfold relr_entry. cbn [relr_slots] in *. destruct (Z.even e).
  - destruct (biased_slots _ m Hp Hw) as (u' & E & B).
    exists (u64 (u64 (bias + e) + w)), u'. split; [|done].
    rewrite for_each_cons in E. unfold M_bind, for_each in E. unfold mbind, M_mbind, M_bind.
    destruct (bias_slot _ m) as [[[]|?|] m1]; try done. by injection E as ->.
  - rewrite app_nil_r in *. destruct (biased_slots _ m Hp Hw) as (u' & E & B).
    exists (u64 (where_ + 63 * w)), u'. split; [|done].
    rewrite <- relr_bits_eq in E.
    + by rewrite (bind_run _ _ _ _ _ E).
    + rewrite Z.shiftr_div_pow2 by lia. split; [by apply Z.div_pos; lia|].
      apply Z.div_lt_upper_bound; [lia|]. unfold wsz in He. destruct is64; cbn in He; lia.
Qed.

(** The table holds the entries [es] from the [k]-th on, away from [slots]. *)
Definition table_at (table k : Z) (es slots : list Z) (u : U) : Prop :=
  forall j e, es !! j = Some e ->
    let a := table + (k + Z.of_nat j) * w in
    0 <= a < 2 ^ 64 /\ 0 <= e < 2 ^ (8 * w) /\ uc_mem_read u a w = Some (le_bytes n e) /\
    (forall s, s ∈ slots -> apart a s).

Lemma relr_fold table es k where_ (m : Memory U) :
  ForallOrdPairs apart (relr_slots w bias es where_) ->
  (forall s, s ∈ relr_slots w bias es where_ -> exists v, word (m_uc m) s v) ->
  table_at table k es (relr_slots w bias es where_) (m_uc m) ->
  exists where' u',
    foldM (fun i where_ => entry ← rd_addr is64 (u64 (table + i * w)); relr_entry is64 bias entry where_)
      (seqZ k (zlen es)) where_ m = (Ret where', with_m_uc m u') /\
    biased (relr_slots w bias es where_) (m_uc m) u'.
Proof.
  revert k where_ m. induction es as [|e es IH]; intros k where_ m Hp Hw Ht.
  { exists where_, (m_uc m). split; [by destruct m|apply biased_nil]. }
  destruct (Ht 0%nat e eq_refl) as (Ha & He & Hr & Hs0). rewrite Z.add_0_r in *.
  assert (zlen (e :: es) = Z.succ (zlen es)) as -> by (unfold zlen; cbn [length]; lia).
  rewrite seqZ_cons, Z.pred_succ by (pose proof (zlen_nonneg es); lia). cbn [foldM].
  unfold M_bind at 1. rewrite u64_id by done.
  rewrite (bind_run _ _ _ _ _ (rd_addr_run _ _ _ He Hr)).
  assert (exists r, relr_slots w bias (e :: es) where_ = relr_slots w bias [e] where_ ++ r) as [r Er].
  { cbn [relr_slots]. destruct (Z.even e); [by eexists|]. rewrite app_nil_r. by eexists. }
  destruct (relr_entry_run e where_ m He) as (where' & u1 & E1 & B1 & Eapp).
  { rewrite Er in Hp. by apply FOP_app in Hp as (? & _). }
  { intros s Hs. apply Hw. rewrite Er. apply elem_of_app. by left. }
  rewrite E1. rewrite Eapp in Hp, Hw, Ht |- *. apply FOP_app in Hp as (_ & Hp2 & Hp12).
  destruct B1 as (M1 & W1 & F1).
  destruct (IH (Z.succ k) where' (with_m_uc m u1)) as (where2 & u2 & E2 & B2).
  - done.
  - intros s Hs. destruct (Hw s) as [v [Hm Hv]]; [apply elem_of_app; by right|]. exists v. split.
    + intros x Hx. cbn [m_uc with_m_uc]. rewrite M1. by apply Hm.
    + cbn [m_uc with_m_uc]. rewrite F1; [done|]. intros t Hs'. destruct (Hp12 t s Hs' Hs); auto.
  - intros j e' Hj. destruct (Ht (S j) e' Hj) as (Ha' & He' & Hr' & Hs').
    replace (Z.succ k + Z.of_nat j) with (k + Z.of_nat (S j)) by lia.
    split; [done|]. split; [done|]. split.
    + cbn [m_uc with_m_uc]. rewrite F1; [done|]. intros s Hs. apply Hs', elem_of_app. by left.
    + intros s Hs. apply Hs', elem_of_app. by right.
  - exists where2, u2. rewrite E2. split; [done|]. by eapply biased_app.
Qed.

(** C8: a RELR table is applied exactly: when the table holds the entries
    [es], the slots they name are mapped words apart from each other and from
    the table, the loop returns, adds the load bias once to every slot, and
    leaves all other memory as it was. *)
Theorem apply_relr_spec table es (m : Memory U) :
  ForallOrdPairs apart (relr_slots w bias es 0) ->
  (forall s, s ∈ relr_slots w bias es 0 -> exists v, word (m_uc m) s v) ->
  table_at table 0 es (relr_slots w bias es 0) (m_uc m) ->
  (zlen es + 1) * w < 2 ^ 64 ->
  exists u', apply_relr is64 bias table (zlen es * w) m = (Ret tt, with_m_uc m u') /\
    biased (relr_slots w bias es 0) (m_uc m) u'.
Proof.
  intros Hp Hw Ht Hlen. assert (0 < w) as Hpos by (by destruct is64).
  destruct (relr_fold table es 0 0 m Hp Hw Ht) as (where' & u' & E & B).
  exists u'. split; [|done]. unfold apply_relr, mbind, M_mbind, M_bind.
  rewrite table_loop_eq by (pose proof (zlen_nonneg es); nia).
  rewrite Z.div_mul by lia. unfold mbind, M_mbind, M_bind in E. by rewrite E.
Qed.
End RelrFacts.

(** ** An encoder for RELR

    The encoder linkers use: an address entry, then bitmaps of the next 63
    words as long as one of them is marked. *)

Definition in_window (w base o : Z) : bool :=
  (base <=? o) && (o <? base + 63 * w) && ((o - base) mod w =? 0).

(** The longest prefix that satisfies [f], and the rest. *)
Fixpoint span (f : Z -> bool) (l : list Z) : list Z * list Z :=
  match l with
  | [] => ([], [])
  | x :: r => if f x then let '(a, b) := span f r in (x :: a, b) else ([], l)
  end.

Definition bitmap (l : list Z) : Z := foldr (fun i b => Z.setbit b i) 0 l.

Fixpoint relr_pack (w : Z) (k : nat) (base : Z) (l : list Z) : list Z :=
  match k, l with
  | S k, o :: r =>
      match span (in_window w base) l with
      | ([], _) => o :: relr_pack w k (o + w) r
      | (now, later) =>
          (2 * bitmap ((fun o => (o - base) / w) <$> now) + 1) :: relr_pack w k (base + 63 * w) later
      end
  | _, _ => []
  end.
Definition relr_encode (w : Z) (l : list Z) : list Z :=
  match l with [] => [] | o :: r => o :: relr_pack w (length r) (o + w) r end.

Lemma bitmap_testbit l j :
  Forall (fun x => 0 <= x) l -> 0 <= j -> Z.testbit (bitmap l) j = bool_decide (j ∈ l).
Proof.
  intros Hl Hj. induction Hl as [|x l Hx Hl IH]; cbn [bitmap foldr].
  - by rewrite Z.bits_0, bool_decide_false by apply not_elem_of_nil.
  - fold (bitmap l). rewrite Z.setbit_eqb, IH by done. symmetry.
    destruct (Z.eqb_spec x j) as [->|Hne]; cbn [orb].
    + apply bool_decide_true, list_elem_of_here.
    + apply bool_decide_ext. rewrite elem_of_cons. split; [intros [?|?]; [by subst|done]|auto].
Qed.

Lemma bitmap_bound l : Forall (fun x => 0 <= x < 63) l -> 0 <= bitmap l < 2 ^ 63.
Proof.
  induction 1 as [|x l Hx Hl IH]; cbn [bitmap foldr]; [lia|]. fold (bitmap l).
  rewrite Z.setbit_spec'. split; [apply Z.lor_nonneg; lia|].
  assert (0 < 2 ^ x < 2 ^ 63) as Hp.
  { split; [apply Z.pow_pos_nonneg; lia|apply Z.pow_lt_mono_r; lia]. }
  destruct (Z.eq_dec (bitmap l) 0) as [E|E]; [rewrite E, Z.lor_0_l; lia|].
  assert (0 <= Z.lor (bitmap l) (2 ^ x)) by (apply Z.lor_nonneg; lia).
  destruct (Z.eq_dec (Z.lor (bitmap l) (2 ^ x)) 0) as [->|]; [lia|].
  apply Z.log2_lt_pow2; [lia|]. rewrite Z.log2_lor by lia.
  apply Z.max_lub_lt; apply Z.log2_lt_pow2; lia.
Qed.

(** A sorted list is what selecting its elements from the range gives. *)
Lemma filter_sorted_elems (k : nat) i l :
  StronglySorted Z.lt l -> (forall x, x ∈ l -> i <= x < i + Z.of_nat k) ->
  List.filter (fun j => bool_decide (j ∈ l)) (seqZ i (Z.of_nat k)) = l.
Proof.
  revert i l. induction k as [|k IH]; intros i l Hs Hl.
  { destruct l as [|x l]; [done|]. specialize (Hl x ltac:(apply list_elem_of_here)). lia. }
  rewrite Nat2Z.inj_succ, seqZ_cons, Z.pred_succ by lia. cbn [List.filter].
  destruct (decide (i ∈ l)) as [Hi|Hi].
  - rewrite bool_decide_true by done. destruct Hs as [|x l Hs Hx]; [by apply elem_of_nil in Hi|].
    rewrite Forall_forall in Hx. assert (x = i) as ->.
    { apply elem_of_cons in Hi as [->|Hi]; [done|]. specialize (Hx i Hi).
      specialize (Hl x ltac:(apply list_elem_of_here)). lia. }
    f_equal. rewrite (filter_ext_in _ (fun j => bool_decide (j ∈ l))).
    + apply IH; [done|]. intros y Hy. specialize (Hx y Hy).
      specialize (Hl y ltac:(by apply list_elem_of_further)). lia.
    + intros j Hj%elem_of_seqZ. apply bool_decide_ext. rewrite elem_of_cons. split; [|auto].
      intros [->|?]; [lia|done].
  - rewrite bool_decide_false by done. apply IH; [done|]. intros x Hx.
    specialize (Hl x Hx). destruct (decide (x = i)) as [->|]; [done|lia].
Qed.

Lemma span_spec f l a b :
  span f l = (a, b) -> l = a ++ b /\ Forall (fun x => f x = true) a.
Proof.
  revert a b. induction l as [|x l IH]; intros a b; cbn [span]; [by intros [= <- <-]|].
  destruct (f x) eqn:E; [|by intros [= <- <-]]. destruct (span f l) as [a' b'].
  intros [= <- <-]. destruct (IH a' b' eq_refl) as [-> Ha]. split; [done|]. by constructor.
Qed.

(** The marks of the bitmap of a window are the offsets of the window. *)
Lemma marks_of_window w bias base now :
  0 < w -> StronglySorted Z.lt now -> Forall (fun o => in_window w base o = true) now ->
  relr_marks w (u64 (bias + base)) (bitmap ((fun o => (o - base) / w) <$> now))
  = (fun o => u64 (bias + o)) <$> now.
Proof.
  intros Hw Hs Hn. unfold relr_marks. set (is_ := (fun o => (o - base) / w) <$> now).
  assert (forall o, o ∈ now -> 0 <= (o - base) / w < 63 /\ base + (o - base) / w * w = o) as Hi.
  { rewrite Forall_forall in Hn. intros o Ho. specialize (Hn o Ho). unfold in_window in Hn.
    bool_to_Prop. split.
    - split; [apply Z.div_pos; lia|apply Z.div_lt_upper_bound; lia].
    - pose proof (Z.div_mod (o - base) w ltac:(lia)). lia. }
  assert (Forall (fun x => 0 <= x < 63) is_) as Hr.
  { unfold is_. apply Forall_fmap, Forall_forall. intros o Ho. by apply Hi. }
  rewrite (filter_ext_in _ (fun j => bool_decide (j ∈ is_))).
  2: { intros j Hj%elem_of_seqZ. apply bitmap_testbit; [|lia]. eapply Forall_impl; [exact Hr|].
       simpl. lia. }
  change (seqZ 0 63) with (seqZ 0 (Z.of_nat 63)). rewrite filter_sorted_elems.
  - unfold is_. rewrite <- list_fmap_compose. apply list_fmap_ext. intros j o Ho. cbn.
    destruct (Hi o) as [_ E]; [by apply list_elem_of_lookup_2 in Ho|].
    unfold u64. rewrite Z.add_mod_idemp_l by done. f_equal. lia.
  - unfold is_. clear Hr is_. induction Hs as [|o l Hl IH Ho]; cbn; [constructor|].
    apply Forall_cons in Hn as [Hn1 Hn2].
    constructor; [apply IH; [done|intros; apply Hi; by apply list_elem_of_further]|].
    apply Forall_fmap. rewrite Forall_forall in *. intros o' Ho'. cbn.
    destruct (Hi o) as [_ E]; [apply list_elem_of_here|].
    destruct (Hi o') as [_ E']; [by apply list_elem_of_further|]. specialize (Ho o' Ho'). nia.
  - rewrite Forall_forall in Hr. intros x Hx. by apply Hr.
Qed.

(** The packed list names the offsets it was made from. *)
Lemma relr_pack_slots w bias k base l :
  0 < w -> (length l <= k)%nat -> StronglySorted Z.lt l -> Forall (fun o => Z.even o = true) l ->
  relr_slots w bias (relr_pack w k base l) (u64 (bias + base)) = (fun o => u64 (bias + o)) <$> l.
Proof.
  intros Hw. revert base l. induction k as [|k IH]; intros base l Hk Hs He.
  { destruct l; [done|cbn in Hk; lia]. }
  destruct l as [|o r]; [done|]. cbn [relr_pack].
  assert (forall a b, u64 (u64 (bias + a) + b) = u64 (bias + (a + b))) as Hu.
  { intros. unfold u64. rewrite Z.add_mod_idemp_l by done. f_equal. lia. }
  destruct (span (in_window w base) (o :: r)) as [now later] eqn:Esp.
  destruct now as [|o' now].
  - apply Forall_cons in He as [He1 He2]. cbn [relr_slots fmap list_fmap]. rewrite He1, Hu.
    f_equal. apply IH; [cbn in Hk; lia|by inversion Hs|done].
  - destruct (span_spec _ _ _ _ Esp) as [El Hwin]. rewrite El in *.
    cbn [relr_slots]. rewrite Z.even_add_mul_2 || rewrite Z.add_comm, Z.even_add_mul_2.
    cbn [Z.even]. rewrite Z.shiftr_div_pow2 by lia. change (2 ^ 1) with 2.
    rewrite (Z.mul_comm 2), Z.div_add, Z.add_0_l by lia.
    apply StronglySorted_app in Hs as (_ & Hs1 & Hs2). apply Forall_app in He as [_ He2].
    rewrite marks_of_window by done. rewrite Hu, fmap_app. f_equal.
    apply IH; [|done|done]. rewrite length_app in Hk. cbn in Hk. lia.
Qed.

(** RELR decoding inverts the linkers' encoder: for any ascending list of
    even slot offsets, the stream packed from it (address entries and 63-bit
    maps) names exactly those slots, in order. *)
Lemma relr_roundtrip w bias l :
  0 < w -> StronglySorted Z.lt l -> Forall (fun o => Z.even o = true) l ->
  relr_slots w bias (relr_encode w l) 0 = (fun o => u64 (bias + o)) <$> l.
Proof.
  intros Hw Hs He. destruct l as [|o r]; [done|]. apply Forall_cons in He as [He1 He2].
  cbn [relr_encode relr_slots fmap list_fmap]. rewrite He1. f_equal.
  assert (u64 (u64 (bias + o) + w) = u64 (bias + (o + w))) as ->.
  { unfold u64. rewrite Z.add_mod_idemp_l by done. f_equal. lia. }
  apply relr_pack_slots; [done|done|by inversion Hs|done].
Qed.

(** ** A table on the reference emulator *)

Definition demo_table : list Z := relr_encode 8 [0x100; 0x108; 0x118].
Definition demo_uc : RefUc :=
  mkRefUc [(0x10000, 0x1000)]
    (mem_store ∅ 0x10000 (le_bytes 8 0x100 ++ le_bytes 8 11)) (fun _ => 0).
Definition demo_relr : Memory RefUc := init_memory Arm64 false demo_uc.

Example demo_table_eq : demo_table = [0x100; 11].
Proof. reflexivity. Qed.

Lemma relr_roundtrip_witness :
  relr_slots 8 0x7000000000 (relr_encode 8 [0x100; 0x108; 0x118; 0x2000; 0x2004]) 0
  = [0x7000000100; 0x7000000108; 0x7000000118; 0x7000002000; 0x7000002004].
Proof.
  apply (relr_roundtrip 8 0x7000000000 [0x100; 0x108; 0x118; 0x2000; 0x2004]); [lia| |].
  - repeat (apply SSorted_cons; [|repeat (apply List.Forall_cons; [lia|]); apply List.Forall_nil]).
    apply SSorted_nil.
  - repeat (apply List.Forall_cons; [reflexivity|]). apply List.Forall_nil.
Defined.

Lemma demo_slots : relr_slots (wsz true) 0x10000 [0x100; 11] 0 = [0x10100; 0x10108; 0x10118].
Proof. reflexivity. Qed.

Lemma apply_relr_spec_witness :
  exists u', apply_relr true 0x10000 0x10000 16 demo_relr = (Ret tt, with_m_uc demo_relr u') /\
    biased true 0x10000 [0x10100; 0x10108; 0x10118] demo_uc u'.
Proof.
  rewrite <- demo_slots. apply (apply_relr_spec true 0x10000 0x10000 [0x100; 11] demo_relr).
  - rewrite demo_slots. unfold apart. change (wsz true) with 8.
    repeat (apply FOP_cons; [repeat (apply List.Forall_cons; [lia|]); apply List.Forall_nil|]).
    apply FOP_nil.
  - rewrite demo_slots. intros s Hs. exists 0.
    repeat (apply elem_of_cons in Hs as [->|Hs]; [split;
      [intros x Hx; change (wsz true) with 8 in Hx; cbn; unfold ru_mapped; cbn;
       rewrite (proj2 (in_range_spec _ _ _)) by lia; reflexivity|vm_compute; reflexivity]|]).
    by apply elem_of_nil in Hs.
  - rewrite demo_slots. intros [|[|j]] e Hj; [..|by destruct j]; injection Hj as <-;
      (split; [vm_compute; split; [discriminate|reflexivity]|]);
      (split; [vm_compute; split; [discriminate|reflexivity]|]);
      (split; [vm_compute; reflexivity|]); unfold apart; change (wsz true) with 8; cbn;
      intros s Hs; repeat (apply elem_of_cons in Hs as [->|Hs]; [lia|]); by apply elem_of_nil in Hs.
  - vm_compute. reflexivity.
Defined.
