(* ===== verification/ElfLoader.v ===== *)
(** The ELF loader: [core/elf/elf_loader.cpp].

    [load_bytes] maps a library, applies its relocations (ElfReloc) and
    collects what the rest of the program asks of it; [run_init] and the
    others call into it.  What resolves an imported symbol is a callback of
    the loader's client. *)

From S2P Require Import Prelude.
From S2P Require Import Words.
From S2P Require Import Loops.
From S2P Require Import Abi.
From S2P Require Import Unicorn.
From S2P Require Import Engine.
From S2P Require Import Memory.
From S2P Require Import Elf.
From S2P Require Import Aps2.
From S2P Require Import ElfReloc.
From stdpp Require Import strings.
#[local] Open Scope Z_scope.

(** ** Symbols *)

Section Symbols.
Context {U : Type} `{UcOps U}.

(** [read_cstr] with its default bound. *)
Definition cstr_at (a : Z) : M (Memory U) (list Z) :=
  uc_do (gets (fun u => read_cstr a 4096 u)).

(** The greatest bucket of the hash table: the start of its last chain. *)
Definition gnu_last_bucket (nbuckets buckets : Z) : M (Memory U) Z :=
  while_ (fun '(i, last) =>
    if i <? nbuckets
    then b ← uc_do (read_t 4 (u64 (buckets + i * 4))); mret (inl (i + 1, Z.max last b))
    else mret (inr last)) (0, 0).

(** Along a chain to the entry with its low bit set. *)
Definition gnu_chain_end (chain symoffset idx : Z) : M (Memory U) Z :=
  while_ (fun idx =>
    h ← uc_do (read_t 4 (u64 (chain + u32 (idx - symoffset) * 4)));
    if negb (Z.land h 1 =? 0) then mret (inr idx) else mret (inl (u32 (idx + 1)))) idx.

Definition gnu_hash_nsyms (gh ptr_size : Z) : M (Memory U) Z :=
  nbuckets ← uc_do (read_t 4 (u64 (gh + 0)));
  symoffset ← uc_do (read_t 4 (u64 (gh + 4)));
  bloom_size ← uc_do (read_t 4 (u64 (gh + 8)));
  let buckets := u64 (gh + 16 + bloom_size * ptr_size) in
  last ← gnu_last_bucket nbuckets buckets;
  if last <? symoffset then mret symoffset else
  let chain := u64 (buckets + nbuckets * 4) in
  idx ← gnu_chain_end chain symoffset last;
  mret (idx + 1).

Variable is64 : bool.
Variables bias symtab strtab : Z.
(** [resolve_import_]: a [std::function] that may be empty. *)
Variable resolve_import_ : option (list Z -> M (Memory U) Z).

Definition sym_at (idx : Z) : M (Memory U) Sym :=
  let n := Z.of_nat (sym_size is64) in
  raw ← uc_do (e_read (u64 (symtab + idx * n)) n); mret (sym_of is64 raw).

Definition resolve_sym (idx : Z) : M (Memory U) Z :=
  s ← sym_at idx;
  if st_shndx s =? SHN_UNDEF then
    nm ← cstr_at (u64 (strtab + st_name s));
    match resolve_import_ with Some resolve => resolve nm | None => mret 0 end
  else mret (u64 (bias + st_value s)).

(** [for (i = 1; i < nsyms; ++i)] *)
Definition collect_exports (nsyms : Z) : M (Memory U) (gmap (list Z) Z) :=
  while_ (fun '(i, ex) =>
    if i <? nsyms then
      s ← sym_at (u32 i);
      if (st_shndx s =? SHN_UNDEF) || (st_name s =? 0) then mret (inl (i + 1, ex)) else
      nm ← cstr_at (u64 (strtab + st_name s));
      mret (inl (i + 1, if bool_decide (nm = []) then ex
                        else <[nm := u64 (bias + st_value s)]> ex))
    else mret (inr ex)) (1, ∅).

(** The number of dynamic symbols: from DT_HASH, DT_GNU_HASH or the distance
    to the string table. *)
Definition symbol_count (hash gnu_hash : Z) : M (Memory U) Z :=
  if negb (hash =? 0) then uc_do (read_t 4 (u64 (hash + 4)))
  else if negb (gnu_hash =? 0) then gnu_hash_nsyms gnu_hash (Z.of_nat (addr_size is64))
  else if symtab <? strtab then mret ((strtab - symtab) / Z.of_nat (sym_size is64))
  else mret 0.
End Symbols.

(** ** The dynamic section *)

(** What the loop over it leaves in its variables: the last value of each tag,
    and the DT_NEEDED offsets in order. *)
Record Dynamic := mkDynamic { dyn_vals : gmap Z Z; dyn_needed : list Z }.
Definition no_dynamic : Dynamic := mkDynamic ∅ [].

Definition add_dyn (d : Dyn) (t : Dynamic) : Dynamic :=
  mkDynamic (<[d_tag d := d_val d]> (dyn_vals t))
    (if d_tag d =? DT_NEEDED then dyn_needed t ++ [d_val d] else dyn_needed t).

(** A number, and an address to which the load bias is added; 0 without the tag. *)
Definition dyn_num (t : Dynamic) (tag : Z) : Z := default 0 (dyn_vals t !! tag).
Definition dyn_addr (bias : Z) (t : Dynamic) (tag : Z) : Z :=
  match dyn_vals t !! tag with Some v => u64 (bias + v) | None => 0 end.

(** ** Loading *)

Section Load.
Context {U : Type} `{UcOps U}.
Variable resolve_import_ : option (list Z -> M (Memory U) Z).
Variable is64 : bool.

Definition read_dynamic (a : Z) : M (Memory U) Dynamic :=
  let n := Z.of_nat (dyn_size is64) in
  while_ (fun '(a, t) =>
    raw ← uc_do (e_read a n);
    let d := dyn_of is64 raw in
    if d_tag d =? DT_NULL then mret (inr t) else mret (inl (u64 (a + n), add_dyn d t)))
    (a, no_dynamic).

(** The segments' bytes from the file; that the range is inside it is not
    checked. *)
Definition write_segment (data : list Z) (bias : Z) (ph : Phdr) : M (Memory U) unit :=
  bytes ← lift (or_ub (slice data (p_offset ph) (Z.to_nat (p_filesz ph))));
  uc_do (e_write (u64 (bias + p_vaddr ph)) bytes).

Definition protect_segment (bias : Z) (ph : Phdr) : M (Memory U) unit :=
  let seg := page_align_down (u64 (bias + p_vaddr ph)) in
  let end_ := page_align_up (u64 (bias + p_vaddr ph + p_memsz ph)) in
  uc_do (e_protect seg (u64 (end_ - seg)) (pf_to_uc (p_flags ph))).

(** The relocation tables, in the order they are applied. *)
Definition relocate (e_machine bias : Z) (t : Dynamic) : M (Memory U) unit :=
  let rk := reloc_kinds e_machine in
  let addr := dyn_addr bias t in
  let resolve := resolve_sym is64 bias (addr DT_SYMTAB) (addr DT_STRTAB) resolve_import_ in
  let if_set tag (f : Z -> M (Memory U) unit) := if addr tag =? 0 then skip else f (addr tag) in
  let rela_ tag size := if_set tag (fun a =>
    apply_rela is64 bias rk resolve a (dyn_num t size)) in
  let rel_ tag size := if_set tag (fun a =>
    apply_rel is64 bias rk resolve a (dyn_num t size)) in
  if is64 then
    _ ← rela_ DT_RELA DT_RELASZ;
    _ ← if_set DT_ANDROID_RELA (fun a =>
          apply_android_rela is64 bias rk resolve a (dyn_num t DT_ANDROID_RELASZ));
    _ ← if_set DT_RELR (fun a => apply_relr is64 bias a (dyn_num t DT_RELRSZ));
    rela_ DT_JMPREL DT_PLTRELSZ
  else
    _ ← rel_ DT_REL DT_RELSZ;
    if s64 (dyn_num t DT_PLTREL) =? DT_RELA then rela_ DT_JMPREL DT_PLTRELSZ
    else rel_ DT_JMPREL DT_PLTRELSZ.

(** The entries of a constructor array but 0 and -1; one that was never
    relocated is biased here. *)
Definition fix_entry (bias size fn : Z) : Z :=
  if (fn <? bias) && (fn <? size) then to_addr is64 (fn + bias) else fn.
Definition collect_array (bias size table bytes : Z) : M (Memory U) (list Z) :=
  table_loop (Z.of_nat (addr_size is64)) bytes (fun o acc =>
    fn ← uc_do (read_t (addr_size is64) (u64 (table + o)));
    mret (if negb (fn =? 0) && negb (fn =? to_addr is64 (-1))
          then acc ++ [fix_entry bias size fn] else acc)) [].

(** A [std::vector] of results. *)
Definition collect_names (strtab : Z) (offs : list Z) : M (Memory U) (list (list Z)) :=
  foldM (fun off acc => nm ← cstr_at (u64 (strtab + off)); mret (acc ++ [nm])) offs [].

Definition load_impl (data : list Z) (name : string) : M (Memory U) SoInfo :=
  raw ← lift (read_at (ehdr_size is64) data 0);
  let eh := ehdr_of is64 raw in
  sg ← lift (scan_phdrs is64 data eh (Z.to_nat (e_phnum eh)) 0 no_segments);
  if (length (loads sg) =? 0)%nat then throw ("ELF: no PT_LOAD in " +:+ name) else
  let span := u64 (max_vaddr sg - min_vaddr sg) in
  base ← map_lib span UC_PROT_ALL name;
  let size := page_align_up span in
  let bias := u64 (base - min_vaddr sg) in
  _ ← for_each (write_segment data bias) (loads sg);
  t ← (if dyn_vaddr sg =? 0 then mret no_dynamic else read_dynamic (u64 (bias + dyn_vaddr sg)));
  let addr := dyn_addr bias t in
  let symtab := addr DT_SYMTAB in
  let strtab := addr DT_STRTAB in
  needed ← collect_names strtab (dyn_needed t);
  _ ← relocate (e_machine eh) bias t;
  exports ← (if symtab =? 0 then mret ∅ else
    nsyms ← symbol_count is64 symtab strtab (addr DT_HASH) (addr DT_GNU_HASH);
    collect_exports is64 bias symtab strtab nsyms);
  preinit_array ← collect_array bias size (addr DT_PREINIT_ARRAY) (dyn_num t DT_PREINIT_ARRAYSZ);
  init_array ← collect_array bias size (addr DT_INIT_ARRAY) (dyn_num t DT_INIT_ARRAYSZ);
  fini_array ← collect_array bias size (addr DT_FINI_ARRAY) (dyn_num t DT_FINI_ARRAYSZ);
  _ ← for_each (protect_segment bias) (loads sg);
  sections ← lift (read_sections is64 data eh bias);
  mret (mkSoInfo name is64 bias base size (lookup_sym exports (bs "JNI_OnLoad"))
          (addr DT_INIT) (addr DT_FINI) preinit_array init_array fini_array needed exports sections).
End Load.

Section LoadBytes.
Context {U : Type} `{UcOps U}.
Variable resolve_import_ : option (list Z -> M (Memory U) Z).

Definition elf_magic : list Z := [0x7f; 0x45; 0x4c; 0x46].

Definition load_bytes (data : list Z) (name : string) : M (Memory U) SoInfo :=
  if (zlen data <? EI_NIDENT) || negb (bool_decide (take 4 data = elf_magic))
  then throw ("ELF: bad magic in " +:+ name)
  else if negb (bool_decide (data !! EI_DATA = Some ELFDATA2LSB))
  then throw ("ELF: not little-endian: " +:+ name)
  else if bool_decide (data !! EI_CLASS = Some ELFCLASS64)
  then load_impl resolve_import_ true data name
  else if bool_decide (data !! EI_CLASS = Some ELFCLASS32)
  then load_impl resolve_import_ false data name
  else throw ("ELF: unknown class in " +:+ name).
End LoadBytes.

(** ** Running a library's code *)

Section RunCode.
Context {U : Type} `{UcOps U}.
Variable abi : Abi.
Variable uc_emu_start : Z -> Z -> Z -> Z -> M U uc_err.
Variable wx_page_cb : Z -> M U unit.
Variable on_error : uc_err -> Z -> M U unit.

(** [engine_.call(fn, {0, 0, 0}, kFiniPage)] *)
Definition call_fn (fn : Z) : M (Engine (U := U)) Z :=
  call abi uc_emu_start wx_page_cb on_error fn [0; 0; 0] kFiniPage kDefaultTimeoutUs.
Definition call_all (l : list Z) : M (Engine (U := U)) unit :=
  for_each (fun fn => _ ← call_fn fn; skip) l.
Definition call_if (fn : Z) : M (Engine (U := U)) unit :=
  if fn =? 0 then skip else _ ← call_fn fn; skip.

Definition run_init (so : SoInfo) : M (Engine (U := U)) unit :=
  _ ← call_all (preinit_array so);
  _ ← call_if (init so);
  call_all (init_array so).

Definition run_fini (so : SoInfo) : M (Engine (U := U)) unit :=
  _ ← call_all (rev (fini_array so));
  call_if (fini so).

Definition run_section_array (so : SoInfo) (name : list Z) : M (Engine (U := U)) Z :=
  let sec := section so name in
  if (sec_addr sec =? 0) || (sec_size sec =? 0) then mret 0 else
  let psz := kPointerSize abi in
  table_loop psz (sec_size sec) (fun o called =>
    fn ← on_uc (read_t (Z.to_nat psz) (u64 (sec_addr sec + o)));
    if (fn =? 0) || (fn =? 2 ^ 64 - 1) || (fn =? 0xffffffff) then mret called else
    _ ← call_fn fn; mret (called + 1)) 0.

Definition call_section (so : SoInfo) (name : list Z) : M (Engine (U := U)) Z :=
  let sec := section so name in
  if sec_addr sec =? 0 then mret 0 else call_fn (sec_addr sec).
End RunCode.

(** ** What loading keeps *)

(** An invariant of the memory manager that its parts keep: reading, writing
    and protecting guest memory, mapping a region, moving a cursor. *)
Class LoadInv {U} `{UcOps U} (P : Memory U -> Prop) : Prop := {
  inv_read a n : preserves P (uc_do (e_read a n));
  inv_write a l : preserves P (uc_do (e_write a l));
  inv_protect a n p : preserves P (uc_do (e_protect a n p));
  inv_map base size prot k label : preserves P (map_insert base size prot k label);
  inv_cursor f : (forall m, m_uc (f m) = m_uc m /\ regions_ (f m) = regions_ m) -> preserves P (modify f);
}.

Lemma uc_do_bind {U A B} (P : Memory U -> Prop) (m : M U A) (f : A -> M U B) :
  preserves P (uc_do m) -> (forall a, preserves P (uc_do (f a))) -> preserves P (uc_do (m ≫= f)).
Proof.
  intros Hm Hf s r s' Hs. unfold uc_do, mbind, M_mbind, M_bind in *.
  destruct (m (m_uc s)) as [[a|e|] u] eqn:E.
  - specialize (Hm s (Ret a) (with_m_uc s u) Hs). cbn in Hm. rewrite E in Hm. specialize (Hm eq_refl).
    intros E'. eapply (Hf a _ _ _ Hm). cbn. destruct (f a u) as [r1 u1]. simpl. by injection E' as <- <-.
  - intros [= <- <-]. eapply (Hm s); [done|]. by rewrite E.
  - intros [= <- <-]. eapply (Hm s); [done|]. by rewrite E.
Qed.

Section LoadWf.
Context {U : Type} `{UcOps U} (P : Memory U -> Prop) `{!LoadInv P}.

Lemma inv_map_lib n p label : preserves P (map_lib n p label).
Proof.
  unfold map_lib, set_lib_next. apply preserves_bind; [apply preserves_gets|]. intros b.
  apply preserves_bind; [apply inv_map|]. intros [].
  apply preserves_bind; [by apply inv_cursor|]. intros []. apply preserves_ret.
Qed.
Lemma inv_mmap n p label : preserves P (mmap_alloc n p label).
Proof.
  unfold mmap_alloc, set_mmap_next. apply preserves_if; [apply preserves_throw|].
  apply preserves_bind; [apply preserves_gets|]. intros m.
  apply preserves_bind; [apply inv_map|]. intros [].
  apply preserves_bind; [by apply inv_cursor|]. intros []. apply preserves_ret.
Qed.

Variable resolve_import_ : option (list Z -> M (Memory U) Z).
(** The client's resolver keeps it too. *)
Hypothesis resolve_keeps : forall f nm, resolve_import_ = Some f -> preserves P (f nm).

Lemma inv_read_t n a : preserves P (uc_do (read_t n a)).
Proof. apply uc_do_bind; [apply inv_read|]. intros l s r s' Hs [= <- <-]. by destruct s. Qed.
Lemma inv_gets {A} (f : U -> A) : preserves P (uc_do (gets f)).
Proof. intros s r s' Hs [= <- <-]. by destruct s. Qed.
#[local] Hint Resolve inv_read inv_read_t inv_write inv_protect inv_gets : preserves.

Ltac wf_step :=
  match goal with
  | |- preserves _ (mbind _ _) => apply preserves_bind; [|intros ?]
  | |- preserves _ (mret _) => apply preserves_ret
  | |- preserves _ skip => apply preserves_ret
  | |- preserves _ (throw _) => apply preserves_throw
  | |- preserves _ (lift _) => apply preserves_lift
  | |- preserves _ (uc_do (write_t _ _ _)) => apply inv_write
  | |- preserves _ (uc_do _) => solve [eauto with preserves]
  | |- preserves _ (while_ _ _) => apply preserves_while; intros ?
  | |- preserves _ (table_loop _ _ _ _) => apply preserves_table; intros ? ?
  | |- preserves _ (for_each _ _) => apply preserves_for_each; intros ?
  | |- preserves _ (foldM _ _ _) => apply preserves_foldM; intros ? ?
  | |- preserves _ (if ?b then _ else _) => apply preserves_if
  | |- preserves _ (match ?x with _ => _ end) => destruct x
  | |- preserves _ _ => solve [eauto with preserves]
  end.
Ltac wf := repeat wf_step.

Lemma resolve_sym_wf is64 bias symtab strtab idx :
  preserves P (resolve_sym is64 bias symtab strtab resolve_import_ idx).
Proof.
  unfold resolve_sym, sym_at, cstr_at. wf_step; [wf|]. wf_step; [|wf].
  wf_step; [wf|]. destruct resolve_import_ as [f|] eqn:E; [|wf]. by apply resolve_keeps.
Qed.

Lemma rd_addr_wf is64 a : preserves P (rd_addr (U := U) is64 a).
Proof. unfold rd_addr. wf. Qed.
Lemma wr_addr_wf is64 a v : preserves P (wr_addr (U := U) is64 a v).
Proof. unfold wr_addr. wf. Qed.
#[local] Hint Resolve resolve_sym_wf rd_addr_wf wr_addr_wf : preserves.

Lemma bias_slot_wf is64 bias a : preserves P (bias_slot (U := U) is64 bias a).
Proof. unfold bias_slot. wf. Qed.
#[local] Hint Resolve bias_slot_wf : preserves.

Lemma aps2_walk_wf (emit : Rela -> M (Memory U) unit) buf :
  (forall r, preserves P (emit r)) -> preserves P (aps2_walk emit buf).
Proof.
  intros He. unfold aps2_walk.
  unfold aps2_groups, aps2_group, aps2_entries, aps2_entry, when. wf.
Qed.

Lemma relocate_wf is64 e_machine bias t :
  preserves P (relocate resolve_import_ is64 e_machine bias t).
Proof.
  assert (forall b rk a n st sy, preserves P
    (apply_rela is64 b rk (resolve_sym is64 b sy st resolve_import_) a n)) as Hrela.
  { intros. unfold apply_rela, apply_rela_entry. wf. }
  assert (forall b rk a n st sy, preserves P
    (apply_rel is64 b rk (resolve_sym is64 b sy st resolve_import_) a n)) as Hrel.
  { intros. unfold apply_rel, apply_rel_entry. wf. }
  assert (forall b a n, preserves P (apply_relr (U := U) is64 b a n)) as Hrelr.
  { intros. unfold apply_relr, relr_entry, relr_bits. wf. }
  assert (forall b rk a n st sy, preserves P (apply_android_rela is64 b rk
            (resolve_sym is64 b sy st resolve_import_) a n)) as Haps.
  { intros. unfold apply_android_rela. wf_step; [wf|]. apply aps2_walk_wf.
    intros r. unfold apply_rela_entry. wf. }
  unfold relocate. cbv beta zeta.
  repeat match goal with
  | |- preserves _ (apply_rela _ _ _ _ _ _) => apply Hrela
  | |- preserves _ (apply_rel _ _ _ _ _ _) => apply Hrel
  | |- preserves _ (apply_relr _ _ _ _) => apply Hrelr
  | |- preserves _ (apply_android_rela _ _ _ _ _ _) => apply Haps
  | |- _ => wf_step
  end.
Qed.

Lemma load_impl_wf is64 data name : preserves P (load_impl resolve_import_ is64 data name).
Proof.
  unfold load_impl, write_segment, protect_segment, read_dynamic, collect_names, collect_exports,
    symbol_count, gnu_hash_nsyms, gnu_last_bucket, gnu_chain_end, collect_array, sym_at, cstr_at.
  wf; auto using relocate_wf, inv_map_lib.
Qed.

(** However loading a library ends, with its description, an exception
    part-way, or undefined behaviour, such an invariant still holds. *)
Lemma load_bytes_keeps data name : preserves P (load_bytes resolve_import_ data name).
Proof. unfold load_bytes. wf; apply load_impl_wf. Qed.
End LoadWf.

#[export] Instance mem_wf_inv {U} `{UcLaws U} : LoadInv mem_wf.
Proof.
  split; intros;
    [apply uc_do_wf, keeps_read|apply uc_do_wf, keeps_write|apply uc_do_wf, keeps_protect|apply map_insert_wf|].
  by apply modify_wf.
Qed.
(** The memory map is well formed if it was before: regions sorted, disjoint,
    page-aligned and mapped. *)
Lemma load_bytes_wf {U} `{UcLaws U} (resolve : option (list Z -> M (Memory U) Z)) data name :
  (forall f nm, resolve = Some f -> preserves mem_wf (f nm)) -> preserves mem_wf (load_bytes resolve data name).
Proof. intros Hr. by apply load_bytes_keeps; [apply mem_wf_inv|]. Qed.

(** ** The image is where the segments say *)

Section Segments.
Context {U : Type} `{UcLaws U}.
Variable is64 : bool.

(** A non-empty segment whose end does not wrap and whose bytes are in the
    file. *)
Definition seg_ok (data : list Z) (ph : Phdr) : Prop :=
  0 <= p_vaddr ph /\ 0 <= p_filesz ph <= p_memsz ph /\ 0 < p_memsz ph /\
  p_vaddr ph + p_memsz ph + 4096 <= 2 ^ (8 * Z.of_nat (addr_size is64)) /\
  0 <= p_offset ph /\ p_offset ph + p_filesz ph <= zlen data.

Definition seg_apart (a b : Phdr) : Prop :=
  p_vaddr a + p_filesz a <= p_vaddr b \/ p_vaddr b + p_filesz b <= p_vaddr a.

Lemma page_align_up_any a :
  page_align_up a mod 4096 = 0 /\ 0 <= page_align_up a <= 2 ^ 64 - 4096.
Proof.
  unfold page_align_up. pose proof (u64_range (a + kPageSize - 1)) as Hr.
  rewrite (land_mask64 _ 12) by lia. change (2 ^ 12) with 4096.
  set (y := u64 (a + kPageSize - 1)) in *.
  pose proof (Z.div_mod y 4096 ltac:(lia)). pose proof (Z.mod_pos_bound y 4096 ltac:(lia)).
  split; [rewrite Zminus_mod_idemp_r, Z.sub_diag; done|lia].
Qed.

(** The span covers every segment, page by page. *)
Definition covers (sg : Segments) : Prop :=
  (max_vaddr sg mod 4096 = 0 /\ 0 <= max_vaddr sg <= 2 ^ 64 - 4096) /\
  ((loads sg = [] /\ min_vaddr sg = 2 ^ 64 - 1) \/ (min_vaddr sg mod 4096 = 0 /\ 0 <= min_vaddr sg)) /\
  Forall (fun ph => min_vaddr sg <= page_align_down (p_vaddr ph) /\
            page_align_up (to_addr is64 (p_vaddr ph + p_memsz ph)) <= max_vaddr sg) (loads sg).

Lemma covers_add sg ph : 0 <= p_vaddr ph < 2 ^ 64 -> covers sg -> covers (add_phdr is64 sg ph).
Proof.
  intros Hv (Hmax & Hmin & Hall). unfold add_phdr.
  destruct (p_type ph =? PT_LOAD); [|by destruct (p_type ph =? PT_DYNAMIC)].
  destruct (page_align_up_any (to_addr is64 (p_vaddr ph + p_memsz ph))) as [? ?].
  destruct (page_align_down_spec (p_vaddr ph) Hv) as (? & ? & ?).
  unfold covers. cbn [loads min_vaddr max_vaddr]. split; [|split].
  - destruct (Z.max_spec (max_vaddr sg)
      (page_align_up (to_addr is64 (p_vaddr ph + p_memsz ph)))) as [[_ ->]|[_ ->]]; lia.
  - right. destruct (Z.min_spec (min_vaddr sg) (page_align_down (p_vaddr ph))) as [[? ->]|[? ->]];
      [|lia]. destruct Hmin as [[_ E]|?]; [|lia]. rewrite E in *.
    assert (page_align_down (p_vaddr ph) <= 2 ^ 64 - 4096); [|lia].
    rewrite Z.mod_divide in * by lia. destruct H0 as [q Hq]. lia.
  - apply Forall_app. split; [|constructor; [lia|constructor]].
    eapply Forall_impl; [exact Hall|]. intros p. cbn. lia.
Qed.

Lemma fld_range raw o k : bytes_ok raw -> 0 <= fld raw o k < 2 ^ (8 * Z.of_nat k).
Proof.
  intros Hr. unfold fld.
  pose proof (le_val_range (take k (drop o raw)) ltac:(by apply Forall_take, Forall_drop)) as Hv.
  assert (2 ^ (8 * zlen (take k (drop o raw))) <= 2 ^ (8 * Z.of_nat k)); [|lia].
  apply Z.pow_le_mono_r; [lia|]. unfold zlen. rewrite length_take. lia.
Qed.

Lemma phdr_vaddr_range raw : bytes_ok raw -> 0 <= p_vaddr (phdr_of is64 raw) < 2 ^ 64.
Proof.
  intros Hr. unfold phdr_of. destruct is64; cbn [p_vaddr].
  - apply (fld_range raw 16 8 Hr).
  - pose proof (fld_range raw 8 4 Hr). change (8 * Z.of_nat 4) with 32 in *. lia.
Qed.

Lemma scan_phdrs_covers data eh k i sg sg' :
  bytes_ok data -> covers sg -> scan_phdrs is64 data eh k i sg = Ret sg' -> covers sg'.
Proof.
  intros Hd. revert i sg. induction k as [|k IH]; intros i sg Hc; cbn [scan_phdrs].
  { by intros [= <-]. }
  intros (raw & Er & E)%outcome_bind_ret. eapply IH; [|exact E]. apply covers_add; [|done].
  apply phdr_vaddr_range. unfold read_at in Er. destruct (_ <? _); [done|].
  destruct (slice _ _ _) as [l|] eqn:El; [|done]. injection Er as <-. by eapply bytes_ok_slice.
Qed.

Lemma covers_none : covers no_segments.
Proof. split; [done|]. split; [by left|constructor]. Qed.

(** Where a segment lies inside the mapped span. *)
Lemma segment_inside data sg ph base :
  covers sg -> ph ∈ loads sg -> seg_ok data ph ->
  0 <= base -> base + page_align_up (u64 (max_vaddr sg - min_vaddr sg)) <= 2 ^ 64 ->
  u64 (u64 (base - min_vaddr sg) + p_vaddr ph) = base + (p_vaddr ph - min_vaddr sg) /\
  base <= base + (p_vaddr ph - min_vaddr sg) /\
  base + (p_vaddr ph - min_vaddr sg) + p_memsz ph
    <= base + page_align_up (u64 (max_vaddr sg - min_vaddr sg)).
Proof.
  intros (Hmax & Hmin & Hall) Hin (Hv & Hf & Hpos & Hw & _) Hb Hsz.
  rewrite Forall_forall in Hall. destruct (Hall ph Hin) as [H1 H2].
  destruct Hmin as [[E _]|Hmin]; [rewrite E in Hin; by apply elem_of_nil in Hin|].
  assert (p_vaddr ph + p_memsz ph + 4096 <= 2 ^ 64) as Hw'.
  { destruct is64; cbn [addr_size] in Hw; [done|]. change (8 * Z.of_nat 4) with 32 in Hw. lia. }
  assert (to_addr is64 (p_vaddr ph + p_memsz ph) = p_vaddr ph + p_memsz ph) as Et.
  { unfold to_addr. destruct is64; cbn [addr_size] in Hw.
    - apply u64_id. lia.
    - apply u32_id. change (8 * Z.of_nat 4) with 32 in Hw. lia. }
  rewrite Et in H2.
  destruct (page_align_up_spec (p_vaddr ph + p_memsz ph)) as [? ?]; [lia..|].
  destruct (page_align_down_spec (p_vaddr ph)) as (? & ? & ?); [lia|].
  assert (u64 (max_vaddr sg - min_vaddr sg) = max_vaddr sg - min_vaddr sg) as Es
    by (apply u64_id; lia).
  rewrite Es in *.
  assert (page_align_up (max_vaddr sg - min_vaddr sg) = max_vaddr sg - min_vaddr sg) as Ep.
  { rewrite page_align_up_eq by lia. destruct Hmax as [Hm1 _], Hmin as [Hm2 _].
    rewrite <- Z.add_mod_idemp_l, <- Zminus_mod_idemp_l, <- Zminus_mod_idemp_r, Hm1, Hm2 by lia.
    change ((0 - 0) mod 4096 + 4095) with 4095. rewrite (Z.mod_small 4095) by lia. lia. }
  rewrite Ep in *. split; [|lia].
  unfold u64. rewrite Z.add_mod_idemp_l by done.
  replace (base - min_vaddr sg + p_vaddr ph) with (base + (p_vaddr ph - min_vaddr sg)) by lia.
  apply Z.mod_small. lia.
Qed.

(** Writing the segments one after the other; [A] is where each goes. *)
Lemma write_segments_run data bias (A : Phdr -> Z) l (m : Memory U) :
  bytes_ok data -> Forall (seg_ok data) l ->
  ForallOrdPairs (fun a b => A a + p_filesz a <= A b \/ A b + p_filesz b <= A a) l ->
  (forall ph, ph ∈ l -> u64 (bias + p_vaddr ph) = A ph /\
     forall x, A ph <= x < A ph + p_filesz ph -> uc_mapped (m_uc m) x = true) ->
  exists u', for_each (write_segment data bias) l m = (Ret tt, with_m_uc m u') /\
    (forall ph, ph ∈ l ->
       uc_mem_read u' (A ph) (p_filesz ph) = slice data (p_offset ph) (Z.to_nat (p_filesz ph))) /\
    (forall a k, (forall ph, ph ∈ l -> a + k <= A ph \/ A ph + p_filesz ph <= a) ->
       uc_mem_read u' a k = uc_mem_read (m_uc m) a k).
Proof.
  intros Hd Hok Hp. revert m. induction Hp as [|ph l Hph Hp IH]; intros m Hm.
  { exists (m_uc m). split; [by destruct m|]. split; [|done]. by intros ph ?%elem_of_nil. }
  apply Forall_cons in Hok as [(_ & Hf & _ & _ & Ho1 & Ho2) Hok].
  destruct (slice_is_Some data (p_offset ph) (Z.to_nat (p_filesz ph))) as [bytes Hb]; [lia..|].
  assert (zlen bytes = p_filesz ph) as Hlen.
  { unfold zlen. rewrite (slice_length _ _ _ _ Hb). lia. }
  destruct (Hm ph) as [Ha Hmap]; [apply list_elem_of_here|].
  destruct (law_write_ok (m_uc m) (A ph) bytes) as [u1 Hu1]; [by rewrite Hlen|].
  destruct (IH Hok (with_m_uc m u1)) as (u2 & E2 & R2 & F2).
  { intros q Hq. destruct (Hm q) as [Hqa Hqm]; [by apply list_elem_of_further|].
    split; [done|]. intros x Hx. cbn [m_uc with_m_uc]. erewrite law_write_mapped by done.
    by apply Hqm. }
  exists u2. rewrite Forall_forall in Hph. split; [|split].
  - rewrite for_each_cons. unfold M_bind, write_segment. rewrite Hb. cbn [or_ub].
    rewrite bind_lift_ret, Ha. unfold uc_do, e_write, check. by rewrite Hu1.
  - intros q [->|Hq]%elem_of_cons; [|by apply R2].
    rewrite F2 by (intros q Hq; destruct (Hph q Hq); auto). cbn [m_uc with_m_uc].
    rewrite Hb, <- Hlen. eapply law_read_write; [by eapply bytes_ok_slice|done].
  - intros a k Hak. rewrite F2 by (intros q Hq; apply Hak; by apply list_elem_of_further).
    cbn [m_uc with_m_uc]. eapply law_read_write_ne; [done|]. rewrite Hlen. apply Hak.
    apply list_elem_of_here.
Qed.

(** C15: the image lands where the segments say: once the span is mapped, every
    non-wrapping segment lies inside the mapping with room for its whole
    [p_memsz], no segment write faults, and afterwards each segment's bytes
    from the file are at its address. *)
Theorem segments_placed data eh k sg name base (m m1 : Memory U) :
  bytes_ok data -> scan_phdrs is64 data eh k 0 no_segments = Ret sg ->
  Forall (seg_ok data) (loads sg) -> ForallOrdPairs seg_apart (loads sg) ->
  map_lib (u64 (max_vaddr sg - min_vaddr sg)) UC_PROT_ALL name m = (Ret base, m1) ->
  let bias := u64 (base - min_vaddr sg) in
  let size := page_align_up (u64 (max_vaddr sg - min_vaddr sg)) in
  exists u', for_each (write_segment data bias) (loads sg) m1 = (Ret tt, with_m_uc m1 u') /\
    forall ph, ph ∈ loads sg ->
      let a := u64 (bias + p_vaddr ph) in
      base <= a /\ a + p_memsz ph <= base + size /\
      uc_mem_read u' a (p_filesz ph) = slice data (p_offset ph) (Z.to_nat (p_filesz ph)).
Proof.
  intros Hd Hscan Hok Hp Hmap bias size.
  pose proof (scan_phdrs_covers _ _ _ _ _ _ Hd covers_none Hscan) as Hc.
  unfold map_lib in Hmap. rewrite bind_gets in Hmap.
  apply bind_ret_inv in Hmap as (? & m2 & E & Er).
  apply map_insert_ret in E as (u2 & Eu & ->). injection Er as <- <-.
  pose proof (law_map_args _ _ _ _ _ Eu) as (Hb0 & _ & Hb1 & _).
  fold size in Eu, Hb1. set (base := lib_next_ m) in *.
  rewrite Forall_forall in Hok.
  pose proof (fun ph Hph => segment_inside data sg ph base Hc Hph (Hok ph Hph) Hb0 Hb1) as Hin.
  match goal with |- exists _, for_each _ _ ?m = _ /\ _ => set (m1 := m) end.
  destruct (write_segments_run data bias (fun ph => base + (p_vaddr ph - min_vaddr sg)) (loads sg) m1)
    as (u' & E' & R' & _).
  - done.
  - by apply Forall_forall.
  - clear -Hp. induction Hp as [|a l Ha Hl IH]; constructor; [|done].
    eapply Forall_impl; [exact Ha|]. unfold seg_apart. intros b. lia.
  - intros ph Hph. destruct (Hin ph Hph) as (Ea & Hlo & Hhi).
    destruct (Hok ph Hph) as (_ & Hf & _). split; [done|]. intros y Hy. cbn [m_uc m1].
    rewrite (law_map_mapped _ _ _ _ _ _ Eu), (proj2 (in_range_spec _ _ _)) by (fold size in Hhi; lia).
    apply orb_true_r.
  - exists u'. split; [done|]. intros ph Hph a. destruct (Hin ph Hph) as (Ea & Hlo & Hhi).
    unfold a, bias. rewrite Ea. split; [done|]. split; [done|]. by apply R'.
Qed.
End Segments.

(** ** Counting symbols from a GNU hash table *)

Section GnuHash.
Context {U : Type} `{UcLaws U}.

(** The 4-byte words [l] at [a]. *)
Definition words4 (u : U) (a : Z) (l : list Z) : Prop :=
  forall j v, l !! j = Some v ->
    0 <= v < 2 ^ 32 /\ uc_mem_read u (u64 (a + Z.of_nat j * 4)) 4 = Some (le_bytes 4 v).

Lemma words4_read (m : Memory U) a l j v :
  words4 (m_uc m) a l -> l !! j = Some v ->
  uc_do (read_t 4 (u64 (a + Z.of_nat j * 4))) m = (Ret v, m).
Proof.
  intros Hl Hj. destruct (Hl j v Hj) as [Hv Hr].
  unfold uc_do, read_t, e_read, mbind, M_mbind, M_bind.
  change (Z.of_nat 4) with 4. rewrite Hr. cbn [mret M_mret M_ret].
  rewrite le_val_bytes. change (8 * Z.of_nat 4) with 32. rewrite Z.mod_small by done.
  by destruct m.
Qed.

Lemma words4_tail (u : U) a x l : words4 u a (x :: l) -> words4 u (a + 4) l.
Proof.
  intros Hl j v Hj. replace (a + 4 + Z.of_nat j * 4) with (a + Z.of_nat (S j) * 4) by lia.
  by apply Hl.
Qed.

Lemma words4_nil (u : U) a : words4 u a [].
Proof. intros j v. by rewrite lookup_nil. Qed.
Lemma words4_cons (u : U) a v l :
  (0 <=? v) && (v <? 2 ^ 32) = true -> uc_mem_read u (u64 a) 4 = Some (le_bytes 4 v) ->
  words4 u (a + 4) l -> words4 u a (v :: l).
Proof.
  intros [?%Z.leb_le ?%Z.ltb_lt]%andb_true_iff Hr Hl [|j] w Hj.
  - injection Hj as <-. by rewrite Z.add_0_r.
  - replace (a + Z.of_nat (S j) * 4) with (a + 4 + Z.of_nat j * 4) by lia. by apply Hl.
Qed.

Lemma gnu_last_bucket_run bs buckets (m : Memory U) :
  words4 (m_uc m) buckets bs -> zlen bs < 2 ^ 32 ->
  gnu_last_bucket (zlen bs) buckets m = (Ret (fold_left Z.max bs 0), m).
Proof.
  intros Hw Hlen. unfold gnu_last_bucket. set (n := zlen bs) in *. set (step := fun '(i, l) => _).
  assert (forall i last, step (i, last) = if i <? n
    then b ← uc_do (read_t 4 (u64 (buckets + i * 4))); mret (inl (i + 1, Z.max last b))
    else mret (inr last)) as Hstep by done. clearbody step.
  assert (forall l pre last, bs = pre ++ l ->
    ended (nat_loop (S (length l)) step (zlen pre, last) m) = Some (Ret (fold_left Z.max l last), m))
    as Hl.
  { induction l as [|b l IH]; intros pre last E.
    - cbn [length nat_loop]. rewrite Hstep. unfold n. rewrite E, app_nil_r, Z.ltb_irrefl. done.
    - cbn [length]. remember (S (length l)) as k. cbn [nat_loop]. rewrite Hstep.
      rewrite (proj2 (Z.ltb_lt _ n)) by (unfold n; rewrite E, zlen_app; unfold zlen; cbn; lia).
      unfold M_bind at 1. unfold zlen at 1.
      rewrite (bind_run _ _ _ _ _ (words4_read m buckets bs (length pre) b Hw
        ltac:(by rewrite E, list_lookup_middle))).
      cbn [mret M_mret M_ret loop_then fold_left].
      replace (Z.of_nat (length pre) + 1) with (zlen (pre ++ [b]))
        by (unfold zlen; rewrite length_app; cbn; lia).
      apply IH. by rewrite <- app_assoc. }
  apply (while_stop (S (length bs))); [unfold n, zlen in Hlen; lia|].
  by apply (Hl bs []).
Qed.

Lemma gnu_chain_end_run chain symoffset hs pre body t post (m : Memory U) :
  words4 (m_uc m) chain hs -> hs = pre ++ (body ++ [t]) ++ post ->
  Forall (fun h => Z.even h = true) body -> Z.odd t = true ->
  0 <= symoffset -> symoffset + zlen hs < 2 ^ 32 ->
  gnu_chain_end chain symoffset (symoffset + zlen pre) m
  = (Ret (symoffset + zlen pre + zlen body), m).
Proof.
  intros Hw E Hb Ht Hs Hlen. unfold gnu_chain_end. set (step := fun idx => _).
  assert (forall idx, step idx =
    (h ← uc_do (read_t 4 (u64 (chain + u32 (idx - symoffset) * 4)));
     if negb (Z.land h 1 =? 0) then mret (inr idx) else mret (inl (u32 (idx + 1))))) as Hstep
    by done. clearbody step.
  assert (forall h, Z.land h 1 = if Z.odd h then 1 else 0) as Hodd.
  { intros h. change 1 with (2 ^ 1 - 1) at 1. rewrite land_ones_mod by lia. apply Zmod_odd. }
  assert (forall v p q, hs = p ++ v :: q -> forall k,
    nat_loop (S k) step (symoffset + zlen p) m
    = M_bind (loop_then (nat_loop k step))
        (if Z.odd v then mret (inr (symoffset + zlen p)) else mret (inl (symoffset + zlen p + 1))) m)
    as Hone.
  { intros v p q Ep k. cbn [nat_loop]. unfold M_bind. rewrite Hstep.
    replace (symoffset + zlen p - symoffset) with (zlen p) by lia.
    pose proof (zlen_nonneg p). rewrite Ep, zlen_app in Hlen.
    assert (1 <= zlen (v :: q)) by (unfold zlen; cbn; lia). rewrite (u32_id (zlen p)) by lia.
    change (zlen p) with (Z.of_nat (length p)).
    rewrite (bind_run _ _ _ _ _ (words4_read m chain hs (length p) v Hw
      ltac:(by rewrite Ep, list_lookup_middle))).
    change (Z.of_nat (length p)) with (zlen p). rewrite Hodd, u32_id by lia.
    by destruct (Z.odd v). }
  assert (forall b p, hs = p ++ (b ++ [t]) ++ post -> Forall (fun h => Z.even h = true) b ->
    ended (nat_loop (S (length b)) step (symoffset + zlen p) m)
    = Some (Ret (symoffset + zlen p + zlen b), m)) as Hl.
  { induction b as [|x b IH]; intros p Ep Hev.
    - cbn [length]. rewrite (Hone t p post Ep), Ht. cbn. unfold zlen at 2. cbn.
      by rewrite Z.add_0_r.
    - apply Forall_cons in Hev as [Hx Hev]. cbn [length].
      rewrite (Hone x p (b ++ [t] ++ post)) by (by rewrite Ep; cbn; rewrite <- app_assoc).
      rewrite <- Z.negb_even, Hx. cbn [negb]. unfold M_bind. cbn [mret M_mret M_ret loop_then].
      replace (symoffset + zlen p + 1) with (symoffset + zlen (p ++ [x]))
        by (rewrite zlen_app; unfold zlen; cbn; lia).
      rewrite IH; [|by rewrite Ep, <- (app_assoc p [x])|done].
      do 3 f_equal. rewrite zlen_app. unfold zlen. cbn [length]. lia. }
  apply (while_stop (S (length body))); [|by apply Hl].
  rewrite E, !zlen_app in Hlen. pose proof (zlen_nonneg pre). pose proof (zlen_nonneg post).
  unfold zlen in *. cbn [length] in *. lia.
Qed.

Lemma list_snoc_case {A} (l : list A) : l = [] \/ exists k x, l = k ++ [x].
Proof. destruct l as [|x l _] using rev_ind; [by left|right; by exists l, x]. Qed.

(** A chain: every entry but the last has its low bit clear. *)
Definition chain_ok (c : list Z) : Prop :=
  exists body t, c = body ++ [t] /\ Forall (fun h => Z.even h = true) body /\ Z.odd t = true.

(** The symbol index each chain starts at. *)
Fixpoint chain_starts (off : Z) (chains : list (list Z)) : list Z :=
  match chains with [] => [] | c :: r => off :: chain_starts (off + zlen c) r end.

Lemma chain_starts_app off cs c :
  chain_starts off (cs ++ [c]) = chain_starts off cs ++ [off + zlen (concat cs)].
Proof.
  revert off. induction cs as [|x cs IH]; intros off; cbn [app chain_starts concat].
  - unfold zlen. cbn. by rewrite Z.add_0_r.
  - rewrite IH, zlen_app. do 3 f_equal. lia.
Qed.

Lemma chain_starts_le off cs s :
  s ∈ chain_starts off cs -> off <= s <= off + zlen (concat cs).
Proof.
  revert off. induction cs as [|c cs IH]; intros off; cbn [chain_starts concat].
  { by intros ?%elem_of_nil. }
  rewrite zlen_app. pose proof (zlen_nonneg c). pose proof (zlen_nonneg (concat cs)).
  intros [->|Hs%IH]%elem_of_cons; lia.
Qed.

Lemma fold_max_spec l x :
  (forall b, b ∈ l -> b <= fold_left Z.max l x) /\ x <= fold_left Z.max l x /\
  (fold_left Z.max l x = x \/ fold_left Z.max l x ∈ l).
Proof.
  revert x. induction l as [|b l IH]; intros x; cbn [fold_left].
  { split; [by intros ? ?%elem_of_nil|]. split; [lia|by left]. }
  destruct (IH (Z.max x b)) as (H1 & H2 & H3). split; [|split; [lia|]].
  - intros y [->|Hy]%elem_of_cons; [lia|auto].
  - rewrite elem_of_cons. destruct H3 as [->|?]; [|auto]. destruct (Z.max_spec x b); lia.
Qed.

Lemma read_t4_run a v (m : Memory U) :
  words4 (m_uc m) a [v] -> uc_do (read_t 4 (u64 a)) m = (Ret v, m).
Proof. intros Hw. rewrite <- (words4_read m a [v] 0 v Hw eq_refl). by rewrite Z.add_0_r. Qed.

(** The symbol count derived from a GNU hash table is right: for a table
    whose buckets are 0 or the start of a chain, whose chains (one after the
    other, each ended by its only odd entry) all have a bucket, the result is
    [symoffset] plus the number of hashed symbols, and the walk ends. *)
Lemma gnu_hash_nsyms_spec gh ptr symoffset bloom buckets chains (m : Memory U) :
  let bs_ := u64 (gh + 16 + bloom * ptr) in
  words4 (m_uc m) gh [zlen buckets; symoffset; bloom] ->
  words4 (m_uc m) bs_ buckets ->
  words4 (m_uc m) (u64 (bs_ + zlen buckets * 4)) (concat chains) ->
  Forall chain_ok chains ->
  (forall b, b ∈ buckets -> b = 0 \/ b ∈ chain_starts symoffset chains) ->
  (forall s, s ∈ chain_starts symoffset chains -> s ∈ buckets) ->
  0 < symoffset -> symoffset + zlen (concat chains) < 2 ^ 32 ->
  gnu_hash_nsyms gh ptr m = (Ret (symoffset + zlen (concat chains)), m).
Proof.
  intros bs_ Hh Hb Hc Hok Hbk Hst Hs Hlen. unfold gnu_hash_nsyms.
  assert (words4 (m_uc m) gh [zlen buckets]) as Hh0 by (intros [|j] v Hj; [by apply Hh|done]).
  pose proof (words4_tail _ _ _ _ Hh) as Hh'. pose proof (words4_tail _ _ _ _ Hh') as Hh2.
  assert (words4 (m_uc m) (gh + 4) [symoffset]) as Hh1
    by (intros [|j] v Hj; [by apply Hh'|done]).
  rewrite Z.add_0_r, (bind_run _ _ _ _ _ (read_t4_run _ _ _ Hh0)).
  rewrite (bind_run _ _ _ _ _ (read_t4_run _ _ _ Hh1)).
  replace (gh + 4 + 4) with (gh + 8) in Hh2 by lia.
  rewrite (bind_run _ _ _ _ _ (read_t4_run _ _ _ Hh2)). fold bs_.
  destruct (Hh0 0%nat _ eq_refl) as [Hnb _].
  rewrite (bind_run _ _ _ _ _ (gnu_last_bucket_run _ _ _ Hb ltac:(lia))).
  destruct (fold_max_spec buckets 0) as (Hmax & Hge & Hin). set (last := fold_left Z.max buckets 0) in *.
  destruct (list_snoc_case chains) as [->|(cs & c & ->)].
  - cbn [concat] in *. assert (last = 0) as ->.
    { destruct Hin as [?|Hin]; [done|]. destruct (Hbk _ Hin) as [?|?%elem_of_nil]; done. }
    rewrite (proj2 (Z.ltb_lt 0 _)) by lia. unfold zlen. cbn. by rewrite Z.add_0_r.
  - rewrite chain_starts_app in Hbk, Hst. rewrite concat_app in *. cbn [concat] in *.
    rewrite app_nil_r in *. set (s := symoffset + zlen (concat cs)) in *.
    assert (last = s) as ->.
    { assert (s <= last) by (apply Hmax, Hst, elem_of_app; right; apply list_elem_of_here).
      pose proof (zlen_nonneg (concat cs)). destruct Hin as [?|Hin]; [lia|].
      destruct (Hbk _ Hin) as [?|Hl]; [lia|]. apply elem_of_app in Hl as [Hl|Hl].
      - apply chain_starts_le in Hl. lia.
      - by apply list_elem_of_singleton in Hl. }
    rewrite (proj2 (Z.ltb_ge s _)) by (unfold s; pose proof (zlen_nonneg (concat cs)); lia).
    apply Forall_app in Hok as [_ Hc'].
    apply Forall_cons in Hc' as [Hc' _]. destruct Hc' as (body & t & -> & Hev & Ht).
    rewrite (bind_run _ _ _ _ _ (gnu_chain_end_run _ symoffset _ (concat cs) body t [] m Hc
      ltac:(by rewrite app_nil_r) Hev Ht ltac:(lia) Hlen)).
    unfold mret, M_mret, M_ret. do 2 f_equal. rewrite !zlen_app. unfold zlen. cbn. lia.
Qed.
End GnuHash.

(** ** A library on the reference emulator

    A 560-byte arm64 library: one loadable segment with 0x2000 bytes of
    memory, a defined symbol [JNI_OnLoad], an import [puts], and two RELA
    entries for the two slots of its [.init_array]. *)

Definition demo_q : Z -> list Z := le_bytes 8.
Definition demo_pad (n : nat) (l : list Z) : list Z := l ++ replicate (n - length l) 0.
Definition demo_ehdr : list Z :=
  elf_magic ++ [2; 1; 1] ++ replicate 9 0 ++ le_bytes 2 3 ++ le_bytes 2 183 ++ le_bytes 4 1
  ++ demo_q 0 ++ demo_q 64 ++ demo_q 0 ++ le_bytes 4 0 ++ le_bytes 2 64 ++ le_bytes 2 56
  ++ le_bytes 2 2 ++ le_bytes 2 64 ++ le_bytes 2 0 ++ le_bytes 2 0.
Definition demo_phdr (type off filesz memsz : Z) : list Z :=
  le_bytes 4 type ++ le_bytes 4 6 ++ demo_q off ++ demo_q off ++ demo_q off ++ demo_q filesz
  ++ demo_q memsz ++ demo_q 0x1000.
Definition demo_dynamic : list (Z * Z) :=
  [(DT_SYMTAB, 0x180); (DT_STRTAB, 0x1d0); (DT_HASH, 0x1f0); (DT_RELA, 0x200); (DT_RELASZ, 48);
   (DT_INIT_ARRAY, 0x230); (DT_INIT_ARRAYSZ, 16); (DT_NULL, 0)].
Definition demo_sym (name shndx value : Z) : list Z :=
  le_bytes 4 name ++ [0x12; 0] ++ le_bytes 2 shndx ++ demo_q value ++ demo_q 0.
Definition demo_so_with (filesz : Z) : list Z :=
  demo_pad 0x100 (demo_ehdr ++ demo_phdr PT_LOAD 0 filesz 0x2000
                  ++ demo_phdr PT_DYNAMIC 0x100 0x80 0x80)
  ++ List.flat_map (fun '(t, v) => demo_q t ++ demo_q v) demo_dynamic
  ++ demo_pad 0x50 (replicate 24 0 ++ demo_sym 1 1 0x500 ++ demo_sym 12 0 0)
  ++ demo_pad 0x20 ([0] ++ bs "JNI_OnLoad" ++ [0] ++ bs "puts" ++ [0])
  ++ demo_pad 16 (le_bytes 4 1 ++ le_bytes 4 3)
  ++ (demo_q 0x230 ++ demo_q 1027 ++ demo_q 0x600)
  ++ (demo_q 0x238 ++ demo_q (2 * 2 ^ 32 + 1025) ++ demo_q 0).
Definition demo_so : list Z := demo_so_with 560.
Definition demo_resolve (nm : list Z) : M (Memory RefUc) Z :=
  mret (if bool_decide (nm = bs "puts") then 0x9000 else 0).
Definition demo_load (data : list Z) : outcome SoInfo * Memory RefUc :=
  load_bytes (Some demo_resolve) data "libdemo.so" demo_mem0.

(** It loads, its slots relocated: one to the load bias plus 0x600, the other
    to the import. *)
Example demo_loads :
  match fst (demo_load demo_so) with
  | Ret so => base so = kLibBase64 /\ so_size so = 0x2000 /\ jni_onload so = kLibBase64 + 0x500 /\
              init_array so = [kLibBase64 + 0x600; 0x9000]
  | _ => False
  end.
Proof. vm_compute. done. Qed.

(** A segment that claims one byte more than the file has is read past the
    file's buffer: nothing compares [p_offset + p_filesz] with its size. *)
Example filesz_unchecked : fst (demo_load (demo_so_with 561)) = UB.
Proof. vm_compute. reflexivity. Qed.

(** The bound of [read_at] wraps around for an offset near 2^64. *)
Example read_at_wraps : read_at 56 demo_so (2 ^ 64 - 8) = UB.
Proof. vm_compute. reflexivity. Qed.

Lemma load_bytes_wf_witness :
  mem_wf (snd (load_bytes (Some demo_resolve) demo_so "libdemo.so" demo_mem0)).
Proof.
  refine (load_bytes_wf (Some demo_resolve) demo_so "libdemo.so" _ demo_mem0
            (fst (load_bytes (Some demo_resolve) demo_so "libdemo.so" demo_mem0)) _ _ _).
  - intros f nm [= <-]. apply preserves_ret.
  - split; constructor.
  - apply surjective_pairing.
Defined.

Definition demo_segments : Segments :=
  match scan_phdrs true demo_so (ehdr_of true (take 64 demo_so)) 2 0 no_segments with
  | Ret sg => sg
  | _ => no_segments
  end.
Definition demo_mapped : Memory RefUc := snd (map_lib 0x2000 UC_PROT_ALL "libdemo.so" demo_mem0).

Lemma segments_placed_witness :
  exists u', for_each (write_segment demo_so kLibBase64) (loads demo_segments) demo_mapped
             = (Ret tt, with_m_uc demo_mapped u') /\
    forall ph, ph ∈ loads demo_segments ->
      let a := u64 (kLibBase64 + p_vaddr ph) in
      kLibBase64 <= a /\ a + p_memsz ph <= kLibBase64 + 0x2000 /\
      uc_mem_read u' a (p_filesz ph) = slice demo_so (p_offset ph) (Z.to_nat (p_filesz ph)).
Proof.
  apply (segments_placed true demo_so (ehdr_of true (take 64 demo_so)) 2 demo_segments
           "libdemo.so" kLibBase64 demo_mem0 demo_mapped).
  - apply bytes_okb_ok. vm_compute. reflexivity.
  - vm_compute. reflexivity.
  - repeat apply Forall_cons_2; [|apply Forall_nil_2].
    vm_compute. repeat split; discriminate || reflexivity.
  - vm_compute. repeat constructor.
  - vm_compute. reflexivity.
Defined.

(** Two chains of two and three symbols, three buckets, one of them empty. *)
Definition demo_gnu : Memory RefUc := init_memory Arm64 false
  (mkRefUc [(0x10000, 0x1000)]
     (mem_store ∅ 0x10000 (List.flat_map (le_bytes 4) ([3; 1; 1; 0; 0; 0] ++ [1; 0; 3] ++ [2; 5; 4; 4; 7])))
     (fun _ => 0)).

Lemma gnu_hash_nsyms_spec_witness : gnu_hash_nsyms 0x10000 8 demo_gnu = (Ret 6, demo_gnu).
Proof.
  apply (gnu_hash_nsyms_spec 0x10000 8 1 1 [1; 0; 3] [[2; 5]; [4; 4; 7]] demo_gnu).
  1-3: repeat first [apply words4_nil|apply words4_cons; [reflexivity|vm_compute; reflexivity|]].
  - repeat apply Forall_cons_2; [| |apply Forall_nil_2].
    + exists [2], 5. split; [done|]. split; [|done]. by repeat apply Forall_cons_2.
    + exists [4; 4], 7. split; [done|]. split; [|done]. by repeat apply Forall_cons_2.
  - intros b Hb. cbn [chain_starts] in *. rewrite !elem_of_cons in *.
    change (1 + zlen [2; 5]) with 3. tauto.
  - intros s Hs. cbn [chain_starts] in *. change (1 + zlen [2; 5]) with 3 in Hs.
    rewrite !elem_of_cons in *. tauto.
  - done.
  - done.
Defined.
