(* ===== verification/DexFile.v ===== *)
(** The DEX reader: [core/dex/dex_file.cpp], [include/vardoger/dex/dex_file.hpp].

    Strings are byte strings (MUTF-8 is read raw).  Offsets keep the width
    the code computes them in: 32 bits for [string_at], [type_at] and
    [code_at], 64 for the id tables.  A [memcpy] from outside the buffer is
    undefined behaviour. *)

From S2P Require Import Prelude.
From S2P Require Import Words.

Definition kNoIndex : Z := 0xffffffff.

(** [memcpy(&v, d + o, n)] behind a check that it is inside [d]. *)
Definition rd (n : nat) (d : list Z) (o : Z) : Z :=
  match slice d o n with Some l => le_val l | None => 0 end.
Definition rd32 (d : list Z) (o : Z) : Z := rd 4 d o.

(** At most [n] more bytes from [p] on, each contributing 7 bits. *)
Fixpoint uleb_loop (n : nat) (d : list Z) (p shift result : Z) : Z * Z :=
  match n with
  | O => (result, p)
  | S k =>
      match znth d p with
      | Some b =>
          let result' := Z.lor result (u32 (Z.shiftl (Z.land b 0x7f) shift)) in
          if Z.land b 0x80 =? 0 then (result', u32 (p + 1))
          else uleb_loop k d (u32 (p + 1)) (shift + 7) result'
      | None => (result, p)
      end
  end.
(** The value and the position after it. *)
Definition uleb (d : list Z) (p : Z) : Z * Z := uleb_loop 5 d p 0 0.

Record Code := mkCode {
  registers_size : Z;
  ins_size : Z;
  outs_size : Z;
  insns_off : Z;
  insns_size : Z;
  c_valid : bool;
}.
Definition no_code : Code := mkCode 0 0 0 0 0 false.

Record Method := mkMethod {
  m_cls : list Z;
  m_name : list Z;
  m_sig : list Z;
  m_access : Z;
  m_code_off : Z;
}.
Definition no_method : Method := mkMethod [] [] [] 0 0.

Record Field := mkField { f_cls : list Z; f_name : list Z; f_type : list Z }.

Record ClassDef := mkClassDef {
  descriptor : list Z;
  superclass : list Z;
  access : Z;
  class_data_off : Z;
  direct_methods : list Method;
  virtual_methods : list Method;
}.

Record DexFile := mkDexFile {
  d_ : list Z;
  valid_ : bool;
  err_ : string;
  string_ids_off_ : Z; string_ids_size_ : Z;
  type_ids_off_ : Z; type_ids_size_ : Z;
  proto_ids_off_ : Z; proto_ids_size_ : Z;
  field_ids_off_ : Z; field_ids_size_ : Z;
  method_ids_off_ : Z; method_ids_size_ : Z;
  class_defs_off_ : Z; class_defs_size_ : Z;
  classes_ : list ClassDef;
}.

Definition code_at (x : DexFile) (code_off : Z) : outcome Code :=
  let d := d_ x in
  if (code_off =? 0) || (zlen d <? u32 (code_off + 16)) then Ret no_code else
  rs ← or_ub (slice d code_off 2);
  ins ← or_ub (slice d (code_off + 2) 2);
  os ← or_ub (slice d (code_off + 4) 2);
  n ← or_ub (slice d (code_off + 12) 4);
  let off := u32 (code_off + 16) in
  Ret (mkCode (le_val rs) (le_val ins) (le_val os) off (le_val n)
              (off + le_val n * 2 <=? zlen d)).

(** [while (p < d_.size() && d_[p]) s += char(d_[p++]);] *)
Fixpoint c_string (l : list Z) : list Z :=
  match l with
  | [] => []
  | b :: r => if b =? 0 then [] else b :: c_string r
  end.

Definition string_at (x : DexFile) (idx : Z) : list Z :=
  if string_ids_size_ x <=? idx then [] else
  let data_off := rd32 (d_ x) (u32 (string_ids_off_ x + u32 (idx * 4))) in
  if zlen (d_ x) <=? data_off then [] else
  let '(_, p) := uleb (d_ x) data_off in
  c_string (drop (Z.to_nat p) (d_ x)).

Definition type_at (x : DexFile) (idx : Z) : list Z :=
  if (idx =? kNoIndex) || (type_ids_size_ x <=? idx) then [] else
  string_at x (rd32 (d_ x) (u32 (type_ids_off_ x + u32 (idx * 4)))).

(** The 8 bytes [u16, u16, u32] of an id-table row, zeros when it is cut off. *)
Definition id_row (d : list Z) (o : Z) : Z * Z * Z :=
  if o + 8 <=? zlen d then (rd 2 d o, rd 2 d (o + 2), rd32 d (o + 4)) else (0, 0, 0).

Definition proto_shorty (x : DexFile) (proto_idx : Z) : list Z :=
  if proto_idx <? proto_ids_size_ x
  then string_at x (rd32 (d_ x) (proto_ids_off_ x + proto_idx * 12)) else [].

Definition method_at (x : DexFile) (method_idx : Z) : Method :=
  if method_ids_size_ x <=? method_idx then no_method else
  let '(cls_idx, proto_idx, name_idx) := id_row (d_ x) (method_ids_off_ x + method_idx * 8) in
  mkMethod (type_at x cls_idx) (string_at x name_idx) (proto_shorty x proto_idx) 0 0.

Definition field_at (x : DexFile) (field_idx : Z) : Field :=
  if field_ids_size_ x <=? field_idx then mkField [] [] [] else
  let '(cls_idx, type_idx, name_idx) := id_row (d_ x) (field_ids_off_ x + field_idx * 8) in
  mkField (type_at x cls_idx) (string_at x name_idx) (type_at x type_idx).

(** [for (char& c : s) if (c == a) c = b;] *)
Definition replace_char (a b : Z) (s : list Z) : list Z :=
  (fun c => if c =? a then b else c) <$> s.

Definition descriptor_to_binary (desc : list Z) : list Z :=
  if (2 <=? zlen desc) && bool_decide (head desc = Some 76) && bool_decide (last desc = Some 59)
  then replace_char 47 46 (take (length desc - 2) (drop 1 desc))
  else desc.

Definition has_char (c : Z) (s : list Z) : bool := existsb (fun x => x =? c) s.

Definition binary_to_descriptor (bin : list Z) : list Z :=
  if negb (bool_decide (bin = [])) && negb (has_char 47 bin) && has_char 46 bin
  then 76 :: replace_char 46 47 bin ++ [59]
  else if negb (bool_decide (bin = [])) && negb (bool_decide (head bin = Some 76))
  then 76 :: bin ++ [59]
  else bin.

(** The row of [method_ids] and the class-data entry, with the accumulated
    index and the position after the entry. *)
Definition decode_method (x : DexFile) (acc p : Z) : Method * Z * Z :=
  let '(diff, p1) := uleb (d_ x) p in
  let '(acs, p2) := uleb (d_ x) p1 in
  let '(off, p3) := uleb (d_ x) p2 in
  let idx := u32 (acc + diff) in
  let m := method_at x idx in
  (mkMethod (m_cls m) (m_name m) (m_sig m) acs off, idx, p3).

Fixpoint decode_methods (n : nat) (x : DexFile) (acc p : Z) : list Method * Z :=
  match n with
  | O => ([], p)
  | S k => let '(m, acc', p') := decode_method x acc p in
           let '(l, q) := decode_methods k x acc' p' in (m :: l, q)
  end.

Fixpoint skip_fields (n : nat) (d : list Z) (p : Z) : Z :=
  match n with
  | O => p
  | S k => skip_fields k d (snd (uleb d (snd (uleb d p))))
  end.

Definition parse_class_data (x : DexFile) (c : ClassDef) : ClassDef :=
  let p := class_data_off c in
  if (p =? 0) || (zlen (d_ x) <=? p) then c else
  let '(static_fields, p) := uleb (d_ x) p in
  let '(instance_fields, p) := uleb (d_ x) p in
  let '(nd, p) := uleb (d_ x) p in
  let '(nv, p) := uleb (d_ x) p in
  let p := skip_fields (Z.to_nat (u32 (static_fields + instance_fields))) (d_ x) p in
  let '(dm, p) := decode_methods (Z.to_nat nd) x 0 p in
  let '(vm, _) := decode_methods (Z.to_nat nv) x 0 p in
  mkClassDef (descriptor c) (superclass c) (access c) (class_data_off c)
             (direct_methods c ++ dm) (virtual_methods c ++ vm).

(** One turn of the loop over [class_defs]. *)
Definition read_class (x : DexFile) (i : Z) : ClassDef :=
  let o := class_defs_off_ x + i * 32 in
  parse_class_data x
    (mkClassDef (type_at x (rd32 (d_ x) o)) (type_at x (rd32 (d_ x) (o + 8)))
                (rd32 (d_ x) (o + 4)) (rd32 (d_ x) (o + 24)) [] []).

Definition with_classes (x : DexFile) (v : bool) (e : string) (l : list ClassDef) : DexFile :=
  mkDexFile (d_ x) v e (string_ids_off_ x) (string_ids_size_ x) (type_ids_off_ x)
    (type_ids_size_ x) (proto_ids_off_ x) (proto_ids_size_ x) (field_ids_off_ x)
    (field_ids_size_ x) (method_ids_off_ x) (method_ids_size_ x) (class_defs_off_ x)
    (class_defs_size_ x) l.

(** The header fields of [data], classes not read yet. *)
Definition read_header (data : list Z) : DexFile :=
  let r := rd32 data in
  mkDexFile data false "" (r 0x3c) (r 0x38) (r 0x44) (r 0x40) (r 0x4c) (r 0x48)
    (r 0x54) (r 0x50) (r 0x5c) (r 0x58) (r 0x64) (r 0x60) [].

(** [DexFile] before and after [parse]; a failed check keeps the tables of
    the previous file. *)
Definition parse (x : DexFile) (data : list Z) : bool * DexFile :=
  if (zlen data <? 0x70) || negb (bool_decide (take 4 data = bs "dex" ++ [10]))
  then (false, with_classes (mkDexFile data false "" (string_ids_off_ x) (string_ids_size_ x)
          (type_ids_off_ x) (type_ids_size_ x) (proto_ids_off_ x) (proto_ids_size_ x)
          (field_ids_off_ x) (field_ids_size_ x) (method_ids_off_ x) (method_ids_size_ x)
          (class_defs_off_ x) (class_defs_size_ x) []) false "bad magic/too small" [])
  else
  let h := read_header data in
  if zlen data <? class_defs_off_ h + class_defs_size_ h * 32
  then (false, with_classes h false "class_defs OOB" [])
  else (true, with_classes h true ""
                (read_class h <$> seqZ 0 (class_defs_size_ h))).

Definition empty_dex : DexFile := mkDexFile [] false "" 0 0 0 0 0 0 0 0 0 0 0 0 [].

(** ** Reading uleb128 *)

Lemma znth_lt {A} (l : list A) i x : znth l i = Some x -> 0 <= i < zlen l.
Proof.
  unfold znth. destruct (Z.leb_spec 0 i); [|done]. intros Hl%lookup_lt_Some.
  unfold zlen. lia.
Qed.

Lemma uleb_loop_pos n d p sh r :
  0 <= p -> zlen d < 2 ^ 32 ->
  let q := snd (uleb_loop n d p sh r) in p <= q <= p + Z.of_nat n /\ q <= Z.max p (zlen d).
Proof.
  revert p sh r. induction n as [|n IH]; intros p sh r Hp Hd; [simpl; lia|].
  cbn [uleb_loop]. destruct (znth d p) as [b|] eqn:E; [|simpl; lia].
  apply znth_lt in E. rewrite (u32_id (p + 1)) by lia. destruct (_ =? 0); [simpl; lia|].
  specialize (IH (p + 1) (sh + 7) (Z.lor r (u32 (Z.shiftl (Z.land b 127) sh)))
                ltac:(lia) Hd). simpl in IH. lia.
Qed.

Lemma uleb_loop_val n d p sh r :
  0 <= r < 2 ^ 32 -> 0 <= fst (uleb_loop n d p sh r) < 2 ^ 32.
Proof.
  revert p sh r. induction n as [|n IH]; intros p sh r Hr; [done|]. cbn [uleb_loop].
  destruct (znth d p) as [b|]; [|done].
  pose proof (lor_u32 r (u32 (Z.shiftl (Z.land b 127) sh)) Hr (u32_range _)).
  destruct (_ =? 0); [done|]. by apply IH.
Qed.

(** Reading a uleb128 is total and bounded: from a position inside or
    past a buffer of under 4 GiB it consumes at most five bytes, never moves
    past the end, and its value fits 32 bits. *)
Lemma uleb_bounds d p :
  0 <= p -> zlen d < 2 ^ 32 ->
  0 <= fst (uleb d p) < 2 ^ 32 /\ p <= snd (uleb d p) <= p + 5 /\
  snd (uleb d p) <= Z.max p (zlen d).
Proof.
  intros Hp Hd. pose proof (uleb_loop_pos 5 d p 0 0 Hp Hd) as Hq.
  cbv zeta in Hq. split; [by apply uleb_loop_val|]. unfold uleb. lia.
Qed.

(** ** Code items *)

(** [code_at] on an offset below 2^32 - 16 reads inside the buffer,
    whatever the file says; and a code item it calls valid has its whole
    instruction stream inside the file. *)
Lemma code_at_in_bounds x off :
  0 <= off < 2 ^ 32 - 16 -> bytes_ok (d_ x) ->
  exists c, code_at x off = Ret c /\
    (c_valid c = true -> 0 < off /\ insns_off c = off + 16 /\
       0 <= insns_size c < 2 ^ 32 /\
       forall i, 0 <= i < insns_size c -> is_Some (slice (d_ x) (insns_off c + 2 * i) 2)).
Proof.
  intros Hoff Hd. unfold code_at. rewrite u32_id by lia.
  destruct (Z.eqb_spec off 0), (Z.ltb_spec (zlen (d_ x)) (off + 16)); simpl;
    try (exists no_code; split; [done|by intros [=]]).
  destruct (slice_is_Some (d_ x) off 2) as [rs ->]; [lia..|].
  destruct (slice_is_Some (d_ x) (off + 2) 2) as [ins ->]; [lia..|].
  destruct (slice_is_Some (d_ x) (off + 4) 2) as [os ->]; [lia..|].
  destruct (slice_is_Some (d_ x) (off + 12) 4) as [sz En]; [lia..|]. rewrite En. simpl.
  eexists. split; [done|]. simpl. intros Hv%Z.leb_le.
  pose proof (le_val_range sz (bytes_ok_slice _ _ _ _ Hd En)) as Hn.
  unfold zlen at 1 in Hn. rewrite (slice_length _ _ _ _ En) in Hn.
  split; [lia|]. split; [done|]. split; [done|]. intros i Hi. apply slice_is_Some; lia.
Qed.

(** The bound is needed: [code_off + 16] is computed in 32 bits, so an offset
    in the last 16 values wraps past the check and the first read is outside
    the buffer. *)
Lemma code_at_wraps x off :
  2 ^ 32 - 16 <= off < 2 ^ 32 -> 16 <= zlen (d_ x) < off -> code_at x off = UB.
Proof.
  intros Hoff Hsz. unfold code_at.
  assert (u32 (off + 16) = off + 16 - 2 ^ 32) as ->.
  { unfold u32. symmetry. apply (Z.mod_unique_pos _ _ 1); lia. }
  destruct (Z.eqb_spec off 0), (Z.ltb_spec (zlen (d_ x)) (off + 16 - 2 ^ 32)); try lia.
  assert (slice (d_ x) off 2 = None) as ->; [|done].
  unfold slice. destruct (Z.leb_spec (off + Z.of_nat 2) (zlen (d_ x))); [lia|].
  by rewrite andb_false_r.
Qed.

(** ** Descriptors *)

Lemma has_char_false c s : has_char c s = false <-> c ∉ s.
Proof.
  unfold has_char. rewrite <- not_true_iff_false, existsb_exists. split.
  - intros Hn Hin. apply Hn. exists c. split; [by apply list_elem_of_In|]. apply Z.eqb_refl.
  - intros Hn (y & Hin & ->%Z.eqb_eq). by apply Hn, list_elem_of_In.
Qed.

Lemma has_char_true c s : c ∈ s -> has_char c s = true.
Proof. intros Hin. destruct (has_char c s) eqn:E; [done|]. by apply has_char_false in E. Qed.

Lemma replace_char_back a b s : b ∉ s -> replace_char b a (replace_char a b s) = s.
Proof.
  unfold replace_char. induction s as [|c s IH]; [done|].
  intros [Hb Hs]%not_elem_of_cons. rewrite !fmap_cons, IH by done. f_equal.
  destruct (Z.eqb_spec c a) as [->|]; [by rewrite Z.eqb_refl|].
  destruct (Z.eqb_spec c b); congruence.
Qed.

Lemma replace_char_elem a b s c : c ∈ replace_char a b s <-> (c = b /\ a ∈ s) \/ (c <> a /\ c ∈ s).
Proof.
  unfold replace_char. rewrite list_elem_of_fmap. split.
  - intros (y & -> & Hy). destruct (Z.eqb_spec y a) as [->|]; [by left|by right].
  - intros [[-> Ha]|[Hne Hc]].
    + exists a. by rewrite Z.eqb_refl.
    + exists c. destruct (Z.eqb_spec c a); done.
Qed.

Lemma descriptor_to_binary_class s :
  descriptor_to_binary (76 :: s ++ [59]) = replace_char 47 46 s.
Proof.
  unfold descriptor_to_binary.
  assert (2 <= zlen (76 :: s ++ [59])) as Hl
    by (unfold zlen; simpl; rewrite length_app; simpl; lia).
  rewrite (proj2 (Z.leb_le _ _)) by done.
  assert (last (76 :: s ++ [59]) = Some 59) as -> by exact (last_snoc 59 (76 :: s)).
  rewrite !bool_decide_true by done. cbn [andb].
  change (drop 1 (76 :: s ++ [59])) with (s ++ [59]).
  replace (length (76%Z :: s ++ [59%Z]) - 2)%nat with (length s)
    by (cbn [length]; rewrite length_app; simpl; lia).
  by rewrite take_app_length.
Qed.

(** The two name formats agree: a class descriptor with a package turned
    into a Java binary name and back is the same descriptor. *)
Lemma descriptor_roundtrip s :
  47 ∈ s -> 46 ∉ s ->
  binary_to_descriptor (descriptor_to_binary (76 :: s ++ [59])) = 76 :: s ++ [59].
Proof.
  intros H47 H46. rewrite descriptor_to_binary_class. unfold binary_to_descriptor.
  rewrite bool_decide_false; [|by destruct s; [apply elem_of_nil in H47|]].
  rewrite (proj2 (has_char_false 47 _)).
  - rewrite has_char_true by (apply replace_char_elem; by left).
    simpl. by rewrite replace_char_back.
  - rewrite replace_char_elem. intros [[[=] _]|[? _]]. done.
Qed.

(** In the default package it is lost when the name starts with an L. *)
Lemma descriptor_default_package s :
  46 ∉ s -> 47 ∉ s ->
  binary_to_descriptor (descriptor_to_binary (76 :: (76 :: s) ++ [59])) = 76 :: s.
Proof.
  intros H46 H47. rewrite descriptor_to_binary_class.
  assert (forall l, 47 ∉ l -> replace_char 47 46 l = l) as Hid.
  { induction l as [|c l IH]; [done|]. intros [Hc Hl]%not_elem_of_cons.
    unfold replace_char in *. rewrite fmap_cons, IH by done.
    destruct (Z.eqb_spec c 47); congruence. }
  rewrite Hid by (apply not_elem_of_cons; done). unfold binary_to_descriptor.
  rewrite (proj2 (has_char_false 46 _)) by (apply not_elem_of_cons; done).
  rewrite andb_false_r. done.
Qed.

(** ** Whole files *)

Lemma decode_methods_length n x acc p : length (fst (decode_methods n x acc p)) = n.
Proof.
  revert acc p. induction n as [|n IH]; intros acc p; [done|]. cbn [decode_methods].
  destruct (decode_method x acc p) as [[m acc'] p'].
  specialize (IH acc' p'). destruct (decode_methods n x acc' p') as [l q].
  simpl in *. by rewrite IH.
Qed.

(** [parse] accepts exactly the buffers with the magic, a full header and
    a class table inside the file; then there is one class per row, each
    read from its own 32 bytes inside the file.  A rejected buffer leaves no
    classes and an invalid object. *)
Lemma parse_spec x data :
  bytes_ok data ->
  (fst (parse x data) = true <->
     0x70 <= zlen data /\ take 4 data = [100; 101; 120; 10] /\
     rd32 data 0x64 + rd32 data 0x60 * 32 <= zlen data) /\
  valid_ (snd (parse x data)) = fst (parse x data) /\ d_ (snd (parse x data)) = data /\
  (if fst (parse x data)
   then zlen (classes_ (snd (parse x data))) = rd32 data 0x60 /\
        forall i, 0 <= i < rd32 data 0x60 ->
          znth (classes_ (snd (parse x data))) i = Some (read_class (read_header data) i) /\
          is_Some (slice data (rd32 data 0x64 + i * 32) 32)
   else classes_ (snd (parse x data)) = []).
Proof.
  intros Hd.
  assert (forall o, 0 <= rd32 data o < 2 ^ 32) as Hrd.
  { intros o. unfold rd32, rd. destruct (slice data o 4) as [l|] eqn:E; [|lia].
    pose proof (le_val_range l (bytes_ok_slice _ _ _ _ Hd E)) as Hn.
    unfold zlen in Hn. by rewrite (slice_length _ _ _ _ E) in Hn. }
  unfold parse. change (bs "dex" ++ [10]) with [100; 101; 120; 10].
  destruct (Z.ltb_spec (zlen data) 0x70) as [Hs|Hs].
  { simpl. split; [|done]. split; [done|]. lia. }
  destruct (bool_decide (take 4 data = [100; 101; 120; 10])) eqn:Em; simpl orb; cbv iota.
  2: { apply bool_decide_eq_false in Em. simpl. split; [|done]. split; [done|]. tauto. }
  apply bool_decide_eq_true in Em. cbn [class_defs_off_ class_defs_size_ read_header].
  destruct (Z.ltb_spec (zlen data) (rd32 data 0x64 + rd32 data 0x60 * 32)) as [Hf|Hf];
    cbn [fst snd valid_ d_ classes_ with_classes read_header].
  { split; [|done]. split; [done|]. lia. }
  split; [tauto|]. split; [done|]. split; [done|].
  pose proof (Hrd 0x60). pose proof (Hrd 0x64). split.
  { unfold zlen. rewrite length_fmap, length_seqZ. lia. }
  intros i Hi. split; [|apply slice_is_Some; lia].
  unfold znth. rewrite (proj2 (Z.leb_le _ _)) by lia. rewrite list_lookup_fmap.
  rewrite lookup_seqZ_lt by lia. simpl. by rewrite Z2Nat.id by lia.
Qed.

(** ** Instances *)

(** A header-only file with no tables. *)
Definition demo_dex : list Z := [100; 101; 120; 10] ++ replicate 0x6c 0.

Lemma demo_dex_ok : bytes_ok demo_dex.
Proof.
  apply Forall_app. split; [by repeat constructor|]. by apply Forall_replicate.
Qed.

Lemma parse_spec_witness :
  fst (parse empty_dex demo_dex) = true /\ classes_ (snd (parse empty_dex demo_dex)) = [].
Proof.
  destruct (parse_spec empty_dex demo_dex demo_dex_ok) as (Hok & _ & _ & Hcl).
  assert (fst (parse empty_dex demo_dex) = true) as E by (vm_compute; reflexivity).
  rewrite E in Hcl. split; [done|]. destruct Hcl as [Hl _].
  change (rd32 demo_dex 0x60) with 0 in Hl.
  destruct (classes_ (snd (parse empty_dex demo_dex))); [done|discriminate].
Defined.

Lemma uleb_bounds_witness :
  0 <= fst (uleb [0xe5; 0x8e; 0x26; 0x7f] 0) < 2 ^ 32 /\
  0 <= snd (uleb [0xe5; 0x8e; 0x26; 0x7f] 0) <= 5 /\
  snd (uleb [0xe5; 0x8e; 0x26; 0x7f] 0) <= 4.
Proof. apply (uleb_bounds [0xe5; 0x8e; 0x26; 0x7f] 0); [lia|by vm_compute]. Defined.

Example uleb_624485 : uleb [0xe5; 0x8e; 0x26; 0x7f] 0 = (624485, 3).
Proof. reflexivity. Qed.

(** A code item with two code units at offset 16. *)
Definition demo_code : DexFile :=
  with_classes (snd (parse empty_dex ([100; 101; 120; 10] ++ replicate 12 0
    ++ le_bytes 2 3 ++ le_bytes 2 1 ++ replicate 8 0 ++ le_bytes 4 2 ++ [0; 0; 14; 0])))
    true "" [].

Lemma code_at_in_bounds_witness :
  exists c, code_at demo_code 16 = Ret c /\ c_valid c = true /\
    forall i, 0 <= i < insns_size c -> is_Some (slice (d_ demo_code) (insns_off c + 2 * i) 2).
Proof.
  destruct (code_at_in_bounds demo_code 16) as (c & E & Hc);
    [lia|vm_compute; by repeat constructor|].
  assert (c_valid c = true) as Hv by (vm_compute in E; injection E as <-; reflexivity).
  exists c. split; [done|]. split; [done|]. by apply Hc.
Defined.

Lemma descriptor_roundtrip_witness :
  binary_to_descriptor (descriptor_to_binary (bs "Lcom/foo/Bar;")) = bs "Lcom/foo/Bar;" /\
  descriptor_to_binary (bs "Lcom/foo/Bar;") = bs "com.foo.Bar".
Proof.
  split; [|reflexivity].
  apply (descriptor_roundtrip (bs "com/foo/Bar")).
  - apply (list_elem_of_lookup_2 _ 3%nat). reflexivity.
  - apply has_char_false. reflexivity.
Defined.
