(* ===== verification/Sha1.v ===== *)
(** The SHA-1 of the DEX rebuilder ([DexRebuilder::sha1] in
    [include/vardoger/dex/rebuilder.hpp]), on 32-bit words kept in
    [0, 2^32). *)

From S2P Require Import Prelude.
From S2P Require Import Words.

Definition rol (v c : Z) : Z := Z.lor (u32 (Z.shiftl v c)) (Z.shiftr v (32 - c)).

(** [w[i]] for [i < 16]: a big-endian word of the block. *)
Definition be32 (p : list Z) (i : nat) : Z :=
  let b k := nth (i * 4 + k) p 0 in
  Z.lor (Z.lor (Z.lor (u32 (Z.shiftl (b 0%nat) 24)) (Z.shiftl (b 1%nat) 16))
               (Z.shiftl (b 2%nat) 8)) (b 3%nat).

(** The message schedule, newest word first. *)
Fixpoint extend (n : nat) (w : list Z) : list Z :=
  match n with
  | O => w
  | S k =>
      let at_ i := nth i w 0 in
      extend k (rol (Z.lxor (Z.lxor (Z.lxor (at_ 2%nat) (at_ 7%nat)) (at_ 13%nat)) (at_ 15%nat)) 1
                :: w)
  end.
Definition schedule (p : list Z) : list Z := rev (extend 64 (rev (be32 p <$> seq 0 16))).

Definition not32 (x : Z) : Z := Z.lxor x 0xffffffff.

Definition round_fk (i : nat) (b c d : Z) : Z * Z :=
  if (i <? 20)%nat then (Z.lor (Z.land b c) (Z.land (not32 b) d), 0x5A827999)
  else if (i <? 40)%nat then (Z.lxor (Z.lxor b c) d, 0x6ED9EBA1)
  else if (i <? 60)%nat
  then (Z.lor (Z.lor (Z.land b c) (Z.land b d)) (Z.land c d), 0x8F1BBCDC)
  else (Z.lxor (Z.lxor b c) d, 0xCA62C1D6).

Record Hash := mkHash { h0 : Z; h1 : Z; h2 : Z; h3 : Z; h4 : Z }.

Definition round (v : Hash) (iw : nat * Z) : Hash :=
  let '(i, w) := iw in
  let '(f, k) := round_fk i (h1 v) (h2 v) (h3 v) in
  mkHash (u32 (rol (h0 v) 5 + f + h4 v + k + w)) (h0 v) (rol (h1 v) 30) (h2 v) (h3 v).

(** [blk(p)]. *)
Definition sha1_block (h : Hash) (p : list Z) : Hash :=
  let v := fold_left round (zip (seq 0 80) (schedule p)) h in
  mkHash (u32 (h0 h + h0 v)) (u32 (h1 h + h1 v)) (u32 (h2 h + h2 v)) (u32 (h3 h + h3 v))
         (u32 (h4 h + h4 v)).

Definition init_hash : Hash :=
  mkHash 0x67452301 0xEFCDAB89 0x98BADCFE 0x10325476 0xC3D2E1F0.

(** [while (m.size() % 64 != 56) m.push_back(0);] *)
Fixpoint pad_loop (fuel : nat) (m : list Z) : list Z :=
  match fuel with
  | O => m
  | S k => if zlen m mod 64 =? 56 then m else pad_loop k (m ++ [0])
  end.

Definition pad (data : list Z) : list Z :=
  let bits := u64 (zlen data * 8) in
  pad_loop 64 (data ++ [0x80]) ++ ((fun i => u8 (Z.shiftr bits (56 - i * 8))) <$> seqZ 0 8).

Fixpoint blocks (n : nat) (h : Hash) (m : list Z) : Hash :=
  match n with
  | O => h
  | S k => blocks k (sha1_block h (take 64 m)) (drop 64 m)
  end.

Definition be_bytes (x : Z) : list Z :=
  [u8 (Z.shiftr x 24); u8 (Z.shiftr x 16); u8 (Z.shiftr x 8); u8 x].

Definition sha1 (data : list Z) : list Z :=
  let m := pad data in
  let h := blocks (length m / 64) init_hash m in
  be_bytes (h0 h) ++ be_bytes (h1 h) ++ be_bytes (h2 h) ++ be_bytes (h3 h) ++ be_bytes (h4 h).

Lemma sha1_length data : length (sha1 data) = 20%nat.
Proof. done. Qed.

Lemma sha1_bytes_ok data : bytes_ok (sha1 data).
Proof. unfold sha1, be_bytes. repeat constructor; apply u8_range. Qed.

Lemma pad_loop_spec fuel m :
  (56 - zlen m) mod 64 < Z.of_nat fuel ->
  pad_loop fuel m = m ++ replicate (Z.to_nat ((56 - zlen m) mod 64)) 0.
Proof.
  revert m. induction fuel as [|f IH]; intros m Hf.
  { pose proof (Z.mod_pos_bound (56 - zlen m) 64 ltac:(lia)). lia. }
  cbn [pad_loop]. destruct (Z.eqb_spec (zlen m mod 64) 56) as [E|E].
  { rewrite Zminus_mod, E. simpl. by rewrite app_nil_r. }
  assert (zlen (m ++ [0]) = zlen m + 1) as Hl by (rewrite zlen_app; reflexivity).
  assert (0 < (56 - zlen m) mod 64 < 64) as Hpos.
  { pose proof (Z.mod_pos_bound (56 - zlen m) 64 ltac:(lia)).
    destruct (decide ((56 - zlen m) mod 64 = 0)) as [E2|]; [|lia]. exfalso. apply E.
    replace (zlen m) with (56 - (56 - zlen m)) by lia. by rewrite Zminus_mod, E2. }
  assert ((56 - zlen (m ++ [0])) mod 64 = (56 - zlen m) mod 64 - 1) as Hm.
  { rewrite Hl. replace (56 - (zlen m + 1)) with (56 - zlen m - 1) by lia.
    rewrite <- Zminus_mod_idemp_l. rewrite Z.mod_small; lia. }
  rewrite IH by lia. rewrite Hm, <- app_assoc. f_equal.
  replace (Z.to_nat ((56 - zlen m) mod 64))
    with (S (Z.to_nat ((56 - zlen m) mod 64 - 1))) by lia. done.
Qed.

(** The padding terminates and fills whole blocks: the message is
    followed by 0x80, fewer than 64 zeros and its bit length in 8 bytes, to
    a multiple of 64 bytes. *)
Lemma pad_spec data :
  exists k, (k < 64)%nat /\
    pad data = data ++ [0x80] ++ replicate k 0 ++
               ((fun i => u8 (Z.shiftr (u64 (zlen data * 8)) (56 - i * 8))) <$> seqZ 0 8) /\
    zlen (pad data) mod 64 = 0.
Proof.
  pose proof (Z.mod_pos_bound (56 - zlen (data ++ [0x80])) 64 ltac:(lia)) as Hb.
  unfold pad. cbv zeta. rewrite pad_loop_spec by lia.
  exists (Z.to_nat ((56 - zlen (data ++ [0x80])) mod 64)). split; [lia|].
  split; [by rewrite <- !app_assoc|].
  rewrite !(zlen_app _ (_ <$> _)), (zlen_app (data ++ _)).
  set (n := zlen (data ++ [0x80])) in *. change (zlen (_ <$> seqZ 0 8)) with 8.
  unfold zlen at 1. rewrite length_replicate, Z2Nat.id by lia.
  rewrite <- Z.add_mod_idemp_l, Z.add_mod_idemp_r by lia.
  by replace (n + (56 - n)) with 56 by lia.
Qed.

Example sha1_abc : sha1 (bs "abc") =
  [0xa9; 0x99; 0x3e; 0x36; 0x47; 0x06; 0x81; 0x6a; 0xba; 0x3e;
   0x25; 0x71; 0x78; 0x50; 0xc2; 0x6c; 0x9c; 0xd0; 0xd8; 0x9d].
Proof. vm_compute. reflexivity. Qed.

Example sha1_two_blocks :
  sha1 (bs "abcdbcdecdefdefgefghfghighijhijkijkljklmklmnlmnomnopnopq") =
  [0x84; 0x98; 0x3e; 0x44; 0x1c; 0x3b; 0xd2; 0x6e; 0xba; 0xae;
   0x4a; 0xa1; 0xf9; 0x51; 0x29; 0xe5; 0xe5; 0x46; 0x70; 0xf1].
Proof. vm_compute. reflexivity. Qed.
