(* ===== verification/Rebuilder.v ===== *)
(** The DEX rebuilder: [include/vardoger/dex/rebuilder.hpp].

    Append and repoint: recovered code items and re-encoded class data go
    behind the end of the file and only the affected [class_data_off] fields
    change.  zlib's [adler32] is a parameter. *)

From S2P Require Import Prelude.
From S2P Require Import Words.
From S2P Require Import Sha1.

Definition kAccNative : Z := 0x100.

(** [memcpy] in and out of the buffer; outside it is undefined behaviour. *)
Definition rd32 (d : list Z) (off : Z) : outcome Z :=
  l ← or_ub (slice d off 4); Ret (le_val l).
Definition wr32 (d : list Z) (off v : Z) : outcome (list Z) :=
  or_ub (blit d off (le_bytes 4 v)).

(** [while (p < d_.size())]: nothing bounds the number of bytes, and a shift
    by 32 or more of a [uint32_t] is undefined. *)
Fixpoint uleb_bytes (l : list Z) (s r p : Z) : outcome (Z * Z) :=
  match l with
  | [] => Ret (r, p)
  | x :: t =>
      if 32 <=? s then UB else
      let r' := Z.lor r (u32 (Z.shiftl (Z.land x 0x7f) s)) in
      if Z.land x 0x80 =? 0 then Ret (r', p + 1) else uleb_bytes t (s + 7) r' (p + 1)
  end.
(** The value and the position after it. *)
Definition uleb (d : list Z) (p : Z) : outcome (Z * Z) :=
  uleb_bytes (drop (Z.to_nat p) d) 0 0 p.

(** [do { ... } while (v);]: a [uint32_t] is empty after five groups. *)
Fixpoint wuleb_loop (n : nat) (v : Z) : list Z :=
  match n with
  | O => []
  | S k =>
      let x := Z.land v 0x7f in
      let v' := Z.shiftr v 7 in
      if v' =? 0 then [x] else Z.lor x 0x80 :: wuleb_loop k v'
  end.
Definition wuleb (v : Z) : list Z := wuleb_loop 5 v.

Definition make_code_item (regs ins outs : Z) (insns : list Z) : list Z :=
  le_bytes 2 regs ++ le_bytes 2 ins ++ le_bytes 2 outs ++ le_bytes 2 0 ++ le_bytes 4 0
  ++ le_bytes 4 (u32 (zlen insns))
  ++ List.flat_map (fun u => [Z.land u 0xff; Z.shiftr u 8]) insns.

(** [while ((d_.size() + tail.size()) % 4) tail.push_back(0);] *)
Definition align4 (d tail : list Z) : list Z :=
  tail ++ replicate (Z.to_nat ((- (zlen d + zlen tail)) mod 4)) 0.

(** Step 1: append the recovered code items in key order. *)
Fixpoint append_codes (d : list Z) (codes : gmap Z (list Z)) (ids : list Z)
    (tail : list Z) (offs : gmap Z Z) : list Z * gmap Z Z :=
  match ids with
  | [] => (tail, offs)
  | i :: r =>
      let tail1 := align4 d tail in
      append_codes d codes r (tail1 ++ default [] (codes !! i))
                   (<[i := u32 (zlen d + zlen tail1)]> offs)
  end.

(** [copy_fields(n)]. *)
Fixpoint copy_fields (n : nat) (d : list Z) (p : Z) (blk : list Z) : outcome (list Z * Z) :=
  match n with
  | O => Ret (blk, p)
  | S k =>
      '(a, p1) ← uleb d p;
      '(b, p2) ← uleb d p1;
      copy_fields k d p2 (blk ++ wuleb a ++ wuleb b)
  end.

(** The access flags and code offset written for the method [midx], and
    whether it was patched. *)
Definition patch_method (offs : gmap Z Z) (midx acc coff : Z) : Z * Z * bool :=
  match offs !! midx with
  | Some o => if Z.land acc kAccNative =? 0 then (acc, coff, false)
              else (Z.land acc (0xffffffff - kAccNative), o, true)
  | None => (acc, coff, false)
  end.

(** One group (direct or virtual) of [count] methods. *)
Fixpoint copy_methods (n : nat) (offs : gmap Z Z) (d : list Z) (p midx : Z) (blk : list Z)
    (patched : Z) : outcome (list Z * Z * Z) :=
  match n with
  | O => Ret (blk, p, patched)
  | S k =>
      '(diff, p1) ← uleb d p;
      '(acc, p2) ← uleb d p1;
      '(coff, p3) ← uleb d p2;
      let midx' := u32 (midx + diff) in
      let '(acc', coff', ch) := patch_method offs midx' acc coff in
      copy_methods k offs d p3 midx' (blk ++ wuleb diff ++ wuleb acc' ++ wuleb coff')
                   (patched + if ch then 1 else 0)
  end.

(** The re-encoded class data at [cdo] and the number of methods patched. *)
Definition rebuild_class_data (offs : gmap Z Z) (d : list Z) (cdo : Z) : outcome (list Z * Z) :=
  '(sf, p) ← uleb d cdo;
  '(sfld, p) ← uleb d p;
  '(dm, p) ← uleb d p;
  '(vm, p) ← uleb d p;
  let blk := wuleb sf ++ wuleb sfld ++ wuleb dm ++ wuleb vm in
  '(blk, p) ← copy_fields (Z.to_nat sf) d p blk;
  '(blk, p) ← copy_fields (Z.to_nat sfld) d p blk;
  '(blk, p, n1) ← copy_methods (Z.to_nat dm) offs d p 0 blk 0;
  '(blk, _, n2) ← copy_methods (Z.to_nat vm) offs d p 0 blk 0;
  Ret (blk, n1 + n2).

Record Rebuilder := mkRebuilder {
  d_ : list Z;
  recovered_ : gmap Z (list Z);
  patched_methods_ : Z;
  patched_classes_ : Z;
  err_ : string;
}.

Definition init_rebuilder (dex : list Z) : Rebuilder := mkRebuilder dex ∅ 0 0 "".

Definition set_code (b : Rebuilder) (method_idx : Z) (code_item : list Z) : Rebuilder :=
  mkRebuilder (d_ b) (<[method_idx := code_item]> (recovered_ b))
              (patched_methods_ b) (patched_classes_ b) (err_ b).
Definition has (b : Rebuilder) (method_idx : Z) : bool :=
  bool_decide (is_Some (recovered_ b !! method_idx)).
Definition provided (b : Rebuilder) : Z := Z.of_nat (size (recovered_ b)).

(** The locals of step 2: the buffer, the tail and the two counters. *)
Record Work := mkWork { w_d : list Z; w_tail : list Z; w_methods : Z; w_classes : Z }.

(** Step 2 for the class row at [cdef]. *)
Definition class_step (offs : gmap Z Z) (cdef : Z) (w : Work) : outcome Work :=
  cdo ← rd32 (w_d w) (cdef + 24);
  if (cdo =? 0) || (zlen (w_d w) <=? cdo) then Ret w else
  '(blk, n) ← rebuild_class_data offs (w_d w) cdo;
  if n =? 0 then Ret w else
  let tail1 := align4 (w_d w) (w_tail w) in
  d' ← wr32 (w_d w) (cdef + 24) (u32 (zlen (w_d w) + zlen tail1));
  Ret (mkWork d' (tail1 ++ blk) (w_methods w + n) (w_classes w + 1)).

Fixpoint class_steps (offs : gmap Z Z) (rows : list Z) (w : Work) : outcome Work :=
  match rows with
  | [] => Ret w
  | r :: t => w1 ← class_step offs r w; class_steps offs t w1
  end.

Section Seal.
(** zlib: [adler32(1, data, len)]. *)
Variable adler32 : list Z -> Z.

(** Step 3: file_size, data_size, SHA-1 and Adler-32. *)
Definition seal (d : list Z) : outcome (list Z) :=
  d1 ← wr32 d 0x20 (u32 (zlen d));
  doff ← rd32 d1 0x6c;
  d2 ← wr32 d1 0x68 (u32 (zlen d1 - doff));
  d3 ← or_ub (blit d2 0x0c (sha1 (drop 0x20 d2)));
  wr32 d3 0x08 (u32 (adler32 (drop 0x0c d3))).

Definition build : M Rebuilder (list Z) := fun b =>
  let b0 := mkRebuilder (d_ b) (recovered_ b) 0 0 (err_ b) in
  let fail e := (Ret [], mkRebuilder (d_ b) (recovered_ b) 0 0 e) in
  let d := d_ b in
  if (zlen d <? 0x70) || negb (bool_decide (take 4 d = bs "dex" ++ [10]))
  then fail "not a DEX" else
  match (cd_size ← rd32 d 0x60; cd_off ← rd32 d 0x64; Ret (cd_size, cd_off)) with
  | Ret (cd_size, cd_off) =>
      if zlen d <? cd_off + cd_size * 32 then fail "bad class_defs" else
      let '(tail, offs) := append_codes d (recovered_ b) (keys (recovered_ b)) [] ∅ in
      let rows := (fun i => cd_off + i * 32) <$> seqZ 0 cd_size in
      match class_steps offs rows (mkWork d tail 0 0) with
      | Ret w =>
          match seal (w_d w ++ w_tail w) with
          | Ret d' => (Ret d', mkRebuilder d' (recovered_ b) (w_methods w) (w_classes w) (err_ b))
          | _ => (UB, b0)
          end
      | _ => (UB, b0)
      end
  | _ => (UB, b0)
  end.
End Seal.

(** ** uleb128 *)

Lemma land_bit7 x : 0 <= x < 128 -> Z.land x 0x80 = 0.
Proof. intros. rewrite Z.land_comm. apply (land_shiftl_low 1 x 7); lia. Qed.

Lemma uleb_bytes_wuleb n v s r p post :
  (0 < n)%nat -> 0 <= v < 2 ^ (7 * Z.of_nat n) -> 0 <= s -> v * 2 ^ s < 2 ^ 32 ->
  s < 32 -> 0 <= r < 2 ^ s ->
  uleb_bytes (wuleb_loop n v ++ post) s r p
  = Ret (r + v * 2 ^ s, p + zlen (wuleb_loop n v)).
Proof.
  revert v s r p. induction n as [|n IH]; intros v s r p Hn Hv Hs Hw H32 Hr; [lia|].
  cbn [wuleb_loop].
  assert (Z.land v 0x7f = v mod 128) as Elow by apply land_127.
  assert (Z.shiftr v 7 = v / 128) as Ehi by (by rewrite Z.shiftr_div_pow2).
  rewrite Elow, Ehi. clear Elow Ehi.
  pose proof (Z.mod_pos_bound v 128 ltac:(lia)) as Hm.
  pose proof (Z.div_mod v 128 ltac:(lia)) as Hdm.
  assert (0 < 2 ^ s) as Hps by (apply Z.pow_pos_nonneg; lia).
  assert (v mod 128 * 2 ^ s < 2 ^ 32) as Hmw.
  { eapply Z.le_lt_trans; [|exact Hw]. apply Z.mul_le_mono_nonneg_r; [lia|].
    pose proof (Z.div_pos v 128 ltac:(lia) ltac:(lia)). lia. }
  assert (Z.lor r (u32 (Z.shiftl (v mod 128) s)) = r + v mod 128 * 2 ^ s) as Elor.
  { rewrite (u32_id (Z.shiftl _ s)) by (rewrite Z.shiftl_mul_pow2; nia).
    rewrite Z.lor_comm, lor_add_shift by lia. lia. }
  destruct (Z.eqb_spec (v / 128) 0) as [E0|E0].
  - cbn [app uleb_bytes]. destruct (Z.leb_spec 32 s); [lia|].
    rewrite (land_127 (v mod 128)), Z.mod_mod by lia.
    assert (Z.land (v mod 128) 0x80 = 0) as ->.
    { by apply land_bit7. }
    simpl. rewrite Elor. do 2 f_equal. f_equal. lia.
  - cbn [app uleb_bytes]. destruct (Z.leb_spec 32 s); [lia|].
    assert (Z.lor (v mod 128) 0x80 = 128 + v mod 128) as E8.
    { rewrite Z.lor_comm. exact (lor_add_shift 1 (v mod 128) 7 ltac:(lia) Hm). }
    rewrite E8. rewrite land_127.
    assert ((128 + v mod 128) mod 128 = v mod 128) as ->
      by (rewrite Z.add_mod, Z.mod_same, Z.add_0_l, !Z.mod_mod by lia; done).
    assert (Z.land (128 + v mod 128) 0x80 = 128) as ->.
    { rewrite <- E8. rewrite Z.land_lor_distr_l.
      assert (Z.land (v mod 128) 128 = 0) as ->.
      { by apply land_bit7. }
      done. }
    change (128 =? 0) with false. cbv iota. rewrite Elor.
    assert (1 <= v / 128) as Hq by (pose proof (Z.div_pos v 128); lia).
    assert (2 ^ (s + 7) = 128 * 2 ^ s) as E7 by (rewrite Z.pow_add_r by lia; lia).
    assert (v / 128 * 2 ^ (s + 7) < 2 ^ 32) as Hw'.
    { rewrite E7. nia. }
    assert (s + 7 < 32) as Hs7.
    { destruct (Z.lt_ge_cases (s + 7) 32); [done|].
      assert (2 ^ 32 <= 2 ^ (s + 7)) by (apply Z.pow_le_mono_r; lia). nia. }
    rewrite IH; try lia.
    + do 2 f_equal; [rewrite E7; nia|]. unfold zlen. simpl. lia.
    + destruct n; [|lia]. exfalso. apply E0, Z.div_small. exact Hv.
    + replace (7 * Z.of_nat (S n)) with (7 + 7 * Z.of_nat n) in Hv by lia.
      rewrite Z.pow_add_r in Hv by lia. change (2 ^ 7) with 128 in Hv.
      split; [lia|]. apply Z.div_lt_upper_bound; lia.
    + rewrite E7. nia.
Qed.

Lemma wuleb_pos n v : (0 < n)%nat -> (0 < length (wuleb_loop n v) <= n)%nat.
Proof.
  revert v. induction n as [|n IH]; intros v Hn; [lia|]. cbn [wuleb_loop].
  destruct (_ =? 0); simpl; [lia|]. destruct n; [simpl; lia|].
  specialize (IH (Z.shiftr v 7) ltac:(lia)). lia.
Qed.

Lemma wuleb_roundtrip_aux v pre post :
  0 <= v < 2 ^ 32 ->
  uleb (pre ++ wuleb v ++ post) (zlen pre) = Ret (v, zlen pre + zlen (wuleb v)).
Proof.
  intros Hv. unfold uleb, wuleb.
  unfold zlen at 1. rewrite Nat2Z.id, drop_app_length.
  assert (2 ^ (7 * Z.of_nat 5) = 2 ^ 35) as E35 by done.
  rewrite (uleb_bytes_wuleb 5 v 0 0 (zlen pre) post); rewrite ?E35;
    change (2 ^ 0) with 1; try lia. by rewrite Z.mul_1_r.
Qed.

(** The encoder and the reader agree: a 32-bit value written by [wuleb]
    anywhere in a buffer is read back by [uleb], without undefined
    behaviour, at one to five bytes, leaving the position just after it. *)
Lemma wuleb_roundtrip v pre post :
  0 <= v < 2 ^ 32 ->
  uleb (pre ++ wuleb v ++ post) (zlen pre) = Ret (v, zlen pre + zlen (wuleb v)) /\
  1 <= zlen (wuleb v) <= 5.
Proof.
  intros Hv. split; [by apply wuleb_roundtrip_aux|].
  pose proof (wuleb_pos 5 v). unfold zlen, wuleb. lia.
Qed.

Lemma uleb_bytes_u32 l s r p v q :
  0 <= r < 2 ^ 32 -> uleb_bytes l s r p = Ret (v, q) -> 0 <= v < 2 ^ 32.
Proof.
  revert s r p. induction l as [|x t IH]; intros s r p Hr; cbn [uleb_bytes].
  { by intros [= <- _]. }
  destruct (32 <=? s); [done|].
  pose proof (lor_u32 r (u32 (Z.shiftl (Z.land x 127) s)) Hr (u32_range _)).
  destruct (_ =? 0); [by intros [= <- _]|]. by apply IH.
Qed.

Lemma uleb_u32 d p v q : uleb d p = Ret (v, q) -> 0 <= v < 2 ^ 32.
Proof. by apply uleb_bytes_u32. Qed.

(** ** Class data as a value *)

Record ClassData := mkClassData {
  cd_static : list (Z * Z);
  cd_instance : list (Z * Z);
  cd_direct : list (Z * Z * Z);
  cd_virtual : list (Z * Z * Z);
}.

Fixpoint read_pairs (n : nat) (d : list Z) (p : Z) : outcome (list (Z * Z) * Z) :=
  match n with
  | O => Ret ([], p)
  | S k =>
      '(a, p1) ← uleb d p;
      '(b, p2) ← uleb d p1;
      '(l, q) ← read_pairs k d p2;
      Ret ((a, b) :: l, q)
  end.

Fixpoint read_triples (n : nat) (d : list Z) (p : Z) : outcome (list (Z * Z * Z) * Z) :=
  match n with
  | O => Ret ([], p)
  | S k =>
      '(a, p1) ← uleb d p;
      '(b, p2) ← uleb d p1;
      '(c, p3) ← uleb d p2;
      '(l, q) ← read_triples k d p3;
      Ret ((a, b, c) :: l, q)
  end.

(** The class data a reader finds at [p]. *)
Definition read_class_data (d : list Z) (p : Z) : outcome (ClassData * Z) :=
  '(sf, p) ← uleb d p;
  '(sfld, p) ← uleb d p;
  '(dm, p) ← uleb d p;
  '(vm, p) ← uleb d p;
  '(l1, p) ← read_pairs (Z.to_nat sf) d p;
  '(l2, p) ← read_pairs (Z.to_nat sfld) d p;
  '(l3, p) ← read_triples (Z.to_nat dm) d p;
  '(l4, p) ← read_triples (Z.to_nat vm) d p;
  Ret (mkClassData l1 l2 l3 l4, p).

Definition enc_pairs (l : list (Z * Z)) : list Z :=
  List.flat_map (fun '(a, b) => wuleb a ++ wuleb b) l.
Definition enc_triples (l : list (Z * Z * Z)) : list Z :=
  List.flat_map (fun '(a, b, c) => wuleb a ++ wuleb b ++ wuleb c) l.
Definition enc_class_data (cd : ClassData) : list Z :=
  (wuleb (zlen (cd_static cd)) ++ wuleb (zlen (cd_instance cd)) ++
   wuleb (zlen (cd_direct cd)) ++ wuleb (zlen (cd_virtual cd))) ++
  enc_pairs (cd_static cd) ++ enc_pairs (cd_instance cd) ++
  enc_triples (cd_direct cd) ++ enc_triples (cd_virtual cd).

(** What the rebuilder should do to a method list: accumulate the index, and
    for a recovered native method clear the flag and set the code offset. *)
Fixpoint patch_list (offs : gmap Z Z) (midx : Z) (l : list (Z * Z * Z)) : list (Z * Z * Z) * Z :=
  match l with
  | [] => ([], 0)
  | (diff, acc, coff) :: r =>
      let midx' := u32 (midx + diff) in
      let '(acc', coff', ch) := patch_method offs midx' acc coff in
      let '(r', n) := patch_list offs midx' r in
      ((diff, acc', coff') :: r', (if ch then 1 else 0) + n)
  end.

Definition patch_class_data (offs : gmap Z Z) (cd : ClassData) : ClassData :=
  mkClassData (cd_static cd) (cd_instance cd) (fst (patch_list offs 0 (cd_direct cd)))
              (fst (patch_list offs 0 (cd_virtual cd))).
Definition patched_count (offs : gmap Z Z) (cd : ClassData) : Z :=
  snd (patch_list offs 0 (cd_direct cd)) + snd (patch_list offs 0 (cd_virtual cd)).

(** *** The copying loops against the value *)

Lemma copy_fields_eq n d p blk :
  copy_fields n d p blk = ('(l, q) ← read_pairs n d p; Ret (blk ++ enc_pairs l, q)).
Proof.
  revert p blk. induction n as [|n IH]; intros p blk; cbn [copy_fields read_pairs].
  { simpl. by rewrite app_nil_r. }
  destruct (uleb d p) as [[a p1]|e|]; [|done..]. simpl.
  destruct (uleb d p1) as [[b p2]|e|]; [|done..]. simpl. rewrite IH.
  destruct (read_pairs n d p2) as [[l q]|e|]; [|done..]. simpl. by rewrite <- !app_assoc.
Qed.

Lemma copy_methods_eq n offs d p midx blk pt :
  copy_methods n offs d p midx blk pt =
  ('(l, q) ← read_triples n d p;
   Ret (blk ++ enc_triples (fst (patch_list offs midx l)), q,
        pt + snd (patch_list offs midx l))).
Proof.
  revert p midx blk pt. induction n as [|n IH]; intros p midx blk pt;
    cbn [copy_methods read_triples].
  { simpl. by rewrite app_nil_r, Z.add_0_r. }
  destruct (uleb d p) as [[a p1]|e|]; [|done..]. simpl.
  destruct (uleb d p1) as [[b p2]|e|]; [|done..]. simpl.
  destruct (uleb d p2) as [[c p3]|e|]; [|done..]. simpl.
  destruct (patch_method offs (u32 (midx + a)) b c) as [[b' c'] ch] eqn:Ep. rewrite IH.
  destruct (read_triples n d p3) as [[l q]|e|]; [|done..]. simpl. rewrite Ep.
  destruct (patch_list offs (u32 (midx + a)) l) as [l' k]. simpl.
  by rewrite <- !app_assoc, Z.add_assoc.
Qed.

Lemma read_pairs_length n d p l q : read_pairs n d p = Ret (l, q) -> length l = n.
Proof.
  revert p l q. induction n as [|n IH]; intros p l q; cbn [read_pairs]; [by intros [= <- _]|].
  destruct (uleb d p) as [[a p1]|e|]; [|done..]. simpl.
  destruct (uleb d p1) as [[b p2]|e|]; [|done..]. simpl.
  destruct (read_pairs n d p2) as [[l' q']|e|] eqn:E; [|done..].
  intros [= <- _]. simpl. by rewrite (IH _ _ _ E).
Qed.

Lemma read_triples_length n d p l q : read_triples n d p = Ret (l, q) -> length l = n.
Proof.
  revert p l q. induction n as [|n IH]; intros p l q; cbn [read_triples]; [by intros [= <- _]|].
  destruct (uleb d p) as [[a p1]|e|]; [|done..]. simpl.
  destruct (uleb d p1) as [[b p2]|e|]; [|done..]. simpl.
  destruct (uleb d p2) as [[c p3]|e|]; [|done..]. simpl.
  destruct (read_triples n d p3) as [[l' q']|e|] eqn:E; [|done..].
  intros [= <- _]. simpl. by rewrite (IH _ _ _ E).
Qed.

Lemma patch_list_length offs midx l : length (fst (patch_list offs midx l)) = length l.
Proof.
  revert midx. induction l as [|[[a b] c] l IH]; intros midx; [done|]. cbn [patch_list].
  destruct (patch_method _ _ _ _) as [[b' c'] ch]. specialize (IH (u32 (midx + a))).
  destruct (patch_list _ _ l). simpl in *. by rewrite IH.
Qed.

(** Re-encoding is encoding of the patched value. *)
Lemma rebuild_class_data_eq offs d p :
  rebuild_class_data offs d p =
  ('(cd, _) ← read_class_data d p;
   Ret (enc_class_data (patch_class_data offs cd), patched_count offs cd)).
Proof.
  unfold rebuild_class_data, read_class_data.
  destruct (uleb d p) as [[sf p1]|e|] eqn:E1; [|done..]. simpl.
  destruct (uleb d p1) as [[sfld p2]|e|] eqn:E2; [|done..]. simpl.
  destruct (uleb d p2) as [[dm p3]|e|] eqn:E3; [|done..]. simpl.
  destruct (uleb d p3) as [[vm p4]|e|] eqn:E4; [|done..]. simpl.
  apply uleb_u32 in E1, E2, E3, E4. rewrite copy_fields_eq.
  destruct (read_pairs _ d p4) as [[l1 p5]|e|] eqn:E5; [|done..]. simpl.
  rewrite copy_fields_eq.
  destruct (read_pairs _ d p5) as [[l2 p6]|e|] eqn:E6; [|done..]. simpl.
  rewrite copy_methods_eq.
  destruct (read_triples _ d p6) as [[l3 p7]|e|] eqn:E7; [|done..]. simpl.
  rewrite copy_methods_eq.
  destruct (read_triples _ d p7) as [[l4 p8]|e|] eqn:E8; [|done..]. simpl.
  apply read_pairs_length in E5, E6. apply read_triples_length in E7, E8.
  unfold enc_class_data, patched_count, patch_class_data. simpl.
  unfold zlen. rewrite !patch_list_length, E5, E6, E7, E8, !Z2Nat.id by lia.
  by rewrite <- !app_assoc.
Qed.

(** *** Decoding what was encoded *)

Definition is_u32 (v : Z) : Prop := 0 <= v < 2 ^ 32.
Definition pair_ok (e : Z * Z) : Prop := is_u32 (fst e) /\ is_u32 (snd e).
Definition triple_ok (e : Z * Z * Z) : Prop :=
  is_u32 (fst (fst e)) /\ is_u32 (snd (fst e)) /\ is_u32 (snd e).

Record class_data_ok (cd : ClassData) : Prop := {
  co_static : Forall pair_ok (cd_static cd);
  co_instance : Forall pair_ok (cd_instance cd);
  co_direct : Forall triple_ok (cd_direct cd);
  co_virtual : Forall triple_ok (cd_virtual cd);
  co_counts : is_u32 (zlen (cd_static cd)) /\ is_u32 (zlen (cd_instance cd)) /\
              is_u32 (zlen (cd_direct cd)) /\ is_u32 (zlen (cd_virtual cd));
}.

(** [at_ d p l]: the bytes [l] are in [d] from position [p] on. *)
Definition at_ (d : list Z) (p : Z) (l : list Z) : Prop :=
  exists pre post, d = pre ++ l ++ post /\ p = zlen pre.

Lemma at_app d p l1 l2 : at_ d p (l1 ++ l2) -> at_ d p l1 /\ at_ d (p + zlen l1) l2.
Proof.
  intros (pre & post & -> & ->). split.
  - exists pre, (l2 ++ post). by rewrite <- app_assoc.
  - exists (pre ++ l1), post. rewrite zlen_app, <- !app_assoc. done.
Qed.

Lemma uleb_at d p v : is_u32 v -> at_ d p (wuleb v) -> uleb d p = Ret (v, p + zlen (wuleb v)).
Proof. intros Hv (pre & post & -> & ->). by apply wuleb_roundtrip_aux. Qed.

#[local] Arguments wuleb : simpl never.
#[local] Arguments uleb : simpl never.
#[local] Arguments zlen : simpl never.

Lemma read_pairs_at l d p :
  Forall pair_ok l -> at_ d p (enc_pairs l) ->
  read_pairs (length l) d p = Ret (l, p + zlen (enc_pairs l)).
Proof.
  intros Hl. revert p. induction Hl as [|[a b] l [Ha Hb] _ IH]; intros p Hat; cbn.
  { by rewrite Z.add_0_r. }
  unfold enc_pairs in *. cbn in Hat. rewrite <- app_assoc in Hat.
  apply at_app in Hat as [H1 Hat]. apply at_app in Hat as [H2 Hat].
  rewrite (uleb_at _ _ a Ha H1). cbn. rewrite (uleb_at _ _ b Hb H2). cbn.
  rewrite (IH _ Hat). cbn. rewrite !zlen_app. do 2 f_equal. lia.
Qed.

Lemma read_triples_at l d p :
  Forall triple_ok l -> at_ d p (enc_triples l) ->
  read_triples (length l) d p = Ret (l, p + zlen (enc_triples l)).
Proof.
  intros Hl. revert p. induction Hl as [|[[a b] c] l (Ha & Hb & Hc) _ IH]; intros p Hat; cbn.
  { by rewrite Z.add_0_r. }
  unfold enc_triples in *. cbn in Hat. rewrite <- !app_assoc in Hat.
  apply at_app in Hat as [H1 Hat]. apply at_app in Hat as [H2 Hat].
  apply at_app in Hat as [H3 Hat].
  rewrite (uleb_at _ _ a Ha H1). cbn. rewrite (uleb_at _ _ b Hb H2). cbn.
  rewrite (uleb_at _ _ c Hc H3). cbn.
  rewrite (IH _ Hat). cbn. rewrite !zlen_app. do 2 f_equal. lia.
Qed.

Lemma read_class_data_at cd d p :
  class_data_ok cd -> at_ d p (enc_class_data cd) ->
  read_class_data d p = Ret (cd, p + zlen (enc_class_data cd)).
Proof.
  intros [H1 H2 H3 H4 (Z1 & Z2 & Z3 & Z4)] Hat. unfold enc_class_data in *.
  rewrite <- !app_assoc in *.
  apply at_app in Hat as [A1 Hat]. apply at_app in Hat as [A2 Hat].
  apply at_app in Hat as [A3 Hat]. apply at_app in Hat as [A4 Hat].
  apply at_app in Hat as [A5 Hat]. apply at_app in Hat as [A6 Hat].
  apply at_app in Hat as [A7 A8]. unfold read_class_data.
  rewrite (uleb_at _ _ _ Z1 A1). cbn. rewrite (uleb_at _ _ _ Z2 A2). cbn.
  rewrite (uleb_at _ _ _ Z3 A3). cbn. rewrite (uleb_at _ _ _ Z4 A4). cbn.
  rewrite !zlen_to_nat. rewrite (read_pairs_at _ _ _ H1 A5). cbn.
  rewrite (read_pairs_at _ _ _ H2 A6). cbn. rewrite (read_triples_at _ _ _ H3 A7). cbn.
  rewrite (read_triples_at _ _ _ H4 A8). cbn.
  rewrite !zlen_app. destruct cd; cbn. do 2 f_equal. lia.
Qed.

(** What is read is in range, and patching keeps it so. *)
Lemma read_pairs_ok n d p l q : read_pairs n d p = Ret (l, q) -> Forall pair_ok l.
Proof.
  revert p l q. induction n as [|n IH]; intros p l q; cbn [read_pairs]; [by intros [= <- _]|].
  destruct (uleb d p) as [[a p1]|e|] eqn:Ea; [|done..]. simpl.
  destruct (uleb d p1) as [[b p2]|e|] eqn:Eb; [|done..]. simpl.
  destruct (read_pairs n d p2) as [[l' q']|e|] eqn:E; [|done..].
  intros [= <- _]. apply uleb_u32 in Ea, Eb. constructor; [done|by eapply IH].
Qed.

Lemma read_triples_ok n d p l q : read_triples n d p = Ret (l, q) -> Forall triple_ok l.
Proof.
  revert p l q. induction n as [|n IH]; intros p l q; cbn [read_triples]; [by intros [= <- _]|].
  destruct (uleb d p) as [[a p1]|e|] eqn:Ea; [|done..]. simpl.
  destruct (uleb d p1) as [[b p2]|e|] eqn:Eb; [|done..]. simpl.
  destruct (uleb d p2) as [[c p3]|e|] eqn:Ec; [|done..]. simpl.
  destruct (read_triples n d p3) as [[l' q']|e|] eqn:E; [|done..].
  intros [= <- _]. apply uleb_u32 in Ea, Eb, Ec. constructor; [done|by eapply IH].
Qed.

Lemma read_class_data_ok d p cd q : read_class_data d p = Ret (cd, q) -> class_data_ok cd.
Proof.
  unfold read_class_data.
  destruct (uleb d p) as [[sf p1]|e|] eqn:E1; [|done..]. simpl.
  destruct (uleb d p1) as [[sfld p2]|e|] eqn:E2; [|done..]. simpl.
  destruct (uleb d p2) as [[dm p3]|e|] eqn:E3; [|done..]. simpl.
  destruct (uleb d p3) as [[vm p4]|e|] eqn:E4; [|done..]. simpl.
  destruct (read_pairs _ d p4) as [[l1 p5]|e|] eqn:E5; [|done..]. simpl.
  destruct (read_pairs _ d p5) as [[l2 p6]|e|] eqn:E6; [|done..]. simpl.
  destruct (read_triples _ d p6) as [[l3 p7]|e|] eqn:E7; [|done..]. simpl.
  destruct (read_triples _ d p7) as [[l4 p8]|e|] eqn:E8; [|done..]. simpl.
  intros [= <- _]. apply uleb_u32 in E1, E2, E3, E4.
  split; simpl; eauto using read_pairs_ok, read_triples_ok.
  apply read_pairs_length in E5, E6. apply read_triples_length in E7, E8.
  unfold zlen, is_u32. rewrite E5, E6, E7, E8. lia.
Qed.

Lemma land_u32 a b : 0 <= a < 2 ^ 32 -> 0 <= b -> 0 <= Z.land a b < 2 ^ 32.
Proof.
  intros Ha Hb. split; [apply Z.land_nonneg; lia|].
  destruct (Z.eq_dec (Z.land a b) 0) as [->|Hne]; [lia|].
  assert (0 <= Z.land a b) by (apply Z.land_nonneg; lia).
  apply Z.log2_lt_pow2; [lia|]. eapply Z.le_lt_trans; [apply Z.log2_land; lia|].
  eapply Z.le_lt_trans; [apply Z.le_min_l|].
  destruct (Z.eq_dec a 0) as [->|]; [simpl; lia|]. apply Z.log2_lt_pow2; lia.
Qed.

Lemma patch_list_ok offs midx l :
  map_Forall (fun _ => is_u32) offs -> Forall triple_ok l ->
  Forall triple_ok (fst (patch_list offs midx l)).
Proof.
  intros Ho Hl. revert midx.
  induction Hl as [|[[a b] c] l (Ha & Hb & Hc) _ IH]; intros midx; [constructor|].
  simpl in Ha, Hb, Hc. cbn [patch_list]. specialize (IH (u32 (midx + a))).
  assert (is_u32 (fst (fst (patch_method offs (u32 (midx + a)) b c))) /\
          is_u32 (snd (fst (patch_method offs (u32 (midx + a)) b c)))) as [Hb' Hc'].
  { unfold patch_method. destruct (offs !! _) as [o|] eqn:Eo; [|done].
    destruct (_ =? 0); [done|]. simpl. split; [by apply land_u32|].
    by apply (map_Forall_lookup_1 _ _ _ _ Ho Eo). }
  destruct (patch_method _ _ _ _) as [[b' c'] ch]. destruct (patch_list _ _ l).
  simpl in *. by constructor.
Qed.

Lemma patch_class_data_ok offs cd :
  map_Forall (fun _ => is_u32) offs -> class_data_ok cd ->
  class_data_ok (patch_class_data offs cd).
Proof.
  intros Ho [H1 H2 H3 H4 Hz]. split; simpl; try done; try by apply patch_list_ok.
  unfold zlen in *. by rewrite !patch_list_length.
Qed.

(** ** Reading depends only on what lies ahead *)

Lemma uleb_bytes_pos l s r p v q : uleb_bytes l s r p = Ret (v, q) -> p <= q.
Proof.
  revert s r p. induction l as [|x t IH]; intros s r p; cbn [uleb_bytes].
  { intros [= _ <-]. lia. }
  destruct (32 <=? s); [done|]. destruct (_ =? 0); [intros [= _ <-]; lia|].
  intros E%IH. lia.
Qed.

Lemma uleb_pos d p v q : uleb d p = Ret (v, q) -> p <= q.
Proof. apply uleb_bytes_pos. Qed.

Section Ahead.
Variables (d1 d2 : list Z) (c : Z).
Hypothesis Hc : 0 <= c.
Hypothesis Hdrop : drop (Z.to_nat c) d1 = drop (Z.to_nat c) d2.

Lemma uleb_ahead p : c <= p -> uleb d1 p = uleb d2 p.
Proof.
  intros Hp. unfold uleb.
  replace (Z.to_nat p) with (Z.to_nat c + Z.to_nat (p - c))%nat by lia.
  by rewrite <- !drop_drop, Hdrop.
Qed.

Lemma read_pairs_ahead n p :
  c <= p -> read_pairs n d1 p = read_pairs n d2 p /\
  forall l q, read_pairs n d1 p = Ret (l, q) -> p <= q.
Proof.
  revert p. induction n as [|n IH]; intros p Hp; cbn [read_pairs].
  { split; [done|]. intros l q [= _ <-]. lia. }
  rewrite <- uleb_ahead by done.
  destruct (uleb d1 p) as [[a p1]|e|] eqn:Ea; [|done..]. apply uleb_pos in Ea. simpl.
  rewrite <- uleb_ahead by lia.
  destruct (uleb d1 p1) as [[b p2]|e|] eqn:Eb; [|done..]. apply uleb_pos in Eb. simpl.
  destruct (IH p2 ltac:(lia)) as [E Hq]. rewrite <- E. split; [done|].
  destruct (read_pairs n d1 p2) as [[l' q']|e|]; [|done..].
  intros l q [= _ <-]. specialize (Hq l' q' eq_refl). lia.
Qed.

Lemma read_triples_ahead n p :
  c <= p -> read_triples n d1 p = read_triples n d2 p /\
  forall l q, read_triples n d1 p = Ret (l, q) -> p <= q.
Proof.
  revert p. induction n as [|n IH]; intros p Hp; cbn [read_triples].
  { split; [done|]. intros l q [= _ <-]. lia. }
  rewrite <- uleb_ahead by done.
  destruct (uleb d1 p) as [[a p1]|e|] eqn:Ea; [|done..]. apply uleb_pos in Ea. simpl.
  rewrite <- uleb_ahead by lia.
  destruct (uleb d1 p1) as [[b p2]|e|] eqn:Eb; [|done..]. apply uleb_pos in Eb. simpl.
  rewrite <- uleb_ahead by lia.
  destruct (uleb d1 p2) as [[x p3]|e|] eqn:Ex; [|done..]. apply uleb_pos in Ex. simpl.
  destruct (IH p3 ltac:(lia)) as [E Hq]. rewrite <- E. split; [done|].
  destruct (read_triples n d1 p3) as [[l' q']|e|]; [|done..].
  intros l q [= _ <-]. specialize (Hq l' q' eq_refl). lia.
Qed.

Lemma read_class_data_ahead p : c <= p -> read_class_data d1 p = read_class_data d2 p.
Proof.
  intros Hp. unfold read_class_data. rewrite <- uleb_ahead by done.
  destruct (uleb d1 p) as [[sf p1]|e|] eqn:E1; [|done..]. apply uleb_pos in E1. simpl.
  rewrite <- uleb_ahead by lia.
  destruct (uleb d1 p1) as [[sfld p2]|e|] eqn:E2; [|done..]. apply uleb_pos in E2. simpl.
  rewrite <- uleb_ahead by lia.
  destruct (uleb d1 p2) as [[dm p3]|e|] eqn:E3; [|done..]. apply uleb_pos in E3. simpl.
  rewrite <- uleb_ahead by lia.
  destruct (uleb d1 p3) as [[vm p4]|e|] eqn:E4; [|done..]. apply uleb_pos in E4. simpl.
  destruct (read_pairs_ahead (Z.to_nat sf) p4 ltac:(lia)) as [<- Hq5].
  destruct (read_pairs (Z.to_nat sf) d1 p4) as [[l1 p5]|e|]; [|done..].
  specialize (Hq5 l1 p5 eq_refl). simpl.
  destruct (read_pairs_ahead (Z.to_nat sfld) p5 ltac:(lia)) as [<- Hq6].
  destruct (read_pairs (Z.to_nat sfld) d1 p5) as [[l2 p6]|e|]; [|done..].
  specialize (Hq6 l2 p6 eq_refl). simpl.
  destruct (read_triples_ahead (Z.to_nat dm) p6 ltac:(lia)) as [<- Hq7].
  destruct (read_triples (Z.to_nat dm) d1 p6) as [[l3 p7]|e|]; [|done..].
  specialize (Hq7 l3 p7 eq_refl). simpl.
  by destruct (read_triples_ahead (Z.to_nat vm) p7 ltac:(lia)) as [<- _].
Qed.
End Ahead.

(** ** Words in place *)

Lemma wr32_inv d off v d' :
  wr32 d off v = Ret d' -> blit d off (le_bytes 4 v) = Some d'.
Proof. unfold wr32, or_ub. destruct (blit _ _ _); [by intros [= ->]|done]. Qed.

Lemma blit4_lookup d off v d' j :
  wr32 d off v = Ret d' -> ~ (off <= Z.of_nat j < off + 4) -> d' !! j = d !! j.
Proof.
  intros Hw%wr32_inv Hj. rewrite (blit_lookup _ _ _ _ _ Hw).
  apply blit_Some in Hw as (? & _ & _). rewrite decide_False; [done|].
  rewrite length_le_bytes. lia.
Qed.

Lemma slice_ext d1 d2 o n :
  length d1 = length d2 ->
  (forall j, o <= Z.of_nat j < o + Z.of_nat n -> d1 !! j = d2 !! j) ->
  slice d1 o n = slice d2 o n.
Proof.
  intros Hl Hj. unfold slice, zlen. rewrite Hl.
  destruct (Z.leb_spec 0 o); [|done]. destruct (_ <=? _); [|done]. simpl. f_equal.
  apply list_eq. intros i. destruct (decide (i < n)%nat).
  - rewrite !lookup_take_lt, !lookup_drop by done. apply Hj. lia.
  - by rewrite !lookup_take_ge by lia.
Qed.

Lemma rd32_ext d1 d2 o :
  length d1 = length d2 ->
  (forall j, o <= Z.of_nat j < o + 4 -> d1 !! j = d2 !! j) -> rd32 d1 o = rd32 d2 o.
Proof. intros Hl Hj. unfold rd32. by rewrite (slice_ext d1 d2 o 4 Hl Hj). Qed.

Lemma rd32_wr32 d off v d' : wr32 d off v = Ret d' -> rd32 d' off = Ret (v mod 2 ^ 32).
Proof.
  intros Hw%wr32_inv. unfold rd32.
  pose proof (slice_blit_eq _ _ _ _ Hw) as Hs. rewrite length_le_bytes in Hs.
  rewrite Hs. transitivity (Ret (le_val (le_bytes 4 v))); [done|].
  by rewrite le_val_bytes.
Qed.

Lemma drop_ext (d1 d2 : list Z) c :
  length d1 = length d2 -> (forall j, (c <= j)%nat -> d1 !! j = d2 !! j) ->
  drop c d1 = drop c d2.
Proof.
  intros Hl Hj. apply list_eq. intros i. rewrite !lookup_drop. apply Hj. lia.
Qed.

Lemma align4_spec d tail :
  (zlen d + zlen (align4 d tail)) mod 4 = 0 /\ exists k, align4 d tail = tail ++ replicate k 0.
Proof.
  split; [|by eexists]. unfold align4. rewrite zlen_app. unfold zlen at 3.
  pose proof (Z.mod_pos_bound (- (zlen d + zlen tail)) 4 ltac:(lia)).
  rewrite length_replicate, Z2Nat.id, Z.add_assoc by lia.
  rewrite Z.add_mod_idemp_r by lia.
  by replace (zlen d + zlen tail + - (zlen d + zlen tail)) with 0 by lia.
Qed.

(** *** The appended code items *)

(** The block [l] starts at a 4-aligned offset behind [d] and [o] names it. *)
Definition placed (d tail : list Z) (o : Z) (l : list Z) : Prop :=
  exists pre post, tail = pre ++ l ++ post /\ (zlen d + zlen pre) mod 4 = 0 /\
                   o = u32 (zlen d + zlen pre).

Lemma placed_app d tail o l t : placed d tail o l -> placed d (tail ++ t) o l.
Proof.
  intros (pre & post & -> & Hm & ->). exists pre, (post ++ t).
  by rewrite <- !app_assoc.
Qed.

Lemma append_codes_spec d codes ids tail offs tail' offs' :
  NoDup ids -> append_codes d codes ids tail offs = (tail', offs') ->
  (exists t, tail' = tail ++ t) /\
  (forall i, i ∈ ids -> exists o, offs' !! i = Some o /\
                                  placed d tail' o (default [] (codes !! i))) /\
  (forall i, i ∉ ids -> offs' !! i = offs !! i) /\
  (map_Forall (fun _ => is_u32) offs -> map_Forall (fun _ => is_u32) offs').
Proof.
  intros Hnd. revert tail offs. induction Hnd as [|i ids Hi Hnd IH]; intros tail offs.
  { intros [= <- <-]. split; [exists []; by rewrite app_nil_r|]. split; [|done].
    intros i []%elem_of_nil. }
  cbn [append_codes]. cbv zeta. destruct (align4_spec d tail) as [Hal [k Hk]].
  set (tail1 := align4 d tail) in *. intros E.
  destruct (IH _ _ E) as ((t & Ht) & Hin & Hout & Hu). split; [|split; [|split]].
  - rewrite Ht, Hk. eexists. by rewrite <- !app_assoc.
  - intros j [->|Hj]%elem_of_cons; [|by apply Hin].
    eexists. rewrite Hout by done. rewrite lookup_insert_eq. split; [done|].
    rewrite Ht. apply placed_app. exists tail1, []. by rewrite app_nil_r.
  - intros j [Hne Hj]%not_elem_of_cons. rewrite Hout by done. by apply lookup_insert_ne.
  - intros Hok. apply Hu. apply map_Forall_insert_2; [apply u32_range|done].
Qed.

(** *** One class row *)

(** The class data that the row at [r] refers to. *)
Definition row_data (d : list Z) (r cdo : Z) (cd : ClassData) : Prop :=
  rd32 d (r + 24) = Ret cdo /\ cdo <> 0 /\ cdo < zlen d /\
  exists q, read_class_data d cdo = Ret (cd, q).

(** What becomes of it: unchanged when nothing in it was recovered, else a
    patched copy at a new place. *)
Definition row_done (offs : gmap Z Z) (d' tail : list Z) (r cdo : Z) (cd : ClassData) : Prop :=
  if patched_count offs cd =? 0 then rd32 d' (r + 24) = Ret cdo
  else exists o, rd32 d' (r + 24) = Ret o /\
         placed d' tail o (enc_class_data (patch_class_data offs cd)).

Lemma class_step_inv offs r w w' :
  class_step offs r w = Ret w' ->
  length (w_d w') = length (w_d w) /\ (exists t, w_tail w' = w_tail w ++ t) /\
  (forall j, ~ (r + 24 <= Z.of_nat j < r + 28) -> w_d w' !! j = w_d w !! j) /\
  (forall cdo cd, row_data (w_d w) r cdo cd -> row_done offs (w_d w') (w_tail w') r cdo cd).
Proof.
  unfold class_step. destruct (rd32 (w_d w) (r + 24)) as [cdo|e|] eqn:E0; [|done..].
  unfold mbind at 1, outcome_mbind, outcome_bind at 1.
  assert (forall (P : Prop), P -> w = w' -> (P -> 
    forall cdo' cd, row_data (w_d w) r cdo' cd -> patched_count offs cd = 0) ->
    length (w_d w') = length (w_d w) /\ (exists t, w_tail w' = w_tail w ++ t) /\
    (forall j, ~ (r + 24 <= Z.of_nat j < r + 28) -> w_d w' !! j = w_d w !! j) /\
    (forall cdo' cd, row_data (w_d w) r cdo' cd ->
       row_done offs (w_d w') (w_tail w') r cdo' cd)) as Hsame.
  { intros P HP <- Hz. split; [done|]. split; [exists []; by rewrite app_nil_r|].
    split; [done|]. intros cdo' cd Hrow. unfold row_done.
    rewrite (Hz HP cdo' cd Hrow). simpl. apply Hrow. }
  destruct ((cdo =? 0) || (zlen (w_d w) <=? cdo)) eqn:Ec.
  { intros [= E]. apply (Hsame True); [done..|]. intros _ cdo' cd (E0' & H1 & H2 & _).
    rewrite E0 in E0'. injection E0' as <-.
    apply orb_true_iff in Ec as [?%Z.eqb_eq|?%Z.leb_le]; lia. }
  rewrite rebuild_class_data_eq.
  destruct (read_class_data (w_d w) cdo) as [[cd q]|e|] eqn:Er; [|done..].
  change (outcome_bind ?f (Ret ?x)) with (f x). simpl.
  assert (forall cdo' cd', row_data (w_d w) r cdo' cd' -> cdo' = cdo /\ cd' = cd) as Huniq.
  { intros cdo' cd' (E0' & _ & _ & q' & Er'). rewrite E0 in E0'. injection E0' as <-.
    rewrite Er in Er'. by injection Er' as <- _. }
  destruct (Z.eqb_spec (patched_count offs cd) 0) as [Ez|Enz].
  { intros [= E]. apply (Hsame True); [done..|]. intros _ cdo' cd' Hrow.
    by destruct (Huniq _ _ Hrow) as [-> ->]. }
  set (tail1 := align4 (w_d w) (w_tail w)).
  destruct (wr32 _ _ _) as [d'|e|] eqn:Ew; [|done..]. intros [= <-]. simpl.
  destruct (align4_spec (w_d w) (w_tail w)) as [Hal [k Hk]]. fold tail1 in Hal, Hk.
  pose proof (blit_length _ _ _ _ (wr32_inv _ _ _ _ Ew)) as Hlen.
  split; [done|]. split; [rewrite Hk; eexists; by rewrite <- app_assoc|].
  split; [intros j Hj; apply (blit4_lookup _ _ _ _ _ Ew); lia|].
  intros cdo' cd' Hrow. destruct (Huniq _ _ Hrow) as [-> ->]. unfold row_done.
  destruct (Z.eqb_spec (patched_count offs cd) 0); [done|].
  eexists. rewrite (rd32_wr32 _ _ _ _ Ew). split; [done|].
  exists tail1, []. unfold zlen. rewrite Hlen, app_nil_r. fold (zlen (w_d w)) (zlen tail1).
  split; [done|]. split; [done|]. unfold u32. by rewrite Z.mod_mod.
Qed.

(** The rows of the class table, 32 bytes apart and below [hi]. *)
Fixpoint rows_ok (hi : Z) (rows : list Z) : Prop :=
  match rows with
  | [] => True
  | r :: t => 0 <= r /\ r + 32 <= hi /\ Forall (fun x => r + 32 <= x) t /\ rows_ok hi t
  end.

Lemma row_data_same d d' r cdo cd :
  length d' = length d -> (forall j, r <= Z.of_nat j < r + 32 -> d' !! j = d !! j) ->
  0 <= cdo -> drop (Z.to_nat cdo) d' = drop (Z.to_nat cdo) d ->
  row_data d r cdo cd -> row_data d' r cdo cd.
Proof.
  intros Hl Hj Hc Hd (E & H1 & H2 & q & Er). unfold row_data, zlen in *. rewrite Hl.
  rewrite (rd32_ext d' d) by (done || (intros; apply Hj; lia)).
  repeat (split; [done|]). exists q. by rewrite (read_class_data_ahead d' d cdo Hc Hd).
Qed.

Lemma row_done_same offs d d' tail t r cdo cd :
  length d' = length d -> (forall j, r <= Z.of_nat j < r + 32 -> d' !! j = d !! j) ->
  row_done offs d tail r cdo cd -> row_done offs d' (tail ++ t) r cdo cd.
Proof.
  intros Hl Hj. unfold row_done. rewrite (rd32_ext d' d) by (done || (intros; apply Hj; lia)).
  destruct (_ =? 0); [done|]. intros (o & E & Hp). exists o. split; [done|].
  apply placed_app. unfold placed, zlen in *. by rewrite Hl.
Qed.

Lemma class_steps_spec offs hi rows w w' :
  rows_ok hi rows -> class_steps offs rows w = Ret w' ->
  length (w_d w') = length (w_d w) /\ (exists t, w_tail w' = w_tail w ++ t) /\
  (forall j, Forall (fun r => ~ (r + 24 <= Z.of_nat j < r + 28)) rows ->
     w_d w' !! j = w_d w !! j) /\
  (forall r cdo cd, r ∈ rows -> hi <= cdo -> row_data (w_d w) r cdo cd ->
     row_done offs (w_d w') (w_tail w') r cdo cd).
Proof.
  revert w. induction rows as [|r rows IH]; intros w.
  { intros _ [= <-]. split; [done|]. split; [exists []; by rewrite app_nil_r|].
    split; [done|]. intros r cdo cd []%elem_of_nil. }
  cbn [rows_ok class_steps]. intros (Hr0 & Hrhi & Hsep & Hrows).
  destruct (class_step offs r w) as [w1|e|] eqn:E1; [|done..].
  intros E2. destruct (IH w1 Hrows E2) as (L2 & (t2 & T2) & G2 & D2).
  destruct (class_step_inv _ _ _ _ E1) as (L1 & (t1 & T1) & G1 & D1).
  split; [congruence|]. split; [exists (t1 ++ t2); by rewrite T2, T1, app_assoc|]. split.
  { intros j [Hj1 Hj2]%Forall_cons. rewrite G2 by done. by apply G1. }
  intros r' cdo cd Hin Hcdo Hrow. apply elem_of_cons in Hin as [->|Hin].
  - rewrite T2. apply (row_done_same _ (w_d w1)); [done| |by apply D1].
    intros j Hj. apply G2. eapply Forall_impl; [exact Hsep|]. simpl. lia.
  - apply D2; [done|done|]. rewrite Forall_forall in Hsep. specialize (Hsep r' Hin).
    apply (row_data_same (w_d w)); [done| |lia| |done].
    + intros j Hj. apply G1. lia.
    + apply drop_ext; [done|]. intros j Hj. apply G1. lia.
Qed.

(** *** The seal *)

Section SealFacts.
Variable adler32 : list Z -> Z.

(** The three words and the signature of a finished file. *)
Definition sealed (d : list Z) : Prop :=
  slice d 0x0c 20 = Some (sha1 (drop 0x20 d)) /\
  rd32 d 0x08 = Ret (u32 (adler32 (drop 0x0c d))) /\
  rd32 d 0x20 = Ret (u32 (zlen d)) /\
  exists doff, rd32 d 0x6c = Ret doff /\ rd32 d 0x68 = Ret (u32 (zlen d - doff)).

Lemma seal_spec d d' :
  seal adler32 d = Ret d' ->
  length d' = length d /\ sealed d' /\
  forall j : nat, (0x70 <= j)%nat -> d' !! j = d !! j.
Proof.
  unfold seal. destruct (wr32 d 0x20 _) as [d1|e|] eqn:E1; [|done..]. simpl.
  destruct (rd32 d1 0x6c) as [doff|e|] eqn:Eo; [|done..]. simpl.
  destruct (wr32 d1 0x68 _) as [d2|e|] eqn:E2; [|done..]. simpl.
  destruct (blit d2 0x0c _) as [d3|] eqn:E3; [|done]. simpl. intros E4.
  pose proof (blit_length _ _ _ _ (wr32_inv _ _ _ _ E1)) as L1.
  pose proof (blit_length _ _ _ _ (wr32_inv _ _ _ _ E2)) as L2.
  pose proof (blit_length _ _ _ _ E3) as L3.
  pose proof (blit_length _ _ _ _ (wr32_inv _ _ _ _ E4)) as L4.
  assert (forall j : nat, ~ (8 <= j < 12)%nat -> d' !! j = d3 !! j) as F4.
  { intros j Hj. apply (blit4_lookup _ _ _ _ _ E4). lia. }
  assert (forall j : nat, ~ (12 <= j < 32)%nat -> d3 !! j = d2 !! j) as F3.
  { intros j Hj. rewrite (blit_lookup _ _ _ _ _ E3), sha1_length, decide_False; [done|].
    change (Z.to_nat 0x0c) with 12%nat. lia. }
  assert (forall j : nat, ~ (104 <= j < 108)%nat -> d2 !! j = d1 !! j) as F2.
  { intros j Hj. apply (blit4_lookup _ _ _ _ _ E2). lia. }
  assert (forall j : nat, ~ (32 <= j < 36)%nat -> d1 !! j = d !! j) as F1.
  { intros j Hj. apply (blit4_lookup _ _ _ _ _ E1). lia. }
  assert (zlen d' = zlen d) as Lz by (unfold zlen; congruence).
  assert (zlen d1 = zlen d) as Lz1 by (unfold zlen; congruence).
  split; [congruence|]. split; cycle 1.
  { intros j Hj. rewrite F4, F3, F2, F1 by lia. done. }
  assert (drop 0x20 d' = drop 0x20 d2) as Ed.
  { apply drop_ext; [congruence|]. intros j Hj. rewrite F4, F3 by lia. done. }
  assert (drop 0x0c d' = drop 0x0c d3) as Ed3.
  { apply drop_ext; [congruence|]. intros j Hj. rewrite F4 by lia. done. }
  unfold sealed. rewrite Lz. repeat split.
  - rewrite Ed. rewrite (slice_ext d' d3) by (congruence || (intros; apply F4; lia)).
    rewrite <- (slice_blit_eq _ _ _ _ E3). by rewrite sha1_length.
  - rewrite (rd32_wr32 _ _ _ _ E4), Ed3. unfold u32. by rewrite Z.mod_mod.
  - rewrite (rd32_ext d' d1);
      [|congruence|intros j Hj; rewrite F4, F3, F2 by lia; done].
    rewrite (rd32_wr32 _ _ _ _ E1). unfold u32. by rewrite Z.mod_mod.
  - exists doff. rewrite (rd32_ext d' d1);
      [|congruence|intros j Hj; rewrite F4, F3, F2 by lia; done].
    rewrite (rd32_ext d' d2 0x68);
      [|congruence|intros j Hj; rewrite F4, F3 by lia; done].
    rewrite (rd32_wr32 _ _ _ _ E2), Lz1. unfold u32. by rewrite Z.mod_mod.
Qed.

(** *** The whole build *)

Definition class_rows (d : list Z) : list Z :=
  match rd32 d 0x60, rd32 d 0x64 with
  | Ret n, Ret off => (fun i => off + i * 32) <$> seqZ 0 n
  | _, _ => []
  end.

Lemma rows_ok_seq off n a :
  0 <= off -> 0 <= a -> 0 <= n ->
  rows_ok (off + (a + n) * 32) ((fun i => off + i * 32) <$> seqZ a n).
Proof.
  intros Ho Ha Hn. revert a Ha. pattern n. apply natlike_ind; [done| |done].
  intros m Hm IH a Ha. rewrite seqZ_cons by lia. rewrite fmap_cons. cbn [rows_ok].
  rewrite Z.pred_succ. split; [lia|]. split; [lia|]. split.
  - apply Forall_fmap, Forall_forall. intros x Hx%elem_of_seqZ. simpl. lia.
  - specialize (IH (Z.succ a) ltac:(lia)).
    by replace (a + Z.succ m) with (Z.succ a + m) by lia.
Qed.

(** The pieces of a build that returned a file. *)
Lemma build_inv b b' d' :
  build adler32 b = (Ret d', b') -> d' <> [] ->
  exists n off tail offs w,
    rd32 (d_ b) 0x60 = Ret n /\ rd32 (d_ b) 0x64 = Ret off /\
    0x70 <= zlen (d_ b) /\ off + n * 32 <= zlen (d_ b) /\
    append_codes (d_ b) (recovered_ b) (keys (recovered_ b)) [] ∅ = (tail, offs) /\
    class_steps offs (class_rows (d_ b)) (mkWork (d_ b) tail 0 0) = Ret w /\
    seal adler32 (w_d w ++ w_tail w) = Ret d'.
Proof.
  unfold build. destruct (Z.ltb_spec (zlen (d_ b)) 0x70); [by intros [= <- _]|].
  destruct (negb _); [by intros [= <- _]|]. cbn [orb].
  unfold class_rows.
  destruct (rd32 (d_ b) 0x60) as [n|e|]; [|done..]. cbn.
  destruct (rd32 (d_ b) 0x64) as [off|e|]; [|done..]. cbn.
  destruct (Z.ltb_spec (zlen (d_ b)) (off + n * 32)); [by intros [= <- _]|].
  destruct (append_codes _ _ _ _ _) as [tail offs] eqn:Ea.
  destruct (class_steps _ _ _) as [w|e|] eqn:Ec; [|done..].
  destruct (seal _ _) as [ds|e|] eqn:Es; [|done..]. intros [= <- _] _.
  by exists n, off, tail, offs, w.
Qed.

Lemma rd32_range d o v : bytes_ok d -> rd32 d o = Ret v -> 0 <= v < 2 ^ 32.
Proof.
  intros Hd. unfold rd32. destruct (slice d o 4) as [l|] eqn:E; [|done]. intros [= <-].
  pose proof (le_val_range l (bytes_ok_slice _ _ _ _ Hd E)) as Hn.
  unfold zlen in Hn. by rewrite (slice_length _ _ _ _ E) in Hn.
Qed.

(** What [build] keeps: nothing shifts, and of the original bytes only header
    words and class_data_off fields may change. *)
Lemma build_frame b b' d' :
  bytes_ok (d_ b) -> build adler32 b = (Ret d', b') -> d' <> [] ->
  (length (d_ b) <= length d')%nat /\
  forall j : nat, (0x70 <= j < length (d_ b))%nat ->
    Forall (fun r => ~ (r + 24 <= Z.of_nat j < r + 28)) (class_rows (d_ b)) ->
    d' !! j = d_ b !! j.
Proof.
  intros Hd Hb Hne.
  destruct (build_inv _ _ _ Hb Hne) as (n & off & tail & offs & w & En & Eo & Hs & Hf & Ea & Ec & Es).
  pose proof (rd32_range _ _ _ Hd En). pose proof (rd32_range _ _ _ Hd Eo).
  assert (rows_ok (off + (0 + n) * 32) (class_rows (d_ b))) as Hrows.
  { unfold class_rows. rewrite En, Eo. apply rows_ok_seq; lia. }
  destruct (class_steps_spec _ _ _ _ _ Hrows Ec) as (L & (t & T) & G & _).
  destruct (seal_spec _ _ Es) as (Ls & _ & Fs). simpl in L, G.
  split; [rewrite Ls, length_app; lia|]. intros j Hj Hr.
  rewrite Fs by lia. rewrite lookup_app_l by lia. by apply G.
Qed.

(** C22: the rebuilt file is sealed and nothing in it has moved: file size,
    data size, SHA-1 signature and Adler-32 checksum agree with the returned
    bytes, which are at least as long as the input and equal it everywhere
    behind the header except in the class_data_off fields. *)
Theorem build_seals b b' d' :
  bytes_ok (d_ b) -> build adler32 b = (Ret d', b') -> d' <> [] ->
  sealed d' /\ (length (d_ b) <= length d')%nat /\
  forall j : nat, (0x70 <= j < length (d_ b))%nat ->
    Forall (fun r => ~ (r + 24 <= Z.of_nat j < r + 28)) (class_rows (d_ b)) ->
    d' !! j = d_ b !! j.
Proof.
  intros Hd Hb Hne. split; [|by eapply build_frame].
  destruct (build_inv _ _ _ Hb Hne) as (n & off & tail & offs & w & _ & _ & _ & _ & _ & _ & Es).
  by destruct (seal_spec _ _ Es) as (_ & Hsl & _).
Qed.

(** A block placed behind [d] is found in the sealed file at its offset. *)
Lemma placed_at d tail d' o l :
  seal adler32 (d ++ tail) = Ret d' -> 0x70 <= zlen d -> zlen d' < 2 ^ 32 ->
  placed d tail o l -> at_ d' o l /\ o mod 4 = 0 /\ zlen d <= o.
Proof.
  intros Hs Hd Hw (pre & post & -> & Hm & ->).
  destruct (seal_spec _ _ Hs) as (L & _ & F).
  assert (zlen d' = zlen d + (zlen pre + (zlen l + zlen post))) as Lz.
  { unfold zlen in *. rewrite L, !length_app. lia. }
  pose proof (zlen_nonneg pre). pose proof (zlen_nonneg l). pose proof (zlen_nonneg post).
  rewrite u32_id by lia. split; [|split; [done|lia]].
  exists (take (length d) d' ++ pre), post.
  assert (drop (length d) d' = pre ++ l ++ post) as Ed.
  { rewrite <- (drop_app_length d (pre ++ l ++ post)). apply drop_ext; [done|].
    intros j Hj. apply F. unfold zlen in Hd. lia. }
  split.
  - rewrite <- app_assoc, <- Ed. by rewrite take_drop.
  - rewrite zlen_app. f_equal. unfold zlen in *. rewrite length_take. lia.
Qed.

(** The buffer while step 2 runs keeps its length. *)
Lemma at_slice d p l : at_ d p l -> slice d p (length l) = Some l.
Proof. intros (pre & post & -> & ->). apply slice_middle. Qed.

Definition code_offsets (d' : list Z) (codes : gmap Z (list Z)) (offs : gmap Z Z) : Prop :=
  forall m, match codes !! m with
            | Some ci => exists o, offs !! m = Some o /\ o mod 4 = 0 /\
                                   slice d' o (length ci) = Some ci
            | None => offs !! m = None
            end.

(** Words of the original part survive the seal when they are behind the
    header. *)
Lemma seal_rd32 d tail d' o :
  seal adler32 (d ++ tail) = Ret d' -> 0x70 <= o -> o + 4 <= zlen d -> rd32 d' o = rd32 d o.
Proof.
  intros Hs Ho Hb. destruct (seal_spec _ _ Hs) as (L & _ & F).
  unfold rd32, slice. unfold zlen in *. rewrite L, length_app.
  rewrite !(proj2 (Z.leb_le _ _)) by lia. simpl andb. cbv iota.
  assert (take 4 (drop (Z.to_nat o) d') = take 4 (drop (Z.to_nat o) d)) as ->; [|done].
  apply list_eq. intros j. destruct (decide (j < 4)%nat);
    [|by rewrite !lookup_take_ge by lia].
  rewrite !lookup_take_lt, !lookup_drop by done. rewrite F by lia.
  apply lookup_app_l. lia.
Qed.

Lemma class_rows_elem d n off r :
  rd32 d 0x60 = Ret n -> rd32 d 0x64 = Ret off ->
  r ∈ class_rows d <-> exists i, 0 <= i < n /\ r = off + i * 32.
Proof.
  intros En Eo. unfold class_rows. rewrite En, Eo, list_elem_of_fmap. split.
  - intros (i & -> & Hi%elem_of_seqZ). exists i. split; [lia|done].
  - intros (i & Hi & ->). exists i. split; [done|]. apply elem_of_seqZ. lia.
Qed.

(** What a build makes of its input: the recovered code is in the file and the
    class data of every row that could be read refers to it. *)
Definition relinked (b : Rebuilder) (d' : list Z) : Prop :=
  exists offs, code_offsets d' (recovered_ b) offs /\
    forall r cdo cd,
      r ∈ class_rows (d_ b) -> 0x70 <= r ->
      Forall (fun r' => r' + 32 <= cdo) (class_rows (d_ b)) ->
      row_data (d_ b) r cdo cd ->
      if patched_count offs cd =? 0 then rd32 d' (r + 24) = Ret cdo
      else exists o q, rd32 d' (r + 24) = Ret o /\ o mod 4 = 0 /\
             read_class_data d' o = Ret (patch_class_data offs cd, q).

Lemma build_links b b' d' :
  bytes_ok (d_ b) -> build adler32 b = (Ret d', b') -> d' <> [] -> zlen d' < 2 ^ 32 -> relinked b d'.
Proof.
  intros Hd Hb Hne Hw.
  destruct (build_inv _ _ _ Hb Hne) as (n & off & tail & offs & w & En & Eo & Hs & Hf & Ea & Ec & Es).
  pose proof (rd32_range _ _ _ Hd En). pose proof (rd32_range _ _ _ Hd Eo).
  assert (rows_ok (off + (0 + n) * 32) (class_rows (d_ b))) as Hrows.
  { unfold class_rows. rewrite En, Eo. apply rows_ok_seq; lia. }
  destruct (class_steps_spec _ _ _ _ _ Hrows Ec) as (L & (t & T) & G & D). simpl in L, T, G, D.
  destruct (append_codes_spec _ _ _ _ _ _ _ (keys_NoDup _) Ea) as (_ & Hin & Hout & Hu).
  assert (zlen (w_d w) = zlen (d_ b)) as Lz by (unfold zlen; by rewrite L).
  destruct (seal_spec _ _ Es) as (Ls & _ & Fs).
  exists offs. split.
  - intros m. destruct (recovered_ b !! m) as [ci|] eqn:Em.
    + destruct (Hin m) as (o & Ho & Hp); [apply keys_elem; eauto|]. rewrite Em in Hp.
      exists o. split; [done|].
      destruct (placed_at (w_d w) (w_tail w) d' o ci) as (Hat & Hm & _); [done|lia|done| |].
      { rewrite T. apply placed_app. unfold placed, zlen in *. by rewrite L. }
      split; [done|]. by apply at_slice.
    + rewrite Hout; [done|]. rewrite keys_elem, Em. by intros [? ?].
  - intros r cdo cd Hr H70 Hcdo Hrow.
    destruct (proj1 (class_rows_elem _ _ _ _ En Eo) Hr) as (i & Hi & Eri).
    assert (off + (0 + n) * 32 <= cdo) as Hhi.
    { rewrite Forall_forall in Hcdo.
      assert (off + (n - 1) * 32 ∈ class_rows (d_ b)) as Hl.
      { apply (class_rows_elem _ _ _ _ En Eo). exists (n - 1). split; [lia|done]. }
      specialize (Hcdo _ Hl). lia. }
    specialize (D r cdo cd Hr Hhi Hrow). unfold row_done in D.
    assert (rd32 d' (r + 24) = rd32 (w_d w) (r + 24)) as Erd
      by (apply (seal_rd32 _ _ _ _ Es); lia).
    rewrite Erd. destruct (patched_count offs cd =? 0); [done|].
    destruct D as (o & Ho & Hp).
    destruct (placed_at _ _ _ _ _ Es ltac:(lia) Hw Hp) as (Hat & Hm & _).
    exists o, (o + zlen (enc_class_data (patch_class_data offs cd))).
    split; [done|]. split; [done|]. apply read_class_data_at; [|done].
    apply patch_class_data_ok; [by apply Hu|].
    destruct Hrow as (_ & _ & _ & q & Er). by eapply read_class_data_ok.
Qed.

(** C1: the rebuild relinks.  Every recovered code item is in the returned
    file, whole, at a 4-aligned offset; and for every class whose class data
    could be read, either no method of it was recovered and its
    class_data_off is unchanged, or class_data_off names class data that
    reads as the original with exactly the recovered native methods patched:
    ACC_NATIVE cleared and the code offset pointing at the recovered code. *)
Theorem build_relinks b b' d' :
  bytes_ok (d_ b) -> build adler32 b = (Ret d', b') -> d' <> [] -> zlen d' < 2 ^ 32 ->
  exists offs, code_offsets d' (recovered_ b) offs /\
    forall r cdo cd,
      r ∈ class_rows (d_ b) -> 0x70 <= r ->
      Forall (fun r' => r' + 32 <= cdo) (class_rows (d_ b)) ->
      row_data (d_ b) r cdo cd ->
      if patched_count offs cd =? 0 then rd32 d' (r + 24) = Ret cdo
      else exists o q, rd32 d' (r + 24) = Ret o /\ o mod 4 = 0 /\
             read_class_data d' o = Ret (patch_class_data offs cd, q).
Proof. exact (build_links b b' d').
Qed.
End SealFacts.

(** ** Instances *)

Lemma wuleb_roundtrip_witness :
  uleb ([1; 2] ++ wuleb 0xdeadbeef ++ [3]) (zlen [1; 2])
  = Ret (0xdeadbeef, zlen [1; 2] + zlen (wuleb 0xdeadbeef)) /\
  1 <= zlen (wuleb 0xdeadbeef) <= 5.
Proof. apply (wuleb_roundtrip 0xdeadbeef [1; 2] [3]). lia. Defined.

(** A file with one class whose only method is native, and its code. *)
Definition demo_file : list Z :=
  [100; 101; 120; 10] ++ replicate 0x5c 0 ++ le_bytes 4 1 ++ le_bytes 4 0x70
  ++ le_bytes 4 0 ++ le_bytes 4 0x70
  ++ replicate 24 0 ++ le_bytes 4 0x90 ++ le_bytes 4 0
  ++ [0; 0; 1; 0] ++ [0; 0x82; 0x02; 0].
Definition demo_item : list Z := make_code_item 1 0 0 [0x000e].
Definition demo_rb : Rebuilder := set_code (init_rebuilder demo_file) 0 demo_item.
Definition demo_sum (l : list Z) : Z := fold_left Z.add l 1.
Definition demo_out : list Z :=
  match fst (build demo_sum demo_rb) with Ret d => d | _ => [] end.

Lemma demo_build : build demo_sum demo_rb = (Ret demo_out, snd (build demo_sum demo_rb)).
Proof.
  assert (fst (build demo_sum demo_rb) = Ret demo_out) as E by (vm_compute; reflexivity).
  rewrite <- E. apply surjective_pairing.
Qed.

Lemma demo_file_ok : bytes_ok (d_ demo_rb).
Proof. apply bytes_okb_ok. vm_compute. reflexivity. Qed.

Lemma build_seals_witness : sealed demo_sum demo_out /\ length demo_out = 180%nat.
Proof.
  destruct (build_seals demo_sum demo_rb _ _ demo_file_ok demo_build) as (Hs & _).
  - vm_compute. discriminate.
  - split; [done|vm_compute; reflexivity].
Defined.

(** The method's flags lose the native bit and its code is at 0x98. *)
Lemma build_relinks_witness :
  exists offs, code_offsets demo_out {[0 := demo_item]} offs /\
    exists o q, rd32 demo_out (0x70 + 24) = Ret o /\ o mod 4 = 0 /\
      read_class_data demo_out o =
        Ret (patch_class_data offs (mkClassData [] [] [(0, 0x102, 0)] []), q) /\
      patch_class_data offs (mkClassData [] [] [(0, 0x102, 0)] [])
      = mkClassData [] [] [(0, 2, 0x98)] [].
Proof.
  destruct (build_relinks demo_sum demo_rb _ _ demo_file_ok demo_build) as (offs & Hc & Hr).
  - vm_compute. discriminate.
  - vm_compute. reflexivity.
  - exists offs. split; [exact Hc|].
    assert (offs !! 0 = Some 0x98) as Eo.
    { destruct (Hc 0) as (o & Eo & _). rewrite Eo.
      specialize (Hr 0x70 0x90 (mkClassData [] [] [(0, 0x102, 0)] [])).
      assert (patched_count offs (mkClassData [] [] [(0, 0x102, 0)] []) = 1) as Ep.
      { unfold patched_count. simpl. unfold patch_method. change (u32 (0 + 0)) with 0.
        by rewrite Eo. }
      rewrite Ep in Hr. destruct Hr as (o2 & q & E1 & _ & E2); [..|].
      + vm_compute. left.
      + lia.
      + vm_compute. by repeat constructor.
      + split; [vm_compute; reflexivity|]. split; [done|]. split; [vm_compute; reflexivity|].
        eexists. vm_compute. reflexivity.
      + assert (rd32 demo_out (0x70 + 24) = Ret 0xac) as E3 by (vm_compute; reflexivity).
        rewrite E3 in E1. injection E1 as <-.
        unfold patch_class_data in E2. simpl in E2. unfold patch_method in E2.
        change (u32 (0 + 0)) with 0 in E2. rewrite Eo in E2. vm_compute in E2.
        injection E2 as E2 _. by subst o. }
    assert (patch_class_data offs (mkClassData [] [] [(0, 0x102, 0)] [])
            = mkClassData [] [] [(0, 2, 0x98)] []) as Epatch.
    { unfold patch_class_data. simpl. unfold patch_method. change (u32 (0 + 0)) with 0.
      by rewrite Eo. }
    rewrite Epatch. exists 0xac. eexists. vm_compute. by repeat split.
Defined.

(** Six continuation bytes shift a 32-bit value by 35. *)
Example uleb_overlong : uleb [0x80; 0x80; 0x80; 0x80; 0x80; 0x01] 0 = UB.
Proof. reflexivity. Qed.
