(* ===== verification/DalvikOps.v ===== *)
(** The Dalvik assembler of the devirtualizer: the first half of
    [include/vardoger/dex/devirt_rebuild.hpp] ([md_ops], [md_units],
    [md_encode], [md_assemble]).

    Operands are [int64_t] in the source; they are plain integers here and
    every cast to a narrower type is written out. *)

From S2P Require Import Prelude.
From S2P Require Import Words.

Record MdOp := mkMdOp { op_code : Z; op_fmt : string }.

(** The initializer list of [md_ops]. *)
Definition md_ops_base : list (string * MdOp) := [
  ("nop", mkMdOp 0x00 "10x"); ("move", mkMdOp 0x01 "12x");
   ("move/from16", mkMdOp 0x02 "22x"); ("move-wide", mkMdOp 0x04 "12x");
   ("move-object", mkMdOp 0x07 "12x"); ("move-object/from16", mkMdOp 0x08 "22x");
   ("move-result", mkMdOp 0x0a "11x"); ("move-result-wide", mkMdOp 0x0b "11x");
   ("move-result-object", mkMdOp 0x0c "11x"); ("move-exception", mkMdOp 0x0d "11x");
   ("return-void", mkMdOp 0x0e "10x"); ("return", mkMdOp 0x0f "11x");
   ("return-wide", mkMdOp 0x10 "11x"); ("return-object", mkMdOp 0x11 "11x");
   ("const/4", mkMdOp 0x12 "11n"); ("const/16", mkMdOp 0x13 "21s");
   ("const", mkMdOp 0x14 "31i"); ("const/high16", mkMdOp 0x15 "21h");
   ("const-wide/16", mkMdOp 0x16 "21s"); ("const-wide/32", mkMdOp 0x17 "31i");
   ("const-wide/high16", mkMdOp 0x19 "21h"); ("const-string", mkMdOp 0x1a "21c");
   ("const-class", mkMdOp 0x1c "21c"); ("monitor-enter", mkMdOp 0x1d "11x");
   ("monitor-exit", mkMdOp 0x1e "11x"); ("check-cast", mkMdOp 0x1f "21c");
   ("instance-of", mkMdOp 0x20 "22c"); ("array-length", mkMdOp 0x21 "12x");
   ("new-instance", mkMdOp 0x22 "21c"); ("new-array", mkMdOp 0x23 "22c");
   ("throw", mkMdOp 0x27 "11x"); ("goto", mkMdOp 0x28 "10t");
   ("goto/16", mkMdOp 0x29 "20t"); ("goto/32", mkMdOp 0x2a "30t");
   ("cmpl-float", mkMdOp 0x2d "23x"); ("cmpg-float", mkMdOp 0x2e "23x");
   ("cmpl-double", mkMdOp 0x2f "23x"); ("cmpg-double", mkMdOp 0x30 "23x");
   ("cmp-long", mkMdOp 0x31 "23x"); ("if-eq", mkMdOp 0x32 "22t");
   ("if-ne", mkMdOp 0x33 "22t"); ("if-lt", mkMdOp 0x34 "22t");
   ("if-ge", mkMdOp 0x35 "22t"); ("if-gt", mkMdOp 0x36 "22t");
   ("if-le", mkMdOp 0x37 "22t"); ("if-eqz", mkMdOp 0x38 "21t");
   ("if-nez", mkMdOp 0x39 "21t"); ("if-ltz", mkMdOp 0x3a "21t");
   ("if-gez", mkMdOp 0x3b "21t"); ("if-gtz", mkMdOp 0x3c "21t");
   ("if-lez", mkMdOp 0x3d "21t"); ("aget", mkMdOp 0x44 "23x");
   ("aget-wide", mkMdOp 0x45 "23x"); ("aget-object", mkMdOp 0x46 "23x");
   ("aget-boolean", mkMdOp 0x47 "23x"); ("aget-byte", mkMdOp 0x48 "23x");
   ("aget-char", mkMdOp 0x49 "23x"); ("aget-short", mkMdOp 0x4a "23x");
   ("aput", mkMdOp 0x4b "23x"); ("aput-wide", mkMdOp 0x4c "23x");
   ("aput-object", mkMdOp 0x4d "23x"); ("aput-boolean", mkMdOp 0x4e "23x");
   ("aput-byte", mkMdOp 0x4f "23x"); ("aput-char", mkMdOp 0x50 "23x");
   ("aput-short", mkMdOp 0x51 "23x"); ("iget", mkMdOp 0x52 "22c");
   ("iget-wide", mkMdOp 0x53 "22c"); ("iget-object", mkMdOp 0x54 "22c");
   ("iget-boolean", mkMdOp 0x55 "22c"); ("iget-byte", mkMdOp 0x56 "22c");
   ("iget-char", mkMdOp 0x57 "22c"); ("iget-short", mkMdOp 0x58 "22c");
   ("iput", mkMdOp 0x59 "22c"); ("iput-wide", mkMdOp 0x5a "22c");
   ("iput-object", mkMdOp 0x5b "22c"); ("iput-boolean", mkMdOp 0x5c "22c");
   ("iput-byte", mkMdOp 0x5d "22c"); ("iput-char", mkMdOp 0x5e "22c");
   ("iput-short", mkMdOp 0x5f "22c"); ("sget", mkMdOp 0x60 "21c");
   ("sget-wide", mkMdOp 0x61 "21c"); ("sget-object", mkMdOp 0x62 "21c");
   ("sget-boolean", mkMdOp 0x63 "21c"); ("sget-byte", mkMdOp 0x64 "21c");
   ("sget-char", mkMdOp 0x65 "21c"); ("sget-short", mkMdOp 0x66 "21c");
   ("sput", mkMdOp 0x67 "21c"); ("sput-wide", mkMdOp 0x68 "21c");
   ("sput-object", mkMdOp 0x69 "21c"); ("sput-boolean", mkMdOp 0x6a "21c");
   ("sput-byte", mkMdOp 0x6b "21c"); ("sput-char", mkMdOp 0x6c "21c");
   ("sput-short", mkMdOp 0x6d "21c"); ("invoke-virtual", mkMdOp 0x6e "35c");
   ("invoke-super", mkMdOp 0x6f "35c"); ("invoke-direct", mkMdOp 0x70 "35c");
   ("invoke-static", mkMdOp 0x71 "35c"); ("invoke-interface", mkMdOp 0x72 "35c");
   ("invoke-virtual/range", mkMdOp 0x74 "3rc"); ("invoke-super/range", mkMdOp 0x75 "3rc");
   ("invoke-direct/range", mkMdOp 0x76 "3rc"); ("invoke-static/range", mkMdOp 0x77 "3rc");
   ("invoke-interface/range", mkMdOp 0x78 "3rc"); ("neg-int", mkMdOp 0x7b "12x");
   ("not-int", mkMdOp 0x7c "12x"); ("neg-long", mkMdOp 0x7d "12x");
   ("not-long", mkMdOp 0x7e "12x"); ("neg-float", mkMdOp 0x7f "12x");
   ("neg-double", mkMdOp 0x80 "12x"); ("int-to-long", mkMdOp 0x81 "12x");
   ("int-to-float", mkMdOp 0x82 "12x"); ("int-to-double", mkMdOp 0x83 "12x");
   ("long-to-int", mkMdOp 0x84 "12x"); ("long-to-float", mkMdOp 0x85 "12x");
   ("long-to-double", mkMdOp 0x86 "12x"); ("float-to-int", mkMdOp 0x87 "12x");
   ("float-to-long", mkMdOp 0x88 "12x"); ("float-to-double", mkMdOp 0x89 "12x");
   ("double-to-int", mkMdOp 0x8a "12x"); ("double-to-long", mkMdOp 0x8b "12x");
   ("double-to-float", mkMdOp 0x8c "12x"); ("int-to-byte", mkMdOp 0x8d "12x");
   ("int-to-char", mkMdOp 0x8e "12x"); ("int-to-short", mkMdOp 0x8f "12x")
].

Definition bin_names : list string :=
  ["add-int"; "sub-int"; "mul-int"; "div-int"; "rem-int"; "and-int"; "or-int"; "xor-int";
   "shl-int"; "shr-int"; "ushr-int"; "add-long"; "sub-long"; "mul-long"; "div-long";
   "rem-long"; "and-long"; "or-long"; "xor-long"; "shl-long"; "shr-long"; "ushr-long";
   "add-float"; "sub-float"; "mul-float"; "div-float"; "rem-float"; "add-double";
   "sub-double"; "mul-double"; "div-double"; "rem-double"].
Definition l16_names : list string :=
  ["add-int"; "rsub-int"; "mul-int"; "div-int"; "rem-int"; "and-int"; "or-int"; "xor-int"].
Definition l8_names : list string := l16_names ++ ["shl-int"; "shr-int"; "ushr-int"].

(** [m[names[i] + suffix] = {base + i, fmt}] for each [i]. *)
Definition op_family (names : list string) (suffix : string) (base : Z) (fmt : string)
    : list (string * MdOp) :=
  imap (fun i n => (n +:+ suffix, mkMdOp (base + Z.of_nat i) fmt)) names.

Definition md_ops : list (string * MdOp) :=
  md_ops_base ++ op_family bin_names "" 0x90 "23x" ++ op_family bin_names "/2addr" 0xb0 "12x"
  ++ op_family l16_names "/lit16" 0xd0 "22s" ++ op_family l8_names "/lit8" 0xd8 "22b".

(** [tbl.find(mnem)]. *)
Fixpoint alookup {A} (k : string) (l : list (string * A)) : option A :=
  match l with
  | [] => None
  | (k', a) :: r => if String.eqb k k' then Some a else alookup k r
  end.
Definition md_find (mnem : string) : option MdOp := alookup mnem md_ops.

Definition is_one_of (s : string) (l : list string) : bool := existsb (String.eqb s) l.

Definition md_units (fmt : string) : Z :=
  if is_one_of fmt ["10x"; "11x"; "11n"; "12x"; "10t"] then 1
  else if is_one_of fmt ["22x"; "21s"; "21h"; "21c"; "21t"; "23x"; "22b"; "22s"; "22c"; "22t"; "20t"]
  then 2
  else if is_one_of fmt ["31i"; "31c"; "30t"; "35c"; "3rc"] then 3
  else 1.

Record DalvikInstr := mkDalvikInstr {
  mnem : string;
  ops : list Z;
  regs : list Z;
}.

Definition put_u16 (v : Z) : list Z := le_bytes 2 (u16 v).
Definition put_s16 (v : Z) : list Z := le_bytes 2 (u16 v).
Definition put_i32 (v : Z) : list Z := le_bytes 4 (u32 v).

Definition nib (x : Z) : Z := Z.land x 0xf.

Definition md_encode (ins : DalvikInstr) (cur : Z) : list Z :=
  match md_find (mnem ins) with
  | None => put_u16 0
  | Some (mkMdOp op fmt) =>
      let r i := nth i (ops ins) 0 in
      let aa := put_u16 (Z.lor (Z.shiftl (r 0%nat) 8) op) in
      let ba := put_u16 (Z.lor (Z.lor (Z.shiftl (nib (r 1%nat)) 12)
                                      (Z.shiftl (nib (r 0%nat)) 8)) op) in
      if String.eqb fmt "10x" then put_u16 op
      else if String.eqb fmt "11x" then aa
      else if is_one_of fmt ["11n"; "12x"] then ba
      else if String.eqb fmt "22x" then aa ++ put_u16 (r 1%nat)
      else if is_one_of fmt ["21s"; "21h"] then aa ++ put_s16 (r 1%nat)
      else if String.eqb fmt "21c" then aa ++ put_u16 (r 1%nat)
      else if String.eqb fmt "31i" then aa ++ put_i32 (r 1%nat)
      else if String.eqb fmt "23x"
      then aa ++ put_u16 (Z.lor (Z.shiftl (r 2%nat) 8) (r 1%nat))
      else if String.eqb fmt "22b"
      then aa ++ put_u16 (Z.lor (Z.shiftl (Z.land (r 2%nat) 0xff) 8) (r 1%nat))
      else if String.eqb fmt "22s" then ba ++ put_s16 (r 2%nat)
      else if String.eqb fmt "22c" then ba ++ put_u16 (r 2%nat)
      else if String.eqb fmt "22t" then ba ++ put_s16 (r 2%nat - cur)
      else if String.eqb fmt "21t" then aa ++ put_s16 (r 1%nat - cur)
      else if String.eqb fmt "10t"
      then put_u16 (Z.lor (Z.shiftl (Z.land (r 0%nat - cur) 0xff) 8) op)
      else if String.eqb fmt "20t" then put_u16 op ++ put_s16 (r 0%nat - cur)
      else if String.eqb fmt "30t" then put_u16 op ++ put_i32 (r 0%nat - cur)
      else if String.eqb fmt "35c" then
        let rr i := nib (nth i (regs ins) 0) in
        put_u16 (Z.lor (Z.lor (Z.shiftl (zlen (regs ins)) 12) (Z.shiftl (rr 4%nat) 8)) op)
        ++ put_u16 (r 1%nat)
        ++ put_u16 (Z.lor (Z.lor (Z.lor (Z.shiftl (rr 3%nat) 12) (Z.shiftl (rr 2%nat) 8))
                                 (Z.shiftl (rr 1%nat) 4)) (rr 0%nat))
      else if String.eqb fmt "3rc" then
        put_u16 (Z.lor (Z.shiftl (r 1%nat) 8) op) ++ put_u16 (r 2%nat) ++ put_u16 (r 0%nat)
      else put_u16 0
  end.

(** The units an instruction takes in the first pass of [md_assemble]. *)
Definition instr_units (ins : DalvikInstr) : Z :=
  match md_find (mnem ins) with None => 1 | Some o => md_units (op_fmt o) end.

Fixpoint unit_offsets (u : Z) (instrs : list DalvikInstr) : list Z :=
  match instrs with
  | [] => []
  | i :: r => u :: unit_offsets (u + instr_units i) r
  end.

(** Which operand of a branch format is the target index. *)
Definition branch_operand (fmt : string) : option nat :=
  if is_one_of fmt ["10t"; "20t"; "30t"] then Some 0%nat
  else if String.eqb fmt "21t" then Some 1%nat
  else if String.eqb fmt "22t" then Some 2%nat
  else None.

(** Replace the target index by the unit offset it names, when it names one. *)
Definition resolve (offs : list Z) (ins : DalvikInstr) : DalvikInstr :=
  let fmt := match md_find (mnem ins) with None => "10x" | Some o => op_fmt o end in
  match branch_operand fmt with
  | None => ins
  | Some k =>
      match ops ins !! k with
      | None => ins
      | Some idx =>
          match znth offs idx with
          | Some o => mkDalvikInstr (mnem ins) (<[k := o]> (ops ins)) (regs ins)
          | None => ins
          end
      end
  end.

Fixpoint encode_all (offs : list Z) (instrs : list DalvikInstr) (at_ : list Z) : list Z :=
  match instrs, at_ with
  | i :: r, o :: os => md_encode (resolve offs i) o ++ encode_all offs r os
  | _, _ => []
  end.

(** [units.push_back(raw[i] | (raw[i + 1] << 8))], and a last odd byte. *)
Fixpoint to_units (raw : list Z) : list Z :=
  match raw with
  | a :: b :: r => Z.lor a (Z.shiftl b 8) :: to_units r
  | [a] => [a]
  | [] => []
  end.

Definition md_assemble (instrs : list DalvikInstr) : list Z :=
  let offs := unit_offsets 0 instrs in
  to_units (encode_all offs instrs offs).

(** ** The table *)

Definition all_fmts : list string :=
  ["10x"; "11x"; "11n"; "12x"; "22x"; "21s"; "21h"; "21c"; "31i"; "23x"; "22b"; "22s";
   "22c"; "22t"; "21t"; "10t"; "20t"; "30t"; "35c"; "3rc"].

Lemma alookup_elem {A} k (l : list (string * A)) a : alookup k l = Some a -> (k, a) ∈ l.
Proof.
  induction l as [|[k' a'] l IH]; simpl; [done|].
  destruct (String.eqb_spec k k') as [->|]; [intros [= ->]; by left|].
  intros E%IH. by right.
Qed.

Lemma md_ops_check :
  forallb (fun e : string * MdOp =>
    is_one_of (op_fmt (snd e)) all_fmts && (0 <=? op_code (snd e)) && (op_code (snd e) <? 256))
    md_ops = true.
Proof. vm_compute. reflexivity. Qed.

Lemma md_find_ok m op fmt :
  md_find m = Some (mkMdOp op fmt) -> fmt ∈ all_fmts /\ 0 <= op < 256.
Proof.
  intros Hin%alookup_elem%list_elem_of_In.
  pose proof (proj1 (forallb_forall _ _) md_ops_check _ Hin) as Hc. cbn [fst snd op_fmt op_code] in Hc.
  apply andb_true_iff in Hc as [Hc ?%Z.ltb_lt]. apply andb_true_iff in Hc as [Hc ?%Z.leb_le].
  split; [|lia]. apply existsb_exists in Hc as (x & Hx & ->%String.eqb_eq).
  by apply list_elem_of_In.
Qed.

(** The mnemonic table is a table: no mnemonic and no opcode occurs
    twice, and every format has an encoder. *)
Lemma md_ops_unique : NoDup md_ops.*1 /\ NoDup (op_code <$> md_ops.*2).
Proof.
  split; apply (bool_decide_unpack _); vm_compute; exact I.
Qed.

(** ** Sizes and layout *)

Lemma length_put_u16 v : length (put_u16 v) = 2%nat.
Proof. apply length_le_bytes. Qed.
Lemma length_put_s16 v : length (put_s16 v) = 2%nat.
Proof. apply length_le_bytes. Qed.
Lemma length_put_i32 v : length (put_i32 v) = 4%nat.
Proof. apply length_le_bytes. Qed.

Ltac fmt_cases H :=
  repeat (apply elem_of_cons in H as [->|H]); [..|by apply elem_of_nil in H].

(** An instruction encodes to exactly the units the first pass counts. *)
Lemma encode_size ins cur : zlen (md_encode ins cur) = 2 * instr_units ins.
Proof.
  unfold md_encode, instr_units. destruct (md_find (mnem ins)) as [[op fmt]|] eqn:E; [|done].
  apply md_find_ok in E as [Hf _]. unfold zlen.
  fmt_cases Hf; cbn -[put_u16 put_s16 put_i32];
    rewrite ?length_app, ?length_put_u16, ?length_put_s16, ?length_put_i32; done.
Qed.

Lemma instr_units_pos ins : 1 <= instr_units ins.
Proof.
  unfold instr_units. destruct (md_find (mnem ins)) as [[op fmt]|] eqn:E; [|done].
  apply md_find_ok in E as [Hf _]. fmt_cases Hf; done.
Qed.

Lemma instr_units_resolve offs ins : instr_units (resolve offs ins) = instr_units ins.
Proof.
  unfold resolve. destruct (branch_operand _) as [k|]; [|done].
  destruct (ops ins !! k) as [idx|]; [|done]. by destruct (znth offs idx).
Qed.

Lemma to_units_app a b :
  zlen a mod 2 = 0 -> to_units (a ++ b) = to_units a ++ to_units b.
Proof.
  remember (length a) as n eqn:Hn. revert a Hn. induction (lt_wf n) as [n _ IH].
  intros [|x [|y a]] -> He; [done|discriminate|]. simpl. f_equal.
  apply (IH (length a)); [simpl; lia|done|].
  unfold zlen in *. simpl in He. rewrite !Nat2Z.inj_succ in He.
  replace (Z.succ (Z.succ (Z.of_nat (length a)))) with (Z.of_nat (length a) + 1 * 2) in He by lia.
  by rewrite Z.mod_add in He.
Qed.

Lemma to_units_length a : zlen a mod 2 = 0 -> 2 * zlen (to_units a) = zlen a.
Proof.
  remember (length a) as n eqn:Hn. revert a Hn. induction (lt_wf n) as [n _ IH].
  intros [|x [|y a]] -> He; [done|discriminate|]. unfold zlen in *. simpl length in *.
  assert (Z.of_nat (length a) mod 2 = 0) as Ha.
  { replace (Z.of_nat (S (S (length a)))) with (Z.of_nat (length a) + 1 * 2) in He by lia.
    by rewrite Z.mod_add in He. }
  specialize (IH (length a) ltac:(lia) a eq_refl Ha). lia.
Qed.

Definition total_units (l : list DalvikInstr) : Z := foldr (fun i n => instr_units i + n) 0 l.

Lemma encode_all_even offs l u : zlen (encode_all offs l (unit_offsets u l)) = 2 * total_units l.
Proof.
  revert u. induction l as [|i l IH]; intros u; [done|]. cbn [unit_offsets encode_all total_units foldr].
  rewrite zlen_app, encode_size, instr_units_resolve, IH. unfold total_units. lia.
Qed.

Lemma even_mod n : 2 * n mod 2 = 0.
Proof. rewrite Z.mul_comm. by apply Z.mod_mul. Qed.

Lemma encode_all_layout offs l u i ins :
  l !! i = Some ins ->
  exists o, unit_offsets u l !! i = Some o /\ u <= o /\
    take (Z.to_nat (instr_units ins))
         (drop (Z.to_nat (o - u)) (to_units (encode_all offs l (unit_offsets u l))))
    = to_units (md_encode (resolve offs ins) o) /\
    o - u + instr_units ins <= total_units l.
Proof.
  revert u i. induction l as [|x l IH]; intros u [|i]; try done.
  - intros [= ->]. exists u. split; [done|]. split; [lia|]. cbn [unit_offsets encode_all].
    rewrite to_units_app by (rewrite encode_size; apply even_mod).
    rewrite Z.sub_diag. simpl drop.
    assert (length (to_units (md_encode (resolve offs ins) u)) = Z.to_nat (instr_units ins)) as El.
    { pose proof (to_units_length (md_encode (resolve offs ins) u)) as Ht.
      rewrite encode_size, instr_units_resolve in Ht. specialize (Ht (even_mod _)).
      unfold zlen in Ht. lia. }
    split; [rewrite <- El; apply take_app_length|]. cbn [total_units foldr].
    assert (0 <= total_units l); [|unfold total_units in *; lia].
    clear. induction l as [|y l IH]; [done|]. cbn [total_units foldr].
    pose proof (instr_units_pos y). unfold total_units in *. lia.
  - intros Hi. cbn [unit_offsets encode_all].
    destruct (IH (u + instr_units x) i Hi) as (o & Ho & Hle & Ht & Hb).
    pose proof (instr_units_pos x).
    exists o. split; [done|]. split; [lia|].
    rewrite to_units_app by (rewrite encode_size; apply even_mod).
    assert (length (to_units (md_encode (resolve offs x) u)) = Z.to_nat (instr_units x)) as El.
    { pose proof (to_units_length (md_encode (resolve offs x) u)) as Ht2.
      rewrite encode_size, instr_units_resolve in Ht2. specialize (Ht2 (even_mod _)).
      unfold zlen in Ht2. lia. }
    split; [|cbn [total_units foldr]; unfold total_units in *; lia].
    rewrite <- Ht. f_equal.
    replace (Z.to_nat (o - u))
      with (length (to_units (md_encode (resolve offs x) u)) + Z.to_nat (o - (u + instr_units x)))%nat
      by lia.
    by rewrite <- drop_drop, drop_app_length.
Qed.

Lemma assemble_layout_aux instrs i ins :
  instrs !! i = Some ins ->
  exists o, unit_offsets 0 instrs !! i = Some o /\ 0 <= o /\
    zlen (md_assemble instrs) = total_units instrs /\
    o + instr_units ins <= zlen (md_assemble instrs) /\
    take (Z.to_nat (instr_units ins)) (drop (Z.to_nat o) (md_assemble instrs))
    = to_units (md_encode (resolve (unit_offsets 0 instrs) ins) o).
Proof.
  intros Hi.
  destruct (encode_all_layout (unit_offsets 0 instrs) instrs 0 i ins Hi) as (o & Ho & Hle & Ht & Hb).
  assert (zlen (md_assemble instrs) = total_units instrs) as El.
  { pose proof (to_units_length (encode_all (unit_offsets 0 instrs) instrs (unit_offsets 0 instrs)))
      as Hl. rewrite encode_all_even in Hl. specialize (Hl (even_mod _)).
    unfold md_assemble. lia. }
  exists o. split; [done|]. split; [done|]. split; [done|]. rewrite El.
  rewrite Z.sub_0_r in *. split; [lia|]. exact Ht.
Qed.

(** C25: the assembled stream is laid out as the first pass counted: its
    length is the sum of the instruction sizes and each instruction's units
    are exactly its encoding, at its own offset, branch target resolved. *)
Theorem assemble_layout instrs i ins :
  instrs !! i = Some ins ->
  exists o, unit_offsets 0 instrs !! i = Some o /\ 0 <= o /\
    zlen (md_assemble instrs) = total_units instrs /\
    o + instr_units ins <= zlen (md_assemble instrs) /\
    take (Z.to_nat (instr_units ins)) (drop (Z.to_nat o) (md_assemble instrs))
    = to_units (md_encode (resolve (unit_offsets 0 instrs) ins) o).
Proof. apply assemble_layout_aux. Qed.

(** ** Branches *)

Lemma put_u16_bytes v : put_u16 v = [v mod 256; v / 256 mod 256].
Proof. exact (le_bytes_mod 2 v). Qed.

Lemma put_i32_halves v : put_i32 v = put_u16 v ++ put_u16 (v / 65536).
Proof.
  transitivity (le_bytes 2 v ++ le_bytes 2 (v / 65536)).
  - etrans; [exact (le_bytes_mod 4 v)|exact (le_bytes_app 2 2 v)].
  - f_equal; symmetry; [exact (le_bytes_mod 2 v)|exact (le_bytes_mod 2 _)].
Qed.

Lemma to_units_put v r : to_units (put_u16 v ++ r) = u16 v :: to_units r.
Proof.
  rewrite put_u16_bytes. cbn [app to_units]. f_equal.
  rewrite Z.lor_comm, lor_add_shift by (lia || by apply Z.mod_pos_bound).
  unfold u16. change (2 ^ 16) with (256 * 256). change (2 ^ 8) with 256.
  rewrite Z.rem_mul_r by lia. lia.
Qed.

Lemma to_units_put_last v : to_units (put_u16 v) = [u16 v].
Proof. rewrite <- (app_nil_r (put_u16 v)). by rewrite to_units_put. Qed.

(** The opcode is the low byte of the first unit. *)
Lemma low_byte x op : 0 <= op < 256 -> u16 (Z.lor (Z.shiftl x 8) op) mod 256 = op.
Proof.
  intros Ho. rewrite lor_add_shift by lia. unfold u16. change (2 ^ 16) with (256 * 256).
  rewrite Z.rem_mul_r by lia. rewrite (Z.mul_comm 256 (_ mod _)), Z.mod_add, Z.mod_mod by lia.
  change (2 ^ 8) with 256. rewrite Z.add_comm, Z.mod_add by lia. by apply Z.mod_small.
Qed.

Lemma shiftl_12_8 a b : Z.lor (Z.shiftl a 12) (Z.shiftl b 8) = Z.shiftl (Z.lor (Z.shiftl a 4) b) 8.
Proof. rewrite Z.shiftl_lor, Z.shiftl_shiftl by lia. done. Qed.

(** How Dalvik reads the branch displacement of an instruction at unit [o],
    and how far each format reaches. *)
Definition unit_at (l : list Z) (o : Z) : Z := nth (Z.to_nat o) l 0.
Definition branch_disp (fmt : string) (l : list Z) (o : Z) : Z :=
  if String.eqb fmt "10t" then s8 (Z.shiftr (unit_at l o) 8)
  else if String.eqb fmt "30t" then s32 (unit_at l (o + 1) + 65536 * unit_at l (o + 2))
  else s16 (unit_at l (o + 1)).
Definition branch_reach (fmt : string) : Z :=
  if String.eqb fmt "10t" then 2 ^ 7 else if String.eqb fmt "30t" then 2 ^ 31 else 2 ^ 15.

Lemma unit_at_slice l o n k (us : list Z) :
  0 <= o -> (k < length us)%nat -> take n (drop (Z.to_nat o) l) = us ->
  unit_at l (o + Z.of_nat k) = nth k us 0.
Proof.
  intros Ho Hk E. unfold unit_at.
  assert (k < n)%nat as Hkn.
  { rewrite <- E, length_take in Hk. lia. }
  rewrite <- E. rewrite !nth_lookup. rewrite lookup_take_lt, lookup_drop by done.
  do 2 f_equal. lia.
Qed.

(** The units of a branch to absolute unit [t] encoded at unit [o]. *)
Definition branch_units (fmt : string) (d : Z) (first : Z) : list Z :=
  if String.eqb fmt "10t" then [first]
  else if String.eqb fmt "30t" then [first; u16 d; u16 (d / 65536)]
  else [first; u16 d].

Lemma branch_encode ins op fmt k t o :
  md_find (mnem ins) = Some (mkMdOp op fmt) -> branch_operand fmt = Some k ->
  ops ins !! k = Some t ->
  exists first, to_units (md_encode ins o) = branch_units fmt (t - o) first /\
    first mod 256 = op /\
    (fmt = "10t" -> Z.shiftr first 8 = (t - o) mod 256).
Proof.
  intros Ef Hb Ht. pose proof (md_find_ok _ _ _ Ef) as [Hf Hop].
  assert (nth k (ops ins) 0 = t) as Hn by (by apply nth_lookup_Some).
  unfold md_encode. rewrite Ef.
  fmt_cases Hf; try discriminate; injection Hb as <-; cbn -[put_u16 put_s16 put_i32 nth to_units];
    change put_s16 with put_u16; rewrite ?put_i32_halves;
    rewrite ?to_units_put, ?to_units_put_last, Hn.
  - eexists. split; [done|]. split; [by rewrite shiftl_12_8, low_byte|done].
  - eexists. split; [done|]. split; [by apply low_byte|done].
  - eexists. split; [done|]. split; [by apply low_byte|].
    intros _. rewrite lor_add_shift by lia. rewrite land_255.
    pose proof (Z.mod_pos_bound (t - o) 256 ltac:(lia)) as Hm.
    rewrite u16_id by (change (2 ^ 8) with 256; lia).
    rewrite Z.shiftr_div_pow2 by lia. change (2 ^ 8) with 256.
    rewrite Z.add_comm, Z.div_add by lia. rewrite Z.div_small by lia. lia.
  - eexists. split; [done|]. split; [|done]. rewrite u16_id by lia. by apply Z.mod_small.
  - eexists. split; [done|]. split; [|done]. rewrite u16_id by lia. by apply Z.mod_small.
Qed.

(** An assembled branch goes to the instruction its operand names exactly
    when the distance fits the format: at the branch's own offset the stream
    holds its opcode, and the displacement Dalvik reads there is the
    distance to the target's offset if and only if that is within the 8-,
    16- or 32-bit reach of the format. *)
Lemma branch_reaches_iff instrs i ins op fmt k t oi ot :
  instrs !! i = Some ins -> md_find (mnem ins) = Some (mkMdOp op fmt) ->
  branch_operand fmt = Some k -> ops ins !! k = Some t ->
  unit_offsets 0 instrs !! i = Some oi -> znth (unit_offsets 0 instrs) t = Some ot ->
  unit_at (md_assemble instrs) oi mod 256 = op /\
  (branch_disp fmt (md_assemble instrs) oi = ot - oi <->
   - branch_reach fmt <= ot - oi < branch_reach fmt).
Proof.
  intros Hi Ef Hb Ht Hoi Hot.
  destruct (assemble_layout_aux instrs i ins Hi) as (o & Ho & Ho0 & _ & _ & Hl).
  rewrite Hoi in Ho. injection Ho as <-.
  assert (resolve (unit_offsets 0 instrs) ins
          = mkDalvikInstr (mnem ins) (<[k := ot]> (ops ins)) (regs ins)) as Er.
  { unfold resolve. rewrite Ef. simpl op_fmt. by rewrite Hb, Ht, Hot. }
  rewrite Er in Hl.
  destruct (branch_encode (mkDalvikInstr (mnem ins) (<[k := ot]> (ops ins)) (regs ins))
              op fmt k ot oi Ef Hb) as (first & Eu & Hop & Hd).
  { simpl. apply list_lookup_insert_eq. by eapply lookup_lt_Some. }
  rewrite Eu in Hl. set (d := ot - oi) in *.
  assert (forall j, 0 <= j < zlen (branch_units fmt d first) ->
    unit_at (md_assemble instrs) (oi + j) = nth (Z.to_nat j) (branch_units fmt d first) 0) as Hat.
  { intros j Hj. unfold zlen in Hj. rewrite <- (Z2Nat.id j) at 1 by lia.
    eapply unit_at_slice; [done|lia|done]. }
  assert (unit_at (md_assemble instrs) oi = first) as H0.
  { specialize (Hat 0). rewrite Z.add_0_r in Hat.
    rewrite Hat; unfold branch_units; repeat case_match; simpl; done. }
  split; [by rewrite H0|].
  assert (s16 (u16 d) = d <-> - 2 ^ 15 <= d < 2 ^ 15) as H16.
  { unfold s16, u16. rewrite sext_mod. by apply sext_eq_iff. }
  pose proof (md_find_ok _ _ _ Ef) as [Hf _].
  unfold branch_disp, branch_reach. fmt_cases Hf; try discriminate; cbn -[unit_at s8 s16 s32 Z.pow].
  - rewrite (Hat 1) by done. exact H16.
  - rewrite (Hat 1) by done. exact H16.
  - rewrite H0, Hd by done. unfold s8. change 256 with (2 ^ 8). rewrite sext_mod.
    by apply sext_eq_iff.
  - rewrite (Hat 1) by done. exact H16.
  - rewrite (Hat 1), (Hat 2) by done. simpl nth.
    assert (u16 d + 65536 * u16 (d / 65536) = d mod 2 ^ 32) as ->.
    { unfold u16. change (2 ^ 32) with (65536 * 65536). by rewrite (Z.rem_mul_r d). }
    unfold s32. rewrite sext_mod. by apply sext_eq_iff.
Qed.

(** ** Instances *)

(** A loop: const/4 v0,3; if-eqz v0 -> 3; goto -> 1; return-void. *)
Definition demo_loop : list DalvikInstr :=
  [mkDalvikInstr "const/4" [0; 3] []; mkDalvikInstr "if-eqz" [0; 3] [];
   mkDalvikInstr "goto" [1] []; mkDalvikInstr "return-void" [] []].

Example demo_loop_units : md_assemble demo_loop = [0x3012; 0x0038; 0x0003; 0xfe28; 0x000e].
Proof. vm_compute. reflexivity. Qed.

Lemma assemble_layout_witness :
  exists o, unit_offsets 0 demo_loop !! 1%nat = Some o /\ 0 <= o /\
    zlen (md_assemble demo_loop) = total_units demo_loop /\
    o + instr_units (mkDalvikInstr "if-eqz" [0; 3] []) <= zlen (md_assemble demo_loop) /\
    take (Z.to_nat (instr_units (mkDalvikInstr "if-eqz" [0; 3] [])))
         (drop (Z.to_nat o) (md_assemble demo_loop))
    = to_units (md_encode (resolve (unit_offsets 0 demo_loop)
                                   (mkDalvikInstr "if-eqz" [0; 3] [])) o).
Proof. apply (assemble_layout demo_loop 1%nat (mkDalvikInstr "if-eqz" [0; 3] []) eq_refl). Defined.

Lemma branch_reaches_iff_witness :
  unit_at (md_assemble demo_loop) 3 mod 256 = 0x28 /\
  (branch_disp "10t" (md_assemble demo_loop) 3 = 1 - 3 <->
   - branch_reach "10t" <= 1 - 3 < branch_reach "10t").
Proof.
  apply (branch_reaches_iff demo_loop 2%nat (mkDalvikInstr "goto" [1] []) 0x28 "10t" 0%nat 1 3 1);
    vm_compute; reflexivity.
Defined.

(** A loop of 130 one-unit instructions closed by a [goto]: the displacement
    -130 is stored as 126, a jump forwards. *)
Definition far_loop : list DalvikInstr :=
  replicate 130 (mkDalvikInstr "nop" [] []) ++ [mkDalvikInstr "goto" [0] []].

Lemma far_goto_truncated : branch_disp "10t" (md_assemble far_loop) 130 = 126.
Proof. vm_compute. reflexivity. Qed.
