(* ===== verification/CText.v ===== *)
(** The C library text functions the log parsers use: [std::string::find],
    [substr], [find_first_of], [strtol] and friends, [std::getline] and
    [operator>>] on a string stream.  A position is a [nat]; [npos] is
    [None]. *)

From S2P Require Import Prelude.
From S2P Require Import Words.
From Stdlib Require Import Ascii.
#[local] Open Scope Z_scope.

(** Bytes as the characters of a [std::string]. *)
Definition text (l : list Z) : string :=
  foldr (fun c s => String (Ascii.ascii_of_N (Z.to_N c)) s) "" l.

(** [s.find(sub, pos)]. *)
Definition find_from (sub s : string) (pos : nat) : option nat := String.index pos sub s.
Definition str_contains (s sub : string) : bool :=
  match find_from sub s 0 with Some _ => true | None => false end.

Fixpoint drop_str (n : nat) (s : string) : string :=
  match n, s with
  | S k, String _ r => drop_str k r
  | O, _ => s
  | _, EmptyString => EmptyString
  end.

(** The text before the first character of [stops], and whether one was met. *)
Fixpoint until (stops : Ascii.ascii -> bool) (s : string) : string :=
  match s with
  | EmptyString => EmptyString
  | String c r => if stops c then EmptyString else String c (until stops r)
  end.

Definition tab : Ascii.ascii := Ascii.ascii_of_nat 9.
Definition nl : Ascii.ascii := Ascii.ascii_of_nat 10.
Definition cr : Ascii.ascii := Ascii.ascii_of_nat 13.
Definition is_blank (c : Ascii.ascii) : bool := Ascii.eqb c " " || Ascii.eqb c tab.
(** [isspace] in the C locale: 9 to 13 and the space. *)
Definition is_space (c : Ascii.ascii) : bool :=
  let n := Ascii.nat_of_ascii c in Nat.eqb n 32 || (Nat.leb 9 n && Nat.leb n 13).

(** [std::getline] in a loop: a last line without newline counts if it is not
    empty. *)
Fixpoint lines_acc (cur : string) (s : string) : list string :=
  match s with
  | EmptyString => if String.eqb cur "" then [] else [cur]
  | String c r => if Ascii.eqb c nl then cur :: lines_acc "" r
                  else lines_acc (cur +:+ String c "") r
  end.
Definition get_lines (s : string) : list string := lines_acc "" s.

(** [while (is >> tok)]. *)
Fixpoint tokens_acc (cur : string) (s : string) : list string :=
  match s with
  | EmptyString => if String.eqb cur "" then [] else [cur]
  | String c r => if is_space c
                  then if String.eqb cur "" then tokens_acc "" r else cur :: tokens_acc "" r
                  else tokens_acc (cur +:+ String c "") r
  end.
Definition tokens (s : string) : list string := tokens_acc "" s.

(** ** Numbers *)

Definition digit (c : Ascii.ascii) : Z :=
  let n := Z.of_N (Ascii.N_of_ascii c) in
  if (48 <=? n) && (n <=? 57) then n - 48
  else if (97 <=? n) && (n <=? 122) then n - 87
  else if (65 <=? n) && (n <=? 90) then n - 55
  else 99.

(** The value of the leading digits and how many there are. *)
Fixpoint digits (base acc : Z) (count : nat) (s : string) : Z * nat :=
  match s with
  | EmptyString => (acc, count)
  | String c r => if digit c <? base then digits base (acc * base + digit c) (S count) r
                  else (acc, count)
  end.

Fixpoint skip_space (s : string) : string :=
  match s with
  | String c r => if is_space c then skip_space r else s
  | EmptyString => EmptyString
  end.

(** The optional 0x prefix, only when a hexadecimal digit follows. *)
Definition strip_0x (s : string) : option string :=
  match s with
  | String z (String x (String d _ as r)) =>
      if Ascii.eqb z "0" && (Ascii.eqb x "x" || Ascii.eqb x "X") && (digit d <? 16)
      then Some r else None
  | _ => None
  end.

(** The magnitude without sign: [None] when nothing was converted. *)
Definition magnitude (base : Z) (s : string) : option Z :=
  let '(b, t) :=
    if base =? 16 then (16, default s (strip_0x s))
    else if base =? 0 then
      match strip_0x s with
      | Some r => (16, r)
      | None => match s with
                | String z _ => if Ascii.eqb z "0" then (8, s) else (10, s)
                | EmptyString => (10, s)
                end
      end
    else (base, s) in
  let '(v, n) := digits b 0 0 t in
  if Nat.eqb n 0 then None else Some v.

(** How far the magnitude reaches, the prefix included: 0 when nothing was
    converted. *)
Definition magnitude_end (base : Z) (s : string) : nat :=
  let count b t := snd (digits b 0 0 t) in
  let plain b := count b s in
  if (base =? 16) || (base =? 0) then
    match strip_0x s with
    | Some r => S (S (count 16 r))
    | None => if base =? 16 then plain 16 else
              match s with String z _ => if Ascii.eqb z "0" then plain 8 else plain 10 | EmptyString => O end
    end
  else plain base.
(** [endp - s] of [strtol] and its kin: 0 when nothing was converted. *)
Definition scan_end (base : Z) (s : string) : nat :=
  let r := skip_space s in
  let skipped := (String.length s - String.length r)%nat in
  let past n k := match k with O => O | S _ => (n + k)%nat end in
  match r with
  | String c t => if Ascii.eqb c "-" || Ascii.eqb c "+" then past (S skipped) (magnitude_end base t)
                  else past skipped (magnitude_end base r)
  | EmptyString => O
  end.

(** The sign and the magnitude of the number at the start of [s]. *)
Definition scan_number (base : Z) (s : string) : option (bool * Z) :=
  match skip_space s with
  | String c r =>
      if Ascii.eqb c "-" then pair true <$> magnitude base r
      else if Ascii.eqb c "+" then pair false <$> magnitude base r
      else pair false <$> magnitude base (String c r)
  | EmptyString => None
  end.

(** [strtol]/[strtoll] with [endp]: [None] when [endp] stays at the start. *)
Definition strtol_opt (base : Z) (s : string) : option Z :=
  match scan_number base s with
  | Some (true, v) => Some (Z.max (- 2 ^ 63) (- v))
  | Some (false, v) => Some (Z.min (2 ^ 63 - 1) v)
  | None => None
  end.
Definition strtol (base : Z) (s : string) : Z := default 0 (strtol_opt base s).

(** [strtoul]: a minus sign negates in the unsigned type. *)
Definition strtoul (base : Z) (s : string) : Z :=
  match scan_number base s with
  | Some (neg, v) => if 2 ^ 64 <=? v then 2 ^ 64 - 1 else if neg : bool then u64 (- v) else v
  | None => 0
  end.

Example strtol_cases :
  strtol 10 " -42 x" = -42 /\ strtol 0 "0x1fZ" = 31 /\ strtol 16 "0xg" = 0 /\
  strtol 10 "9223372036854775808" = 2 ^ 63 - 1 /\ strtoul 16 "-1" = 2 ^ 64 - 1 /\
  strtol 0 "017" = 15 /\ strtol_opt 10 ">" = None.
Proof. vm_compute. done. Qed.

Example tokens_case : tokens " 1  22 3" = ["1"; "22"; "3"].
Proof. reflexivity. Qed.
