(* ===== verification/DevirtLog.v ===== *)
(** The decode log of the devirtualizer: the parsers of
    [include/vardoger/dex/devirt_rebuild.hpp] ([extract_field], [parse_dlv],
    [md_parse_static], [parse_opmap]). *)

From S2P Require Import Prelude.
From S2P Require Import Words.
From S2P Require Import CText.
From Stdlib Require Import Ascii.
#[local] Open Scope Z_scope.

Record RwPair := mkRwPair { rw_reg : Z; rw_val : Z }.

Record RawDlv := mkRawDlv {
  dlv_p : Z;
  dlv_op : Z;
  dlv_raw : Z;
  has_tgt : bool;
  tgt : Z;
  dlv_reads : list RwPair;
  dlv_writes : list RwPair;
  dlv_has_pool : bool;
  dlv_pool : Z;
  has_fetch : bool;
}.

Record MethodBlock := mkMethodBlock {
  blk_cls : string;
  blk_name : string;
  blk_sig : string;
  blk_dlv : list RawDlv;
}.

Record MicrovmRow := mkMicrovmRow {
  mv_reads : list Z;
  mv_writes : list Z;
  mv_alu : list string;
  mv_branch : Z;
  mv_nfetch : Z;
  mv_worddec : Z;
  mv_calls : list Z;
}.

(** The value of [key] up to the next blank, "" when it is absent. *)
Definition field_from (line key : string) (pos : nat) : string :=
  match find_from key line pos with
  | None => ""
  | Some p => until is_blank (drop_str (p + String.length key) line)
  end.
Definition extract_field (line key : string) : string := field_from line key 0.

(** A bracketed field: the text between '[' and ']'. *)
Definition bracket_from (line key : string) (pos : nat) : string :=
  match find_from key line pos with
  | None => ""
  | Some p =>
      match drop_str (p + String.length key) line with
      | String c r => if Ascii.eqb c "[" then until (Ascii.eqb "]") r else ""
      | EmptyString => ""
      end
  end.

(** The "vN=VAL" pairs of the text inside a group. *)
Fixpoint rw_pairs (fuel : nat) (body : string) (i : nat) : list RwPair :=
  match fuel with
  | O => []
  | S k =>
      match find_from "v" body i with
      | None => []
      | Some i =>
          match find_from "=" body i with
          | None => []
          | Some eq =>
              mkRwPair (s32 (strtol 10 (drop_str (i + 1) body)))
                       (strtol 0 (drop_str (eq + 1) body))
              :: rw_pairs k body (eq + 1)
          end
      end
  end.

(** [parse_grp(which, into)]. *)
Definition parse_grp (line tag : string) : list RwPair :=
  match find_from tag line 0 with
  | None => []
  | Some pos =>
      match find_from "}" line pos with
      | None => []
      | Some close =>
          let body := String.substring (pos + String.length tag)
                        (close - pos - String.length tag) line in
          rw_pairs (S (String.length body)) body 0
      end
  end.

Definition parse_dlv (line : string) : option RawDlv :=
  if negb (String.prefix "DLV " line) then None else
  let sp := extract_field line "p=" in
  let sop := extract_field line "op=" in
  let sraw := extract_field line "raw=" in
  if String.eqb sp "" || String.eqb sop "" || String.eqb sraw "" then None else
  let arrow := find_from "->" line 0 in
  let t := a ← arrow; strtol_opt 10 (drop_str (a + 2) line) in
  let spool := extract_field line "pool=" in
  Some (mkRawDlv (s32 (strtol 10 sp)) (u16 (strtoul 16 sop)) (u32 (strtoul 16 sraw))
          (match t with Some _ => true | None => false end)
          (match t with Some v => s32 v | None => 0 end)
          (parse_grp line "r{") (parse_grp line "w{")
          (negb (String.eqb spool ""))
          (if String.eqb spool "" then 0 else s32 (strtol 0 spool))
          (str_contains line "fetch{")).

Definition ints (s : string) (base : Z) : list Z := strtol base <$> tokens s.

Definition parse_row (ln : string) (mp : nat) : Z * MicrovmRow :=
  let sop := field_from ln "op=" mp in
  let op := if String.eqb sop "0000" then 0 else u16 (strtoul 16 sop) in
  (op, mkMicrovmRow
         (s32 <$> ints (bracket_from ln "r=" mp) 10)
         (s32 <$> ints (bracket_from ln "w=" mp) 10)
         (tokens (bracket_from ln "alu=" mp))
         (s32 (strtol 10 (field_from ln "branch=" mp)))
         (s32 (strtol 10 (field_from ln "nfetch=" mp)))
         (s32 (strtol 10 (field_from ln "worddec=" mp)))
         (u64 <$> ints (bracket_from ln "calls=" mp) 16)).

Definition md_parse_static (text : string) : gmap Z MicrovmRow :=
  foldl (fun rows ln =>
    match find_from "MICROVM op=" ln 0 with
    | None => rows
    | Some mp => let '(op, row) := parse_row ln mp in <[op := row]> rows
    end) ∅ (get_lines text).

Definition is_blank_eol (c : Ascii.ascii) : bool := is_blank c || Ascii.eqb c cr || Ascii.eqb c nl.

(** One OPMAP line. *)
Definition opmap_entry (ln : string) : option (Z * string) :=
  mp ← find_from "OPMAP op=" ln 0;
  fp ← find_from "family=" ln mp;
  let sop := until is_blank (drop_str (mp + 9) ln) in
  let fam := until is_blank_eol (drop_str (fp + 7) ln) in
  if String.eqb fam "" then None else Some (u16 (strtoul 16 sop), fam).

Definition parse_opmap (text : string) : gmap Z string :=
  foldl (fun out ln =>
    match opmap_entry ln with
    | None => out
    | Some (op, fam) => <[op := fam]> out
    end) ∅ (get_lines text).

(** ** Line examples *)

Example parse_dlv_case :
  parse_dlv "DLV p=12 op=0x1f len=4 raw=0xa0b1f r{v1=0x5 v2=-1} w{v3=7} pool=9 ->40"
  = Some (mkRawDlv 12 0x1f 0xa0b1f true 40 [mkRwPair 1 5; mkRwPair 2 (-1)] [mkRwPair 3 7]
                   true 9 false).
Proof. vm_compute. reflexivity. Qed.

Example md_parse_static_case :
  md_parse_static
    "[x] MICROVM op=0x21 r=[1 2] w=[0] alu=[add] branch=0 nfetch=1 worddec=0 calls=[ff80 10]"
  !! 0x21 = Some (mkMicrovmRow [1; 2] [0] ["add"] 0 1 0 [0xff80; 0x10]).
Proof. vm_compute. reflexivity. Qed.

Example parse_opmap_case :
  parse_opmap "OPMAP op=0x7 family=invoke" !! 7 = Some "invoke".
Proof. vm_compute. reflexivity. Qed.
