(* ===== verification/Devirt.v ===== *)
(** The devirtualizer's decoder: families, classification, decoding and
    signatures ([include/vardoger/dex/devirt_rebuild.hpp]). *)

From S2P Require Import Prelude.
From S2P Require Import Words.
From S2P Require Import CText.
From S2P Require Import DevirtLog.
From S2P Require Import DalvikOps.
From stdpp Require Import sorting.
From Stdlib Require Import Ascii.
#[local] Open Scope Z_scope.

Definition md_alu : list (string * string) :=
  [("add", "add-int"); ("sub", "sub-int"); ("mul", "mul-int"); ("udiv", "div-int");
   ("sdiv", "div-int"); ("and", "and-int"); ("orr", "or-int"); ("eor", "xor-int");
   ("lsl", "shl-int"); ("lsr", "ushr-int"); ("asr", "shr-int"); ("fadd", "add-float");
   ("fsub", "sub-float"); ("fmul", "mul-float"); ("fdiv", "div-float")].

Record VmInstr := mkVmInstr {
  vm_op : Z;
  family : string;
  vregs : list Z;
  pool : option Z;        (* has_pool, pool *)
  lit : option Z;         (* has_lit, lit *)
  target : option Z;      (* has_target, target: an index into the decoded list *)
}.

Definition fam_base (fam : string) : string := until (Ascii.eqb "/") fam.

Definition some_instr (m : string) (o : list Z) : DalvikInstr := mkDalvikInstr m o [].

(** The arithmetic families, by the number of registers. *)
Definition alu_to_dalvik (fam : string) (v : list Z) : option DalvikInstr :=
  match alookup (fam_base fam) md_alu with
  | None => None
  | Some mn =>
      match v with
      | a :: b :: r =>
          if str_contains fam "/2addr" then Some (some_instr (mn +:+ "/2addr") [a; b])
          else match r with
               | c :: _ => Some (some_instr mn [a; b; c])
               | [] => Some (some_instr (mn +:+ "/2addr") [a; b])
               end
      | _ => None
      end
  end.

Definition const_to_dalvik (r L : Z) : DalvikInstr :=
  if (-8 <=? L) && (L <=? 7) then some_instr "const/4" [r; L]
  else if (-32768 <=? L) && (L <=? 32767) then some_instr "const/16" [r; L]
  else some_instr "const" [r; L].

Definition ref_to_dalvik (v : list Z) (pool : option Z) : option DalvikInstr :=
  match v, pool with
  | a :: b :: _, Some p => Some (some_instr "iget-object" [a; b; p])
  | a :: _, Some p => Some (some_instr "const-string" [a; p])
  | a :: b :: _, None => Some (some_instr "move-object" [a; b])
  | a :: _, None => Some (some_instr "move-object" [a; a])
  | [], _ => None
  end.

(** The families after the arithmetic ones, each with its guard; [None] falls
    through to the next. *)
Definition family_to_dalvik (ins : VmInstr) : option DalvikInstr :=
  let fam := family ins in
  let v := vregs ins in
  let isf f := String.eqb fam f in
  if isf "binary-int" && bool_decide (3 <= zlen v)
  then Some (some_instr "add-int" [nth 0 v 0; nth 1 v 0; nth 2 v 0])
  else if isf "binary-int" && bool_decide (zlen v = 2)
  then Some (some_instr "add-int/2addr" [nth 0 v 0; nth 1 v 0])
  else if (isf "move/unary" || isf "move") && bool_decide (2 <= zlen v)
  then Some (some_instr "move" [nth 0 v 0; nth 1 v 0])
  else if (isf "move-result/const" || isf "move-result") && bool_decide (1 <= zlen v)
  then Some (some_instr "move-result" [nth 0 v 0])
  else if isf "const" && bool_decide (1 <= zlen v)
  then Some (const_to_dalvik (nth 0 v 0) (default 0 (lit ins)))
  else if isf "invoke"
  then Some (mkDalvikInstr "invoke-virtual" [0; default 0 (pool ins)]
                           (match v with [] => [0] | _ => v end))
  else None.

Definition control_to_dalvik (ins : VmInstr) : DalvikInstr :=
  let fam := family ins in
  let v := vregs ins in
  let isf f := String.eqb fam f in
  let tgt := default 0 (target ins) in
  if isf "if-cmp" && bool_decide (2 <= zlen v)
  then some_instr "if-eq" [nth 0 v 0; nth 1 v 0; tgt]
  else if (isf "if-testz" || isf "if-testz/return") && bool_decide (1 <= zlen v)
  then some_instr "if-eqz" [nth 0 v 0; tgt]
  else if String.eqb (fam_base fam) "wide" || str_contains fam "multi-word"
  then some_instr "const-wide/16" [nth 0 v 0; default 0 (lit ins)]
  else if isf "nop/goto" || isf "nop"
  then match target ins with
       | Some t => some_instr "goto" [t]
       | None => some_instr "nop" []
       end
  else if String.prefix "return" fam
  then match v with
       | [] => some_instr "return-void" []
       | r :: _ => some_instr "return" [r]
       end
  else some_instr "nop" [].

Definition md_to_dalvik (ins : VmInstr) : DalvikInstr :=
  match alu_to_dalvik (family ins) (vregs ins) with
  | Some d => d
  | None =>
      match family_to_dalvik ins with
      | Some d => d
      | None =>
          match (if String.eqb (family ins) "ref-op" || String.eqb (family ins) "const/ref"
                 then ref_to_dalvik (vregs ins) (pool ins) else None) with
          | Some d => d
          | None => control_to_dalvik ins
          end
      end
  end.

(** ** Decoding a method *)

(** [p2i]: the last row with bytecode position [p], by index. *)
Definition pos_index (real : list RawDlv) : gmap Z Z :=
  foldl (fun m '(i, s) => <[dlv_p s := Z.of_nat i]> m) ∅ (imap pair real).

Definition has_family (cls : gmap Z string) (op : Z) : string := default "?" (cls !! op).

(** Registers, pool index and literal of a row, by family. *)
Definition decode_operands (fam : string) (hi : Z) : list Z * option Z * option Z :=
  let r0 := Z.land hi 0xf in
  let r1 := Z.land (Z.shiftr hi 4) 0xf in
  let r2 := Z.land (Z.shiftr hi 8) 0xf in
  if String.eqb fam "invoke" || str_contains fam "ref" || String.eqb fam "const/ref"
  then ([r0], Some (s32 hi), None)
  else if (match alookup (fam_base fam) md_alu with Some _ => true | None => false end)
          || String.eqb fam "binary-int"
  then ([r0; r1; r2], None, None)
  else if str_contains fam "move" then ([r0; r1], None, None)
  else if str_contains fam "if-" then ([r0; r1], None, None)
  else if String.eqb fam "const" then ([r0], None, Some (s32 (Z.shiftr hi 4)))
  else ([], None, None).

Definition decode_row (cls : gmap Z string) (p2i : gmap Z Z) (s : RawDlv) : VmInstr :=
  let fam := has_family cls (dlv_op s) in
  let '(vr, po, li) := decode_operands fam (Z.shiftr (dlv_raw s) 8) in
  mkVmInstr (dlv_op s) fam vr po li
            (if has_tgt s then p2i !! tgt s else None).

(** [fam.compare(fam.size() - 4, 4, "goto") == 0] *)
Definition ends_with_goto (fam : string) : bool :=
  Nat.leb 4 (String.length fam)
  && String.eqb (drop_str (String.length fam - 4) fam) "goto".

Definition is_if (fam : string) : bool := str_contains fam "if-".
Definition is_goto (fam : string) : bool :=
  String.eqb fam "nop/goto" || String.eqb fam "nop" || String.eqb fam "goto"
  || ends_with_goto fam.

(** One turn of the sanitizing loop. *)
Definition sanitize (n i : Z) (d : VmInstr) : VmInstr :=
  if negb (is_if (family d) || is_goto (family d)) then d else
  let ok := match target d with
            | Some t => (0 <=? t) && (t <? n) && negb (t =? i)
            | None => false
            end in
  if ok then d
  else if is_if (family d) && (i + 1 <? n)
  then mkVmInstr (vm_op d) (family d) (vregs d) (pool d) (lit d) (Some (i + 1))
  else mkVmInstr (vm_op d) "nop" (vregs d) (pool d) (lit d) None.

Definition md_decode_method (dlv : list RawDlv) (cls : gmap Z string) : list VmInstr :=
  let real := List.filter (fun s => negb (dlv_op s =? 0xffff)) dlv in
  let dec := decode_row cls (pos_index real) <$> real in
  imap (fun i d => sanitize (zlen dec) (Z.of_nat i) d) dec.

(** ** Classification *)

(** [std::set<uint64_t>(calls)]: sorted, without duplicates. *)
Definition call_set (r : MicrovmRow) : list Z := merge_sort Z.le (remove_dups (mv_calls r)).

(** Call targets in order of first appearance over the rows. *)
Definition first_seen (rows : gmap Z MicrovmRow) : list Z :=
  foldl (fun acc op =>
    match rows !! op with
    | Some r => acc ++ List.filter (fun c => negb (bool_decide (c ∈ acc))) (call_set r)
    | None => acc
    end) [] (keys rows).

Definition freq (rows : gmap Z MicrovmRow) (c : Z) : Z :=
  Z.of_nat (length (List.filter (fun op =>
    match rows !! op with Some r => bool_decide (c ∈ mv_calls r) | None => false end) (keys rows))).

(** Stable insertion by descending frequency of a list in first-seen order:
    the order of [ranked] after [std::stable_sort]. *)
Fixpoint insert_ranked (f : Z -> Z) (c : Z) (l : list Z) : list Z :=
  match l with
  | [] => [c]
  | x :: r => if f c <=? f x then x :: insert_ranked f c r else c :: l
  end.
Definition ranked (rows : gmap Z MicrovmRow) : list Z :=
  foldl (fun l c => insert_ranked (freq rows) c l) [] (first_seen rows).

Definition classify_row (opf inv : option Z) (d : MicrovmRow) : string :=
  let nr := zlen (mv_reads d) in
  let nw := zlen (mv_writes d) in
  let calls_it o := match o with Some c => bool_decide (c ∈ mv_calls d) | None => false end in
  if negb (mv_branch d =? 0) then (if 2 <=? nr then "if-cmp" else "if-testz")
  else if calls_it inv then "invoke"
  else match mv_alu d with
  | a :: _ => if existsb (fun w => bool_decide (w ∈ mv_reads d)) (mv_writes d)
              then a +:+ "/2addr" else a
  | [] =>
      if (1 <=? mv_worddec d) && (nr =? 0) && (nw =? 0) then "const-wide/switch/fill-array"
      else if calls_it opf && (nr =? 0) && (nw <=? 1) then "const/ref"
      else if (2 <=? nr) && (1 <=? nw) then "binary-int"
      else if (nr =? 2) && (nw =? 0) then "if-cmp"
      else if (nr =? 1) && (nw =? 1) then "move/unary"
      else if (nr =? 0) && (nw =? 1) then "move-result/const"
      else if (nr =? 1) && (nw =? 0) then "if-testz/return"
      else if negb (bool_decide (mv_calls d = [])) then "ref-op"
      else "nop/goto"
  end.

Definition md_classify (rows : gmap Z MicrovmRow) : gmap Z string :=
  let r := ranked rows in
  classify_row (r !! 0%nat) (r !! 1%nat) <$> rows.

(** [std::map<std::string, int> fc] and its maximum: how many ops share the
    most common family. *)
Definition family_count (m : gmap Z string) (f : string) : Z :=
  Z.of_nat (length (List.filter (fun kv : Z * string => String.eqb (snd kv) f) (map_to_list m))).
Definition max_family (m : gmap Z string) : Z :=
  foldr (fun kv n => Z.max (family_count m (snd kv)) n) 0 (map_to_list m).

(** [mx / size > 0.60] on doubles: for counts up to 2^16 the quotient exceeds
    the double 0.60 exactly when 5 mx > 3 size. *)
Definition degenerate (m : gmap Z string) : bool :=
  3 * Z.of_nat (size m) <? 5 * max_family m.

Definition branch_family (nreads : Z) : string := if 2 <=? nreads then "if-cmp" else "if-testz".

(** The ->N union onto the static map. *)
Definition union_branch (m : gmap Z string) (r : RawDlv) : gmap Z string :=
  if (dlv_op r =? 0xffff) || negb (has_tgt r) then m else
  match m !! dlv_op r with
  | Some f => if String.eqb f "nop/goto"
              then <[dlv_op r := branch_family (zlen (dlv_reads r))]> m else m
  | None => <[dlv_op r := branch_family (zlen (dlv_reads r))]> m
  end.

(** What the log says about one opcode ([struct Agg]). *)
Record Agg := mkAgg {
  a_branch : bool; a_pool : bool; a_write : bool; max_reads : Z;
  fit_total : Z; fit_add : Z; fit_sub : Z; fit_and : Z; fit_or : Z; fit_xor : Z; rw_move : Z;
}.

Definition b2z (b : bool) : Z := if b then 1 else 0.

Definition agg_row (a : Agg) (r : RawDlv) : Agg :=
  let nr := zlen (dlv_reads r) in
  let nw := zlen (dlv_writes r) in
  let fits g := match dlv_reads r, dlv_writes r with
                | x :: y :: _, w :: _ => b2z (rw_val w =? g (rw_val x) (rw_val y))
                | _, _ => 0
                end in
  mkAgg (a_branch a || has_tgt r) (a_pool a || dlv_has_pool r || has_fetch r)
        (a_write a || (0 <? nw)) (Z.max (max_reads a) nr)
        (fit_total a + b2z ((2 <=? nr) && (1 <=? nw)))
        (fit_add a + fits (fun x y => s64 (x + y))) (fit_sub a + fits (fun x y => s64 (x - y)))
        (fit_and a + fits Z.land) (fit_or a + fits Z.lor) (fit_xor a + fits Z.lxor)
        (rw_move a + b2z ((nr =? 1) && (nw =? 1))).

Definition aggregate (all : list RawDlv) (op : Z) : Agg :=
  foldl agg_row (mkAgg false false false 0 0 0 0 0 0 0 0)
        (List.filter (fun r => dlv_op r =? op) all).

(** Value fit and arity, for an op without a MICROVM row. *)
Definition fallback_family (a : Agg) : string :=
  if a_pool a then (if a_write a then "invoke" else "ref-op")
  else if 2 <=? fit_total a then
    if fit_add a =? fit_total a then "add"
    else if fit_sub a =? fit_total a then "sub"
    else if fit_and a =? fit_total a then "and"
    else if fit_or a =? fit_total a then "orr"
    else if fit_xor a =? fit_total a then "eor"
    else "binary-int"
  else if 0 <? rw_move a then "move"
  else if a_write a then "const"
  else "nop/goto".

Definition dynamic_family (row : option string) (a : Agg) : string :=
  let confident := match row with Some f => negb (String.eqb f "nop/goto") | None => false end in
  if a_branch a && negb confident then branch_family (max_reads a)
  else match row with Some f => f | None => fallback_family a end.

Definition dynamic_map (all : list RawDlv) (out : gmap Z string) : gmap Z string :=
  foldl (fun m op => <[op := dynamic_family (out !! op) (aggregate all op)]> m) out
        (List.filter (fun op => negb (op =? 0xffff)) (remove_dups (dlv_op <$> all))).

Definition build_op_family (all : list RawDlv) (microvm_text : string) : gmap Z string :=
  let opmap := parse_opmap microvm_text in
  if bool_decide (opmap = ∅) || degenerate opmap
  then dynamic_map all (md_classify (md_parse_static microvm_text))
  else foldl union_branch opmap all.

(** ** Signatures *)

Definition sig_ret (sig : string) : string :=
  match find_from ")" sig 0 with
  | None => "V"
  | Some c => if Nat.leb (String.length sig) (c + 1) then "V" else drop_str (c + 1) sig
  end.

(** Past the next ';' (or the end). *)
Fixpoint after_semi (s : string) : string :=
  match s with
  | EmptyString => EmptyString
  | String c r => if Ascii.eqb c ";" then r else after_semi r
  end.

Fixpoint skip_dims (s : string) : string :=
  match s with
  | String c r => if Ascii.eqb c "[" then skip_dims r else s
  | EmptyString => EmptyString
  end.

(** The loop over the parameters; every turn consumes a character. *)
Fixpoint count_params (fuel : nat) (s : string) : Z :=
  match fuel, s with
  | S k, String c r =>
      if Ascii.eqb c "L" then 1 + count_params k (after_semi r)
      else if Ascii.eqb c "[" then
        1 + count_params k (match skip_dims r with
                            | String d t => if Ascii.eqb d "L" then after_semi t else t
                            | EmptyString => EmptyString
                            end)
      else if Ascii.eqb c "J" || Ascii.eqb c "D" then 2 + count_params k r
      else 1 + count_params k r
  | _, _ => 0
  end.

Definition sig_params (sig : string) : string :=
  match sig, find_from ")" sig 0 with
  | String c r, Some close =>
      if Ascii.eqb c "(" then String.substring 1 (close - 1) sig else ""
  | _, _ => ""
  end.

Definition sig_ins (sig : string) (is_static : bool) : Z :=
  let params := sig_params sig in
  u16 ((if is_static then 0 else 1) + count_params (String.length params) params).

Definition minimal_body (ret : string) (ins : Z) : Z * list Z :=
  if String.eqb ret "V" then (Z.max ins 1, [0x000e])
  else if String.eqb ret "J" || String.eqb ret "D" then (Z.max ins 2, [0x0016; 0x0000; 0x0010])
  else match ret with
       | String c _ => if Ascii.eqb c "L" || Ascii.eqb c "[" then (Z.max ins 1, [0x0012; 0x0011])
                       else (Z.max ins 1, [0x0012; 0x000f])
       | EmptyString => (Z.max ins 1, [0x0012; 0x000f])
       end.

(** ** Every emitted instruction is well formed *)

(** How many leading operands of a format are registers (35c keeps its
    registers apart). *)
Definition reg_operands (fmt : string) : nat :=
  if is_one_of fmt ["10x"; "10t"; "20t"; "30t"; "35c"] then 0
  else if is_one_of fmt ["11x"; "11n"; "21s"; "21h"; "21c"; "31i"; "21t"; "3rc"] then 1
  else if is_one_of fmt ["23x"] then 3 else 2.

Definition is_reg (r : Z) : Prop := 0 <= r < 16.

(** What the sanitizing loop establishes about the instruction at [i] of [n]. *)
Definition sane (n i : Z) (d : VmInstr) : Prop :=
  Forall is_reg (vregs d) /\
  (is_if (family d) || is_goto (family d) = true ->
   match target d with
   | Some t => 0 <= t < n /\ t <> i
   | None => family d = "nop"
   end).

(** An instruction the assembler knows, on registers below 16, whose branch
    target, if it has one, is another instruction of the method. *)
Definition well_formed (n i : Z) (ins : DalvikInstr) : Prop :=
  exists op fmt, md_find (mnem ins) = Some (mkMdOp op fmt) /\
    Forall is_reg (take (reg_operands fmt) (ops ins)) /\ Forall is_reg (regs ins) /\
    match branch_operand fmt with
    | Some k => exists t, ops ins !! k = Some t /\ 0 <= t < n /\ t <> i
    | None => True
    end.

Lemma land_15_reg x : is_reg (Z.land x 0xf).
Proof. unfold is_reg. rewrite land_15. apply Z.mod_pos_bound. lia. Qed.

Lemma decode_operands_regs fam hi : Forall is_reg (fst (fst (decode_operands fam hi))).
Proof.
  unfold decode_operands. pose proof land_15_reg.
  repeat match goal with |- context [if ?b then _ else _] => destruct b end;
    repeat constructor; apply land_15_reg.
Qed.

Lemma sanitize_sane n i d : 0 <= i -> Forall is_reg (vregs d) -> sane n i (sanitize n i d).
Proof.
  intros Hi Hv. unfold sanitize. destruct (is_if (family d) || is_goto (family d)) eqn:E; simpl.
  2: { split; [done|]. rewrite E. done. }
  destruct (target d) as [t|] eqn:Et.
  - destruct ((0 <=? t) && (t <? n) && negb (t =? i)) eqn:Eok.
    { split; [done|]. intros _. rewrite Et. bool_to_Prop. lia. }
    destruct (is_if (family d) && (i + 1 <? n)) eqn:Ei; split; try done.
    intros _. simpl. bool_to_Prop. lia.
  - destruct (is_if (family d) && (i + 1 <? n)) eqn:Ei; split; try done.
    intros _. simpl. bool_to_Prop. lia.
Qed.

Lemma decoded_sane dlv cls i d :
  md_decode_method dlv cls !! i = Some d ->
  sane (zlen (md_decode_method dlv cls)) (Z.of_nat i) d.
Proof.
  unfold md_decode_method. cbv zeta. set (real := List.filter _ dlv). clearbody real.
  unfold zlen. rewrite length_imap. rewrite list_lookup_imap.
  intros (d0 & Hd & ->)%fmap_Some_1. apply sanitize_sane; [lia|].
  rewrite list_lookup_fmap in Hd. apply fmap_Some_1 in Hd as (s & _ & ->).
  unfold decode_row.
  pose proof (decode_operands_regs (has_family cls (dlv_op s)) (Z.shiftr (dlv_raw s) 8)) as Hr.
  by destruct (decode_operands _ _) as [[vr po] li].
Qed.

Lemma nth_reg k v : Forall is_reg v -> is_reg (nth k v 0).
Proof.
  intros Hv. rewrite nth_lookup. destruct (v !! k) as [x|] eqn:E; [|unfold is_reg; simpl; lia].
  by eapply Forall_lookup in Hv.
Qed.

(** Literal lists of registers. *)
Ltac regs := repeat first [apply Forall_nil_2 | apply Forall_cons_2]; try done; auto using nth_reg.

(** The arithmetic mnemonics, plain and in place. *)
Lemma md_alu_check :
  forallb (fun e : string * string =>
    match md_find (snd e), md_find (snd e +:+ "/2addr") with
    | Some (mkMdOp _ f1), Some (mkMdOp _ f2) => String.eqb f1 "23x" && String.eqb f2 "12x"
    | _, _ => false
    end) md_alu = true.
Proof. vm_compute. reflexivity. Qed.

Lemma md_alu_find b mn :
  alookup b md_alu = Some mn ->
  (exists op, md_find mn = Some (mkMdOp op "23x")) /\
  (exists op, md_find (mn +:+ "/2addr") = Some (mkMdOp op "12x")).
Proof.
  intros Hin%alookup_elem%list_elem_of_In.
  pose proof (proj1 (forallb_forall _ _) md_alu_check _ Hin) as Hc. cbn [snd] in Hc.
  destruct (md_find mn) as [[o1 f1]|]; [|done].
  destruct (md_find (mn +:+ "/2addr")) as [[o2 f2]|]; [|done].
  apply andb_true_iff in Hc as [->%String.eqb_eq ->%String.eqb_eq]. eauto.
Qed.

(** A known non-branch instruction on good registers is well formed. *)
Lemma wf_plain n i m op fmt o rs :
  md_find m = Some (mkMdOp op fmt) -> branch_operand fmt = None ->
  Forall is_reg (take (reg_operands fmt) o) -> Forall is_reg rs ->
  well_formed n i (mkDalvikInstr m o rs).
Proof. intros Hm Hb Ho Hr. exists op, fmt. simpl. rewrite Hb. done. Qed.

Ltac plain := eapply wf_plain; [vm_compute; reflexivity|reflexivity| |];
  cbn [take reg_operands]; by regs.

Lemma alu_wf n i fam v d :
  Forall is_reg v -> alu_to_dalvik fam v = Some d -> well_formed n i d.
Proof.
  intros Hv. unfold alu_to_dalvik.
  destruct (alookup (fam_base fam) md_alu) as [mn|] eqn:E; [|done].
  apply md_alu_find in E as [[o1 E1] [o2 E2]].
  destruct v as [|a [|b r]]; try done.
  apply Forall_cons in Hv as [Ha Hv]. apply Forall_cons in Hv as [Hb Hv].
  assert (Forall is_reg [a; b]) as Hab by regs.
  destruct (str_contains fam "/2addr"); [intros [= <-]; eapply wf_plain; [exact E2|done|exact Hab|by regs]|].
  destruct r as [|c r]; intros [= <-]; [eapply wf_plain; [exact E2|done|exact Hab|by regs]|].
  apply Forall_cons in Hv as [Hc _]. eapply wf_plain; [exact E1|done|by regs|by regs].
Qed.

Lemma const_wf n i r L : is_reg r -> well_formed n i (const_to_dalvik r L).
Proof.
  intros Hr. unfold const_to_dalvik.
  destruct (_ && _); [plain|]. destruct (_ && _); plain.
Qed.

Lemma ref_wf n i v po d :
  Forall is_reg v -> ref_to_dalvik v po = Some d -> well_formed n i d.
Proof.
  intros Hv. unfold ref_to_dalvik.
  destruct v as [|a [|b r]]; destruct po as [p|]; intros [= <-];
    rewrite ?Forall_cons in Hv; destruct_and?; plain.
Qed.

Lemma family_wf n i ins d :
  Forall is_reg (vregs ins) -> family_to_dalvik ins = Some d -> well_formed n i d.
Proof.
  intros Hv. unfold family_to_dalvik.
  destruct (_ && bool_decide (3 <= _)); [intros [= <-]; plain|].
  destruct (_ && bool_decide (_ = 2)); [intros [= <-]; plain|].
  destruct (_ && bool_decide (2 <= _)); [intros [= <-]; plain|].
  destruct ((_ || String.eqb _ "move-result") && _); [intros [= <-]; plain|].
  destruct (_ && _); [intros [= <-]; by apply const_wf, nth_reg|].
  destruct (String.eqb _ "invoke"); [|done]. intros [= <-].
  eapply wf_plain; [vm_compute; reflexivity|reflexivity|constructor|].
  destruct (vregs ins); [|done]. by repeat constructor.
Qed.

Lemma control_wf n i ins : sane n i ins -> well_formed n i (control_to_dalvik ins).
Proof.
  intros [Hv Hs]. unfold control_to_dalvik.
  destruct (String.eqb_spec (family ins) "if-cmp") as [Ef|_]; simpl andb.
  { rewrite Ef in Hs. specialize (Hs eq_refl).
    destruct (target ins) as [t|]; [|done]. destruct (bool_decide _).
    - exists 0x32, "22t". split; [vm_compute; reflexivity|]. split.
      { cbn [take reg_operands]. by regs. }
      split; [by regs|]. by exists t.
    - rewrite Ef. simpl. plain. }
  destruct ((String.eqb (family ins) "if-testz" || _) && _) eqn:Et.
  { apply andb_true_iff in Et as [Et _].
    assert (is_if (family ins) || is_goto (family ins) = true) as Hif.
    { by apply orb_true_iff in Et as [->%String.eqb_eq| ->%String.eqb_eq]. }
    specialize (Hs Hif). destruct (target ins) as [t|].
    - exists 0x38, "21t". split; [vm_compute; reflexivity|]. split.
      { cbn [take reg_operands]. by regs. }
      split; [by regs|]. by exists t.
    - rewrite Hs in Et. discriminate. }
  destruct (_ || str_contains (family ins) "multi-word"); [plain|].
  destruct (String.eqb (family ins) "nop/goto" || _) eqn:En.
  { assert (is_if (family ins) || is_goto (family ins) = true) as Hgo.
    { by apply orb_true_iff in En as [->%String.eqb_eq| ->%String.eqb_eq]. }
    specialize (Hs Hgo). destruct (target ins) as [t|]; [|plain].
    exists 0x28, "10t". split; [vm_compute; reflexivity|].
    split; [by regs|]. split; [by regs|]. by exists t. }
  destruct (String.prefix _ _); [|plain].
  destruct (vregs ins) as [|r l]; [plain|]. apply Forall_cons in Hv as [Hr _]. plain.
Qed.

Lemma md_to_dalvik_wf n i ins : sane n i ins -> well_formed n i (md_to_dalvik ins).
Proof.
  intros Hs. pose proof Hs as [Hv _]. unfold md_to_dalvik.
  destruct (alu_to_dalvik _ _) as [d|] eqn:E1; [by eapply alu_wf|].
  destruct (family_to_dalvik ins) as [d|] eqn:E2; [by eapply family_wf|].
  destruct (_ || _); [|by apply control_wf].
  destruct (ref_to_dalvik _ _) as [d|] eqn:E3; [by eapply ref_wf|by apply control_wf].
Qed.

(** C4: whatever the log and the classification say, every instruction the
    devirtualizer hands to the assembler is in its table, uses only v0..v15
    (so the 16-register frame covers it), and if it is a branch its target is
    another instruction of the same method. *)
Theorem devirt_well_formed dlv cls i ins :
  (md_to_dalvik <$> md_decode_method dlv cls) !! i = Some ins ->
  well_formed (zlen (md_decode_method dlv cls)) (Z.of_nat i) ins.
Proof.
  rewrite list_lookup_fmap. intros (d & Hd & ->)%fmap_Some_1.
  by apply md_to_dalvik_wf, decoded_sane.
Qed.

Lemma devirt_well_formed_witness :
  let dlv := [mkRawDlv 0 7 0x21300 true 5 [] [] false 0 false;
              mkRawDlv 5 9 0x100 true 0 [] [] false 0 false] in
  let cls := <[7 := "if-cmp"]> (<[9 := "nop/goto"]> ∅) : gmap Z string in
  md_to_dalvik <$> md_decode_method dlv cls
  = [some_instr "if-eq" [3; 1; 1]; some_instr "goto" [0]] /\
  well_formed 2 0 (some_instr "if-eq" [3; 1; 1]).
Proof.
  intros dlv cls. split; [vm_compute; reflexivity|].
  exact (devirt_well_formed dlv cls 0 (some_instr "if-eq" [3; 1; 1]) ltac:(vm_compute; reflexivity)).
Defined.

(** ** The static opcode map *)

(** The family the union leaves for an opcode. *)
Definition union_family (all : list RawDlv) (f : option string) (op : Z) : option string :=
  if match f with Some f => negb (String.eqb f "nop/goto") | None => false end then f
  else match List.filter (fun r => (dlv_op r =? op) && has_tgt r) all with
       | r :: _ => Some (branch_family (zlen (dlv_reads r)))
       | [] => f
       end.

Lemma branch_family_not_nop n : String.eqb (branch_family n) "nop/goto" = false.
Proof. unfold branch_family. by destruct (2 <=? n). Qed.

Lemma union_branch_lookup m r op :
  union_branch m r !! op =
  if negb (dlv_op r =? 0xffff) && (dlv_op r =? op) then union_family [r] (m !! op) op
  else m !! op.
Proof.
  unfold union_branch, union_family. simpl.
  destruct (dlv_op r =? 0xffff); [done|]. simpl.
  destruct (Z.eqb_spec (dlv_op r) op) as [<-|Hne]; simpl.
  - destruct (has_tgt r); simpl; destruct (m !! dlv_op r) as [f|] eqn:Em; rewrite ?Em; simpl.
    + destruct (String.eqb f "nop/goto"); simpl; rewrite ?lookup_insert_eq; congruence.
    + by rewrite lookup_insert_eq.
    + by destruct (String.eqb f "nop/goto").
    + done.
  - destruct (has_tgt r); simpl; [|done].
    destruct (m !! dlv_op r) as [f|]; [destruct (String.eqb f "nop/goto")|];
      rewrite ?lookup_insert_ne; done.
Qed.

Lemma union_branch_fold all m op :
  op <> 0xffff -> foldl union_branch m all !! op = union_family all (m !! op) op.
Proof.
  intros Hop. revert m. induction all as [|r all IH]; intros m; simpl.
  { unfold union_family. destruct (m !! op) as [f|]; [|done]. simpl. by destruct (String.eqb f "nop/goto"). }
  rewrite IH, union_branch_lookup. unfold union_family. simpl.
  destruct (Z.eqb_spec (dlv_op r) op) as [He|]; simpl.
  2: { by rewrite andb_false_r. }
  rewrite He. assert ((op =? 0xffff) = false) as -> by (by apply Z.eqb_neq). simpl.
  destruct (has_tgt r), (m !! op) as [f|]; simpl; rewrite ?branch_family_not_nop; simpl; try done;
    destruct (String.eqb f "nop/goto") eqn:Ef; simpl; rewrite ?branch_family_not_nop, ?Ef; done.
Qed.

Lemma foldl_union_ffff all m : foldl union_branch m all !! 0xffff = m !! 0xffff.
Proof.
  revert m. induction all as [|r all IH]; intros m; simpl; [done|].
  rewrite IH, union_branch_lookup. by destruct (dlv_op r =? 0xffff).
Qed.

(** A static opcode map that is neither empty nor degenerate decides: a
    family other than nop/goto is kept whatever the rows show, an opcode left
    as nop/goto or missing becomes the branch of its first row with a target,
    and the filler opcode 0xffff is never added. *)
Lemma opmap_authoritative all text op :
  parse_opmap text <> ∅ -> degenerate (parse_opmap text) = false ->
  build_op_family all text !! op =
  if op =? 0xffff then parse_opmap text !! op
  else union_family all (parse_opmap text !! op) op.
Proof.
  intros Hne Hd. unfold build_op_family. rewrite bool_decide_false by done. rewrite Hd. simpl.
  destruct (Z.eqb_spec op 0xffff) as [->|]; [apply foldl_union_ffff|by apply union_branch_fold].
Qed.

Lemma opmap_authoritative_witness :
  let text := "OPMAP op=0x12 family=add" +:+ String nl "OPMAP op=0x13 family=nop/goto" in
  let all := [mkRawDlv 0 0x12 0 true 4 [] [] false 0 false;
              mkRawDlv 2 0x13 0 true 4 [mkRwPair 1 2] [] false 0 false;
              mkRawDlv 4 0x14 0 true 4 [mkRwPair 1 2; mkRwPair 2 2] [] false 0 false] in
  parse_opmap text !! 0x12 = Some "add" /\ parse_opmap text !! 0x13 = Some "nop/goto" /\
  build_op_family all text !! 0x13 = Some "if-testz".
Proof.
  intros text all. do 2 (split; [vm_compute; reflexivity|]).
  assert (degenerate (parse_opmap text) = false) as Hd by (vm_compute; reflexivity).
  rewrite (opmap_authoritative all text 0x13 ltac:(vm_compute; discriminate) Hd).
  vm_compute. reflexivity.
Defined.

(** ** Argument registers of a signature *)

(** A Java type as a descriptor prints it. *)
Inductive JType :=
  | JPrim (c : Ascii.ascii)
  | JClass (name : string)
  | JArray (elem : JType).

Fixpoint jprint (t : JType) : string :=
  match t with
  | JPrim c => String c ""
  | JClass n => String "L" (n +:+ ";")
  | JArray e => String "[" (jprint e)
  end.

Fixpoint no_char (d : Ascii.ascii) (s : string) : bool :=
  match s with
  | EmptyString => true
  | String c r => negb (Ascii.eqb c d) && no_char d r
  end.

(** No ';' or ')' in a class name, a primitive letter other than the markers. *)
Fixpoint jwf (t : JType) : bool :=
  match t with
  | JPrim c => existsb (Ascii.eqb c) ["Z"; "B"; "S"; "C"; "I"; "J"; "F"; "D"]%char
  | JClass n => no_char ";" n && no_char ")" n
  | JArray e => jwf e
  end.

Definition jwidth (t : JType) : Z :=
  match t with
  | JPrim c => if Ascii.eqb c "J" || Ascii.eqb c "D" then 2 else 1
  | _ => 1
  end.

Definition jparams (ts : list JType) : string := foldr (fun t s => jprint t +:+ s) "" ts.
Definition jwidths (ts : list JType) : Z := foldr (fun t n => jwidth t + n) 0 ts.

Lemma app_assoc_str (a b c : string) : (a +:+ b) +:+ c = a +:+ (b +:+ c).
Proof. induction a as [|ch a IH]; [done|]. exact (f_equal (String ch) IH). Qed.

Lemma length_app_str (a b : string) :
  String.length (a +:+ b) = (String.length a + String.length b)%nat.
Proof. induction a as [|c a IH]; [done|]. exact (f_equal S IH). Qed.

Lemma after_semi_name n s : no_char ";" n = true -> after_semi (n +:+ String ";" s) = s.
Proof.
  induction n as [|c n IH]; simpl; [done|].
  intros [Hc Hn]%andb_true_iff. destruct (Ascii.eqb c ";"); [done|]. by apply IH.
Qed.

(** Past the element type of an array. *)
Definition skip_elem (s : string) : string :=
  match skip_dims s with
  | String d t => if Ascii.eqb d "L" then after_semi t else t
  | EmptyString => EmptyString
  end.

Lemma prim_cases c :
  existsb (Ascii.eqb c) ["Z"; "B"; "S"; "C"; "I"; "J"; "F"; "D"]%char = true ->
  c = "Z"%char \/ c = "B"%char \/ c = "S"%char \/ c = "C"%char \/ c = "I"%char \/
  c = "J"%char \/ c = "F"%char \/ c = "D"%char.
Proof.
  simpl. rewrite !orb_true_iff, !Ascii.eqb_eq. intuition discriminate.
Qed.

Lemma skip_elem_print t s : jwf t = true -> skip_elem (jprint t +:+ s) = s.
Proof.
  induction t as [c|n|e IH]; simpl; intros Hw.
  - by destruct (prim_cases c Hw) as [->|[->|[->|[->|[->|[->|[->| ->]]]]]]].
  - apply andb_true_iff in Hw as [Hn _]. unfold skip_elem. simpl.
    rewrite app_assoc_str. by apply after_semi_name.
  - by rewrite <- (IH Hw) at 2.
Qed.

Lemma jprint_pos t : (1 <= String.length (jprint t))%nat.
Proof. destruct t; simpl; lia. Qed.

Lemma count_params_step k t s :
  jwf t = true -> count_params (S k) (jprint t +:+ s) = jwidth t + count_params k s.
Proof.
  intros Hw. destruct t as [c|n|e].
  - simpl in Hw. by destruct (prim_cases c Hw) as [->|[->|[->|[->|[->|[->|[->| ->]]]]]]].
  - apply andb_true_iff in Hw as [Hn _].
    change (1 + count_params k (after_semi ((n +:+ ";") +:+ s)) = 1 + count_params k s).
    rewrite app_assoc_str. change (";" +:+ s) with (String ";" s). by rewrite after_semi_name.
  - simpl in Hw. change (1 + count_params k (skip_elem (jprint e +:+ s)) = 1 + count_params k s).
    by rewrite skip_elem_print.
Qed.

Lemma count_params_spec k ts :
  Forall (fun t => jwf t = true) ts -> (length ts <= k)%nat ->
  count_params k (jparams ts) = jwidths ts.
Proof.
  intros Hw. revert k. induction Hw as [|t ts Ht _ IH]; intros k Hk; simpl.
  { by destruct k. }
  destruct k as [|k]; simpl in Hk; [lia|]. rewrite count_params_step by done.
  rewrite IH by lia. done.
Qed.

Lemma jparams_length ts : (length ts <= String.length (jparams ts))%nat.
Proof.
  induction ts as [|t ts IH]; simpl; [lia|]. rewrite length_app_str.
  pose proof (jprint_pos t). lia.
Qed.

Definition no_close (ts : list JType) : bool := no_char ")" (jparams ts).

Lemma no_char_app d a b : no_char d (a +:+ b) = no_char d a && no_char d b.
Proof.
  induction a as [|c a IH]; [done|]. change (negb (Ascii.eqb c d) && no_char d (a +:+ b) = no_char d (String c a) && no_char d b).
  by rewrite IH, andb_assoc.
Qed.

Lemma jprint_no_close t : jwf t = true -> no_char ")" (jprint t) = true.
Proof.
  induction t as [c|n|e IH]; simpl; intros Hw.
  - by destruct (prim_cases c Hw) as [->|[->|[->|[->|[->|[->|[->| ->]]]]]]].
  - apply andb_true_iff in Hw as [_ Hn]. by rewrite no_char_app, Hn.
  - by apply IH.
Qed.

Lemma jparams_no_close ts : Forall (fun t => jwf t = true) ts -> no_close ts = true.
Proof.
  unfold no_close. induction 1 as [|t ts Ht _ IH]; simpl; [done|].
  by rewrite no_char_app, IH, jprint_no_close.
Qed.

Lemma index_close_cons c s :
  c <> ")"%char ->
  String.index 0 ")" (String c s) =
  match String.index 0 ")" s with Some n => Some (S n) | None => None end.
Proof.
  intros Hc. cbn [String.index String.prefix]. by destruct (ascii_dec ")" c) as [<-|].
Qed.

Lemma find_close p s : no_char ")" p = true -> find_from ")" (p +:+ String ")" s) 0 = Some (String.length p).
Proof.
  unfold find_from. induction p as [|c p IH]; intros Hp.
  - simpl. by destruct s.
  - simpl in Hp. apply andb_true_iff in Hp as [Hc Hp]. apply negb_true_iff in Hc.
    change (String.index 0 ")" (String c (p +:+ String ")" s)) = Some (S (String.length p))).
    rewrite index_close_cons by (by intros ->). by rewrite (IH Hp).
Qed.

Lemma substring_prefix p s : String.substring 0 (String.length p) (p +:+ s) = p.
Proof. induction p as [|c p IH]; [by destruct s|]. exact (f_equal (String c) IH). Qed.

Lemma sig_params_print p s :
  no_char ")" p = true -> sig_params (String "(" (p +:+ String ")" s)) = p.
Proof.
  intros Hp. unfold sig_params.
  pose proof (find_close (String "(" p) s Hp) as Hf.
  change (String "(" p +:+ String ")" s) with (String "(" (p +:+ String ")" s)) in Hf.
  rewrite Hf. change (String.substring 0 (S (String.length p) - 1) (p +:+ String ")" s) = p).
  rewrite Nat.sub_succ, Nat.sub_0_r. apply substring_prefix.
Qed.

(** The argument registers of a printed method signature are the sum of
    the widths of its parameter types, two for long and double and one for
    everything else, arrays of long and double included, plus one for [this];
    modulo 2^16. *)
Lemma sig_ins_spec ts ret is_static :
  Forall (fun t => jwf t = true) ts ->
  sig_ins (String "(" (jparams ts +:+ String ")" ret)) is_static
  = u16 ((if is_static then 0 else 1) + jwidths ts).
Proof.
  intros Hw. unfold sig_ins. rewrite sig_params_print by by apply jparams_no_close.
  rewrite count_params_spec by auto using jparams_length. done.
Qed.

Lemma sig_ins_spec_witness :
  let ts := [JPrim "J"; JArray (JArray (JPrim "J")); JClass "java/lang/String"; JPrim "I"] in
  jparams ts = "J[[JLjava/lang/String;I" /\
  sig_ins "(J[[JLjava/lang/String;I)V" false = 6.
Proof.
  intros ts. split; [reflexivity|].
  exact (sig_ins_spec ts "V" false ltac:(repeat constructor)).
Defined.
