(* ===== verification/DexIndex.v ===== *)
(** The method index of the rebuild driver: [dex_method_index] of
    [include/vardoger/dex/devirt_rebuild.hpp].

    Unlike the reader of [DexFile] it reads the tables straight from the bytes
    and trusts them: a [memcpy] outside the buffer is undefined behaviour. *)

From S2P Require Import Prelude.
From S2P Require Import Words.
From S2P Require Import CText.
From S2P Require Import DexFile.
From S2P Require Import Rebuilder.
From stdpp Require Import strings.
From Stdlib Require Import Ascii.
#[local] Open Scope Z_scope.

Definition rd_u32 (d : list Z) (o : Z) : outcome Z := l ← or_ub (slice d o 4); Ret (le_val l).
Definition rd_u16 (d : list Z) (o : Z) : outcome Z := l ← or_ub (slice d o 2); Ret (le_val l).
(** The loop of [DexRebuilder::uleb], with the position passed by reference. *)
Definition rd_uleb (d : list Z) (p : Z) : outcome (Z * Z) := Rebuilder.uleb d p.

(** A method's class, name and signature. *)
Definition MethodKey : Type := string * string * string.

Record DexIndex := mkDexIndex {
  ix_mid : gmap MethodKey Z;
  ix_acc : gmap Z Z;
  ix_classes : gset string;
}.
Definition empty_index : DexIndex := mkDexIndex ∅ ∅ ∅.

Section Names.
Variable d : list Z.
Variables sids tids pids mids : Z.

Definition stri (i : Z) : outcome string :=
  off ← rd_u32 d (u32 (sids + u32 (i * 4)));
  '(_, off) ← rd_uleb d off;
  Ret (text (c_string (drop (Z.to_nat off) d))).
Definition typ (i : Z) : outcome string := s ← rd_u32 d (u32 (tids + u32 (i * 4))); stri s.

(** The concatenated types [k], [k + 1], ... of the list at [poff]. *)
Fixpoint param_types (n : nat) (poff k : Z) : outcome string :=
  match n with
  | O => Ret ""%string
  | S n' =>
      t ← rd_u16 d (u32 (poff + 4 + u32 (k * 2)));
      s ← typ t;
      r ← param_types n' poff (k + 1);
      Ret (s +:+ r)
  end.
Definition proto_sig (pi : Z) : outcome string :=
  let o := pids + pi * 12 in
  rt ← rd_u32 d (o + 4);
  ret ← typ rt;
  poff ← rd_u32 d (o + 8);
  params ← (if poff =? 0 then Ret ""%string else n ← rd_u32 d poff; param_types (Z.to_nat n) poff 0);
  Ret ("(" +:+ params +:+ ")" +:+ ret)%string.

(** The key of row [i] of the method table. *)
Definition method_key (i : Z) : outcome MethodKey :=
  let o := mids + i * 8 in
  c ← rd_u16 d o; cls ← typ c;
  n ← rd_u32 d (o + 4); nm ← stri n;
  p ← rd_u16 d (o + 2); sig ← proto_sig p;
  Ret (cls, nm, sig).

(** [for (i = 0; i < mids_sz; ++i)]. *)
Fixpoint index_methods (rows : list Z) (m : gmap MethodKey Z) : outcome (gmap MethodKey Z) :=
  match rows with
  | [] => Ret m
  | i :: r => k ← method_key i; index_methods r (<[k := i]> m)
  end.

(** [n] pairs of uleb128, skipped. *)
Fixpoint skip_pairs (n : nat) (p : Z) : outcome Z :=
  match n with
  | O => Ret p
  | S k => '(_, p) ← rd_uleb d p; '(_, p) ← rd_uleb d p; skip_pairs k p
  end.

(** One group of [n] methods: the index accumulates, the access flags are
    recorded. *)
Fixpoint index_group (n : nat) (p midx : Z) (acc : gmap Z Z) : outcome (gmap Z Z * Z) :=
  match n with
  | O => Ret (acc, p)
  | S k =>
      '(di, p) ← rd_uleb d p;
      '(a, p) ← rd_uleb d p;
      '(_, p) ← rd_uleb d p;
      let midx := u32 (midx + di) in
      index_group k p midx (<[midx := a]> acc)
  end.

(** The class data at [cdata]. *)
Definition index_data (cdata : Z) (acc : gmap Z Z) : outcome (gmap Z Z) :=
  '(sf, p) ← rd_uleb d cdata;
  '(ifld, p) ← rd_uleb d p;
  '(dm, p) ← rd_uleb d p;
  '(vm, p) ← rd_uleb d p;
  p ← skip_pairs (Z.to_nat (u32 (sf + ifld))) p;
  '(acc, p) ← index_group (Z.to_nat dm) p 0 acc;
  '(acc, _) ← index_group (Z.to_nat vm) p 0 acc;
  Ret acc.

(** The row of [class_defs] at [base]. *)
Definition index_class (base : Z) (st : gmap Z Z * gset string) : outcome (gmap Z Z * gset string) :=
  let '(acc, classes) := st in
  c ← rd_u32 d base; s ← typ c;
  cdata ← rd_u32 d (base + 24);
  acc ← (if cdata =? 0 then Ret acc else index_data cdata acc);
  Ret (acc, {[s]} ∪ classes).
Fixpoint index_classes (rows : list Z) (st : gmap Z Z * gset string) : outcome (gmap Z Z * gset string) :=
  match rows with
  | [] => Ret st
  | r :: t => st ← index_class r st; index_classes t st
  end.
End Names.

Definition dex_method_index (d : list Z) : outcome DexIndex :=
  if zlen d <? 0x70 then Ret empty_index else
  sids ← rd_u32 d 0x3c;
  tids ← rd_u32 d 0x44;
  pids ← rd_u32 d 0x4c;
  mids_sz ← rd_u32 d 0x58; mids ← rd_u32 d 0x5c;
  cdefs_sz ← rd_u32 d 0x60; cdefs ← rd_u32 d 0x64;
  mid ← index_methods d sids tids pids mids (seqZ 0 mids_sz) ∅;
  '(acc, classes) ← index_classes d sids tids ((fun i => cdefs + i * 32) <$> seqZ 0 cdefs_sz) (∅, ∅);
  Ret (mkDexIndex mid acc classes).

(** ** Methods *)

(** The fields of the header the method table is found by. *)
Definition method_rows (d : list Z) : Z := match rd_u32 d 0x58 with Ret n => n | _ => 0 end.
Definition row_key (d : list Z) (i : Z) : outcome MethodKey :=
  sids ← rd_u32 d 0x3c; tids ← rd_u32 d 0x44; pids ← rd_u32 d 0x4c; mids ← rd_u32 d 0x5c;
  method_key d sids tids pids mids i.

Lemma index_methods_spec d sids tids pids mids rows m m' k :
  NoDup rows -> index_methods d sids tids pids mids rows m = Ret m' ->
  match m' !! k with
  | Some i => (exists l1 l2, rows = l1 ++ i :: l2 /\ method_key d sids tids pids mids i = Ret k /\
                Forall (fun j => method_key d sids tids pids mids j <> Ret k) l2) \/
              (m !! k = Some i /\ Forall (fun j => method_key d sids tids pids mids j <> Ret k) rows)
  | None => m !! k = None /\ Forall (fun j => method_key d sids tids pids mids j <> Ret k) rows
  end.
Proof.
  revert m. induction rows as [|i r IH]; intros m Hnd E; cbn [index_methods] in E.
  { injection E as <-. destruct (m !! k) as [i|]; [right|]; by split. }
  apply NoDup_cons in Hnd as [_ Hnd]. apply outcome_bind_ret in E as (k' & Ek & E).
  specialize (IH _ Hnd E). destruct (decide (k' = k)) as [->|Hne].
  - destruct (m' !! k) as [j|]; rewrite lookup_insert_eq in IH.
    + left. destruct IH as [(l1 & l2 & -> & H1 & H2)|[[= <-] H2]]; [by exists (i :: l1), l2|by exists [], r].
    + by destruct IH.
  - assert (method_key d sids tids pids mids i <> Ret k) as Hi by congruence.
    rewrite lookup_insert_ne in IH by done. destruct (m' !! k) as [j|].
    + destruct IH as [(l1 & l2 & -> & H1 & H2)|[H1 H2]]; [left; by exists (i :: l1), l2|right; split; [done|by constructor]].
    + destruct IH as [H1 H2]. split; [done|by constructor].
Qed.

Lemma index_inv d ix :
  dex_method_index d = Ret ix -> 0x70 <= zlen d ->
  exists sids tids pids mids cdefs_sz cdefs,
    rd_u32 d 0x3c = Ret sids /\ rd_u32 d 0x44 = Ret tids /\ rd_u32 d 0x4c = Ret pids /\
    rd_u32 d 0x5c = Ret mids /\ rd_u32 d 0x60 = Ret cdefs_sz /\ rd_u32 d 0x64 = Ret cdefs /\
    index_methods d sids tids pids mids (seqZ 0 (method_rows d)) ∅ = Ret (ix_mid ix) /\
    index_classes d sids tids ((fun i => cdefs + i * 32) <$> seqZ 0 cdefs_sz) (∅, ∅)
      = Ret (ix_acc ix, ix_classes ix).
Proof.
  unfold dex_method_index, method_rows. intros E Hd. rewrite (proj2 (Z.ltb_ge _ _)) in E by lia.
  apply outcome_bind_ret in E as (sids & E1 & E). apply outcome_bind_ret in E as (tids & E2 & E).
  apply outcome_bind_ret in E as (pids & E3 & E). apply outcome_bind_ret in E as (sz & E4 & E).
  apply outcome_bind_ret in E as (mids & E5 & E). apply outcome_bind_ret in E as (csz & E6 & E).
  apply outcome_bind_ret in E as (cdefs & E7 & E). apply outcome_bind_ret in E as (mid & E8 & E).
  apply outcome_bind_ret in E as ([acc cls] & E9 & E). injection E as <-. rewrite E4.
  exists sids, tids, pids, mids, csz, cdefs. eauto 15.
Qed.

Lemma seqZ_split n l1 i l2 :
  seqZ 0 n = l1 ++ i :: l2 -> 0 <= i < n /\ forall j, j ∈ l2 <-> i < j < n.
Proof.
  intros E. assert (seqZ 0 n !! length l1 = Some i) as Hi
    by (rewrite E, lookup_app_r, Nat.sub_diag by lia; done).
  apply lookup_seqZ in Hi as [-> Hlt]. split; [lia|]. intros j. split.
  - intros [k Hk]%list_elem_of_lookup_1.
    assert (seqZ 0 n !! (length l1 + S k)%nat = Some j) as Hj
      by (rewrite E, lookup_app_r by lia; by replace (length l1 + S k - length l1)%nat with (S k) by lia).
    apply lookup_seqZ in Hj as [-> ?]. lia.
  - intros Hj. apply (list_elem_of_lookup_2 _ (Z.to_nat j - length l1 - 1)).
    assert (seqZ 0 n !! Z.to_nat j = Some j) as Hj1 by (apply lookup_seqZ; lia).
    rewrite E, lookup_app_r in Hj1 by lia.
    by replace (Z.to_nat j - length l1)%nat with (S (Z.to_nat j - length l1 - 1)) in Hj1 by lia.
Qed.

(** C23: method lookup finds exactly the methods the file declares: the index
    maps a class, name and signature to [i] when [i] is the last row of the
    method table that spells them, and to nothing when no row does. *)
Theorem method_lookup d ix k :
  dex_method_index d = Ret ix -> 0x70 <= zlen d ->
  forall i, ix_mid ix !! k = Some i <->
    0 <= i < method_rows d /\ row_key d i = Ret k /\
    forall j, i < j < method_rows d -> row_key d j <> Ret k.
Proof.
  intros E Hd. destruct (index_inv d ix E Hd) as (sids & tids & pids & mids & _ & _ & E1 & E2 & E3 & E4 & _ & _ & Em & _).
  assert (forall j, row_key d j = method_key d sids tids pids mids j) as Hk
    by (intros j; unfold row_key; by rewrite E1, E2, E3, E4).
  pose proof (index_methods_spec _ _ _ _ _ _ _ _ k (NoDup_seqZ _ _) Em) as Hs.
  setoid_rewrite Hk. intros i. split.
  - intros Hi. rewrite Hi in Hs. destruct Hs as [(l1 & l2 & El & Hki & Hl)|[Hc _]]; [|by rewrite lookup_empty in Hc].
    destruct (seqZ_split _ _ _ _ El) as [Hr Hl2]. split; [done|]. split; [done|]. intros j Hj.
    by apply (proj1 (Forall_forall _ _) Hl), Hl2.
  - intros (Hi & Hki & Hlast). assert (i ∈ seqZ 0 (method_rows d)) as Hin by (apply elem_of_seqZ; lia).
    destruct (ix_mid ix !! k) as [i'|]; [|destruct Hs as [_ Hl]; by specialize (proj1 (Forall_forall _ _) Hl i Hin)].
    destruct Hs as [(l1 & l2 & El & Hki' & Hl)|[Hc _]]; [|by rewrite lookup_empty in Hc].
    destruct (seqZ_split _ _ _ _ El) as [Hr Hl2]. f_equal. destruct (Z.lt_trichotomy i i') as [Hc|[Hc|Hc]]; [|done|].
    + exfalso. by apply (Hlast i'); [lia|].
    + exfalso. by apply (proj1 (Forall_forall _ _) Hl i); [apply Hl2; lia|].
Qed.

(** ** Access flags *)

(** A method list with the accumulated indices: index, access flags, code
    offset. *)
Fixpoint entries (midx : Z) (l : list (Z * Z * Z)) : list (Z * Z * Z) :=
  match l with
  | [] => []
  | (diff, a, c) :: r => let m := u32 (midx + diff) in (m, a, c) :: entries m r
  end.
Definition methods_of (cd : ClassData) : list (Z * Z * Z) :=
  entries 0 (cd_direct cd) ++ entries 0 (cd_virtual cd).
Definition record_acc (acc : gmap Z Z) (e : Z * Z * Z) : gmap Z Z := <[fst (fst e) := snd (fst e)]> acc.

(** The two field counts do not wrap when they are added. *)
Definition fields_fit (d : list Z) (cdo : Z) : Prop :=
  forall sf p sfld q, Rebuilder.uleb d cdo = Ret (sf, p) -> Rebuilder.uleb d p = Ret (sfld, q) -> sf + sfld < 2 ^ 32.

Lemma bind_eq {A B} (m : outcome A) (f g : A -> outcome B) : (forall a, f a = g a) -> (m ≫= f) = (m ≫= g).
Proof. intros Hf. destruct m; [apply Hf|done|done]. Qed.
Lemma bind_assoc {A B C} (m : outcome A) (f : A -> outcome B) (g : B -> outcome C) :
  ((m ≫= f) ≫= g) = (m ≫= fun a => f a ≫= g).
Proof. by destruct m. Qed.

Lemma skip_pairs_read d n p : skip_pairs d n p = ('(_, q) ← read_pairs n d p; Ret q).
Proof.
  revert p. induction n as [|n IH]; intros p; [done|]. cbn [skip_pairs read_pairs]. unfold rd_uleb.
  rewrite bind_assoc. apply bind_eq. intros [a p1]. rewrite bind_assoc. apply bind_eq. intros [b p2].
  rewrite IH, bind_assoc. apply bind_eq. by intros [l q].
Qed.
Lemma skip_pairs_add d n1 n2 p : skip_pairs d (n1 + n2) p = (q ← skip_pairs d n1 p; skip_pairs d n2 q).
Proof.
  revert p. induction n1 as [|n IH]; intros p; [done|]. cbn [skip_pairs Nat.add].
  rewrite bind_assoc. apply bind_eq. intros [a p1]. rewrite bind_assoc. apply bind_eq. intros [b p2]. apply IH.
Qed.
Lemma index_group_read d n p midx acc :
  index_group d n p midx acc = ('(l, q) ← read_triples n d p; Ret (foldl record_acc acc (entries midx l), q)).
Proof.
  revert p midx acc. induction n as [|n IH]; intros p midx acc; [done|]. cbn [index_group read_triples]. unfold rd_uleb.
  rewrite bind_assoc. apply bind_eq. intros [a p1]. rewrite bind_assoc. apply bind_eq. intros [b p2].
  rewrite bind_assoc. apply bind_eq. intros [c p3]. cbv zeta. rewrite IH, bind_assoc. apply bind_eq. by intros [l q].
Qed.

(** The index reads the class data the rebuilder reads. *)
Lemma index_data_read d cdo acc :
  fields_fit d cdo ->
  index_data d cdo acc = ('(cd, _) ← read_class_data d cdo; Ret (foldl record_acc acc (methods_of cd))).
Proof.
  intros Hf. unfold index_data, read_class_data, rd_uleb.
  destruct (uleb d cdo) as [[sf p]|e|] eqn:E1; [|done..]. cbn [mbind outcome_mbind outcome_bind].
  destruct (uleb d p) as [[sfld q]|e|] eqn:E2; [|done..]. cbn [mbind outcome_mbind outcome_bind].
  specialize (Hf _ _ _ _ E1 E2). pose proof (uleb_u32 _ _ _ _ E1). pose proof (uleb_u32 _ _ _ _ E2).
  rewrite u32_id by lia. rewrite Z2Nat.inj_add by lia.
  rewrite !bind_assoc. apply bind_eq. intros [dm p1]. rewrite !bind_assoc. apply bind_eq. intros [vm p2].
  rewrite skip_pairs_add, !bind_assoc. rewrite skip_pairs_read, bind_assoc. apply bind_eq. intros [l1 p3].
  cbn [mbind outcome_mbind outcome_bind].
  rewrite skip_pairs_read, !bind_assoc. apply bind_eq. intros [l2 p4]. cbn [mbind outcome_mbind outcome_bind].
  rewrite index_group_read, !bind_assoc. apply bind_eq. intros [l3 p5]. cbn [mbind outcome_mbind outcome_bind].
  rewrite index_group_read, !bind_assoc. apply bind_eq. intros [l4 p6]. cbn [mbind outcome_mbind outcome_bind].
  unfold methods_of. cbn [cd_direct cd_virtual]. by rewrite foldl_app.
Qed.

Lemma record_acc_lookup l acc m a :
  foldl record_acc acc l !! m = Some a -> acc !! m = Some a \/ exists c, (m, a, c) ∈ l.
Proof.
  revert acc. induction l as [|[[m' a'] c] l IH]; intros acc E; [by left|]. cbn [foldl] in E.
  destruct (IH _ E) as [E'|[c' Hc]]; [|right; exists c'; by right].
  unfold record_acc in E'. cbn [fst snd] in E'.
  apply lookup_insert_Some in E' as [[-> ->]|[_ E']]; [right; exists c; by left|by left].
Qed.

(** Every recorded access flag is declared in the class data of some row. *)
Lemma index_classes_acc d sids tids rows st st' m a :
  Forall (fun r => forall cdo, Rebuilder.rd32 d (r + 24) = Ret cdo -> cdo <> 0 -> fields_fit d cdo) rows ->
  index_classes d sids tids rows st = Ret st' -> fst st' !! m = Some a ->
  fst st !! m = Some a \/
  exists r cdo cd q c, r ∈ rows /\ Rebuilder.rd32 d (r + 24) = Ret cdo /\ cdo <> 0 /\
    read_class_data d cdo = Ret (cd, q) /\ (m, a, c) ∈ methods_of cd.
Proof.
  revert st. induction rows as [|r rows IH]; intros [acc cls] Hf E Ha; [injection E as <-; by left|].
  apply Forall_cons in Hf as [Hr Hf]. cbn [index_classes] in E. apply outcome_bind_ret in E as (st1 & E1 & E).
  destruct (IH _ Hf E Ha) as [Ha1|(r' & cdo & cd & q & c & Hin & Hrest)]; cycle 1.
  { right. exists r', cdo, cd, q, c. split; [by right|done]. }
  unfold index_class in E1. apply outcome_bind_ret in E1 as (cc & _ & E1). apply outcome_bind_ret in E1 as (s & _ & E1).
  apply outcome_bind_ret in E1 as (cdo & Ec & E1). apply outcome_bind_ret in E1 as (acc1 & Ea & E1).
  injection E1 as <-. cbn [fst] in *. destruct (Z.eqb_spec cdo 0) as [->|Hc]; [injection Ea as ->; by left|].
  rewrite index_data_read in Ea by (by apply Hr). apply outcome_bind_ret in Ea as ([cd q] & Er & Ea).
  injection Ea as <-. destruct (record_acc_lookup _ _ _ _ Ha1) as [?|[c Hin]]; [by left|right].
  exists r, cdo, cd, q, c. split; [by left|done].
Qed.

Lemma index_acc d ix m a :
  dex_method_index d = Ret ix -> 0x70 <= zlen d ->
  Forall (fun r => forall cdo, Rebuilder.rd32 d (r + 24) = Ret cdo -> cdo <> 0 -> fields_fit d cdo) (class_rows d) ->
  ix_acc ix !! m = Some a ->
  exists r cdo cd q c, r ∈ class_rows d /\ Rebuilder.rd32 d (r + 24) = Ret cdo /\ cdo <> 0 /\
    read_class_data d cdo = Ret (cd, q) /\ (m, a, c) ∈ methods_of cd.
Proof.
  intros E Hd Hf Ha. destruct (index_inv d ix E Hd) as (sids & tids & _ & _ & n & off & _ & _ & _ & _ & En & Eo & _ & Ec).
  change (rd_u32 d 0x60) with (Rebuilder.rd32 d 0x60) in En. change (rd_u32 d 0x64) with (Rebuilder.rd32 d 0x64) in Eo.
  unfold class_rows in *. rewrite En, Eo in *.
  destruct (index_classes_acc _ _ _ _ _ _ m a Hf Ec Ha) as [Hc|?]; [cbn [fst] in Hc; by rewrite lookup_empty in Hc|done].
Qed.

(** Class data past the end of the file is empty. *)
Lemma read_past_end d cdo : zlen d <= cdo -> read_class_data d cdo = Ret (mkClassData [] [] [] [], cdo).
Proof.
  intros Hc. assert (uleb d cdo = Ret (0, cdo)) as E.
  { unfold uleb. rewrite drop_ge; [done|]. unfold zlen in Hc. lia. }
  unfold read_class_data. do 4 (rewrite E; cbn [mbind outcome_mbind outcome_bind]). done.
Qed.

(** The tables are laid out as a DEX writer lays them out: the class rows
    behind the header, class data behind the rows, and no field count that
    wraps. *)
Record index_layout (d : list Z) : Prop := {
  lay_rows r : r ∈ class_rows d -> 0x70 <= r;
  lay_data r cdo : r ∈ class_rows d -> Rebuilder.rd32 d (r + 24) = Ret cdo -> cdo <> 0 ->
    fields_fit d cdo /\ Forall (fun r' => r' + 32 <= cdo) (class_rows d);
}.

Lemma index_declares d ix m a :
  dex_method_index d = Ret ix -> 0x70 <= zlen d -> index_layout d -> ix_acc ix !! m = Some a ->
  exists r cdo cd c, r ∈ class_rows d /\ row_data d r cdo cd /\ (m, a, c) ∈ methods_of cd.
Proof.
  intros E Hd [_ Hl] Ha.
  destruct (index_acc d ix m a E Hd) as (r & cdo & cd & q & c & Hr & Ec & Hn & Er & Hin); [|done|].
  { apply Forall_forall. intros r Hr cdo Ec Hc. by apply (Hl r). }
  exists r, cdo, cd, c. split; [done|]. split; [|done]. split; [done|]. split; [done|]. split; [|by exists q].
  destruct (Z.lt_ge_cases cdo (zlen d)) as [|Hge]; [done|]. rewrite read_past_end in Er by done.
  injection Er as <- _. by apply not_elem_of_nil in Hin.
Qed.
