(* ===== verification/RebuildDriver.v ===== *)
(** The devirtualizer from the decode log to the rebuilt files:
    [devirt_rebuild] of [include/vardoger/dex/devirt_rebuild.hpp].

    The host's files are a map from paths to bytes; [can_write] says for which
    paths an output stream opens.  Progress output is not modelled.  zlib's
    [adler32] is a parameter, as in [Rebuilder]. *)

From S2P Require Import Prelude.
From S2P Require Import Words.
From S2P Require Import CText.
From S2P Require Import Sha1.
From S2P Require Import Rebuilder.
From S2P Require Import DexIndex.
From S2P Require Import DalvikOps.
From S2P Require Import DevirtLog.
From S2P Require Import Devirt.
From stdpp Require Import strings.
From Stdlib Require Import Ascii.
#[local] Open Scope Z_scope.

(** ** The log *)

Record LogState := mkLogState {
  ls_blocks : list MethodBlock;
  all_dlv : list RawDlv;
  microvm_text : string;
}.

Definition is_map_row (line : string) : bool :=
  str_contains line "MICROVM op=" || str_contains line "OPMAP op=".
Definition add_line (txt line : string) : string := txt +:+ line +:+ String nl "".

(** [cur->dlv.push_back(dv)], [cur] being the last block. *)
Definition push_dlv (dv : RawDlv) (b : MethodBlock) : MethodBlock :=
  mkMethodBlock (blk_cls b) (blk_name b) (blk_sig b) (blk_dlv b ++ [dv]).
Fixpoint push_last (dv : RawDlv) (l : list MethodBlock) : list MethodBlock :=
  match l with
  | [] => []
  | [b] => [push_dlv dv b]
  | b :: r => b :: push_last dv r
  end.

Definition log_line (st : LogState) (line : string) : LogState :=
  if is_map_row line then mkLogState (ls_blocks st) (all_dlv st) (add_line (microvm_text st) line)
  else if String.prefix "==METHOD==" line then
    mkLogState (ls_blocks st ++ [mkMethodBlock (extract_field line "cls=") (extract_field line "name=")
                                   (extract_field line "sig=") []]) (all_dlv st) (microvm_text st)
  else match parse_dlv line with
       | None => st
       | Some dv => mkLogState (push_last dv (ls_blocks st))
                      (if dlv_op dv =? 0xffff then all_dlv st else all_dlv st ++ [dv]) (microvm_text st)
       end.
Definition read_log (log : string) : LogState := foldl log_line (mkLogState [] [] "") (get_lines log).

(** The map rows of [opmap.log]. *)
Definition map_rows (log : string) : string :=
  foldl (fun txt l => if is_map_row l then add_line txt l else txt) "" (get_lines log).

(** ** Decoding *)

Record Decoded := mkDecoded {
  dc_cls : string;
  dc_name : string;
  dc_sig : string;
  dc_units : list Z;
  covered : bool;
}.

Definition decode_block (opcls : gmap Z string) (blk : MethodBlock) : Decoded :=
  if String.eqb (blk_cls blk) "" || String.eqb (blk_name blk) "" || String.eqb (blk_cls blk) "?"
     || String.eqb (blk_name blk) "?"
  then mkDecoded "" "" "" [] false else
  let cls := ("L" +:+ blk_cls blk +:+ ";")%string in
  match md_decode_method (blk_dlv blk) opcls with
  | [] => mkDecoded cls (blk_name blk) (blk_sig blk) [] false
  | vm => mkDecoded cls (blk_name blk) (blk_sig blk) (md_assemble (md_to_dalvik <$> vm)) true
  end.

(** ** One DEX *)

Definition is_native (a : Z) : bool := negb (Z.land a 0x100 =? 0).
Definition is_static_acc (a : Z) : bool := negb (Z.land a 8 =? 0).

(** The frame size and the body for a method with access flags [a]. *)
Definition body_of (dc : Decoded) (ins : Z) : Z * list Z :=
  if covered dc then (Z.max 16 ins, dc_units dc) else minimal_body (sig_ret (dc_sig dc)) ins.
Definition code_of (dc : Decoded) (a : Z) : list Z :=
  let ins := sig_ins (dc_sig dc) (is_static_acc a) in
  let '(regs, units) := body_of dc ins in make_code_item regs ins 5 units.

(** The native method of this DEX a block is for, with its access flags. *)
Definition target_of (ix : DexIndex) (dc : Decoded) : option (Z * Z) :=
  midx ← ix_mid ix !! (dc_cls dc, dc_name dc, dc_sig dc);
  a ← ix_acc ix !! midx;
  if is_native a then Some (midx, a) else None.

(** One turn of the loop over the blocks: the rebuilder and the number
    skipped. *)
Definition install (ix : DexIndex) (st : Rebuilder * Z) (dc : Decoded) : Rebuilder * Z :=
  let '(rb, skipped) := st in
  if String.eqb (dc_cls dc) "" then (rb, skipped + 1) else
  if negb (bool_decide (dc_cls dc ∈ ix_classes ix)) then (rb, skipped) else
  match target_of ix dc with
  | None => (rb, skipped + 1)
  | Some (midx, a) => (set_code rb midx (code_of dc a), skipped)
  end.
Definition install_all (ix : DexIndex) (decoded : list Decoded) (rb : Rebuilder) : Rebuilder * Z :=
  foldl (install ix) (rb, 0) decoded.

Record DevirtResult := mkDevirtResult {
  r_path : string;
  r_built : Z;
  r_total : Z;
  r_skipped : Z;
  sig_ok : bool;
  csum_ok : bool;
}.

Definition is_sep (c : Ascii.ascii) : bool := Ascii.eqb c "/" || Ascii.eqb c "\".
Fixpoint has_sep (s : string) : bool :=
  match s with EmptyString => false | String c r => is_sep c || has_sep r end.
(** What follows the last separator. *)
Fixpoint base_name (s : string) : string :=
  match s with
  | EmptyString => EmptyString
  | String c r => if has_sep r then base_name r else if is_sep c then r else s
  end.

(** The second copy of SHA-1, in [devirt_detail]. *)
Definition detail_sha1 (data : list Z) : list Z := sha1 data.

Section Driver.
Variable adler32 : list Z -> Z.
Variable can_write : string -> bool.
#[local] Abbreviation Files := (gmap string (list Z)).

(** [of.write(...)] through a truncating stream. *)
Definition write_file (path : string) (data : list Z) : M Files unit :=
  if can_write path then modify (<[path := data]>) else skip.

(** The check of the bytes just written: signature, checksum. *)
Definition verify (out : list Z) : outcome (bool * bool) :=
  if zlen out <? 0x20 then Ret (false, false) else
  sig ← or_ub (slice out 0x0c 20);
  stored ← rd_u32 out 8;
  Ret (bool_decide (detail_sha1 (drop 0x20 out) = sig), stored =? u32 (adler32 (drop 0x0c out))).

Definition rebuild_dex (decoded : list Decoded) (total : Z) (out_dir dpath : string)
    : M Files (option DevirtResult) :=
  fs ← get;
  match fs !! dpath with
  | None => mret None
  | Some dex =>
      ix ← lift (dex_method_index dex);
      let '(rb, skipped) := install_all ix decoded (init_rebuilder dex) in
      let '(o, rb') := build adler32 rb in
      out ← lift o;
      let path := (out_dir +:+ "/" +:+ base_name dpath)%string in
      '(s, c) ← (if bool_decide (out = []) then mret (false, false)
                 else _ ← write_file path out; lift (verify out));
      mret (Some (mkDevirtResult path (patched_methods_ rb') total skipped s c))
  end.

Fixpoint rebuild_dexes (decoded : list Decoded) (total : Z) (out_dir : string) (paths : list string)
    : M Files (list DevirtResult) :=
  match paths with
  | [] => mret []
  | p :: r =>
      o ← rebuild_dex decoded total out_dir p;
      rest ← rebuild_dexes decoded total out_dir r;
      mret (match o with Some res => res :: rest | None => rest end)
  end.

(** The op-map rows: those of the log, else those of [opmap.log]. *)
Definition opmap_text (fs : Files) (st : LogState) (out_dir : string) : string :=
  if String.eqb (microvm_text st) "" && negb (String.eqb out_dir "") then
    match fs !! (out_dir +:+ "/opmap.log")%string with Some b => map_rows (text b) | None => "" end
  else microvm_text st.

Definition devirt_rebuild (decode_log : string) (dex_paths : list string) (out_dir : string)
    : M Files (list DevirtResult) :=
  fs ← get;
  match fs !! decode_log with
  | None => mret []
  | Some log =>
      let st := read_log (text log) in
      let opcls := build_op_family (all_dlv st) (opmap_text fs st out_dir) in
      rebuild_dexes (decode_block opcls <$> ls_blocks st) (zlen (ls_blocks st)) out_dir dex_paths
  end.
End Driver.

(** ** What is installed *)

(** The block [dc] puts a body on method [m], which has access flags [a]. *)
Definition installs (ix : DexIndex) (dc : Decoded) (m a : Z) : Prop :=
  dc_cls dc <> ""%string /\ dc_cls dc ∈ ix_classes ix /\ target_of ix dc = Some (m, a).

Lemma install_spec ix rb n dc :
  (exists m a, installs ix dc m a /\ install ix (rb, n) dc = (set_code rb m (code_of dc a), n)) \/
  ((forall m a, ~ installs ix dc m a) /\ fst (install ix (rb, n) dc) = rb).
Proof.
  unfold install, installs. destruct (String.eqb_spec (dc_cls dc) "") as [->|Hn]; [right; split; [by intros m a []|done]|].
  case_bool_decide as Hc; cbn [negb]; [|right; split; [by intros m a (_ & ? & _)|done]].
  destruct (target_of ix dc) as [[m a]|] eqn:E; [left; by exists m, a|right; split; [by intros m a (_ & _ & ?)|done]].
Qed.

Lemma install_all_d ix dcs rb n : d_ (fst (foldl (install ix) (rb, n) dcs)) = d_ rb.
Proof.
  revert rb n. induction dcs as [|dc dcs IH]; intros rb n; [done|]. cbn [foldl].
  pose proof (install_spec ix rb n dc) as Hs. destruct (install ix (rb, n) dc) as [rb1 n1]. rewrite IH.
  destruct Hs as [(m & a & _ & [= -> ->])|[_ Hr]]; [done|]. cbn [fst] in Hr. by rewrite Hr.
Qed.

Lemma install_all_last ix dcs rb n m :
  recovered_ (fst (foldl (install ix) (rb, n) dcs)) !! m = recovered_ rb !! m \/
  exists dc a, dc ∈ dcs /\ installs ix dc m a /\
    recovered_ (fst (foldl (install ix) (rb, n) dcs)) !! m = Some (code_of dc a).
Proof.
  induction dcs as [|dc dcs IH] using rev_ind; [by left|]. rewrite foldl_app. cbn [foldl].
  destruct (foldl (install ix) (rb, n) dcs) as [rb1 n1] eqn:E1. cbn [fst] in IH.
  destruct (install_spec ix rb1 n1 dc) as [(m' & a & Hi & ->)|[_ Hr]].
  - cbn [fst set_code recovered_]. destruct (decide (m' = m)) as [->|Hne].
    + right. exists dc, a. rewrite lookup_insert_eq. split; [apply elem_of_app; right; by left|done].
    + rewrite lookup_insert_ne by done. destruct IH as [?|(dc' & a' & Hin & Hrest)]; [by left|right].
      exists dc', a'. split; [apply elem_of_app; by left|done].
  - rewrite Hr. destruct IH as [?|(dc' & a' & Hin & Hrest)]; [by left|right].
    exists dc', a'. split; [apply elem_of_app; by left|done].
Qed.
Lemma install_all_some ix dcs dc rb n m a :
  dc ∈ dcs -> installs ix dc m a -> is_Some (recovered_ (fst (foldl (install ix) (rb, n) dcs)) !! m).
Proof.
  intros Hin Hi. revert rb n. induction dcs as [|dc' dcs IH]; intros rb n; cbn [foldl]; [by apply not_elem_of_nil in Hin|].
  apply elem_of_cons in Hin as [<-|Hin].
  - destruct (install_spec ix rb n dc) as [(m' & a' & (_ & _ & Ht) & ->)|[Hn _]]; [|by destruct (Hn m a)].
    destruct Hi as (_ & _ & Ht'). replace m' with m by congruence.
    destruct (install_all_last ix dcs (set_code rb m (code_of dc a')) n m) as [->|(dc1 & a1 & _ & _ & ->)]; [|done].
    cbn [set_code recovered_]. by rewrite lookup_insert_eq.
  - destruct (install ix (rb, n) dc') as [rb1 n1]. by apply IH.
Qed.

Lemma installs_native ix dc m a :
  installs ix dc m a -> ix_acc ix !! m = Some a /\ is_native a = true.
Proof.
  intros (_ & _ & Ht). unfold target_of in Ht.
  destruct (ix_mid ix !! _) as [m'|]; [|done]. cbn in Ht. destruct (ix_acc ix !! m') as [a'|] eqn:Ea; [|done].
  cbn in Ht. destruct (is_native a') eqn:En; [|done]. by injection Ht as <- <-.
Qed.

(** *** In the class data *)

Lemma patch_list_nonneg offs midx l : 0 <= snd (patch_list offs midx l).
Proof.
  revert midx. induction l as [|[[df a] c] l IH]; intros midx; cbn [patch_list]; [done|].
  destruct (patch_method _ _ _ _) as [[a' c'] ch]. specialize (IH (u32 (midx + df))).
  destruct (patch_list _ _ l) as [r n]. cbn [snd] in *. destruct ch; lia.
Qed.
Lemma patch_entry offs midx l m a c :
  (m, a, c) ∈ entries midx l ->
  (m, fst (fst (patch_method offs m a c)), snd (fst (patch_method offs m a c))) ∈ entries midx (fst (patch_list offs midx l)) /\
  (snd (patch_method offs m a c) = true -> 1 <= snd (patch_list offs midx l)).
Proof.
  revert midx. induction l as [|[[df a0] c0] l IH]; intros midx; cbn [entries patch_list]; [by intros ?%not_elem_of_nil|].
  specialize (IH (u32 (midx + df))). pose proof (patch_list_nonneg offs (u32 (midx + df)) l) as Hpos.
  destruct (patch_method offs (u32 (midx + df)) a0 c0) as [[a' c'] ch] eqn:Ep.
  destruct (patch_list offs (u32 (midx + df)) l) as [r n]. cbn [fst snd entries] in *.
  intros [[= -> -> ->]|Hin]%elem_of_cons.
  - rewrite Ep. cbn [fst snd]. split; [by left|]. intros ->. lia.
  - destruct (IH Hin) as [H1 H2]. split; [by right|]. intros Hc. specialize (H2 Hc). destruct ch; lia.
Qed.

(** A recovered native method of [cd], in the patched class data. *)
Lemma patch_methods offs cd m a c o :
  (m, a, c) ∈ methods_of cd -> offs !! m = Some o -> is_native a = true ->
  (m, Z.land a (0xffffffff - kAccNative), o) ∈ methods_of (patch_class_data offs cd) /\ patched_count offs cd <> 0.
Proof.
  intros Hin Ho Hn. unfold is_native in Hn. apply negb_true_iff in Hn.
  assert (patch_method offs m a c = (Z.land a (0xffffffff - kAccNative), o, true)) as Ep
    by (unfold patch_method; rewrite Ho; unfold kAccNative; by rewrite Hn).
  unfold methods_of, patch_class_data, patched_count in *. cbn [cd_direct cd_virtual].
  pose proof (patch_list_nonneg offs 0 (cd_direct cd)). pose proof (patch_list_nonneg offs 0 (cd_virtual cd)).
  apply elem_of_app in Hin as [Hin|Hin];
    destruct (patch_entry offs _ _ _ _ _ Hin) as [H1 H2]; rewrite Ep in H1, H2; specialize (H2 eq_refl);
    (split; [apply elem_of_app; auto|lia]).
Qed.

Section Rebuilt.
Variable adler32 : list Z -> Z.

(** C2: devirtualization reaches the file.  In every DEX the driver rebuilds, a
    native method for which a block was decoded is, in its class data, native
    no more and its code offset names the code item assembled for a block of
    the log that is for this very method (the last one). *)
Theorem rebuilt_methods dex ix decoded dc m a rb' d' :
  bytes_ok dex -> index_layout dex -> dex_method_index dex = Ret ix ->
  build adler32 (fst (install_all ix decoded (init_rebuilder dex))) = (Ret d', rb') ->
  d' <> [] -> zlen d' < 2 ^ 32 -> dc ∈ decoded -> installs ix dc m a ->
  exists r cdo cd o q dc',
    r ∈ class_rows dex /\ Rebuilder.rd32 d' (r + 24) = Ret cdo /\ read_class_data d' cdo = Ret (cd, q) /\
    (m, Z.land a (0xffffffff - kAccNative), o) ∈ methods_of cd /\
    dc' ∈ decoded /\ installs ix dc' m a /\ slice d' o (length (code_of dc' a)) = Some (code_of dc' a).
Proof.
  intros Hb Hl Hix Hbuild Hne Hw Hin Hi. unfold install_all in Hbuild.
  set (rb := fst (foldl (install ix) (init_rebuilder dex, 0) decoded)) in *.
  assert (d_ rb = dex) as Hd by apply install_all_d. rewrite <- Hd in Hb.
  destruct (build_inv _ _ _ _ Hbuild Hne) as (_ & _ & _ & _ & _ & _ & _ & H70 & _). rewrite Hd in H70.
  destruct (build_links _ _ _ _ Hb Hbuild Hne Hw) as (offs & Hoffs & Hrows). rewrite Hd in Hrows.
  destruct (installs_native _ _ _ _ Hi) as [Ha Hn].
  destruct (index_declares _ _ _ _ Hix H70 Hl Ha) as (r & cdo & cd & c & Hr & Hrow & Hcd).
  destruct (install_all_some ix decoded dc (init_rebuilder dex) 0 m a Hin Hi) as [ci Hci]. fold rb in Hci.
  destruct (install_all_last ix decoded (init_rebuilder dex) 0 m) as [He|(dc' & a' & Hin' & Hi' & He)];
    fold rb in He; rewrite Hci in He; [by cbn [init_rebuilder recovered_] in He; rewrite lookup_empty in He|].
  injection He as ->. replace a' with a in * by (destruct (installs_native _ _ _ _ Hi'); congruence).
  specialize (Hoffs m). rewrite Hci in Hoffs. destruct Hoffs as (o & Ho & _ & Hcode).
  destruct (patch_methods offs cd m a c o Hcd Ho Hn) as [Hp Hpc].
  specialize (Hrows r cdo cd Hr (lay_rows _ Hl r Hr)).
  destruct (lay_data _ Hl r cdo Hr (proj1 Hrow) (proj1 (proj2 Hrow))) as [_ Hbehind].
  specialize (Hrows Hbehind Hrow). rewrite (proj2 (Z.eqb_neq _ _) Hpc) in Hrows.
  destruct Hrows as (o' & q & Ero & _ & Erd).
  exists r, o', (patch_class_data offs cd), o, q, dc'. done.
Qed.

(** *** The driver's own check *)




Variable can_write : string -> bool.
#[local] Abbreviation Files := (gmap string (list Z)).

Section Runs.
Variable decoded : list Decoded.
Variables (total : Z) (out_dir : string).




End Runs.

End Rebuilt.

(** ** An example

    A DEX with one class [A] and its native method [f()V], and a log that
    recovered a single return. *)
Definition demo_dex : list Z :=
  bs "dex" ++ [10] ++ replicate 0x34 0 ++
  [3; 0; 0; 0; 112; 0; 0; 0; 2; 0; 0; 0; 124; 0; 0; 0; 1; 0; 0; 0; 132; 0; 0; 0; 0; 0; 0; 0; 0;
   0; 0; 0; 1; 0; 0; 0; 144; 0; 0; 0; 1; 0; 0; 0; 152; 0; 0; 0; 0; 0; 0; 0; 184; 0; 0; 0] ++
  [184; 0; 0; 0; 189; 0; 0; 0; 192; 0; 0; 0; 0; 0; 0; 0; 2; 0; 0; 0; 2; 0; 0; 0; 1; 0; 0; 0; 0;
   0; 0; 0; 0; 0; 0; 0; 1; 0; 0; 0; 0; 0; 0; 0; 1; 0; 0; 0; 255; 255; 255; 255; 0; 0; 0; 0; 255;
   255; 255; 255; 0; 0; 0; 0; 195; 0; 0; 0; 0; 0; 0; 0; 3; 76; 65; 59; 0; 1; 102; 0; 1; 86; 0; 0;
   0; 1; 0; 0; 136; 2; 0].
Definition demo_log : list Z :=
  bs "OPMAP op=0x0001 family=return" ++ [10] ++ bs "OPMAP op=0x0002 family=move" ++ [10] ++
  bs "==METHOD== cls=A name=f sig=()V" ++ [10] ++
  bs "DLV p=0 op=0x0001 len=1 raw=0x1" ++ [10] ++ bs "==METHOD== cls=? name=g sig=()V" ++ [10].
Definition demo_files : gmap string (list Z) := {["/l"%string := demo_log; "/in/a.dex"%string := demo_dex]}.
Definition demo_ix : DexIndex := match dex_method_index demo_dex with Ret ix => ix | _ => empty_index end.
Definition demo_adler (l : list Z) : Z := fold_left Z.add l 1.
Definition demo_decoded : list Decoded :=
  let st := read_log (text demo_log) in decode_block (build_op_family (all_dlv st) (microvm_text st)) <$> ls_blocks st.

Example demo_decodes :
  demo_decoded = [mkDecoded "LA;" "f" "()V" [0x000e] true; mkDecoded "" "" "" [] false] /\
  map_to_list (ix_mid demo_ix) = [(("LA;", "f", "()V"), 0)]%string /\ ix_acc demo_ix !! 0 = Some 0x108.
Proof. vm_compute. done. Qed.

Definition demo_res : DevirtResult := mkDevirtResult "/out/a.dex" 1 2 1 true true.



(** A result looks right although its output could not be opened. *)
Example unwritten_looks_right :
  let run := devirt_rebuild demo_adler (fun _ => false) "/l" ["/in/a.dex"]%string "/out" demo_files in
  fst run = Ret [demo_res] /\ snd run = demo_files.
Proof. vm_compute. done. Qed.

Lemma demo_index : dex_method_index demo_dex = Ret demo_ix.
Proof. vm_compute. reflexivity. Qed.
Lemma demo_layout : index_layout demo_dex.
Proof.
  assert (class_rows demo_dex = [0x98]) as Er by (vm_compute; reflexivity).
  split; rewrite Er.
  - intros r [->|Hr%not_elem_of_nil]%elem_of_cons; [done|done].
  - intros r cdo [->|Hr%not_elem_of_nil]%elem_of_cons Ec _; [|done].
    assert (Rebuilder.rd32 demo_dex (0x98 + 24) = Ret 0xc3) as Ec' by (vm_compute; reflexivity).
    rewrite Ec' in Ec. injection Ec as <-. split.
    + intros sf p sfld q E1 E2.
      assert (Rebuilder.uleb demo_dex 0xc3 = Ret (0, 0xc4)) as E1' by (vm_compute; reflexivity).
      rewrite E1' in E1. injection E1 as <- <-.
      assert (Rebuilder.uleb demo_dex 0xc4 = Ret (0, 0xc5)) as E2' by (vm_compute; reflexivity).
      rewrite E2' in E2. injection E2 as <- <-. done.
    + apply Forall_cons_2; [done|apply Forall_nil_2].
Qed.

Definition demo_dc : Decoded := mkDecoded "LA;" "f" "()V" [0x000e] true.
Definition demo_built := build demo_adler (fst (install_all demo_ix [demo_dc] (init_rebuilder demo_dex))).
Definition demo_bytes : list Z := match fst demo_built with Ret d => d | _ => [] end.
Lemma demo_installs : installs demo_ix demo_dc 0 0x108.
Proof. split; [done|]. split; [apply (bool_decide_unpack _)|]; vm_compute; [exact I|reflexivity]. Qed.

Lemma rebuilt_methods_witness :
  exists r cdo cd o q dc', r ∈ class_rows demo_dex /\ Rebuilder.rd32 demo_bytes (r + 24) = Ret cdo /\
    read_class_data demo_bytes cdo = Ret (cd, q) /\ (0, 8, o) ∈ methods_of cd /\
    dc' ∈ [demo_dc] /\ slice demo_bytes o (length (code_of dc' 0x108)) = Some (code_of dc' 0x108).
Proof.
  destruct (rebuilt_methods demo_adler demo_dex demo_ix [demo_dc] demo_dc 0 0x108 (snd demo_built) demo_bytes)
    as (r & cdo & cd & o & q & dc' & Hr & Ec & Ed & Hin & Hdc & _ & Hs).
  - apply bytes_okb_ok. vm_compute. reflexivity.
  - exact demo_layout.
  - exact demo_index.
  - fold demo_built. assert (fst demo_built = Ret demo_bytes) as <- by (vm_compute; reflexivity). apply surjective_pairing.
  - vm_compute. discriminate.
  - vm_compute. reflexivity.
  - apply list_elem_of_here.
  - exact demo_installs.
  - by exists r, cdo, cd, o, q, dc'.
Defined.

Lemma method_lookup_witness :
  ix_mid demo_ix !! ("LA;", "f", "()V")%string = Some 0 /\
  0 <= 0 < method_rows demo_dex /\ row_key demo_dex 0 = Ret ("LA;", "f", "()V")%string.
Proof.
  assert (ix_mid demo_ix !! ("LA;", "f", "()V")%string = Some 0) as E by (vm_compute; reflexivity).
  destruct (proj1 (method_lookup demo_dex demo_ix ("LA;", "f", "()V")%string demo_index ltac:(vm_compute; discriminate) 0) E)
    as (H1 & H2 & _).
  split; [exact E|]. split; [exact H1|exact H2].
Defined.

(** Two inputs of one file name are written to one path: the second replaces
    the first. *)
Example same_name_overwrites :
  (r_path <$> (match fst (devirt_rebuild demo_adler (fun _ => true) "/l" ["/in/a.dex"; "/in/../in/a.dex"] "/out"
      (<["/in/../in/a.dex"%string := demo_dex]> demo_files)) with Ret l => l | _ => [] end))
  = ["/out/a.dex"; "/out/a.dex"]%string.
Proof. vm_compute. reflexivity. Qed.

(** A block whose class is in no DEX is not counted as skipped. *)
Example missing_class_not_counted :
  snd (install_all demo_ix [mkDecoded "LB;" "f" "()V" [] false] (init_rebuilder demo_dex)) = 0.
Proof. vm_compute. reflexivity. Qed.

(** A header with one method row and no table: the index reads outside the
    buffer. *)
Example index_reads_outside :
  dex_method_index (replicate 0x58 0 ++ [1; 0; 0; 0; 0; 1; 0; 0] ++ replicate 16 0) = UB.
Proof. vm_compute. reflexivity. Qed.
