(* ===== verification/Dalvik.v ===== *)
(** The Dalvik interpreter: [core/dex/dalvik.cpp],
    [include/vardoger/dex/dalvik.hpp].

    [run] on a code item, with the host callbacks as a record of optional
    functions on the interpreter's state: the depth counter and the host's
    own world.  A callback may re-enter [run]; [invoke_at] below closes that
    knot.  Registers are 64-bit slots; an index outside the register file, a
    signed 64-bit overflow and INT64_MIN / -1 are undefined behaviour. *)

From S2P Require Import Prelude.
From S2P Require Import Words.
From S2P Require Import DexFile.
From S2P Require Import DalvikOps.

Inductive InvokeKind := Virtual | Super | Direct | Static | Interface.

(** ** Operands and arithmetic *)

(** [u16(d, off)] and [u32(d, off)]: the bound is computed in 32 bits. *)
Definition dvk_rd (n : nat) (d : list Z) (off : Z) : outcome Z :=
  if u32 (off + Z.of_nat n) <=? zlen d then l ← or_ub (slice d off n); Ret (le_val l) else Ret 0.

Definition rreg (R : list Z) (i : Z) : outcome Z := or_ub (znth R i).
Definition wreg (R : list Z) (i v : Z) : outcome (list Z) :=
  if (0 <=? i) && (i <? zlen R) then Ret (<[Z.to_nat i := v]> R) else UB.

(** [ibin]: 0 add 1 sub 2 mul 3 div 4 rem 5 and 6 or 7 xor 8 shl 9 shr 10 ushr,
    on two [int64_t]. *)
Definition ibin (k a b : Z) : outcome Z :=
  let checked x := if in_s64 x then Ret (u64 x) else UB in
  if k =? 0 then checked (a + b)
  else if k =? 1 then checked (a - b)
  else if k =? 2 then checked (a * b)
  else if k =? 3 then (if b =? 0 then Ret 0 else checked (Z.quot a b))
  else if k =? 4 then
    (if b =? 0 then Ret 0 else if in_s64 (Z.quot a b) then Ret (u64 (Z.rem a b)) else UB)
  else if k =? 5 then Ret (u64 (Z.land a b))
  else if k =? 6 then Ret (u64 (Z.lor a b))
  else if k =? 7 then Ret (u64 (Z.lxor a b))
  else if k =? 8 then Ret (u64 (Z.shiftl a (Z.land b 63)))
  else if k =? 9 then Ret (u64 (Z.shiftr a (Z.land b 63)))
  else if k =? 10 then Ret (u64 (Z.shiftr (u64 a) (Z.land b 63)))
  else Ret 0.

(** The test of if-test and if-testz, by offset in its family. *)
Definition cmp_holds (k a b : Z) : bool :=
  if k =? 0 then a =? b
  else if k =? 1 then negb (a =? b)
  else if k =? 2 then a <? b
  else if k =? 3 then b <=? a
  else if k =? 4 then b <? a
  else a <=? b.

Definition in_op (op lo hi : Z) : bool := (lo <=? op) && (op <=? hi).

(** ** The frame of one activation *)

Record Frame := mkFrame { R : list Z; pc : Z; ret : Z }.

(** Go on with a frame, or leave [run] with a value. *)
Inductive Ctl := Cont (f : Frame) | Stop (v : Z).

Definition jump (f : Frame) (n : Z) : Ctl := Cont (mkFrame (R f) (u32 (pc f + n)) (ret f)).

(** [R[i] = v; pc += n;] *)
Definition setr (f : Frame) (i v n : Z) : outcome Ctl :=
  R' ← wreg (R f) i v; Ret (Cont (mkFrame R' (u32 (pc f + n)) (ret f))).

Section Pure.
Context (d : list Z).

(** 0x01..0x0c: moves and move-result. *)
Definition step_move (f : Frame) (iaddr op b1 : Z) : outcome Ctl :=
  if in_op op 0x0a 0x0c then setr f b1 (ret f) 1
  else if (op =? 0x01) || (op =? 0x04) || (op =? 0x07) then
    v ← rreg (R f) (Z.shiftr b1 4); setr f (Z.land b1 0xf) v 1
  else if (op =? 0x02) || (op =? 0x05) || (op =? 0x08) then
    i ← dvk_rd 2 d (u32 (iaddr + 2)); v ← rreg (R f) i; setr f b1 v 2
  else
    i ← dvk_rd 2 d (u32 (iaddr + 4)); v ← rreg (R f) i;
    j ← dvk_rd 2 d (u32 (iaddr + 2)); setr f j v 3.

(** 0x12..0x19 and 0x1c: constants. *)
Definition step_const (f : Frame) (iaddr op b1 : Z) : outcome Ctl :=
  if op =? 0x12 then
    setr f (Z.land b1 0xf) (u64 (Z.shiftr (s8 (Z.shiftl (Z.shiftr b1 4) 4)) 4)) 1
  else if (op =? 0x13) || (op =? 0x16) then
    v ← dvk_rd 2 d (u32 (iaddr + 2)); setr f b1 (u64 (s16 v)) 2
  else if (op =? 0x14) || (op =? 0x17) then
    v ← dvk_rd 4 d (u32 (iaddr + 2)); setr f b1 (u64 (s32 v)) 3
  else if op =? 0x15 then
    v ← dvk_rd 2 d (u32 (iaddr + 2)); setr f b1 (u64 (Z.shiftl (s16 v) 16)) 2
  else if op =? 0x18 then
    v ← (if u32 (iaddr + 10) <=? zlen d
          then l ← or_ub (slice d (iaddr + 2) 8); Ret (le_val l) else Ret 0);
    setr f b1 v 5
  else if op =? 0x19 then
    v ← dvk_rd 2 d (u32 (iaddr + 2)); setr f b1 (u64 (Z.shiftl (s16 v) 48)) 2
  else setr f b1 0 2.

(** Returns, throw, goto and the conditional branches. *)
Definition step_return (f : Frame) (op b1 : Z) : outcome Ctl :=
  if op =? 0x0e then Ret (Stop 0)
  else if op =? 0x27 then Ret (Stop (ret f))
  else v ← rreg (R f) b1; Ret (Stop v).

Definition step_goto (f : Frame) (iaddr op b1 : Z) : outcome Ctl :=
  if op =? 0x28 then
    let off := s8 b1 in
    Ret (if off =? 0 then Stop (ret f) else jump f off)
  else if op =? 0x29 then
    v ← dvk_rd 2 d (u32 (iaddr + 2));
    let off := s16 v in Ret (jump f (if off =? 0 then 2 else off))
  else
    v ← dvk_rd 4 d (u32 (iaddr + 2));
    let off := s32 v in Ret (jump f (if off =? 0 then 3 else off)).

Definition step_if (f : Frame) (iaddr op b1 : Z) : outcome Ctl :=
  v ← dvk_rd 2 d (u32 (iaddr + 2));
  let off := s16 v in
  t ← (if in_op op 0x32 0x37 then
         a ← rreg (R f) (Z.land b1 0xf); b ← rreg (R f) (Z.shiftr b1 4);
         Ret (cmp_holds (op - 0x32) (s64 a) (s64 b))
       else a ← rreg (R f) b1; Ret (cmp_holds (op - 0x38) (s64 a) 0));
  Ret (jump f (if t : bool then (if off =? 0 then 2 else off) else 2)).

(** 0x7b..0x8f: unary operators. *)
Definition unop (op x : Z) : outcome Z :=
  if op =? 0x7b then Ret (u64 (- s32 x))
  else if op =? 0x7c then Ret (u64 (- s32 x - 1))
  else if op =? 0x7d then (if in_s64 (- s64 x) then Ret (u64 (- s64 x)) else UB)
  else if op =? 0x7e then Ret (u64 (- x - 1))
  else if (op =? 0x81) || (op =? 0x84) then Ret (u64 (s32 x))
  else if op =? 0x8d then Ret (u64 (s8 x))
  else if op =? 0x8e then Ret (u16 x)
  else if op =? 0x8f then Ret (u64 (s16 x))
  else Ret x.

Definition step_unop (f : Frame) (op b1 : Z) : outcome Ctl :=
  x ← rreg (R f) (Z.shiftr b1 4); v ← unop op x; setr f (Z.land b1 0xf) v 1.

(** The operator of a 23x or 12x instruction by its offset in its block:
    eleven int, eleven long, then the floating ones. *)
Definition bin_kind (o : Z) : Z :=
  if o <? 11 then o else if o <? 22 then o - 11 else o - 22.

Definition step_binop (f : Frame) (iaddr op b1 : Z) : outcome Ctl :=
  bc ← dvk_rd 2 d (u32 (iaddr + 2));
  b ← rreg (R f) (Z.land bc 0xff); c ← rreg (R f) (Z.shiftr bc 8);
  v ← ibin (bin_kind (op - 0x90)) (s64 b) (s64 c); setr f b1 v 2.

Definition step_2addr (f : Frame) (op b1 : Z) : outcome Ctl :=
  a ← rreg (R f) (Z.land b1 0xf); b ← rreg (R f) (Z.shiftr b1 4);
  v ← ibin (bin_kind (op - 0xb0)) (s64 a) (s64 b); setr f (Z.land b1 0xf) v 1.

Definition step_lit16 (f : Frame) (iaddr op b1 : Z) : outcome Ctl :=
  c ← dvk_rd 2 d (u32 (iaddr + 2));
  b ← rreg (R f) (Z.shiftr b1 4);
  v ← (if op =? 0xd1 then Ret (u64 (s16 c - s32 b)) else ibin (op - 0xd0) (s32 b) (s16 c));
  setr f (Z.land b1 0xf) v 2.

Definition step_lit8 (f : Frame) (iaddr op b1 : Z) : outcome Ctl :=
  bc ← dvk_rd 2 d (u32 (iaddr + 2));
  b ← rreg (R f) (Z.land bc 0xff);
  let lit := s8 (Z.shiftr bc 8) in
  v ← (if op =? 0xd9 then Ret (u64 (lit - s32 b)) else ibin (op - 0xd8) (s32 b) lit);
  setr f b1 v 2.

(** Instructions without a callback, [None] for the others. *)
Definition step_pure (f : Frame) (iaddr op b1 : Z) : option (outcome Ctl) :=
  if op =? 0 then Some (Ret (jump f 1))
  else if in_op op 0x01 0x0c then Some (step_move f iaddr op b1)
  else if in_op op 0x0e 0x11 || (op =? 0x27) then Some (step_return f op b1)
  else if in_op op 0x12 0x19 || (op =? 0x1c) then Some (step_const f iaddr op b1)
  else if in_op op 0x1d 0x1e then Some (Ret (jump f 1))
  else if op =? 0x1f then Some (Ret (jump f 2))
  else if op =? 0x20 then Some (setr f (Z.land b1 0xf) 1 2)
  else if in_op op 0x24 0x26 || in_op op 0x2b 0x2c then Some (Ret (jump f 3))
  else if in_op op 0x28 0x2a then Some (step_goto f iaddr op b1)
  else if in_op op 0x2d 0x31 then Some (setr f b1 0 2)
  else if in_op op 0x32 0x3d then Some (step_if f iaddr op b1)
  else if in_op op 0x7b 0x8f then Some (step_unop f op b1)
  else if in_op op 0x90 0xaf then Some (step_binop f iaddr op b1)
  else if in_op op 0xb0 0xcf then Some (step_2addr f op b1)
  else if in_op op 0xd0 0xd7 then Some (step_lit16 f iaddr op b1)
  else if in_op op 0xd8 0xe2 then Some (step_lit8 f iaddr op b1)
  else None.
End Pure.

(** ** Callbacks and the loop *)

(** The interpreter's own state, and whatever the callbacks act on. *)
Record DState (W : Type) := mkDState { depth_ : Z; world : W }.
Arguments mkDState {W} _ _.
Arguments depth_ {W} _.
Arguments world {W} _.

(** [std::function] members: [None] when they are not set. *)
Record Host (W : Type) := mkHost {
  on_invoke : option (InvokeKind -> Z -> list Z -> M (DState W) Z);
  on_sget : option (Z -> M (DState W) Z);
  on_sput : option (Z -> Z -> M (DState W) unit);
  on_iget : option (Z -> Z -> M (DState W) Z);
  on_iput : option (Z -> Z -> Z -> M (DState W) unit);
  on_const_string : option (Z -> M (DState W) Z);
  on_new_instance : option (Z -> M (DState W) Z);
  on_new_array : option (Z -> Z -> M (DState W) Z);
  on_array_length : option (Z -> M (DState W) Z);
  on_aget : option (Z -> Z -> M (DState W) Z);
  on_aput : option (Z -> Z -> Z -> M (DState W) unit);
}.
Arguments mkHost {W} _ _ _ _ _ _ _ _ _ _ _.
Arguments on_invoke {W} _.
Arguments on_sget {W} _.
Arguments on_sput {W} _.
Arguments on_iget {W} _.
Arguments on_iput {W} _.
Arguments on_const_string {W} _.
Arguments on_new_instance {W} _.
Arguments on_new_array {W} _.
Arguments on_array_length {W} _.
Arguments on_aget {W} _.
Arguments on_aput {W} _.

Definition no_host {W} : Host W :=
  mkHost None None None None None None None None None None None.

(** [on_x ? on_x(..) : 0] and [if (on_x) on_x(..)]. *)
Definition call_or0 {St A} (o : option A) (f : A -> M St Z) : M St Z :=
  match o with Some g => f g | None => mret 0 end.
Definition call_if {St A} (o : option A) (f : A -> M St unit) : M St unit :=
  match o with Some g => f g | None => mret tt end.

Definition invoke_kind (k : Z) : InvokeKind :=
  if k =? 0 then Virtual else if k =? 1 then Super else if k =? 2 then Direct
  else if k =? 3 then Static else Interface.

(** [for (i < A) a.push_back(R[rv[i]])]: [rv] has five entries. *)
Fixpoint gather (R : list Z) (rv : list Z) (n : nat) {struct n} : outcome (list Z) :=
  match n with
  | O => Ret []
  | S k => match rv with
           | [] => UB
           | r :: rv' => v ← rreg R r; vs ← gather R rv' k; Ret (v :: vs)
           end
  end.

(** The argument registers of a 35c instruction. *)
Definition rv35 (regs b1 : Z) : list Z :=
  [Z.land regs 0xf; Z.land (Z.shiftr regs 4) 0xf; Z.land (Z.shiftr regs 8) 0xf;
   Z.land (Z.shiftr regs 12) 0xf; Z.land b1 0xf].

Section Loop.
Context {W : Type} (h : Host W) (d : list Z).
Let St := DState W.

Definition msetr (f : Frame) (i v n : Z) : M St Ctl := lift (setr f i v n).

(** Strings, objects and arrays. *)
Definition step_object (f : Frame) (iaddr op b1 : Z) : M St Ctl :=
  if op =? 0x1a then
    v ← call_or0 (on_const_string h) (fun g => i ← lift (dvk_rd 2 d (u32 (iaddr + 2))); g i);
    msetr f b1 v 2
  else if op =? 0x1b then
    v ← call_or0 (on_const_string h) (fun g => i ← lift (dvk_rd 4 d (u32 (iaddr + 2))); g i);
    msetr f b1 v 3
  else if op =? 0x22 then
    v ← call_or0 (on_new_instance h) (fun g => i ← lift (dvk_rd 2 d (u32 (iaddr + 2))); g i);
    msetr f b1 v 2
  else if op =? 0x21 then
    v ← call_or0 (on_array_length h)
          (fun g => a ← lift (rreg (R f) (Z.shiftr b1 4)); n ← g a; mret (u32 n));
    msetr f (Z.land b1 0xf) v 1
  else
    v ← call_or0 (on_new_array h)
          (fun g => i ← lift (dvk_rd 2 d (u32 (iaddr + 2)));
                    n ← lift (rreg (R f) (Z.shiftr b1 4)); g i (s32 n));
    msetr f (Z.land b1 0xf) v 2.

(** aget/aput, iget/iput, sget/sput. *)
Definition step_array (f : Frame) (iaddr op b1 : Z) : M St Ctl :=
  bc ← lift (dvk_rd 2 d (u32 (iaddr + 2)));
  let arr := Z.land bc 0xff in
  let idx := Z.shiftr bc 8 in
  if in_op op 0x44 0x4a then
    v ← call_or0 (on_aget h)
          (fun g => a ← lift (rreg (R f) arr); i ← lift (rreg (R f) idx); g a (s32 i));
    msetr f b1 v 2
  else
    call_if (on_aput h)
      (fun g => a ← lift (rreg (R f) arr); i ← lift (rreg (R f) idx);
                v ← lift (rreg (R f) b1); g a (s32 i) v);;
    mret (jump f 2).

Definition step_field (f : Frame) (iaddr op b1 : Z) : M St Ctl :=
  let idx := lift (dvk_rd 2 d (u32 (iaddr + 2))) in
  if in_op op 0x52 0x58 then
    v ← call_or0 (on_iget h)
          (fun g => o ← lift (rreg (R f) (Z.shiftr b1 4)); i ← idx; g o i);
    msetr f (Z.land b1 0xf) v 2
  else if in_op op 0x59 0x5f then
    call_if (on_iput h)
      (fun g => o ← lift (rreg (R f) (Z.shiftr b1 4)); i ← idx;
                v ← lift (rreg (R f) (Z.land b1 0xf)); g o i v);;
    mret (jump f 2)
  else if in_op op 0x60 0x66 then
    v ← call_or0 (on_sget h) (fun g => i ← idx; g i); msetr f b1 v 2
  else
    call_if (on_sput h) (fun g => i ← idx; v ← lift (rreg (R f) b1); g i v);;
    mret (jump f 2).

(** The frame after an invoke that gave [v]. *)
Definition invoked (f : Frame) (v : Z) : Ctl := Cont (mkFrame (R f) (u32 (pc f + 3)) v).

Definition step_invoke (f : Frame) (iaddr op b1 : Z) : M St Ctl :=
  midx ← lift (dvk_rd 2 d (u32 (iaddr + 2)));
  regs ← lift (dvk_rd 2 d (u32 (iaddr + 4)));
  a ← lift (gather (R f) (rv35 regs b1) (Z.to_nat (Z.shiftr b1 4)));
  v ← call_or0 (on_invoke h) (fun g => g (invoke_kind (op - 0x6e)) midx a);
  mret (invoked f v).

(** The range form stops at the end of the register file. *)
Definition step_invoke_range (f : Frame) (iaddr op b1 : Z) : M St Ctl :=
  midx ← lift (dvk_rd 2 d (u32 (iaddr + 2)));
  creg ← lift (dvk_rd 2 d (u32 (iaddr + 4)));
  let a := take (Z.to_nat b1) (drop (Z.to_nat creg) (R f)) in
  v ← call_or0 (on_invoke h) (fun g => g (invoke_kind (op - 0x74)) midx a);
  mret (invoked f v).

(** One turn of the loop; an opcode without a case ends the method. *)
Definition step_op (f : Frame) (iaddr op b1 : Z) : M St Ctl :=
  match step_pure d f iaddr op b1 with
  | Some o => lift o
  | None =>
      if in_op op 0x1a 0x1b || in_op op 0x21 0x23 then step_object f iaddr op b1
      else if in_op op 0x44 0x51 then step_array f iaddr op b1
      else if in_op op 0x52 0x6d then step_field f iaddr op b1
      else if in_op op 0x6e 0x72 then step_invoke f iaddr op b1
      else if in_op op 0x74 0x78 then step_invoke_range f iaddr op b1
      else mret (Stop (ret f))
  end.

Definition step (base : Z) (f : Frame) : M St Ctl :=
  let iaddr := u32 (base + u32 (pc f * 2)) in
  op ← lift (or_ub (znth d iaddr));
  let b1 := if u32 (iaddr + 1) <? zlen d then default 0 (znth d (u32 (iaddr + 1))) else 0 in
  step_op f iaddr op b1.

(** [--depth_; return v;] *)
Definition leave (v : Z) : M St Z :=
  modify (fun s => mkDState (depth_ s - 1) (world s));; mret v.

Fixpoint loop (n : nat) (c : Code) (f : Frame) : M St Z :=
  match n with
  | O => leave (ret f)
  | S k => if insns_size c <=? pc f then leave (ret f)
           else ctl ← step (insns_off c) f;
                match ctl with Cont f' => loop k c f' | Stop v => leave v end
  end.

Definition max_steps : nat := Z.to_nat 200000.
Definition max_depth : Z := 64.

(** [R[registers_size - ins_size + i] = args[i]], for the first [ins] arguments. *)
Fixpoint place (R : list Z) (base i ins : Z) (args : list Z) : outcome (list Z) :=
  match args with
  | [] => Ret R
  | a :: r => if i <? ins
              then R' ← wreg R (u64 (base + i)) a; place R' base (i + 1) ins r
              else Ret R
  end.

Definition run (c : Code) (args : list Z) : M St Z :=
  s ← get;
  if negb (c_valid c) || (max_depth <=? depth_ s) then mret 0 else
  modify (fun s => mkDState (depth_ s + 1) (world s));;
  let n := if registers_size c =? 0 then 1 else registers_size c in
  R0 ← lift (place (replicate (Z.to_nat n) 0) (registers_size c - ins_size c) 0 (ins_size c) args);
  loop max_steps c (mkFrame R0 0 0).
End Loop.

(** ** Re-entry

    The host's [on_invoke] may interpret another method.  [H] is a host built
    over a way to run a method; [invoke_at n] nests it [n] levels deep. *)
Section Knot.
Context {W : Type} (H : (Code -> list Z -> M (DState W) Z) -> Host W) (d : list Z).

Fixpoint invoke_at (n : nat) (c : Code) (args : list Z) : M (DState W) Z :=
  match n with
  | O => lift UB
  | S k => run (H (invoke_at k)) d c args
  end.
End Knot.

(** ** The interpreter is parametric in its host

    A relation on computations that holds of what does not touch the state
    and is closed under sequencing holds of two runs of a step with related
    hosts: the depth theorems below are instances. *)

Section Parametric.
Context {W : Type} (P : forall A, M (DState W) A -> M (DState W) A -> Prop).

Definition opt_rel {C} (Q : C -> C -> Prop) (o o' : option C) : Prop :=
  match o, o' with
  | Some g, Some g' => Q g g'
  | None, None => True
  | _, _ => False
  end.

Record host_rel (h h' : Host W) : Prop := mkHostRel {
  rel_invoke : opt_rel (fun g g' => forall k m a, P _ (g k m a) (g' k m a)) (on_invoke h) (on_invoke h');
  rel_sget : opt_rel (fun g g' => forall i, P _ (g i) (g' i)) (on_sget h) (on_sget h');
  rel_sput : opt_rel (fun g g' => forall i v, P _ (g i v) (g' i v)) (on_sput h) (on_sput h');
  rel_iget : opt_rel (fun g g' => forall o i, P _ (g o i) (g' o i)) (on_iget h) (on_iget h');
  rel_iput : opt_rel (fun g g' => forall o i v, P _ (g o i v) (g' o i v)) (on_iput h) (on_iput h');
  rel_str : opt_rel (fun g g' => forall i, P _ (g i) (g' i)) (on_const_string h) (on_const_string h');
  rel_new : opt_rel (fun g g' => forall i, P _ (g i) (g' i)) (on_new_instance h) (on_new_instance h');
  rel_arr : opt_rel (fun g g' => forall i n, P _ (g i n) (g' i n)) (on_new_array h) (on_new_array h');
  rel_len : opt_rel (fun g g' => forall a, P _ (g a) (g' a)) (on_array_length h) (on_array_length h');
  rel_aget : opt_rel (fun g g' => forall a i, P _ (g a i) (g' a i)) (on_aget h) (on_aget h');
  rel_aput : opt_rel (fun g g' => forall a i v, P _ (g a i v) (g' a i v)) (on_aput h) (on_aput h');
}.

(** Closed under the parts of a step that leave the state alone. *)
Class Sequential : Prop := {
  seq_lift A (o : outcome A) : P _ (lift o) (lift o);
  seq_bind A B (m m' : M (DState W) A) (f f' : A -> M (DState W) B) :
    P _ m m' -> (forall a, P _ (f a) (f' a)) -> P _ (m ≫= f) (m' ≫= f');
}.
Context `{!Sequential}.

Lemma seq_ret A (a : A) : P _ (mret a) (mret a).
Proof. apply (seq_lift A (Ret a)). Qed.

Lemma rel_call_or0 C (Q : C -> C -> Prop) o o' f f' :
  opt_rel Q o o' -> (forall g g', Q g g' -> P _ (f g) (f' g')) ->
  P _ (call_or0 o f) (call_or0 o' f').
Proof. intros Ho Hf. destruct o, o'; try done; [by apply Hf|apply seq_ret]. Qed.

Lemma rel_call_if C (Q : C -> C -> Prop) o o' f f' :
  opt_rel Q o o' -> (forall g g', Q g g' -> P _ (f g) (f' g')) ->
  P _ (call_if o f) (call_if o' f').
Proof. intros Ho Hf. destruct o, o'; try done; [by apply Hf|apply seq_ret]. Qed.

Ltac related Hh :=
  repeat first
    [ apply seq_ret | apply seq_lift | apply seq_bind; [|intros ?]
    | eapply rel_call_or0; [apply Hh|intros ?? Hg] | eapply rel_call_if; [apply Hh|intros ?? Hg]
    | match goal with |- context [if ?b then _ else _] => destruct b end
    | solve [eauto] ].

Lemma step_rel h h' d base f : host_rel h h' -> P _ (step h d base f) (step h' d base f).
Proof.
  intros Hh. unfold step. apply seq_bind; [apply seq_lift|intros op].
  unfold step_op. destruct (step_pure _ _ _ _ _); [apply seq_lift|].
  unfold step_object, step_array, step_field, step_invoke, step_invoke_range, msetr.
  related Hh.
Qed.
End Parametric.

(** ** The depth counter *)

(** A computation that returns leaves the depth as it found it. *)
Definition keeps_depth {W A} (m : M (DState W) A) : Prop :=
  forall s r s', m s = (Ret r, s') -> depth_ s' = depth_ s.

(** Every callback that returns has undone its own nesting. *)
Definition balanced {W} (h : Host W) : Prop := host_rel (fun A m _ => keeps_depth m) h h.

#[local] Instance keeps_depth_seq W : Sequential (W := W) (fun A m _ => keeps_depth m).
Proof.
  constructor.
  - by intros A o s r s' [= _ <-].
  - intros A B m _ f _ Hm Hf s r s' (a & s1 & E1 & E2)%bind_ret_inv.
    rewrite (Hf _ _ _ _ E2). by eapply Hm.
Qed.

Lemma leave_depth {W} v (s : DState W) r s' :
  leave v s = (r, s') -> r = Ret v /\ depth_ s' = depth_ s - 1.
Proof. by intros [= <- <-]. Qed.

Lemma loop_depth {W} (h : Host W) d n c f s r s' :
  balanced h -> loop h d n c f s = (Ret r, s') -> depth_ s' = depth_ s - 1.
Proof.
  intros Hh. revert f s. induction n as [|n IH]; intros f s; cbn [loop].
  { by intros [_ ?]%leave_depth. }
  destruct (_ <=? _); [by intros [_ ?]%leave_depth|].
  intros (ctl & s1 & E1 & E2)%bind_ret_inv.
  pose proof (step_rel _ _ _ d (insns_off c) f Hh s _ _ E1) as Hd.
  destruct ctl as [f'|v]; [apply IH in E2; lia|apply leave_depth in E2; lia].
Qed.

(** As long as the callbacks that return have left the depth counter as
    they found it, so does [run], on every path on which it returns. *)
Lemma run_keeps_depth {W} (h : Host W) d c args s r s' :
  balanced h -> run h d c args s = (Ret r, s') -> depth_ s' = depth_ s.
Proof.
  intros Hh. unfold run. rewrite bind_get. destruct (_ || _); [by intros [= _ <-]|].
  rewrite bind_modify. intros (R0 & s1 & [= _ <-] & E)%bind_ret_inv.
  apply loop_depth in E; [|done]. simpl in E. lia.
Qed.

(** Agreement of two computations at depth [k] and above, which they do not
    leave downwards. *)
Definition agree {W} (k : Z) A (m m' : M (DState W) A) : Prop :=
  forall s, k <= depth_ s -> m s = m' s /\ k <= depth_ (snd (m s)).

#[local] Instance agree_seq W k : Sequential (W := W) (agree k).
Proof.
  constructor; [done|].
  intros A B m m' f f' Hm Hf s Hs. destruct (Hm s Hs) as [E Hd].
  unfold mbind, M_mbind, M_bind. rewrite <- E.
  destruct (m s) as [[a|e|] s1]; simpl in Hd |- *; [by apply Hf|done|done].
Qed.

Lemma loop_agree {W} (h h' : Host W) k d n c f s :
  host_rel (agree (k + 1)) h h' -> k + 1 <= depth_ s ->
  loop h d n c f s = loop h' d n c f s /\ k <= depth_ (snd (loop h d n c f s)).
Proof.
  intros Hh. revert f s. induction n as [|n IH]; intros f s Hs; cbn [loop].
  { split; [done|]. simpl. lia. }
  destruct (_ <=? _); [split; [done|simpl; lia]|].
  destruct (step_rel _ _ _ d (insns_off c) f Hh s Hs) as [E Hd].
  unfold mbind, M_mbind, M_bind. rewrite <- E.
  destruct (step h d (insns_off c) f s) as [[[f'|v]|e|] s1]; simpl in Hd |- *;
    [by apply IH|split; [done|lia]..].
Qed.

Lemma lift_then {W A B} k (o : outcome A) (f f' : A -> M (DState W) B) s :
  k <= depth_ s -> (forall a, f a s = f' a s /\ k <= depth_ (snd (f a s))) ->
  (lift o ≫= f) s = (lift o ≫= f') s /\ k <= depth_ (snd ((lift o ≫= f) s)).
Proof. intros Hs Hf. destruct o as [a|e|]; [apply Hf|done|done]. Qed.

Section Reentry.
Context {W : Type} (H : (Code -> list Z -> M (DState W) Z) -> Host W) (d : list Z).

(** The host uses the interpreter it is given only by calling it: hosts over
    interpreters that agree from a depth on agree from that depth on. *)
Definition uniform : Prop :=
  forall k g g', (forall c a, agree k _ (g c a) (g' c a)) -> host_rel (agree k) (H g) (H g').

Lemma invoke_at_agree n k c args :
  uniform -> max_depth - k < Z.of_nat n -> (1 <= n)%nat ->
  agree k _ (invoke_at H d n c args) (invoke_at H d (S n) c args).
Proof.
  intros HU. revert k c args. induction n as [|n IH]; intros k c args Hk Hn s Hs; [lia|].
  change (invoke_at H d (S (S n)) c args) with (run (H (invoke_at H d (S n))) d c args).
  cbn [invoke_at]. unfold run. rewrite !bind_get.
  destruct (negb (c_valid c) || (max_depth <=? depth_ s)) eqn:Eb; [by simpl|].
  apply orb_false_iff in Eb as [_ Eb%Z.leb_gt].
  rewrite !bind_modify. set (s1 := mkDState _ _).
  apply lift_then; [simpl; lia|]. intros R0. apply loop_agree; [|simpl; lia].
  apply HU. intros c' a'. apply IH; lia.
Qed.

Lemma invoke_at_fuel n m c args s :
  uniform -> (1 <= n <= m)%nat -> max_depth - depth_ s < Z.of_nat n ->
  invoke_at H d n c args s = invoke_at H d m c args s.
Proof.
  intros HU [Hn Hm] Hd. induction Hm as [|m Hm IH]; [done|]. rewrite IH.
  apply (invoke_at_agree m (depth_ s)); [done|lia|lia|lia].
Qed.

(** C9: nested interpretation is bounded: with a host that only calls the
    interpreter back, [65 - depth_] levels of re-entry are enough for any
    program, and more change nothing: the depth guard cuts every recursion. *)
Theorem invoke_at_enough n m c args s :
  uniform -> (1 <= n <= m)%nat -> max_depth - depth_ s < Z.of_nat n ->
  invoke_at H d n c args s = invoke_at H d m c args s.
Proof. apply invoke_at_fuel. Qed.
End Reentry.

(** A method that calls itself, [invoke-static {}, m], [return]. *)
Definition self_code : list Z := [0x71; 0; 5; 0; 0; 0; 0x0a; 0; 0x0f; 0].
Definition self_item : Code := mkCode 1 0 0 0 5 true.
(** A host that counts the calls it passes on. *)
Definition counting (g : Code -> list Z -> M (DState Z) Z) : Host Z :=
  mkHost (Some (fun _ _ args =>
            modify (fun s => mkDState (depth_ s) (world s + 1));; g self_item args))
    None None None None None None None None None None.

Lemma counting_uniform : uniform counting.
Proof.
  intros k g g' Hg. constructor; try done. simpl. intros _ _ a s Hs.
  rewrite !bind_modify. by apply Hg.
Qed.

Lemma invoke_at_enough_witness :
  invoke_at counting self_code 1000 self_item [] (mkDState 0 0) = (Ret 0, mkDState 0 64).
Proof.
  rewrite <- (invoke_at_enough counting self_code 65 1000 self_item [] (mkDState 0 0)
                counting_uniform ltac:(lia) ltac:(simpl; unfold max_depth; lia)).
  vm_compute. reflexivity.
Defined.

(** A host that answers every call with 7. *)
Definition echo : Host unit :=
  mkHost (Some (fun _ _ _ => mret 7)) None None None None None None None None None None.

Lemma echo_balanced : balanced echo.
Proof. constructor; try done. simpl. by intros k m a s r s' [= _ <-]. Qed.

Lemma run_keeps_depth_witness :
  fst (run echo self_code self_item [] (mkDState 3 tt)) = Ret 7 /\
  depth_ (snd (run echo self_code self_item [] (mkDState 3 tt))) = 3.
Proof.
  assert (fst (run echo self_code self_item [] (mkDState 3 tt)) = Ret 7) as E
    by (vm_compute; reflexivity).
  split; [exact E|].
  refine (run_keeps_depth echo self_code self_item [] (mkDState 3 tt) 7 _ echo_balanced _).
  rewrite <- E. apply surjective_pairing.
Defined.

Lemma max_steps_val : Z.of_nat max_steps = 200000.
Proof. unfold max_steps. by rewrite Z2Nat.id. Qed.

(** There is fuel for any few steps. *)
Lemma max_steps_S n : Z.of_nat n <= 200000 -> exists k, max_steps = (n + k)%nat.
Proof. intros Hn. exists (max_steps - n)%nat. pose proof max_steps_val. lia. Qed.

(** A callback that throws leaves the depth incremented: after 64 of them the
    interpreter refuses to run anything. *)
Definition failing : Host unit :=
  mkHost (Some (fun _ _ _ => throw "no method")) None None None None None None None None None None.

Lemma throw_leaks_depth s :
  depth_ s < max_depth ->
  run failing self_code self_item [] s = (Throw "no method", mkDState (depth_ s + 1) (world s)).
Proof.
  intros Hs. unfold run. rewrite bind_get, (proj2 (Z.leb_gt _ _)) by done.
  destruct (max_steps_S 1) as [k ->]; [lia|]. reflexivity.
Qed.

Lemma depth_exhausted {W} (h : Host W) d c args s :
  max_depth <= depth_ s -> run h d c args s = (Ret 0, s).
Proof.
  intros Hs. unfold run. rewrite bind_get, (proj2 (Z.leb_le _ _)), orb_true_r by done. done.
Qed.

(** ** The interpreter walks what the assembler lays out *)

(** Every result a computation can return satisfies [Q]. *)
Definition ends {St A} (Q : A -> Prop) (m : M St A) : Prop :=
  forall s r s', m s = (Ret r, s') -> Q r.

Lemma ends_bind {St A B} (Q : B -> Prop) (m : M St A) (k : A -> M St B) :
  (forall a, ends Q (k a)) -> ends Q (m ≫= k).
Proof. intros Hk s r s' (a & s1 & _ & E)%bind_ret_inv. by eapply Hk. Qed.

Lemma ends_ret {St A} (Q : A -> Prop) (a : A) : Q a -> ends Q (mret a : M St A).
Proof. by intros Ha s r s' [= <- _]. Qed.

Lemma ends_lift_bind {St A B} (Q : B -> Prop) (o : outcome A) (k : A -> outcome B) :
  (forall a, ends Q (lift (k a) : M St B)) -> ends Q (lift (o ≫= k) : M St B).
Proof. intros Hk s r s'. destruct o as [a|e|]; [apply Hk|done|done]. Qed.

Lemma ends_lift_ret {St A} (Q : A -> Prop) (a : A) : Q a -> ends Q (lift (Ret a) : M St A).
Proof. by intros Ha s r s' [= <- _]. Qed.

(** The next instruction is [n] units further, unless the method ends. *)
Definition advances (f : Frame) (n : Z) (c : Ctl) : Prop :=
  match c with Cont f' => pc f' = u32 (pc f + n) | Stop _ => True end.

Lemma ends_setr {St} f i v n : ends (advances f n) (lift (setr f i v n) : M St Ctl).
Proof. apply ends_lift_bind. intros R'. by apply ends_lift_ret. Qed.

Ltac advance :=
  repeat first
    [ apply ends_setr | apply ends_ret; exact I || reflexivity
    | apply ends_lift_ret; exact I || reflexivity
    | apply ends_lift_bind; intros ? | apply ends_bind; intros ? ].

Definition known_branch (e : string * MdOp) : bool :=
  match branch_operand (op_fmt (snd e)) with Some _ => true | None => false end.

Lemma advance_check {W} (h : Host W) d f iaddr b1 :
  Forall (fun e => known_branch e = false ->
            ends (advances f (md_units (op_fmt (snd e))))
                 (step_op h d f iaddr (op_code (snd e)) b1)) md_ops.
Proof.
  set (ops := md_ops). vm_compute in ops. subst ops.
  repeat apply Forall_cons_2; try apply Forall_nil_2; intros Hb; try discriminate Hb; clear Hb;
    cbn [snd op_code op_fmt];
    cbv [md_units is_one_of existsb String.eqb Ascii.eqb Bool.eqb orb andb step_op step_pure
         step_return step_const step_move step_goto step_if step_unop step_2addr step_binop
         step_lit16 step_lit8 step_object step_array step_field step_invoke step_invoke_range msetr
         in_op Z.leb Z.eqb Z.compare Pos.compare Pos.compare_cont Pos.eqb CompOpp]; advance.
Qed.

(** The interpreter and the assembler agree on instruction lengths: after
    any instruction of the assembler's table that is not a branch, execution
    goes on exactly at the next instruction of the assembler's layout, or the
    method ends. *)
Lemma interpreter_follows_layout {W} (h : Host W) d base f s f' s' e :
  e ∈ md_ops -> branch_operand (op_fmt (snd e)) = None ->
  znth d (u32 (base + u32 (pc f * 2))) = Some (op_code (snd e)) ->
  step h d base f s = (Ret (Cont f'), s') ->
  pc f' = u32 (pc f + md_units (op_fmt (snd e))).
Proof.
  intros He Hb Hop. unfold step. rewrite Hop. simpl or_ub. rewrite bind_lift_ret.
  pose proof (proj1 (List.Forall_forall _ _)
    (advance_check h d f (u32 (base + u32 (pc f * 2)))
       (if u32 (u32 (base + u32 (pc f * 2)) + 1) <? zlen d
        then default 0 (znth d (u32 (u32 (base + u32 (pc f * 2)) + 1))) else 0))
    e (proj1 (list_elem_of_In _ _) He)) as Ha.
  unfold known_branch in Ha. rewrite Hb in Ha. intros E. exact (Ha eq_refl _ _ _ E).
Qed.

(** [const/16 v1, 5] at the start of the code. *)
Lemma interpreter_follows_layout_witness :
  let f := mkFrame [0; 0; 0] 0 0 in
  let f' := mkFrame [0; 5; 0] 2 0 in
  step no_host [0x13; 1; 5; 0; 0; 0] 0 f (mkDState 0 tt) = (Ret (Cont f'), mkDState 0 tt) /\
  pc f' = u32 (0 + md_units "21s").
Proof.
  intros f f'.
  assert (step no_host [0x13; 1; 5; 0; 0; 0] 0 f (mkDState 0 tt) = (Ret (Cont f'), mkDState 0 tt))
    as E by (vm_compute; reflexivity).
  split; [exact E|].
  exact (interpreter_follows_layout no_host [0x13; 1; 5; 0; 0; 0] 0 f _ f' _ ("const/16", mkMdOp 0x13 "21s")
           ltac:(apply alookup_elem; vm_compute; reflexivity) eq_refl eq_refl E).
Defined.

(** [add-double v0, v1, v2] is computed as a bitwise and of the raw slots:
    its block has five float operators, not eleven, before the double ones. *)
Example add_double_is_and :
  fst (step no_host [0xab; 0; 1; 2] 0 (mkFrame [0; 6; 3] 0 0) (mkDState 0 tt))
  = Ret (Cont (mkFrame [Z.land 6 3; 6; 3] 2 0)).
Proof. vm_compute. reflexivity. Qed.

(** [add-int] does not wrap at 32 bits: 0x7fffffff + 1 stays positive. *)
Example add_int_not_32 :
  fst (step no_host [0x90; 0; 1; 2] 0 (mkFrame [0; 0x7fffffff; 1] 0 0) (mkDState 0 tt))
  = Ret (Cont (mkFrame [0x80000000; 0x7fffffff; 1] 2 0)).
Proof. vm_compute. reflexivity. Qed.

(** A 35c argument count above five reads past [rv]. *)
Example invoke_six_ub :
  fst (step no_host [0x6e; 0x60; 0; 0; 0; 0] 0 (mkFrame [0; 0] 0 0) (mkDState 0 tt)) = UB.
Proof. vm_compute. reflexivity. Qed.

(** A register above the frame is an access outside the vector. *)
Example move_outside_ub :
  fst (step no_host [0x01; 0x21] 0 (mkFrame [0; 0] 0 0) (mkDState 0 tt)) = UB.
Proof. vm_compute. reflexivity. Qed.
