(* ===== verification/Exec.v ===== *)
(** Rebuilt methods, interpreted: what the devirtualizer emits, the assembler
    encodes and the rebuilder stores ([include/vardoger/dex/devirt_rebuild.hpp],
    [rebuilder.hpp]) means to the interpreter ([core/dex/dalvik.cpp]) what it
    was emitted for.  Theorems across components only. *)

From S2P Require Import Prelude.
From S2P Require Import Words.
From S2P Require Import DexFile.
From S2P Require Rebuilder.
From S2P Require Import DalvikOps.
From S2P Require Import Devirt.
From S2P Require Import Dalvik.

(** ** Reading an encoded instruction *)

(** [code] is at offset [o] of [d], below the 32-bit limit of the offsets. *)
Definition code_here (d : list Z) (o : Z) (code : list Z) : Prop :=
  slice d o (length code) = Some code /\ o + zlen code < 2 ^ 32.

Lemma code_here_nth d o code i b :
  code_here d o code -> code !! i = Some b -> znth d (o + Z.of_nat i) = Some b.
Proof.
  intros [(H0 & H1 & E)%slice_Some _] Hi. unfold znth.
  rewrite (proj2 (Z.leb_le _ _)) by lia. rewrite E in Hi.
  apply lookup_take_Some in Hi as [Hi _]. rewrite lookup_drop in Hi. rewrite <- Hi. f_equal. lia.
Qed.

Lemma code_here_app d o l1 l2 :
  code_here d o (l1 ++ l2) -> code_here d o l1 /\ code_here d (o + zlen l1) l2.
Proof.
  intros [(H0 & H1 & E)%slice_Some H2]. rewrite length_app in E, H1. rewrite zlen_app in H2.
  unfold zlen in *. split; (split; [|unfold zlen; lia]).
  - rewrite slice_ok by (unfold zlen; lia). f_equal.
    transitivity (take (length l1) (l1 ++ l2)); [|apply take_app_length].
    rewrite E, take_take. f_equal. lia.
  - rewrite slice_ok by (unfold zlen; lia). f_equal.
    transitivity (drop (length l1) (l1 ++ l2)); [|apply drop_app_length].
    rewrite E, skipn_firstn_comm, drop_drop. f_equal; [lia|f_equal; lia].
Qed.

Lemma dvk_rd_here d o l n :
  code_here d o l -> n = length l -> dvk_rd n d o = Ret (le_val l).
Proof.
  intros [E Hw] ->. unfold dvk_rd. rewrite E. pose proof (slice_Some _ _ _ _ E) as (?&?&_).
  unfold zlen in *. rewrite u32_id by lia. by rewrite (proj2 (Z.leb_le _ _)) by lia.
Qed.

(** The instruction at [pc] of code that starts at [base]. *)
Lemma step_here {W} (h : Host W) d base f s op b1 rest :
  0 <= base -> 0 <= pc f -> code_here d (base + 2 * pc f) (op :: b1 :: rest) ->
  step h d base f s = step_op h d f (base + 2 * pc f) op b1 s.
Proof.
  intros Hb Hp Hc. pose proof (code_here_nth _ _ _ 0%nat _ Hc eq_refl) as H0.
  pose proof (code_here_nth _ _ _ 1%nat _ Hc eq_refl) as H1.
  destruct Hc as [(?&?&_)%slice_Some Hw]. unfold zlen in *. simpl length in *.
  change (Z.of_nat 0) with 0 in H0. change (Z.of_nat 1) with 1 in H1. rewrite Z.add_0_r in H0.
  unfold step. rewrite (u32_id (pc f * 2)) by lia.
  replace (base + pc f * 2) with (base + 2 * pc f) by lia. rewrite !u32_id by lia.
  rewrite H0. simpl or_ub. rewrite bind_lift_ret. unfold zlen.
  rewrite (proj2 (Z.ltb_lt _ _)) by lia. by rewrite H1.
Qed.

(** ** First words *)

Lemma op_word_bytes hi op :
  0 <= op < 256 -> 0 <= hi -> put_u16 (Z.lor (Z.shiftl hi 8) op) = [op; u8 hi].
Proof.
  intros Ho Hh. rewrite lor_add_shift by lia. unfold put_u16, u16.
  change 16 with (8 * Z.of_nat 2). rewrite le_bytes_mod. cbn [le_bytes]. unfold u8.
  change (2 ^ 8) with 256.
  rewrite Z.div_add_l, (Z.div_small op), Z.add_0_r by lia.
  by rewrite Z.add_comm, Z.mod_add, Z.mod_small by lia.
Qed.

Lemma nib_pair a b op :
  0 <= op < 256 ->
  put_u16 (Z.lor (Z.lor (Z.shiftl (nib b) 12) (Z.shiftl (nib a) 8)) op)
  = [op; nib b * 16 + nib a].
Proof.
  intros Ho. assert (0 <= nib a < 16) as Ha by (unfold nib; rewrite land_15; apply Z.mod_pos_bound; lia).
  assert (0 <= nib b < 16) as Hb by (unfold nib; rewrite land_15; apply Z.mod_pos_bound; lia).
  replace (Z.shiftl (nib b) 12) with (Z.shiftl (Z.shiftl (nib b) 4) 8)
    by (rewrite Z.shiftl_shiftl by lia; done).
  rewrite <- Z.shiftl_lor, (lor_add_shift (nib b) (nib a) 4) by lia.
  rewrite op_word_bytes by lia. do 2 f_equal. apply u8_id. lia.
Qed.

Lemma pair_low a b : 0 <= a < 16 -> Z.land (b * 16 + a) 0xf = a.
Proof. intros Ha. rewrite land_15, Z.add_comm, Z.mod_add by lia. by apply Z.mod_small. Qed.
Lemma pair_high a b : 0 <= a < 16 -> Z.shiftr (b * 16 + a) 4 = b.
Proof. intros Ha. rewrite Z.shiftr_div_pow2 by lia. change (2 ^ 4) with 16. rewrite Z.div_add_l, Z.div_small by lia. lia. Qed.
Lemma nib_reg r : is_reg r -> nib r = r.
Proof. intros Hr. unfold nib. rewrite land_15. by apply Z.mod_small. Qed.

(** The two bytes of a 16-bit operand, the four of a 32-bit one. *)
Lemma put_u16_val v : le_val (put_u16 v) = u16 v.
Proof. unfold put_u16, u16. rewrite le_val_bytes. apply Zmod_mod. Qed.
Lemma put_i32_val v : le_val (put_i32 v) = u32 v.
Proof. unfold put_i32, u32. rewrite le_val_bytes. apply Zmod_mod. Qed.
Lemma s16_u16 v : - 2 ^ 15 <= v < 2 ^ 15 -> s16 (u16 v) = v.
Proof. intros Hv. unfold s16, u16. rewrite sext_mod. by apply sext_id. Qed.
Lemma s32_u32 v : - 2 ^ 31 <= v < 2 ^ 31 -> s32 (u32 v) = v.
Proof. intros Hv. unfold s32, u32. rewrite sext_mod. by apply sext_id. Qed.

Lemma setr_ok f i v n :
  0 <= i < zlen (R f) ->
  setr f i v n = Ret (Cont (mkFrame (<[Z.to_nat i := v]> (R f)) (u32 (pc f + n)) (ret f))).
Proof.
  intros Hi. unfold setr, wreg. by rewrite (proj2 (Z.leb_le _ _)), (proj2 (Z.ltb_lt _ _)) by lia.
Qed.

Lemma rreg_ok R i x : 0 <= i -> R !! Z.to_nat i = Some x -> rreg R i = Ret x.
Proof. intros Hi E. unfold rreg, znth. by rewrite (proj2 (Z.leb_le _ _)), E by lia. Qed.

Lemma const4_sign L : -8 <= L <= 7 -> Z.shiftr (s8 (Z.shiftl (nib L) 4)) 4 = L.
Proof.
  intros HL. assert (L ∈ seqZ (-8) 16) as Hin by (apply elem_of_seqZ; lia).
  revert Hin. clear HL. revert L. apply Forall_forall. vm_compute. by repeat constructor.
Qed.

(** An operand behind the first word. *)
Lemma second_word d o l w rest :
  code_here d o (l ++ put_u16 w ++ rest) -> dvk_rd 2 d (o + zlen l) = Ret (u16 w).
Proof.
  intros [_ [Hc _]%code_here_app]%code_here_app. rewrite (dvk_rd_here _ _ _ _ Hc) by done.
  by rewrite put_u16_val.
Qed.

Lemma code_here_bound d o l : code_here d o l -> 0 <= o /\ o + zlen l < 2 ^ 32.
Proof. intros [(?&?&_)%slice_Some ?]. done. Qed.

(** The operand right behind the first word, at the address the step computes. *)
Lemma next_word d o op b1 v rest :
  code_here d o ([op; b1] ++ put_u16 v ++ rest) -> dvk_rd 2 d (u32 (o + 2)) = Ret (u16 v).
Proof.
  intros Hc. pose proof (code_here_bound _ _ _ Hc) as [? Hbd].
  rewrite zlen_app in Hbd. change (zlen [_; _]) with 2 in Hbd.
  pose proof (zlen_nonneg (put_u16 v ++ rest)).
  rewrite u32_id by lia. apply (second_word d o [op; b1] v rest Hc).
Qed.

Lemma next_word_last d o op b1 v :
  code_here d o ([op; b1] ++ put_u16 v) -> dvk_rd 2 d (u32 (o + 2)) = Ret (u16 v).
Proof. intros Hc. apply (next_word d o op b1 v []). by rewrite app_nil_r. Qed.

Ltac step_encoded Hb Hp Hc :=
  intros Hc; rewrite (step_here _ _ _ _ _ _ _ _ Hb Hp Hc); unfold step_op; cbn -[u32].

(** The [const] the devirtualizer picks for a 32-bit literal, encoded and
    interpreted, puts exactly that literal, sign-extended, into its register
    and goes on behind the instruction, whichever of the three forms it is. *)
Lemma const_executes {W} (h : Host W) d base f s r L cur :
  is_reg r -> r < zlen (R f) -> - 2 ^ 31 <= L < 2 ^ 31 -> 0 <= base -> 0 <= pc f ->
  code_here d (base + 2 * pc f) (md_encode (const_to_dalvik r L) cur) ->
  step h d base f s =
  (Ret (Cont (mkFrame (<[Z.to_nat r := u64 L]> (R f))
                      (u32 (pc f + instr_units (const_to_dalvik r L))) (ret f))), s).
Proof.
  intros Hr Hlen HL Hb Hp. unfold is_reg in Hr. unfold const_to_dalvik.
  destruct ((-8 <=? L) && (L <=? 7)) eqn:E4; [|destruct ((-32768 <=? L) && (L <=? 32767)) eqn:E16].
  - bool_to_Prop. change (md_encode _ cur)
      with (put_u16 (Z.lor (Z.lor (Z.shiftl (nib L) 12) (Z.shiftl (nib r) 8)) 0x12)).
    rewrite nib_pair, (nib_reg r) by (done || lia). step_encoded Hb Hp Hc.
    rewrite pair_low, pair_high, const4_sign by (done || lia). by rewrite setr_ok by (simpl; lia).
  - bool_to_Prop. change (md_encode _ cur) with (put_u16 (Z.lor (Z.shiftl r 8) 0x13) ++ put_s16 L).
    rewrite op_word_bytes, u8_id by lia. step_encoded Hb Hp Hc.
    rewrite (next_word_last _ _ _ _ _ Hc). cbn -[u32].
    rewrite s16_u16 by lia. by rewrite setr_ok by (simpl; lia).
  - bool_to_Prop. change (md_encode _ cur) with (put_u16 (Z.lor (Z.shiftl r 8) 0x14) ++ put_i32 L).
    rewrite op_word_bytes, u8_id by lia. step_encoded Hb Hp Hc.
    pose proof (code_here_bound _ _ _ Hc) as Hbd. rewrite zlen_app in Hbd.
    pose proof (zlen_nonneg (put_i32 L)).
    rewrite u32_id by (unfold zlen in *; simpl in Hbd; lia).
    rewrite (dvk_rd_here d _ (put_i32 L)) by (done || by apply (code_here_app _ _ [0x14; r])).
    rewrite put_i32_val. cbn. rewrite s32_u32 by lia. by rewrite setr_ok by (simpl; lia).
Qed.

(** [const v9, 0x12345678] behind a two-byte nop. *)
Lemma const_executes_witness :
  let d := [0; 0] ++ md_encode (const_to_dalvik 9 0x12345678) 1 in
  let f := mkFrame (replicate 16 0) 1 7 in
  length d = 8%nat /\
  step no_host d 0 f (mkDState 1 tt) =
  (Ret (Cont (mkFrame (<[9%nat := 0x12345678]> (replicate 16 0)) 4 7)), mkDState 1 tt).
Proof.
  intros d f. split; [reflexivity|].
  exact (const_executes no_host d 0 f (mkDState 1 tt) 9 0x12345678 1
           ltac:(split; done) ltac:(done) ltac:(done) ltac:(done) ltac:(done)
           ltac:(split; [vm_compute; reflexivity|done])).
Defined.

(** ** Calls *)

Lemma nib_range x : 0 <= nib x < 16.
Proof. unfold nib. rewrite land_15. by apply Z.mod_pos_bound. Qed.

Lemma four_nibbles a b c e :
  Z.lor (Z.lor (Z.lor (Z.shiftl (nib a) 12) (Z.shiftl (nib b) 8)) (Z.shiftl (nib c) 4)) (nib e)
  = nib a * 4096 + nib b * 256 + nib c * 16 + nib e.
Proof.
  pose proof (nib_range a). pose proof (nib_range b). pose proof (nib_range c). pose proof (nib_range e).
  replace (Z.shiftl (nib a) 12) with (Z.shiftl (Z.shiftl (Z.shiftl (nib a) 4) 4) 4)
    by (rewrite !Z.shiftl_shiftl by lia; done).
  replace (Z.shiftl (nib b) 8) with (Z.shiftl (Z.shiftl (nib b) 4) 4)
    by (rewrite !Z.shiftl_shiftl by lia; done).
  rewrite <- !Z.shiftl_lor, !lor_add_shift by lia. lia.
Qed.


(** The nibbles of the argument word, and [G]. *)
Lemma rv35_eq a b c e g n :
  rv35 (u16 (nib a * 4096 + nib b * 256 + nib c * 16 + nib e)) (n * 16 + nib g)
  = [nib e; nib c; nib b; nib a; nib g].
Proof.
  pose proof (nib_range a). pose proof (nib_range b). pose proof (nib_range c). pose proof (nib_range e).
  rewrite u16_id by lia. unfold rv35. rewrite pair_low by apply nib_range.
  rewrite !land_15, !Z.shiftr_div_pow2 by lia.
  change (2 ^ 4) with 16. change (2 ^ 8) with 256. change (2 ^ 12) with 4096.
  repeat f_equal; Z.div_mod_to_equations; lia.
Qed.

Lemma gather_ok R regs args pad :
  Forall2 (fun r v => is_reg r /\ R !! Z.to_nat r = Some v) regs args ->
  gather R (regs ++ pad) (length regs) = Ret args.
Proof.
  induction 1 as [|r v regs args [Hr E] _ IH]; [done|]. cbn [length gather app].
  unfold is_reg in Hr. rewrite (rreg_ok _ _ v) by (done || lia). simpl. by rewrite IH.
Qed.

(** The five argument slots are the registers, padded. *)
Lemma rv_regs rs :
  (length rs <= 5)%nat -> Forall is_reg rs ->
  exists pad, (fun i => nib (nth i rs 0)) <$> seq 0 5 = rs ++ pad.
Proof.
  intros Hl Hr. exists (replicate (5 - length rs) 0).
  apply list_eq. intros i. rewrite list_lookup_fmap.
  destruct (decide (i < 5)%nat) as [Hi|Hi].
  - rewrite lookup_seq_lt by lia. simpl. rewrite nth_lookup.
    destruct (decide (i < length rs)%nat) as [Hlt|Hge].
    + rewrite lookup_app_l by done. destruct (lookup_lt_is_Some_2 rs i Hlt) as [x E].
      rewrite E. simpl. f_equal. apply nib_reg. by eapply Forall_lookup in Hr.
    + rewrite (lookup_ge_None_2 rs i) by lia. rewrite lookup_app_r by lia.
      by rewrite lookup_replicate_2 by lia.
  - rewrite lookup_seq_ge by lia. simpl. symmetry. apply lookup_ge_None_2.
    rewrite length_app, length_replicate. lia.
Qed.

(** An assembled invoke-virtual of at most five registers calls the host
    with exactly the method index and the contents of those registers, in
    order; its result is the next move-result's. *)
Lemma invoke_executes {W} (h : Host W) g d base f s regs p args cur :
  on_invoke h = Some g -> (length regs <= 5)%nat -> 0 <= p < 65536 ->
  Forall2 (fun r v => is_reg r /\ R f !! Z.to_nat r = Some v) regs args ->
  0 <= base -> 0 <= pc f ->
  code_here d (base + 2 * pc f) (md_encode (mkDalvikInstr "invoke-virtual" [0; p] regs) cur) ->
  step h d base f s = (v ← g Virtual p args; mret (invoked f v)) s.
Proof.
  intros Hg Hl Hp Ha Hb Hpc.
  assert (Forall is_reg regs) as Hr.
  { apply Forall_lookup. intros i r E. by destruct (Forall2_lookup_l _ _ _ _ _ Ha E) as (v & _ & [? _]). }
  destruct (rv_regs regs Hl Hr) as [pad Hpad]. simpl in Hpad.
  set (rr i := nib (nth i regs 0)) in *.
  change (md_encode _ cur) with
    (put_u16 (Z.lor (Z.lor (Z.shiftl (zlen regs) 12) (Z.shiftl (rr 4%nat) 8)) 0x6e) ++ put_u16 p
     ++ put_u16 (Z.lor (Z.lor (Z.lor (Z.shiftl (rr 3%nat) 12) (Z.shiftl (rr 2%nat) 8))
                              (Z.shiftl (rr 1%nat) 4)) (rr 0%nat))).
  unfold rr. rewrite four_nibbles.
  assert (is_reg (zlen regs)) as Hn by (unfold is_reg, zlen; lia).
  rewrite <- (nib_reg _ Hn), nib_pair, nib_reg by (done || lia). intros Hc.
  rewrite (step_here _ _ _ _ _ _ _ _ Hb Hpc Hc). unfold step_op. cbn -[u32].
  pose proof (code_here_bound _ _ _ Hc) as [_ Hbd]. rewrite !zlen_app in Hbd.
  change (zlen [_; _]) with 2 in Hbd. change (zlen (put_u16 _)) with 2 in Hbd.
  unfold step_invoke.
  rewrite (next_word _ _ _ _ _ _ Hc), bind_lift_ret.
  assert (code_here d (base + 2 * pc f) (([110; zlen regs * 16 + nib (nth 4 regs 0)] ++ put_u16 p)
    ++ put_u16 (nib (nth 3 regs 0) * 4096 + nib (nth 2 regs 0) * 256
                + nib (nth 1 regs 0) * 16 + nib (nth 0 regs 0)) ++ [])) as Hc'
    by by rewrite app_nil_r, <- app_assoc.
  rewrite (u32_id (base + 2 * pc f + 4)) by lia.
  replace (base + 2 * pc f + 4) with (base + 2 * pc f + zlen ([110; zlen regs * 16 + nib (nth 4 regs 0)] ++ put_u16 p))
    by (rewrite zlen_app; change (zlen [_; _]) with 2; change (zlen (put_u16 _)) with 2; lia).
  rewrite (second_word d _ _ _ _ Hc'), bind_lift_ret, rv35_eq, Hpad, pair_high by apply nib_range.
  rewrite zlen_to_nat, (gather_ok _ _ _ _ Ha), bind_lift_ret, Hg.
  rewrite u16_id by done. done.
Qed.

(** [invoke-virtual {v3, v1}, method 7] on a host that adds its arguments. *)
Lemma invoke_executes_witness :
  let g := fun (_ : InvokeKind) m args => mret (m + fold_right Z.add 0 args) : M (DState unit) Z in
  let h := mkHost (Some g) None None None None None None None None None None in
  let d := md_encode (mkDalvikInstr "invoke-virtual" [0; 7] [3; 1]) 0 in
  let f := mkFrame [10; 20; 30; 40] 0 0 in
  step h d 0 f (mkDState 1 tt) = (Ret (Cont (mkFrame [10; 20; 30; 40] 3 67)), mkDState 1 tt).
Proof.
  intros g h d f.
  exact (invoke_executes h g d 0 f (mkDState 1 tt) [3; 1] 7 [40; 20] 0
           eq_refl ltac:(simpl; lia) ltac:(done)
           ltac:(repeat constructor; done) ltac:(done) ltac:(done)
           ltac:(split; [vm_compute; reflexivity|done])).
Defined.

(** ** Branches *)

(** The jumps the devirtualizer emits: instruction, whether it is taken, its
    target unit and the width of its displacement. *)
Inductive jump_instr (R : list Z) : DalvikInstr -> bool -> Z -> Z -> Prop :=
| j_eq a b t x y :
    is_reg a -> is_reg b -> R !! Z.to_nat a = Some x -> R !! Z.to_nat b = Some y ->
    jump_instr R (some_instr "if-eq" [a; b; t]) (s64 x =? s64 y) t 16
| j_eqz a t x :
    is_reg a -> R !! Z.to_nat a = Some x ->
    jump_instr R (some_instr "if-eqz" [a; t]) (s64 x =? 0) t 16
| j_goto t : jump_instr R (some_instr "goto" [t]) true t 8.

Lemma u32_target t p : 0 <= t < 2 ^ 32 -> u32 (p + (t - p)) = t.
Proof. intros. replace (p + (t - p)) with t by lia. by apply u32_id. Qed.

Lemma s8_land v : - 2 ^ 7 <= v < 2 ^ 7 -> s8 (u8 (Z.land v 0xff)) = v.
Proof.
  intros Hv. unfold s8, u8. rewrite sext_mod, land_255. change 256 with (2 ^ 8).
  rewrite sext_mod. by apply sext_id.
Qed.

(** The displacement of a two-unit jump, taken or not. *)
Lemma jump_back f t (b : bool) :
  - 2 ^ 15 <= t - pc f < 2 ^ 15 -> t <> pc f -> 0 <= t < 2 ^ 32 ->
  jump f (if b then if s16 (u16 (t - pc f)) =? 0 then 2 else s16 (u16 (t - pc f)) else 2)
  = Cont (mkFrame (R f) (if b then t else u32 (pc f + 2)) (ret f)).
Proof.
  intros Hd Hne Ht. rewrite s16_u16 by done. rewrite (proj2 (Z.eqb_neq _ _)) by lia.
  unfold jump. destruct b; [|done]. by rewrite u32_target.
Qed.

(** C21: an assembled jump to unit [t], within the reach of its form and not
    to itself, takes the interpreter to [t] when its test holds and behind
    the instruction otherwise, registers untouched. *)
Theorem branch_executes {W} (h : Host W) d base f s ins taken t w :
  jump_instr (R f) ins taken t w -> 0 <= base -> 0 <= pc f -> 0 <= t < 2 ^ 32 ->
  - 2 ^ (w - 1) <= t - pc f < 2 ^ (w - 1) -> t <> pc f ->
  code_here d (base + 2 * pc f) (md_encode ins (pc f)) ->
  step h d base f s =
  (Ret (Cont (mkFrame (R f) (if taken then t else u32 (pc f + instr_units ins)) (ret f))), s).
Proof.
  intros Hj Hb Hp Ht Hd Hne. destruct Hj as [a b t x y Ha Hb' Ex Ey|a t x Ha Ex|t].
  - change (md_encode _ _) with (put_u16 (Z.lor (Z.lor (Z.shiftl (nib b) 12) (Z.shiftl (nib a) 8)) 0x32)
                                 ++ put_s16 (t - pc f)).
    rewrite nib_pair, !nib_reg by (done || lia). step_encoded Hb Hp Hc.
    unfold step_if. rewrite (next_word_last _ _ _ _ _ Hc). cbn -[u32].
    rewrite pair_low, pair_high by done. unfold is_reg in *.
    rewrite (rreg_ok _ a x), (rreg_ok _ b y) by (done || lia). cbn -[u32]. by rewrite jump_back.
  - change (md_encode _ _) with (put_u16 (Z.lor (Z.shiftl a 8) 0x38) ++ put_s16 (t - pc f)).
    unfold is_reg in *. rewrite op_word_bytes, u8_id by lia. step_encoded Hb Hp Hc.
    unfold step_if. rewrite (next_word_last _ _ _ _ _ Hc). cbn -[u32].
    rewrite (rreg_ok _ a x) by (done || lia). cbn -[u32]. by rewrite jump_back.
  - change (md_encode _ _) with (put_u16 (Z.lor (Z.shiftl (Z.land (t - pc f) 0xff) 8) 0x28)).
    rewrite op_word_bytes by (lia || (apply Z.land_nonneg; lia)). step_encoded Hb Hp Hc.
    rewrite s8_land by done. rewrite (proj2 (Z.eqb_neq _ _)) by lia.
    unfold jump. by rewrite u32_target.
Qed.

(** [if-eqz v2] two units back, taken. *)
Lemma branch_executes_witness :
  let d := [0; 0; 0; 0] ++ md_encode (some_instr "if-eqz" [2; 0]) 2 in
  let f := mkFrame [5; 5; 0] 2 0 in
  step no_host d 0 f (mkDState 1 tt) = (Ret (Cont (mkFrame [5; 5; 0] 0 0)), mkDState 1 tt).
Proof.
  intros d f.
  exact (branch_executes no_host d 0 f (mkDState 1 tt) (some_instr "if-eqz" [2; 0]) true 0 16
           (j_eqz [5; 5; 0] 2 0 0 ltac:(split; done) eq_refl)
           ltac:(done) ltac:(done) ltac:(done) ltac:(done) ltac:(done)
           ltac:(split; [vm_compute; reflexivity|done])).
Defined.

(** ** Code items *)

Definition insn_bytes (insns : list Z) : list Z :=
  List.flat_map (fun u => [Z.land u 0xff; Z.shiftr u 8]) insns.

Lemma zlen_insn_bytes insns : zlen (insn_bytes insns) = 2 * zlen insns.
Proof. unfold zlen. induction insns as [|u l IH]; simpl in *; lia. Qed.

Lemma zlen_le_bytes n v : zlen (le_bytes n v) = Z.of_nat n.
Proof. unfold zlen. by rewrite length_le_bytes. Qed.

(** A field of a record laid out in bytes. *)
Lemma field_here d o n v rest :
  code_here d o (le_bytes n v ++ rest) ->
  slice d o n = Some (le_bytes n v) /\ code_here d (o + Z.of_nat n) rest.
Proof.
  intros [[S _] Hc]%code_here_app. rewrite length_le_bytes in S. rewrite zlen_le_bytes in Hc. done.
Qed.

(** A code item the rebuilder writes, at [off] in a file, is what the reader
    gives back. *)
Lemma code_at_item x off rs ins outs insns :
  0 < off -> Forall (fun v => 0 <= v < 65536) [rs; ins; outs] -> zlen insns < 2 ^ 31 ->
  code_here (d_ x) off (Rebuilder.make_code_item rs ins outs insns) ->
  code_at x off = Ret (mkCode rs ins outs (off + 16) (zlen insns) true) /\
  code_here (d_ x) (off + 16) (insn_bytes insns).
Proof.
  intros Ho Hw Hn Hc. rewrite !Forall_cons in Hw. destruct Hw as (H1 & H2 & H3 & _).
  pose proof (zlen_insn_bytes insns) as Hl. pose proof (zlen_nonneg insns) as Hp.
  pose proof (code_here_bound _ _ _ Hc) as [_ Hbd].
  unfold Rebuilder.make_code_item in *. fold (insn_bytes insns) in *.
  rewrite !zlen_app, !zlen_le_bytes, Hl in Hbd.
  apply field_here in Hc as [S1 Hc]. apply field_here in Hc as [S2 Hc].
  apply field_here in Hc as [S3 Hc]. apply field_here in Hc as [_ Hc].
  apply field_here in Hc as [_ Hc]. apply field_here in Hc as [S4 Hc].
  replace (off + _ + _ + _ + _ + _ + _) with (off + 16) in Hc by lia.
  pose proof (slice_Some _ _ _ _ (proj1 Hc)) as (_ & Hend & _). fold (zlen (insn_bytes insns)) in Hend.
  rewrite Hl in Hend. split; [|done]. unfold code_at. rewrite u32_id by lia.
  rewrite (proj2 (Z.eqb_neq _ _)), (proj2 (Z.ltb_ge _ _)) by lia. simpl orb. cbv iota.
  rewrite S1. replace (off + 2) with (off + Z.of_nat 2) by lia. rewrite S2.
  replace (off + 4) with (off + Z.of_nat 2 + Z.of_nat 2) by lia. rewrite S3.
  replace (off + 12) with (off + Z.of_nat 2 + Z.of_nat 2 + Z.of_nat 2 + Z.of_nat 2 + Z.of_nat 4) by lia.
  rewrite S4. cbn [mbind outcome_mbind outcome_bind or_ub]. rewrite !le_val_bytes.
  change (8 * Z.of_nat 2) with 16. change (8 * Z.of_nat 4) with 32.
  rewrite u32_id by lia. rewrite !Z.mod_small by lia. rewrite (proj2 (Z.leb_le _ _)) by lia. done.
Qed.

(** ** Minimal bodies *)

Lemma place_ok R base i ins args :
  0 <= i -> 0 <= base -> base + ins <= zlen R -> zlen R < 2 ^ 64 ->
  exists R', place R base i ins args = Ret R' /\ length R' = length R.
Proof.
  intros Hi Hb HR Hlt. revert R i Hi HR Hlt.
  induction args as [|a args IH]; intros R i Hi HR Hlt; simpl; [by exists R|].
  destruct (Z.ltb_spec i ins); [|by exists R].
  unfold wreg. rewrite u64_id by lia. rewrite (proj2 (Z.leb_le _ _)), (proj2 (Z.ltb_lt _ _)) by lia.
  simpl. assert (zlen (<[Z.to_nat (base + i) := a]> R) = zlen R) as El
    by (unfold zlen; by rewrite length_insert).
  destruct (IH (<[Z.to_nat (base + i) := a]> R) (i + 1)) as (R' & E & HL); [lia..|].
  exists R'. by rewrite E, HL, length_insert.
Qed.

Lemma loop_cont {W} (h : Host W) d k c f f' s :
  pc f < insns_size c -> step h d (insns_off c) f s = (Ret (Cont f'), s) ->
  loop h d (S k) c f s = loop h d k c f' s.
Proof.
  intros Hp E. cbn [loop]. rewrite (proj2 (Z.leb_gt _ _)) by done. by rewrite (bind_run _ _ _ _ _ E).
Qed.

Lemma loop_stop {W} (h : Host W) d k c f v s :
  pc f < insns_size c -> step h d (insns_off c) f s = (Ret (Stop v), s) ->
  loop h d (S k) c f s = leave v s.
Proof.
  intros Hp E. cbn [loop]. rewrite (proj2 (Z.leb_gt _ _)) by done. by rewrite (bind_run _ _ _ _ _ E).
Qed.

(** What a run does once the arguments are placed. *)
Lemma run_enter {W} (h : Host W) d c args s :
  c_valid c = true -> depth_ s < max_depth -> 0 < registers_size c < 65536 ->
  0 <= ins_size c <= registers_size c ->
  exists R0, zlen R0 = registers_size c /\
    run h d c args s = loop h d max_steps c (mkFrame R0 0 0) (mkDState (depth_ s + 1) (world s)).
Proof.
  intros Hv Hd Hr Hi. set (R := replicate (Z.to_nat (registers_size c)) 0).
  assert (zlen R = registers_size c) as HR by (unfold zlen, R; rewrite length_replicate; lia).
  destruct (place_ok R (registers_size c - ins_size c) 0 (ins_size c) args) as (R0 & E & HL); [lia..|].
  exists R0. split; [unfold zlen in *; lia|].
  unfold run. rewrite bind_get, Hv, (proj2 (Z.leb_gt _ _)) by done. cbn [negb orb].
  rewrite bind_modify. rewrite (proj2 (Z.eqb_neq _ _)) by lia. fold R. by rewrite E, bind_lift_ret.
Qed.

Lemma rreg_insert R v : 0 < zlen R -> rreg (<[0%nat := v]> R) 0 = Ret v.
Proof.
  intros Hl. apply rreg_ok; [done|]. apply list_lookup_insert_eq. unfold zlen in Hl. lia.
Qed.

(** The minimal bodies that clear v0 and return it. *)
Lemma clear_then_return {W} (h : Host W) d c R0 n op2 code s :
  code_here d (insns_off c) code -> 0 <= insns_off c -> insns_size c = n + 1 -> 0 < zlen R0 ->
  (n = 1 /\ code = [0x12; 0; op2; 0]) \/ (n = 2 /\ code = [0x16; 0; 0; 0; op2; 0]) ->
  op2 = 0x0f \/ op2 = 0x10 \/ op2 = 0x11 ->
  loop h d max_steps c (mkFrame R0 0 0) s = leave 0 s.
Proof.
  intros Hc Hb Hn HR Hcode Hop. destruct (max_steps_S 2 ltac:(lia)) as [k ->]. cbn [Nat.add].
  set (f1 := mkFrame (<[0%nat := 0]> R0) n 0).
  rewrite (loop_cont _ _ _ _ _ f1); [|simpl; lia|].
  - apply loop_stop; [simpl; lia|].
    assert (code_here d (insns_off c + 2 * pc f1) [op2; 0]) as Hc2.
    { destruct Hcode as [[-> ->]|[-> ->]].
      - by apply (code_here_app d (insns_off c) [0x12; 0] [op2; 0]).
      - by apply (code_here_app d (insns_off c) [0x16; 0; 0; 0] [op2; 0]). }
    assert (0 <= pc f1) as Hpc by (simpl; lia).
    rewrite (step_here _ _ _ _ _ _ _ _ Hb Hpc Hc2). unfold step_op.
    destruct Hop as [->|[->| ->]]; cbn; by rewrite rreg_insert.
  - destruct Hcode as [[-> ->]|[-> ->]]; rewrite <- (Z.add_0_r (insns_off c)) in Hc.
    + rewrite (step_here _ _ _ (mkFrame R0 0 0) _ _ _ _ Hb ltac:(done) Hc). unfold step_op. cbn -[u32].
      change (Z.land 0 15) with 0. by rewrite setr_ok by (simpl; lia).
    + rewrite (step_here _ _ _ (mkFrame R0 0 0) _ _ _ _ Hb ltac:(done) Hc). unfold step_op. cbn -[u32].
      change (2 * 0) with 0. rewrite (next_word _ _ _ _ 0 [op2; 0] Hc). cbn -[u32]. by rewrite setr_ok by (simpl; lia).
Qed.

Lemma minimal_body_cases r ins :
  minimal_body r ins = (Z.max ins 1, [0x0e]) \/
  minimal_body r ins = (Z.max ins 2, [0x16; 0; 0x10]) \/
  exists op, (op = 0x0f \/ op = 0x10 \/ op = 0x11) /\ minimal_body r ins = (Z.max ins 1, [0x12; op]).
Proof.
  unfold minimal_body. destruct (String.eqb r "V"); [by left|].
  destruct (_ || _); [by right; left|]. do 2 right.
  destruct r as [|c r]; [exists 0x0f; tauto|].
  destruct (_ || _); [exists 0x11|exists 0x0f]; tauto.
Qed.

(** A body of one [return-void]. *)
Lemma return_void_runs {W} (h : Host W) d c R0 s :
  code_here d (insns_off c) [0x0e; 0] -> 0 <= insns_off c -> insns_size c = 1 ->
  loop h d max_steps c (mkFrame R0 0 0) s = leave 0 s.
Proof.
  intros Hc Hb Hn. destruct (max_steps_S 1 ltac:(lia)) as [k ->]. cbn [Nat.add].
  apply loop_stop; [simpl; lia|]. rewrite <- (Z.add_0_r (insns_off c)) in Hc.
  by rewrite (step_here _ _ _ (mkFrame R0 0 0) _ _ _ _ Hb ltac:(done) Hc).
Qed.

(** The loop on a minimal body, from any register file. *)
Lemma minimal_body_loop {W} (h : Host W) d c R0 r ins s :
  code_here d (insns_off c) (insn_bytes (snd (minimal_body r ins))) -> 0 <= insns_off c ->
  insns_size c = zlen (snd (minimal_body r ins)) -> 0 < zlen R0 ->
  loop h d max_steps c (mkFrame R0 0 0) s = leave 0 s.
Proof.
  intros Hc Hb Hn HR.
  destruct (minimal_body_cases r ins) as [E|[E|(op & Hop & E)]]; rewrite E in Hc, Hn; simpl in Hn.
  - by apply return_void_runs.
  - eapply (clear_then_return _ _ _ _ 2 0x10); [exact Hc|done|done|done|by right|tauto].
  - eapply (clear_then_return _ _ _ _ 1 op); [|done|done|done|by left|done].
    by destruct Hop as [->|[->| ->]].
Qed.

(** The stub the rebuilder gives an uncovered method is a method: written
    as a code item, read back and interpreted with any arguments it returns 0
    and leaves the host and the depth alone, for every return type. *)
Lemma minimal_body_runs {W} (h : Host W) x off r ins args s :
  0 < off -> 0 <= ins < 65536 -> depth_ s < max_depth ->
  code_here (d_ x) off (Rebuilder.make_code_item (fst (minimal_body r ins)) ins 5
                          (snd (minimal_body r ins))) ->
  exists c, code_at x off = Ret c /\ run h (d_ x) c args s = (Ret 0, s).
Proof.
  intros Ho Hi Hd Hc.
  assert (1 <= fst (minimal_body r ins) < 65536 /\ ins <= fst (minimal_body r ins)
          /\ zlen (snd (minimal_body r ins)) < 2 ^ 31) as (Hrs & Hle & Hu)
    by (clear Hc; destruct (minimal_body_cases r ins) as [->|[->|(op & _ & ->)]]; unfold zlen; cbn [fst snd length]; lia).
  assert (Forall (fun v => 0 <= v < 65536) [fst (minimal_body r ins); ins; 5]) as Hw
    by (repeat apply Forall_cons_2; [lia..|apply Forall_nil_2]).
  destruct (code_at_item x off _ _ _ _ Ho Hw Hu Hc) as [Ec Hb].
  eexists. split; [exact Ec|]. set (c := mkCode _ _ _ _ _ _) in *.
  destruct (run_enter h (d_ x) c args s) as (R0 & HR & ->); [done|done|simpl; lia..|].
  rewrite (minimal_body_loop h (d_ x) c R0 r ins) by (done || (simpl in *; lia)).
  unfold leave. rewrite bind_modify. simpl. destruct s as [dp w]. simpl. do 3 f_equal. lia.
Qed.

(** The stub of a method that returns a long and takes three registers. *)
Lemma minimal_body_runs_witness :
  let item := Rebuilder.make_code_item 3 3 5 [0x16; 0; 0x10] in
  let x := mkDexFile ([1; 2; 3; 4] ++ item) true "" 0 0 0 0 0 0 0 0 0 0 0 0 [] in
  minimal_body "J" 3 = (3, [0x16; 0; 0x10]) /\
  exists c, code_at x 4 = Ret c /\ run echo (d_ x) c [7; 8; 9] (mkDState 0 tt) = (Ret 0, mkDState 0 tt).
Proof.
  intros item x. split; [reflexivity|].
  exact (minimal_body_runs echo x 4 "J" 3 [7; 8; 9] (mkDState 0 tt)
           ltac:(done) ltac:(done) ltac:(done)
           ltac:(split; [vm_compute; reflexivity|done])).
Defined.
