(* ===== verification/Framework.v ===== *)
(** Host implementations of the common Java framework methods:
    [register_java_framework] of [core/dex/lifecycle.cpp].

    The lambdas the code registers are the constructors of [FwMethod]; the body
    of each is its branch of [fw_run].  [Method.invoke] calls back into
    [call_method], which the parameter [call] stands for; [fw_call] closes that
    knot, [n] levels deep.  [as_host] injects the framework into the host
    methods, of which a client may register more. *)

From stdpp Require Import pretty.
From S2P Require Import Prelude.
From S2P Require Import Words.
From S2P Require Import Abi.
From S2P Require Import Unicorn.
From S2P Require Import Engine.
From S2P Require Import Memory.
From S2P Require Import JavaRuntime.
From S2P Require Import Jni.
#[local] Open Scope Z_scope.

Inductive FwMethod :=
| FAppend | FToString | FContains | FStartsWith | FEndsWith | FEquals | FIsEmpty | FLength | FHashCode
| FTrim | FValueOf | FUnbox | FNewInstance | FGetMethod | FInvoke | FForName
| FEqualsIgnoreCase | FAsList | FGetParentFile | FGetCanonicalPath | FGetCanonicalFile
| FVoid | FInt (i : Z) | FOpen.

Definition framework : list (string * FwMethod) := [
  ("append", FAppend); ("toString", FToString); ("contains", FContains); ("startsWith", FStartsWith);
  ("endsWith", FEndsWith); ("equals", FEquals); ("isEmpty", FIsEmpty); ("length", FLength);
  ("hashCode", FHashCode); ("trim", FTrim); ("valueOf", FValueOf); ("booleanValue", FUnbox);
  ("intValue", FUnbox); ("longValue", FUnbox); ("newInstance", FNewInstance);
  ("getDeclaredMethod", FGetMethod); ("getMethod", FGetMethod); ("setAccessible", FVoid);
  ("invoke", FInvoke); ("forName", FForName); ("equalsIgnoreCase", FEqualsIgnoreCase);
  ("asList", FAsList); ("getParentFile", FGetParentFile); ("getCanonicalPath", FGetCanonicalPath);
  ("getCanonicalFile", FGetCanonicalFile); ("close", FVoid); ("available", FInt 0); ("read", FInt (-1));
  ("readLine", FVoid); ("flush", FVoid); ("open", FOpen); ("exists", FInt 1); ("mkdir", FInt 1);
  ("mkdirs", FInt 1); ("isDirectory", FInt 1)]%string.

(** *** On byte strings *)

Definition of_bool (b : bool) : DvmValue := DInt (if b then 1 else 0).
Definition is_prefix (t s : list Z) : bool := bool_decide (take (length t) s = t).
Definition is_suffix (t s : list Z) : bool :=
  (length t <=? length s)%nat && bool_decide (drop (length s - length t) s = t).
(** [h = h * 31u + c] on [uint32_t]. *)
Definition hash_code (s : list Z) : Z := s32 (foldl (fun h c => u32 (h * 31 + c)) 0 s).
Definition is_blank (c : Z) : bool := (c =? 32) || (c =? 9) || (c =? 10) || (c =? 13).
Fixpoint drop_blanks (s : list Z) : list Z :=
  match s with [] => [] | c :: r => if is_blank c then drop_blanks r else s end.
(** [substr] from the first to the last character that is not blank. *)
Definition trim (s : list Z) : list Z := reverse (drop_blanks (reverse (drop_blanks s))).
Definition tolower (c : Z) : Z := if (65 <=? c) && (c <=? 90) then c + 32 else c.
(** [p.substr(0, p.find_last_of('/'))], empty when there is none. *)
Fixpoint parent_path (p : list Z) : list Z :=
  match p with
  | [] => []
  | c :: r => if bool_decide (47 ∈ r) then c :: parent_path r else []
  end.
Definition dots_to_slashes (n : list Z) : list Z := (fun c => if c =? 46 then 47 else c) <$> n.

Section Framework.
Context {U HM : Type} `{UcOps U}.
#[local] Abbreviation J := (JavaRuntime U HM).
Variable as_host : FwMethod -> HM.

Fixpoint register_methods (l : list (string * FwMethod)) : M J unit :=
  match l with
  | [] => skip
  | (name, f) :: r => _ ← register_method (bs name) (as_host f); register_methods r
  end.
Definition register_java_framework : M J unit := register_methods framework.

Definition str (j : J) (h : Z) : jstring := default [] (string_of j h).
Definition argstr (j : J) (a : list DvmValue) (i : nat) : jstring :=
  match a !! i with
  | Some (DObject o) => str j o
  | Some (DInt v) => bs (pretty v)
  | _ => []
  end.
Definition sbget (j : J) (self : Z) : jstring := str j (obj_of (get_field j self (bs "__sb"))).
Definition fpath (j : J) (self : Z) : jstring :=
  let p := str j (obj_of (get_field j self (bs "path"))) in
  if bool_decide (p = []) then str j self else p.

(** [V::O(r.new_string_utf(s))] and an object with one field. *)
Definition give_string (s : jstring) : M J DvmValue := h ← new_string_utf s; mret (DObject h).
Definition give_with (cls field : jstring) (v : M J DvmValue) : M J DvmValue :=
  o ← new_object cls; x ← v; _ ← set_field o field x; mret (DObject o).

Variable call : Z -> Z -> list DvmValue -> M J DvmValue.

Definition fw_append (self : Z) (a : list DvmValue) : M J DvmValue :=
  j ← get;
  s ← give_string (sbget j self ++ argstr j a 0);
  _ ← set_field self (bs "__sb") s;
  mret (DObject self).
Definition fw_to_string (self : Z) : M J DvmValue :=
  j ← get;
  give_string (if bool_decide (sbget j self = []) then str j self else sbget j self).
Definition fw_value_of (a : list DvmValue) : M J DvmValue :=
  j ← get;
  match a with
  | DInt v :: _ => give_with (bs "java/lang/Boolean") (bs "__v") (mret (DInt v))
  | _ => give_string (argstr j a 0)
  end.
Definition fw_new_instance (self : Z) : M J DvmValue :=
  j ← get;
  let cn := class_name j self in
  h ← new_object (if bool_decide (cn = []) then bs "java/lang/Object" else cn);
  mret (DObject h).
(** The receiver's method of the name the [Method] object carries, with the
    elements of the array as arguments. *)
Definition fw_invoke (self : Z) (a : list DvmValue) : M J DvmValue :=
  j ← get;
  let name := str j (obj_of (get_field j self (bs "__name"))) in
  let recv := match a with DObject o :: _ => o | _ => 0 end in
  let args := match a with
              | _ :: DObject arr :: _ =>
                  (fun i => DObject (object_array_element j arr i)) <$> seqZ 0 (array_length j arr)
              | _ => []
              end in
  if bool_decide (name = []) then mret DVoid else
  mid ← get_method_id (class_of j recv) name [] false;
  call mid recv args.

Definition fw_run (f : FwMethod) (self : Z) (a : list DvmValue) : M J DvmValue :=
  j ← get;
  match f with
  | FAppend => fw_append self a
  | FToString => fw_to_string self
  | FContains => mret (of_bool (has_sub (argstr j a 0) (str j self)))
  | FStartsWith => mret (of_bool (is_prefix (argstr j a 0) (str j self)))
  | FEndsWith => mret (of_bool (is_suffix (argstr j a 0) (str j self)))
  | FEquals => mret (of_bool (bool_decide (str j self = argstr j a 0)))
  | FIsEmpty => mret (of_bool (bool_decide (str j self = [])))
  | FLength => mret (DInt (zlen (str j self)))
  | FHashCode => mret (DInt (hash_code (str j self)))
  | FTrim => give_string (trim (str j self))
  | FValueOf => fw_value_of a
  | FUnbox => mret (get_field j self (bs "__v"))
  | FNewInstance => fw_new_instance self
  | FGetMethod => give_with (bs "java/lang/reflect/Method") (bs "__name") (j ← get; give_string (argstr j a 0))
  | FVoid => mret DVoid
  | FInvoke => fw_invoke self a
  | FForName => c ← find_class (dots_to_slashes (argstr j a 0)); mret (DObject c)
  | FEqualsIgnoreCase =>
      mret (of_bool (bool_decide ((tolower <$> str j self) = (tolower <$> argstr j a 0))))
  | FAsList => mret (match a with v :: _ => v | [] => DVoid end)
  | FGetParentFile => give_with (bs "java/io/File") (bs "path") (give_string (parent_path (fpath j self)))
  | FGetCanonicalPath => give_string (fpath j self)
  | FGetCanonicalFile => mret (DObject self)
  | FInt i => mret (DInt i)
  | FOpen => h ← new_object (bs "java/io/InputStream"); mret (DObject h)
  end.
End Framework.

(** ** Framework and client methods together *)

Section Host.
Context {U C : Type} `{UcOps U}.
#[local] Abbreviation HM := (FwMethod + C)%type.
#[local] Abbreviation J := (JavaRuntime U HM).
Variable observe : jstring -> jstring -> jstring -> list DvmValue -> bool -> M J unit.
Variable client : C -> Z -> list DvmValue -> M J DvmValue.

(** [call_method] with at most [n] nested reflective calls; deeper ones overflow the
    host's stack. *)
Fixpoint fw_call (n : nat) (mid self : Z) (args : list DvmValue) : M J DvmValue :=
  match n with
  | O => lift UB
  | S k => call_method observe
      (fun h => match h with inl f => fw_run (fw_call k) f | inr c => client c end) mid self args
  end.
(** The implementations [call_method] runs. *)
Definition fw_host (n : nat) (h : HM) : Z -> list DvmValue -> M J DvmValue :=
  match h with inl f => fw_run (fw_call n) f | inr c => client c end.
End Host.

(** ** Pure parts *)

(** [s[0]*31^(n-1) + ... + s[n-1]], as Java defines it. *)
Definition java_hash (s : list Z) : Z := foldl (fun h c => h * 31 + c) 0 s.

Lemma hash_fold s h h' : u32 h = u32 h' -> u32 (foldl (fun h c => u32 (h * 31 + c)) h s) = u32 (foldl (fun h c => h * 31 + c) h' s).
Proof.
  revert h h'. induction s as [|c s IH]; intros h h' E; cbn; [done|]. apply IH.
  unfold u32 in *. rewrite Z.mod_mod by lia. rewrite <- Z.add_mod_idemp_l, <- Z.mul_mod_idemp_l, E by lia.
  by rewrite Z.mul_mod_idemp_l, Z.add_mod_idemp_l by lia.
Qed.

(** [hashCode] accumulated in 32 unsigned bits is Java's: the polynomial
    in 31 over the bytes, reduced to a signed 32-bit integer, for strings
    of any length. *)
Lemma hash_code_spec s : hash_code s = s32 (java_hash s).
Proof.
  unfold hash_code, java_hash, s32. rewrite <- (sext_mod 32 (foldl _ 0 s)), <- (sext_mod 32 (foldl (fun h c => h * 31 + c) 0 s)).
  f_equal. exact (hash_fold s 0 0 eq_refl).
Qed.

(** [trim] cuts exactly the blanks at both ends. *)
Lemma drop_blanks_split s :
  exists w, s = w ++ drop_blanks s /\ Forall (fun c => is_blank c = true) w /\
            match drop_blanks s with [] => True | c :: _ => is_blank c = false end.
Proof.
  induction s as [|c s IH]; cbn; [by exists []|]. destruct (is_blank c) eqn:E.
  - destruct IH as (w & E1 & E2 & E3). exists (c :: w). rewrite E1 at 1. split; [done|]. split; [by constructor|done].
  - exists []. by split.
Qed.

Lemma trim_spec s :
  exists w w', s = w ++ trim s ++ w' /\ Forall (fun c => is_blank c = true) (w ++ w') /\
    (forall c, head (trim s) = Some c -> is_blank c = false) /\
    (forall c, last (trim s) = Some c -> is_blank c = false).
Proof.
  destruct (drop_blanks_split s) as (w & E1 & B1 & H1).
  destruct (drop_blanks_split (reverse (drop_blanks s))) as (w' & E2 & B2 & H2).
  set (t := drop_blanks (reverse (drop_blanks s))) in *.
  assert (trim s = reverse t) as -> by done.
  assert (drop_blanks s = reverse t ++ reverse w') as Ed.
  { rewrite <- (reverse_involutive (drop_blanks s)), E2. by rewrite reverse_app. }
  exists w, (reverse w'). split; [by rewrite E1 at 1; rewrite Ed|]. split.
  { apply Forall_app. split; [done|]. by apply Forall_reverse. }
  split; intros c Hc.
  - rewrite Ed in H1. destruct (reverse t); [done|]. by injection Hc as ->.
  - destruct t as [|d t]; [done|]. rewrite reverse_cons, last_snoc in Hc. by injection Hc as ->.
Qed.

(** A path with a directory part. *)
Lemma parent_path_spec dir base : 47 ∉ base -> parent_path (dir ++ 47 :: base) = dir.
Proof.
  intros Hb. induction dir as [|c dir IH]; cbn.
  - by rewrite bool_decide_eq_false_2.
  - rewrite bool_decide_eq_true_2 by (rewrite elem_of_app, elem_of_cons; auto). by rewrite IH.
Qed.
Lemma parent_path_none p : 47 ∉ p -> parent_path p = [].
Proof.
  destruct p as [|c r]; cbn; [done|]. rewrite elem_of_cons. intros Hp.
  rewrite bool_decide_eq_false_2; tauto.
Qed.

(** ** On the Java table *)

Section NewValues.
Context {U HM : Type} `{UcLaws U}.
#[local] Abbreviation J := (JavaRuntime U HM).

Lemma grows_get : grows (U := U) (HM := HM) get.
Proof. intros j r j' Hj [= _ <-]. split; [done|apply extends_refl]. Qed.
Lemma grows_give s : grows (give_string (U := U) (HM := HM) s).
Proof. apply grows_bind; [apply grows_new_of|intros; apply grows_ret]. Qed.
Lemma grows_give_with c f v : grows v -> grows (give_with (U := U) (HM := HM) c f v).
Proof.
  intros Hv. apply grows_bind; [apply grows_new_of|]. intros o. apply grows_bind; [done|]. intros x.
  apply grows_bind; [apply grows_set_field|intros; apply grows_ret].
Qed.

Lemma give_string_run s j v j' :
  java_ok j -> give_string (U := U) (HM := HM) s j = (Ret v, j') ->
  java_ok j' /\ exists h, v = DObject h /\ handles_ j !! h = None /\ string_of j' h = Some s.
Proof.
  intros Hj E. apply bind_ret_inv in E as (h & j1 & E1 & E). injection E as <- <-.
  destruct (new_of_run _ _ _ _ _ Hj E1) as (Hj' & Hn & r' & Hr & (K & _ & _ & _ & Hu & _)).
  split; [done|]. exists h. split; [done|]. split; [done|]. unfold string_of, get_kind, get_rec.
  rewrite Hr, decide_True by done. cbn [fmap option_fmap option_map]. by rewrite Hu.
Qed.
End NewValues.

Section FrameworkFacts.
Context {U C : Type} `{UcLaws U}.
#[local] Abbreviation HM := (FwMethod + C)%type.
#[local] Abbreviation J := (JavaRuntime U HM).

Lemma fw_grows call f self a :
  (forall m s l, grows (call m s l)) -> grows (fw_run (U := U) (HM := HM) call f self a).
Proof.
  intros Hc. apply grows_bind; [apply grows_get|]. intros j.
  destruct f; cbn [fw_run];
    try lazymatch goal with
        | |- grows (mret _) => apply grows_ret
        | |- grows (give_string _) => apply grows_give
        | |- grows (give_with _ _ (give_string _)) => apply grows_give_with, grows_give
        end.
  - apply grows_bind; [apply grows_get|]. intros j'. apply grows_bind; [apply grows_give|]. intros s.
    apply grows_bind; [apply grows_set_field|intros; apply grows_ret].
  - apply grows_bind; [apply grows_get|intros; apply grows_give].
  - apply grows_bind; [apply grows_get|]. intros j'.
    destruct a as [|[] a]; try apply grows_give. apply grows_give_with, grows_ret.
  - apply grows_bind; [apply grows_get|]. intros j'.
    apply grows_bind; [apply grows_new_of|intros; apply grows_ret].
  - apply grows_give_with. apply grows_bind; [apply grows_get|intros; apply grows_give].
  - apply grows_bind; [apply grows_get|]. intros j'. cbv zeta.
    case_bool_decide; [apply grows_ret|]. apply grows_bind; [apply grows_method|intros; apply Hc].
  - apply grows_bind; [apply grows_find_class|intros; apply grows_ret].
  - apply grows_bind; [apply grows_new_of|intros; apply grows_ret].
Qed.

Variable observe : jstring -> jstring -> jstring -> list DvmValue -> bool -> M J unit.
Variable client : C -> Z -> list DvmValue -> M J DvmValue.
Hypothesis observe_grows : forall o n s a b, grows (observe o n s a b).
Hypothesis client_grows : forall c self args, grows (client c self args).

Lemma fw_call_grows n mid self args : grows (fw_call observe client n mid self args).
Proof.
  revert mid self args. induction n as [|n IH]; intros mid self args; cbn [fw_call]; [apply grows_lift|].
  apply grows_call_method; [done|]. intros [f|c] t a; [by apply fw_grows|apply client_grows].
Qed.

(** The framework meets what the bridge asks of host implementations, at any
    depth of reflection: [jni_grows] holds of a bridge with the framework registered,
    with a condition on the client's own methods only. *)
Lemma fw_host_grows n h self args : grows (fw_host observe client n h self args).
Proof. destruct h as [f|c]; cbn; [apply fw_grows, fw_call_grows|apply client_grows]. Qed.

(** *** Strings *)

(** An object whose fields can be set. *)
Definition known (j : J) (o : Z) : Prop := is_Some (handles_ j !! o).

Lemma get_set_field (j : J) o n v : known j o -> get_field (snd (set_field o n v j)) o n = v.
Proof.
  intros [r Hr]. unfold get_field, set_field, update_rec, modify, get_rec. cbn [snd]. rewrite Hr.
  cbn [with_handles handles_]. rewrite lookup_insert_eq. cbn [mbind option_bind with_fields fields].
  by rewrite lookup_insert_eq.
Qed.

Lemma fw_append_run sb h s j v j' :
  java_ok j -> known j sb -> string_of j h = Some s ->
  fw_append (U := U) (HM := HM) sb [DObject h] j = (Ret v, j') ->
  java_ok j' /\ extends j j' /\ v = DObject sb /\ sbget j' sb = sbget j sb ++ s.
Proof.
  intros Hj Hsb Hs E. assert (grows (fw_append (U := U) (HM := HM) sb [DObject h])) as Hg.
  { apply grows_bind; [apply grows_get|]. intros j0. apply grows_bind; [apply grows_give|]. intros s0.
    apply grows_bind; [apply grows_set_field|intros; apply grows_ret]. }
  destruct (Hg _ _ _ Hj E) as [Hj' X]. split; [done|]. split; [done|].
  unfold fw_append in E. rewrite bind_get in E. apply bind_ret_inv in E as (x & j1 & E1 & E).
  destruct (grows_give _ _ _ _ Hj E1) as [Hj1 X1].
  destruct (give_string_run _ _ _ _ Hj E1) as (_ & h' & -> & _ & Hh').
  change (argstr j [DObject h] 0) with (str j h) in Hh'. unfold str in Hh'. rewrite Hs in Hh'.
  change (default [] (Some s)) with s in Hh'.
  apply bind_ret_inv in E as (? & j2 & E2 & E). injection E as <- <-. split; [done|].
  assert (known j1 sb) as Hk by (destruct Hsb as [r Hr]; destruct (ex_handles _ _ X1 _ _ Hr) as (r' & Hr' & _); by exists r').
  assert (j2 = snd (set_field sb (bs "__sb") (DObject h') j1)) as -> by (by rewrite E2).
  unfold sbget at 1. rewrite get_set_field by done. cbn [obj_of]. unfold str.
  destruct (grows_set_field sb (bs "__sb") (DObject h') j1 _ _ Hj1 E2) as [_ X2].
  rewrite E2. cbn [snd]. by rewrite (string_of_keeps _ _ _ _ X2 Hh').
Qed.

Fixpoint append_all (sb : Z) (hs : list Z) : M J unit :=
  match hs with
  | [] => skip
  | h :: r => _ ← fw_append sb [DObject h]; append_all sb r
  end.

Lemma known_later j j' o : extends j j' -> known j o -> known j' o.
Proof. intros X [r Hr]. destruct (ex_handles _ _ X _ _ Hr) as (r' & Hr' & _). by exists r'. Qed.
Lemma not_string_later j j' o : extends j j' -> known j o -> string_of j o = None -> string_of j' o = None.
Proof.
  intros X [r Hr]. destruct (ex_handles _ _ X _ _ Hr) as (r' & Hr' & (K & _)).
  unfold string_of, get_kind, get_rec. rewrite Hr, Hr', K. by case_decide.
Qed.

Lemma append_all_run sb hs ss : forall j j' x,
  java_ok j -> known j sb -> Forall2 (fun h s => string_of j h = Some s) hs ss ->
  append_all sb hs j = (Ret x, j') ->
  java_ok j' /\ extends j j' /\ sbget j' sb = sbget j sb ++ concat ss.
Proof.
  intros j j' x Hj Hsb Hall. revert j j' Hj Hsb Hall. revert ss.
  induction hs as [|h hs IH]; intros ss j j' Hj Hsb Hall E; inversion Hall as [|? s ? ss' Hs Hss]; subst.
  - injection E as _ <-. split; [done|]. split; [apply extends_refl|]. by rewrite app_nil_r.
  - apply bind_ret_inv in E as (v & j1 & E1 & E).
    destruct (fw_append_run _ _ _ _ _ _ Hj Hsb Hs E1) as (Hj1 & X1 & _ & Hsb1).
    destruct (IH ss' j1 j') as (Hj' & X & Hsb'); [done|by eapply known_later| |done|].
    { eapply Forall2_impl; [done|]. intros h' s'. by apply string_of_keeps. }
    split; [done|]. split; [by eapply extends_trans|]. cbn [concat]. by rewrite Hsb', Hsb1, app_assoc.
Qed.

(** A [StringBuilder] concatenates.  After any sequence of [append] calls with
    strings, [toString] returns a new string whose text is the text before
    followed by theirs in order, and every handle of before keeps its
    meaning. *)
Lemma string_builder j sb hs ss v j' :
  java_ok j -> known j sb -> string_of j sb = None ->
  Forall2 (fun h s => string_of j h = Some s) hs ss ->
  (_ ← append_all sb hs; fw_to_string sb) j = (Ret v, j') ->
  extends j j' /\ exists h, v = DObject h /\ handles_ j !! h = None /\
                            string_of j' h = Some (sbget j sb ++ concat ss).
Proof.
  intros Hj Hsb Hns Hall E. apply bind_ret_inv in E as (x & j1 & E1 & E).
  destruct (append_all_run _ _ _ _ _ _ Hj Hsb Hall E1) as (Hj1 & X1 & H1).
  unfold fw_to_string in E. rewrite bind_get in E.
  assert (str j1 sb = []) as Hs1 by (unfold str; by rewrite (not_string_later j j1)).
  rewrite H1, Hs1 in E.
  assert ((if bool_decide (sbget j sb ++ concat ss = []) then [] else sbget j sb ++ concat ss)
          = sbget j sb ++ concat ss) as Ei by (by case_bool_decide as Eb; rewrite ?Eb).
  rewrite Ei in E. destruct (grows_give _ _ _ _ Hj1 E) as [_ X2].
  destruct (give_string_run _ _ _ _ Hj1 E) as (_ & h & -> & Hh & Hs).
  split; [by eapply extends_trans|]. exists h. split; [done|]. split; [|done].
  destruct (handles_ j !! h) as [r|] eqn:Er; [|done].
  destruct (ex_handles _ _ X1 _ _ Er) as (r' & Hr' & _). congruence.
Qed.

(** *** Registration *)

Lemma register_methods_find (as_host : FwMethod -> HM) l j name f :
  NoDup ((fun p => bs p.1) <$> l) -> (name, f) ∈ l ->
  host_methods_ (snd (register_methods (U := U) as_host l j)) !! bs name = Some (as_host f).
Proof.
  intros Hnd Hin. assert (forall l j k, k ∉ ((fun p => bs p.1) <$> l) ->
    host_methods_ (snd (register_methods (U := U) as_host l j)) !! k = host_methods_ j !! k) as Hother.
  { clear. intros l. induction l as [|[n g] l IH]; intros j k Hk; [done|]. cbn [fmap list_fmap] in Hk.
    apply not_elem_of_cons in Hk as [Hne Hk]. cbn [register_methods].
    change ((_ ← register_method (bs n) (as_host g); register_methods as_host l) j)
      with (register_methods as_host l (with_hosts (<[bs n := as_host g]> (host_methods_ j)) j)).
    rewrite IH by done. cbn [with_hosts host_methods_]. rewrite lookup_insert_ne; [done|]. intros <-. by apply Hne. }
  revert j. induction l as [|[n g] l IH]; intros j; [by apply not_elem_of_nil in Hin|].
  cbn [fmap list_fmap] in Hnd. apply NoDup_cons in Hnd as [Hni Hnd]. cbn [register_methods].
  change ((_ ← register_method (bs n) (as_host g); register_methods as_host l) j)
    with (register_methods as_host l (with_hosts (<[bs n := as_host g]> (host_methods_ j)) j)).
  apply elem_of_cons in Hin as [[= -> ->]|Hin]; [|by apply IH].
  rewrite Hother by done. cbn [with_hosts host_methods_]. apply lookup_insert_eq.
Qed.

(** Each framework method answers to its name. *)
Lemma framework_registered (as_host : FwMethod -> HM) j name f :
  (name, f) ∈ framework ->
  find_impl (snd (register_java_framework (U := U) as_host j)) [] (bs name) = Some (as_host f).
Proof.
  intros Hin. unfold find_impl. rewrite bool_decide_eq_true_2 by done.
  apply register_methods_find; [|done]. apply (bool_decide_unpack _). vm_compute. exact I.
Qed.
End FrameworkFacts.

(** ** Examples *)

#[local] Abbreviation DJ := (JavaRuntime RefUc (FwMethod + unit)).
Definition demo_fw0 : DJ := snd (register_java_framework inl (init_java demo_mem0)).
(** A builder and two strings. *)
Definition demo_sb : DJ :=
  snd ((_ ← new_object (bs "java/lang/StringBuilder"); _ ← new_string_utf (bs "ab"); new_string_utf (bs "cd")) demo_fw0).
Definition demo_sb_handles : list Z := [kJavaBase + 0x100; kJavaBase + 0x200; kJavaBase + 0x100].

Lemma demo_sb_ok : java_ok demo_sb.
Proof.
  assert (java_ok demo_fw0) as H0.
  { assert (grows (register_java_framework (U := RefUc) (HM := FwMethod + unit) inl)) as Hg.
    { unfold register_java_framework. generalize framework. intros l.
      induction l as [|[n f] l IH]; [apply grows_ret|].
      apply grows_bind; [by apply grows_modify|intros _; exact IH]. }
    refine (proj1 (Hg (init_java demo_mem0) _ _ _ (surjective_pairing _))). apply init_java_ok. left. reflexivity. }
  refine (proj1 (grows_bind _ _ (grows_new_of _ _) (fun _ => grows_bind _ _ (grows_new_of _ _)
    (fun _ => grows_new_of _ _)) demo_fw0 _ _ H0 (surjective_pairing _))).
Qed.

Lemma string_builder_witness :
  exists h, (_ ← append_all kJavaBase demo_sb_handles; fw_to_string kJavaBase) demo_sb = (Ret (DObject h), 
    snd ((_ ← append_all kJavaBase demo_sb_handles; fw_to_string kJavaBase) demo_sb)) /\
  string_of (snd ((_ ← append_all kJavaBase demo_sb_handles; fw_to_string kJavaBase) demo_sb)) h = Some (bs "abcdab").
Proof.
  set (run := (_ ← append_all kJavaBase demo_sb_handles; fw_to_string kJavaBase) demo_sb).
  assert (fst run = Ret (DObject (kJavaBase + 0x400))) as E by (vm_compute; reflexivity).
  destruct (string_builder demo_sb kJavaBase demo_sb_handles [bs "ab"; bs "cd"; bs "ab"]
              (DObject (kJavaBase + 0x400)) (snd run)) as (_ & h & Eh & _ & Hs).
  - exact demo_sb_ok.
  - exists (mkRecord RObject [] [] (bs "java/lang/StringBuilder") [] false 0 ∅ [] []). vm_compute. reflexivity.
  - vm_compute. reflexivity.
  - repeat apply Forall2_cons_2; try apply Forall2_nil_2; vm_compute; reflexivity.
  - rewrite <- E. apply surjective_pairing.
  - exists h. rewrite <- Eh, <- E. split; [apply surjective_pairing|]. rewrite Hs. vm_compute. reflexivity.
Defined.

(** A [Method] object of the name "invoke", called on itself with an array that
    holds it and the array: every call leads to the same call again, and the
    host's stack overflows whatever its size. *)
Definition demo_loop : DJ :=
  snd ((m ← new_object (bs "java/lang/reflect/Method"); s ← new_string_utf (bs "invoke");
        _ ← set_field m (bs "__name") (DObject s); arr ← new_object_array [m; 0];
        _ ← set_object_array_element arr 1 arr;
        get_method_id (kJavaBase + 0x80) (bs "invoke") [] false)
       (snd (register_method (bs "invoke") (inl FInvoke) (init_java demo_mem0)))).
Definition no_observer (o n s : jstring) (a : list DvmValue) (handled : bool) : M DJ unit := skip.
Definition no_client (c : unit) (self : Z) (a : list DvmValue) : M DJ DvmValue := mret DVoid.

Definition demo_args : list DvmValue := [DObject kJavaBase; DObject (kJavaBase + 0x200)].
Lemma loop_dispatch run :
  call_method no_observer run (kJavaBase + 0x300) kJavaBase demo_args demo_loop
  = run (inl FInvoke) kJavaBase demo_args demo_loop.
Proof. vm_compute. reflexivity. Qed.
Lemma loop_reflects call :
  fw_run call FInvoke kJavaBase demo_args demo_loop = call (kJavaBase + 0x300) kJavaBase demo_args demo_loop.
Proof. vm_compute. reflexivity. Qed.
Example reflection_unbounded n :
  fst (fw_call no_observer no_client n (kJavaBase + 0x300) kJavaBase demo_args demo_loop) = UB.
Proof. induction n as [|n IH]; [done|]. cbn [fw_call]. by rewrite loop_dispatch, loop_reflects. Qed.
