(* ===== verification/Lifecycle.v ===== *)
(** The app lifecycle driver: [LifecycleRunner] of [core/dex/lifecycle.cpp],
    [include/vardoger/dex/lifecycle.hpp].

    It is the host of the Dalvik interpreter: objects are handles of the Java
    table, and an invoke is resolved against the DEX file, the receiver's
    class, the registered natives and the framework, in this order.  Running
    a native is [Scheduler::run] on guest code, a parameter; so are the
    client's host methods and class resolver.  [entry_class] is the value of
    VARDOGER_ENTRY_CLASS, or else [entry_class_fallback].  What is handed to
    [notify_bytes] is recorded, and trace output dropped. *)

From S2P Require Import Prelude.
From S2P Require Import Words.
From S2P Require Import Abi.
From S2P Require Import Unicorn.
From S2P Require Import Engine.
From S2P Require Import Memory.
From S2P Require Import JavaRuntime.
From S2P Require Import Jni.
From S2P Require Import DexFile.
From S2P Require Import Dalvik.
#[local] Open Scope Z_scope.

(** ["Lcom/x/Y;"] to ["com/x/Y"]. *)
Definition jni_name (desc : list Z) : list Z :=
  if (2 <=? zlen desc) && bool_decide (head desc = Some 76) && bool_decide (last desc = Some 59)
  then take (length desc - 2) (drop 1 desc) else desc.

(** The method of a class that has code, direct methods first. *)
Definition method_is (name sig : list Z) (m : Method) : bool :=
  bool_decide (m_name m = name) && bool_decide (m_sig m = sig) && negb (m_code_off m =? 0).
Definition code_in (c : ClassDef) (name sig : list Z) : option Z :=
  m_code_off <$> List.find (method_is name sig) (direct_methods c ++ virtual_methods c).
Definition class_named (x : DexFile) (desc : list Z) : option ClassDef :=
  List.find (fun c => bool_decide (descriptor c = desc)) (classes_ x).

(** [hop] classes up from [cur]. *)
Fixpoint find_code_from (hops : nat) (x : DexFile) (cur name sig : list Z) : Z :=
  match hops with
  | O => 0
  | S k =>
      if bool_decide (cur = []) then 0 else
      match class_named x cur with
      | None => 0
      | Some c => match code_in c name sig with
                  | Some off => off
                  | None => find_code_from k x (superclass c) name sig
                  end
      end
  end.
Definition find_code (x : DexFile) (desc name sig : list Z) : Z := find_code_from 8 x desc name sig.

Definition namey : list string := ["loadClass"; "forName"; "interface23"; "findClass"; "al"]%string.
Definition loadish : list string :=
  ["loadClass"; "findClass"; "findClassInternal"; "defineClass"; "defineClassNative"; "loadClassBinaryName"]%string.
Definition is_named (l : list string) (name : list Z) : bool := existsb (fun n => bool_decide (name = bs n)) l.

(** The argument the null-name guard looks at. *)
Definition name_arg (is_static : bool) (a : list Z) : nat := if is_static then (length a - 1)%nat else 1%nat.
(** One value per character of the shorty after the return type. *)
Definition shorty_values (sig : list Z) (a : list Z) : list DvmValue :=
  zip_with (fun c v => if (c =? 76) || (c =? 91) then DObject v else DInt (s64 v)) (drop 1 sig) a.

Record LWorld (U HM : Type) := mkLWorld {
  lw_java : JavaRuntime U HM;
  lw_notified : list (list Z * list Z);
  extra_dexes_ : list DexFile;
  dex_bytes_ : list (list Z);
}.
Arguments mkLWorld {U HM}. Arguments lw_java {U HM}. Arguments lw_notified {U HM}.
Arguments extra_dexes_ {U HM}. Arguments dex_bytes_ {U HM}.

Section Lifecycle.
Context {U HM : Type} `{UcOps U}.
#[local] Abbreviation J := (JavaRuntime U HM).
#[local] Abbreviation W := (LWorld U HM).
#[local] Abbreviation St := (DState W).
Variable dex_ : DexFile.
Variable env_ : Z.
Variable art_chain : bool.
Variable entry_class : list Z.
Variable observe : jstring -> jstring -> jstring -> list DvmValue -> bool -> M J unit.
Variable run_host : HM -> Z -> list DvmValue -> M J DvmValue.
(** [sched_.run(fn, args)] *)
Variable native_run : Z -> list Z -> M W Z.
Variable on_resolve_class : option (jstring -> M W (list Z)).

Definition on_jrt {A} (op : M J A) : M W A := fun w =>
  let '(r, j) := op (lw_java w) in (r, mkLWorld j (lw_notified w) (extra_dexes_ w) (dex_bytes_ w)).
Definition jrt : M W J := gets lw_java.
Definition w_notify (l src : list Z) : M W unit := modify (fun w =>
  mkLWorld (lw_java w) (lw_notified w ++ [(l, src)]) (extra_dexes_ w) (dex_bytes_ w)).
Definition in_world {A} (op : M W A) : M St A := fun s =>
  let '(r, w) := op (world s) in (r, mkDState (depth_ s) w).

Definition add_dex (bytes : list Z) : M W unit :=
  let '(ok, x) := parse empty_dex bytes in
  if ok then modify (fun w => mkLWorld (lw_java w) (lw_notified w) (extra_dexes_ w ++ [x]) (dex_bytes_ w ++ [bytes]))
  else skip.

(** The first registered DEX that has the class; its bytes are those at the
    same index. *)
Fixpoint search_dexes (l : list DexFile) (b : list (list Z)) (desc : list Z) : outcome (list Z) :=
  match l with
  | [] => Ret []
  | x :: r =>
      match class_named x desc with
      | Some _ => bytes ← or_ub (head b);
                  if bool_decide (bytes = []) then search_dexes r (drop 1 b) desc else Ret bytes
      | None => search_dexes r (drop 1 b) desc
      end
  end.

(** The packer's own [defineClassNative], when it registered one; what it
    throws is dropped. *)
Definition define_native (name : list Z) : M W unit :=
  j ← jrt;
  let fn := lookup_native j (bs "dalvik/system/DexFile") (bs "defineClassNative") in
  if fn =? 0 then skip else
  try_catch (c ← on_jrt (find_class (bs "dalvik/system/DexFile"));
             s ← on_jrt (new_string_utf name);
             _ ← native_run fn [env_; c; s]; skip) skip.

Definition define_class (raw_name : list Z) : M W Z :=
  let name := replace_char 46 47 raw_name in
  if bool_decide (name = []) then mret 0 else
  let desc := 76 :: name ++ [59] in
  _ ← define_native name;
  bytes ← match on_resolve_class with Some f => f name | None => mret [] end;
  w ← get;
  bytes ← (if bool_decide (bytes = []) then
             b ← lift (search_dexes (extra_dexes_ w) (dex_bytes_ w) desc);
             mret (if bool_decide (b = [])
                   then match class_named dex_ desc with Some _ => d_ dex_ | None => [] end else b)
           else mret bytes);
  if bool_decide (bytes = []) then mret 0 else
  _ ← w_notify bytes (bs "defineClassNative:" ++ name);
  on_jrt (find_class name).

(** *** Callbacks on objects *)

Definition l_const_string (s : Z) : M W Z := on_jrt (new_string_utf (string_at dex_ s)).
Definition l_new_instance (t : Z) : M W Z := on_jrt (new_object (jni_name (type_at dex_ t))).
Definition l_sget (f : Z) : M W Z :=
  j ← jrt; let fd := field_at dex_ f in mret (obj_of (get_static j (jni_name (f_cls fd)) (f_name fd))).
Definition l_sput (f v : Z) : M W unit :=
  let fd := field_at dex_ f in on_jrt (set_static (jni_name (f_cls fd)) (f_name fd) (DObject v)).
Definition l_iget (obj f : Z) : M W Z :=
  j ← jrt; mret (obj_of (get_field j obj (f_name (field_at dex_ f)))).
Definition l_iput (obj f v : Z) : M W unit :=
  on_jrt (set_field obj (f_name (field_at dex_ f)) (DObject v)).
Definition l_new_array (t len : Z) : M W Z :=
  let len := if (len <? 0) || (2 ^ 24 <? len) then 0 else len in
  let ty := type_at dex_ t in
  if (2 <=? zlen ty) && bool_decide (ty !! 1%nat = Some 76)
  then on_jrt (new_object_array (replicate (Z.to_nat len) 0))
  else on_jrt (new_byte_array_zero len).
Definition l_array_length (arr : Z) : M W Z := j ← jrt; mret (s32 (array_length j arr)).
Definition l_aget (arr i : Z) : M W Z :=
  j ← jrt;
  mret (if i <? 0 then 0 else
        match bytes_view j arr with
        | Some b => if i <? zlen b then default 0 (znth b i) else 0
        | None => object_array_element j arr i
        end).
Definition l_aput (arr i v : Z) : M W unit :=
  j ← jrt;
  if i <? 0 then skip else
  match bytes_view j arr with
  | Some b => if i <? zlen b then on_jrt (set_bytes arr (<[Z.to_nat i := u8 v]> b)) else skip
  | None => on_jrt (set_object_array_element arr i v)
  end.

(** *** Invokes *)

(** The class-loading chain: the first argument that is a non-empty string. *)
Fixpoint first_string (j : J) (a : list Z) : option jstring :=
  match a with
  | [] => None
  | v :: r => match string_of j v with
              | Some s => if bool_decide (s = []) then first_string j r else Some s
              | None => first_string j r
              end
  end.
Definition art_try (m : Method) (is_static : bool) (a : list Z) : M W Z :=
  if negb art_chain || negb (is_named loadish (m_name m)) then mret 0 else
  j ← jrt;
  match first_string j (if is_static then a else drop 1 a) with
  | Some s => define_class s
  | None => mret 0
  end.

(** What a native gets: at most six words. *)
Definition native_args (cls_or_self : Z) (rest : list Z) : list Z := take 6 (env_ :: cls_or_self :: rest).
Definition call_native (fn : Z) (clsb : list Z) (is_static : bool) (a : list Z) : M W Z :=
  args ← (if is_static then c ← on_jrt (find_class clsb); mret (native_args c a)
          else mret (native_args (default 0 (head a)) (drop 1 a)));
  try_catch (native_run fn args) (mret 0).

Definition call_framework (m : Method) (clsb : list Z) (is_static : bool) (a : list Z) : M W Z :=
  clazz ← on_jrt (find_class clsb);
  mid ← on_jrt (get_method_id clazz (m_name m) (m_sig m) is_static);
  let self := if is_static then 0 else default 0 (head a) in
  let dv := shorty_values (m_sig m) (if is_static then a else drop 1 a) in
  r ← on_jrt (call_method observe run_host mid self dv);
  mret (match r with DObject o => o | _ => u64 (i_of r) end).

Definition is_kind (k k' : InvokeKind) : bool :=
  match k, k' with
  | Virtual, Virtual | Super, Super | Direct, Direct | Static, Static | Interface, Interface => true
  | _, _ => false
  end.

Section Invoke.
(** [dvk_.run] *)
Variable interp : Code -> list Z -> M St Z.

Definition interpret (code_off : Z) (a : list Z) : M St Z := c ← lift (code_at dex_ code_off); interp c a.

Definition invoke_super (m : Method) (is_static : bool) (a : list Z) : M St Z :=
  let sup := match class_named dex_ (m_cls m) with Some c => superclass c | None => [] end in
  let co := find_code dex_ sup (m_name m) (m_sig m) in
  if negb (co =? 0) then interpret co a else in_world (art_try m is_static a).

(** The code of the receiver's class, for virtual and interface calls. *)
Definition receiver_code (j : J) (kind : InvokeKind) (m : Method) (a : list Z) : Z :=
  if is_kind kind Virtual || is_kind kind Interface then
    let self := default 0 (head a) in
    if self =? 0 then 0 else
    let rcb := class_name j (class_of j self) in
    if bool_decide (rcb = []) then 0 else find_code dex_ (binary_to_descriptor rcb) (m_name m) (m_sig m)
  else 0.

(** What is not interpreted: a native, the class-loading chain, the framework. *)
Definition invoke_outside (m : Method) (is_static : bool) (a : list Z) : M W Z :=
  let clsb := jni_name (m_cls m) in
  j ← jrt;
  let fn := lookup_native j clsb (m_name m) in
  if negb (fn =? 0) then call_native fn clsb is_static a else
  c ← art_try m is_static a;
  if negb (c =? 0) then mret c else call_framework m clsb is_static a.

Definition invoke_resolved (kind : InvokeKind) (m : Method) (a : list Z) : M St Z :=
  let is_static := is_kind kind Static in
  if is_kind kind Super then invoke_super m is_static a else
  w ← in_world get;
  let rc := receiver_code (lw_java w) kind m a in
  if negb (rc =? 0) then interpret rc a else
  let co := find_code dex_ (m_cls m) (m_name m) (m_sig m) in
  if negb (co =? 0) then interpret co a else in_world (invoke_outside m is_static a).

(** [on_invoke] calls itself once a null name has been replaced; [n] bounds
    how often. *)
Fixpoint invoke_guarded (n : nat) (kind : InvokeKind) (midx : Z) (a : list Z) : M St Z :=
  match n with
  | O => lift UB
  | S k =>
      let m := method_at dex_ midx in
      let ni := name_arg (is_kind kind Static) a in
      if is_named namey (m_name m) && negb (bool_decide (a = [])) && bool_decide (a !! ni = Some 0) then
        h ← in_world (on_jrt (new_string_utf entry_class));
        invoke_guarded k kind midx (<[ni := h]> a)
      else invoke_resolved kind m a
  end.
Definition l_invoke := invoke_guarded 2.

(** The callbacks of [wire]. *)
Definition wire : Host W :=
  mkHost (Some l_invoke) (Some (fun f => in_world (l_sget f))) (Some (fun f v => in_world (l_sput f v)))
    (Some (fun o f => in_world (l_iget o f))) (Some (fun o f v => in_world (l_iput o f v)))
    (Some (fun s => in_world (l_const_string s))) (Some (fun t => in_world (l_new_instance t)))
    (Some (fun t n => in_world (l_new_array t n))) (Some (fun a => in_world (l_array_length a)))
    (Some (fun a i => in_world (l_aget a i))) (Some (fun a i v => in_world (l_aput a i v))).
End Invoke.

(** *** Running a method *)

Definition l_run_code (nest : nat) (c : Code) (args : list Z) : M St Z := invoke_at wire (d_ dex_) nest c args.
Definition l_run (nest : nat) (class_desc method shorty : list Z) (args : list Z) : M St Z :=
  let co := find_code dex_ class_desc method shorty in
  if co =? 0 then mret 0 else
  try_catch (c ← lift (code_at dex_ co); l_run_code nest c args) (mret 0).
Definition run_lifecycle (nest : nat) (class_desc : list Z) (app ctx : Z) : M St unit :=
  _ ← l_run nest class_desc (bs "attachBaseContext") (bs "VL") [app; ctx];
  _ ← l_run nest class_desc (bs "onCreate") (bs "V") [app]; skip.
End Lifecycle.

(** ** Resolution *)

(** The class [n] steps up from [cur] is the nearest to define the method, at
    [off]. *)
Inductive resolves (x : DexFile) (name sig : list Z) (off : Z) : nat -> list Z -> Prop :=
| res_here cur c : cur <> [] -> class_named x cur = Some c -> code_in c name sig = Some off ->
    resolves x name sig off 0 cur
| res_up n cur c : cur <> [] -> class_named x cur = Some c -> code_in c name sig = None ->
    resolves x name sig off n (superclass c) -> resolves x name sig off (S n) cur.

Lemma code_in_nonzero c name sig off : code_in c name sig = Some off -> off <> 0.
Proof.
  unfold code_in. destruct (List.find _ _) as [m|] eqn:E; [|done]. intros [= <-].
  apply List.find_some in E as [_ E]. unfold method_is in E. apply andb_true_iff in E as [_ E].
  by apply negb_true_iff, Z.eqb_neq in E.
Qed.

Lemma find_code_from_spec hops x cur name sig off :
  off <> 0 -> find_code_from hops x cur name sig = off <-> exists n, (n < hops)%nat /\ resolves x name sig off n cur.
Proof.
  intros Ho. revert cur. induction hops as [|k IH]; intros cur; cbn [find_code_from].
  { split; [congruence|intros (n & ? & _); lia]. }
  case_bool_decide as Ec; [split; [congruence|intros (n & _ & R); by destruct R]|].
  destruct (class_named x cur) as [c|] eqn:En.
  2: { split; [congruence|]. intros (n & _ & R). destruct R; congruence. }
  destruct (code_in c name sig) as [o|] eqn:Eo.
  - split.
    + intros ->. exists O. split; [lia|]. by econstructor.
    + intros (n & _ & R). destruct R; congruence.
  - rewrite IH. split.
    + intros (n & ? & R). exists (S n). split; [lia|]. by econstructor.
    + intros (n & ? & R). destruct R as [|n cur c' _ En' _ R]; [congruence|]. exists n. split; [lia|]. congruence.
Qed.

(** Method resolution finds the nearest definition: the code of a method
    is that of the first class with code for it, by name and
    signature, on the way up the superclasses inside the DEX file, at most seven
    steps away, and 0 when there is none. *)
Lemma find_code_spec x desc name sig off :
  off <> 0 -> find_code x desc name sig = off <-> exists n, (n < 8)%nat /\ resolves x name sig off n desc.
Proof. apply find_code_from_spec. Qed.

Section LifecycleFacts.
Context {U HM : Type} `{UcLaws U}.
#[local] Abbreviation J := (JavaRuntime U HM).
#[local] Abbreviation W := (LWorld U HM).
#[local] Abbreviation St := (DState W).
Variable dex_ : DexFile.
Variable env_ : Z.
Variable art_chain : bool.
Variable entry_class : list Z.
Variable observe : jstring -> jstring -> jstring -> list DvmValue -> bool -> M J unit.
Variable run_host : HM -> Z -> list DvmValue -> M J DvmValue.
Variable native_run : Z -> list Z -> M W Z.
Variable on_resolve_class : option (jstring -> M W (list Z)).
#[local] Abbreviation wired := (wire dex_ env_ art_chain entry_class observe run_host native_run on_resolve_class).

(** *** Nesting *)

Lemma in_world_agree {A} k (op : M W A) : agree k A (in_world op) (in_world op).
Proof.
  intros s Hs. split; [done|]. unfold in_world. destruct (op (world s)) as [r w]. done.
Qed.
Lemma agree_bind {A B} k (m m' : M St A) (f f' : A -> M St B) :
  agree k A m m' -> (forall a, agree k B (f a) (f' a)) -> agree k B (m ≫= f) (m' ≫= f').
Proof. apply (@seq_bind _ _ (agree_seq W k)). Qed.
Lemma agree_lift {A} k (o : outcome A) : agree (W := W) k A (lift o) (lift o).
Proof. apply (@seq_lift _ _ (agree_seq W k)). Qed.

Lemma invoke_agree k g g' n kind midx a :
  (forall c args, agree k _ (g c args) (g' c args)) ->
  agree k _ (invoke_guarded dex_ env_ art_chain entry_class observe run_host native_run on_resolve_class g n kind midx a)
            (invoke_guarded dex_ env_ art_chain entry_class observe run_host native_run on_resolve_class g' n kind midx a).
Proof.
  intros Hg.
  assert (forall co a, agree k _ (interpret dex_ g co a) (interpret dex_ g' co a)) as Hi
    by (intros; apply agree_bind; [apply agree_lift|intros; apply Hg]).
  revert a. induction n as [|n IH]; intros a; cbn [invoke_guarded]; [apply agree_lift|].
  destruct (_ && _); [apply agree_bind; [apply in_world_agree|intros; apply IH]|].
  unfold invoke_resolved. destruct (is_kind kind Super).
  - unfold invoke_super. destruct (negb _); [apply Hi|apply in_world_agree].
  - apply agree_bind; [apply in_world_agree|]. intros w. cbv zeta.
    destruct (negb _); [apply Hi|]. destruct (negb _); [apply Hi|apply in_world_agree].
Qed.

Lemma wire_uniform : uniform wired.
Proof.
  intros k g g' Hg.
  constructor; cbn [wire on_invoke on_sget on_sput on_iget on_iput on_const_string on_new_instance
                    on_new_array on_array_length on_aget on_aput opt_rel];
    [intros kd m a; unfold l_invoke; by apply invoke_agree
    |first [exact (fun a => in_world_agree k _) | exact (fun a b => in_world_agree k _)
           |exact (fun a b c => in_world_agree k _)]..].
Qed.

(** The driver always comes back.  With the callbacks as wired, whatever the
    DEX file makes them call, 65 nested activations of the interpreter are enough: allowing more
    changes nothing, since the depth guard answers the 65th with 0. *)
Lemma lifecycle_bounded nest class_desc method shorty args s :
  (65 <= nest)%nat -> 0 <= depth_ s ->
  l_run dex_ env_ art_chain entry_class observe run_host native_run on_resolve_class nest class_desc method shorty args s =
  l_run dex_ env_ art_chain entry_class observe run_host native_run on_resolve_class 65 class_desc method shorty args s.
Proof.
  intros Hn Hd. unfold l_run. destruct (_ =? 0); [done|]. unfold try_catch, mbind, M_mbind, M_bind, lift.
  destruct (code_at dex_ _) as [c|e|]; [|done..]. unfold l_run_code.
  rewrite <- (invoke_at_fuel wired (d_ dex_) 65 nest c args s wire_uniform); [done|lia|].
  unfold max_depth. lia.
Qed.
End LifecycleFacts.

(** ** The Java table under the driver *)

(** An operation on a larger state that keeps the Java table in it well formed
    and extends it, however it ends. *)
Section Tables.
Context {U HM S : Type} `{UcLaws U}.
Variable view : S -> JavaRuntime U HM.

Definition tgrows {A} (m : M S A) : Prop :=
  forall s r s', java_ok (view s) -> m s = (r, s') -> java_ok (view s') /\ extends (view s) (view s').

Lemma tgrows_lift {A} (o : outcome A) : tgrows (lift o).
Proof. intros s r s' Hs [= _ <-]. split; [done|apply extends_refl]. Qed.
Lemma tgrows_ret {A} (a : A) : tgrows (mret a).
Proof. exact (tgrows_lift (Ret a)). Qed.
Lemma tgrows_bind {A B} (m : M S A) (f : A -> M S B) :
  tgrows m -> (forall a, tgrows (f a)) -> tgrows (m ≫= f).
Proof.
  intros Hm Hf s r s' Hs. unfold mbind, M_mbind, M_bind. destruct (m s) as [o s1] eqn:E.
  destruct (Hm _ _ _ Hs E) as [H1 X1]. destruct o as [a|e|]; [|by intros [= <- <-]..].
  intros E'. destruct (Hf a _ _ _ H1 E') as [H2 X2]. split; [done|by eapply extends_trans].
Qed.
Lemma tgrows_try {A} (m h : M S A) : tgrows m -> tgrows h -> tgrows (try_catch m h).
Proof.
  intros Hm Hh s r s' Hs. unfold try_catch. destruct (m s) as [o s1] eqn:E.
  destruct (Hm _ _ _ Hs E) as [H1 X1]. destruct o as [a|e|]; [by intros [= <- <-]| |by intros [= <- <-]].
  intros E'. destruct (Hh _ _ _ H1 E') as [H2 X2]. split; [done|by eapply extends_trans].
Qed.
Lemma tgrows_get : tgrows get.
Proof. intros s r s' Hs [= _ <-]. split; [done|apply extends_refl]. Qed.
Lemma tgrows_gets {A} (f : S -> A) : tgrows (gets f).
Proof. intros s r s' Hs [= _ <-]. split; [done|apply extends_refl]. Qed.
Lemma tgrows_modify f : (forall s, view (f s) = view s) -> tgrows (modify f).
Proof. intros Hf s r s' Hs [= _ <-]. rewrite Hf. split; [done|apply extends_refl]. Qed.
End Tables.

Section LifecycleTables.
Context {U HM : Type} `{UcLaws U}.
#[local] Abbreviation J := (JavaRuntime U HM).
#[local] Abbreviation W := (LWorld U HM).
#[local] Abbreviation St := (DState W).
Variable dex_ : DexFile.
Variable env_ : Z.
Variable art_chain : bool.
Variable entry_class : list Z.
Variable observe : jstring -> jstring -> jstring -> list DvmValue -> bool -> M J unit.
Variable run_host : HM -> Z -> list DvmValue -> M J DvmValue.
Variable native_run : Z -> list Z -> M W Z.
Variable on_resolve_class : option (jstring -> M W (list Z)).
Hypothesis observe_grows : forall o n s a b, grows (observe o n s a b).
Hypothesis run_grows : forall f self args, grows (run_host f self args).
(** What the guest does to the table goes through the bridge, where
    [jni_grows] answers for it. *)
Hypothesis native_grows : forall fn args, tgrows lw_java (native_run fn args).
Hypothesis resolve_grows : forall f name, on_resolve_class = Some f -> tgrows lw_java (f name).
#[local] Abbreviation wgrows := (tgrows (lw_java (U := U) (HM := HM))).
#[local] Abbreviation sgrows := (tgrows (fun s : St => lw_java (world s))).
#[local] Abbreviation wired := (wire dex_ env_ art_chain entry_class observe run_host native_run on_resolve_class).

Lemma wgrows_on_jrt {A} (op : M J A) : grows op -> wgrows (on_jrt op).
Proof.
  intros Hop w r w' Hw. unfold on_jrt. destruct (op (lw_java w)) as [o j] eqn:E. intros [= _ <-].
  exact (Hop _ _ _ Hw E).
Qed.
Lemma sgrows_in_world {A} (op : M W A) : wgrows op -> sgrows (in_world op).
Proof.
  intros Hop s r s' Hs. unfold in_world. destruct (op (world s)) as [o w] eqn:E. intros [= _ <-].
  exact (Hop _ _ _ Hs E).
Qed.

Ltac table_op :=
  lazymatch goal with
  | |- grows (find_class _) => apply grows_find_class
  | |- grows (get_method_id _ _ _ _) => apply grows_method
  | |- grows (new_byte_array_zero _) => apply grows_new_zeroes
  | |- grows (new_object_array _) => apply grows_new_sized
  | |- grows (set_object_array_element _ _ _) => apply grows_set_element
  | |- grows (set_bytes _ _) => apply grows_set_bytes
  | |- grows (set_field _ _ _) => apply grows_set_field
  | |- grows (set_static _ _ _) => by apply grows_modify
  | |- grows (call_method _ _ _ _ _) => apply grows_call_method; auto
  | |- grows _ => apply grows_new_of
  end.
Ltac driver_op :=
  cbv zeta;
  lazymatch goal with
  | |- tgrows _ (mbind _ _) => apply tgrows_bind; [driver_op|intros; driver_op]
  | |- tgrows _ (on_jrt _) => apply wgrows_on_jrt; table_op
  | |- tgrows _ (in_world _) => apply sgrows_in_world; driver_op
  | |- tgrows _ (try_catch _ _) => apply tgrows_try; driver_op
  | |- tgrows _ (lift _) => apply tgrows_lift
  | |- tgrows _ (mret _) => apply tgrows_ret
  | |- tgrows _ skip => apply tgrows_ret
  | |- tgrows _ get => apply tgrows_get
  | |- tgrows _ jrt => apply tgrows_gets
  | |- tgrows _ (w_notify _ _) => by apply tgrows_modify
  | |- tgrows _ (match ?x with _ => _ end) => destruct x eqn:?; driver_op
  | |- tgrows _ _ => solve [eauto]
  end.

Lemma wgrows_define_class name : wgrows (define_class dex_ env_ native_run on_resolve_class name).
Proof. unfold define_class, define_native. driver_op. Qed.
Lemma wgrows_art_try m st a : wgrows (art_try dex_ env_ art_chain native_run on_resolve_class m st a).
Proof. pose proof wgrows_define_class. unfold art_try. driver_op. Qed.
Lemma wgrows_outside m st a :
  wgrows (invoke_outside dex_ env_ art_chain observe run_host native_run on_resolve_class m st a).
Proof. pose proof wgrows_art_try. unfold invoke_outside, call_native, call_framework. driver_op. Qed.

Lemma sgrows_guarded g n kind midx a :
  (forall c args, sgrows (g c args)) ->
  sgrows (invoke_guarded dex_ env_ art_chain entry_class observe run_host native_run on_resolve_class g n kind midx a).
Proof.
  intros Hg. pose proof wgrows_art_try. pose proof wgrows_outside.
  revert a. induction n as [|n IH]; intros a; cbn [invoke_guarded]; [apply tgrows_lift|].
  unfold invoke_resolved, invoke_super, interpret. driver_op.
Qed.

(** The interpreter, by the relation of [Dalvik] between hosts. *)
#[local] Abbreviation keeps := (fun (A : Type) (m _ : M St A) => sgrows m).
#[local] Instance keeps_seq : Sequential keeps.
Proof. constructor; [intros A o; apply tgrows_lift|]. intros A B m _ f _ Hm Hf. by apply tgrows_bind. Qed.

Lemma wire_keeps g : (forall c args, sgrows (g c args)) -> host_rel keeps (wired g) (wired g).
Proof.
  intros Hg.
  constructor; cbn [wire on_invoke on_sget on_sput on_iget on_iput on_const_string on_new_instance
                    on_new_array on_array_length on_aget on_aput opt_rel].
  - intros kd mi a. by apply sgrows_guarded.
  - intros i. unfold l_sget. driver_op.
  - intros i v. unfold l_sput. driver_op.
  - intros o i. unfold l_iget. driver_op.
  - intros o i v. unfold l_iput. driver_op.
  - intros i. unfold l_const_string. driver_op.
  - intros i. unfold l_new_instance. driver_op.
  - intros i n. unfold l_new_array. driver_op.
  - intros a. unfold l_array_length. driver_op.
  - intros a i. unfold l_aget. driver_op.
  - intros a i v. unfold l_aput. driver_op.
Qed.

Lemma leave_keeps v : sgrows (leave v).
Proof. apply tgrows_bind; [by apply tgrows_modify|intros; apply tgrows_ret]. Qed.
Lemma loop_keeps h n c f : host_rel keeps h h -> sgrows (loop h (d_ dex_) n c f).
Proof.
  intros Hh. revert f. induction n as [|n IH]; intros f; cbn [loop]; [apply leave_keeps|].
  destruct (_ <=? _); [apply leave_keeps|]. apply tgrows_bind.
  - exact (step_rel keeps h h (d_ dex_) (insns_off c) f Hh).
  - intros [f'|v]; [apply IH|apply leave_keeps].
Qed.
Lemma invoke_at_keeps n c args : sgrows (invoke_at wired (d_ dex_) n c args).
Proof.
  revert c args. induction n as [|n IH]; intros c args; cbn [invoke_at]; [apply tgrows_lift|].
  unfold Dalvik.run. apply tgrows_bind; [apply tgrows_get|]. intros s.
  destruct (_ || _); [apply tgrows_ret|]. apply tgrows_bind; [by apply tgrows_modify|]. intros _. cbv zeta.
  apply tgrows_bind; [apply tgrows_lift|]. intros R0. by apply loop_keeps, wire_keeps.
Qed.
Lemma l_run_keeps nest cls name sig args :
  sgrows (l_run dex_ env_ art_chain entry_class observe run_host native_run on_resolve_class nest cls name sig args).
Proof.
  unfold l_run, l_run_code. cbv zeta. destruct (_ =? 0); [apply tgrows_ret|].
  apply tgrows_try; [|apply tgrows_ret]. apply tgrows_bind; [apply tgrows_lift|]. intros c. apply invoke_at_keeps.
Qed.

(** However the driven program behaves, interpreted or native, and however
    the run ends, the Java table is well formed afterwards and every handle handed out
    before still denotes what it denoted: nothing an application method does
    through the interpreter's callbacks recycles or retypes an object.  The
    natives and host methods are assumed to behave so themselves. *)
Lemma lifecycle_keeps_table nest cls app ctx (s : St) r s' :
  java_ok (lw_java (world s)) ->
  run_lifecycle dex_ env_ art_chain entry_class observe run_host native_run on_resolve_class nest cls app ctx s = (r, s') ->
  java_ok (lw_java (world s')) /\ extends (lw_java (world s)) (lw_java (world s')).
Proof.
  assert (sgrows (run_lifecycle dex_ env_ art_chain entry_class observe run_host native_run on_resolve_class
                    nest cls app ctx)) as Hg.
  { unfold run_lifecycle. repeat (apply tgrows_bind; [apply l_run_keeps|intros _]). apply tgrows_ret. }
  exact (Hg s r s').
Qed.

Lemma bind_eq_on {S A B} (m : M S A) (f f' : A -> M S B) s :
  (forall a s', m s = (Ret a, s') -> f a s' = f' a s') -> (m ≫= f) s = (m ≫= f') s.
Proof. intros Hf. unfold mbind, M_mbind, M_bind. destruct (m s) as [[a|e|] s'] eqn:E; [by apply Hf|done..]. Qed.

(** The null-name guard replaces at most one name: the string it puts there
    is an object, and so not null; allowing more rounds changes nothing. *)
Lemma guard_once n g kind midx a (s : St) :
  java_ok (lw_java (world s)) ->
  invoke_guarded dex_ env_ art_chain entry_class observe run_host native_run on_resolve_class g (2 + n) kind midx a s =
  l_invoke dex_ env_ art_chain entry_class observe run_host native_run on_resolve_class g kind midx a s.
Proof.
  intros Hs. unfold l_invoke. cbn [invoke_guarded Nat.add]. destruct (_ && _ && _) eqn:Eg; [|done].
  apply andb_true_iff in Eg as [_ Eg%bool_decide_eq_true].
  apply bind_eq_on. intros h s1 E. unfold in_world, on_jrt in E.
  destruct (new_string_utf entry_class (lw_java (world s))) as [o j] eqn:E0. injection E as -> _.
  destruct (new_of_run _ _ _ _ _ Hs E0) as (Hj & _ & r & Hr & _). destruct (jo_shadow _ Hj _ _ Hr) as (Hb & _ & _).
  assert (forall i, (<[i := h]> a) !! i <> Some 0) as Hne.
  { intros i [[_ [Hi _]]|[Hi _]]%list_lookup_insert_Some; [unfold kJavaBase in Hb; lia|done]. }
  assert (name_arg (is_kind kind Static) (<[name_arg (is_kind kind Static) a := h]> a)
          = name_arg (is_kind kind Static) a) as -> by (unfold name_arg; by rewrite length_insert).
  rewrite (bool_decide_eq_false_2 _ (Hne _)). by rewrite !andb_false_r.
Qed.
End LifecycleTables.

(** ** Examples *)

(** An application class [A] that calls its own [onCreate] until it is cut
    off, and whose superclass [B] creates an object in [attachBaseContext]. *)
Definition demo_class_a : ClassDef :=
  mkClassDef (bs "LA;") (bs "LB;") 1 0 [] [mkMethod (bs "LA;") (bs "onCreate") (bs "V") 1 0x60].
Definition demo_class_b : ClassDef :=
  mkClassDef (bs "LB;") (bs "Landroid/app/Application;") 1 0 []
    [mkMethod (bs "LB;") (bs "attachBaseContext") (bs "VL") 1 0x80].
Definition demo_image : list Z :=
  [0x40; 0; 0; 0; 0x48; 0; 0; 0; 0x58; 0; 0; 0; 0; 0; 0; 0;       (* string_ids *)
   0; 0; 0; 0; 2; 0; 0; 0; 0; 0; 0; 0; 0; 0; 0; 0;                (* type_ids, proto_ids *)
   0; 0; 0; 0; 1; 0; 0; 0] ++ replicate 24 0 ++                   (* method_ids *)
  [3] ++ bs "LA;" ++ [0; 0; 0; 0] ++ [8] ++ bs "onCreate" ++ replicate 7 0 ++ [1] ++ bs "V" ++ replicate 6 0 ++
  [1; 0; 1; 0; 1; 0; 0; 0; 0; 0; 0; 0; 4; 0; 0; 0;                (* onCreate *)
   0x6e; 0x10; 0; 0; 0; 0; 0x0e; 0] ++ replicate 8 0 ++
  [3; 0; 2; 0; 0; 0; 0; 0; 0; 0; 0; 0; 3; 0; 0; 0;                (* attachBaseContext *)
   0x22; 0; 0; 0; 0x0e; 0].
Definition demo_app : DexFile :=
  mkDexFile demo_image true "" 0 3 0x10 1 0x14 1 0 0 0x20 1 0 2 [demo_class_a; demo_class_b].

#[local] Abbreviation DJ := (JavaRuntime RefUc Empty_set).
#[local] Abbreviation DW := (LWorld RefUc Empty_set).
Definition demo_observe (o n s : jstring) (a : list DvmValue) (handled : bool) : M DJ unit := skip.
Definition demo_host (f : Empty_set) (self : Z) (a : list DvmValue) : M DJ DvmValue := mret DVoid.
Definition demo_native (fn : Z) (args : list Z) : M DW Z := mret 0.
Definition demo_app_obj : DJ := snd (new_object (bs "A") (init_java demo_mem0)).
Definition demo_state : DState DW := mkDState 0 (mkLWorld demo_app_obj [] [] []).
#[local] Abbreviation demo_run :=
  (l_run demo_app 0 false [] demo_observe demo_host demo_native None).
#[local] Abbreviation demo_lifecycle :=
  (run_lifecycle demo_app 0 false [] demo_observe demo_host demo_native None).

Lemma find_code_spec_witness :
  find_code demo_app (bs "LA;") (bs "attachBaseContext") (bs "VL") = 0x80 /\
  exists n, (n < 8)%nat /\ resolves demo_app (bs "attachBaseContext") (bs "VL") 0x80 n (bs "LA;").
Proof.
  assert (find_code demo_app (bs "LA;") (bs "attachBaseContext") (bs "VL") = 0x80) as E by (vm_compute; reflexivity).
  split; [exact E|]. exact (proj1 (find_code_spec demo_app _ _ _ 0x80 ltac:(discriminate)) E).
Defined.

Lemma lifecycle_bounded_witness :
  fst (demo_run 1000 (bs "LA;") (bs "onCreate") (bs "V") [kJavaBase] demo_state) = Ret 0.
Proof.
  rewrite (lifecycle_bounded demo_app 0 false [] demo_observe demo_host demo_native None 1000
             (bs "LA;") (bs "onCreate") (bs "V") [kJavaBase] demo_state ltac:(lia) ltac:(simpl; lia)).
  vm_compute. reflexivity.
Defined.

Lemma demo_app_ok : java_ok demo_app_obj.
Proof.
  refine (proj1 (grows_new_of _ _ (init_java demo_mem0) _ _ _ (surjective_pairing _))).
  apply init_java_ok. left. reflexivity.
Qed.
Lemma lifecycle_keeps_table_witness :
  let s' := snd (demo_lifecycle 65 (bs "LA;") kJavaBase 0 demo_state) in
  map_size (handles_ (lw_java (world s'))) <> map_size (handles_ demo_app_obj) /\
  extends demo_app_obj (lw_java (world s')).
Proof.
  intros s'. split; [vm_compute; discriminate|].
  refine (proj2 (lifecycle_keeps_table demo_app 0 false [] demo_observe demo_host demo_native None
    _ _ _ _ 65 (bs "LA;") kJavaBase 0 demo_state _ s' demo_app_ok (surjective_pairing _))).
  - intros o n s a b. apply grows_ret.
  - intros [].
  - intros fn args. apply tgrows_ret.
  - discriminate.
Defined.

(** Every array of a primitive type is a byte array: of an [int] stored into
    [int[1]] only the low byte is read back. *)
Definition demo_ints : DexFile :=
  mkDexFile ([8; 0; 0; 0; 0; 0; 0; 0; 2] ++ bs "[I" ++ [0]) true "" 0 1 4 1 0 0 0 0 0 0 0 0 [].
Example int_array_truncates :
  fst ((arr ← l_new_array demo_ints 0 1; _ ← l_aput arr 0 300; l_aget arr 0) (world demo_state)) = Ret 44.
Proof. vm_compute. reflexivity. Qed.

(** A wide argument takes two registers but one letter of the shorty: for
    [f(long, int)] called with 5 in a pair and 7 after it, the framework is
    given the other half of the pair as the [int]. *)
Example wide_argument_shifts : shorty_values (bs "VJI") [5; 0; 7] = [DInt 5; DInt 0].
Proof. reflexivity. Qed.

(** [Class.forName(name, true, null)]: the argument a static call is checked
    for is the last one, the loader. *)
Example for_name_null_loader name : [name; 1; 0] !! name_arg true [name; 1; 0] = Some 0.
Proof. reflexivity. Qed.
