(* ===== verification/Vfs.v ===== *)
(** The in-memory file system: [core/android/vfs.cpp],
    [include/vardoger/android/vfs.hpp].

    Paths are strings, contents byte lists.  The provider of synthetic files
    is a parameter; the write observer's calls are kept as a log.  Handles are
    copied by value, as in the code: two handles share a path, never a
    position. *)

From S2P Require Import Prelude.
From S2P Require Import Words.
From stdpp Require Import strings sorting.
From Stdlib Require Import Ascii.
#[local] Open Scope Z_scope.

Definition kWrOnly : Z := 1.
Definition kRdWr : Z := 2.
Definition kCreat : Z := 64.
Definition kTrunc : Z := 512.
Definition kAppend : Z := 1024.

Definition has_flag (flags f : Z) : bool := negb (Z.land flags f =? 0).
Definition wants_write (flags : Z) : bool :=
  has_flag flags (Z.lor kWrOnly kRdWr) || has_flag flags kCreat.

Record Handle := mkHandle {
  h_path : string;
  snapshot : list Z;
  pos : Z;
  writable : bool;
  synthetic : bool;
  dirty : bool;
}.

Record Vfs := mkVfs {
  store_ : gmap string (list Z);
  dirs_ : gset string;
  handles_ : gmap Z Handle;
  next_fd_ : Z;
  observing : bool;                        (* [on_write_] is set *)
  observed : list (string * list Z);       (* its calls, oldest first *)
}.

Definition init_vfs (observing : bool) : Vfs := mkVfs ∅ ∅ ∅ 3 observing [].

Definition set_store (v : Vfs) s : Vfs :=
  mkVfs s (dirs_ v) (handles_ v) (next_fd_ v) (observing v) (observed v).
Definition set_dirs (v : Vfs) s : Vfs :=
  mkVfs (store_ v) s (handles_ v) (next_fd_ v) (observing v) (observed v).
Definition set_handles (v : Vfs) hs : Vfs :=
  mkVfs (store_ v) (dirs_ v) hs (next_fd_ v) (observing v) (observed v).
Definition set_next (v : Vfs) n : Vfs :=
  mkVfs (store_ v) (dirs_ v) (handles_ v) n (observing v) (observed v).

(** ** Paths *)

Definition add_file (path : string) (content : list Z) : M Vfs unit :=
  modify (fun v => set_store v (<[path := content]> (store_ v))).

(** [while (p.size() > 1 && p.back() == '/') p.pop_back();] on the reversed
    characters. *)
Fixpoint trim_rev (l : list ascii) : list ascii :=
  match l with
  | c :: ((_ :: _) as r) => if Ascii.eqb c "/" then trim_rev r else l
  | _ => l
  end.
Definition trim_path (p : string) : string :=
  String.string_of_list_ascii (rev (trim_rev (rev (String.list_ascii_of_string p)))).

Definition add_dir (path : string) : M Vfs unit :=
  let p := trim_path path in
  if String.eqb p "" then skip else modify (fun v => set_dirs v ({[p]} ∪ dirs_ v)).

(** [store_.lower_bound(p)]: the least key not below [p]. *)
Definition lower_bound (p : string) (s : gmap string (list Z)) : option string :=
  head (filter (String.le p) (merge_sort String.le (map_to_list s).*1)).

Definition is_dir (v : Vfs) (path : string) : bool :=
  let p := trim_path path in
  bool_decide (p ∈ dirs_ v)
  || match lower_bound (p +:+ "/") (store_ v) with
     | Some k => String.prefix (p +:+ "/") k
     | None => false
     end.

Section Provider.
(** [provider_], when it is set. *)
Context (provider : option (string -> option (list Z))).

Definition provided (path : string) : option (list Z) :=
  match provider with Some f => f path | None => None end.

Definition exists_ (v : Vfs) (path : string) : bool :=
  bool_decide (is_Some (store_ v !! path)) || is_dir v path
  || bool_decide (is_Some (provided path)).

Definition unlink (path : string) : M Vfs bool :=
  v ← get; put (set_store v (delete path (store_ v)));;
  mret (bool_decide (is_Some (store_ v !! path))).

Definition content (v : Vfs) (path : string) : option (list Z) := store_ v !! path.

Definition data_of (v : Vfs) (h : Handle) : list Z :=
  if synthetic h then snapshot h else default [] (store_ v !! h_path h).

(** ** Handles *)

(** [const int fd = next_fd_++; handles_[fd] = h;] *)
Definition new_handle (h : Handle) : M Vfs Z :=
  v ← get;
  let fd := next_fd_ v in
  if fd =? 2 ^ 31 - 1 then lift UB else
  put (set_handles (set_next v (fd + 1)) (<[fd := h]> (handles_ v)));; mret fd.

Definition open (path : string) (flags : Z) : M Vfs Z :=
  v ← get;
  if wants_write flags then
    let c := match store_ v !! path with
             | None => []
             | Some c => if has_flag flags kTrunc then [] else c
             end in
    put (set_store v (<[path := c]> (store_ v)));;
    new_handle (mkHandle path [] (if has_flag flags kAppend then zlen c else 0) true false false)
  else if bool_decide (is_Some (store_ v !! path)) then
    new_handle (mkHandle path [] 0 false false false)
  else match provided path with
       | Some c => new_handle (mkHandle "" c 0 false true false)
       | None => mret 0
       end.

Definition is_open (v : Vfs) (fd : Z) : bool := bool_decide (is_Some (handles_ v !! fd)).

Definition dup (oldfd : Z) : M Vfs Z :=
  v ← get;
  match handles_ v !! oldfd with
  | None => mret 0
  | Some h => new_handle h
  end.

Definition close (fd : Z) : M Vfs unit :=
  v ← get;
  match handles_ v !! fd with
  | None => skip
  | Some h =>
      let hs := delete fd (handles_ v) in
      if writable h && dirty h && observing v then
        let d := default [] (store_ v !! h_path h) in
        put (mkVfs (<[h_path h := d]> (store_ v)) (dirs_ v) hs (next_fd_ v) (observing v)
                   (observed v ++ [(h_path h, d)]))
      else put (set_handles v hs)
  end.

Definition dup2 (oldfd newfd : Z) : M Vfs Z :=
  v ← get;
  match handles_ v !! oldfd with
  | None => mret (-1)
  | Some h =>
      if oldfd =? newfd then mret newfd else
      close newfd;;
      modify (fun v => set_handles v (<[newfd := h]> (handles_ v)));;
      n ← gets next_fd_;
      (if n <=? newfd
       then if newfd =? 2 ^ 31 - 1 then lift UB else modify (fun v => set_next v (newfd + 1))
       else skip);;
      mret newfd
  end.

Definition set_pos (h : Handle) (p : Z) : Handle :=
  mkHandle (h_path h) (snapshot h) p (writable h) (synthetic h) (dirty h).
Definition put_handle (fd : Z) (h : Handle) : M Vfs unit :=
  modify (fun v => set_handles v (<[fd := h]> (handles_ v))).

(** [out] is the caller's string; [assign] throws when the position is past
    the end. *)
Definition read (fd : Z) (out : list Z) (n : Z) : M Vfs (list Z * Z) :=
  v ← get;
  match handles_ v !! fd with
  | None => mret (out, 0)
  | Some h =>
      let src := data_of v h in
      let avail := if pos h <? zlen src then zlen src - pos h else 0 in
      let tk := Z.min n avail in
      if zlen src <? pos h then throw "basic_string::assign: __pos > this->size()" else
      put_handle fd (set_pos h (pos h + tk));;
      mret (take (Z.to_nat tk) (drop (Z.to_nat (pos h)) src), tk)
  end.

(** [dst.resize(n, 0)] when it grows. *)
Definition grow (dst : list Z) (n : Z) : list Z :=
  if zlen dst <? n then dst ++ replicate (Z.to_nat (n - zlen dst)) 0 else dst.

Definition write (fd : Z) (data : list Z) : M Vfs Z :=
  v ← get;
  match handles_ v !! fd with
  | None => mret 0
  | Some h =>
      if negb (writable h) then mret 0 else
      let n := zlen data in
      let dst := grow (default [] (store_ v !! h_path h)) (u64 (pos h + n)) in
      dst' ← lift (if n =? 0 then Ret dst else or_ub (blit dst (pos h) data));
      modify (fun v => set_store v (<[h_path h := dst']> (store_ v)));;
      put_handle fd (mkHandle (h_path h) (snapshot h) (u64 (pos h + n)) true (synthetic h) true);;
      mret n
  end.

(** Up to [k] bytes, through the first newline. *)
Fixpoint take_line (k : nat) (l : list Z) : list Z :=
  match k, l with
  | S k, c :: r => if c =? 10 then [c] else c :: take_line k r
  | _, _ => []
  end.

Definition gets_ (fd : Z) (line : list Z) (max : Z) : M Vfs (list Z * bool) :=
  v ← get;
  match handles_ v !! fd with
  | None => mret (line, false)
  | Some h =>
      if max =? 0 then mret (line, false) else
      let src := data_of v h in
      if zlen src <=? pos h then mret (line, false) else
      let l := take_line (Z.to_nat (Z.min (max - 1) (zlen src))) (drop (Z.to_nat (pos h)) src) in
      put_handle fd (set_pos h (pos h + zlen l));; mret (l, true)
  end.

Definition size_ (v : Vfs) (fd : Z) : Z :=
  match handles_ v !! fd with Some h => zlen (data_of v h) | None => 0 end.
Definition tell (v : Vfs) (fd : Z) : Z :=
  match handles_ v !! fd with Some h => pos h | None => 0 end.

Definition seek (fd p : Z) : M Vfs unit :=
  v ← get;
  match handles_ v !! fd with
  | None => skip
  | Some h => put_handle fd (set_pos h (Z.min p (zlen (data_of v h))))
  end.
End Provider.

(** ** Directories *)

Lemma prefix_le q k : String.prefix q k = true -> String.le q k.
Proof.
  unfold String.le, String.leb. revert k. induction q as [|c q IH]; intros k Hk; [by destruct k|].
  destruct k as [|d k]; [done|]. cbn [String.prefix String.compare] in *.
  destruct (ascii_dec c d) as [<-|]; [|done].
  unfold Ascii.compare. rewrite N.compare_refl. by apply IH.
Qed.

(** Between a prefix and a string that has it, every string has it. *)
Lemma prefix_between q j k :
  String.prefix q k = true -> String.le q j -> String.le j k -> String.prefix q j = true.
Proof.
  unfold String.le, String.leb. revert j k. induction q as [|c q IH]; intros j k Hk Hqj Hjk; [by destruct j|].
  destruct k as [|d k]; [done|]. destruct j as [|e j]; [done|].
  cbn [String.prefix String.compare] in *. destruct (ascii_dec c d) as [<-|]; [|done].
  destruct (Ascii.compare c e) eqn:E1; [|by rewrite Ascii.compare_antisym, E1 in Hjk|done].
  apply Ascii.compare_eq_iff in E1 as <-. unfold Ascii.compare in Hjk. rewrite N.compare_refl in Hjk.
  destruct (ascii_dec c c); [|done]. by eapply IH.
Qed.

Lemma head_filter_sorted p l :
  StronglySorted String.le l ->
  match head (filter (String.le p) l) with
  | Some j => j ∈ l /\ String.le p j /\ forall k, k ∈ l -> String.le p k -> String.le j k
  | None => forall k, k ∈ l -> ~ String.le p k
  end.
Proof.
  induction 1 as [|j l Hs IH Hj]; [by intros k Hk%not_elem_of_nil|]. rewrite filter_cons.
  destruct (decide (String.le p j)) as [Hp|Hp]; simpl.
  - split; [by left|]. split; [done|]. intros k [->|Hk]%elem_of_cons _; [done|].
    by eapply Forall_forall in Hj.
  - destruct (head _) as [i|].
    + destruct IH as (Hi & Hpi & Hle). split; [by right|]. split; [done|].
      intros k [->|Hk]%elem_of_cons Hpk; [done|by apply Hle].
    + intros k [->|Hk]%elem_of_cons; [done|by apply IH].
Qed.

Lemma lower_bound_spec p s :
  match lower_bound p s with
  | Some j => is_Some (s !! j) /\ String.le p j /\
              forall k, is_Some (s !! k) -> String.le p k -> String.le j k
  | None => forall k, is_Some (s !! k) -> ~ String.le p k
  end.
Proof.
  unfold lower_bound. set (l := merge_sort String.le (map_to_list s).*1).
  assert (forall k, k ∈ l <-> is_Some (s !! k)) as Hl.
  { intros k. unfold l. rewrite merge_sort_Permutation, list_elem_of_fmap. split.
    - intros ([k' a] & -> & Hk%elem_of_map_to_list). by exists a.
    - intros [a Ha]. exists (k, a). by rewrite elem_of_map_to_list. }
  assert (StronglySorted String.le l) as Hs by (apply (StronglySorted_merge_sort String.le)).
  pose proof (head_filter_sorted p l Hs) as Hh. destruct (head _) as [j|].
  - destruct Hh as (Hj & Hp & Hle). rewrite Hl in Hj. split; [done|]. split; [done|].
    intros k Hk. apply Hle. by apply Hl.
  - intros k Hk. apply Hh. by apply Hl.
Qed.

(** A path is a directory exactly when it was registered, up to trailing
    slashes, or some stored file lies below it; the single lower-bound lookup
    finds such a file whenever there is one. *)
Lemma is_dir_spec v path :
  is_dir v path = true <->
  trim_path path ∈ dirs_ v \/
  exists k, is_Some (store_ v !! k) /\ String.prefix (trim_path path +:+ "/") k = true.
Proof.
  unfold is_dir. rewrite orb_true_iff, bool_decide_eq_true.
  pose proof (lower_bound_spec (trim_path path +:+ "/") (store_ v)) as Hb.
  destruct (lower_bound _ _) as [j|].
  - destruct Hb as (Hj & Hp & Hle). split; intros [?|Hk]; [by left|right; by exists j|by left|right].
    destruct Hk as (k & Hk & Hpre). eapply prefix_between; [exact Hpre|done|].
    apply Hle; [done|]. by apply prefix_le.
  - split; intros [?|Hk]; [by left|done|by left|].
    destruct Hk as (k & Hk & Hpre). exfalso. apply (Hb k Hk). by apply prefix_le.
Qed.

(** ** Descriptors *)

(** Every open descriptor is below the next one, positions are not negative. *)
Definition vfs_wf (v : Vfs) : Prop :=
  3 <= next_fd_ v < 2 ^ 31 /\
  map_Forall (fun fd h => fd < next_fd_ v /\ 0 <= pos h) (handles_ v).

Section Reachable.
Context (provider : option (string -> option (list Z))).

(** One call from outside, however it ends. *)
Inductive vfs_step (v : Vfs) : Vfs -> Prop :=
| s_add p c : vfs_step v (snd (add_file p c v))
| s_add_dir p : vfs_step v (snd (add_dir p v))
| s_unlink p : vfs_step v (snd (unlink p v))
| s_open p fl : vfs_step v (snd (open provider p fl v))
| s_dup fd : vfs_step v (snd (dup fd v))
| s_dup2 a b : b < 2 ^ 31 - 1 -> vfs_step v (snd (dup2 a b v))
| s_read fd o n : 0 <= n -> vfs_step v (snd (read fd o n v))
| s_write fd d : vfs_step v (snd (write fd d v))
| s_gets fd l m : vfs_step v (snd (gets_ fd l m v))
| s_seek fd p : 0 <= p -> vfs_step v (snd (seek fd p v))
| s_close fd : vfs_step v (snd (close fd v)).

Lemma wf_frame v v' :
  vfs_wf v -> handles_ v' = handles_ v -> next_fd_ v' = next_fd_ v -> vfs_wf v'.
Proof. unfold vfs_wf. by intros ? -> ->. Qed.

Lemma wf_put v fd h :
  vfs_wf v -> is_Some (handles_ v !! fd) -> 0 <= pos h -> vfs_wf (set_handles v (<[fd := h]> (handles_ v))).
Proof.
  intros [Hn Hh] [h0 H0] Hp. split; [done|]. apply map_Forall_insert_2; [|done].
  split; [by apply (Hh fd h0)|done].
Qed.

Lemma wf_new h v : vfs_wf v -> 0 <= pos h -> vfs_wf (snd (new_handle h v)).
Proof.
  intros [Hn Hh] Hp. unfold new_handle. rewrite bind_get.
  destruct (Z.eqb_spec (next_fd_ v) (2 ^ 31 - 1)); [done|]. simpl. split; simpl; [lia|].
  apply map_Forall_insert_2; [split; [lia|done]|].
  intros k x Hk. destruct (Hh k x Hk). split; [lia|done].
Qed.

Lemma wf_close fd v : vfs_wf v -> vfs_wf (snd (close fd v)).
Proof.
  intros Hw. unfold close. rewrite bind_get. destruct (handles_ v !! fd) as [h|]; [|done].
  destruct Hw as [Hn Hh]. destruct (_ && _); (split; [done|]); by apply map_Forall_delete.
Qed.

Lemma close_next fd v : next_fd_ (snd (close fd v)) = next_fd_ v.
Proof.
  unfold close. rewrite bind_get. destruct (handles_ v !! fd); [|done]. by destruct (_ && _).
Qed.

Lemma close_ret fd v : close fd v = (Ret tt, snd (close fd v)).
Proof.
  unfold close. rewrite bind_get. destruct (handles_ v !! fd); [|done]. by destruct (_ && _).
Qed.

Lemma wf_dup2 a b v : b < 2 ^ 31 - 1 -> vfs_wf v -> vfs_wf (snd (dup2 a b v)).
Proof.
  intros Hb Hw. unfold dup2. rewrite bind_get. destruct (handles_ v !! a) as [h|] eqn:Ea; [|done].
  destruct (a =? b); [done|].
  assert (0 <= pos h) as Hp by (by apply (proj2 Hw a)).
  pose proof (wf_close b v Hw) as [H1 H2].
  rewrite (bind_run _ _ _ _ _ (close_ret b v)), bind_modify, bind_gets. simpl next_fd_.
  rewrite (proj2 (Z.eqb_neq b _)) by lia.
  destruct (Z.leb_spec (next_fd_ (snd (close b v))) b); split; simpl; try lia;
    (apply map_Forall_insert_2; [split; [lia|done]|]);
    intros k x Hk; destruct (H2 k x Hk); split; (lia || done).
Qed.

Lemma wf_open p fl v : vfs_wf v -> vfs_wf (snd (open provider p fl v)).
Proof.
  intros Hw. unfold open. rewrite bind_get. destruct (wants_write fl).
  - match goal with |- vfs_wf (snd ((put ?w;; new_handle ?h) v)) =>
      change (vfs_wf (snd (new_handle h w))) end.
    apply wf_new; [by eapply wf_frame|]. simpl. pose proof (@zlen_nonneg Z). destruct (has_flag _ _); [done|lia].
  - destruct (bool_decide _); [by apply wf_new|].
    destruct (provided provider p); [by apply wf_new|done].
Qed.

Lemma wf_write fd d v : vfs_wf v -> vfs_wf (snd (write fd d v)).
Proof.
  intros Hw. unfold write. rewrite bind_get. destruct (handles_ v !! fd) as [h|] eqn:E; [|done].
  destruct (negb _); [done|]. destruct (if _ =? 0 then _ else _) as [dst|e|]; [|done..].
  rewrite bind_lift_ret, bind_modify.
  match goal with |- vfs_wf (snd ((put_handle fd ?h';; _) ?w)) =>
    change (vfs_wf (set_handles w (<[fd := h']> (handles_ w)))) end.
  apply wf_put; [by eapply wf_frame|by exists h|]. apply u64_range.
Qed.

Lemma vfs_step_wf v v' : vfs_wf v -> vfs_step v v' -> vfs_wf v'.
Proof.
  intros Hw Hs. destruct Hs as [p c|p|p|p fl|fd|a b Hb|fd o n Hn|fd d|fd l m|fd p Hp|fd].
  - by eapply wf_frame.
  - unfold add_dir. destruct (String.eqb _ _); by eapply wf_frame.
  - by eapply wf_frame.
  - by apply wf_open.
  - unfold dup. rewrite bind_get. destruct (handles_ v !! fd) as [h|] eqn:E; [|done].
    apply wf_new; [done|]. by apply (proj2 Hw fd).
  - by apply wf_dup2.
  - unfold read. rewrite bind_get. destruct (handles_ v !! fd) as [h|] eqn:E; [|done].
    destruct (_ <? pos h); [done|]. apply wf_put; [done|by exists h|].
    pose proof (proj2 Hw fd h E) as [_ ?]. simpl. destruct (_ <? _) eqn:El; bool_to_Prop; lia.
  - by apply wf_write.
  - unfold gets_. rewrite bind_get. destruct (handles_ v !! fd) as [h|] eqn:E; [|done].
    destruct (_ =? 0); [done|]. destruct (_ <=? pos h); [done|]. apply wf_put; [done|by exists h|].
    pose proof (proj2 Hw fd h E) as [_ ?]. simpl. pose proof (@zlen_nonneg Z).
    match goal with |- 0 <= _ + zlen ?l => pose proof (zlen_nonneg l) end. lia.
  - unfold seek. rewrite bind_get. destruct (handles_ v !! fd) as [h|] eqn:E; [|done].
    apply wf_put; [done|by exists h|]. simpl. pose proof (zlen_nonneg (data_of v h)). lia.
  - by apply wf_close.
Qed.

(** In every state the file system can reach, a descriptor [open] hands
    out is at least 3, was not open before, and leaves every other open
    descriptor alone. *)
Lemma open_fresh b v path flags fd v' :
  star vfs_step (init_vfs b) v -> open provider path flags v = (Ret fd, v') -> fd <> 0 ->
  3 <= fd /\ handles_ v !! fd = None /\ is_open v' fd = true /\
  forall k, k <> fd -> handles_ v' !! k = handles_ v !! k.
Proof.
  intros Hs Ho Hne.
  assert (vfs_wf v) as [Hn Hh].
  { eapply star_invariant; [apply vfs_step_wf| |exact Hs]. split; simpl; [lia|]. apply map_Forall_empty. }
  assert (handles_ v !! next_fd_ v = None) as Hnone.
  { destruct (handles_ v !! next_fd_ v) as [h|] eqn:E; [|done]. destruct (Hh _ _ E). lia. }
  assert (forall w h, handles_ w = handles_ v -> next_fd_ w = next_fd_ v ->
    new_handle h w = (Ret fd, v') ->
    3 <= fd /\ handles_ v !! fd = None /\ is_open v' fd = true /\
    forall k, k <> fd -> handles_ v' !! k = handles_ v !! k) as Hnew.
  { intros w h E1 E2. unfold new_handle. rewrite bind_get. destruct (_ =? _); [done|].
    intros [= <- <-]. rewrite E2. unfold is_open. simpl. rewrite E1.
    split; [lia|]. split; [done|]. split; [by rewrite lookup_insert_eq|].
    intros k Hk. by rewrite lookup_insert_ne. }
  revert Ho. unfold open. rewrite bind_get. destruct (wants_write flags).
  - intros Ho. by eapply Hnew, Ho.
  - destruct (bool_decide _); [intros Ho; by eapply Hnew, Ho|].
    destruct (provided provider path); [intros Ho; by eapply Hnew, Ho|]. by intros [= <- _].
Qed.
End Reachable.

(** ** Writing and reading back *)

(** [data] written over [old] at [p], the gap in between filled with zeros. *)
Definition overlay (old : list Z) (p : Z) (data : list Z) : list Z :=
  take (Z.to_nat p) (old ++ replicate (Z.to_nat p - length old) 0)
  ++ data ++ drop (Z.to_nat p + length data) old.

Lemma grow_blit old p data :
  0 <= p ->
  (if zlen data =? 0 then Ret (grow old (p + zlen data))
   else or_ub (blit (grow old (p + zlen data)) p data)) = Ret (overlay old p data).
Proof.
  intros Hp. unfold grow, overlay, zlen.
  assert (forall n, n = (length data)%nat -> Z.of_nat n = 0 -> data = []) as Hnil
    by (intros n -> Hz; destruct data; [done|simpl in Hz; lia]).
  destruct (Z.ltb_spec (Z.of_nat (length old)) (p + Z.of_nat (length data))) as [Hlt|Hge].
  - rewrite (drop_ge old) by lia. rewrite app_nil_r.
    destruct (Z.eqb_spec (Z.of_nat (length data)) 0) as [Hz|Hz].
    + rewrite (Hnil _ eq_refl Hz), app_nil_r. f_equal. simpl length. rewrite take_ge.
      * do 2 f_equal. lia.
      * rewrite length_app, length_replicate. lia.
    + set (k := Z.to_nat (p + Z.of_nat (length data) - Z.of_nat (length old))).
      rewrite blit_ok; [|done|unfold zlen; rewrite length_app, length_replicate; unfold k; lia].
      simpl. f_equal. f_equal.
      * rewrite !take_app, !take_replicate. do 2 f_equal. unfold k. lia.
      * rewrite drop_ge, app_nil_r; [done|]. rewrite length_app, length_replicate. unfold k. lia.
  - assert (Z.to_nat p - length old = 0)%nat as -> by lia. rewrite app_nil_r.
    destruct (Z.eqb_spec (Z.of_nat (length data)) 0) as [Hz|Hz].
    + rewrite (Hnil _ eq_refl Hz). simpl. rewrite Nat.add_0_r, take_drop. done.
    + by rewrite blit_ok by (unfold zlen; lia).
Qed.

Lemma overlay_read old p data :
  0 <= p -> take (length data) (drop (Z.to_nat p) (overlay old p data)) = data /\
            p + zlen data <= zlen (overlay old p data).
Proof.
  intros Hp. unfold overlay, zlen.
  assert (length (take (Z.to_nat p) (old ++ replicate (Z.to_nat p - length old) 0)) = Z.to_nat p) as Hl
    by (rewrite length_take, length_app, length_replicate; lia).
  split.
  - rewrite drop_app_length' by done. by rewrite take_app_length.
  - rewrite !length_app, Hl. lia.
Qed.

(** Writing through a descriptor puts the bytes at its position, zeros in
    any gap, and leaves the rest of that file and every other file alone;
    seeking back and reading gives exactly the bytes written. *)
Lemma write_read_back v fd h data :
  handles_ v !! fd = Some h -> writable h = true -> synthetic h = false ->
  0 <= pos h -> pos h + zlen data < 2 ^ 64 ->
  exists v1, write fd data v = (Ret (zlen data), v1) /\
    store_ v1 = <[h_path h := overlay (default [] (store_ v !! h_path h)) (pos h) data]> (store_ v) /\
    fst ((seek fd (pos h);; read fd [] (zlen data)) v1) = Ret (data, zlen data).
Proof.
  intros Hh Hw Hs Hp Hlt. pose proof (zlen_nonneg data) as Hd.
  set (c := overlay (default [] (store_ v !! h_path h)) (pos h) data).
  set (h1 := mkHandle (h_path h) (snapshot h) (pos h + zlen data) true (synthetic h) true).
  set (v0 := set_store v (<[h_path h := c]> (store_ v))).
  exists (set_handles v0 (<[fd := h1]> (handles_ v0))).
  destruct (overlay_read (default [] (store_ v !! h_path h)) (pos h) data Hp) as [Hr Hl]. fold c in Hr, Hl.
  split; [|split; [done|]].
  - unfold write. rewrite bind_get, Hh, Hw, u64_id by lia. cbn [negb]. rewrite grow_blit by done.
    by rewrite bind_lift_ret, bind_modify.
  - set (h2 := set_pos h1 (pos h)).
    set (w := set_handles v0 (<[fd := h2]> (<[fd := h1]> (handles_ v0)))).
    assert (data_of w h2 = c) as Ew.
    { unfold data_of. change (synthetic h2) with (synthetic h). rewrite Hs.
      change (store_ w !! h_path h2) with (<[h_path h := c]> (store_ v) !! h_path h).
      by rewrite lookup_insert_eq. }
    assert (seek fd (pos h) (set_handles v0 (<[fd := h1]> (handles_ v0))) = (Ret tt, w)) as Es.
    { unfold seek. rewrite bind_get. change (handles_ (set_handles v0 ?m)) with m. rewrite lookup_insert_eq.
      change (data_of _ h1) with (data_of w h2). rewrite Ew.
      unfold put_handle, w, h2. rewrite Z.min_l by lia. done. }
    rewrite (bind_run _ _ _ _ _ Es). unfold read. rewrite bind_get.
    change (handles_ w) with (<[fd := h2]> (<[fd := h1]> (handles_ v0))). rewrite lookup_insert_eq, Ew.
    change (pos h2) with (pos h). rewrite (proj2 (Z.ltb_ge _ _)) by lia.
    destruct (Z.ltb_spec (pos h) (zlen c)) as [Hc|Hc].
    + rewrite Z.min_l by lia. unfold put_handle. rewrite bind_modify. simpl.
      by rewrite zlen_to_nat, Hr.
    + assert (zlen data = 0) as Hz by lia. rewrite Hz. simpl.
      by rewrite (nil_length_inv data) by (unfold zlen in Hz; lia).
Qed.

(** ** Witnesses and examples *)

Definition run2 (p : option (string -> option (list Z))) : Vfs :=
  snd ((fd ← open p "/data/a" (kRdWr + kCreat); write fd [1; 2; 3; 4]) (init_vfs true)).

Lemma open_fresh_witness :
  fst (open None "/data/a" 0 (run2 None)) = Ret 4 /\ handles_ (run2 None) !! 4 = None.
Proof.
  assert (fst (open None "/data/a" 0 (run2 None)) = Ret 4) as E by (vm_compute; reflexivity).
  split; [exact E|].
  refine (proj1 (proj2 (open_fresh None true (run2 None) "/data/a" 0 4 _ _ _ _))).
  - apply (star_step _ _ _ _ (s_open None _ "/data/a" (kRdWr + kCreat))), star_one.
    apply (s_write None _ 3 [1; 2; 3; 4]).
  - rewrite <- E. apply surjective_pairing.
  - discriminate.
Defined.

(** Two bytes written behind a gap of the four-byte file. *)
Lemma write_read_back_witness :
  let h := mkHandle "/data/a" [] 6 true false true in
  let v := set_handles (run2 None) {[ 3 := h ]} in
  exists v1, write 3 [8; 9] v = (Ret 2, v1) /\ store_ v1 !! "/data/a" = Some [1; 2; 3; 4; 0; 0; 8; 9] /\
    fst ((seek 3 6;; read 3 [] 2) v1) = Ret ([8; 9], 2).
Proof.
  intros h v.
  destruct (write_read_back v 3 h [8; 9] eq_refl eq_refl eq_refl ltac:(done) ltac:(done))
    as (v1 & E1 & E2 & E3).
  exists v1. split; [exact E1|]. split; [|exact E3]. rewrite E2. vm_compute. reflexivity.
Defined.

(** Truncating a file under a reader that is past the new end makes its next
    read throw instead of returning nothing. *)
Example read_after_truncate_throws :
  fst ((open None "/data/a" (kWrOnly + kTrunc);; read 3 [] 1) (run2 None))
  = Throw "basic_string::assign: __pos > this->size()".
Proof. vm_compute. reflexivity. Qed.

(** A duplicated dirty descriptor reports the same file twice. *)
Example dup_reports_twice :
  (fun o => fst <$> observed (snd o)) ((dup 3;; close 3;; close 4) (run2 None))
  = ["/data/a"; "/data/a"].
Proof. vm_compute. reflexivity. Qed.

(** The root is trimmed to a slash and looked up as two: a file below it does
    not make it a directory. *)
Example root_not_dir :
  is_dir (snd (add_file "/a" [] (init_vfs false))) "/" = false /\
  is_dir (snd (add_file "/d/a" [] (init_vfs false))) "/d/" = true.
Proof. vm_compute. done. Qed.
