(* ===== verification/System.v ===== *)
(** What device this is: [core/android/system.cpp],
    [include/vardoger/android/system.hpp], and the identity record of
    [include/vardoger/android/android_env.hpp].

    The facade owns the properties, the process name, the file system, which
    falls through to the synthesized /proc files, and the clock.  [synth]
    reads the live region map and the guest's ELF headers, so it is a
    computation over the emulator that can throw. *)

From stdpp Require Import strings pretty.
From S2P Require Import Prelude.
From S2P Require Import Words.
From S2P Require Import Abi.
From S2P Require Import Unicorn.
From S2P Require Import Engine.
From S2P Require Import Memory.
From S2P Require Import CText.
From S2P Require Import Vfs.
From Stdlib Require Import Ascii.
#[local] Open Scope Z_scope.

Record DeviceIdentity := mkIdentity {
  package_name : string;
  apk_path : string;
  data_dir : string;
  native_lib_dir : string;
  model : string;
  manufacturer : string;
  fingerprint : string;
  sdk_int : Z;
  signing_cert : list Z;
}.
Definition default_identity : DeviceIdentity :=
  mkIdentity "com.victim.app" "/data/app/~~aB1==/com.victim.app-Xy2==/base.apk"
    "/data/user/0/com.victim.app/files" "/data/app/~~aB1==/com.victim.app-Xy2==/lib/arm64"
    "Pixel 6" "Google" "google/raven/raven:12/SQ3A.220705.004/8836240:user/release-keys" 31 [].

Record System := mkSystem {
  id_ : DeviceIdentity;
  props_ : gmap string string;
  progname_ : string;
  vfs_ : Vfs;
  clock_ns_ : Z;
  unix_epoch_ : Z;
  prop_observing : bool;                     (* [prop_observer_] is set *)
  prop_reads : list (string * string);       (* its calls, oldest first *)
}.

Definition initial_props (id : DeviceIdentity) : gmap string string := list_to_map [
  ("ro.product.model", model id); ("ro.product.real_model", model id);
  ("ro.product.manufacturer", manufacturer id); ("ro.product.brand", "google");
  ("ro.product.name", "raven"); ("ro.product.device", "raven"); ("ro.hardware", "raven");
  ("ro.build.version.sdk", pretty (sdk_int id)); ("ro.build.version.release", "12");
  ("ro.build.fingerprint", fingerprint id); ("ro.build.type", "user");
  ("ro.build.tags", "release-keys"); ("ro.kernel.qemu", ""); ("ro.secure", "1");
  ("ro.debuggable", "0"); ("ro.boot.verifiedbootstate", "green");
  ("persist.sys.dalvik.vm.lib.2", "libart.so"); ("build.version.extensions.r", "1");
  ("build.version.extensions.s", "1"); ("debug.atrace.tags.enableflags", "0")]%string.

Definition init_system (id : DeviceIdentity) (observing prop_observing : bool) : System :=
  mkSystem id (initial_props id) "" (init_vfs observing) 1500000000 1748736000 prop_observing [].

Definition with_vfs (s : System) (v : Vfs) : System :=
  mkSystem (id_ s) (props_ s) (progname_ s) v (clock_ns_ s) (unix_epoch_ s) (prop_observing s) (prop_reads s).
Definition on_vfs {A} (op : M Vfs A) : M System A := fun s =>
  let '(r, v) := op (vfs_ s) in (r, with_vfs s v).

Definition progname (s : System) : string :=
  if String.eqb (progname_ s) "" then package_name (id_ s) else progname_ s.
Definition set_progname (p : string) : M System unit := modify (fun s =>
  mkSystem (id_ s) (props_ s) p (vfs_ s) (clock_ns_ s) (unix_epoch_ s) (prop_observing s) (prop_reads s)).

Definition get_property (name : string) : M System string :=
  s ← get;
  let value := default "" (props_ s !! name) in
  (if prop_observing s then put (mkSystem (id_ s) (props_ s) (progname_ s) (vfs_ s) (clock_ns_ s)
     (unix_epoch_ s) true (prop_reads s ++ [(name, value)])) else skip);;
  mret value.
Definition set_property (name value : string) : M System unit := modify (fun s =>
  mkSystem (id_ s) (<[name := value]> (props_ s)) (progname_ s) (vfs_ s) (clock_ns_ s)
           (unix_epoch_ s) (prop_observing s) (prop_reads s)).

(** The clock advances a millisecond per query. *)
Definition now_ns : M System Z :=
  s ← get;
  let t := u64 (clock_ns_ s + 1000000) in
  put (mkSystem (id_ s) (props_ s) (progname_ s) (vfs_ s) t (unix_epoch_ s) (prop_observing s) (prop_reads s));;
  mret t.
Definition now_unix (s : System) : Z := unix_epoch_ s.
Definition set_now_unix (t : Z) : M System unit := modify (fun s =>
  mkSystem (id_ s) (props_ s) (progname_ s) (vfs_ s) (clock_ns_ s) t (prop_observing s) (prop_reads s)).

(** ** Paths *)

(** The position of the last ['/'] and what is before it. *)
Fixpoint before_slash (s : string) : option string :=
  match s with
  | EmptyString => None
  | String c r => match before_slash r with
                  | Some p => Some (String c p)
                  | None => if Ascii.eqb c "/" then Some "" else None
                  end
  end.
Definition dirname (p : string) : string :=
  match before_slash p with None | Some "" => "/" | Some d => d end.

(** The directory and its ancestors; every turn shortens the path. *)
Fixpoint add_parents (n : nat) (p : string) : M Vfs unit :=
  match n with
  | O => skip
  | S k =>
      if (String.length p <=? 1)%nat then skip else
      _ ← add_dir p;
      match before_slash p with None | Some "" => skip | Some d => add_parents k d end
  end.
Definition add_with_parents (p : string) : M Vfs unit :=
  let p := trim_path p in add_parents (String.length p) p.

Definition app_dirs (id : DeviceIdentity) : list string :=
  [dirname (apk_path id); native_lib_dir id; data_dir id; "/data/user/0/" +:+ package_name id +:+ "/cache";
   "/data/data/" +:+ package_name id +:+ "/cache"; "/data/data/" +:+ package_name id]%string.
Fixpoint add_all (l : list string) : M Vfs unit :=
  match l with [] => skip | p :: r => _ ← add_with_parents p; add_all r end.
Definition register_app_dirs : M System unit := s ← get; on_vfs (add_all (app_dirs (id_ s))).

(** ** Synthesized files *)

(** The last dot-separated component. *)
Fixpoint after_dot (s : string) : option string :=
  match s with
  | EmptyString => None
  | String c r => match after_dot r with
                  | Some p => Some p
                  | None => if Ascii.eqb c "." then Some r else None
                  end
  end.
Definition proc_name (id : DeviceIdentity) : string := default (package_name id) (after_dot (package_name id)).

Definition line (s : string) : list Z := bs s ++ [10].
Definition tabbed (k v : string) : list Z := bs k ++ [9] ++ bs v ++ [10].
Definition ends_with (t s : string) : bool :=
  let n := String.length s in let k := String.length t in
  (k <=? n)%nat && String.eqb (drop_str (n - k) s) t.
Definition all_digits (s : string) : bool :=
  forallb (fun c => let n := Ascii.nat_of_ascii c in (48 <=? n)%nat && (n <=? 57)%nat) (String.list_ascii_of_string s).

Definition status_file (id : DeviceIdentity) : list Z :=
  tabbed "Name:" (proc_name id) ++ tabbed "Umask:" "0077" ++ tabbed "State:" "S (sleeping)" ++
  tabbed "Tgid:" "1234" ++ tabbed "Pid:" "1234" ++ tabbed "PPid:" "903" ++ tabbed "TracerPid:" "0" ++
  (bs "Uid:" ++ concat (replicate 4 (9 :: bs "10234")) ++ [10]) ++
  (bs "Gid:" ++ concat (replicate 4 (9 :: bs "10234")) ++ [10]).
Definition comm_of (s : System) : list Z := take 15 (bs (progname s)).
Definition cpuinfo_file : list Z :=
  tabbed "Processor" ": AArch64 Processor rev 1 (aarch64)" ++ tabbed "Hardware" ": Google Tensor" ++
  tabbed "CPU implementer" ": 0x41".
Definition version_file : list Z :=
  line ("Linux version 4.14.180-g1234567 (android-build@abfarm) (clang version 8.0.7) " +:+
        "#1 SMP PREEMPT Wed Jan 1 00:00:00 UTC 2020").
Definition meminfo_file : list Z :=
  line "MemTotal:        3809296 kB" ++ line "MemFree:          123456 kB" ++
  line "MemAvailable:    1987654 kB" ++ line "Buffers:           45678 kB".

(** *** /proc/self/maps *)

Fixpoint pad_left (n : nat) (c : Ascii.ascii) (s : string) : string :=
  if (n <=? String.length s)%nat then s else
  match n with O => s | S k => String c (pad_left k c s) end.
Fixpoint spaces (n : nat) : string := match n with O => "" | S k => String " " (spaces k) end.
Definition pad_right (n : nat) (s : string) : string := s +:+ spaces (n - String.length s).

(** One line, at most 511 characters. *)
Definition emit (a b : Z) (perms : string) (off inode : Z) (nm : string) : list Z :=
  let anon := String.eqb nm "" || String.prefix "[" nm || String.prefix "anon:" nm in
  let dev := if anon then "00:00" else if String.prefix "/apex" nm then "fe:09" else "fe:00" in
  let ino := if anon then 0 else u64 (200000 + u64 inode * 37) in
  take 511 (line (pad_left 12 "0" (hex a) +:+ "-" +:+ pad_left 12 "0" (hex b) +:+ " " +:+ perms +:+ " " +:+
    pad_left 8 "0" (hex off) +:+ " " +:+ dev +:+ " " +:+ pad_right 10 (pretty ino) +:+ " " +:+ nm))%string.

Definition apex_libs : list (string * string) := [
  ("libart.so", "/apex/com.android.art/lib64/libart.so");
  ("libartbase.so", "/apex/com.android.art/lib64/libartbase.so");
  ("libdexfile.so", "/apex/com.android.art/lib64/libdexfile.so");
  ("libprofile.so", "/apex/com.android.art/lib64/libprofile.so")]%string.
Definition lib_name (id : DeviceIdentity) (label : string) : string :=
  if (3 <? String.length label)%nat && ends_with ".so" label then
    default (native_lib_dir id +:+ "/" +:+ label)%string (snd <$> List.find (fun e => String.eqb (fst e) label) apex_libs)
  else label.

(** ["---p"] with the permissions filled in. *)
Definition perms_of (r w x : bool) : string :=
  ((if r then "r" else "-") +:+ (if w then "w" else "-") +:+ (if x then "x" else "-") +:+ "p")%string.
Definition has_bit (v b : Z) : bool := negb (Z.land v b =? 0).

Section Maps.
Context {U : Type} `{UcOps U}.

(** One line per PT_LOAD segment [i], [i + 1], ...; a product of two 16-bit numbers may
    overflow [int]. *)
Fixpoint segment_lines (n : nat) (base phoff phent i inode : Z) (name : string) : M U (list Z * bool) :=
  match n with
  | O => mret ([], false)
  | S k =>
      if 2 ^ 31 <=? i * phent then lift UB else
      let ph := u64 (base + phoff + i * phent) in
      ty ← read_t 4 ph;
      if negb (ty =? 1) then segment_lines k base phoff phent (i + 1) inode name else
      fl ← read_t 4 (u64 (ph + 4));
      va ← read_t 8 (u64 (ph + 16));
      msz ← read_t 8 (u64 (ph + 40));
      fo ← read_t 8 (u64 (ph + 8));
      let l := emit (Z.land (u64 (base + va)) (mask64 0x1000))
                    (Z.land (u64 (base + va + msz + 0xfff)) (mask64 0x1000))
                    (perms_of (has_bit fl 4) (has_bit fl 2) (has_bit fl 1)) fo inode name in
      '(rest, _) ← segment_lines k base phoff phent (i + 1) inode name;
      mret (l ++ rest, true)
  end.

Definition kind_is (k k' : Kind) : bool := bool_decide (k = k').

(** The lines of one region, by its segments when it starts with an ELF
    header. *)
Definition region_lines (id : DeviceIdentity) (regions : list Region) (r : Region) : M U (list Z) :=
  let name := lib_name id (r_label r) in
  let mb := s32 (Z.shiftr (r_base r) 20) in
  if 2 ^ 31 <=? 1000 + mb then lift UB else
  let inode := 1000 + mb in
  '(lines, split) ←
    (if kind_is (r_kind r) Lib && is_mapped regions (r_base r) then
       magic ← read_t 4 (r_base r);
       if magic =? 0x464c457f then
         phoff ← read_t 8 (u64 (r_base r + 32));
         phnum ← read_t 2 (u64 (r_base r + 56));
         phent ← read_t 2 (u64 (r_base r + 54));
         if phent =? 0 then mret ([], false)
         else segment_lines (Z.to_nat phnum) (r_base r) phoff phent 0 inode name
       else mret ([], false)
     else mret ([], false));
  if split : bool then mret lines else
  let x := has_bit (r_prot r) UC_PROT_EXEC in
  if kind_is (r_kind r) KTrampoline || kind_is (r_kind r) Kuser || kind_is (r_kind r) Fini
     || (x && negb (kind_is (r_kind r) Lib)) then mret [] else
  let name := if kind_is (r_kind r) Stack then "[stack]"
              else if kind_is (r_kind r) Heap then "[anon:libc_malloc]"
              else if kind_is (r_kind r) Lib then name else "" in
  mret (emit (r_base r) (u64 (r_base r + r_size r))
         (perms_of (has_bit (r_prot r) UC_PROT_READ) (has_bit (r_prot r) UC_PROT_WRITE) x) 0 inode name).

Fixpoint all_regions (id : DeviceIdentity) (regions l : list Region) : M U (list Z) :=
  match l with
  | [] => mret []
  | r :: t => a ← region_lines id regions r; b ← all_regions id regions t; mret (a ++ b)
  end.
End Maps.

Definition linker64 : string := "/apex/com.android.runtime/bin/linker64".
Definition libc_so : string := "/apex/com.android.runtime/lib64/bionic/libc.so".
Definition fixed_lines : list Z :=
  emit 0x7b40000000 0x7b40040000 "r-xp" 0 2001 linker64 ++
  emit 0x7b40040000 0x7b40052000 "r--p" 0x40000 2001 linker64 ++
  emit 0x7b50000000 0x7b50120000 "r-xp" 0 2002 libc_so ++
  emit 0x7b50120000 0x7b50134000 "r--p" 0x120000 2002 libc_so ++
  emit 0x7b50134000 0x7b50136000 "rw-p" 0x134000 2002 libc_so.
Definition sys_libs : list (string * Z) := [
  ("/apex/com.android.runtime/lib64/bionic/libdl.so", 0x4000);
  ("/apex/com.android.runtime/lib64/bionic/libm.so", 0x2c000);
  ("/apex/com.android.art/lib64/libart.so", 0x760000);
  ("/apex/com.android.art/lib64/libartbase.so", 0x88000);
  ("/apex/com.android.art/lib64/libdexfile.so", 0x9c000);
  ("/apex/com.android.art/lib64/libprofile.so", 0x30000);
  ("/apex/com.android.art/lib64/libartpalette.so", 0x8000);
  ("/apex/com.android.i18n/lib64/libicuuc.so", 0x1a4000);
  ("/apex/com.android.i18n/lib64/libicui18n.so", 0x1f0000);
  ("/system/lib64/libc++.so", 0xb4000); ("/system/lib64/liblog.so", 0x18000);
  ("/system/lib64/libz.so", 0x28000); ("/system/lib64/libutils.so", 0x2c000);
  ("/system/lib64/libcutils.so", 0x1c000); ("/system/lib64/libbase.so", 0x40000);
  ("/system/lib64/libbinder.so", 0xf0000); ("/system/lib64/libnativehelper.so", 0x14000);
  ("/system/lib64/libandroid.so", 0x60000); ("/system/lib64/libandroid_runtime.so", 0x2e0000);
  ("/system/lib64/libjnigraphics.so", 0xc000); ("/system/lib64/libGLESv2.so", 0x2c000);
  ("/system/lib64/libEGL.so", 0x48000); ("/system/lib64/libssl.so", 0x74000);
  ("/system/lib64/libcrypto.so", 0x1f8000); ("/system/lib64/libsqlite.so", 0x120000);
  ("/system/fonts/Roboto-Regular.ttf", 0x80000)]%string.
Fixpoint sys_lines (l : list (string * Z)) (sa ino : Z) : list Z :=
  match l with
  | [] => []
  | (path, size) :: r =>
      let txt := Z.land (u64 (size * 3 / 4 + 0xfff)) (mask64 0x1000) in
      emit sa (u64 (sa + txt)) (if ends_with "f" path then "r--p" else "r-xp") 0 ino path ++
      emit (u64 (sa + txt)) (u64 (sa + size)) "r--p" txt ino path ++
      emit (u64 (sa + size)) (u64 (sa + size + 0x2000)) "rw-p" size ino path ++
      sys_lines r (u64 (sa + Z.land (u64 (size + 0x12000)) (mask64 0x1000))) (ino + 1)
  end.
Definition art_lines : list Z :=
  emit 0x12c00000 0x1ac00000 "rw-p" 0 0 "[anon:dalvik-main space]" ++
  emit 0x6f80000000 0x6f80200000 "rw-p" 0 0 "[anon:dalvik-/apex/com.android.art/javalib/boot.art]" ++
  emit 0x6fa0000000 0x6fa0100000 "rw-p" 0 0 "[anon:dalvik-zygote space]" ++
  emit 0x6fb0000000 0x6fb0080000 "rw-p" 0 0 "[anon:dalvik-LinearAlloc]" ++
  emit 0x7b30000000 0x7b30020000 "rw-p" 0 0 "[anon:.bss]".

(** *** The provider *)

Section Synth.
Context {U : Type} `{UcOps U}.
(** VARDOGER_PROC_HIDE is set. *)
Variable proc_hide : bool.

Definition maps_file (s : System) (m : Memory U) : outcome (list Z) :=
  l ← fst (all_regions (id_ s) (regions_ m) (regions_ m) (m_uc m));
  Ret (l ++ fixed_lines ++ sys_lines sys_libs 0x7b60000000 2100 ++ art_lines).

(** [/proc/<pid>/cmdline] and [/comm] of another process. *)
Definition other_process (path : string) : bool :=
  String.prefix "/proc/" path && (9 <? String.length path)%nat &&
  (ends_with "/cmdline" path || ends_with "/comm" path) &&
  let mid := until (Ascii.eqb "/") (drop_str 6 path) in
  negb (String.eqb mid "self") && negb (String.eqb mid "") && all_digits mid.

Definition synth (s : System) (m : Memory U) (path : string) : outcome (option (list Z)) :=
  let isp p := String.eqb path p in
  if proc_hide && (isp "/proc/self/status" || isp "/proc/self/maps") then Ret None
  else if isp "/proc/self/status" then Ret (Some (status_file (id_ s)))
  else if isp "/proc/self/cmdline" then Ret (Some (bs (progname s) ++ [0]))
  else if isp "/proc/self/comm" then Ret (Some (comm_of s ++ [10]))
  else if other_process path then Ret (Some (bs "zygote64" ++ [0]))
  else if String.prefix "/proc/" path && ends_with "/wchan" path then Ret (Some (bs "0"))
  else if isp "/proc/cpuinfo" then Ret (Some cpuinfo_file)
  else if isp "/proc/version" then Ret (Some version_file)
  else if isp "/proc/meminfo" then Ret (Some meminfo_file)
  else if isp "/proc/self/maps" then (c ← maps_file s m; Ret (Some c))
  else Ret None.

(** *** Files

    [Vfs] asks its provider only for a path it does not have: then the
    provider's exception is the caller's. *)
Definition ask (s : System) (m : Memory U) (path : string) : outcome (string -> option (list Z)) :=
  c ← synth s m path; Ret (fun _ => c).

Definition vopen (m : Memory U) (path : string) (flags : Z) : M System Z :=
  s ← get;
  if wants_write flags || bool_decide (is_Some (store_ (vfs_ s) !! path))
  then on_vfs (Vfs.open None path flags)
  else f ← lift (ask s m path); on_vfs (Vfs.open (Some f) path flags).

Definition vexists (m : Memory U) (path : string) : M System bool :=
  s ← get;
  if bool_decide (is_Some (store_ (vfs_ s) !! path)) || is_dir (vfs_ s) path then mret true
  else f ← lift (ask s m path); mret (exists_ (Some f) (vfs_ s) path).
End Synth.

(** ** Application directories *)

Lemma append_nil x : "" +:+ x = x. Proof. done. Qed.
Lemma append_cons c a x : String c a +:+ x = String c (a +:+ x). Proof. done. Qed.
Lemma string_length_append a b : String.length (a +:+ b) = (String.length a + String.length b)%nat.
Proof. induction a as [|c a IH]; [done|]. rewrite append_cons. cbn. by rewrite IH. Qed.

Lemma before_slash_app a r :
  before_slash (a +:+ "/" +:+ r) = match before_slash r with Some d => Some (a +:+ "/" +:+ d) | None => Some a end.
Proof.
  induction a as [|c a IH].
  - rewrite append_nil, append_cons, append_nil. cbn. by destruct (before_slash r).
  - rewrite append_cons. cbn. rewrite IH. by destruct (before_slash r).
Qed.

Lemma before_slash_shorter s d : before_slash s = Some d -> (String.length d < String.length s)%nat.
Proof.
  revert d. induction s as [|c s IH]; intros d; cbn; [done|].
  destruct (before_slash s) as [e|]; [intros [= <-]; cbn; specialize (IH e eq_refl); lia|].
  destruct (Ascii.eqb c "/"); intros [= <-]. cbn. lia.
Qed.

Lemma trim_rev_nonempty l : l <> [] -> trim_rev l <> [].
Proof.
  induction l as [|c [|d r] IH]; intros Hl; [done|done|]. cbn [trim_rev].
  destruct (Ascii.eqb c "/"); [by apply IH|done].
Qed.

Lemma trim_path_nonempty p : p <> "" -> trim_path p <> "".
Proof.
  intros Hp. unfold trim_path. destruct p as [|c p]; [done|]. intros E.
  apply (f_equal String.list_ascii_of_string) in E. rewrite String.list_ascii_of_string_of_list_ascii in E.
  apply (f_equal (@rev _)) in E. rewrite rev_involutive in E. revert E. apply trim_rev_nonempty.
  cbn. by destruct (rev (String.list_ascii_of_string p)).
Qed.

(** Only directories were added. *)
Definition dirs_grown (v v' : Vfs) : Prop :=
  store_ v' = store_ v /\ handles_ v' = handles_ v /\ dirs_ v ⊆ dirs_ v'.
#[export] Instance dirs_grown_pre : PreOrder dirs_grown.
Proof.
  split; [by intros v|]. intros v1 v2 v3 (E1 & E2 & E3) (F1 & F2 & F3).
  split; [by rewrite F1|]. split; [by rewrite F2|]. by etrans.
Qed.
Lemma dirs_grown_is_dir v v' p : dirs_grown v v' -> is_dir v p = true -> is_dir v' p = true.
Proof.
  intros (E1 & _ & E2). rewrite !is_dir_spec, E1. intros [Hd|Hk]; [left; by apply E2|by right].
Qed.

Lemma add_dir_run p v :
  p <> "" -> exists v', add_dir p v = (Ret tt, v') /\ dirs_grown v v' /\ is_dir v' p = true.
Proof.
  intros Hp. unfold add_dir. rewrite (proj2 (String.eqb_neq _ _)) by by apply trim_path_nonempty.
  eexists. split; [done|]. split; [split; [done|split; [done|cbn; set_solver]]|].
  apply is_dir_spec. left. cbn. set_solver.
Qed.

(** [a] is [p] or one of its ancestors. *)
Definition ancestor (a p : string) : Prop := a = p \/ exists r, p = a +:+ "/" +:+ r.

Lemma add_parents_run n p v :
  (String.length p <= n)%nat ->
  exists v', add_parents n p v = (Ret tt, v') /\ dirs_grown v v' /\
    forall a, ancestor a p -> (1 < String.length a)%nat -> is_dir v' a = true.
Proof.
  revert p v. induction n as [|n IH]; intros p v Hn.
  - exists v. split; [done|]. split; [done|]. intros a [->|[r ->]] Ha; [lia|].
    rewrite !string_length_append in Hn. lia.
  - cbn [add_parents]. destruct (Nat.leb_spec (String.length p) 1) as [H1|H1].
    + exists v. split; [done|]. split; [done|]. intros a [->|[r ->]] Ha; [lia|].
      rewrite !string_length_append in H1. lia.
    + destruct (add_dir_run p v) as (v1 & E1 & G1 & D1); [by intros ->; cbn in H1; lia|].
      rewrite (bind_run _ _ _ _ _ E1). destruct (before_slash p) as [d|] eqn:Ed.
      * pose proof (before_slash_shorter _ _ Ed). destruct d as [|c d].
        -- exists v1. split; [done|]. split; [done|]. intros a [->|[r ->]] Ha; [done|].
           rewrite before_slash_app in Ed. destruct (before_slash r) as [e|]; injection Ed as Ed; [by destruct a|subst a; cbn in Ha; lia].
        -- destruct (IH (String c d) v1) as (v2 & E2 & G2 & D2); [lia|].
           exists v2. split; [exact E2|]. split; [by etrans|]. intros a [->|[r ->]] Ha;
             [by eapply dirs_grown_is_dir|]. apply D2; [|done]. rewrite before_slash_app in Ed.
           destruct (before_slash r) as [e|]; injection Ed as <-; [right; by exists e|by left].
      * exists v1. split; [done|]. split; [done|]. intros a [->|[r ->]] Ha; [done|].
        rewrite before_slash_app in Ed. by destruct (before_slash r).
Qed.

Lemma add_all_run l v :
  exists v', add_all l v = (Ret tt, v') /\ dirs_grown v v' /\
    forall p a, p ∈ l -> ancestor a (trim_path p) -> (1 < String.length a)%nat -> is_dir v' a = true.
Proof.
  revert v. induction l as [|q l IH]; intros v.
  - exists v. split; [done|]. split; [done|]. intros p a Hp. by apply not_elem_of_nil in Hp.
  - destruct (add_parents_run _ (trim_path q) v (Nat.le_refl _)) as (v1 & E1 & G1 & D1).
    destruct (IH v1) as (v2 & E2 & G2 & D2). exists v2. split; [cbn [add_all]; by rewrite (bind_run _ _ _ _ _ E1)|].
    split; [by etrans|]. intros p a Hp Ha Hl. apply elem_of_cons in Hp as [->|Hp]; [|by eapply D2].
    eapply dirs_grown_is_dir; [done|]. by apply D1.
Qed.

(** After [register_app_dirs] every directory an installed app has (the
    code directory, the library directory, the data directories) and every
    ancestor of one answers as a directory; files, descriptors and the
    directories known before stay as they were. *)
Lemma app_dirs_exist s :
  exists s', register_app_dirs s = (Ret tt, s') /\ dirs_grown (vfs_ s) (vfs_ s') /\
    forall p a, p ∈ app_dirs (id_ s) -> ancestor a (trim_path p) -> (1 < String.length a)%nat ->
      is_dir (vfs_ s') a = true.
Proof.
  destruct (add_all_run (app_dirs (id_ s)) (vfs_ s)) as (v & E & G & D).
  exists (with_vfs s v). split; [|by split]. unfold register_app_dirs. rewrite bind_get. unfold on_vfs. by rewrite E.
Qed.

(** The default device: /data, three levels up from the APK, is there. *)
Example data_dir_there :
  is_dir (vfs_ (snd (register_app_dirs (init_system default_identity false false)))) "/data" = true /\
  is_dir (vfs_ (snd (register_app_dirs (init_system default_identity false false)))) "/data/app/~~aB1==" = true.
Proof. vm_compute. done. Qed.

(** ** Synthesized files *)

(** The name of a thread is the process name cut to 15 characters, and the
    command line carries the whole of it. *)
Example comm_cut :
  let s := snd (set_progname "com.victim.application" (init_system default_identity false false)) in
  synth false s (init_memory Arm64 false ru_init) "/proc/self/comm" = Ret (Some (bs "com.victim.appl" ++ [10])) /\
  synth false s (init_memory Arm64 false ru_init) "/proc/self/cmdline"
  = Ret (Some (bs "com.victim.application" ++ [0])).
Proof. vm_compute. done. Qed.

(** A parent process is zygote64, whatever its number. *)
Example parent_is_zygote :
  synth false (init_system default_identity false false) (init_memory Arm64 false ru_init) "/proc/903/cmdline"
  = Ret (Some (bs "zygote64" ++ [0])).
Proof. vm_compute. done. Qed.

(** An executable anonymous mapping is not listed, a library is by its
    permissions. *)
Example maps_hides_code :
  let m := mkMemory ru_init [mkRegion kTrampolineBase 0x1000 7 KTrampoline "trampoline" false;
                             mkRegion 0x60000000 0x1000 5 Mmap "code" false;
                             mkRegion 0x70000000 0x1000 3 Heap "heap" false] 0 0 0 0 0 0 0 in
  fst (all_regions default_identity (regions_ m) (regions_ m) (m_uc m))
  = Ret (bs "000070000000-000070001000 rw-p 00000000 00:00 0          [anon:libc_malloc]" ++ [10]).
Proof. vm_compute. reflexivity. Qed.
