(* ===== verification/SysTable.v ===== *)
(** System call numbers: the tables of [core/android/syscalls.cpp].

    [normalize] reads a guest's number by the table of its architecture and
    gives the kind of call the dispatcher knows it as; [sys_reg] names the
    register a kernel takes argument [i] from, which is not the one a C
    function would. *)

From S2P Require Import Prelude.
From S2P Require Import Words.
From S2P Require Import Abi.
From S2P Require Import Unicorn.
From stdpp Require Import strings.
#[local] Open Scope Z_scope.

(** [enum class Sys]. *)
Module Sys.
Inductive t :=
  | Unknown | ClockGettime | Gettimeofday | Getpid | Getuid | Geteuid | Gettid | Exit | ExitGroup
  | Mmap | Munmap | Mprotect | Openat | Read | Write | Close | Lseek | Fstat | Fstatat
  | Faccessat | Getrandom | Ptrace | Noop | Nanosleep | Futex | SetTidAddress | SchedGetaffinity
  | Prctl | Madvise | Mremap | Readlinkat | Uname | Sysinfo | Getcwd | Fcntl | Ioctl
  | ClockGetres | OpenLegacy | AccessLegacy | StatPath | Mmap2 | Llseek | ArmSetTls
  | ArmCacheflush | Getgid | Writev | Brk.
#[export] Instance t_eq_dec : EqDecision t.
Proof. solve_decision. Defined.
End Sys.
#[export] Existing Instance Sys.t_eq_dec.

Definition normalize_arm64 (nr : Z) : Sys.t :=
  match nr with
  | 113 => Sys.ClockGettime | 169 => Sys.Gettimeofday | 172 => Sys.Getpid | 174 => Sys.Getuid
  | 175 => Sys.Geteuid | 178 => Sys.Gettid | 93 => Sys.Exit | 94 => Sys.ExitGroup
  | 222 => Sys.Mmap | 215 => Sys.Munmap | 226 => Sys.Mprotect | 56 => Sys.Openat | 63 => Sys.Read
  | 64 => Sys.Write | 57 => Sys.Close | 62 => Sys.Lseek | 80 => Sys.Fstat | 79 => Sys.Fstatat
  | 278 => Sys.Getrandom | 48 => Sys.Faccessat | 101 => Sys.Nanosleep | 117 => Sys.Ptrace
  | 129 | 130 | 131 => Sys.Noop | 134 | 135 | 139 => Sys.Noop | 98 => Sys.Futex
  | 96 => Sys.SetTidAddress | 99 => Sys.Noop | 293 => Sys.Noop | 283 => Sys.Noop | 124 => Sys.Noop
  | 122 => Sys.Noop | 123 => Sys.SchedGetaffinity | 167 => Sys.Prctl | 233 => Sys.Madvise
  | 216 => Sys.Mremap | 78 => Sys.Readlinkat | 160 => Sys.Uname | 179 => Sys.Sysinfo
  | 17 => Sys.Getcwd | 25 => Sys.Fcntl | 29 => Sys.Ioctl | 114 => Sys.ClockGetres
  | 176 | 177 => Sys.Getgid | 66 => Sys.Writev | 214 => Sys.Brk | 439 => Sys.Faccessat
  | _ => Sys.Unknown
  end.

Definition normalize_x86_64 (nr : Z) : Sys.t :=
  match nr with
  | 0 => Sys.Read | 1 => Sys.Write | 2 => Sys.OpenLegacy | 3 => Sys.Close | 4 | 6 => Sys.StatPath
  | 5 => Sys.Fstat | 8 => Sys.Lseek | 9 => Sys.Mmap | 10 => Sys.Mprotect | 11 => Sys.Munmap
  | 12 => Sys.Brk | 16 => Sys.Ioctl | 20 => Sys.Writev | 21 => Sys.AccessLegacy | 25 => Sys.Mremap
  | 28 => Sys.Madvise | 35 => Sys.Nanosleep | 39 => Sys.Getpid | 60 => Sys.Exit | 63 => Sys.Uname
  | 72 => Sys.Fcntl | 79 => Sys.Getcwd | 89 => Sys.Readlinkat | 96 => Sys.Gettimeofday
  | 99 => Sys.Sysinfo | 101 => Sys.Ptrace | 102 => Sys.Getuid | 104 | 108 => Sys.Getgid
  | 107 => Sys.Geteuid | 157 => Sys.Prctl | 186 => Sys.Gettid | 202 => Sys.Futex
  | 204 => Sys.SchedGetaffinity | 218 => Sys.SetTidAddress | 228 => Sys.ClockGettime
  | 229 => Sys.ClockGetres | 231 => Sys.ExitGroup | 257 => Sys.Openat | 262 => Sys.Fstatat
  | 267 => Sys.Readlinkat | 269 | 439 => Sys.Faccessat | 318 => Sys.Getrandom
  | 13 | 14 | 15 | 24 | 62 | 200 | 234 | 273 | 324 | 334 => Sys.Noop
  | _ => Sys.Unknown
  end.

Definition normalize_x86 (nr : Z) : Sys.t :=
  match nr with
  | 1 => Sys.Exit | 3 => Sys.Read | 4 => Sys.Write | 5 => Sys.OpenLegacy | 6 => Sys.Close
  | 19 => Sys.Lseek | 20 => Sys.Getpid | 24 | 199 => Sys.Getuid | 26 => Sys.Ptrace
  | 33 => Sys.AccessLegacy | 45 => Sys.Brk | 47 | 50 | 200 | 202 => Sys.Getgid
  | 49 | 201 => Sys.Geteuid | 54 => Sys.Ioctl | 55 => Sys.Fcntl | 78 => Sys.Gettimeofday
  | 90 => Sys.Mmap | 91 => Sys.Munmap | 116 => Sys.Sysinfo | 122 => Sys.Uname
  | 125 => Sys.Mprotect | 140 => Sys.Llseek | 146 => Sys.Writev | 162 => Sys.Nanosleep
  | 163 => Sys.Mremap | 172 => Sys.Prctl | 183 => Sys.Getcwd | 192 => Sys.Mmap2
  | 195 | 196 => Sys.StatPath | 197 => Sys.Fstat | 219 => Sys.Madvise | 224 => Sys.Gettid
  | 240 => Sys.Futex | 242 => Sys.SchedGetaffinity | 252 => Sys.ExitGroup
  | 258 => Sys.SetTidAddress | 265 => Sys.ClockGettime | 266 => Sys.ClockGetres
  | 295 => Sys.Openat | 300 => Sys.Fstatat | 305 => Sys.Readlinkat | 307 | 439 => Sys.Faccessat
  | 355 => Sys.Getrandom | 37 | 238 | 270 | 158 | 173 | 174 | 175 | 311 | 375 | 386 => Sys.Noop
  | _ => Sys.Unknown
  end.

Definition normalize_arm32 (nr : Z) : Sys.t :=
  match nr with
  | 263 => Sys.ClockGettime | 78 => Sys.Gettimeofday | 20 => Sys.Getpid | 24 | 199 => Sys.Getuid
  | 49 | 201 => Sys.Geteuid | 224 => Sys.Gettid | 1 => Sys.Exit | 248 => Sys.ExitGroup
  | 90 => Sys.Mmap | 192 => Sys.Mmap2 | 91 => Sys.Munmap | 125 => Sys.Mprotect | 322 => Sys.Openat
  | 5 => Sys.OpenLegacy | 3 => Sys.Read | 4 => Sys.Write | 6 => Sys.Close | 19 => Sys.Lseek
  | 140 => Sys.Llseek | 197 => Sys.Fstat | 195 | 196 => Sys.StatPath | 327 => Sys.Fstatat
  | 33 => Sys.AccessLegacy | 334 => Sys.Faccessat | 332 => Sys.Readlinkat | 162 => Sys.Nanosleep
  | 242 => Sys.SchedGetaffinity | 264 => Sys.ClockGetres | 403 => Sys.ClockGettime
  | 37 | 238 | 268 => Sys.Noop | 173 | 174 | 175 => Sys.Noop | 338 | 389 | 398 => Sys.Noop
  | 983042 => Sys.ArmCacheflush | 983045 => Sys.ArmSetTls | 384 => Sys.Getrandom
  | 47 | 50 | 200 | 202 => Sys.Getgid | 146 => Sys.Writev | 45 => Sys.Brk | 439 => Sys.Faccessat
  | 26 => Sys.Ptrace | 240 => Sys.Futex | 256 => Sys.SetTidAddress | 158 => Sys.Noop
  | 172 => Sys.Prctl | 220 => Sys.Madvise | 163 => Sys.Mremap | 122 => Sys.Uname
  | 116 => Sys.Sysinfo | 183 => Sys.Getcwd | 55 => Sys.Fcntl | 54 => Sys.Ioctl
  | _ => Sys.Unknown
  end.

Definition normalize (abi : Abi) (nr : Z) : Sys.t :=
  match abi with
  | Arm64 => normalize_arm64 nr
  | X86_64 => normalize_x86_64 nr
  | X86 => normalize_x86 nr
  | Arm32 => normalize_arm32 nr
  end.

(** The name an observer sees. *)
Definition sys_name (s : Sys.t) : string :=
  match s with
  | Sys.ClockGettime => "clock_gettime" | Sys.Gettimeofday => "gettimeofday"
  | Sys.Getpid => "getpid" | Sys.Getuid => "getuid" | Sys.Geteuid => "geteuid"
  | Sys.Gettid => "gettid" | Sys.Exit => "exit" | Sys.ExitGroup => "exit_group"
  | Sys.Mmap => "mmap" | Sys.Munmap => "munmap" | Sys.Mprotect => "mprotect"
  | Sys.Openat => "openat" | Sys.Read => "read" | Sys.Write => "write" | Sys.Close => "close"
  | Sys.Lseek => "lseek" | Sys.Fstat => "fstat" | Sys.Fstatat => "fstatat"
  | Sys.Faccessat => "faccessat" | Sys.Getrandom => "getrandom" | Sys.Ptrace => "ptrace"
  | Sys.Nanosleep => "nanosleep" | Sys.Futex => "futex" | Sys.SetTidAddress => "set_tid_address"
  | Sys.SchedGetaffinity => "sched_getaffinity" | Sys.Prctl => "prctl" | Sys.Madvise => "madvise"
  | Sys.Mremap => "mremap" | Sys.Readlinkat => "readlinkat" | Sys.Uname => "uname"
  | Sys.Sysinfo => "sysinfo" | Sys.Getcwd => "getcwd" | Sys.Fcntl => "fcntl"
  | Sys.Ioctl => "ioctl" | Sys.ClockGetres => "clock_getres" | Sys.OpenLegacy => "open"
  | Sys.AccessLegacy => "access" | Sys.StatPath => "stat64" | Sys.Mmap2 => "mmap2"
  | Sys.Llseek => "_llseek" | Sys.ArmSetTls => "ARM_set_tls"
  | Sys.ArmCacheflush => "ARM_cacheflush" | Sys.Getgid => "getgid" | Sys.Writev => "writev"
  | Sys.Brk => "brk" | Sys.Noop => "noop" | Sys.Unknown => "unknown"
  end.

(** The kinds VARDOGER_LEGACY_SYSCALLS turns off. *)
Definition expansion (s : Sys.t) : bool :=
  match s with
  | Sys.Futex | Sys.SetTidAddress | Sys.SchedGetaffinity | Sys.Prctl | Sys.Madvise | Sys.Mremap
  | Sys.Readlinkat | Sys.Uname | Sys.Sysinfo | Sys.Getcwd | Sys.Fcntl | Sys.Ioctl
  | Sys.ClockGetres => true
  | _ => false
  end.

(** Arguments [0] to [5]. *)
Definition sys_reg (abi : Abi) (i : nat) : ucreg :=
  match abi with
  | Arm64 => A64_X i
  | Arm32 => A32_R i
  | X86_64 => nth i [R_RDI; R_RSI; R_RDX; R_R10; R_R8; R_R9] R_R9
  | X86 => nth i [R_EBX; R_ECX; R_EDX; R_ESI; R_EDI; R_EBP] R_EBP
  end.

(** The six argument registers of an architecture are distinct, none of them
    holds the number, and each keeps a whole word. *)
Lemma sys_reg_inj abi i j : (i < 6)%nat -> (j < 6)%nat -> sys_reg abi i = sys_reg abi j -> i = j.
Proof.
  intros Hi Hj. destruct abi; cbn [sys_reg]; [congruence|congruence| |];
    do 6 (destruct i as [|i]; [do 6 (destruct j as [|j]; [try done|]); lia|]); lia.
Qed.

Lemma sys_reg_width abi i : reg_width (sys_reg abi i) = Some (if kIs64 abi then 64 else 32).
Proof. destruct abi; try done; do 6 (destruct i as [|i]; [done|]); by destruct i. Qed.
