(* ===== verification/Syscalls.v ===== *)
(** The system-call layer: [core/android/syscalls.cpp].

    [dispatch] reads the number the guest put in its register, runs the
    handler of its kind on the memory manager and the device facade, and
    writes the answer to the return register.  An error is a negative number
    in that register; what a handler does not catch (an emulator error, an
    oversized vector) leaves [dispatch] as an exception, past the observer,
    which a destructor tells in every case. *)

From stdpp Require Import strings.
From S2P Require Import Prelude.
From S2P Require Import Words.
From S2P Require Import Loops.
From S2P Require Import Abi.
From S2P Require Import Unicorn.
From S2P Require Import Engine.
From S2P Require Import Memory.
From S2P Require Import CText.
From S2P Require Import Vfs.
From S2P Require Import System.
From S2P Require Import SysTable.
#[local] Open Scope Z_scope.

(** The environment variables that change an answer: VARDOGER_KILL_ESRCH,
    _LEGACY_SYSCALLS, _NO_MAPFIXED, _WX, _NO_SLEEP_YIELD, _OPEN_LR,
    _PROC_HIDE and _HEAP_TIGHT. *)
Record Env := mkEnv {
  kill_esrch : bool;
  legacy_syscalls : bool;
  no_mapfixed : bool;
  wx_env : bool;
  no_sleep_yield : bool;
  open_lr : bool;
  hide_proc : bool;
  heap_tight : bool;
}.
Definition no_env : Env := mkEnv false false false false false false false false.

(** One call as the observer is told it. *)
Record Traced := mkTraced { t_nr : Z; t_name : string; t_args : list Z; t_ret : Z }.

(** What the layer works on: the memory manager, the device, the two statics
    [s_brk] and [seen], the stop flag of the emulator, what went to the host's
    standard streams, and the observer's calls. *)
Record Kernel (U : Type) := mkKernel {
  k_mem : Memory U;
  k_sys : System;
  s_brk : Z;
  seen : gmap Z Z;
  stopped : bool;
  console : list (Z * list Z);
  observing_ : bool;
  trace : list Traced;
}.
Arguments mkKernel {U}.
Arguments k_mem {U}. Arguments k_sys {U}. Arguments s_brk {U}. Arguments seen {U}.
Arguments stopped {U}. Arguments console {U}. Arguments observing_ {U}. Arguments trace {U}.

Section Syscalls.
Context {U : Type} `{UcOps U}.
#[local] Abbreviation K := (Kernel U).

Definition with_mem (k : K) (m : Memory U) : K :=
  mkKernel m (k_sys k) (s_brk k) (seen k) (stopped k) (console k) (observing_ k) (trace k).
Definition with_sys (k : K) (s : System) : K :=
  mkKernel (k_mem k) s (s_brk k) (seen k) (stopped k) (console k) (observing_ k) (trace k).
Definition on_mem {A} (op : M (Memory U) A) : M K A := fun k =>
  let '(r, m) := op (k_mem k) in (r, with_mem k m).
Definition on_sys {A} (op : M System A) : M K A := fun k =>
  let '(r, s) := op (k_sys k) in (r, with_sys k s).
Definition on_cpu {A} (op : M U A) : M K A := on_mem (uc_do op).
Definition on_files {A} (op : M Vfs A) : M K A := on_sys (on_vfs op).

Definition set_brk (v : Z) : M K unit := modify (fun k =>
  mkKernel (k_mem k) (k_sys k) v (seen k) (stopped k) (console k) (observing_ k) (trace k)).
Definition set_seen (v : gmap Z Z) : M K unit := modify (fun k =>
  mkKernel (k_mem k) (k_sys k) (s_brk k) v (stopped k) (console k) (observing_ k) (trace k)).
(** [e.stop()]. *)
Definition stop : M K unit := modify (fun k =>
  mkKernel (k_mem k) (k_sys k) (s_brk k) (seen k) true (console k) (observing_ k) (trace k)).
Definition print (stream : Z) (l : list Z) : M K unit := modify (fun k =>
  mkKernel (k_mem k) (k_sys k) (s_brk k) (seen k) (stopped k) (console k ++ [(stream, l)]) (observing_ k) (trace k)).
Definition tell_observer (t : Traced) : M K unit := modify (fun k =>
  mkKernel (k_mem k) (k_sys k) (s_brk k) (seen k) (stopped k) (console k) (observing_ k) (trace k ++ [t])).

Variable abi : Abi.
Variable env : Env.
(** The cooperative-yield hook, when it is set. *)
Variable yield_ : option (M K bool).

(** ** What the handlers share *)

Definition sys_arg (i : nat) : M K Z := v ← on_cpu (read_uc_reg (sys_reg abi i)); mret (u64 v).
Definition ret (v : Z) : M K unit := on_cpu (write_reg abi Ret0 v).
(** [static_cast<uint64_t>(-n)]. *)
Definition neg (n : Z) : Z := u64 (- n).
Definition wword (addr v : Z) : M K unit :=
  if kPointerSize abi =? 8 then on_cpu (write_t 8 addr v) else on_cpu (write_t 4 addr v).
(** [std::vector<uint8_t> v(n)]. *)
Definition vector (n : Z) : M K (list Z) :=
  if 2 ^ 63 <=? n then throw "cannot create std::vector larger than max_size()"
  else mret (replicate (Z.to_nat n) 0).

Definition write_stat64 (st size mode : Z) : M K unit :=
  _ ← on_cpu (e_write st (replicate 128 0));
  _ ← on_cpu (write_t 4 (u64 (st + 16)) mode);
  on_cpu (write_t 8 (u64 (st + 48)) size).
Definition kStatFileMode : Z := 0x81A4.
Definition kStatDirMode : Z := 0x41ED.
Definition kDirSize : Z := 4096.

Definition sys_vopen (path : string) (flags : Z) : M K Z :=
  k ← get; on_sys (vopen (hide_proc env) (k_mem k) path flags).
Definition sys_vexists (path : string) : M K bool :=
  k ← get; on_sys (vexists (hide_proc env) (k_mem k) path).
Definition files (k : K) : Vfs := vfs_ (k_sys k).
Definition fd_open (fd : Z) : M K bool := gets (fun k => is_open (files k) fd).
Definition vsize (fd : Z) : M K Z := gets (fun k => size_ (files k) fd).
Definition vtell (fd : Z) : M K Z := gets (fun k => tell (files k) fd).
Definition arg_path (i : nat) : M K string :=
  a ← sys_arg i; k ← get; mret (text (read_cstr a 4096 (m_uc (k_mem k)))).
Definition arg_fd (i : nat) : M K Z := a ← sys_arg i; mret (s32 a).

(** ** Time *)

Definition do_clock_gettime : M K unit :=
  a ← sys_arg 0;
  let clk := s32 a in
  ns ← on_sys now_ns;
  tp ← sys_arg 1;
  k ← get;
  let sec := if (clk =? 0) || (clk =? 5) then now_unix (k_sys k) else ns / 1000000000 in
  _ ← wword tp sec;
  _ ← wword (u64 (tp + kPointerSize abi)) (ns mod 1000000000);
  ret 0.
Definition do_gettimeofday : M K unit :=
  ns ← on_sys now_ns;
  tv ← sys_arg 0;
  k ← get;
  _ ← wword tv (now_unix (k_sys k));
  _ ← wword (u64 (tv + kPointerSize abi)) (ns mod 1000000000 / 1000);
  ret 0.
Definition do_clock_getres : M K unit :=
  tp ← sys_arg 1;
  _ ← (if tp =? 0 then skip else _ ← wword tp 0; wword (u64 (tp + kPointerSize abi)) 1);
  ret 0.

(** ** Mappings *)

Definition kMapAnonymous : Z := 0x20.
Definition kMapFixed : Z := 0x10.

Definition fix_page (mpf p : Z) : M K unit :=
  k ← get;
  if is_mapped (regions_ (k_mem k)) p
  then try_catch (on_mem (protect p 0x1000 mpf)) skip
  else try_catch (_ ← on_mem (map_fixed p 0x1000 mpf Mmap "mmap-fixed"); skip) skip.

(** The mapping filled from the file behind [fd]. *)
Definition fill_from_file (flags fd off len addr : Z) : M K unit :=
  op ← fd_open (s32 fd);
  if (Z.land flags kMapAnonymous =? 0) && (0 <=? fd) && op then
    _ ← on_files (seek (s32 fd) off);
    '(content, _) ← on_files (read (s32 fd) [] len);
    if bool_decide (content = []) then skip else on_cpu (e_write addr content)
  else skip.

Definition prot_or_rw (prot : Z) : Z := if u32 prot =? 0 then 3 else u32 prot.

Definition do_mmap (s : Sys.t) : M K unit :=
  reqaddr ← sys_arg 0;
  len ← sys_arg 1;
  prot ← sys_arg 2;
  flags ← sys_arg 3;
  a5 ← sys_arg 5;
  let off := if bool_decide (s = Sys.Mmap2) then u64 (Z.shiftl a5 12) else a5 in
  a4 ← sys_arg 4;
  let fd := s64 a4 in
  if negb (no_mapfixed env) && negb (Z.land flags kMapFixed =? 0) && negb (reqaddr =? 0) then
    let lo := page_align_down reqaddr in
    let hi := page_align_down (u64 (reqaddr + (if len =? 0 then 1 else len) + 0xfff)) in
    _ ← for_each (fix_page (prot_or_rw prot)) (pages_between lo hi);
    _ ← fill_from_file flags fd off len reqaddr;
    ret reqaddr
  else
    let mp := prot_or_rw prot in
    let mp := if wx_env env && negb (Z.land mp UC_PROT_WRITE =? 0) && negb (Z.land mp UC_PROT_EXEC =? 0)
              then Z.land mp (u32 (Z.lnot UC_PROT_EXEC)) else mp in
    addr ← on_mem (mmap_alloc len mp "mmap (syscall)");
    _ ← fill_from_file flags fd off len addr;
    ret addr.

Definition do_mprotect : M K unit :=
  a ← sys_arg 0; n ← sys_arg 1; p ← sys_arg 2;
  _ ← on_mem (protect a n (u32 p));
  ret 0.

Definition do_mremap : M K unit :=
  old ← sys_arg 0; oldsz ← sys_arg 1; newsz ← sys_arg 2;
  if newsz <=? oldsz then ret old else
  np ← on_mem (mmap_alloc newsz UC_PROT_RW "mremap");
  k ← get;
  _ ← (if negb (oldsz =? 0) && is_mapped (regions_ (k_mem k)) old then
         _ ← vector oldsz;
         b ← on_cpu (e_read old oldsz);
         on_cpu (e_write np b)
       else skip);
  ret np.

Definition do_brk : M K unit :=
  want ← sys_arg 0;
  k ← get;
  _ ← (if s_brk k =? 0 then p ← on_mem (heap_alloc (heap_tight env) 0x1000 16); set_brk p else skip);
  k ← get;
  _ ← (if s_brk k <? want then set_brk want else skip);
  k ← get;
  ret (s_brk k).

(** ** Files *)

Definition do_open (i : nat) : M K unit :=
  path ← arg_path i;
  fl ← arg_fd (S i);
  fd ← sys_vopen path fl;
  ret (if fd =? 0 then neg 2 else u64 fd).
(** [openat] may log the link register of the caller. *)
Definition do_openat : M K unit :=
  path ← arg_path 1;
  fl ← arg_fd 2;
  fd ← sys_vopen path fl;
  _ ← (if String.eqb path "" && open_lr env then _ ← on_cpu (read_reg abi Lr); skip else skip);
  ret (if fd =? 0 then neg 2 else u64 fd).

(** [access(path)] and [faccessat]. *)
Definition do_access (i : nat) : M K unit :=
  path ← arg_path i;
  ok ← sys_vexists path;
  ok ← (if ok : bool then mret true else
        fd ← sys_vopen path 0;
        if fd =? 0 then mret false else _ ← on_files (close fd); mret true);
  ret (if ok : bool then 0 else neg 2).

(** [stat64(path, buf)] and [fstatat]: the path is argument [i], the buffer the next one. *)
Definition do_stat (i : nat) : M K unit :=
  path ← arg_path i;
  fd ← sys_vopen path 0;
  if negb (fd =? 0) then
    buf ← sys_arg (S i);
    n ← vsize fd;
    _ ← write_stat64 buf n kStatFileMode;
    _ ← on_files (close fd);
    ret 0
  else
    k ← get;
    if is_dir (files k) path then
      buf ← sys_arg (S i);
      _ ← write_stat64 buf kDirSize kStatDirMode;
      ret 0
    else ret (neg 2).

Definition do_fstat : M K unit :=
  fd ← arg_fd 0;
  op ← fd_open fd;
  if negb op then ret (neg 9) else
  buf ← sys_arg 1;
  n ← vsize fd;
  _ ← write_stat64 buf n kStatFileMode;
  ret 0.

(** Where [lseek] goes; an unknown [whence] is [SEEK_SET]. *)
Definition seek_to (whence cur sz off : Z) : Z :=
  if whence =? 1 then u64 (cur + off) else if whence =? 2 then u64 (sz + off) else off.
Definition do_lseek : M K unit :=
  fd ← arg_fd 0;
  op ← fd_open fd;
  if negb op then ret (neg 9) else
  off ← sys_arg 1;
  wh ← sys_arg 2;
  cur ← vtell fd;
  sz ← vsize fd;
  let p := seek_to (s32 wh) cur sz off in
  _ ← on_files (seek fd p);
  ret p.
Definition do_llseek : M K unit :=
  fd ← arg_fd 0;
  op ← fd_open fd;
  if negb op then ret (neg 9) else
  hi ← sys_arg 1;
  lo ← sys_arg 2;
  let off := Z.lor (u64 (Z.shiftl hi 32)) (Z.land lo 0xffffffff) in
  resultp ← sys_arg 3;
  wh ← sys_arg 4;
  cur ← vtell fd;
  sz ← vsize fd;
  let p := seek_to (s32 wh) cur sz off in
  _ ← on_files (seek fd p);
  _ ← (if resultp =? 0 then skip else on_cpu (write_t 8 resultp p));
  ret 0.

Definition do_read : M K unit :=
  fd ← arg_fd 0;
  buf ← sys_arg 1;
  count ← sys_arg 2;
  op ← fd_open fd;
  if negb op then ret (neg 9) else
  '(out, got) ← on_files (read fd [] count);
  _ ← (if got =? 0 then skip else on_cpu (e_write buf out));
  ret got.

(** One turn of the tolerant copy: up to the end of a page, when it is
    mapped and can be read. *)
Definition copy_turn (buf cap : Z) (st : list Z * Z) : M K (list Z * Z + list Z) :=
  let '(b, o) := st in
  if cap <=? o then mret (inr b) else
  let at_ := u64 (buf + o) in
  let nx := u64 (page_align_down at_ + 0x1000) in
  let en := if nx <? u64 (buf + cap) then nx else u64 (buf + cap) in
  let c := u64 (en - at_) in
  k ← get;
  b' ← (if is_mapped (regions_ (k_mem k)) at_
        then try_catch (l ← on_cpu (e_read at_ c); lift (or_ub (blit b o l))) (mret b)
        else mret b);
  mret (inl (b', u64 (o + c))).
Definition copy_in (buf cap : Z) : M K (list Z) :=
  while_ (copy_turn buf cap) (replicate (Z.to_nat cap) 0, 0).

Definition max_write : Z := 0x4000000.
Definition do_write : M K unit :=
  fd ← arg_fd 0;
  buf ← sys_arg 1;
  count ← sys_arg 2;
  op ← fd_open fd;
  if negb op then ret count else
  b ← copy_in buf (if max_write <? count then max_write else count);
  n ← on_files (write fd b);
  ret n.

Definition iov_word (a : Z) : M K Z :=
  if kPointerSize abi =? 8 then on_cpu (read_t 8 a) else on_cpu (read_t 4 a).
(** The buffers [i], [i + 1], ...; the first one that cannot be read ends the call. *)
Fixpoint writev_loop (n : nat) (i iov fd total : Z) : M K Z :=
  match n with
  | O => mret total
  | S j =>
      let w := kPointerSize abi in
      base ← iov_word (u64 (iov + i * (2 * w)));
      len ← iov_word (u64 (iov + i * (2 * w) + w));
      if len =? 0 then writev_loop j (i + 1) iov fd total else
      _ ← vector len;
      r ← try_catch (l ← on_cpu (e_read base len); mret (Some l)) (mret None);
      match r with
      | None => mret total
      | Some l =>
          op ← fd_open fd;
          _ ← (if op : bool then _ ← on_files (write fd l); skip
               else if (fd =? 1) || (fd =? 2) then print fd l else skip);
          writev_loop j (i + 1) iov fd (u64 (total + len))
      end
  end.
Definition do_writev : M K unit :=
  fd ← arg_fd 0;
  iov ← sys_arg 1;
  cnt ← arg_fd 2;
  total ← writev_loop (Z.to_nat (Z.min cnt 1024)) 0 iov fd 0;
  ret total.

Definition do_close : M K unit := fd ← arg_fd 0; _ ← on_files (close fd); ret 0.

Definition link_target (path : string) : string :=
  if str_contains path "self/exe" then "/system/bin/app_process64"
  else if str_contains path "self/cwd" then "/" else "".
Definition do_readlinkat : M K unit :=
  path ← arg_path 1;
  buf ← sys_arg 2;
  bufsiz ← sys_arg 3;
  let tgt := bs (link_target path) in
  if bool_decide (tgt = []) then ret (neg 22) else
  let n := Z.min (zlen tgt) bufsiz in
  _ ← (if negb (buf =? 0) && negb (n =? 0) then on_cpu (e_write buf (take (Z.to_nat n) tgt)) else skip);
  ret n.
Definition do_getcwd : M K unit :=
  buf ← sys_arg 0;
  sz ← sys_arg 1;
  _ ← (if negb (buf =? 0) && (1 <? sz) then on_cpu (e_write buf (bs "/" ++ [0])) else skip);
  ret buf.

(** ** Identity *)

Definition do_getrandom : M K unit :=
  buf ← sys_arg 0;
  len ← sys_arg 1;
  _ ← vector len;
  let r := (fun i => u8 (0x9E * (i + 1))) <$> seqZ 0 len in
  _ ← (if len =? 0 then skip else on_cpu (e_write buf r));
  ret len.
Definition do_sched_getaffinity : M K unit :=
  sz ← sys_arg 1;
  mask ← sys_arg 2;
  let n := if negb (sz =? 0) && (sz <? 128) then sz else 8 in
  _ ← (if mask =? 0 then skip else on_cpu (e_write mask (0xff :: replicate (Z.to_nat (n - 1)) 0)));
  ret n.

(** [bytes], padded with zeros to a field of [n]. *)
Definition field (n : nat) (l : list Z) : list Z := l ++ replicate (n - length l) 0.
Definition do_prctl : M K unit :=
  opt ← sys_arg 0;
  _ ← (if opt =? 16 then
         p ← sys_arg 1;
         k ← get;
         if p =? 0 then skip else on_cpu (e_write p (field 16 (comm_of (k_sys k))))
       else skip);
  ret 0.

Definition utsname : list Z :=
  concat ((fun s => field 65 (bs s)) <$>
    ["Linux"; "localhost"; "4.14.180-perf+"; "#1 SMP PREEMPT"; "aarch64"; "localdomain"])%string.
Definition do_uname : M K unit :=
  p ← sys_arg 0; _ ← (if p =? 0 then skip else on_cpu (e_write p utsname)); ret 0.

Definition sysinfo_bytes : list Z :=
  le_bytes 8 43200 ++ replicate 32 0 ++ le_bytes 8 (6 * 2 ^ 30) ++ le_bytes 8 (3 * 2 ^ 30) ++
  replicate 56 0 ++ le_bytes 4 1 ++ replicate 12 0.
Definition do_sysinfo : M K unit :=
  p ← sys_arg 0; _ ← (if p =? 0 then skip else on_cpu (e_write p sysinfo_bytes)); ret 0.

Definition do_nanosleep : M K unit :=
  y ← (if no_sleep_yield env then mret false
       else match yield_ with None => mret false | Some y => y end);
  if y : bool then skip else ret 0.

(** The first calls of a number, and every 100000th, are logged with the
    program counter and the link register. *)
Definition do_unknown (nr : Z) : M K unit :=
  k ← get;
  let c := u64 (default 0 (seen k !! nr) + 1) in
  _ ← set_seen (<[nr := c]> (seen k));
  _ ← (if (c <=? 5) || (c mod 100000 =? 0)
       then _ ← on_cpu (read_reg abi Pc); _ ← on_cpu (read_reg abi Lr); skip else skip);
  ret (neg 38).

(** ** The dispatcher *)

Definition handle (s : Sys.t) (nr : Z) : M K unit :=
  match s with
  | Sys.Getpid | Sys.Gettid | Sys.SetTidAddress => ret 1234
  | Sys.Getuid | Sys.Geteuid | Sys.Getgid => ret 10234
  | Sys.ArmCacheflush | Sys.Ptrace | Sys.Noop | Sys.Munmap | Sys.Futex | Sys.Madvise | Sys.Fcntl
  | Sys.Ioctl => ret 0
  | Sys.ArmSetTls => v ← sys_arg 0; _ ← on_cpu (write_uc_reg A32_C13_C0_3 v); ret 0
  | Sys.Exit | Sys.ExitGroup => stop
  | Sys.ClockGettime => do_clock_gettime
  | Sys.Gettimeofday => do_gettimeofday
  | Sys.ClockGetres => do_clock_getres
  | Sys.Mmap | Sys.Mmap2 => do_mmap s
  | Sys.Mprotect => do_mprotect
  | Sys.Mremap => do_mremap
  | Sys.Brk => do_brk
  | Sys.OpenLegacy => do_open 0
  | Sys.Openat => do_openat
  | Sys.AccessLegacy => do_access 0
  | Sys.Faccessat => do_access 1
  | Sys.StatPath => do_stat 0
  | Sys.Fstatat => do_stat 1
  | Sys.Fstat => do_fstat
  | Sys.Lseek => do_lseek
  | Sys.Llseek => do_llseek
  | Sys.Read => do_read
  | Sys.Write => do_write
  | Sys.Writev => do_writev
  | Sys.Close => do_close
  | Sys.Readlinkat => do_readlinkat
  | Sys.Getcwd => do_getcwd
  | Sys.Getrandom => do_getrandom
  | Sys.SchedGetaffinity => do_sched_getaffinity
  | Sys.Prctl => do_prctl
  | Sys.Uname => do_uname
  | Sys.Sysinfo => do_sysinfo
  | Sys.Nanosleep => do_nanosleep
  | Sys.Unknown => do_unknown nr
  end.

Definition run_call (nr : Z) : M K unit :=
  if kill_esrch env && ((nr =? 129) || (nr =? 130) || (nr =? 131)) then ret (neg 3) else
  let s := normalize abi nr in
  handle (if legacy_syscalls env && expansion s then Sys.Unknown else s) nr.

Fixpoint sys_args (l : list nat) : M K (list Z) :=
  match l with [] => mret [] | i :: r => a ← sys_arg i; t ← sys_args r; mret (a :: t) end.

(** The destructor of the guard. *)
Definition observe (nr : Z) (args : list Z) : M K unit :=
  k ← get;
  if observing_ k then
    r ← on_cpu (read_reg abi Ret0);
    tell_observer (mkTraced nr (sys_name (normalize abi nr)) args (u64 r))
  else skip.
(** [m] in the scope of a guard that runs [g] at its end, return or throw. *)
Definition guard_scope {A} (g : M K unit) (m : M K A) : M K A := fun k =>
  match m k with
  | (UB, k') => (UB, k')
  | (r, k') => match g k' with (Ret _, k2) => (r, k2) | (_, k2) => (UB, k2) end
  end.

Definition dispatch : M K unit :=
  v ← on_cpu (read_reg abi SyscallNr);
  let nr := u64 v in
  k ← get;
  args ← (if observing_ k then sys_args (seq 0 6) else mret (replicate 6 0));
  guard_scope (observe nr args) (run_call nr).
End Syscalls.
