(* ===== verification/SyscallFacts.v ===== *)
(** What the system-call layer keeps and answers: theorems on
    [core/android/syscalls.cpp] as modelled in [Syscalls]. *)

From stdpp Require Import strings.
From S2P Require Import Prelude.
From S2P Require Import Words.
From S2P Require Import Loops.
From S2P Require Import Abi.
From S2P Require Import Unicorn.
From S2P Require Import Engine.
From S2P Require Import Memory.
From S2P Require Import CText.
From S2P Require Import Vfs.
From S2P Require Import System.
From S2P Require Import SysTable.
From S2P Require Import Syscalls.
#[local] Open Scope Z_scope.

(** ** Properties every handler keeps

    A handler changes the kernel through calls of the memory manager, calls of
    the device facade, and its own statics.  A property that each of these
    keeps is kept by every handler: the walk through the handlers is done
    once, for the interface. *)

Section Invariant.
Context {U : Type} `{UcLaws U}.

Class KernelInv (P : Kernel U -> Prop) : Prop := {
  inv_mem {A} (op : M (Memory U) A) : preserves mem_wf op -> preserves P (on_mem op);
  inv_sys {A} (op : M System A) : preserves (fun s => vfs_wf (vfs_ s)) op -> preserves P (on_sys op);
  inv_local f : (forall k, k_mem (f k) = k_mem k /\ k_sys (f k) = k_sys k /\
                           observing_ (f k) = observing_ k /\ trace (f k) = trace k) ->
                preserves P (modify f);
}.

(** The region map is well formed and mirrors the emulator, and the
    descriptor table is well formed. *)
Definition kernel_wf (k : Kernel U) : Prop := mem_wf (k_mem k) /\ vfs_wf (files k).

#[export] Instance kernel_wf_inv : KernelInv kernel_wf.
Proof.
  split.
  - intros A op Hop k r k' [Hm Hv]. unfold on_mem. destruct (op (k_mem k)) as [r1 m1] eqn:E.
    intros [= <- <-]. split; [by eapply Hop|done].
  - intros A op Hop k r k' [Hm Hv]. unfold on_sys. destruct (op (k_sys k)) as [r1 s1] eqn:E.
    intros [= <- <-]. split; [done|]. by eapply (Hop _ _ _ Hv).
  - intros f Hf. apply preserves_modify. intros k. destruct (Hf k) as (E1 & E2 & _).
    unfold kernel_wf, files. by rewrite E1, E2.
Qed.

(** The observer is set, and was told [t] and perhaps more. *)
Definition traced (Q : list Traced -> Prop) (k : Kernel U) : Prop := observing_ k = true /\ Q (trace k).

#[export] Instance traced_inv Q : KernelInv (traced Q).
Proof.
  split.
  - intros A op Hop k r k' Hk. unfold on_mem. destruct (op (k_mem k)). by intros [= <- <-].
  - intros A op Hop k r k' Hk. unfold on_sys. destruct (op (k_sys k)). by intros [= <- <-].
  - intros f Hf. apply preserves_modify. intros k. destruct (Hf k) as (_ & _ & E1 & E2).
    unfold traced. by rewrite E1, E2.
Qed.
End Invariant.

Lemma preserves_snd {S A} (P : S -> Prop) (m : M S A) :
  (forall s, P s -> P (snd (m s))) -> preserves P m.
Proof. intros Hm s r s' Hs Hr. specialize (Hm s Hs). by rewrite Hr in Hm. Qed.

Section Kept.
Context {U : Type} `{UcLaws U}.
Context (P : Kernel U -> Prop) `{!KernelInv P}.
Variable abi : Abi.
Variable env : Env.

Lemma wf_on_mem {A} (op : M (Memory U) A) : preserves mem_wf op -> preserves P (on_mem op).
Proof. apply inv_mem. Qed.
Lemma wf_on_cpu {A} (op : M U A) : keeps_mapped op -> preserves P (on_cpu op).
Proof. intros. by apply wf_on_mem, uc_do_wf. Qed.
Lemma wf_on_vfs {A} (op : M Vfs A) : preserves vfs_wf op -> preserves (fun s => vfs_wf (vfs_ s)) (on_vfs op).
Proof.
  intros Hop s r s' Hs. unfold on_vfs. destruct (op (vfs_ s)) as [r1 v1] eqn:E. intros [= <- <-]. by eapply Hop.
Qed.
Lemma wf_on_files {A} (op : M Vfs A) : preserves vfs_wf op -> preserves P (on_files op).
Proof. intros. by apply inv_sys, wf_on_vfs. Qed.

(** An argument is a word, and reading it changes nothing. *)
Lemma with_same_mem (k : Kernel U) : with_mem k (with_m_uc (k_mem k) (m_uc (k_mem k))) = k.
Proof. by destruct k as [[] ? ? ? ? ? ? ?]. Qed.
Lemma sys_arg_run i (k : Kernel U) : sys_arg abi i k = (Ret (u64 (uc_reg_read (m_uc (k_mem k)) (sys_reg abi i))), k).
Proof.
  unfold sys_arg, read_uc_reg, on_cpu, on_mem, uc_do, gets. unfold mbind, M_mbind, M_bind.
  by rewrite with_same_mem.
Qed.

(** *** Handlers *)

Lemma wf_bind {A B} (m : M (Kernel U) A) (f : A -> M (Kernel U) B) :
  preserves P m -> (forall a, preserves P (f a)) -> preserves P (m ≫= f).
Proof. apply preserves_bind. Qed.
Lemma wf_arg i {A} (f : Z -> M (Kernel U) A) :
  (forall a, 0 <= a < 2 ^ 64 -> preserves P (f a)) -> preserves P (sys_arg abi i ≫= f).
Proof.
  intros Hf k r k' Hk. unfold mbind, M_mbind, M_bind. rewrite sys_arg_run. apply Hf; [apply u64_range|done].
Qed.
Lemma wf_get {A} (f : Kernel U -> M (Kernel U) A) :
  (forall k0, P k0 -> preserves P (f k0)) -> preserves P (get ≫= f).
Proof. intros Hf k r k' Hk Hr. by eapply (Hf k Hk). Qed.
Lemma wf_gets {A} (f : Kernel U -> A) : preserves P (gets f).
Proof. apply preserves_gets. Qed.
Lemma wf_lift {A} (o : outcome A) : preserves P (lift o).
Proof. apply preserves_lift. Qed.
Lemma wf_mret {A} (a : A) : preserves P (mret a).
Proof. apply preserves_ret. Qed.
Lemma wf_skip : preserves P skip.
Proof. apply preserves_ret. Qed.
Lemma wf_modify f :
  (forall k, k_mem (f k) = k_mem k /\ k_sys (f k) = k_sys k /\
             observing_ (f k) = observing_ k /\ trace (f k) = trace k) -> preserves P (modify f).
Proof. apply inv_local. Qed.

Lemma wf_ret v : preserves P (ret abi v).
Proof. apply wf_on_cpu, keeps_write_reg. Qed.
Lemma wf_wword a v : preserves P (wword abi a v).
Proof. unfold wword. case_match; apply wf_on_cpu, keeps_write. Qed.
Lemma wf_vector n : preserves P (vector n).
Proof. unfold vector. case_match; [apply preserves_throw|apply wf_mret]. Qed.
Lemma wf_stat64 st n m : preserves P (write_stat64 st n m).
Proof. repeat (apply wf_bind; [|intros _]); apply wf_on_cpu, keeps_write. Qed.
Lemma wf_iov a : preserves P (iov_word abi a).
Proof. unfold iov_word. case_match; apply wf_on_cpu, keeps_read_t. Qed.

Lemma wf_v_step {A} (op : M Vfs A) p : (forall v, vfs_step p v (snd (op v))) -> preserves P (on_files op).
Proof. intros Hs. apply wf_on_files, preserves_snd. intros v Hv. by eapply (vfs_step_wf p). Qed.
Lemma wf_seek fd p : 0 <= p -> preserves P (on_files (seek fd p)).
Proof. intros. apply (wf_v_step _ None). intros v. by constructor. Qed.
Lemma wf_vread fd o n : 0 <= n -> preserves P (on_files (read fd o n)).
Proof. intros. apply (wf_v_step _ None). intros v. by constructor. Qed.
Lemma wf_vwrite fd d : preserves P (on_files (write fd d)).
Proof. apply (wf_v_step _ None). intros v. constructor. Qed.
Lemma wf_vclose fd : preserves P (on_files (close fd)).
Proof. apply (wf_v_step _ None). intros v. constructor. Qed.

Lemma wf_sys_vopen path flags : preserves P (sys_vopen env path flags).
Proof.
  apply wf_get. intros k0 _. apply inv_sys. unfold vopen.
  assert (forall p, preserves (fun s => vfs_wf (vfs_ s)) (on_vfs (open p path flags))) as Ho
    by (intros p; apply wf_on_vfs, preserves_snd; intros v; apply wf_open).
  intros s r s' Hs. rewrite bind_get. destruct (_ || _); [by apply Ho|].
  refine (preserves_bind (fun s => vfs_wf (vfs_ s)) (lift _) _ (preserves_lift _ _) _ s r s' Hs). intros f. apply Ho.
Qed.
Lemma wf_sys_vexists path : preserves P (sys_vexists env path).
Proof.
  apply wf_get. intros k0 _. apply inv_sys. unfold vexists.
  intros s r s' Hs. rewrite bind_get. destruct (_ || _); [by intros [= _ <-]|].
  refine (preserves_bind (fun s => vfs_wf (vfs_ s)) (lift _) _ (preserves_lift _ _) _ s r s' Hs). intros f. apply preserves_ret.
Qed.
Lemma wf_now_ns : preserves P (on_sys now_ns).
Proof. apply inv_sys. intros s r s' Hs [= _ <-]. exact Hs. Qed.
End Kept.

Create HintDb kwf.
#[export] Hint Resolve wf_mret wf_skip wf_gets wf_lift wf_ret wf_wword wf_vector wf_stat64 wf_iov wf_seek
  wf_vread wf_vwrite wf_vclose wf_sys_vopen wf_sys_vexists wf_now_ns preserves_throw : kwf.
#[export] Hint Resolve wf_on_mem wf_on_cpu : kwf.
#[export] Hint Resolve keeps_read keeps_write keeps_read_t keeps_read_reg keeps_write_uc_reg keeps_gets
  protect_wf map_fixed_wf mmap_alloc_wf heap_alloc_wf : kwf.

(** Case by case through a handler, the shared steps by their lemmas. *)
Ltac kwf :=
  repeat lazymatch goal with
  | |- preserves _ (mbind _ (sys_arg _ _)) => apply wf_arg; intros ? ?
  | |- preserves _ (mbind _ get) => apply wf_get; intros ? ?
  | |- preserves _ (mbind _ _) => apply wf_bind; [|intros ?]
  | |- preserves _ (try_catch _ _) => apply preserves_try
  | |- preserves _ (let '(_, _) := ?p in _) => destruct p
  | |- preserves _ (if ?b then _ else _) => destruct b eqn:?
  | |- preserves _ (modify _) => apply wf_modify; [assumption|intros ?; by repeat split]
  | |- preserves _ (match ?o with Some _ => _ | None => _ end) => destruct o
  | |- preserves _ (let x := _ in _) => cbv zeta
  end; bool_to_Prop; try (solve [eauto with kwf lia]).

Section Dispatch.
Context {U : Type} `{UcLaws U}.
Context (P : Kernel U -> Prop) `{!KernelInv P}.
Variable abi : Abi.
Variable env : Env.
Variable yield_ : option (M (Kernel U) bool).
#[local] Abbreviation wf m := (preserves P m).

Lemma wf_arg_path i {A} (f : string -> M (Kernel U) A) :
  (forall p, wf (f p)) -> wf (arg_path abi i ≫= f).
Proof. intros Hf. apply wf_bind; [unfold arg_path; kwf|done]. Qed.

Lemma wf_time : wf (do_clock_gettime abi) /\ wf (do_gettimeofday abi) /\ wf (do_clock_getres abi).
Proof. split; [|split]; [unfold do_clock_gettime|unfold do_gettimeofday|unfold do_clock_getres]; kwf. Qed.

Lemma wf_fill flags fd off len addr :
  0 <= off -> 0 <= len -> wf (fill_from_file flags fd off len addr).
Proof. intros. unfold fill_from_file, fd_open. kwf. Qed.

Lemma wf_fix_page mpf p : wf (fix_page mpf p).
Proof. unfold fix_page. kwf. Qed.

Lemma wf_mmap s : wf (do_mmap abi env s).
Proof.
  unfold do_mmap. do 4 (apply wf_arg; intros ? ?). apply wf_arg; intros a5 H5.
  apply wf_arg; intros ? ?. cbv zeta.
  assert (0 <= (if bool_decide (s = Sys.Mmap2) then u64 (Z.shiftl a5 12) else a5)) as Ho
    by (case_match; [apply u64_range|lia]).
  match goal with |- preserves _ (if ?b then _ else _) => destruct b end.
  - apply wf_bind; [apply preserves_for_each; intros; by apply wf_fix_page|intros _].
    apply wf_bind; [apply wf_fill; [done|lia]|intros _]. by apply wf_ret.
  - apply wf_bind; [eauto with kwf|intros ?].
    apply wf_bind; [apply wf_fill; [done|lia]|intros _]. by apply wf_ret.
Qed.

Lemma wf_mappings : wf (do_mprotect abi) /\ wf (do_mremap abi) /\ wf (do_brk abi env).
Proof. split; [|split]; [unfold do_mprotect|unfold do_mremap|unfold do_brk, set_brk]; kwf. Qed.

Lemma wf_paths i : wf (do_open abi env i) /\ wf (do_access abi env i) /\ wf (do_openat abi env) /\
  wf (do_readlinkat abi) /\ wf (do_getcwd abi).
Proof.
  split; [|split; [|split; [|split]]].
  - unfold do_open, arg_path, arg_fd. kwf.
  - unfold do_access, arg_path. kwf.
  - unfold do_openat, arg_path, arg_fd. kwf.
  - unfold do_readlinkat, arg_path. kwf.
  - unfold do_getcwd. kwf.
Qed.

Lemma wf_stat i : wf (do_stat abi env i).
Proof. unfold do_stat, arg_path, vsize. kwf. Qed.

Lemma seek_to_nonneg wh cur sz off : 0 <= off -> 0 <= seek_to wh cur sz off.
Proof. intros. unfold seek_to. repeat case_match; try apply u64_range. done. Qed.

Lemma wf_seeks : wf (do_fstat abi) /\ wf (do_lseek abi) /\ wf (do_llseek abi).
Proof.
  split; [|split].
  - unfold do_fstat, arg_fd, fd_open, vsize. kwf.
  - unfold do_lseek, arg_fd, fd_open, vsize, vtell. kwf. apply wf_seek; [done|]. apply seek_to_nonneg. lia.
  - unfold do_llseek, arg_fd, fd_open, vsize, vtell. kwf. apply wf_seek; [done|]. apply seek_to_nonneg.
    apply Z.lor_nonneg. split; [apply u64_range|]. apply Z.land_nonneg. lia.
Qed.

Lemma wf_copy buf cap : wf (copy_in buf cap).
Proof.
  apply preserves_while. intros [b o]. unfold copy_turn. kwf.
Qed.

Lemma wf_writev_loop n i iov fd total : wf (writev_loop abi n i iov fd total).
Proof.
  revert i total. induction n as [|n IH]; intros i total; cbn [writev_loop]; [apply wf_mret|].
  unfold fd_open, print. kwf.
Qed.

Lemma wf_transfer : wf (do_read abi) /\ wf (do_write abi) /\ wf (do_writev abi) /\ wf (do_close abi).
Proof.
  split; [|split; [|split]].
  - unfold do_read, arg_fd, fd_open. kwf.
  - unfold do_write, arg_fd, fd_open. kwf; apply wf_copy.
  - unfold do_writev, arg_fd. kwf; apply wf_writev_loop.
  - unfold do_close, arg_fd. kwf.
Qed.

Lemma wf_identity : wf (do_getrandom abi) /\ wf (do_sched_getaffinity abi) /\ wf (do_prctl abi) /\
  wf (do_uname abi) /\ wf (do_sysinfo abi).
Proof.
  split; [|split; [|split; [|split]]]; [unfold do_getrandom|unfold do_sched_getaffinity|unfold do_prctl|
    unfold do_uname|unfold do_sysinfo]; kwf.
Qed.

Lemma wf_unknown nr : wf (do_unknown abi nr).
Proof. unfold do_unknown, set_seen. kwf. Qed.

Lemma wf_nanosleep : (forall y, yield_ = Some y -> wf y) -> wf (do_nanosleep abi env yield_).
Proof. intros Hy. unfold do_nanosleep. kwf. Qed.

Lemma wf_handle s nr : (forall y, yield_ = Some y -> wf y) -> wf (handle abi env yield_ s nr).
Proof.
  intros Hy. destruct wf_time as (? & ? & ?), wf_mappings as (? & ? & ?), wf_seeks as (? & ? & ?),
    wf_transfer as (? & ? & ? & ?), wf_identity as (? & ? & ? & ? & ?),
    (wf_paths 0) as (? & ? & ? & ? & ?), (wf_paths 1) as (? & ? & _).
  destruct s; cbn [handle]; first [assumption|apply wf_mmap|apply wf_stat|apply wf_unknown|by apply wf_nanosleep|
    unfold stop; kwf].
Qed.

Lemma wf_sys_args l : wf (sys_args abi l).
Proof. induction l; cbn [sys_args]; kwf. Qed.

Lemma wf_run_call nr : (forall y, yield_ = Some y -> wf y) -> wf (run_call abi env yield_ nr).
Proof. intros Hy. unfold run_call. case_match; [by apply wf_ret|by apply wf_handle]. Qed.
End Dispatch.

(** ** The dispatcher *)

Section Calls.
Context {U : Type} `{UcLaws U}.
Variable abi : Abi.
Variable env : Env.
Variable yield_ : option (M (Kernel U) bool).

Lemma wf_guard {A} (P : Kernel U -> Prop) (g : M (Kernel U) unit) (m : M (Kernel U) A) :
  preserves P g -> preserves P m -> preserves P (guard_scope g m).
Proof.
  intros Hg Hm k r k' Hk. unfold guard_scope. destruct (m k) as [o k1] eqn:E.
  pose proof (Hm _ _ _ Hk E) as H1. destruct o as [a|e|]; [| |by intros [= _ <-]];
    destruct (g k1) as [[x|x|] k2] eqn:E2; intros [= _ <-]; by eapply Hg.
Qed.

(** The registers the guest made the call with. *)
Definition reg_of (k : Kernel U) (r : ucreg) : Z := u64 (uc_reg_read (m_uc (k_mem k)) r).
Definition nr_of (k : Kernel U) : Z :=
  match reg_id abi SyscallNr with Ret r => reg_of k r | _ => 0 end.
Definition ret_of (k : Kernel U) : Z :=
  match reg_id abi Ret0 with Ret r => reg_of k r | _ => 0 end.
Definition args_of (k : Kernel U) : list Z := (fun i => reg_of k (sys_reg abi i)) <$> seq 0 6.

Lemma on_cpu_read (r : ucreg) (k : Kernel U) :
  on_cpu (read_uc_reg r) k = (Ret (uc_reg_read (m_uc (k_mem k)) r), k).
Proof. unfold on_cpu, on_mem, uc_do, read_uc_reg, gets. by rewrite with_same_mem. Qed.
Lemma on_cpu_read_reg r i (k : Kernel U) :
  reg_id abi r = Ret i -> on_cpu (read_reg abi r) k = (Ret (uc_reg_read (m_uc (k_mem k)) i), k).
Proof. intros E. unfold read_reg. rewrite E. apply on_cpu_read. Qed.
Lemma sys_args_run l (k : Kernel U) :
  sys_args abi l k = (Ret ((fun i => reg_of k (sys_reg abi i)) <$> l), k).
Proof.
  induction l as [|i l IH]; [done|]. cbn [sys_args].
  rewrite (bind_run _ _ _ _ _ (sys_arg_run abi i k)), (bind_run _ _ _ _ _ IH). done.
Qed.

(** The call without its frame: reading the number and the arguments. *)
Lemma sys_dispatch_eq (k : Kernel U) :
  dispatch abi env yield_ k =
  guard_scope (observe abi (nr_of k) (if observing_ k then args_of k else replicate 6 0))
              (run_call abi env yield_ (nr_of k)) k.
Proof.
  assert (exists r, reg_id abi SyscallNr = Ret r) as [r Er] by (destruct abi; eauto).
  unfold dispatch. rewrite (bind_run _ _ _ _ _ (on_cpu_read_reg _ _ k Er)). cbv zeta. rewrite bind_get.
  unfold nr_of, args_of. rewrite Er. destruct (observing_ k) eqn:Eo; [|done].
  by rewrite (bind_run _ _ _ _ _ (sys_args_run _ k)).
Qed.
(** The guard always has its say. *)
Definition told (nr : Z) (args : list Z) (k : Kernel U) : Kernel U :=
  if observing_ k
  then snd (tell_observer (mkTraced nr (sys_name (normalize abi nr)) args (ret_of k)) k) else k.
Lemma observe_eq nr args (k : Kernel U) : observe abi nr args k = (Ret tt, told nr args k).
Proof.
  assert (exists r, reg_id abi Ret0 = Ret r) as [r Er] by (destruct abi; eauto).
  unfold observe, told, ret_of. rewrite bind_get. destruct (observing_ k); [|done].
  rewrite (bind_run _ _ _ _ _ (on_cpu_read_reg _ _ k Er)), Er. done.
Qed.
Lemma guard_inv {A} (m : M (Kernel U) A) nr args k r k' :
  guard_scope (observe abi nr args) m k = (r, k') ->
  exists k1, m k = (r, k1) /\ (r <> UB -> k' = told nr args k1) /\ (r = UB -> k' = k1).
Proof.
  unfold guard_scope. destruct (m k) as [[a|e|] k1]; rewrite ?observe_eq; intros [= <- <-];
    exists k1; done.
Qed.

(** C14: whatever the guest asks and however the call ends, an error the
    dispatcher does not catch included, the region map stays sorted, disjoint
    and backed by the emulator, and the descriptor table stays well formed. *)
Theorem dispatch_wf :
  (forall y, yield_ = Some y -> preserves kernel_wf y) -> preserves kernel_wf (dispatch abi env yield_).
Proof.
  intros Hy k r k' Hk. rewrite sys_dispatch_eq. intros (k1 & E & H1 & H2)%guard_inv.
  assert (kernel_wf k1) as Hk1 by by eapply (wf_run_call _ _ _ _ _ Hy).
  destruct r; [rewrite H1 by done|rewrite H1 by done|by rewrite H2]; unfold told; by destruct (observing_ k1).
Qed.

(** An observer that is set hears of every call exactly once, at its end,
    whether the call returns or throws: the number, the arguments as they were
    at entry and the result as it is then. What a yield hook reports comes
    before; without one the call adds a single entry. *)
Lemma dispatch_traced k r k' :
  (forall y t, yield_ = Some y -> preserves (traced (fun l => t `prefix_of` l)) y) ->
  observing_ k = true -> dispatch abi env yield_ k = (r, k') -> r <> UB ->
  exists l, trace k `prefix_of` l /\ (yield_ = None -> l = trace k) /\
    trace k' = l ++ [mkTraced (nr_of k) (sys_name (normalize abi (nr_of k))) (args_of k) (ret_of k')].
Proof.
  intros Hy Ho. rewrite sys_dispatch_eq, Ho. intros (k1 & E & H1 & _)%guard_inv Hr. rewrite H1 by done.
  assert (traced (fun l => trace k `prefix_of` l) k1) as [Ho1 Hp].
  { eapply (wf_run_call (traced _)); [|by split|exact E]. intros y Ey. by apply Hy. }
  unfold told. rewrite Ho1. exists (trace k1). split; [done|]. split; [|done].
  intros En. eapply (wf_run_call (traced (fun l => l = trace k)) abi env yield_ _ _ k); [by split|exact E].
  Unshelve. intros y Ey. congruence.
Qed.
End Calls.

(** ** Refusals *)

Section Errors.
Context {U : Type} `{UcLaws U}.
Variable abi : Abi.
Variable env : Env.
Variable yield_ : option (M (Kernel U) bool).

Definition arg_of (k : Kernel U) (i : nat) : Z := reg_of k (sys_reg abi i).
Definition path_of (k : Kernel U) (i : nat) : string := text (read_cstr (arg_of k i) 4096 (m_uc (k_mem k))).

Lemma arg_run i {A} (f : Z -> M (Kernel U) A) k : (sys_arg abi i ≫= f) k = f (arg_of k i) k.
Proof. by rewrite (bind_run _ _ _ _ _ (sys_arg_run abi i k)). Qed.
Lemma path_run i {A} (f : string -> M (Kernel U) A) k : (arg_path abi i ≫= f) k = f (path_of k i) k.
Proof. apply bind_run. unfold arg_path. by rewrite arg_run. Qed.
Lemma fd_run i {A} (f : Z -> M (Kernel U) A) k : (arg_fd abi i ≫= f) k = f (s32 (arg_of k i)) k.
Proof. apply bind_run. unfold arg_fd. by rewrite arg_run. Qed.
Lemma open_run fd {A} (f : bool -> M (Kernel U) A) k : (fd_open fd ≫= f) k = f (is_open (files k) fd) k.
Proof. done. Qed.

(** Nothing has this name: no file, no directory, and nothing synthesized. *)
Definition missing (k : Kernel U) (path : string) : Prop :=
  store_ (files k) !! path = None /\ is_dir (files k) path = false /\
  synth (hide_proc env) (k_sys k) (k_mem k) path = Ret None.

Lemma with_same_files (k : Kernel U) : with_sys k (with_vfs (k_sys k) (files k)) = k.
Proof. by destruct k as [? [] ? ? ? ? ? ?]. Qed.

Lemma ask_missing s (m : Memory U) path :
  synth (hide_proc env) s m path = Ret None -> ask (hide_proc env) s m path = Ret (fun _ => None).
Proof. intros E. unfold ask. by rewrite E. Qed.

Lemma vopen_missing k path flags :
  missing k path -> wants_write flags = false -> sys_vopen env path flags k = (Ret 0, k).
Proof.
  intros (Hs & _ & Hy) Hw. unfold sys_vopen. rewrite bind_get. unfold on_sys, vopen. rewrite bind_get.
  fold (files k). rewrite Hw, Hs. cbn [orb]. rewrite bool_decide_false by by intros [? ?].
  rewrite (ask_missing _ _ _ Hy), bind_lift_ret. unfold on_vfs, open. rewrite bind_get. fold (files k).
  rewrite Hw, Hs. rewrite bool_decide_false by by intros [? ?].
  cbn [provided]. change (mret (M := M Vfs) 0 (files k)) with (@Ret Z 0, files k). cbv beta iota zeta.
  by rewrite with_same_files.
Qed.
Lemma vexists_missing k path : missing k path -> sys_vexists env path k = (Ret false, k).
Proof.
  intros (Hs & Hd & Hy). unfold sys_vexists. rewrite bind_get. unfold on_sys, vexists. rewrite bind_get.
  fold (files k). rewrite Hs, Hd, bool_decide_false by by intros [? ?]. cbn [orb].
  rewrite (ask_missing _ _ _ Hy), bind_lift_ret. unfold exists_. fold (files k). rewrite Hs, Hd.
  cbn [provided]. rewrite !bool_decide_false by by intros [? ?]. by destruct k as [? [] ? ? ? ? ? ?].
Qed.

(** The calls the layer refuses, with the error number. *)
Inductive refused (k : Kernel U) : Sys.t -> Z -> Prop :=
| refused_fd s :
    s ∈ [Sys.Read; Sys.Lseek; Sys.Llseek; Sys.Fstat] ->
    is_open (files k) (s32 (arg_of k 0)) = false -> refused k s 9
| refused_open s i :
    (s, i) ∈ [(Sys.OpenLegacy, 0%nat); (Sys.Openat, 1%nat)] -> missing k (path_of k i) ->
    wants_write (s32 (arg_of k (S i))) = false -> open_lr env = false -> refused k s 2
| refused_path s i :
    (s, i) ∈ [(Sys.AccessLegacy, 0%nat); (Sys.Faccessat, 1%nat); (Sys.StatPath, 0%nat); (Sys.Fstatat, 1%nat)] ->
    missing k (path_of k i) -> refused k s 2
| refused_link : link_target (path_of k 1) = "" -> refused k Sys.Readlinkat 22.

(** A refused call (a descriptor that is not open, a path nothing
    answers to, a link that is none) puts the negated error number in the
    return register and changes nothing else: no descriptor is spent, no file
    created, no byte of the guest written. *)
Lemma refused_call s nr e k : refused k s e -> handle abi env yield_ s nr k = ret abi (neg e) k.
Proof.
  intros Hr. destruct Hr as [s Hs Ho|s i Hs Hm Hw Hl|s i Hs Hm|Hl].
  - repeat (apply elem_of_cons in Hs as [->|Hs]); [..|by apply not_elem_of_nil in Hs]; cbn [handle].
    + unfold do_read. by rewrite fd_run, !arg_run, open_run, Ho.
    + unfold do_lseek. by rewrite fd_run, open_run, Ho.
    + unfold do_llseek. by rewrite fd_run, open_run, Ho.
    + unfold do_fstat. by rewrite fd_run, open_run, Ho.
  - repeat (apply elem_of_cons in Hs as [[= -> ->]|Hs]); [..|by apply not_elem_of_nil in Hs]; cbn [handle].
    + unfold do_open. rewrite path_run, fd_run.
      by rewrite (bind_run _ _ _ _ _ (vopen_missing _ _ _ Hm Hw)).
    + unfold do_openat. rewrite path_run, fd_run, (bind_run _ _ _ _ _ (vopen_missing _ _ _ Hm Hw)), Hl.
      by rewrite andb_false_r, bind_skip.
  - assert (do_access abi env i k = ret abi (neg 2) k) as Ha.
    { unfold do_access. rewrite path_run, (bind_run _ _ _ _ _ (vexists_missing _ _ Hm)).
      erewrite bind_run; [|by erewrite bind_run; [|by apply vopen_missing]]. done. }
    assert (do_stat abi env i k = ret abi (neg 2) k) as Hst.
    { unfold do_stat. rewrite path_run, (bind_run _ _ _ _ _ (vopen_missing _ _ 0 Hm eq_refl)).
      cbn [Z.eqb negb]. rewrite bind_get. destruct Hm as (_ & -> & _). done. }
    repeat (apply elem_of_cons in Hs as [[= -> ->]|Hs]); [..|by apply not_elem_of_nil in Hs]; done.
  - cbn [handle]. unfold do_readlinkat. rewrite path_run, !arg_run, Hl. done.
Qed.
End Errors.
