(* ===== verification/SyscallIo.v ===== *)
(** Files seen from the guest: what a program that makes [write], [lseek]
    and [read] calls gets, down to its own memory. *)

From stdpp Require Import strings.
From S2P Require Import Prelude.
From S2P Require Import Words.
From S2P Require Import Loops.
From S2P Require Import Abi.
From S2P Require Import Unicorn.
From S2P Require Import Engine.
From S2P Require Import Memory.
From S2P Require Import Vfs.
From S2P Require Import System.
From S2P Require Import SysTable.
From S2P Require Import Syscalls.
From S2P Require Import SyscallFacts.
#[local] Open Scope Z_scope.

Section Copy.
Context {U : Type} `{UcLaws U}.

(** ** Copying in from the guest *)

Section Buffer.
Variables (k : Kernel U) (buf cap : Z) (data : list Z).
Hypothesis Hrange : 0 <= buf /\ 0 <= cap /\ buf + cap <= 2 ^ 64 - 4096.
Hypothesis Hdata : uc_mem_read (m_uc (k_mem k)) buf cap = Some data.
Hypothesis Hmap : forall x, buf <= x < buf + cap -> is_mapped (regions_ (k_mem k)) x = true.

(** The buffer after [o] bytes. *)
Definition copied (o : Z) : list Z := take (Z.to_nat o) data ++ replicate (Z.to_nat (cap - o)) 0.

Lemma data_length : zlen data = cap.
Proof. by apply law_read_len in Hdata as [? _]. Qed.

Lemma chunk_read o c :
  0 <= o -> 0 <= c -> o + c <= cap ->
  uc_mem_read (m_uc (k_mem k)) (buf + o) c = Some (take (Z.to_nat c) (drop (Z.to_nat o) data)).
Proof.
  intros Ho Hc Hoc. replace cap with (o + (c + (cap - o - c))) in Hdata by lia.
  apply law_read_split in Hdata as [_ Hd]; [|lia..].
  by apply law_read_split in Hd as [Hd _]; [|lia..].
Qed.

Lemma copied_blit o c :
  0 <= o -> 0 <= c -> o + c <= cap ->
  blit (copied o) o (take (Z.to_nat c) (drop (Z.to_nat o) data)) = Some (copied (o + c)).
Proof.
  intros Ho Hc Hoc. pose proof data_length as Hl. unfold zlen in Hl.
  assert (length (take (Z.to_nat o) data) = Z.to_nat o) as L1 by (rewrite length_take; lia).
  assert (length (take (Z.to_nat c) (drop (Z.to_nat o) data)) = Z.to_nat c) as L2
    by (rewrite length_take, length_drop; lia).
  rewrite blit_ok; [|done|].
  - f_equal. unfold copied. rewrite L2, take_app_length' by done.
    rewrite drop_app, (drop_ge (take (Z.to_nat o) data)) by (rewrite L1; lia). 
    rewrite L1, app_nil_l, drop_replicate, app_assoc, take_take_drop.
    f_equal; f_equal; lia.
  - unfold zlen, copied. rewrite length_app, L1, L2, length_replicate. lia.
Qed.

(** A turn copies at least one byte and goes no further than the end. *)
Lemma copy_turn_run o :
  0 <= o < cap -> exists c, 0 < c /\ o + c <= cap /\
    copy_turn buf cap (copied o, o) k = (Ret (inl (copied (o + c), o + c)), k).
Proof.
  intros Ho. set (pg := page_align_down (buf + o)).
  assert (pg = buf + o - (buf + o) mod 4096) as Epg by (apply page_align_down_eq; lia).
  pose proof (Z.mod_pos_bound (buf + o) 4096 ltac:(lia)) as Hm.
  exists (Z.min (pg + 4096 - (buf + o)) (cap - o)). split; [lia|]. split; [lia|].
  unfold copy_turn. rewrite (proj2 (Z.leb_gt _ _)) by lia. cbv zeta.
  rewrite (u64_id (buf + o)), (u64_id (buf + cap)) by lia. fold pg.
  change 0x1000 with 4096. rewrite (u64_id (pg + 4096)) by lia.
  assert ((if pg + 4096 <? buf + cap then pg + 4096 else buf + cap) - (buf + o)
          = Z.min (pg + 4096 - (buf + o)) (cap - o)) as Ec by (case_Z; lia).
  rewrite Ec. set (c := Z.min _ _) in *. rewrite (u64_id c) by lia. rewrite bind_get, Hmap by lia.
  erewrite bind_run; [|].
  2: { unfold try_catch. erewrite bind_run; [|].
       2: { unfold on_cpu, on_mem, uc_do, e_read. rewrite chunk_read by lia. rewrite with_same_mem. reflexivity. }
       rewrite copied_blit by lia. reflexivity. }
  rewrite u64_id by lia. done.
Qed.

(** Read through mapped pages, the buffer is exactly the guest's bytes. *)
Lemma copy_in_run : cap <= max_write -> copy_in buf cap k = (Ret data, k).
Proof.
  intros Hcap. unfold max_write in Hcap.
  assert (forall n o, 0 <= o <= cap -> (Z.to_nat (cap - o) <= n)%nat ->
    ended (nat_loop (S n) (copy_turn buf cap) (copied o, o) k) = Some (Ret data, k)) as Hl.
  { induction n as [|n IH]; intros o Ho Hn.
    - assert (o = cap) as -> by lia. cbn [nat_loop]. unfold M_bind at 1, copy_turn.
      rewrite Z.leb_refl. cbn. unfold copied. rewrite Z.sub_diag, app_nil_r, <- data_length, zlen_to_nat.
      by rewrite take_ge by done.
    - destruct (Z.eq_dec o cap) as [->|Hne].
      + cbn [nat_loop]. unfold M_bind at 1, copy_turn. rewrite Z.leb_refl. cbn.
        unfold copied. rewrite Z.sub_diag, app_nil_r, <- data_length, zlen_to_nat. by rewrite take_ge by done.
      + destruct (copy_turn_run o) as (c & Hc & Hoc & E); [lia|].
        change (nat_loop (S (S n)) ?f ?s) with (M_bind (loop_then (nat_loop (S n) f)) (f s)).
        unfold M_bind at 1. rewrite E. cbn [loop_then]. apply IH; lia. }
  unfold copy_in. apply (while_stop (S (Z.to_nat cap))); [lia|].
  replace (replicate (Z.to_nat cap) 0) with (copied 0) by (unfold copied; by rewrite Z.sub_0_r).
  apply Hl; lia.
Qed.
End Buffer.
End Copy.

(** ** A program making calls *)

Section Program.
Context {U : Type} `{UcLaws U}.
Variable abi : Abi.
Variable env : Env.
Variable yield_ : option (M (Kernel U) bool).
#[local] Abbreviation K := (Kernel U).

(** The guest loads the registers, traps, and reads its return register. *)
Fixpoint load_args (i : nat) (l : list Z) : M K unit :=
  match l with [] => skip | v :: r => _ ← on_cpu (write_uc_reg (sys_reg abi i) v); load_args (S i) r end.
Definition svc (nr : Z) (args : list Z) : M K Z :=
  _ ← load_args 0 args;
  _ ← on_cpu (write_reg abi SyscallNr nr);
  _ ← dispatch abi env yield_;
  on_cpu (read_reg abi Ret0).

(** The same files, mappings and bytes; registers may differ. *)
Definition agree (k k' : K) : Prop :=
  regions_ (k_mem k') = regions_ (k_mem k) /\ files k' = files k /\
  (forall a n, uc_mem_read (m_uc (k_mem k')) a n = uc_mem_read (m_uc (k_mem k)) a n) /\
  (forall x, uc_mapped (m_uc (k_mem k')) x = uc_mapped (m_uc (k_mem k)) x).

#[export] Instance agree_equiv : Equivalence agree.
Proof.
  split.
  - intros k. done.
  - intros k k' (E1 & E2 & E3 & E4). by repeat split; intros.
  - intros k1 k2 k3 (E1 & E2 & E3 & E4) (F1 & F2 & F3 & F4).
    repeat split; intros; by (etrans; [apply F1 || apply F2 || apply F3 || apply F4|]).
Qed.

Definition word_bits : Z := if kIs64 abi then 64 else 32.
Definition fits (v : Z) : Prop := 0 <= v < 2 ^ word_bits.
Lemma fits_range v : fits v -> 0 <= v < 2 ^ 64.
Proof. unfold fits, word_bits. destruct (kIs64 abi); lia. Qed.

(** Writing a register disturbs nothing but the register. *)
Definition write_r (r : ucreg) (v : Z) (k : K) : K := with_mem k (with_m_uc (k_mem k) (uc_reg_write (m_uc (k_mem k)) r v)).
Lemma write_r_run r v k : on_cpu (write_uc_reg r v) k = (Ret tt, write_r r v k).
Proof. done. Qed.
Lemma k_write_reg_run r i v k :
  reg_id abi r = Ret i -> on_cpu (write_reg abi r v) k = (Ret tt, write_r i v k).
Proof. intros E. unfold write_reg. by rewrite E. Qed.
Lemma agree_write_r r v k : agree k (write_r r v k).
Proof.
  split; [done|]. split; [done|]. split; intros; cbn; [apply law_read_reg|apply law_reg_mapped].
Qed.
Lemma reg_write_same r v k :
  reg_width r = Some word_bits -> fits v -> reg_of (write_r r v k) r = v.
Proof.
  intros Hw Hv. unfold reg_of. cbn. rewrite (law_reg_same _ _ _ _ Hw), Z.mod_small by done.
  by apply u64_id, fits_range.
Qed.
Lemma reg_write_other r r' v k : r <> r' -> reg_of (write_r r v k) r' = reg_of k r'.
Proof. intros Hne. unfold reg_of. cbn. by rewrite law_reg_other. Qed.

Lemma sys_reg_bits i : reg_width (sys_reg abi i) = Some word_bits.
Proof. apply sys_reg_width. Qed.

Lemma load_args_run l i k :
  Forall fits l -> (i + length l <= 6)%nat ->
  exists k', load_args i l k = (Ret tt, k') /\ agree k k' /\
    (forall j v, l !! j = Some v -> arg_of abi k' (i + j) = v) /\
    (forall j, (j < i)%nat -> arg_of abi k' j = arg_of abi k j).
Proof.
  revert i k. induction l as [|v l IH]; intros i k Hl Hi.
  - exists k. split; [done|]. split; [done|]. by split.
  - apply Forall_cons in Hl as [Hv Hl]. cbn [length] in Hi.
    destruct (IH (S i) (write_r (sys_reg abi i) v k) Hl ltac:(lia)) as (k' & E & Ha & Hj & Hlow).
    exists k'. cbn [load_args]. rewrite (bind_run _ _ _ _ _ (write_r_run _ v k)).
    split; [done|]. split; [etrans; [apply agree_write_r|done]|]. split.
    + intros [|j] w; cbn; intros Hw.
      * simplify_eq. rewrite Nat.add_0_r, Hlow by lia. by apply reg_write_same; [apply sys_reg_bits|].
      * rewrite <- (Hj j w Hw). f_equal. lia.
    + intros j Hji. rewrite Hlow by lia. apply reg_write_other.
      intros E'%sys_reg_inj; lia.
Qed.

Lemma number_reg : exists r, reg_id abi SyscallNr = Ret r /\ reg_width r = Some word_bits /\
  forall i, (i < 6)%nat -> sys_reg abi i <> r.
Proof.
  unfold word_bits. destruct abi; cbn [reg_id kIs64]; eexists; split; try done; (split; [done|]); intros i Hi;
    do 6 (destruct i as [|i]; [done|]); lia.
Qed.
Lemma result_reg : exists r, reg_id abi Ret0 = Ret r /\ reg_width r = Some word_bits.
Proof. unfold word_bits. destruct abi; eexists; done. Qed.

(** The kill probe's numbers are no calls of their own. *)
Lemma kill_numbers nr :
  (nr =? 129) || (nr =? 130) || (nr =? 131) = true -> normalize abi nr ∈ [Sys.Noop; Sys.Unknown].
Proof.
  intros Hn. assert (nr = 129 \/ nr = 130 \/ nr = 131) as [-> | [-> | ->]] by (repeat case_Z; lia || done);
    destruct abi; by refine (bool_decide_unpack _ _).
Qed.

Lemma told_mem nr args k : k_mem (told abi nr args k) = k_mem k /\ agree k (told abi nr args k).
Proof. unfold told. destruct (observing_ k); done. Qed.

(** A call: the handler of the kind runs on a machine that agrees with the
    caller's and holds the arguments, and its answer is what the guest reads. *)
Lemma svc_run nr args s k :
  normalize abi nr = s -> expansion s = false -> s ∉ [Sys.Noop; Sys.Unknown] ->
  fits nr -> Forall fits args -> (length args <= 6)%nat ->
  exists k0, agree k k0 /\ (forall j v, args !! j = Some v -> arg_of abi k0 j = v) /\
    forall v k1, handle abi env yield_ s nr k0 = ret abi v k1 -> fits v ->
      exists k2, svc nr args k = (Ret v, k2) /\ agree k1 k2.
Proof.
  intros Hs Hx Hno Hnr Hargs Hlen.
  destruct (load_args_run args 0 k Hargs) as (k' & E & Ha & Hj & _); [lia|].
  destruct number_reg as (rn & En & Wn & Hn). destruct result_reg as (rr & Er & Wr).
  exists (write_r rn nr k'). split; [etrans; [done|apply agree_write_r]|]. split.
  { intros j v Hv. rewrite <- (Hj j v Hv). cbn [Nat.add]. apply lookup_lt_Some in Hv.
    apply reg_write_other. intros E'. apply (Hn j); [lia|done]. }
  intros v k1 Hk Hv. unfold svc. rewrite (bind_run _ _ _ _ _ E).
  rewrite (bind_run _ _ _ _ _ (k_write_reg_run _ _ nr k' En)).
  set (k0 := write_r rn nr k') in *.
  assert (nr_of abi k0 = nr) as Enr by (unfold nr_of; rewrite En; by apply reg_write_same).
  assert (dispatch abi env yield_ k0 = guard_scope (observe abi nr
    (if observing_ k0 then args_of abi k0 else replicate 6 0)) (ret abi v) k1) as Ed.
  { rewrite sys_dispatch_eq, Enr. unfold guard_scope, run_call.
    destruct ((nr =? 129) || (nr =? 130) || (nr =? 131)) eqn:E3;
      [apply kill_numbers in E3; by rewrite Hs in E3|].
    rewrite andb_false_r, Hs, Hx, andb_false_r, Hk. done. }
  unfold guard_scope, ret in Ed. rewrite (k_write_reg_run _ _ _ _ Er), observe_eq in Ed.
  rewrite (bind_run _ _ _ _ _ Ed).
  match type of Ed with _ = (_, told _ ?a ?b ?c) => destruct (told_mem a b c) as [Hm Ht] end.
  eexists. split; [|etrans; [apply agree_write_r|exact Ht]].
  rewrite (on_cpu_read_reg abi _ _ _ Er), Hm. cbn. rewrite (law_reg_same _ _ _ _ Wr).
  by rewrite Z.mod_small.
Qed.
(** *** The three calls *)

Definition with_files (k : K) (v : Vfs) : K := with_sys k (with_vfs (k_sys k) v).
Lemma on_files_run {A} (op : M Vfs A) k r v : op (files k) = (r, v) -> on_files op k = (r, with_files k v).
Proof. intros E. unfold on_files, on_sys, on_vfs. fold (files k). by rewrite E. Qed.

Lemma s32_fd fd : 0 <= fd < 2 ^ 31 -> s32 fd = fd.
Proof. intros. apply sext_id; lia. Qed.

Lemma do_write_run k fd buf data n v1 :
  arg_of abi k 0 = fd -> arg_of abi k 1 = buf -> arg_of abi k 2 = zlen data ->
  0 <= fd < 2 ^ 31 -> is_open (files k) fd = true -> zlen data <= max_write ->
  0 <= buf /\ buf + zlen data <= 2 ^ 64 - 4096 ->
  uc_mem_read (m_uc (k_mem k)) buf (zlen data) = Some data ->
  (forall x, buf <= x < buf + zlen data -> is_mapped (regions_ (k_mem k)) x = true) ->
  write fd data (files k) = (Ret n, v1) ->
  do_write abi k = ret abi n (with_files k v1).
Proof.
  intros E0 E1 E2 Hfd Ho Hmax [Hb Hr] Hd Hm Hw. unfold do_write.
  rewrite fd_run, !arg_run, E0, E1, E2, s32_fd, open_run, Ho by done. cbn [negb].
  rewrite (proj2 (Z.ltb_ge _ _)) by done.
  pose proof (zlen_nonneg data). rewrite (bind_run _ _ _ _ _ (copy_in_run k buf (zlen data) data ltac:(lia) Hd Hm Hmax)).
  by rewrite (bind_run _ _ _ _ _ (on_files_run _ _ _ _ Hw)).
Qed.

Lemma do_lseek_run k fd p v1 :
  arg_of abi k 0 = fd -> arg_of abi k 1 = p -> arg_of abi k 2 = 0 ->
  0 <= fd < 2 ^ 31 -> is_open (files k) fd = true -> seek fd p (files k) = (Ret tt, v1) ->
  do_lseek abi k = ret abi p (with_files k v1).
Proof.
  intros E0 E1 E2 Hfd Ho Hs. unfold do_lseek.
  rewrite fd_run, open_run, E0, s32_fd, Ho by done. cbn [negb].
  rewrite !arg_run, E1, E2. unfold vtell, vsize. rewrite !bind_gets. cbv zeta.
  change (seek_to (s32 0) _ _ p) with p. by rewrite (bind_run _ _ _ _ _ (on_files_run _ _ _ _ Hs)).
Qed.

Lemma do_read_run k fd dst data v1 u1 :
  arg_of abi k 0 = fd -> arg_of abi k 1 = dst -> arg_of abi k 2 = zlen data ->
  0 <= fd < 2 ^ 31 -> is_open (files k) fd = true -> zlen data <> 0 ->
  read fd [] (zlen data) (files k) = (Ret (data, zlen data), v1) ->
  uc_mem_write (m_uc (k_mem k)) dst data = Some u1 ->
  do_read abi k = ret abi (zlen data) (with_mem (with_files k v1) (with_m_uc (k_mem k) u1)).
Proof.
  intros E0 E1 E2 Hfd Ho Hn Hr Hu. unfold do_read.
  rewrite fd_run, !arg_run, E0, E1, E2, s32_fd, open_run, Ho by done. cbn [negb].
  rewrite (bind_run _ _ _ _ _ (on_files_run _ _ _ _ Hr)), (proj2 (Z.eqb_neq _ _)) by done.
  erewrite bind_run; [done|]. unfold on_cpu, on_mem, uc_do, e_write, check. cbn. by rewrite Hu.
Qed.

Lemma write_keeps_open fd d v n v1 : write fd d v = (Ret n, v1) -> is_open v fd = true -> is_open v1 fd = true.
Proof.
  unfold write, is_open. rewrite bind_get. intros Hw Ho. apply bool_decide_eq_true in Ho as [h Eh].
  rewrite Eh in Hw. apply bool_decide_eq_true. destruct (negb _); [injection Hw as <- <-; by exists h|].
  destruct (if _ =? 0 then _ else _) as [dst|e|]; [|done..]. rewrite bind_lift_ret, bind_modify in Hw.
  unfold put_handle in Hw. rewrite bind_modify in Hw. injection Hw as <- <-. cbn.
  rewrite lookup_insert_eq. by eexists.
Qed.
Lemma seek_run fd p v : is_open v fd = true -> exists v1, seek fd p v = (Ret tt, v1) /\ is_open v1 fd = true.
Proof.
  intros Ho. apply bool_decide_eq_true in Ho as [h Eh]. unfold seek. rewrite bind_get, Eh.
  eexists. split; [done|]. apply bool_decide_eq_true. cbn. rewrite lookup_insert_eq. by eexists.
Qed.

Lemma rw_kinds s : s = Sys.Write \/ s = Sys.Lseek \/ s = Sys.Read ->
  expansion s = false /\ s ∉ [Sys.Noop; Sys.Unknown].
Proof. intros [->|[->| ->]]; (split; [done|]); by refine (bool_decide_unpack _ _). Qed.

#[export] Instance with_files_proper : Proper (agree ==> eq ==> agree) with_files.
Proof. intros k k' (E1 & E2 & E3 & E4) v ? <-. by repeat split. Qed.

#[local] Ltac all_fit := by (repeat (apply Forall_cons_2; [assumption|]); apply Forall_nil_2).

(** One call each: the answer, and the machine afterwards up to registers. *)
Lemma svc_write nw k fd buf data n v1 :
  normalize abi nw = Sys.Write -> Forall fits [nw; fd; buf; zlen data; n] -> fd < 2 ^ 31 ->
  is_open (files k) fd = true -> zlen data <= max_write -> buf + zlen data <= 2 ^ 64 - 4096 ->
  uc_mem_read (m_uc (k_mem k)) buf (zlen data) = Some data ->
  (forall x, buf <= x < buf + zlen data -> is_mapped (regions_ (k_mem k)) x = true) ->
  write fd data (files k) = (Ret n, v1) ->
  exists k1, svc nw [fd; buf; zlen data] k = (Ret n, k1) /\ agree (with_files k v1) k1.
Proof.
  intros Nw HF Hfd Ho Hmax Hbuf Hrd Hmap Hw. rewrite !Forall_cons in HF.
  destruct HF as (Fw & Ff & Fb & Fl & Fn & _). destruct (rw_kinds Sys.Write) as [Hx Hno]; [by left|].
  destruct (svc_run nw [fd; buf; zlen data] _ k Nw Hx Hno Fw) as (k0 & Ha & Hj & Hc); [all_fit|cbn; lia|].
  destruct (Hc n (with_files k0 v1)) as (k1 & E1 & A1); [|done|].
  - destruct Ha as (R1 & R2 & R3 & R4). pose proof (proj1 Ff). pose proof (proj1 Fb). cbn [handle].
    eapply do_write_run; [by apply (Hj 0%nat)|by apply (Hj 1%nat)|by apply (Hj 2%nat)|done|by rewrite R2|done|
      done|by rewrite R3|by rewrite R1|by rewrite R2].
  - exists k1. split; [done|]. by rewrite Ha.
Qed.

Lemma svc_lseek nl k fd p v1 :
  normalize abi nl = Sys.Lseek -> Forall fits [nl; fd; p] -> fd < 2 ^ 31 -> is_open (files k) fd = true ->
  seek fd p (files k) = (Ret tt, v1) ->
  exists k1, svc nl [fd; p; 0] k = (Ret p, k1) /\ agree (with_files k v1) k1.
Proof.
  intros Nl HF Hfd Ho Hs. rewrite !Forall_cons in HF. destruct HF as (Fn & Ff & Fp & _).
  destruct (rw_kinds Sys.Lseek) as [Hx Hno]; [by right; left|].
  assert (fits 0) as F0 by (unfold fits, word_bits; destruct (kIs64 abi); lia).
  destruct (svc_run nl [fd; p; 0] _ k Nl Hx Hno Fn) as (k0 & Ha & Hj & Hc); [all_fit|cbn; lia|].
  destruct (Hc p (with_files k0 v1)) as (k1 & E1 & A1); [|done|].
  - destruct Ha as (R1 & R2 & R3 & R4). pose proof (proj1 Ff). cbn [handle].
    eapply do_lseek_run; [by apply (Hj 0%nat)|by apply (Hj 1%nat)|by apply (Hj 2%nat)|done|by rewrite R2|by rewrite R2].
  - exists k1. split; [done|]. by rewrite Ha.
Qed.

Lemma svc_read nr k fd dst data v1 :
  normalize abi nr = Sys.Read -> Forall fits [nr; fd; dst; zlen data] -> fd < 2 ^ 31 ->
  is_open (files k) fd = true -> bytes_ok data -> zlen data <> 0 ->
  (forall x, dst <= x < dst + zlen data -> uc_mapped (m_uc (k_mem k)) x = true) ->
  read fd [] (zlen data) (files k) = (Ret (data, zlen data), v1) ->
  exists k1, svc nr [fd; dst; zlen data] k = (Ret (zlen data), k1) /\
    uc_mem_read (m_uc (k_mem k1)) dst (zlen data) = Some data.
Proof.
  intros Nr HF Hfd Ho Hb Hn Hmap Hr. rewrite !Forall_cons in HF. destruct HF as (Fn & Ff & Fd & Fl & _).
  destruct (rw_kinds Sys.Read) as [Hx Hno]; [by right; right|].
  destruct (svc_run nr [fd; dst; zlen data] _ k Nr Hx Hno Fn) as (k0 & Ha & Hj & Hc); [all_fit|cbn; lia|].
  destruct Ha as (R1 & R2 & R3 & R4). pose proof (proj1 Ff).
  destruct (law_write_ok (m_uc (k_mem k0)) dst data) as [u1 Eu]; [intros x Hxr; rewrite R4; by apply Hmap|].
  destruct (Hc (zlen data) (with_mem (with_files k0 v1) (with_m_uc (k_mem k0) u1))) as (k1 & E1 & A1); [|done|].
  - cbn [handle]. eapply do_read_run; [by apply (Hj 0%nat)|by apply (Hj 1%nat)|by apply (Hj 2%nat)|done|
      by rewrite R2|done|by rewrite R2|done].
  - exists k1. split; [done|]. destruct A1 as (_ & _ & A & _). rewrite A. by apply (law_read_write _ _ _ _ Hb Eu).
Qed.

(** C7: on every architecture, bytes a program writes to an open file with
    [write] come back with [lseek] and [read]: the three calls return the
    length, the position and the length, the file holds the bytes at its
    position, and the destination in guest memory ends up with them. *)
Theorem file_round_trip k fd h buf dst data nw nl nr :
  normalize abi nw = Sys.Write -> normalize abi nl = Sys.Lseek -> normalize abi nr = Sys.Read ->
  Forall fits [nw; nl; nr; fd; buf; dst; pos h; zlen data] ->
  handles_ (files k) !! fd = Some h -> writable h = true -> synthetic h = false ->
  fd < 2 ^ 31 -> pos h + zlen data < 2 ^ 64 -> 0 < zlen data <= max_write ->
  buf + zlen data <= 2 ^ 64 - 4096 ->
  uc_mem_read (m_uc (k_mem k)) buf (zlen data) = Some data ->
  (forall x, buf <= x < buf + zlen data -> is_mapped (regions_ (k_mem k)) x = true) ->
  (forall x, dst <= x < dst + zlen data -> uc_mapped (m_uc (k_mem k)) x = true) ->
  exists k1 k2 k3,
    svc nw [fd; buf; zlen data] k = (Ret (zlen data), k1) /\
    store_ (files k1) = <[h_path h := overlay (default [] (store_ (files k) !! h_path h)) (pos h) data]>
                          (store_ (files k)) /\
    svc nl [fd; pos h; 0] k1 = (Ret (pos h), k2) /\
    svc nr [fd; dst; zlen data] k2 = (Ret (zlen data), k3) /\
    uc_mem_read (m_uc (k_mem k3)) dst (zlen data) = Some data.
Proof.
  intros Nw Nl Nr Hf Hh Hwr Hsy Hfd Hpos Hlen Hbuf Hrd Hmap Hdst.
  rewrite !Forall_cons in Hf. destruct Hf as (F1 & F2 & F3 & F4 & F5 & F6 & F7 & F8 & _).
  destruct (write_read_back (files k) fd h data Hh Hwr Hsy (proj1 F7) Hpos) as (v1 & Ew & Est & Esr).
  assert (is_open (files k) fd = true) as Ho by (apply bool_decide_eq_true; by eexists).
  destruct (svc_write nw k fd buf data (zlen data) v1 Nw) as (k1 & E1 & A1); try done; [all_fit|lia|].
  destruct A1 as (_ & Ef1 & _ & Em1). pose proof (write_keeps_open _ _ _ _ _ Ew Ho) as Ho1.
  destruct (seek_run fd (pos h) v1 Ho1) as (v2 & Es & Ho2).
  change (files (with_files k v1)) with v1 in Ef1.
  destruct (svc_lseek nl k1 fd (pos h) v2 Nl) as (k2 & E2 & A2); [all_fit|done|by rewrite Ef1|by rewrite Ef1|].
  destruct A2 as (_ & Ef2 & _ & Em2). change (files (with_files k1 v2)) with v2 in Ef2.
  rewrite (bind_run _ _ _ _ _ Es) in Esr. destruct (read fd [] (zlen data) v2) as [r3 v3] eqn:Er. cbn in Esr.
  destruct (svc_read nr k2 fd dst data v3 Nr) as (k3 & E3 & Hd); [all_fit|done|by rewrite Ef2| | | | |].
  - by apply law_read_len in Hrd as [_ ?].
  - lia.
  - intros x Hx. rewrite Em2. cbn. rewrite Em1. cbn. by apply Hdst.
  - by rewrite Ef2, Er, Esr.
  - exists k1, k2, k3. split; [done|]. split; [by rewrite Ef1|]. done.
Qed.
End Program.

(** ** Witnesses and examples *)

(** A machine with a library and an anonymous mapping, an observer, and a
    file open as descriptor 3; three bytes at the start of the mapping. *)
Definition demo_kernel : Kernel RefUc :=
  mkKernel demo_mem1 (init_system default_identity false false) 0 ∅ false [] true [].
Definition demo_io : Kernel RefUc :=
  snd ((_ ← on_files (open None "/data/a" (kRdWr + kCreat)); on_cpu (e_write kMmapBase [7; 8; 9])) demo_kernel).

Lemma demo_kernel_wf : kernel_wf demo_kernel.
Proof. split; [exact demo_mem1_wf|]. split; [vm_compute; by split|apply map_Forall_empty]. Qed.

Lemma dispatch_wf_witness :
  kernel_wf (snd (dispatch Arm64 no_env (Some (mret true)) demo_kernel)).
Proof.
  refine (dispatch_wf Arm64 no_env (Some (mret true)) _ demo_kernel _ _ demo_kernel_wf (surjective_pairing _)).
  intros y [= <-]. apply wf_mret.
Defined.

(** [getpid], observed. *)
Definition demo_getpid : Kernel RefUc := snd (on_cpu (write_reg Arm64 SyscallNr 172) demo_kernel).
Lemma dispatch_traced_witness :
  trace (snd (dispatch Arm64 no_env None demo_getpid)) = [mkTraced 172 "getpid" [0; 0; 0; 0; 0; 0] 1234].
Proof.
  destruct (dispatch_traced Arm64 no_env None demo_getpid _ _ ltac:(by intros y t [=]) eq_refl
              (surjective_pairing _)) as (l & _ & Hl & E).
  - assert (fst (dispatch Arm64 no_env None demo_getpid) = Ret tt) as -> by (vm_compute; reflexivity). done.
  - rewrite E, (Hl eq_refl). vm_compute. reflexivity.
Defined.

(** A read from a closed descriptor, an [openat] of nothing. *)
Lemma refused_call_witness :
  handle Arm64 no_env None Sys.Read 63 demo_kernel = ret Arm64 (2 ^ 64 - 9) demo_kernel /\
  handle Arm64 no_env None Sys.Openat 56 demo_kernel = ret Arm64 (2 ^ 64 - 2) demo_kernel.
Proof.
  split.
  - refine (refused_call Arm64 no_env None Sys.Read 63 9 demo_kernel (refused_fd _ _ _ _ _ _)).
    + apply list_elem_of_here.
    + vm_compute. reflexivity.
  - refine (refused_call Arm64 no_env None Sys.Openat 56 2 demo_kernel (refused_open _ _ _ _ 1 _ _ _ _)).
    + apply elem_of_cons. right. apply list_elem_of_here.
    + split; [|split]; vm_compute; reflexivity.
    + vm_compute. reflexivity.
    + reflexivity.
Defined.

Lemma file_round_trip_witness :
  let h := mkHandle "/data/a" [] 0 true false false in
  exists k1 k2 k3 : Kernel RefUc,
    svc Arm64 no_env None 64 [3; kMmapBase; 3] demo_io = (Ret 3, k1) /\
    store_ (files k1) !! "/data/a" = Some [7; 8; 9] /\
    svc Arm64 no_env None 62 [3; 0; 0] k1 = (Ret 0, k2) /\
    svc Arm64 no_env None 63 [3; kMmapBase + 0x100; 3] k2 = (Ret 3, k3) /\
    uc_mem_read (m_uc (k_mem k3)) (kMmapBase + 0x100) 3 = Some [7; 8; 9].
Proof.
  intros h.
  assert (handles_ (files demo_io) !! 3 = Some h) as Hh by (vm_compute; reflexivity).
  assert (uc_mem_read (m_uc (k_mem demo_io)) kMmapBase 3 = Some [7; 8; 9]) as Hr by (vm_compute; reflexivity).
  assert (Forall (fits Arm64) [64; 62; 63; 3; kMmapBase; kMmapBase + 0x100; 0; 3]) as Hf
    by (repeat (apply Forall_cons_2; [vm_compute; by split|]); apply Forall_nil_2).
  assert (forall x, kMmapBase <= x < kMmapBase + 3 -> is_mapped (regions_ (k_mem demo_io)) x = true) as Hm.
  { intros x Hx. assert (x = kMmapBase \/ x = kMmapBase + 1 \/ x = kMmapBase + 2) as [-> | [-> | ->]] by lia;
      vm_compute; reflexivity. }
  assert (forall x, kMmapBase + 0x100 <= x < kMmapBase + 0x100 + 3 -> uc_mapped (m_uc (k_mem demo_io)) x = true) as Hd.
  { intros x Hx. assert (x = kMmapBase + 0x100 \/ x = kMmapBase + 0x101 \/ x = kMmapBase + 0x102) as [-> | [-> | ->]]
      by lia; vm_compute; reflexivity. }
  destruct (file_round_trip Arm64 no_env None demo_io 3 h kMmapBase (kMmapBase + 0x100) [7; 8; 9] 64 62 63
    eq_refl eq_refl eq_refl Hf Hh eq_refl eq_refl ltac:(lia) ltac:(vm_compute; reflexivity)
    ltac:(vm_compute; by split) ltac:(vm_compute; discriminate) Hr Hm Hd)
    as (k1 & k2 & k3 & E1 & Es & E2 & E3 & Em).
  exists k1, k2, k3. split; [exact E1|]. split; [rewrite Es; vm_compute; reflexivity|]. split; [exact E2|]. split; [exact E3|exact Em].
Defined.

(** A number no table knows is refused on ARM; on x86 the log line asks for a
    link register the architecture has not, and the call throws instead. *)
Example unknown_number :
  fst (svc Arm64 no_env None 5000 [] demo_kernel) = Ret (2 ^ 64 - 38) /\
  fst (svc X86_64 no_env None 5000 [] demo_kernel) = Throw "x86_64 has no link register".
Proof. vm_compute. done. Qed.

(** [readlink] of x86_64 is dispatched as [readlinkat]: its path is looked
    for in the second argument, the buffer. *)
Example readlink_wrong_slot : normalize X86_64 89 = Sys.Readlinkat /\ normalize X86_64 267 = Sys.Readlinkat.
Proof. done. Qed.

(** The probe of a tamper check gets its refusal for the numbers 129 to 131
    whatever the architecture calls so. *)
Example kill_probe_numbers :
  let env := mkEnv true false false false false false false false in
  fst (svc Arm64 env None 129 [0; 9] demo_kernel) = Ret (2 ^ 64 - 3) /\ normalize X86_64 62 = Sys.Noop /\
  fst (svc X86_64 env None 62 [0; 9] demo_kernel) = Ret 0.
Proof. vm_compute. done. Qed.
