(* ===== verification/Libc.v ===== *)
(** The C library the guest sees, memory and allocation:
    [core/android/stubs.cpp], [register_defaults].

    A stub reads its arguments from the argument registers, works on guest
    memory through host buffers, and puts its result in the return register.
    This file has the state all stubs share, the steps they are made of, the
    mem* functions, the allocator and the static-initialisation guards. *)

From S2P Require Import Prelude.
From S2P Require Import Words.
From S2P Require Import Loops.
From S2P Require Import Abi.
From S2P Require Import Unicorn.
From S2P Require Import Engine.
From S2P Require Import Memory.
#[local] Open Scope Z_scope.

(** The members of [Stubs] that cache a guest address until it is asked for
    again; 0 while there is none. *)
Inductive Slot :=
| strtok_save_ | strerror_buf_ | locale_buf_ | inet_ntoa_buf_ | errno_slot_
| ctype_b_ | ctype_tolower_ | ctype_toupper_ | brk_stub_ | auxv_random_ | lconv_ | tm_buf_.
#[export] Instance Slot_eq_dec : EqDecision Slot.
Proof. solve_decision. Defined.

(** The slots, the state of the drand48 family, and what was printed to the
    host's stderr. *)
Record Cells := mkCells {
  slots : Slot -> Z;
  rand48 : Z;
  printed : list (list Z);
}.
Definition init_cells : Cells := mkCells (fun _ => 0) 0x1234ABCD330E [].

(** With the memory manager: what most stubs work on. *)
Record Libc (U : Type) := mkLibc {
  l_mem : Memory U;
  l_cells : Cells;
}.
Arguments mkLibc {U}. Arguments l_mem {U}. Arguments l_cells {U}.

(** ** Byte strings on the host *)

(** The sign of [memcmp] and of [std::string::compare]; only the sign of
    either is specified. *)
Fixpoint compare (a b : list Z) : Z :=
  match a, b with
  | [], [] => 0
  | [], _ :: _ => -1
  | _ :: _, [] => 1
  | x :: a, y :: b => if x <? y then -1 else if y <? x then 1 else compare a b
  end.

(** The position of the first element that satisfies [p]. *)
Fixpoint first_at {A} (p : A -> bool) (l : list A) : option nat :=
  match l with
  | [] => None
  | x :: r => if p x then Some O else S <$> first_at p r
  end.

(** [l] starts with [pre]. *)
Fixpoint starts_with (pre l : list Z) : bool :=
  match pre, l with
  | [], _ => true
  | x :: pre, y :: l => (x =? y) && starts_with pre l
  | _ :: _, [] => false
  end.
(** The position of the first occurrence of [sub]. *)
Fixpoint find_sub (sub l : list Z) : option nat :=
  if starts_with sub l then Some O else
  match l with [] => None | _ :: r => S <$> find_sub sub r end.

Section Libc.
Context {U : Type} `{UcOps U}.
#[local] Abbreviation L := (Libc U).
Variable abi : Abi.
(** VARDOGER_HEAP_TIGHT and VARDOGER_LEGACY_MALLOC. *)
Variables tight legacy_malloc : bool.

(** ** The steps of a stub *)

Definition with_l_mem (s : L) (m : Memory U) : L := mkLibc m (l_cells s).
Definition on_l_mem {A} (op : M (Memory U) A) : M L A := fun s =>
  let '(r, m) := op (l_mem s) in (r, with_l_mem s m).
Definition on_l_uc {A} (op : M U A) : M L A := on_l_mem (uc_do op).
Definition set_slot (k : Slot) (v : Z) : M L unit := modify (fun s =>
  let c := l_cells s in
  mkLibc (l_mem s) (mkCells (fun j => if decide (j = k) then v else slots c j) (rand48 c) (printed c))).
Definition get_slot (k : Slot) : M L Z := gets (fun s => slots (l_cells s) k).
Definition set_rand48 (v : Z) : M L unit := modify (fun s =>
  mkLibc (l_mem s) (mkCells (slots (l_cells s)) v (printed (l_cells s)))).
Definition fputs (l : list Z) : M L unit := modify (fun s =>
  mkLibc (l_mem s) (mkCells (slots (l_cells s)) (rand48 (l_cells s)) (printed (l_cells s) ++ [l]))).

Definition arg (r : Reg) : M L Z := v ← on_l_uc (read_reg abi r); mret (u64 v).
Definition result (v : Z) : M L unit := on_l_uc (write_reg abi Ret0 v).
(** [static_cast<uint64_t>(static_cast<int64_t>(r))]. *)
Definition signed_result (r : Z) : M L unit := result (u64 r).
Definition rd (a n : Z) : M L (list Z) := on_l_uc (e_read a n).
Definition wr (a : Z) (l : list Z) : M L unit := on_l_uc (e_write a l).
Definition rd_word (n : nat) (a : Z) : M L Z := on_l_uc (read_t n a).
Definition wr_word (n : nat) (a v : Z) : M L unit := on_l_uc (write_t n a v).
(** [e.read_cstr(p, max)]. *)
Definition cstr_max (p max : Z) : M L (list Z) := s ← get; mret (read_cstr p (Z.to_nat max) (m_uc (l_mem s))).
Definition cstr (p : Z) : M L (list Z) := cstr_max p 4096.
(** [std::vector<uint8_t> b(n)], which throws past its maximum. *)
Definition vec (n : Z) : M L unit :=
  if 2 ^ 63 <=? n then throw "cannot create std::vector larger than max_size()" else skip.

(** ** mem* *)

(** Through a host buffer: all of it is read before any of it is written. *)
Definition copy_bytes (d s n : Z) : M L unit :=
  if n =? 0 then skip else _ ← vec n; b ← rd s n; wr d b.
Definition do_memcpy : M L unit :=
  d ← arg A0; s ← arg A1; n ← arg A2; _ ← copy_bytes d s n; result d.
Definition do_mempcpy : M L unit :=
  d ← arg A0; s ← arg A1; n ← arg A2; _ ← copy_bytes d s n; result (u64 (d + n)).
Definition do_memset : M L unit :=
  d ← arg A0; c ← arg A1; n ← arg A2;
  _ ← (if n =? 0 then skip else _ ← vec n; wr d (replicate (Z.to_nat n) (u8 c)));
  result d.
Definition do_memcmp : M L unit :=
  a ← arg A0; b ← arg A1; n ← arg A2;
  _ ← vec n;
  r ← (if n =? 0 then mret 0 else x ← rd a n; y ← rd b n; mret (compare x y));
  signed_result r.
Definition do_memchr : M L unit :=
  s ← arg A0; n ← arg A2; c ← arg A1;
  _ ← vec n;
  b ← (if n =? 0 then mret [] else rd s n);
  result (match first_at (Z.eqb (u8 c)) b with Some i => u64 (s + Z.of_nat i) | None => 0 end).
Definition do_memmem : M L unit :=
  hp ← arg A0; hl ← arg A1; np ← arg A2; nl ← arg A3;
  if nl =? 0 then result hp else
  if hl <? nl then result 0 else
  _ ← vec hl; _ ← vec nl;
  hay ← rd hp hl; need ← rd np nl;
  result (match find_sub need hay with Some i => u64 (hp + Z.of_nat i) | None => 0 end).

(** ** The allocator *)

Definition kBigAlloc : Z := 0x400000.
Definition heap (n : Z) : M L Z := on_l_mem (heap_alloc tight n 16).
Definition big_or_heap (n : Z) : M L Z :=
  if legacy_malloc then heap n else
  if kBigAlloc <=? n then on_l_mem (big_alloc n UC_PROT_RW "malloc-big") else
  r ← heap n;
  if negb (r =? 0) then mret r else on_l_mem (big_alloc (if n =? 0 then 1 else n) UC_PROT_RW "malloc-of").
Definition do_malloc : M L unit := n ← arg A0; r ← big_or_heap n; result r.
Definition do_calloc : M L unit := a ← arg A0; b ← arg A1; r ← big_or_heap (u64 (a * b)); result r.
(** The old size is unknown: [n] bytes are copied. *)
Definition do_realloc : M L unit :=
  p ← arg A0; n ← arg A1;
  np ← big_or_heap n;
  _ ← (if (p =? 0) || (n =? 0) || (np =? 0) then skip else _ ← vec n; b ← rd p n; wr np b);
  result np.
Definition do_free : M L unit := skip.
Definition do_op_new : M L unit := n ← arg A0; r ← heap (if n =? 0 then 1 else n); result r.

(** ** Initialisation guards *)

Definition do_guard_acquire : M L unit :=
  g ← arg A0; b ← rd_word 1 g; result (if b =? 0 then 1 else 0).
Definition do_guard_release : M L unit := g ← arg A0; wr g [1].

(** ** Small answers *)

(** Built on the first call, the same address ever after. *)
Definition once_built (k : Slot) (build : M L unit) : M L unit :=
  v ← get_slot k; _ ← (if v =? 0 then build else skip); v ← get_slot k; result v.

Definition do_const (v : Z) : M L unit := result v.
(** The argument itself. *)
Definition do_arg (r : Reg) : M L unit := v ← arg r; result v.
(** The negation of the least value overflows. *)
Definition do_abs : M L unit :=
  a ← arg A0; let v := s64 a in
  if v =? - 2 ^ 63 then lift UB else result (u64 (Z.abs v)).
Definition do_sysconf : M L unit :=
  n ← arg A0;
  result (if (n =? 30) || (n =? 39) then 4096 else if (n =? 96) || (n =? 97) then 4
          else if n =? 2 then 100 else u64 (-1)).
Definition do_errno : M L unit :=
  once_built errno_slot_ (p ← heap 8; _ ← set_slot errno_slot_ p; wr p (le_bytes 4 0)).

(** drand48: a 48-bit linear congruential generator. *)
Definition step48 (x : Z) : Z := Z.land (u64 (0x5DEECE66D * x + 0xB)) 0xFFFFFFFFFFFF.
Definition do_srand48 : M L unit :=
  a ← arg A0; _ ← set_rand48 (Z.lor (Z.shiftl (Z.land a 0xffffffff) 16) 0x330e); result 0.
Definition do_seed48 : M L unit := _ ← set_rand48 0x1234ABCD330E; result 0.
Definition do_lrand48 : M L unit :=
  s ← get; let x := step48 (rand48 (l_cells s)) in
  _ ← set_rand48 x; result (Z.land (Z.shiftr x 17) 0x7FFFFFFF).
Definition do_mrand48 : M L unit :=
  s ← get; let x := step48 (rand48 (l_cells s)) in
  _ ← set_rand48 x; result (Z.land (Z.shiftr x 16) 0xFFFFFFFF).

(** [mprotect]: page by page, unmapped pages are mapped. *)
Definition prot_bits (prot : Z) : Z :=
  Z.lor (if Z.land prot 1 =? 0 then 0 else UC_PROT_READ)
    (Z.lor (if Z.land prot 2 =? 0 then 0 else UC_PROT_WRITE) (if Z.land prot 4 =? 0 then 0 else UC_PROT_EXEC)).
Definition mprotect_page (up p : Z) : M L unit :=
  s ← get;
  if is_mapped (regions_ (l_mem s)) p then on_l_mem (protect p 0x1000 up)
  else _ ← on_l_mem (map_fixed p 0x1000 (if up =? 0 then UC_PROT_RW else up) Other "mprotect-fill"); skip.
Definition do_libc_mprotect : M L unit :=
  a ← arg A0; n ← arg A1; prot ← arg A2;
  let lo := page_align_down a in
  let hi := page_align_down (u64 (a + (if n =? 0 then 1 else n) + 0xfff)) in
  _ ← for_each (mprotect_page (prot_bits prot)) (pages_between lo hi);
  result 0.
End Libc.
