(* ===== verification/LibcStr.v ===== *)
(** The C library the guest sees, strings: [core/android/stubs.cpp],
    [register_defaults].

    A string argument is read by [read_cstr]: up to a NUL, an unmapped byte
    or 4096 bytes, whichever comes first. *)

From S2P Require Import Prelude.
From S2P Require Import Words.
From S2P Require Import Loops.
From S2P Require Import Abi.
From S2P Require Import Unicorn.
From S2P Require Import Engine.
From S2P Require Import Memory.
From S2P Require Import Libc.
#[local] Open Scope Z_scope.

(** ** On the host *)

(** The position of the last element that satisfies [p]. *)
Fixpoint last_at {A} (p : A -> bool) (l : list A) : option nat :=
  match l with
  | [] => None
  | x :: r => match last_at p r with Some i => Some (S i) | None => if p x then Some O else None end
  end.

Definition in_set (set : list Z) (c : Z) : bool := bool_decide (c ∈ set).
(** The length of the longest prefix whose elements satisfy [p]. *)
Fixpoint run_length {A} (p : A -> bool) (l : list A) : nat :=
  match l with [] => O | x :: r => if p x then S (run_length p r) else O end.

(** ['A'] to ['Z'] lowered. *)
Definition lower (c : Z) : Z := if (65 <=? c) && (c <=? 90) then c + 32 else c.
Definition is_digit (c : Z) : bool := (48 <=? c) && (c <=? 57).

(** [strcasecmp]: the difference at the first mismatch, a missing byte counts
    as 0. *)
Fixpoint case_compare (a b : list Z) : Z :=
  match a, b with
  | x :: a, y :: b => let d := lower x - lower y in if d =? 0 then case_compare a b else d
  | _, _ => lower (hd 0 a) - lower (hd 0 b)
  end.
(** [strncasecmp], at most [n] positions. *)
Fixpoint case_compare_n (n : nat) (a b : list Z) : Z :=
  match n with
  | O => 0
  | S k =>
      let x := hd 0 a in let y := hd 0 b in
      let d := lower x - lower y in
      if negb (d =? 0) || (x =? 0) then d else case_compare_n k (tl a) (tl b)
  end.

(** [strverscmp]: runs of digits compare by value, everything else by byte.
    Every turn takes a byte off at least one string. *)
Fixpoint version_compare (fuel : nat) (a b : list Z) : Z :=
  match fuel with
  | O => 0
  | S k =>
      match a, b with
      | [], [] => 0
      | _, _ =>
          if is_digit (hd 0 a) && is_digit (hd 0 b) then
            let a' := drop (run_length (Z.eqb 48) a) a in
            let b' := drop (run_length (Z.eqb 48) b) b in
            let la := run_length is_digit a' in
            let lb := run_length is_digit b' in
            if negb (Nat.eqb la lb) then (if Nat.ltb la lb then -1 else 1) else
            let c := compare (take la a') (take lb b') in
            if negb (c =? 0) then c
            else version_compare k (drop (run_length is_digit a) a) (drop (run_length is_digit b) b)
          else
            let x := hd 0 a in let y := hd 0 b in
            if x =? y then version_compare k (tl a) (tl b) else if x <? y then -1 else 1
      end
  end.

Section Strings.
Context {U : Type} `{UcOps U}.
#[local] Abbreviation L := (Libc U).
Variable abi : Abi.
Variables tight legacy_malloc : bool.
(** [strerror] of the host. *)
Variable strerror_text : Z -> list Z.

#[local] Abbreviation arg := (arg abi).
#[local] Abbreviation result := (result abi).

(** ** Searching *)

Definition do_strlen : M L unit := p ← arg A0; s ← cstr p; result (zlen s).
(** Bytes of [s] before a NUL, at most [maxlen]. *)
Definition count_to (s maxlen : Z) : M L Z :=
  while_ (fun n => if maxlen <=? n then mret (inr n) else
                   c ← rd_word 1 (u64 (s + n));
                   mret (if c =? 0 then inr n else inl (u64 (n + 1)))) 0.
Definition do_strnlen : M L unit := s ← arg A0; maxlen ← arg A1; n ← count_to s maxlen; result n.

Definition at_or_null (s : Z) (i : option nat) : Z :=
  match i with Some i => u64 (s + Z.of_nat i) | None => 0 end.
(** The terminator counts as part of the string. *)
Definition do_strchr : M L unit :=
  s ← arg A0; c ← arg A1; str ← cstr s; result (at_or_null s (first_at (Z.eqb (u8 c)) (str ++ [0]))).
Definition do_strrchr : M L unit :=
  s ← arg A0; c ← arg A1; str ← cstr s; result (at_or_null s (last_at (Z.eqb (u8 c)) (str ++ [0]))).
Definition do_strchrnul : M L unit :=
  s ← arg A0; c ← arg A1; str ← cstr s;
  result (at_or_null s (first_at (fun x => (u8 c =? x) || (x =? 0)) (str ++ [0]))).
Definition do_strstr : M L unit :=
  hp ← arg A0; hay ← cstr hp; np ← arg A1; needle ← cstr np;
  result (at_or_null hp (find_sub needle hay)).
Definition do_strspn : M L unit :=
  p ← arg A0; s ← cstr p; q ← arg A1; a ← cstr q; result (Z.of_nat (run_length (in_set a) s)).
Definition do_strcspn : M L unit :=
  p ← arg A0; s ← cstr p; q ← arg A1; r ← cstr q; result (Z.of_nat (run_length (fun c => negb (in_set r c)) s)).
Definition do_strpbrk : M L unit :=
  p ← arg A0; s ← cstr p; q ← arg A1; a ← cstr q; result (at_or_null p (first_at (in_set a) s)).

(** ** Comparing *)

Definition do_strcmp : M L unit :=
  p ← arg A0; a ← cstr p; q ← arg A1; b ← cstr q; signed_result abi (compare a b).
Definition do_strncmp : M L unit :=
  n ← arg A2; p ← arg A0; a ← cstr_max p n; q ← arg A1; b ← cstr_max q n; signed_result abi (compare a b).
Definition do_strcasecmp : M L unit :=
  p ← arg A0; a ← cstr p; q ← arg A1; b ← cstr q; signed_result abi (case_compare a b).
Definition do_strncasecmp : M L unit :=
  p ← arg A0; a ← cstr p; q ← arg A1; b ← cstr q; n ← arg A2;
  signed_result abi (case_compare_n (Z.to_nat n) a b).
Definition do_strverscmp : M L unit :=
  p ← arg A0; a ← cstr p; q ← arg A1; b ← cstr q;
  signed_result abi (version_compare (S (length a + length b)) a b).

(** ** Copying *)

(** The bytes, then the terminator. *)
Definition put_string (dst : Z) (s : list Z) : M L unit :=
  _ ← wr dst s; wr (u64 (dst + zlen s)) [0].
Definition do_strcpy : M L unit := dst ← arg A0; p ← arg A1; s ← cstr p; _ ← put_string dst s; result dst.
Definition do_stpcpy : M L unit :=
  dst ← arg A0; p ← arg A1; s ← cstr p; _ ← put_string dst s; result (u64 (dst + zlen s)).
Definition do_strcat : M L unit :=
  dst ← arg A0; d ← cstr dst; p ← arg A1; s ← cstr p;
  _ ← put_string (u64 (dst + zlen d)) s; result dst.
Definition do_strlcpy : M L unit :=
  dst ← arg A0; size ← arg A2; p ← arg A1; src ← cstr p;
  _ ← (if size =? 0 then skip else
       let n := Z.min (zlen src) (size - 1) in
       _ ← (if n =? 0 then skip else wr dst (take (Z.to_nat n) src));
       wr (u64 (dst + n)) [0]);
  result (zlen src).
Definition do_strlcat : M L unit :=
  dst ← arg A0; size ← arg A2; d ← cstr dst; p ← arg A1; s ← cstr p;
  _ ← (if zlen d <? size then
         let n := Z.min (zlen s) (size - zlen d - 1) in
         _ ← (if n =? 0 then skip else wr (u64 (dst + zlen d)) (take (Z.to_nat n) s));
         wr (u64 (dst + zlen d + n)) [0]
       else skip);
  result (u64 (zlen d + zlen s)).
(** [src] cut or padded with zeros to [n] bytes. *)
Definition padded (src : list Z) (n : Z) : list Z :=
  take (Z.to_nat n) src ++ replicate (Z.to_nat n - length src) 0.
Definition copy_n (d n : Z) (src : list Z) : M L unit :=
  _ ← vec n; if n =? 0 then skip else wr d (padded src n).
Definition do_strncpy : M L unit :=
  d ← arg A0; n ← arg A2; p ← arg A1; src ← cstr_max p n; _ ← copy_n d n src; result d.
Definition do_stpncpy : M L unit :=
  d ← arg A0; n ← arg A2; p ← arg A1; src ← cstr_max p n; _ ← copy_n d n src;
  result (u64 (d + Z.min (zlen src) n)).
(** The checked variant writes byte by byte. *)
Definition do_strncpy_chk : M L unit :=
  d ← arg A0; n ← arg A2; p ← arg A1; s ← cstr p;
  _ ← for_each (fun k => wr (u64 (d + k)) [default 0 (s !! Z.to_nat k)]) (seqZ 0 n);
  result d.
Definition do_strdup : M L unit :=
  p ← arg A0; s ← cstr p; d ← heap tight (zlen s + 1); _ ← wr d (s ++ [0]); result d.

(** Byte by byte from guest memory, no further than a zero; all [n] bytes are
    written. *)
Definition read_upto (src n : Z) : M L (list Z) :=
  while_ (fun '(i, acc) => if n <=? i then mret (inr acc) else
                           c ← rd_word 1 (u64 (src + i));
                           mret (if c =? 0 then inr acc else inl (u64 (i + 1), acc ++ [c]))) (0, []).
Definition do_strncpy_chk2 : M L unit :=
  dst ← arg A0; src ← arg A1; n ← arg A2;
  _ ← vec n; l ← read_upto src n;
  _ ← (if n =? 0 then skip else wr dst (padded l n));
  result dst.
Definition do_realpath : M L unit :=
  p ← arg A0; path ← cstr p; out ← arg A1;
  out ← (if out =? 0 then heap tight (zlen path + 1) else mret out);
  _ ← wr out (path ++ [0]); result out.

(** ** Tokens *)

(** From [p], past the delimiters: the first byte that is none, or [None] at
    the end of the string. *)
Definition skip_delims (d : list Z) (p : Z) : M L (option Z) :=
  while_ (fun p => c ← rd_word 1 p;
                   mret (if c =? 0 then inr None else if in_set d c then inl (u64 (p + 1)) else inr (Some p))) p.
(** From [p] to the end of the token, which is cut with a NUL: where to go on. *)
Definition end_token (d : list Z) (p : Z) : M L Z :=
  while_ (fun p => c ← rd_word 1 p;
                   if c =? 0 then mret (inr 0) else
                   if in_set d c then _ ← wr p [0]; mret (inr (u64 (p + 1))) else mret (inl (u64 (p + 1)))) p.
(** The token, 0 for none, and the new save pointer. *)
Definition strtok_core (str delim save : Z) : M L (Z * Z) :=
  d ← cstr delim;
  let p := if str =? 0 then save else str in
  if p =? 0 then mret (0, save) else
  t ← skip_delims d p;
  match t with
  | None => mret (0, 0)
  | Some tok => save ← end_token d tok; mret (tok, save)
  end.
Definition do_strtok : M L unit :=
  str ← arg A0; delim ← arg A1;
  save ← get_slot strtok_save_;
  '(tok, save) ← strtok_core str delim save;
  _ ← set_slot strtok_save_ save; result tok.
Definition do_strtok_r : M L unit :=
  sp ← arg A2;
  save ← (if sp =? 0 then mret 0 else rd_word 8 sp);
  str ← arg A0; delim ← arg A1;
  '(tok, save) ← strtok_core str delim save;
  _ ← result tok;
  if sp =? 0 then skip else wr_word 8 sp save.

(** ** Error texts *)

Definition do_strerror : M L unit :=
  buf ← get_slot strerror_buf_;
  _ ← (if buf =? 0 then p ← heap tight 256; set_slot strerror_buf_ p else skip);
  e ← arg A0;
  buf ← get_slot strerror_buf_;
  _ ← put_string buf (take 255 (strerror_text (s32 e)));
  result buf.
Definition do_strerror_r : M L unit :=
  buf ← arg A1; buflen ← arg A2; e ← arg A0;
  _ ← (if buflen =? 0 then skip
       else put_string buf (take (Z.to_nat (buflen - 1)) (strerror_text (s32 e))));
  result 0.
End Strings.
