(* ===== verification/LibcFmt.v ===== *)
(** The C library the guest sees, numbers and formats:
    [core/android/stubs.cpp], [fmt_expand_cb] and its callers, the strtol
    family and atoi.

    A format is expanded directive by directive: each becomes a specification
    for the host's [snprintf], which the model runs as the C standard says.
    The value a [%p] prints as is the host's choice, a parameter. *)

From stdpp Require Import strings pretty.
From S2P Require Import Prelude.
From S2P Require Import Words.
From S2P Require Import Loops.
From S2P Require Import Abi.
From S2P Require Import Unicorn.
From S2P Require Import Engine.
From S2P Require Import Memory.
From S2P Require Import CText.
From S2P Require Import Libc.
From S2P Require Import LibcStr.
#[local] Open Scope Z_scope.

(** ** The host's snprintf *)

(** [n] in base [b], most significant digit first; 64 turns are enough for a
    64-bit word in any base. *)
Fixpoint digits_of (fuel : nat) (b : Z) (upper : bool) (n : Z) (acc : list Z) : list Z :=
  match fuel with
  | O => acc
  | S k =>
      if n =? 0 then acc else
      let d := n mod b in
      let c := if d <? 10 then 48 + d else (if upper then 55 else 87) + d in
      digits_of k b upper (n / b) (c :: acc)
  end.
Definition number_text (b : Z) (upper : bool) (n : Z) : list Z :=
  if n =? 0 then [48] else digits_of 64 b upper n [].
(** [std::to_string] of an [int]. *)
Definition dec_text (n : Z) : list Z :=
  if n <? 0 then 45 :: number_text 10 false (- n) else number_text 10 false n.
Definition dec_value (l : list Z) : Z := fold_left (fun a c => a * 10 + (c - 48)) l 0.

Definition is_flag (c : Z) : bool := in_set (bs "-+ 0#") c.

(** What stands between the percent sign and the conversion. *)
Record Spec := mkSpec { sp_flags : list Z; sp_width : Z; sp_prec : option Z }.
(** A number that does not fit an [int] and anything that is not flags, width
    and precision are undefined. *)
Definition parse_spec (l : list Z) : option Spec :=
  let n := run_length is_flag l in
  let flags := take n l in let l := drop n l in
  let w := run_length is_digit l in
  let width := dec_value (take w l) in let l := drop w l in
  if 2 ^ 31 <=? width then None else
  match l with
  | [] => Some (mkSpec flags width None)
  | 46 :: l => if forallb is_digit l && (dec_value l <? 2 ^ 31) then Some (mkSpec flags width (Some (dec_value l))) else None
  | _ => None
  end.
Definition flag (sp : Spec) (c : Z) : bool := in_set (sp_flags sp) c.

(** [body] after [prefix], padded to the width: on the right, with zeros after
    the prefix, or on the left. *)
Definition pad (sp : Spec) (zeros : bool) (prefix body : list Z) : list Z :=
  let n := (Z.to_nat (sp_width sp) - length (prefix ++ body))%nat in
  if flag sp 45 then prefix ++ body ++ replicate n 32
  else if zeros then prefix ++ replicate n 48 ++ body
  else replicate n 32 ++ prefix ++ body.

(** The digits of [n], at least as many as the precision. *)
Definition digits_prec (sp : Spec) (b : Z) (upper : bool) (n : Z) : list Z :=
  let d := if n =? 0 then match sp_prec sp with Some 0 => [] | _ => [48] end else number_text b upper n in
  match sp_prec sp with Some p => replicate (Z.to_nat p - length d) 48 ++ d | None => d end.
Definition pad_number (sp : Spec) (prefix body : list Z) : list Z :=
  pad sp (flag sp 48 && bool_decide (sp_prec sp = None)) prefix body.

Definition host_signed (sp : Spec) (v : Z) : outcome (list Z) :=
  if flag sp 35 then UB else
  let prefix := if v <? 0 then [45] else if flag sp 43 then [43] else if flag sp 32 then [32] else [] in
  Ret (pad_number sp prefix (digits_prec sp 10 false (Z.abs v))).
Definition host_unsigned (sp : Spec) (conv v : Z) : outcome (list Z) :=
  if conv =? 117 then
    if flag sp 35 then UB else Ret (pad_number sp [] (digits_prec sp 10 false v))
  else if conv =? 111 then
    let d := digits_prec sp 8 false v in
    let d := if flag sp 35 && negb (bool_decide (head d = Some 48)) then 48 :: d else d in
    Ret (pad_number sp [] d)
  else
    let upper := conv =? 88 in
    let prefix := if flag sp 35 && negb (v =? 0) then [48; conv] else [] in
    Ret (pad_number sp prefix (digits_prec sp 16 upper v)).
Definition host_char (sp : Spec) (v : Z) : outcome (list Z) :=
  if flag sp 35 || flag sp 48 || negb (bool_decide (sp_prec sp = None)) then UB
  else Ret (pad sp false [] [u8 v]).
Definition host_string (sp : Spec) (s : list Z) : outcome (list Z) :=
  if flag sp 35 || flag sp 48 then UB else
  Ret (pad sp false [] (match sp_prec sp with Some p => take (Z.to_nat p) s | None => s end)).

(** [out += buf.data()]: up to the first NUL. *)
Definition c_str (l : list Z) : list Z := take (run_length (fun c => negb (c =? 0)) l) l.

Section Format.
Context {U : Type} `{UcOps U}.
#[local] Abbreviation L := (Libc U).
Variable abi : Abi.
Variables tight legacy_malloc : bool.
Variable host_pointer : Z -> list Z.

#[local] Abbreviation arg := (arg abi).
#[local] Abbreviation result := (result abi).

(** ** Expanding a format *)

Section Expand.
(** Where the next argument comes from: a position, or nothing. *)
Context {T : Type}.
Variable nextarg : T -> M L (Z * T).

Definition is_len (c : Z) : bool := in_set (bs "lhzjt") c.
(** 0 for int, more for long. *)
Definition len_of (l : list Z) : Z :=
  fold_left (fun a c => if c =? 108 then a + 1 else if in_set (bs "zjt") c then 2 else a) l 0.

(** A star takes an argument, otherwise the digits that are there. *)
Definition star_or_digits (r : list Z) (t : T) : M L (list Z * list Z * T) :=
  match r with
  | 42 :: r => '(v, t) ← nextarg t; mret (dec_text (s32 v), r, t)
  | _ => let n := run_length is_digit r in mret (take n r, drop n r, t)
  end.
Definition precision (r : list Z) (t : T) : M L (list Z * list Z * T) :=
  match r with
  | 46 :: r => '(p, r, t) ← star_or_digits r t; mret (46 :: p, r, t)
  | _ => mret ([], r, t)
  end.

Definition with_spec (spec : list Z) (f : Spec -> outcome (list Z)) : outcome (list Z) :=
  sp ← or_ub (parse_spec (tl spec)); f sp.
(** One conversion; [spec] is the text of the directive so far. *)
Definition convert (spec : list Z) (len conv : Z) (t : T) : M L (list Z * T) :=
  if conv =? 37 then mret ([37], t) else
  if in_set (bs "di") conv then
    '(v, t) ← nextarg t;
    o ← lift (with_spec spec (fun sp => host_signed sp (if 1 <=? len then s64 v else s32 v)));
    mret (c_str o, t)
  else if in_set (bs "uoxX") conv then
    '(v, t) ← nextarg t;
    o ← lift (with_spec spec (fun sp => host_unsigned sp conv (if 1 <=? len then v else u32 v)));
    mret (c_str o, t)
  else if conv =? 112 then '(v, t) ← nextarg t; mret (c_str (host_pointer v), t)
  else if conv =? 99 then
    '(v, t) ← nextarg t;
    o ← lift (with_spec spec (fun sp => host_char sp (s32 v)));
    mret (c_str o, t)
  else if conv =? 115 then
    '(p, t) ← nextarg t;
    s ← (if p =? 0 then mret (bs "(null)") else cstr p);
    o ← lift (with_spec spec (fun sp => host_string sp s));
    mret (c_str (take (length s + 255) o), t)
  else mret (spec ++ [conv], t).

(** Every turn takes a byte off the format. *)
Fixpoint expand (fuel : nat) (fmt : list Z) (t : T) : M L (list Z * T) :=
  match fuel, fmt with
  | S k, c :: r =>
      if negb (c =? 37) then '(o, t) ← expand k r t; mret (c :: o, t) else
      let n := run_length is_flag r in
      let flags := take n r in
      '(w, r, t) ← star_or_digits (drop n r) t;
      '(p, r, t) ← precision r t;
      let m := run_length is_len r in
      let spec := 37 :: flags ++ w ++ p in
      match drop m r with
      | [] => mret (spec, t)
      | conv :: rest =>
          '(o, t) ← convert spec (len_of (take m r)) conv t;
          '(o', t) ← expand k rest t;
          mret (o ++ o', t)
      end
  | _, _ => mret ([], t)
  end.
Definition fmt_expand_cb (fmt_ptr : Z) (t : T) : M L (list Z) :=
  fmt ← cstr fmt_ptr; '(o, _) ← expand (length fmt) fmt t; mret o.
End Expand.

(** Argument [i] of an AArch64 variadic call. *)
Definition aapcs_arg (i : nat) : M L (Z * nat) :=
  if (i <? 8)%nat then v ← on_l_uc (read_uc_reg (A64_X i)); mret (u64 v, S i)
  else sp ← on_l_uc (read_reg abi Sp); v ← rd_word 8 (u64 (u64 sp + 8 * (Z.of_nat i - 8))); mret (v, S i).
Definition fmt_expand (fmt_ptr : Z) (argi : nat) : M L (list Z) := fmt_expand_cb aapcs_arg fmt_ptr argi.

(** The next argument of an AArch64 [va_list]. *)
Definition va_next (va : Z) (_ : unit) : M L (Z * unit) :=
  g ← rd_word 4 (u64 (va + 24));
  let gr_offs := s32 g in
  if gr_offs <? 0 then
    top ← rd_word 8 (u64 (va + 8));
    v ← rd_word 8 (u64 (top + gr_offs));
    _ ← wr_word 4 (u64 (va + 24)) (gr_offs + 8);
    mret (v, tt)
  else
    stack ← rd_word 8 va;
    _ ← wr_word 8 va (u64 (stack + 8));
    v ← rd_word 8 stack;
    mret (v, tt).
Definition fmt_expand_va (fmt_ptr va : Z) : M L (list Z) := fmt_expand_cb (va_next va) fmt_ptr tt.

(** ** The printf family *)

Definition do_sprintf : M L unit :=
  dst ← arg A0; f ← arg A1; s ← fmt_expand f 2; _ ← wr dst (s ++ [0]); result (zlen s).
(** At most [size - 1] bytes and the terminator. *)
Definition bounded_write (dst size : Z) (s : list Z) : M L unit :=
  _ ← (if size =? 0 then skip else
       let n := Z.min (zlen s) (size - 1) in
       _ ← wr dst (take (Z.to_nat n) s); wr (u64 (dst + n)) [0]);
  result (zlen s).
Definition do_snprintf : M L unit :=
  dst ← arg A0; size ← arg A1; f ← arg A2; s ← fmt_expand f 3; bounded_write dst size s.
Definition do_snprintf_chk : M L unit :=
  dst ← arg A0; size ← arg A1; f ← arg A4; s ← fmt_expand f 5; bounded_write dst size s.
(** Without a bound when [cap] is 0. *)
Definition write_str (dst cap : Z) (s : list Z) : M L unit :=
  let n := if cap =? 0 then zlen s else Z.min (zlen s) (cap - 1) in
  _ ← wr dst (take (Z.to_nat n) s); _ ← wr (u64 (dst + n)) [0]; result (zlen s).
Definition do_sprintf_chk : M L unit := dst ← arg A0; f ← arg A3; s ← fmt_expand f 4; write_str dst 0 s.
Definition do_vsprintf : M L unit :=
  dst ← arg A0; f ← arg A1; va ← arg A2; s ← fmt_expand_va f va; write_str dst 0 s.
Definition do_vsnprintf : M L unit :=
  dst ← arg A0; n ← arg A1; f ← arg A2; va ← arg A3; s ← fmt_expand_va f va; write_str dst n s.
Definition do_vsprintf_chk : M L unit :=
  dst ← arg A0; f ← arg A3; va ← arg A4; s ← fmt_expand_va f va; write_str dst 0 s.
Definition do_vsnprintf_chk : M L unit :=
  dst ← arg A0; n ← arg A1; f ← arg A4; va ← arg A5; s ← fmt_expand_va f va; write_str dst n s.

Definition do_printf : M L unit := f ← arg A0; s ← fmt_expand f 1; _ ← fputs s; result (zlen s).
Definition do_vprintf : M L unit :=
  f ← arg A0; va ← arg A1; s ← fmt_expand_va f va; _ ← fputs s; result (zlen s).
Definition do_puts : M L unit := p ← arg A0; s ← cstr p; _ ← fputs (s ++ [10]); result (zlen s + 1).
Definition do_putchar : M L unit := c ← arg A0; _ ← fputs [u8 c]; signed_result abi (s32 c).
Definition do_log_print : M L unit :=
  prio ← arg A0; t ← arg A1; tag ← cstr t; f ← arg A2; msg ← fmt_expand f 3;
  _ ← fputs (bs "[guest-log] (" ++ dec_text prio ++ bs ") " ++ tag ++ bs ": " ++ msg ++ [10]);
  result 0.

(** The text on the guest heap, its address through the first argument. *)
Definition give_string (strp : Z) (s : list Z) : M L unit :=
  buf ← heap tight (zlen s + 1);
  _ ← wr buf (s ++ [0]);
  _ ← (if strp =? 0 then skip else wr_word 8 strp buf);
  result (zlen s).
Definition do_asprintf : M L unit := strp ← arg A0; f ← arg A1; s ← fmt_expand f 2; give_string strp s.
Definition do_vasprintf : M L unit :=
  strp ← arg A0; f ← arg A1; va ← arg A2; s ← fmt_expand_va f va; give_string strp s.

(** ** Parsing numbers *)

(** Any other base is undefined. *)
Definition valid_base (b : Z) : bool := (b =? 0) || ((2 <=? b) && (b <=? 36)).
Definition do_strto (unsigned : bool) : M L unit :=
  nptr ← arg A0; endptr ← arg A1; b ← arg A2;
  let base := s32 b in
  s ← cstr nptr;
  if negb (valid_base base) then lift UB else
  let str := text s in
  let v := if unsigned then strtoul base str else u64 (strtol base str) in
  _ ← (if endptr =? 0 then skip else wr_word 8 endptr (u64 (nptr + Z.of_nat (scan_end base str))));
  result v.
(** A value that is no [int] is undefined. *)
Definition do_atoi : M L unit :=
  p ← arg A0; s ← cstr p;
  let v := strtol 10 (text s) in
  if (v <? - 2 ^ 31) || (2 ^ 31 <=? v) then lift UB else signed_result abi v.
Definition do_atol : M L unit := p ← arg A0; s ← cstr p; result (u64 (strtol 10 (text s))).
End Format.

Example host_formats :
  with_spec (bs "%05") (fun sp => host_signed sp (-42)) = Ret (bs "-0042") /\
  with_spec (bs "%-6.3") (fun sp => host_signed sp 7) = Ret (bs "007   ") /\
  with_spec (bs "%#") (fun sp => host_unsigned sp 120 255) = Ret (bs "0xff") /\
  with_spec (bs "%8") (fun sp => host_unsigned sp 88 0xBEEF) = Ret (bs "    BEEF") /\
  with_spec (bs "%.2") (fun sp => host_string sp (bs "abc")) = Ret (bs "ab") /\
  with_spec (bs "%.-1") (fun sp => host_signed sp 7) = UB.
Proof. vm_compute. done. Qed.
