(* ===== verification/LibcWide.v ===== *)
(** The C library the guest sees, wide characters, character classes and
    network addresses: [core/android/stubs.cpp], [register_defaults].

    A wide string is 4-byte units up to a zero unit, without a bound: the
    stubs read until they meet one or throw at an unmapped address. *)

From stdpp Require Import strings.
From S2P Require Import Prelude.
From S2P Require Import Words.
From S2P Require Import Loops.
From S2P Require Import Abi.
From S2P Require Import Unicorn.
From S2P Require Import Engine.
From S2P Require Import Memory.
From S2P Require Import CText.
From S2P Require Import Libc.
From S2P Require Import LibcStr.
From S2P Require Import LibcFmt.
#[local] Open Scope Z_scope.

(** ** Character classes of the C locale *)

Definition between (a b c : Z) : bool := (a <=? c) && (c <=? b).
Definition c_isspace (c : Z) : bool := (c =? 32) || between 9 13 c.
Definition c_isupper (c : Z) : bool := between 65 90 c.
Definition c_islower (c : Z) : bool := between 97 122 c.
Definition c_isalpha (c : Z) : bool := c_isupper c || c_islower c.
Definition c_isdigit (c : Z) : bool := between 48 57 c.
Definition c_isalnum (c : Z) : bool := c_isalpha c || c_isdigit c.
Definition c_isxdigit (c : Z) : bool := c_isdigit c || between 97 102 c || between 65 70 c.
Definition c_isprint (c : Z) : bool := between 32 126 c.
Definition c_ispunct (c : Z) : bool := between 33 126 c && negb (c_isalnum c).
Definition c_iscntrl (c : Z) : bool := between 0 31 c || (c =? 127).
Definition c_isblank (c : Z) : bool := (c =? 32) || (c =? 9).
Definition c_tolower (c : Z) : Z := if c_isupper c then c + 32 else c.
Definition c_toupper (c : Z) : Z := if c_islower c then c - 32 else c.

(** The bits of [__ctype_b_loc]. *)
Definition ctype_bits (c : Z) : Z :=
  let bit (b : bool) v := if b then v else 0 in
  Z.lor (bit (c_isupper c) 0x0100) (Z.lor (bit (c_islower c) 0x0200) (Z.lor (bit (c_isalpha c) 0x0400)
  (Z.lor (bit (c_isdigit c) 0x0800) (Z.lor (bit (c_isxdigit c) 0x1000) (Z.lor (bit (c_isspace c) 0x2000)
  (Z.lor (bit (c_isprint c) 0x4000) (Z.lor (bit (c_ispunct c) 0x8000) (Z.lor (bit (c_iscntrl c) 0x0002)
  (bit (c_isblank c) 0x0001))))))))).

(** ** Byte order *)

Definition bswap (n : nat) (v : Z) : Z := le_val (rev (le_bytes n v)).

(** ** Dotted quads *)

Definition quad_text (a : Z) : list Z :=
  dec_text (Z.land a 0xFF) ++ [46] ++ dec_text (Z.land (Z.shiftr a 8) 0xFF) ++ [46] ++
  dec_text (Z.land (Z.shiftr a 16) 0xFF) ++ [46] ++ dec_text (Z.land (Z.shiftr a 24) 0xFF).

(** [%u] of the host's [sscanf]: blanks, a sign, digits; [None] when there is
    no digit, undefined when the number does not fit. *)
Definition scan_u (l : list Z) : option (outcome Z * list Z) :=
  let l := drop (run_length c_isspace l) l in
  let '(neg, l) := match l with
                   | c :: r => if c =? 45 then (true, r) else if c =? 43 then (false, r) else (false, l)
                   | [] => (false, l)
                   end in
  let n := run_length is_digit l in
  if Nat.eqb n 0 then None else
  let v := dec_value (take n l) in
  Some (if 2 ^ 32 <=? v then UB else Ret (if neg : bool then u32 (- v) else v), drop n l).
Definition scan_dot (l : list Z) : option (list Z) :=
  match l with c :: r => if c =? 46 then Some r else None | [] => None end.

(** [sscanf(s, "%u.%u.%u.%u", ...) == 4] and all four below 256. *)
Definition parse_quad (l : list Z) : outcome (option Z) :=
  match scan_u l with
  | None => Ret None
  | Some (va, l) => a ← va;
    match scan_dot l ≫= scan_u with
    | None => Ret None
    | Some (vb, l) => b ← vb;
      match scan_dot l ≫= scan_u with
      | None => Ret None
      | Some (vc, l) => c ← vc;
        match scan_dot l ≫= scan_u with
        | None => Ret None
        | Some (vd, _) => d ← vd;
          Ret (if (a <? 256) && (b <? 256) && (c <? 256) && (d <? 256)
               then Some (Z.lor (Z.lor (Z.lor (Z.shiftl d 24) (Z.shiftl c 16)) (Z.shiftl b 8)) a) else None)
        end end end
  end.

Section Wide.
Context {U : Type} `{UcOps U}.
#[local] Abbreviation L := (Libc U).
Variable abi : Abi.
Variable tight : bool.

#[local] Abbreviation arg := (arg abi).
#[local] Abbreviation result := (result abi).

(** ** Wide strings *)

(** The units up to and including the zero. *)
Definition read_wcs (p : Z) : M L (list Z) :=
  while_ (fun '(p, acc) => c ← rd_word 4 p;
                           mret (if c =? 0 then inr (acc ++ [0]) else inl (u64 (p + 4), acc ++ [c]))) (p, []).
Definition units (l : list Z) : list Z := concat (le_bytes 4 <$> l).
Definition write_wcs (dst : Z) (l : list Z) : M L unit := wr dst (units l).

Definition do_wcslen : M L unit := p ← arg A0; v ← read_wcs p; result (zlen v - 1).
Definition do_wcscpy : M L unit := dst ← arg A0; p ← arg A1; v ← read_wcs p; _ ← write_wcs dst v; result dst.
(** The last of the [n] units is always zeroed. *)
Definition do_wcsncpy : M L unit :=
  dst ← arg A0; n ← arg A2;
  if n =? 0 then result dst else
  p ← arg A1; src ← read_wcs p;
  if 2 ^ 61 <=? n then throw "vector::_M_default_append" else
  _ ← write_wcs dst (take (Z.to_nat (n - 1)) src ++ replicate (Z.to_nat (n - 1) - length src) 0 ++ [0]);
  result dst.
Definition do_wcscat : M L unit :=
  dst ← arg A0; d ← read_wcs dst; p ← arg A1; s ← read_wcs p;
  _ ← write_wcs dst (take (length d - 1) d ++ s); result dst.

(** By unit, up to a common zero. *)
Fixpoint wcs_compare (a b : list Z) : Z :=
  match a, b with
  | x :: a, y :: b => if x <? y then -1 else if y <? x then 1 else if x =? 0 then 0 else wcs_compare a b
  | _, _ => 0
  end.
Definition do_wcscmp : M L unit :=
  p ← arg A0; a ← read_wcs p; q ← arg A1; b ← read_wcs q; signed_result abi (wcs_compare a b).
Definition do_wcsncmp : M L unit :=
  n ← arg A2; p ← arg A0; a ← read_wcs p; q ← arg A1; b ← read_wcs q;
  signed_result abi (wcs_compare (take (Z.to_nat n) a) (take (Z.to_nat n) b)).
Definition unit_or_null (s : Z) (i : option nat) : Z :=
  match i with Some i => u64 (s + Z.of_nat i * 4) | None => 0 end.
Definition do_wcschr : M L unit :=
  p ← arg A0; c ← arg A1; v ← read_wcs p; result (unit_or_null p (first_at (Z.eqb (u32 c)) v)).
Definition do_wcsstr : M L unit :=
  hp ← arg A0; hay ← read_wcs hp; q ← arg A1; nee ← read_wcs q;
  let nee := take (length nee - 1) nee in
  if bool_decide (nee = []) then result hp
  else result (unit_or_null hp (find_sub nee (take (length hay - 1) hay))).

Definition do_mbstowcs : M L unit :=
  dst ← arg A0; n ← arg A2; p ← arg A1; src ← cstr p;
  if dst =? 0 then result (zlen src) else
  let cnt := Z.min (zlen src) (if 0 <? n then n - 1 else 0) in
  _ ← for_each (fun i => wr_word 4 (u64 (dst + i * 4)) (default 0 (src !! Z.to_nat i))) (seqZ 0 cnt);
  _ ← (if n =? 0 then skip else wr_word 4 (u64 (dst + cnt * 4)) 0);
  result cnt.
Definition do_wcstombs : M L unit :=
  dst ← arg A0; n ← arg A2; sp ← arg A1;
  written ← while_ (fun '(sp, w) =>
    if n <=? u64 (w + 1) then mret (inr w) else
    c ← rd_word 4 sp;
    if c =? 0 then mret (inr w) else
    _ ← (if dst =? 0 then skip else wr (u64 (dst + w)) [if c <? 0x80 then c else 63]);
    mret (inl (u64 (sp + 4), u64 (w + 1)))) (sp, 0);
  _ ← (if (dst =? 0) || (n =? 0) then skip else wr (u64 (dst + written)) [0]);
  result written.
Definition do_mbtowc : M L unit :=
  pwc ← arg A0; s ← arg A1;
  if s =? 0 then result 0 else
  c ← rd_word 1 s;
  _ ← (if pwc =? 0 then skip else wr_word 4 pwc c);
  result (if c =? 0 then 0 else 1).
Definition do_wctomb : M L unit :=
  s ← arg A0; wc ← arg A1;
  _ ← (if s =? 0 then skip else wr s [if u32 wc <? 0x80 then u32 wc else 63]);
  result 1.
Definition do_setlocale : M L unit :=
  once_built abi locale_buf_ (p ← heap tight 4; _ ← set_slot locale_buf_ p; wr p (bs "C" ++ [0])).

(** ** Character classes *)

Definition b2z (b : bool) : Z := if b then 1 else 0.
(** Written out in the source, for any [int]. *)
Definition do_class (f : Z -> bool) : M L unit := c ← arg A0; result (b2z (f (s32 c))).
Definition do_toupper : M L unit := c ← arg A0; signed_result abi (c_toupper (s32 c)).
Definition do_tolower : M L unit := c ← arg A0; signed_result abi (c_tolower (s32 c)).
(** Through the host's functions, undefined outside EOF and the bytes. *)
Definition do_host_class (f : Z -> bool) : M L unit :=
  c ← arg A0; if between (-1) 255 (s32 c) then result (b2z (f (s32 c))) else lift UB.
Definition do_wide_class (f : Z -> bool) : M L unit :=
  c ← arg A0; result (b2z ((u32 c <? 128) && f (u32 c))).
Definition do_wide_map (f : Z -> Z) : M L unit :=
  c ← arg A0; result (if u32 c <? 128 then f (u32 c) else u32 c).

(** A table of 384 [w]-byte entries for -128 to 255, then its middle's address:
    what the functions return is the address of that pointer. *)
Definition fill (w : nat) (tbl : Z) (f : Z -> Z) (n : Z) : M L unit :=
  for_each (fun i => wr_word w (u64 (tbl + i * Z.of_nat w)) (f i)) (seqZ 0 n).
Definition class_table (slot : Slot) (w : nat) (low high : Z -> Z) : M L unit :=
  once_built abi slot (
    let n := Z.of_nat w in
    tbl ← heap tight (384 * n + 8);
    _ ← set_slot slot (u64 (tbl + 384 * n));
    let base := u64 (tbl + 128 * n) in
    _ ← fill w tbl low 128;
    _ ← fill w base high 256;
    wr_word 8 (u64 (tbl + 384 * n)) base).
Definition do_ctype_b_loc : M L unit := class_table ctype_b_ 2 (fun _ => 0) ctype_bits.
Definition do_ctype_tolower_loc : M L unit := class_table ctype_tolower_ 4 (fun i => i - 128) c_tolower.
Definition do_ctype_toupper_loc : M L unit := class_table ctype_toupper_ 4 (fun i => i - 128) c_toupper.

(** ** Addresses *)

Definition do_swap16 : M L unit := v ← arg A0; result (bswap 2 (u16 v)).
Definition do_swap32 : M L unit := v ← arg A0; result (bswap 4 (u32 v)).
Definition do_swap64 : M L unit := v ← arg A0; result (bswap 8 v).

Definition do_inet_addr : M L unit :=
  p ← arg A0; s ← cstr p;
  q ← lift (parse_quad s); result (default 0xFFFFFFFF q).
Definition do_inet_ntoa : M L unit :=
  buf ← get_slot inet_ntoa_buf_;
  _ ← (if buf =? 0 then p ← heap tight 16; set_slot inet_ntoa_buf_ p else skip);
  a ← arg A0;
  buf ← get_slot inet_ntoa_buf_;
  _ ← wr buf (quad_text (u32 a) ++ [0]);
  result buf.
Definition do_inet_pton : M L unit :=
  af ← arg A0; p ← arg A1; src ← cstr p; dst ← arg A2;
  if negb (s32 af =? 2) then result 0 else
  q ← lift (parse_quad src);
  match q with
  | Some v => _ ← (if dst =? 0 then skip else wr_word 4 dst v); result 1
  | None => result 0
  end.
Definition do_inet_ntop : M L unit :=
  af ← arg A0; src ← arg A1; dst ← arg A2; size ← arg A3;
  if (s32 af =? 2) && negb (src =? 0) && negb (dst =? 0) && (16 <=? size) then
    a ← rd_word 4 src; _ ← wr dst (quad_text a ++ [0]); result dst
  else result 0.
End Wide.
