(* ===== verification/LibcScan.v ===== *)
(** The C library the guest sees, [sscanf]: [core/android/stubs.cpp],
    [register_defaults].

    The input and the format are host strings; every turn takes a byte off the
    format.  The number read is built up in 64 bits and wraps around. *)

From stdpp Require Import strings.
From S2P Require Import Prelude.
From S2P Require Import Words.
From S2P Require Import Loops.
From S2P Require Import Abi.
From S2P Require Import Unicorn.
From S2P Require Import Engine.
From S2P Require Import Memory.
From S2P Require Import CText.
From S2P Require Import Libc.
From S2P Require Import LibcStr.
From S2P Require Import LibcFmt.
From S2P Require Import LibcWide.
#[local] Open Scope Z_scope.

Definition skip_blanks (l : list Z) : list Z := drop (run_length c_isspace l) l.

(** The value of a digit, in bases up to 16. *)
Definition digit_value (c : Z) : option Z :=
  if c_isdigit c then Some (c - 48) else
  if between 97 102 c then Some (c - 87) else
  if between 65 70 c then Some (c - 55) else None.
Definition is_digit_in (base c : Z) : bool :=
  match digit_value c with Some d => d <? base | None => false end.
Definition scan_base (conv : Z) : Z :=
  if in_set (bs "xXp") conv then 16 else if conv =? 111 then 8 else 10.
Definition scan_value (base : Z) (l : list Z) : Z :=
  fold_left (fun v c => u64 (v * base + default 0 (digit_value c))) l 0.

(** A sign, [0x] in base 16, digits; [width] bytes at most when it is not 0,
    the sign and the prefix included.  [None] when there is no digit; the
    negation of 2^63 overflows. *)
Definition scan_number (base width : Z) (l : list Z) : option (outcome Z * list Z) :=
  let '(neg, l1) := match l with
                    | c :: r => if c =? 45 then (true, r) else if c =? 43 then (false, r) else (false, l)
                    | [] => (false, l)
                    end in
  let l2 := match l1 with
            | z :: x :: r => if (base =? 16) && (z =? 48) && in_set (bs "xX") x then r else l1
            | _ => l1
            end in
  let room := if width =? 0 then length l2 else (Z.to_nat width - (length l - length l2))%nat in
  let n := run_length (is_digit_in base) (take room l2) in
  if Nat.eqb n 0 then None else
  let v := scan_value base (take n l2) in
  Some (if neg : bool then (if v =? 2 ^ 63 then UB else Ret (u64 (- v))) else Ret v, drop n l2).

(** The token of [%s]. *)
Definition scan_token (width : Z) (l : list Z) : nat :=
  let n := run_length (fun c => negb (c_isspace c)) l in
  if width =? 0 then n else Nat.min n (Z.to_nat width).

Section Scan.
Context {U : Type} `{UcOps U}.
#[local] Abbreviation L := (Libc U).
Variable abi : Abi.

#[local] Abbreviation arg := (arg abi).

(** What one directive leaves: the input, the position of the next argument,
    the number of assignments; [None] ends the scan. *)
Definition Scan : Type := list Z * nat * Z.

(** The argument for an assignment, unless it is suppressed. *)
Definition assign (suppress : bool) (st : Scan) (rest : list Z) (store : Z -> M L unit) : M L (option Scan) :=
  let '(_, argi, matched) := st in
  if suppress then mret (Some (rest, argi, matched)) else
  '(o, argi) ← aapcs_arg abi argi;
  _ ← store o;
  mret (Some (rest, argi, matched + 1)).

Definition scan_directive (suppress : bool) (width : Z) (long : bool) (conv : Z) (st : Scan) : M L (option Scan) :=
  let '(inp, argi, matched) := st in
  let inp := if in_set (bs "c%") conv then inp else skip_blanks inp in
  if conv =? 37 then
    mret (Some (match inp with c :: r => if c =? 37 then r else inp | [] => [] end, argi, matched))
  else if in_set (bs "diuoxXp") conv then
    match scan_number (scan_base conv) width inp with
    | None => mret None
    | Some (v, rest) =>
        v ← lift v;
        assign suppress st rest (fun o => if long then wr_word 8 o v else wr_word 4 o v)
    end
  else if conv =? 115 then
    let n := scan_token width inp in
    if Nat.eqb n 0 then mret None else assign suppress st (drop n inp) (fun o => wr o (take n inp ++ [0]))
  else if conv =? 99 then
    let n := Z.to_nat (if width =? 0 then 1 else width) in
    if (length inp <? n)%nat then mret None else assign suppress st (drop n inp) (fun o => wr o (take n inp))
  else mret None.

Definition is_scan_len (c : Z) : bool := in_set (bs "lhzj") c.

Fixpoint scan_loop (fuel : nat) (fmt : list Z) (st : Scan) : M L Z :=
  let '(inp, argi, matched) := st in
  match fuel, fmt with
  | S k, fc :: r =>
      if c_isspace fc then scan_loop k r (skip_blanks inp, argi, matched) else
      if negb (fc =? 37) then
        match inp with
        | c :: inp' => if c =? fc then scan_loop k r (inp', argi, matched) else mret matched
        | [] => mret matched
        end
      else
        let '(suppress, r) := match r with c :: r' => if c =? 42 then (true, r') else (false, r) | [] => (false, r) end in
        let w := run_length is_digit r in
        let width := dec_value (take w r) in
        if 2 ^ 31 <=? width then lift UB else
        let r := drop w r in
        let m := run_length is_scan_len r in
        match drop m r with
        | [] => mret matched
        | conv :: rest =>
            o ← scan_directive suppress width (in_set (take m r) 108) conv st;
            match o with Some st' => scan_loop k rest st' | None => mret matched end
        end
  | _, _ => mret matched
  end.
Definition do_sscanf : M L unit :=
  p ← arg A0; inp ← cstr p; q ← arg A1; fmt ← cstr q;
  n ← scan_loop (length fmt) fmt (inp, 2%nat, 0);
  signed_result abi n.
End Scan.

Example scan_numbers :
  scan_number 16 0 (bs "0x1fz") = Some (Ret 31, bs "z") /\
  scan_number 10 3 (bs "-1234") = Some (Ret (2 ^ 64 - 12), bs "34") /\
  scan_number 16 2 (bs "0x1f") = None /\
  scan_number 10 0 (bs "18446744073709551617") = Some (Ret 1, []).
Proof. vm_compute. done. Qed.
