(* ===== verification/LibcFacts.v ===== *)
(** What the C library stubs do, seen by a program that calls them.

    [call_stub h args] is such a call on an ARM guest: the arguments go into
    registers, the stub runs, the answer is read back.  The lemmas describe
    guest memory byte by byte ([Bytes]). *)

From S2P Require Import Prelude.
From S2P Require Import Words.
From S2P Require Import Loops.
From S2P Require Import Abi.
From S2P Require Import Unicorn.
From S2P Require Import Bytes.
From S2P Require Import Engine.
From S2P Require Import Memory.
From S2P Require Import Libc.
From S2P Require Import LibcStr.
#[local] Open Scope Z_scope.

Lemma zero_ok : bytes_ok [0].
Proof. apply Forall_singleton. unfold is_byte. lia. Qed.

Section Calls.
Context {U : Type} `{UcLaws U}.
#[local] Abbreviation L := (Libc U).
Variable abi : Abi.
Hypothesis Harm : kIsArm abi = true.

Definition call_stub (h : M L unit) (args : list Z) : M L Z :=
  _ ← on_l_uc (set_reg_args abi 0 args); _ ← h; v ← on_l_uc (read_reg abi Ret0); mret (u64 v).

(** ** States *)

Definition uc_of (st : L) : U := m_uc (l_mem st).
Definition set_uc (st : L) (u : U) : L := with_l_mem st (with_m_uc (l_mem st) u).
(** A word of the guest. *)
Definition fits (v : Z) : Prop := 0 <= v < 2 ^ (8 * kPointerSize abi).

(** They differ in registers only. *)
Definition regs_only (st st' : L) : Prop := exists u, st' = set_uc st u /\ same_bytes (uc_of st) u.
Definition args_are (st : L) (l : list Z) : Prop :=
  (length l <= set_args_nreg abi)%nat /\
  forall i v, l !! i = Some v -> uc_reg_read (uc_of st) (arm_argreg abi i) = v /\ fits v.

Lemma set_uc_id st : set_uc st (uc_of st) = st.
Proof. by destruct st as [[] ?]. Qed.
Lemma set_uc_set st u v : set_uc (set_uc st u) v = set_uc st v.
Proof. done. Qed.
Lemma regs_only_refl st : regs_only st st.
Proof. exists (uc_of st). split; [by rewrite set_uc_id|done]. Qed.
Lemma regs_only_trans st1 st2 st3 : regs_only st1 st2 -> regs_only st2 st3 -> regs_only st1 st3.
Proof. intros (u & -> & Hu) (v & -> & Hv). exists v. split; [done|]. by rewrite Hu. Qed.
Lemma regs_only_bytes st st' : regs_only st st' -> same_bytes (uc_of st) (uc_of st').
Proof. by intros (u & -> & Hu). Qed.
Lemma regs_only_cells st st' : regs_only st st' -> l_cells st' = l_cells st.
Proof. by intros (u & -> & _). Qed.

Lemma fits_u64 v : fits v -> u64 v = v.
Proof.
  unfold fits. intros Hv. apply u64_id. split; [lia|].
  assert (2 ^ (8 * kPointerSize abi) <= 2 ^ 64); [|lia]. destruct abi; cbn; lia.
Qed.

(** ** Steps *)

Definition with_slot (st : L) (k : Slot) (v : Z) : L := snd (set_slot k v st).
Lemma set_slot_run k v (st : L) : set_slot k v st = (Ret tt, with_slot st k v).
Proof. done. Qed.
Lemma get_slot_run k (st : L) : get_slot k st = (Ret (slots (l_cells st) k), st).
Proof. done. Qed.
Lemma with_slot_same (st : L) k v : slots (l_cells (with_slot st k v)) k = v.
Proof. cbn. by rewrite decide_True. Qed.
Lemma uc_with_slot (st : L) k v : uc_of (with_slot st k v) = uc_of st.
Proof. done. Qed.

Lemma on_uc_run {A} (op : M U A) st r u : op (uc_of st) = (r, u) -> on_l_uc op st = (r, set_uc st u).
Proof. intros E. unfold on_l_uc, on_l_mem, uc_do. fold (uc_of st). by rewrite E. Qed.

Lemma carg_run i st l v :
  args_are st l -> l !! i = Some v -> arg abi (arg_reg i) st = (Ret v, st).
Proof.
  intros [Hn Ha] Hi. destruct (Ha i v Hi) as [<- Hf].
  unfold arg. erewrite bind_run; [|apply on_uc_run, read_reg_run, reg_id_arg; [done|]].
  - rewrite set_uc_id. by rewrite fits_u64.
  - apply lookup_lt_Some in Hi. lia.
Qed.

Lemma reg_id_ret0 : reg_id abi Ret0 = Ret (arm_argreg abi 0).
Proof. by destruct abi. Qed.
Lemma result_run st v :
  result abi v st = (Ret tt, set_uc st (uc_reg_write (uc_of st) (arm_argreg abi 0) v)).
Proof. unfold result. apply on_uc_run, write_reg_run, reg_id_ret0. Qed.

Lemma args_regs_only st l : (length l <= set_args_nreg abi)%nat -> Forall fits l ->
  exists st', on_l_uc (set_reg_args abi 0 l) st = (Ret tt, st') /\ args_are st' l /\ regs_only st st'.
Proof.
  intros Hn Hf. destruct (set_reg_args_spec abi 0 l (uc_of st)) as (u & Hu & Hv & _ & Hr & _); [done|lia|].
  exists (set_uc st u). split; [by apply on_uc_run|]. split.
  - split; [done|]. intros i v Hi. specialize (Hv i v Hi). pose proof (Forall_lookup_1 _ _ _ _ Hf Hi) as Hfv.
    split; [|done]. rewrite <- (Z.mod_small v (2 ^ (8 * kPointerSize abi))) by exact Hfv. exact Hv.
  - exists u. split; [done|]. intros x. unfold byte_at. by rewrite Hr.
Qed.

(** A call: the stub runs in a state [st1] that has its arguments in place. *)
Lemma call_stub_run h l st :
  (length l <= set_args_nreg abi)%nat -> Forall fits l ->
  exists st1, regs_only st st1 /\ args_are st1 l /\
    forall v st2, h st1 = result abi v st2 -> fits v ->
    exists st3, call_stub h l st = (Ret v, st3) /\ regs_only st2 st3.
Proof.
  intros Hn Hf. destruct (args_regs_only st l Hn Hf) as (st1 & E1 & Ha & Hr).
  exists st1. split; [done|]. split; [done|]. intros v st2 E2 Hv. eexists. split.
  - unfold call_stub. rewrite (bind_run _ _ _ _ _ E1). rewrite result_run in E2.
    rewrite (bind_run _ _ _ _ _ E2). erewrite bind_run; [|apply on_uc_run, read_reg_run, reg_id_ret0].
    rewrite set_uc_id. unfold mret, M_mret, M_ret. repeat f_equal.
    change (uc_of (set_uc st2 ?u)) with u. erewrite law_reg_same by by apply reg_width_arg.
    rewrite Z.mod_small by exact Hv. by apply fits_u64.
  - eexists. split; [done|]. apply same_bytes_reg.
Qed.

(** ** Guest memory *)

Lemma rd_run st a l : holds (uc_of st) a l -> rd a (zlen l) st = (Ret l, st).
Proof.
  intros Hl%holds_read. unfold rd. erewrite on_uc_run; [by rewrite set_uc_id|].
  unfold e_read. by rewrite Hl.
Qed.
Lemma rd_byte_run st a c : byte_at (uc_of st) a = Some c -> rd_word 1 a st = (Ret c, st).
Proof.
  intros Hc. pose proof (byte_at_is_byte _ _ _ Hc) as Hb. apply byte_at_read in Hc.
  unfold rd_word. erewrite on_uc_run; [by rewrite set_uc_id|].
  unfold read_t. erewrite bind_run; [|unfold e_read; change (Z.of_nat 1) with 1; by rewrite Hc].
  unfold mret, M_mret, M_ret. cbn. by rewrite Z.mul_0_r, Z.add_0_r.
Qed.
(** A write where every byte is there. *)
Lemma wr_run st a l :
  bytes_ok l -> (forall x, a <= x < a + zlen l -> is_Some (byte_at (uc_of st) x)) ->
  exists u', uc_mem_write (uc_of st) a l = Some u' /\ wr a l st = (Ret tt, set_uc st u').
Proof.
  intros Hb Hx. destruct (write_total _ _ _ Hx) as [u' Hu']. exists u'. split; [done|].
  unfold wr. erewrite on_uc_run; [done|]. unfold e_write, check. by rewrite Hu'.
Qed.

(** [s] stands at [p] and ends at the zero after it. *)
Definition cstring (u : U) (p : Z) (s : list Z) : Prop :=
  holds u p (s ++ [0]) /\ Forall (fun c => c <> 0) s.

Lemma read_cstr_take u p s n : cstring u p s -> read_cstr p n u = take n s.
Proof.
  revert p n. induction s as [|c s IH]; intros p [|n] [Hh Hz]; try done; cbn [read_cstr app].
  - apply holds_one, byte_at_read in Hh. by rewrite Hh.
  - apply holds_cons in Hh as [Hc%byte_at_read Hh]. inv Hz. rewrite Hc.
    rewrite (proj2 (Z.eqb_neq _ _)) by done. cbn [take]. f_equal. by apply IH.
Qed.
Lemma cstr_run st p s : cstring (uc_of st) p s -> zlen s <= 4096 -> cstr p st = (Ret s, st).
Proof.
  intros Hs Hl. unfold cstr, cstr_max. rewrite bind_get. fold (uc_of st).
  rewrite (read_cstr_take _ _ _ _ Hs), take_ge; [done|]. unfold zlen in Hl. lia.
Qed.

Lemma cstring_same u u' p s : same_bytes u u' -> cstring u p s -> cstring u' p s.
Proof. intros Hu [Hh Hz]. split; [by rewrite <- Hu|done]. Qed.
Lemma cstring_changed a n u u' p s :
  changed_in a n u u' -> cstring u p s -> p + zlen s + 1 <= a \/ a + n <= p -> cstring u' p s.
Proof.
  intros Hc [Hh Hz] Hd. split; [|done]. eapply changed_in_holds; [done..|]. rewrite zlen_app. change (zlen [0]) with 1. lia.
Qed.
(** What is left of a string after its first [k] bytes. *)
Lemma cstring_drop u p s k : (k <= length s)%nat -> cstring u p s -> cstring u (p + Z.of_nat k) (drop k s).
Proof.
  intros Hk [Hh Hz]. split; [|by apply Forall_drop].
  rewrite <- (take_drop k s) in Hh at 1. rewrite <- app_assoc in Hh. apply holds_app in Hh as [_ Hh].
  unfold zlen in Hh. by rewrite length_take, Nat.min_l in Hh by done.
Qed.
Lemma cstring_mapped u p s x : cstring u p s -> p <= x < p + zlen s + 1 -> is_Some (byte_at u x).
Proof.
  intros [Hh _] Hx. destruct (lookup_lt_is_Some_2 (s ++ [0]) (Z.to_nat (x - p))) as [c Hc].
  - rewrite length_app. cbn. unfold zlen in Hx. lia.
  - exists c. apply Hh in Hc. by replace (p + Z.of_nat (Z.to_nat (x - p))) with x in Hc by lia.
Qed.
End Calls.

(** ** A concrete guest *)

(** One page at 0x1000 with the given bytes on it. *)
Definition demo_page_with (l : list (Z * list Z)) : Libc RefUc :=
  mkLibc (with_m_uc (init_memory Arm64 false ru_init)
    (mkRefUc [(0x1000, 0x1000)] (foldr (fun '(a, b) m => mem_store m a b) ∅ l) (fun _ => 0))) init_cells.
Lemma demo_cstring (st : Libc RefUc) p s :
  uc_mem_read (uc_of st) p (zlen (s ++ [0])) = Some (s ++ [0]) -> forallb (fun c => negb (c =? 0)) s = true ->
  cstring (uc_of st) p s.
Proof.
  intros Hr Hz. split; [by apply holds_iff|]. apply Forall_forall. intros c Hc ->.
  rewrite forallb_forall in Hz. apply list_elem_of_In, Hz in Hc. done.
Qed.
