(* ===== verification/Strtok.v ===== *)
(** [strtok], called again and again, splits a string at its delimiters:
    [core/android/stubs.cpp], [strtok_core].

    The reference is [words_of]: the parts of the string between delimiters,
    the empty ones left out. *)

From S2P Require Import Prelude.
From S2P Require Import Words.
From S2P Require Import Loops.
From S2P Require Import Abi.
From S2P Require Import Unicorn.
From S2P Require Import Bytes.
From S2P Require Import Engine.
From S2P Require Import Memory.
From S2P Require Import Libc.
From S2P Require Import LibcStr.
From S2P Require Import LibcFacts.
#[local] Open Scope Z_scope.

(** The parts of [s] between delimiters, the empty ones left out. *)
Fixpoint fields (d s : list Z) : list (list Z) :=
  match s with
  | [] => [[]]
  | c :: r =>
      if in_set d c then [] :: fields d r else
      match fields d r with f :: fs => (c :: f) :: fs | [] => [[c]] end
  end.
Definition words_of (d s : list Z) : list (list Z) := filter (fun w => w <> []) (fields d s).

Lemma run_length_le {A} (p : A -> bool) l : (run_length p l <= length l)%nat.
Proof. induction l as [|x l IH]; cbn; [lia|]. destruct (p x); lia. Qed.
Lemma run_length_take {A} (p : A -> bool) l : Forall (fun x => p x = true) (take (run_length p l) l).
Proof. induction l as [|x l IH]; cbn; [constructor|]. destruct (p x) eqn:E; cbn; by constructor. Qed.
Lemma run_length_next {A} (p : A -> bool) l :
  (run_length p l < length l)%nat -> exists x r, drop (run_length p l) l = x :: r /\ p x = false.
Proof.
  induction l as [|x l IH]; cbn; [lia|]. destruct (p x) eqn:E; cbn; [intros Hl; apply IH; lia|].
  intros _. by exists x, l.
Qed.

Lemma fields_free d a : Forall (fun c => negb (in_set d c) = true) a -> fields d a = [a].
Proof. induction 1 as [|c a Hc Ha IH]; [done|]. cbn. by rewrite (proj1 (negb_true_iff _) Hc), IH. Qed.
Lemma fields_cut d a c b :
  Forall (fun c => negb (in_set d c) = true) a -> in_set d c = true -> fields d (a ++ c :: b) = a :: fields d b.
Proof.
  intros Ha Hc. induction Ha as [|x a Hx Ha IH]; cbn; [by rewrite Hc|].
  by rewrite (proj1 (negb_true_iff _) Hx), IH.
Qed.
(** Leading delimiters do not count. *)
Lemma words_skip d s : words_of d s = words_of d (drop (run_length (in_set d) s) s).
Proof.
  induction s as [|c s IH]; [done|]. cbn [run_length]. destruct (in_set d c) eqn:E; [|done].
  cbn [drop]. rewrite <- IH. unfold words_of. cbn [fields]. rewrite E. by rewrite filter_cons_False by (intros Hn; by apply Hn).
Qed.
(** The first word and the rest. *)
Lemma words_take d s :
  let t := run_length (fun c => negb (in_set d c)) s in
  (0 < t)%nat -> words_of d s = take t s :: words_of d (drop (S t) s).
Proof.
  cbn zeta. set (t := run_length _ s). intros Ht.
  pose proof (run_length_take (fun c => negb (in_set d c)) s) as Hf. fold t in Hf.
  assert (take t s <> []) as Hne.
  { intros E. apply (f_equal length) in E. rewrite length_take in E.
    pose proof (run_length_le (fun c => negb (in_set d c)) s) as Hle. fold t in Hle. cbn in E. lia. }
  destruct (decide (t = length s)) as [E|E].
  - rewrite drop_ge by lia. rewrite take_ge in * by lia. unfold words_of.
    rewrite fields_free by done. by rewrite filter_cons_True.
  - destruct (run_length_next (fun c => negb (in_set d c)) s) as (c & r & Hd & Hc).
    { pose proof (run_length_le (fun c => negb (in_set d c)) s). unfold t in E. lia. }
    fold t in Hd. apply negb_false_iff in Hc. rewrite <- (take_drop t s) at 1. rewrite Hd.
    unfold words_of at 1. rewrite fields_cut by done. rewrite filter_cons_True by done.
    replace (S t) with (t + 1)%nat by lia. by rewrite <- drop_drop, Hd.
Qed.


Section Strtok.
Context {U : Type} `{UcLaws U}.
#[local] Abbreviation L := (Libc U).
Variable abi : Abi.
Hypothesis Harm : kIsArm abi = true.
Implicit Types (st : L).

(** ** The two loops *)

Lemma skip_delims_run d p s st :
  cstring (uc_of st) p s -> 0 <= p -> p + zlen s < 2 ^ 64 ->
  let k := run_length (in_set d) s in
  skip_delims d p st = (Ret (if Nat.eqb k (length s) then None else Some (p + Z.of_nat k)), st).
Proof.
  intros Hs Hp Hb. cbn zeta. unfold skip_delims.
  apply (while_stop (S (length s))); [unfold zlen in Hb; lia|]. set (f := fun p : Z => _).
  assert (forall p c, byte_at (uc_of st) p = Some c -> f p st =
    (Ret (if c =? 0 then inr None else if in_set d c then inl (u64 (p + 1)) else inr (Some p)), st)) as Hf.
  { intros q c Hc. unfold f. by rewrite (bind_run _ _ _ _ _ (rd_byte_run _ _ _ Hc)). }
  clearbody f. revert p Hs Hp Hb. induction s as [|c s IH]; intros p [Hh Hz] Hp Hb.
  - apply holds_one in Hh. by erewrite nat_loop_step by by apply Hf.
  - apply holds_cons in Hh as [Hc Hh]. apply Forall_cons in Hz as [Hcz Hz]. unfold zlen in *. cbn [length run_length] in *.
    erewrite nat_loop_step by by apply Hf. rewrite (proj2 (Z.eqb_neq _ _)) by done.
    destruct (in_set d c); cbn [loop_then]; [|by rewrite Z.add_0_r].
    rewrite u64_id by lia. rewrite IH; [|done|lia..]. cbn [Nat.eqb].
    by replace (p + Z.of_nat (S (run_length (in_set d) s))) with (p + 1 + Z.of_nat (run_length (in_set d) s)) by lia.
Qed.

(** The end of the token at [p]: the delimiter there becomes a zero. *)
Lemma end_token_run d p s st :
  cstring (uc_of st) p s -> 0 <= p -> p + zlen s < 2 ^ 64 ->
  let t := run_length (fun c => negb (in_set d c)) s in
  if Nat.eqb t (length s) then end_token d p st = (Ret 0, st) else
  exists u', uc_mem_write (uc_of st) (p + Z.of_nat t) [0] = Some u' /\
    end_token d p st = (Ret (p + Z.of_nat t + 1), set_uc st u').
Proof.
  intros Hs Hp Hb. cbn zeta. unfold end_token. match goal with |- context [while_ ?g _] => set (f := g) end.
  enough (if Nat.eqb (run_length (fun c => negb (in_set d c)) s) (length s)
    then ended (nat_loop (S (length s)) f p st) = Some (Ret 0, st)
    else exists u', uc_mem_write (uc_of st) (p + Z.of_nat (run_length (fun c => negb (in_set d c)) s)) [0] = Some u' /\
      ended (nat_loop (S (length s)) f p st)
      = Some (Ret (p + Z.of_nat (run_length (fun c => negb (in_set d c)) s) + 1), set_uc st u')) as Hn.
  { destruct (Nat.eqb _ _); [|destruct Hn as (u' & Hu & Hn); exists u'; split; [done|]];
      (apply (while_stop (S (length s))); [unfold zlen in Hb; lia|done]). }
  assert (forall p, byte_at (uc_of st) p = Some 0 -> f p st = (Ret (inr 0), st)) as H0f.
  { intros q Hc. unfold f. by rewrite (bind_run _ _ _ _ _ (rd_byte_run _ _ _ Hc)). }
  assert (forall p c, byte_at (uc_of st) p = Some c -> c <> 0 -> in_set d c = false ->
    f p st = (Ret (inl (u64 (p + 1))), st)) as Hnf.
  { intros q c Hc Hz Hd. unfold f. rewrite (bind_run _ _ _ _ _ (rd_byte_run _ _ _ Hc)).
    by rewrite (proj2 (Z.eqb_neq _ _)), Hd. }
  assert (forall p c, byte_at (uc_of st) p = Some c -> c <> 0 -> in_set d c = true ->
    exists u', uc_mem_write (uc_of st) p [0] = Some u' /\ f p st = (Ret (inr (u64 (p + 1))), set_uc st u')) as Hdf.
  { intros q c Hc Hz Hd. destruct (wr_run st q [0]) as (u' & Hu & Hw); [exact zero_ok| |].
    { intros x Hx. change (zlen [0]) with 1 in Hx. replace x with q by lia. by exists c. }
    exists u'. split; [done|]. unfold f. rewrite (bind_run _ _ _ _ _ (rd_byte_run _ _ _ Hc)).
    rewrite (proj2 (Z.eqb_neq _ _)), Hd by done. by rewrite (bind_run _ _ _ _ _ Hw). }
  clearbody f. revert p Hs Hp Hb. induction s as [|c s IH]; intros p [Hh Hz] Hp Hb.
  - apply holds_one in Hh. cbn [length run_length Nat.eqb]. by erewrite nat_loop_step by by apply H0f.
  - apply holds_cons in Hh as [Hc Hh]. apply Forall_cons in Hz as [Hcz Hz]. unfold zlen in *. cbn [length run_length] in *.
    destruct (in_set d c) eqn:Hd; cbn [negb].
    + destruct (Hdf p c) as (u' & Hu & Hw); [done..|]. rewrite Z.add_0_r. exists u'. split; [done|].
      erewrite nat_loop_step by exact Hw. cbn. by rewrite u64_id by lia.
    + cbn [Nat.eqb]. erewrite nat_loop_step by by eapply Hnf. cbn [loop_then].
      rewrite u64_id by lia. specialize (IH (p + 1) (conj Hh Hz) ltac:(lia) ltac:(lia)).
      destruct (Nat.eqb _ _); [exact IH|].
      replace (p + Z.of_nat (S _)) with (p + 1 + Z.of_nat (run_length (fun c => negb (in_set d c)) s)) by lia.
      exact IH.
Qed.

(** ** One call *)

(** What a call leaves: [tok] the first word of [s], [sv] where the rest of
    the string begins, 0 when there is none. *)
Definition token (d : list Z) (p : Z) (s : list Z) (u u' : U) (tok sv : Z) : Prop :=
  changed_in p (zlen s) u u' /\
  match words_of d s with
  | [] => tok = 0 /\ sv = 0
  | w :: ws =>
      p <= tok /\ tok + zlen w <= p + zlen s /\ cstring u' tok w /\
      (sv = 0 /\ ws = [] \/
       exists s2, sv = tok + zlen w + 1 /\ sv + zlen s2 = p + zlen s /\ cstring u' sv s2 /\ ws = words_of d s2)
  end.

(** A token that a delimiter ends: the zero written over it splits the
    string in two. *)
Lemma token_cut d p s u u' (t : nat) :
  cstring u p s -> 0 <= p -> t = run_length (fun c => negb (in_set d c)) s -> (t < length s)%nat ->
  uc_mem_write u (p + Z.of_nat t) [0] = Some u' ->
  changed_in p (zlen s) u u' /\ cstring u' p (take t s) /\ cstring u' (p + Z.of_nat t + 1) (drop (S t) s).
Proof.
  intros Hs Hp Ht Hl Hw. pose proof (write_changed _ _ _ _ Hw) as Hc. change (zlen [0]) with 1 in Hc.
  pose proof (write_holds _ _ _ _ zero_ok Hw) as Hz.
  split; [eapply changed_sub; [exact Hc|unfold zlen; lia..]|]. split.
  - split; [|by apply Forall_take, (proj2 Hs)]. apply holds_app. unfold zlen. rewrite length_take, Nat.min_l by lia.
    split; [|exact Hz]. eapply changed_in_holds; [exact Hc| |unfold zlen; rewrite length_take; lia].
    destruct Hs as [Hh _]. rewrite <- (take_drop t s) in Hh at 1. rewrite <- app_assoc in Hh. by apply holds_app in Hh as [Hh _].
  - apply (cstring_drop _ _ _ (S t)) in Hs; [|lia]. replace (p + Z.of_nat (S t)) with (p + Z.of_nat t + 1) in Hs by lia.
    eapply cstring_changed; [exact Hc|exact Hs|lia].
Qed.

Lemma token_at d p s st :
  cstring (uc_of st) p s -> 0 < p -> p + zlen s < 2 ^ 64 ->
  (0 < run_length (fun c => negb (in_set d c)) s)%nat ->
  exists u' sv, end_token d p st = (Ret sv, set_uc st u') /\ token d p s (uc_of st) u' p sv.
Proof.
  intros Hs Hp Hb Ht. pose proof (words_take d s) as Hw. cbn zeta in Hw.
  pose proof (end_token_run d p s st Hs ltac:(lia) Hb) as He. cbn zeta in He.
  pose proof (run_length_le (fun c => negb (in_set d c)) s) as Hle.
  remember (run_length (fun c => negb (in_set d c)) s) as t eqn:Et. specialize (Hw Ht).
  destruct (Nat.eqb_spec t (length s)) as [E|E].
  - exists (uc_of st), 0. rewrite set_uc_id. split; [exact He|]. split; [by apply changed_none|].
    rewrite Hw, drop_ge, take_ge by lia. split; [lia|]. split; [lia|]. split; [done|]. left. by split.
  - destruct He as (u' & Hu & He). exists u', (p + Z.of_nat t + 1). split; [exact He|].
    destruct (token_cut d p s (uc_of st) u' t) as (Hc & H1 & H2); [done|lia|done|lia|done|].
    split; [exact Hc|]. rewrite Hw. unfold zlen in *. rewrite length_take, Nat.min_l by lia.
    split; [lia|]. split; [lia|]. split; [exact H1|]. right. exists (drop (S t) s).
    split; [done|]. rewrite length_drop. split; [lia|]. by split.
Qed.

Lemma strtok_core_run d q str save p s st :
  cstring (uc_of st) q d -> zlen d <= 4096 -> p = (if str =? 0 then save else str) -> 0 < p ->
  cstring (uc_of st) p s -> p + zlen s < 2 ^ 64 ->
  exists u' tok sv, strtok_core str q save st = (Ret (tok, sv), set_uc st u') /\
    token d p s (uc_of st) u' tok sv.
Proof.
  intros Hd Hdl Ep Hp Hs Hb. unfold strtok_core. rewrite (bind_run _ _ _ _ _ (cstr_run _ _ _ Hd Hdl)).
  rewrite <- Ep. rewrite (proj2 (Z.eqb_neq p 0)) by lia.
  rewrite (bind_run _ _ _ _ _ (skip_delims_run d p s st Hs ltac:(lia) Hb)).
  pose proof (words_skip d s) as Hw. pose proof (run_length_le (in_set d) s) as Hle.
  pose proof (run_length_next (in_set d) s) as Hnx.
  remember (run_length (in_set d) s) as k eqn:Ek. destruct (Nat.eqb_spec k (length s)) as [E|E].
  - exists (uc_of st), 0, 0. rewrite set_uc_id. split; [done|]. split; [by apply changed_none|].
    rewrite Hw, drop_ge by lia. done.
  - destruct Hnx as (c & r & Hdr & Hc); [lia|].
    destruct (token_at d (p + Z.of_nat k) (drop k s) st) as (u' & sv & He & Hch & Htk).
    + by apply cstring_drop.
    + lia.
    + unfold zlen in *. rewrite length_drop. lia.
    + rewrite Hdr. cbn. rewrite Hc. cbn. lia.
    + exists u', (p + Z.of_nat k), sv. rewrite (bind_run _ _ _ _ _ He). split; [done|].
      unfold token, zlen in *. rewrite length_drop in *. split; [eapply changed_sub; [exact Hch|lia..]|].
      rewrite Hw. destruct (words_of d (drop k s)) as [|w ws]; [lia|].
      destruct Htk as (H1 & H2 & H3 & H4). split; [lia|]. split; [lia|]. split; [exact H3|].
      destruct H4 as [[-> ->]|(s2 & -> & H5 & H6 & H7)]; [by left|right].
      exists s2. split; [done|]. split; [lia|]. by split.
Qed.

(** ** The whole string *)

(** What a program does: the string first, then a null pointer until there is
    no word left. *)
Fixpoint strtok_all (n : nat) (str delim : Z) : M L (list Z) :=
  match n with
  | O => mret []
  | S k =>
      t ← call_stub abi (do_strtok abi) [str; delim];
      if t =? 0 then mret [] else r ← strtok_all k 0 delim; mret (t :: r)
  end.

Lemma strtok_call d q str p s st :
  cstring (uc_of st) q d -> zlen d <= 4096 -> fits abi q -> fits abi str ->
  p = (if str =? 0 then slots (l_cells st) strtok_save_ else str) -> 0 < p ->
  cstring (uc_of st) p s -> fits abi (p + zlen s) ->
  exists tok sv st', call_stub abi (do_strtok abi) [str; q] st = (Ret tok, st') /\
    slots (l_cells st') strtok_save_ = sv /\ token d p s (uc_of st) (uc_of st') tok sv.
Proof.
  intros Hd Hdl Hq Hstr Ep Hp Hs Hb.
  destruct (call_stub_run abi Harm (do_strtok abi) [str; q] st) as (st1 & Hr & Ha & Hcall).
  { destruct abi; done || (cbn; lia). }
  { by apply Forall_cons_2, Forall_cons_2, Forall_nil_2. }
  pose proof (regs_only_bytes _ _ Hr) as Hsame.
  destruct (strtok_core_run d q str (slots (l_cells st) strtok_save_) p s st1) as (u' & tok & sv & Hcore & Htok).
  { by eapply cstring_same. } { done. } { done. } { done. } { by eapply cstring_same. }
  { pose proof (fits_u64 abi Harm _ Hb) as E. pose proof (u64_range (p + zlen s)). lia. }
  destruct (Hcall tok (with_slot (set_uc st1 u') strtok_save_ sv)) as (st3 & E3 & Hr3).
  - unfold do_strtok. change A0 with (arg_reg 0). change A1 with (arg_reg 1).
    rewrite (bind_run _ _ _ _ _ (carg_run abi Harm 0 st1 _ str Ha eq_refl)).
    rewrite (bind_run _ _ _ _ _ (carg_run abi Harm 1 st1 _ q Ha eq_refl)).
    rewrite (bind_run _ _ _ _ _ (get_slot_run _ _)), (regs_only_cells _ _ Hr).
    rewrite (bind_run _ _ _ _ _ Hcore). by rewrite (bind_run _ _ _ _ _ (set_slot_run _ _ _)).
  - destruct Htok as [_ Htok]. unfold fits in *. pose proof (zlen_nonneg s).
    destruct (words_of d s) as [|w ws]; [|pose proof (zlen_nonneg w)]; lia.
  - exists tok, sv, st3. split; [exact E3|]. rewrite (regs_only_cells _ _ Hr3). split; [apply with_slot_same|].
    apply regs_only_bytes in Hr3. rewrite uc_with_slot in Hr3. change (uc_of (set_uc st1 u')) with u' in Hr3.
    destruct Htok as [Hc Htok]. split; [intros x Hx; rewrite Hr3, (Hc x Hx); apply Hsame|].
    destruct (words_of d s) as [|w ws]; [done|]. destruct Htok as (H1 & H2 & H3 & H4).
    split; [done|]. split; [done|]. split; [by eapply cstring_same|].
    destruct H4 as [H4|(s2 & H5 & H6 & H7 & H8)]; [by left|right]. exists s2.
    split; [done|]. split; [done|]. split; [by eapply cstring_same|done].
Qed.

(** With nothing left. *)
Lemma strtok_call_null d q st :
  cstring (uc_of st) q d -> zlen d <= 4096 -> fits abi q -> slots (l_cells st) strtok_save_ = 0 ->
  exists st', call_stub abi (do_strtok abi) [0; q] st = (Ret 0, st') /\ same_bytes (uc_of st) (uc_of st').
Proof.
  intros Hd Hdl Hq H0s. assert (fits abi 0) as Hf0 by (unfold fits; destruct abi; cbn; lia).
  destruct (call_stub_run abi Harm (do_strtok abi) [0; q] st) as (st1 & Hr & Ha & Hcall).
  { destruct abi; done || (cbn; lia). }
  { by apply Forall_cons_2, Forall_cons_2, Forall_nil_2. }
  destruct (Hcall 0 (with_slot st1 strtok_save_ 0)) as (st3 & E3 & Hr3); [|done|].
  - unfold do_strtok. change A0 with (arg_reg 0). change A1 with (arg_reg 1).
    rewrite (bind_run _ _ _ _ _ (carg_run abi Harm 0 st1 _ 0 Ha eq_refl)).
    rewrite (bind_run _ _ _ _ _ (carg_run abi Harm 1 st1 _ q Ha eq_refl)).
    rewrite (bind_run _ _ _ _ _ (get_slot_run _ _)), (regs_only_cells _ _ Hr), H0s.
    assert (strtok_core 0 q 0 st1 = (Ret (0, 0), st1)) as Hcore.
    { unfold strtok_core. erewrite bind_run; [done|]. apply cstr_run; [|done].
      eapply cstring_same; [by apply regs_only_bytes|done]. }
    rewrite (bind_run _ _ _ _ _ Hcore). by rewrite (bind_run _ _ _ _ _ (set_slot_run _ _ _)).
  - exists st3. split; [done|]. apply regs_only_bytes in Hr, Hr3. rewrite uc_with_slot in Hr3. by rewrite Hr.
Qed.

(** [str] is the string itself, or null when the saved pointer leads to it. *)
Lemma strtok_from d q n str p s st :
  cstring (uc_of st) q d -> zlen d <= 4096 -> fits abi q -> fits abi str ->
  p = (if str =? 0 then slots (l_cells st) strtok_save_ else str) ->
  (p = 0 /\ s = [] \/ 0 < p /\ cstring (uc_of st) p s /\ fits abi (p + zlen s)) ->
  q + zlen d + 1 <= p \/ p + zlen s <= q ->
  (length (words_of d s) < n)%nat ->
  exists ts st', strtok_all n str q st = (Ret ts, st') /\
    Forall2 (fun t w => p <= t /\ cstring (uc_of st') t w) ts (words_of d s) /\
    changed_in p (zlen s) (uc_of st) (uc_of st').
Proof.
  intros Hd Hdl Hq. revert str p s st Hd. induction n as [|n IH]; intros str p s st Hd Hstr Ep Hp Hdis Hn; [lia|].
  destruct Hp as [[-> ->]|(Hp & Hs & Hb)].
  - destruct (Z.eqb_spec str 0) as [->|]; [|congruence].
    destruct (strtok_call_null d q st) as (st' & E & Hsame); [done..|].
    exists [], st'. cbn [strtok_all]. rewrite (bind_run _ _ _ _ _ E). split; [done|].
    split; [constructor|by apply changed_none].
  - destruct (strtok_call d q str p s st) as (tok & sv & st1 & E & Hsv & Hc & Htok); [done..|].
    cbn [strtok_all]. rewrite (bind_run _ _ _ _ _ E).
    destruct (words_of d s) as [|w ws]; [destruct Htok as [-> _]; by exists [], st1|].
    destruct Htok as (H1 & H2 & Hw & Hrest). rewrite (proj2 (Z.eqb_neq tok 0)) by lia.
    assert (exists s2, ws = words_of d s2 /\ (sv = 0 /\ s2 = [] \/
      sv = tok + zlen w + 1 /\ sv + zlen s2 = p + zlen s /\ cstring (uc_of st1) sv s2)) as (s2 & -> & Hs2).
    { destruct Hrest as [[-> ->]|(s2 & H3 & H4 & H5 & ->)]; [exists []; by auto|]. exists s2. auto. }
    pose proof (zlen_nonneg w).
    destruct (IH 0 sv s2 st1) as (ts & st2 & E2 & Hts & Hc2).
    + eapply cstring_changed; [exact Hc|exact Hd|lia].
    + unfold fits. destruct abi; cbn; lia.
    + done.
    + destruct Hs2 as [Hs2|(Ea & Eb & Ec)]; [by left|right]. unfold fits in *. by split; [lia|split; [|lia]].
    + destruct Hs2 as [[-> ->]|(Ea & Eb & Ec)]; [right; unfold fits in Hq; change (zlen []) with 0; lia|lia].
    + cbn in Hn. lia.
    + exists (tok :: ts), st2. rewrite (bind_run _ _ _ _ _ E2). split; [done|].
      assert (changed_in p (zlen s) (uc_of st1) (uc_of st2) /\ (cstring (uc_of st2) tok w)) as [Hc3 Hw3].
      { destruct Hs2 as [[-> ->]|(Ea & Eb & Ec)].
        - split; [intros x Hx; apply Hc2; change (zlen []) with 0; lia|].
          eapply cstring_changed; [exact Hc2|exact Hw|right; change (zlen []) with 0; lia].
        - split; [eapply changed_sub; [exact Hc2|lia..]|]. eapply cstring_changed; [exact Hc2|exact Hw|lia]. }
      split; [constructor; [by split|]|intros x Hx; rewrite (Hc3 x Hx); by apply Hc].
      destruct Hs2 as [[_ ->]|(Hsv2 & _ & _)]; [by apply Forall2_nil_inv_r in Hts as ->|].
      eapply Forall2_impl; [exact Hts|]. intros t v [Ht Hv]. split; [lia|done].
Qed.

(** C12: A program that calls [strtok] on a string and then on null until it
    gets null is given the words of the string, in order: each pointer it got
    leads to a C string that is the word.  Only the string was written to. *)
Theorem strtok_splits d q p s n st :
  cstring (uc_of st) p s -> cstring (uc_of st) q d -> zlen d <= 4096 ->
  0 < p -> fits abi (p + zlen s) -> fits abi q ->
  q + zlen d + 1 <= p \/ p + zlen s <= q ->
  (length (words_of d s) < n)%nat ->
  exists ts st', strtok_all n p q st = (Ret ts, st') /\
    Forall2 (fun t w => cstring (uc_of st') t w) ts (words_of d s) /\
    changed_in p (zlen s) (uc_of st) (uc_of st').
Proof.
  intros Hs Hd Hdl Hp Hb Hq Hdis Hn. pose proof (zlen_nonneg s).
  destruct (strtok_from d q n p p s st) as (ts & st' & E & Hts & Hc); try done.
  - unfold fits in *. lia.
  - by rewrite (proj2 (Z.eqb_neq p 0)) by lia.
  - by right.
  - exists ts, st'. split; [done|]. split; [|done]. eapply Forall2_impl; [exact Hts|]. by intros t w [_ Hw].
Qed.
End Strtok.

Definition demo_text : list Z := bs ",one,,two;three;".
Definition demo_tokens : Libc RefUc := demo_page_with [(0x1000, demo_text ++ [0]); (0x1100, bs ",;" ++ [0])].

Lemma strtok_splits_witness :
  words_of (bs ",;") demo_text = [bs "one"; bs "two"; bs "three"] /\
  exists ts st', strtok_all Arm64 4 0x1000 0x1100 demo_tokens = (Ret ts, st') /\
    Forall2 (fun t w => cstring (uc_of st') t w) ts [bs "one"; bs "two"; bs "three"] /\
    changed_in 0x1000 (zlen demo_text) (uc_of demo_tokens) (uc_of st').
Proof.
  split; [vm_compute; reflexivity|].
  apply (strtok_splits Arm64 eq_refl (bs ",;") 0x1100 0x1000 demo_text 4 demo_tokens).
  - apply demo_cstring; vm_compute; reflexivity.
  - apply demo_cstring; vm_compute; reflexivity.
  - vm_compute. discriminate.
  - lia.
  - unfold fits. vm_compute. split; [discriminate|reflexivity].
  - unfold fits. vm_compute. split; [discriminate|reflexivity].
  - right. vm_compute. discriminate.
  - apply Nat.ltb_lt. vm_compute. reflexivity.
Defined.

Example strtok_pointers :
  fst (strtok_all Arm64 4 0x1000 0x1100 demo_tokens) = Ret [0x1001; 0x1006; 0x100a].
Proof. vm_compute. done. Qed.
