(* ===== verification/LibcBounds.v ===== *)
(** The stubs that are told the size of a buffer stay inside it:
    [core/android/stubs.cpp]. *)

From S2P Require Import Prelude.
From S2P Require Import Words.
From S2P Require Import Loops.
From S2P Require Import Abi.
From S2P Require Import Unicorn.
From S2P Require Import Bytes.
From S2P Require Import Engine.
From S2P Require Import Memory.
From S2P Require Import Libc.
From S2P Require Import LibcStr.
From S2P Require Import LibcFmt.
From S2P Require Import LibcWide.
From S2P Require Import LibcFacts.
#[local] Open Scope Z_scope.

Section Bounds.
Context {U : Type} `{UcLaws U}.
#[local] Abbreviation L := (Libc U).
Variable abi : Abi.
Hypothesis Harm : kIsArm abi = true.
Variables tight legacy_malloc : bool.
Variable strerror_text : Z -> list Z.
Variable host_pointer : Z -> list Z.

(** Since [u0], nothing outside the [n] bytes at [a] changed. *)
Definition inside (a n : Z) (u0 : U) (st : L) : Prop := changed_in a n u0 (uc_of st).
Definition stays {A} (a n : Z) (m : M L A) : Prop := forall u0, preserves (inside a n u0) m.

Lemma stays_ret {A} a n (x : A) : stays a n (mret x).
Proof. intros u0. apply preserves_ret. Qed.
Lemma stays_throw {A} a n e : stays a n (throw (A := A) e).
Proof. intros u0. apply preserves_throw. Qed.
Lemma stays_lift {A} a n (o : outcome A) : stays a n (lift o).
Proof. intros u0. apply preserves_lift. Qed.
Lemma stays_bind {A B} a n (m : M L A) (f : A -> M L B) :
  stays a n m -> (forall x, stays a n (f x)) -> stays a n (m ≫= f).
Proof. intros Hm Hf u0. apply preserves_bind; [apply Hm|intros x; apply Hf]. Qed.
Lemma stays_if {A} a n (b : bool) (m1 m2 : M L A) :
  (b = true -> stays a n m1) -> (b = false -> stays a n m2) -> stays a n (if b then m1 else m2).
Proof. destruct b; auto. Qed.
Lemma stays_while {S R} a n (f : S -> M L (S + R)) s : (forall s, stays a n (f s)) -> stays a n (while_ f s).
Proof. intros Hf u0. apply preserves_while. intros s'. apply Hf. Qed.

(** A loop whose own state stays within [I] and which ends with an [x] of [Q]. *)
Lemma nat_loop_keeps {S R} (I : S -> Prop) (Q : R -> Prop) a n (f : S -> M L (S + R)) u0 :
  (forall s st r st', I s -> inside a n u0 st -> f s st = (r, st') ->
     inside a n u0 st' /\ match r with Ret (inl s') => I s' | Ret (inr x) => Q x | _ => True end) ->
  forall k s st r st', I s -> inside a n u0 st -> nat_loop k f s st = (r, st') ->
  inside a n u0 st' /\ match r with Ret (inl s') => I s' | Ret (inr x) => Q x | _ => True end.
Proof.
  intros Hf k. induction k as [|k IH]; intros s st r st' Hs Hi; cbn [nat_loop]; [by intros [= <- <-]|].
  unfold M_bind. destruct (f s st) as [[[s'|x]|e|] st1] eqn:E; destruct (Hf _ _ _ _ Hs Hi E) as [H1 H2];
    cbn [loop_then]; [|by intros [= <- <-]..]. by apply IH.
Qed.
Lemma stays_while_inv {S R A} (I : S -> Prop) (Q : R -> Prop) a n (f : S -> M L (S + R)) (g : R -> M L A) s :
  I s ->
  (forall u0 s st r st', I s -> inside a n u0 st -> f s st = (r, st') ->
     inside a n u0 st' /\ match r with Ret (inl s') => I s' | Ret (inr x) => Q x | _ => True end) ->
  (forall x, Q x -> stays a n (g x)) -> stays a n (while_ f s ≫= g).
Proof.
  intros Hs Hf Hg u0 st r st' Hi. unfold while_, mbind, M_mbind. unfold M_bind at 1 2.
  rewrite pos_loop_nat. destruct (nat_loop _ f s st) as [o st1] eqn:E.
  destruct (nat_loop_keeps I Q a n f u0 (Hf u0) _ _ _ _ _ Hs Hi E) as [H1 H2].
  destruct o as [[s'|x]|e|]; [by intros [= _ <-]| |by intros [= _ <-]..]. by apply (Hg x H2 u0).
Qed.

(** What only looks, or sets a register. *)
Definition quiet {A} (op : M U A) : Prop := forall u r u', op u = (r, u') -> same_bytes u u'.
Lemma stays_quiet {A} a n (op : M U A) : quiet op -> stays a n (on_l_uc op).
Proof.
  intros Hq u0 st r st' Hi. unfold on_l_uc, on_l_mem, uc_do. fold (uc_of st).
  destruct (op (uc_of st)) as [r1 u1] eqn:E. intros [= _ <-]. apply Hq in E.
  eapply changed_trans; [exact Hi|by apply changed_none].
Qed.
Lemma quiet_read a n : quiet (e_read a n).
Proof. intros u r u'. unfold e_read. by destruct (uc_mem_read u a n); intros [= _ <-]. Qed.
Lemma quiet_bind {A B} (m : M U A) (f : A -> M U B) : quiet m -> (forall x, quiet (f x)) -> quiet (m ≫= f).
Proof.
  intros Hm Hf u r u'. unfold mbind, M_mbind, M_bind. destruct (m u) as [[x|e|] u1] eqn:E; intros Hr.
  - rewrite (Hm _ _ _ E). by eapply Hf.
  - injection Hr as <- <-. by eapply Hm.
  - injection Hr as <- <-. by eapply Hm.
Qed.
Lemma quiet_pure {A} (f : U -> outcome A) : quiet (fun u => (f u, u)).
Proof. by intros u r u' [= _ <-]. Qed.
Lemma quiet_read_reg r : quiet (read_reg abi r).
Proof. apply quiet_bind; [apply (quiet_pure (fun _ => reg_id abi r))|intros id; apply (quiet_pure (fun u => Ret _))]. Qed.
Lemma quiet_write_reg r v : quiet (write_reg abi r v).
Proof.
  apply quiet_bind; [apply (quiet_pure (fun _ => reg_id abi r))|].
  intros id u x u' [= _ <-]. apply same_bytes_reg.
Qed.
Lemma quiet_read_t k a : quiet (read_t k a).
Proof. apply quiet_bind; [apply quiet_read|intros l; apply (quiet_pure (fun _ => Ret _))]. Qed.

Lemma stays_arg a n r : stays a n (arg abi r).
Proof. apply stays_bind; [apply stays_quiet, quiet_read_reg|intros v; apply stays_ret]. Qed.
Lemma stays_result a n v : stays a n (result abi v).
Proof. apply stays_quiet, quiet_write_reg. Qed.
Lemma stays_rd a n p k : stays a n (rd p k).
Proof. apply stays_quiet, quiet_read. Qed.
Lemma stays_rd_word a n k p : stays a n (rd_word k p).
Proof. apply stays_quiet, quiet_read_t. Qed.
Lemma stays_cstr_max a n p k : stays a n (cstr_max p k).
Proof. intros u0 st r st' Hi [= _ <-]. done. Qed.
Lemma stays_cstr a n p : stays a n (cstr p).
Proof. apply stays_cstr_max. Qed.
Lemma stays_vec a n k : stays a n (vec k).
Proof. unfold vec. apply stays_if; intros _; [apply stays_throw|apply stays_ret]. Qed.
Lemma stays_wr a n p l : a <= p -> p + zlen l <= a + n -> stays a n (wr p l).
Proof.
  intros Hlo Hhi u0 st r st' Hi. unfold wr, on_l_uc, on_l_mem, uc_do, e_write, check. fold (uc_of st).
  destruct (uc_mem_write (uc_of st) p l) as [u'|] eqn:E; intros [= _ <-]; [|done].
  eapply changed_trans; [exact Hi|]. eapply changed_sub; [by eapply write_changed|done..].
Qed.
Lemma stays_wr_word a n p k v : a <= p -> p + Z.of_nat k <= a + n -> stays a n (wr_word k p v).
Proof.
  intros ??. unfold wr_word, write_t. apply stays_wr; [done|]. unfold zlen. by rewrite length_le_bytes.
Qed.
Lemma stays_for_each {B} a n (f : B -> M L unit) l :
  (forall b, b ∈ l -> stays a n (f b)) -> stays a n (for_each f l).
Proof.
  intros Hf u0. induction l as [|b l IH]; [apply preserves_ret|].
  intros st r st' Hi. rewrite for_each_cons. revert st r st' Hi. apply preserves_bind.
  - apply Hf, list_elem_of_here.
  - intros _. apply IH. intros b' Hb. apply Hf. by apply list_elem_of_further.
Qed.
End Bounds.

Create HintDb stays.
#[export] Hint Resolve stays_ret stays_throw stays_lift stays_arg stays_result stays_rd stays_rd_word
  stays_cstr stays_cstr_max stays_vec stays_while : stays.
(** Through binds and conditions down to the steps; the writes are left. *)
Ltac stays := repeat first
  [ solve [eauto with stays]
  | apply stays_bind; [|intros ?]
  | apply stays_if; [let E := fresh in intros E|let E := fresh in intros E]
  | match goal with |- stays _ _ (match ?x with _ => _ end) => destruct x end ].

Section Writers.
Context {U : Type} `{UcLaws U}.
#[local] Abbreviation L := (Libc U).
Variable abi : Abi.
Hypothesis Harm : kIsArm abi = true.
Variable strerror_text : Z -> list Z.
Variable host_pointer : Z -> list Z.

(** *** What a format does to memory: nothing *)

Lemma stays_expand {T} a n (next : T -> M L (Z * T)) fuel fmt t :
  (forall t, stays a n (next t)) -> stays a n (expand host_pointer next fuel fmt t).
Proof.
  intros Hn. revert fmt t. induction fuel as [|k IH]; intros [|c r] t; cbn [expand]; try apply stays_ret.
  assert (forall r t, stays a n (star_or_digits next r t)) as Hs by (intros; unfold star_or_digits; stays).
  assert (forall r t, stays a n (precision next r t)) as Hp by (intros; unfold precision; stays).
  assert (forall sp len cv t, stays a n (convert host_pointer next sp len cv t)) as Hc.
  { intros. unfold convert. stays. }
  cbn zeta. stays.
Qed.
Lemma stays_fmt_expand a n f k : stays a n (fmt_expand abi host_pointer f k).
Proof.
  unfold fmt_expand, fmt_expand_cb. stays. apply stays_expand. intros t. unfold aapcs_arg.
  stays; apply stays_quiet; first [apply quiet_read_reg|apply (quiet_pure (fun u => Ret _))].
Qed.

(** With a [va_list] at [va]: its cursors move, nothing else. *)
Lemma stays_fmt_expand_va va f : 0 <= va -> va + 32 <= 2 ^ 64 -> stays va 32 (fmt_expand_va host_pointer f va).
Proof.
  intros Hv0 Hv1. unfold fmt_expand_va, fmt_expand_cb. stays. apply stays_expand. intros []. unfold va_next.
  rewrite (u64_id (va + 24)) by lia. stays; apply stays_wr_word; lia.
Qed.

(** *** Stubs that are told the size *)

(** From here on the state is one that has the arguments in place. *)
Definition stays_at {A} (a n : Z) (st : L) (m : M L A) : Prop :=
  forall r st', m st = (r, st') -> changed_in a n (uc_of st) (uc_of st').
Lemma stays_here {A} a n st (m : M L A) : stays a n m -> stays_at a n st m.
Proof. intros Hm r st' E. refine (Hm (uc_of st) st r st' _ E). by apply changed_none. Qed.
Lemma stays_at_arg {A} i a n st l v (f : Z -> M L A) :
  args_are abi st l -> l !! i = Some v -> stays_at a n st (f v) ->
  stays_at a n st (arg abi (arg_reg i) ≫= f).
Proof. intros Ha Hi Hf r st'. rewrite (bind_run _ _ _ _ _ (carg_run abi Harm i st l v Ha Hi)). apply Hf. Qed.

(** A read gives as many bytes as it was asked for. *)
Lemma stays_rd_then {A} a n p k (f : list Z -> M L A) :
  (forall l, zlen l = k -> stays a n (f l)) -> stays a n (rd p k ≫= f).
Proof.
  intros Hf u0 st r st' Hi. unfold rd, on_l_uc, on_l_mem, uc_do, e_read, mbind, M_mbind, M_bind. fold (uc_of st).
  destruct (uc_mem_read (uc_of st) p k) as [l|] eqn:E.
  - intros E2. destruct (law_read_len _ _ _ _ E) as [El _]. revert E2.
    fold (set_uc st (uc_of st)). rewrite set_uc_id. by apply Hf.
  - fold (set_uc st (uc_of st)). rewrite set_uc_id. by intros [= _ <-].
Qed.

Lemma zlen_take_le {A} (k : Z) (l : list A) : 0 <= k -> zlen (take (Z.to_nat k) l) <= k.
Proof. unfold zlen. rewrite length_take. lia. Qed.
Lemma zlen_padded l n : 0 <= n -> zlen (padded l n) = n.
Proof. intros Hn. unfold zlen, padded. rewrite length_app, length_take, length_replicate. lia. Qed.
Lemma zlen_units l : zlen (units l) = 4 * zlen l.
Proof.
  unfold units, zlen. induction l as [|x l IH]; [done|].
  rewrite fmap_cons, concat_cons, length_app, length_le_bytes. cbn [length]. lia.
Qed.

(** The memory, string, number-formatting and wide-character stubs of
    [register_defaults] that are told the size of the buffer they fill (those
    that read a file or inflate are not among them): the handler, its arguments, the buffer, its size, and the [va_list] the
    call takes its arguments from, if any.  [vsnprintf] and [__vsnprintf_chk]
    are in only for a size that is not 0. *)
Inductive bounded_stub : M L unit -> list Z -> Z -> Z -> option Z -> Prop :=
| b_memcpy d s n : bounded_stub (do_memcpy abi) [d; s; n] d n None
| b_mempcpy d s n : bounded_stub (do_mempcpy abi) [d; s; n] d n None
| b_memset d c n : bounded_stub (do_memset abi) [d; c; n] d n None
| b_strncpy d s n : bounded_stub (do_strncpy abi) [d; s; n] d n None
| b_stpncpy d s n : bounded_stub (do_stpncpy abi) [d; s; n] d n None
| b_strncpy_chk d s n : bounded_stub (do_strncpy_chk abi) [d; s; n] d n None
| b_strncpy_chk2 d s n : bounded_stub (do_strncpy_chk2 abi) [d; s; n] d n None
| b_strlcpy d s n : bounded_stub (do_strlcpy abi) [d; s; n] d n None
| b_strlcat d s n : bounded_stub (do_strlcat abi) [d; s; n] d n None
| b_strerror_r e d n : bounded_stub (do_strerror_r abi strerror_text) [e; d; n] d n None
| b_snprintf d n f : bounded_stub (do_snprintf abi host_pointer) [d; n; f] d n None
| b_snprintf_chk d n f : bounded_stub (do_snprintf_chk abi host_pointer) [d; n; f] d n None
| b_wcsncpy d s n : bounded_stub (do_wcsncpy abi) [d; s; n] d (4 * n) None
| b_mbstowcs d s n : bounded_stub (do_mbstowcs abi) [d; s; n] d (4 * n) None
| b_wcstombs d s n : bounded_stub (do_wcstombs abi) [d; s; n] d n None
| b_inet_ntop f s d n : bounded_stub (do_inet_ntop abi) [f; s; d; n] d n None
| b_vsnprintf d n f va : n <> 0 -> bounded_stub (do_vsnprintf abi host_pointer) [d; n; f; va] d n (Some va)
| b_vsnprintf_chk d n fl sl f va :
    n <> 0 -> bounded_stub (do_vsnprintf_chk abi host_pointer) [d; n; fl; sl; f; va] d n (Some va).

(** Their bodies, once the arguments are read. *)
Section Bodies.
Variables d n : Z.
Hypothesis Hd : 0 <= d.
Hypothesis Hn : 0 <= n.
Hypothesis Hdn : d + n <= 2 ^ 64.

Lemma stays_wr_at k l : 0 <= k -> k + zlen l <= n -> zlen l <> 0 -> stays d n (wr (u64 (d + k)) l).
Proof. intros Hk Hl Hz. pose proof (zlen_nonneg l). rewrite u64_id by lia. apply stays_wr; lia. Qed.
Lemma stays_zero k : 0 <= k < n -> stays d n (wr (u64 (d + k)) [0]).
Proof. intros Hk. apply stays_wr_at; [lia|change (zlen [0]) with 1; lia|done]. Qed.
Lemma stays_wr_d l : zlen l <= n -> stays d n (wr d l).
Proof. intros Hl. apply stays_wr; lia. Qed.
Lemma stays_prefix (k : Z) l : 0 <= k < n -> stays d n (wr d (take (Z.to_nat k) l)).
Proof. intros Hk. apply stays_wr_d. pose proof (zlen_take_le k l). lia. Qed.

Lemma stays_copy_bytes s : stays d n (copy_bytes d s n).
Proof.
  unfold copy_bytes. apply stays_if; intros _; [stays|]. apply stays_bind; [stays|]. intros _.
  apply stays_rd_then. intros l Hl. apply stays_wr_d. lia.
Qed.
Lemma stays_copy_n l : stays d n (copy_n d n l).
Proof. unfold copy_n. stays. apply stays_wr_d. rewrite zlen_padded by done. lia. Qed.
Lemma stays_read_upto s k : stays d n (read_upto s k).
Proof. unfold read_upto. apply stays_while. intros [i acc]. stays. Qed.
Lemma stays_bounded_write s : stays d n (bounded_write abi d n s).
Proof.
  unfold bounded_write. stays.
  - bool_to_Prop. pose proof (zlen_nonneg s). apply stays_prefix. lia.
  - bool_to_Prop. pose proof (zlen_nonneg s). apply stays_zero. lia.
Qed.
Lemma stays_strlcpy (src : list Z) : stays d n (
  if n =? 0 then skip else
  _ ← (if Z.min (zlen src) (n - 1) =? 0 then skip else wr d (take (Z.to_nat (Z.min (zlen src) (n - 1))) src));
  wr (u64 (d + Z.min (zlen src) (n - 1))) [0]).
Proof.
  stays; bool_to_Prop; pose proof (zlen_nonneg src).
  - apply stays_prefix. lia.
  - apply stays_zero. lia.
Qed.
Lemma stays_strlcat (old src : list Z) : stays d n (
  if zlen old <? n then
    _ ← (if Z.min (zlen src) (n - zlen old - 1) =? 0 then skip
         else wr (u64 (d + zlen old)) (take (Z.to_nat (Z.min (zlen src) (n - zlen old - 1))) src));
    wr (u64 (d + zlen old + Z.min (zlen src) (n - zlen old - 1))) [0]
  else skip).
Proof.
  pose proof (zlen_nonneg old). pose proof (zlen_nonneg src).
  stays; bool_to_Prop.
  - apply stays_wr_at; [done| |]; unfold zlen in *; rewrite length_take; lia.
  - rewrite <- Z.add_assoc. apply stays_zero. lia.
Qed.
Lemma stays_strerror e : stays d n (
  if n =? 0 then skip else put_string d (take (Z.to_nat (n - 1)) (strerror_text e))).
Proof.
  apply stays_if; intros E; [stays|]. bool_to_Prop.
  pose proof (zlen_take_le (n - 1) (strerror_text e)). pose proof (zlen_nonneg (take (Z.to_nat (n - 1)) (strerror_text e))).
  unfold put_string. apply stays_bind; [apply stays_wr_d; lia|]. intros _. apply stays_zero. lia.
Qed.
Lemma stays_bytewise (f : Z -> Z) : stays d n (for_each (fun k => wr (u64 (d + k)) [f k]) (seqZ 0 n)).
Proof.
  apply stays_for_each. intros k Hk%elem_of_seqZ. apply stays_wr_at; [lia|change (zlen [f k]) with 1; lia|done].
Qed.
End Bodies.

Lemma args_room st l d n i j : args_are abi st l -> l !! i = Some d -> l !! j = Some n -> 0 <= d /\ 0 <= n.
Proof.
  intros [_ Ha] Hi Hj. destruct (Ha i d Hi) as [_ [? _]], (Ha j n Hj) as [_ [? _]]. done.
Qed.

(** *** Wide ones *)

Lemma stays_wcsncpy d n (src : list Z) :
  0 <= d -> 0 < n -> d + 4 * n <= 2 ^ 64 ->
  stays d (4 * n) (write_wcs d (take (Z.to_nat (n - 1)) src ++ replicate (Z.to_nat (n - 1) - length src) 0 ++ [0])).
Proof.
  intros Hd Hn Hdn. unfold write_wcs. apply stays_wr; [lia|]. rewrite zlen_units. unfold zlen.
  rewrite !length_app, length_take, length_replicate. cbn [length]. lia.
Qed.
Lemma stays_units d n k (f : Z -> Z) :
  0 <= d -> d + 4 * n <= 2 ^ 64 -> k <= n ->
  stays d (4 * n) (for_each (fun i => wr_word 4 (u64 (d + i * 4)) (f i)) (seqZ 0 k)).
Proof.
  intros Hd Hdn Hk. apply stays_for_each. intros i Hi%elem_of_seqZ. rewrite u64_id by lia. apply stays_wr_word; lia.
Qed.
Lemma stays_unit d n k v : 0 <= d -> d + 4 * n <= 2 ^ 64 -> 0 <= k < n -> stays d (4 * n) (wr_word 4 (u64 (d + k * 4)) v).
Proof. intros Hd Hdn Hk. rewrite u64_id by lia. apply stays_wr_word; lia. Qed.

(** *** The loop of [wcstombs], and a dotted quad *)

Lemma stays_wcstombs d n sp :
  0 <= d -> 0 <= n < 2 ^ 64 -> d + n <= 2 ^ 64 ->
  stays d n (written ← while_ (fun '(sp, w) =>
      if n <=? u64 (w + 1) then mret (inr w) else
      c ← rd_word 4 sp;
      if c =? 0 then mret (inr w) else
      _ ← (if d =? 0 then skip else wr (u64 (d + w)) [if c <? 0x80 then c else 63]);
      mret (inl (u64 (sp + 4), u64 (w + 1)))) (sp, 0);
    _ ← (if (d =? 0) || (n =? 0) then skip else wr (u64 (d + written)) [0]);
    result abi written).
Proof.
  intros Hd Hn Hdn. set (I := fun w : Z => 0 <= w /\ (w = 0 \/ w < n)).
  apply (stays_while_inv (fun s => I s.2) I).
  - split; [done|by left].
  - intros u0 [p w] st r st' [Hw0 Hw] Hi E. cbn [snd] in *.
    assert (u64 (w + 1) = w + 1) as Ew by (apply u64_id; lia). rewrite Ew in E.
    destruct (Z.leb_spec n (w + 1)) as [Hle|Hlt]; [injection E as <- <-; split; [done|by split]|].
    assert (stays d n (c ← rd_word 4 p;
      if c =? 0 then mret (inr w) else
      _ ← (if d =? 0 then skip else wr (u64 (d + w)) [if c <? 0x80 then c else 63]);
      mret (inl (u64 (p + 4), w + 1)) : M L ((Z * Z) + Z))) as Hst.
    { stays. apply stays_wr_at; cbn; unfold zlen; cbn; lia. }
    split; [by eapply Hst|]. destruct r as [[s'|x]|e|]; [| |done..].
    + apply bind_ret_inv in E as (c & st1 & _ & E). destruct (c =? 0); [done|].
      apply bind_ret_inv in E as (? & st2 & _ & E). injection E as <- _. cbn. unfold I. lia.
    + apply bind_ret_inv in E as (c & st1 & _ & E). destruct (c =? 0); [by injection E as <- _|].
      by apply bind_ret_inv in E as (? & st2 & _ & E).
  - intros w [Hw0 Hw]. stays. bool_to_Prop. apply stays_zero; lia.
Qed.

Lemma dec_text_short v : zlen (dec_text (Z.land v 0xFF)) <= 3.
Proof.
  assert (0 <= Z.land v 0xFF < 256) as Hr.
  { change 0xFF with (Z.ones 8). rewrite Z.land_ones by done. by apply Z.mod_pos_bound. }
  revert Hr. generalize (Z.land v 0xFF). intros x Hx.
  assert (forallb (fun y => zlen (dec_text y) <=? 3) (seqZ 0 256) = true) as Ha by (vm_compute; reflexivity).
  rewrite forallb_forall in Ha. apply Z.leb_le, Ha, list_elem_of_In, elem_of_seqZ. lia.
Qed.
Lemma quad_text_fits a : zlen (quad_text a ++ [0]) <= 16.
Proof.
  unfold quad_text. pose proof (dec_text_short a). pose proof (dec_text_short (Z.shiftr a 8)).
  pose proof (dec_text_short (Z.shiftr a 16)). pose proof (dec_text_short (Z.shiftr a 24)).
  unfold zlen in *. rewrite !length_app. cbn [length]. lia.
Qed.

(** *** One by one *)

Section OneByOne.
Variables (d s n : Z) (st : L).

#[local] Ltac at_arg i Ha := eapply (stays_at_arg i); [exact Ha|reflexivity|].
#[local] Ltac steps := apply stays_here; repeat (apply stays_bind; [solve [eauto with stays]|intros ?]).
#[local] Ltac body := apply stays_bind; [|intros _; apply stays_result].

Section Mem.
Hypothesis Ha : args_are abi st [d; s; n].
Hypothesis Hr : d + n <= 2 ^ 64.

Lemma room3 : 0 <= d /\ 0 <= n.
Proof. exact (args_room st _ d n 0 2 Ha eq_refl eq_refl). Qed.

Lemma memcpy_stays : stays_at d n st (do_memcpy abi).
Proof. pose proof room3 as [??]. at_arg 0%nat Ha. at_arg 1%nat Ha. at_arg 2%nat Ha. steps. body. by apply stays_copy_bytes. Qed.
Lemma mempcpy_stays : stays_at d n st (do_mempcpy abi).
Proof. pose proof room3 as [??]. at_arg 0%nat Ha. at_arg 1%nat Ha. at_arg 2%nat Ha. steps. body. by apply stays_copy_bytes. Qed.
Lemma memset_stays : stays_at d n st (do_memset abi).
Proof.
  pose proof room3 as [??]. at_arg 0%nat Ha. at_arg 1%nat Ha. at_arg 2%nat Ha. steps. body.
  stays. apply stays_wr_d; unfold zlen; rewrite ?length_replicate; lia.
Qed.
Lemma strncpy_stays : stays_at d n st (do_strncpy abi).
Proof. pose proof room3 as [??]. at_arg 0%nat Ha. at_arg 2%nat Ha. steps. body. by apply stays_copy_n. Qed.
Lemma stpncpy_stays : stays_at d n st (do_stpncpy abi).
Proof. pose proof room3 as [??]. at_arg 0%nat Ha. at_arg 2%nat Ha. steps. body. by apply stays_copy_n. Qed.
Lemma strncpy_chk_stays : stays_at d n st (do_strncpy_chk abi).
Proof.
  pose proof room3 as [??]. at_arg 0%nat Ha. at_arg 2%nat Ha. steps. body.
  match goal with l : list Z |- _ => by apply (stays_bytewise d n) with (f := fun k => default 0 (l !! Z.to_nat k)) end.
Qed.
Lemma strncpy_chk2_stays : stays_at d n st (do_strncpy_chk2 abi).
Proof.
  pose proof room3 as [??]. at_arg 0%nat Ha. at_arg 1%nat Ha. at_arg 2%nat Ha. steps.
  apply stays_bind; [apply stays_read_upto|]. intros l. body. stays. apply stays_wr_d; rewrite ?zlen_padded by done; lia.
Qed.
Lemma strlcpy_stays : stays_at d n st (do_strlcpy abi).
Proof. pose proof room3 as [??]. at_arg 0%nat Ha. at_arg 2%nat Ha. steps. body. by apply stays_strlcpy. Qed.
Lemma strlcat_stays : stays_at d n st (do_strlcat abi).
Proof. pose proof room3 as [??]. at_arg 0%nat Ha. at_arg 2%nat Ha. steps. body. by apply stays_strlcat. Qed.
Lemma wcsncpy_stays : d + 4 * n <= 2 ^ 64 -> stays_at d (4 * n) st (do_wcsncpy abi).
Proof.
  intros H4. pose proof room3 as [??]. at_arg 0%nat Ha. at_arg 2%nat Ha. apply stays_here.
  apply stays_if; intros E; [apply stays_result|]. bool_to_Prop.
  apply stays_bind; [eauto with stays|intros p]. apply stays_bind; [unfold read_wcs; apply stays_while; intros [? ?]; stays|].
  intros src. apply stays_if; intros _; [apply stays_throw|]. body. apply stays_wcsncpy; lia.
Qed.
Lemma mbstowcs_stays : d + 4 * n <= 2 ^ 64 -> stays_at d (4 * n) st (do_mbstowcs abi).
Proof.
  intros H4. pose proof room3 as [??]. at_arg 0%nat Ha. at_arg 2%nat Ha. steps.
  apply stays_if; intros E; [apply stays_result|].
  match goal with l : list Z |- _ => pose proof (zlen_nonneg l) end.
  apply stays_bind; [|intros _; body].
  - match goal with l : list Z |- _ =>
      apply stays_units with (f := fun i => default 0 (l !! Z.to_nat i)) end; [lia..|]. case_Z; lia.
  - stays. bool_to_Prop. rewrite (proj2 (Z.ltb_lt 0 n)) by lia. apply stays_unit; lia.
Qed.
End Mem.

Lemma wcstombs_stays : args_are abi st [d; s; n] -> d + n <= 2 ^ 64 -> stays_at d n st (do_wcstombs abi).
Proof.
  intros Ha Hr. destruct (args_room st _ d n 0 2 Ha eq_refl eq_refl) as [Hd Hn].
  assert (n < 2 ^ 64) as Hn64.
  { rewrite <- (fits_u64 abi Harm n); [apply u64_range|exact (proj2 (proj2 Ha 2%nat n eq_refl))]. }
  at_arg 0%nat Ha. at_arg 2%nat Ha. at_arg 1%nat Ha. apply stays_here. by apply stays_wcstombs.
Qed.
Lemma inet_ntop_stays f :
  args_are abi st [f; s; d; n] -> d + n <= 2 ^ 64 -> stays_at d n st (do_inet_ntop abi).
Proof.
  intros Ha Hr. destruct (args_room st _ d n 2 3 Ha eq_refl eq_refl) as [Hd Hn].
  at_arg 0%nat Ha. at_arg 1%nat Ha. at_arg 2%nat Ha. at_arg 3%nat Ha. apply stays_here. stays.
  bool_to_Prop. match goal with |- context [quad_text ?a] => pose proof (quad_text_fits a) end. apply stays_wr; lia.
Qed.
Lemma strerror_r_stays :
  args_are abi st [s; d; n] -> d + n <= 2 ^ 64 -> stays_at d n st (do_strerror_r abi strerror_text).
Proof.
  intros Ha Hr. destruct (args_room st _ d n 1 2 Ha eq_refl eq_refl) as [Hd Hn].
  at_arg 1%nat Ha. at_arg 2%nat Ha. steps. body. by apply stays_strerror.
Qed.
Lemma snprintf_stays :
  args_are abi st [d; n; s] -> d + n <= 2 ^ 64 -> stays_at d n st (do_snprintf abi host_pointer).
Proof.
  intros Ha Hr. destruct (args_room st _ d n 0 1 Ha eq_refl eq_refl) as [Hd Hn].
  at_arg 0%nat Ha. at_arg 1%nat Ha. steps. apply stays_bind; [apply stays_fmt_expand|].
  intros l. by apply stays_bounded_write.
Qed.
Lemma snprintf_chk_stays :
  args_are abi st [d; n; s] -> d + n <= 2 ^ 64 -> stays_at d n st (do_snprintf_chk abi host_pointer).
Proof.
  intros Ha Hr. destruct (args_room st _ d n 0 1 Ha eq_refl eq_refl) as [Hd Hn].
  at_arg 0%nat Ha. at_arg 1%nat Ha. steps. apply stays_bind; [apply stays_fmt_expand|].
  intros l. by apply stays_bounded_write.
Qed.
End OneByOne.

(** *** The forms that take a [va_list] *)

(** Outside the [n] bytes at [d], and the [va_list] if there is one, nothing
    changed. *)
Definition changed_beside (d n : Z) (va : option Z) (u u' : U) : Prop :=
  forall x, ~ (d <= x < d + n) -> match va with Some v => ~ (v <= x < v + 32) | None => True end ->
  byte_at u' x = byte_at u x.

Lemma stays_write_str d n s : 0 <= d -> 0 < n -> d + n <= 2 ^ 64 -> stays d n (write_str abi d n s).
Proof.
  intros Hd Hn Hdn. unfold write_str. rewrite (proj2 (Z.eqb_neq n 0)) by lia. pose proof (zlen_nonneg s).
  apply stays_bind; [apply stays_prefix; lia|]. intros _.
  apply stays_bind; [apply stays_zero; lia|]. intros _. apply stays_result.
Qed.
Lemma then_written (m : M L (list Z)) d n va st r st' :
  stays va 32 m -> 0 <= d -> 0 < n -> d + n <= 2 ^ 64 ->
  (s ← m; write_str abi d n s) st = (r, st') -> changed_beside d n (Some va) (uc_of st) (uc_of st').
Proof.
  intros Hm Hd Hn Hdn. unfold mbind, M_mbind, M_bind. destruct (m st) as [o st1] eqn:E1.
  pose proof (stays_here va 32 st m Hm _ _ E1) as C1. destruct o as [s|e|].
  - intros E. pose proof (stays_here d n st1 _ (stays_write_str d n s Hd Hn Hdn) _ _ E) as C2.
    intros x Hx Hv. rewrite (C2 x Hx). by apply C1.
  - intros [= _ <-] x _ Hv. by apply C1.
  - intros [= _ <-] x _ Hv. by apply C1.
Qed.

Section Formatted.
Variables (d n va : Z) (st : L).
Lemma vsnprintf_beside f r st' :
  n <> 0 -> args_are abi st [d; n; f; va] -> d + n <= 2 ^ 64 -> va + 32 <= 2 ^ 64 ->
  do_vsnprintf abi host_pointer st = (r, st') -> changed_beside d n (Some va) (uc_of st) (uc_of st').
Proof.
  intros Hn0 Ha Hr Hv. destruct (args_room st _ d n 0 1 Ha eq_refl eq_refl) as [Hd Hn].
  destruct (args_room st _ va n 3 1 Ha eq_refl eq_refl) as [Hva _].
  unfold do_vsnprintf. change A0 with (arg_reg 0). change A1 with (arg_reg 1). change A2 with (arg_reg 2). change A3 with (arg_reg 3).
  rewrite (bind_run _ _ _ _ _ (carg_run abi Harm 0 st _ d Ha eq_refl)), (bind_run _ _ _ _ _ (carg_run abi Harm 1 st _ n Ha eq_refl)),
    (bind_run _ _ _ _ _ (carg_run abi Harm 2 st _ f Ha eq_refl)), (bind_run _ _ _ _ _ (carg_run abi Harm 3 st _ va Ha eq_refl)).
  apply then_written; [by apply stays_fmt_expand_va|lia..].
Qed.
Lemma vsnprintf_chk_beside fl sl f r st' :
  n <> 0 -> args_are abi st [d; n; fl; sl; f; va] -> d + n <= 2 ^ 64 -> va + 32 <= 2 ^ 64 ->
  do_vsnprintf_chk abi host_pointer st = (r, st') -> changed_beside d n (Some va) (uc_of st) (uc_of st').
Proof.
  intros Hn0 Ha Hr Hv. destruct (args_room st _ d n 0 1 Ha eq_refl eq_refl) as [Hd Hn].
  destruct (args_room st _ va n 5 1 Ha eq_refl eq_refl) as [Hva _].
  unfold do_vsnprintf_chk. change A0 with (arg_reg 0). change A1 with (arg_reg 1). change A4 with (arg_reg 4). change A5 with (arg_reg 5).
  rewrite (bind_run _ _ _ _ _ (carg_run abi Harm 0 st _ d Ha eq_refl)), (bind_run _ _ _ _ _ (carg_run abi Harm 1 st _ n Ha eq_refl)),
    (bind_run _ _ _ _ _ (carg_run abi Harm 4 st _ f Ha eq_refl)), (bind_run _ _ _ _ _ (carg_run abi Harm 5 st _ va Ha eq_refl)).
  apply then_written; [by apply stays_fmt_expand_va|lia..].
Qed.

(** Told that there is no room, [vsnprintf] writes the whole text and its
    terminator, as [vsprintf] does. *)
Lemma vsnprintf_unbounded f :
  args_are abi st [d; 0; f; va] ->
  do_vsnprintf abi host_pointer st =
  (s ← fmt_expand_va host_pointer f va; _ ← wr d s; _ ← wr (u64 (d + zlen s)) [0]; result abi (zlen s)) st.
Proof.
  intros Ha. unfold do_vsnprintf. change A0 with (arg_reg 0). change A1 with (arg_reg 1). change A2 with (arg_reg 2). change A3 with (arg_reg 3).
  rewrite (bind_run _ _ _ _ _ (carg_run abi Harm 0 st _ d Ha eq_refl)), (bind_run _ _ _ _ _ (carg_run abi Harm 1 st _ 0 Ha eq_refl)),
    (bind_run _ _ _ _ _ (carg_run abi Harm 2 st _ f Ha eq_refl)), (bind_run _ _ _ _ _ (carg_run abi Harm 3 st _ va Ha eq_refl)).
  unfold mbind, M_mbind, M_bind. destruct (fmt_expand_va _ _ _ st) as [[s|e|] st1]; [|done..].
  unfold write_str. cbn [Z.eqb]. by rewrite (take_ge s (Z.to_nat (zlen s))) by (unfold zlen; lia).
Qed.
End Formatted.

(** C13: A stub of the list [bounded_stub] (the copying, string, number-formatting
    and wide-character stubs that are told the size of the buffer they fill)
    writes nowhere else, however the call ends: with an answer, with an
    exception from an unmapped address, or with undefined behaviour.  The
    two forms of [vsnprintf] also move the cursors of their [va_list], and keep to
    the buffer only when its size is not 0: see [vsnprintf_unbounded]. *)
Theorem stays_in_buffer h args d n va st r st' :
  bounded_stub h args d n va -> args_are abi st args -> d + n <= 2 ^ 64 ->
  match va with Some v => v + 32 <= 2 ^ 64 | None => True end ->
  h st = (r, st') -> changed_beside d n va (uc_of st) (uc_of st').
Proof.
  intros Hb Ha Hr Hv E. destruct va as [va|].
  - inversion Hb; subst; [by eapply vsnprintf_beside|by eapply vsnprintf_chk_beside].
  - cut (stays_at d n st h); [intros Hst x Hx _; by apply (Hst _ _ E)|]. clear E Hv.
    remember (None : option Z) as va eqn:Eva. destruct Hb; try discriminate Eva;
      first [by eapply memcpy_stays|by eapply mempcpy_stays|by eapply memset_stays|by eapply strncpy_stays
            |by eapply stpncpy_stays|by eapply strncpy_chk_stays|by eapply strncpy_chk2_stays|by eapply strlcpy_stays
            |by eapply strlcat_stays|by eapply strerror_r_stays|by eapply snprintf_stays|by eapply snprintf_chk_stays
            |by eapply wcsncpy_stays|by eapply mbstowcs_stays|by eapply wcstombs_stays|by eapply inet_ntop_stays].
Qed.
End Writers.

Definition demo_args (l : list Z) (st : Libc RefUc) : Libc RefUc := snd (on_l_uc (set_reg_args Arm64 0 l) st).
Definition demo_strlcpy : Libc RefUc :=
  demo_args [0x1200; 0x1000; 4] (demo_page_with [(0x1000, bs "a long text" ++ [0])]).

Lemma demo_strlcpy_args : args_are Arm64 demo_strlcpy [0x1200; 0x1000; 4].
Proof.
  split; [cbn; lia|]. intros [|[|[|i]]] v; [intros [= <-]..|done].
  all: split; [vm_compute; reflexivity|unfold fits; cbn; lia].
Qed.

(** [vsnprintf] of a text without directives, told 4 bytes and told none. *)
Definition demo_vsnprintf (n : Z) : Libc RefUc :=
  demo_args [0x1200; n; 0x1000; 0x1300] (demo_page_with [(0x1000, bs "a long text" ++ [0])]).
Lemma demo_vsnprintf_args n : 0 <= n < 2 ^ 32 -> args_are Arm64 (demo_vsnprintf n) [0x1200; n; 0x1000; 0x1300].
Proof.
  intros Hn. destruct (args_regs_only Arm64 eq_refl (demo_page_with [(0x1000, bs "a long text" ++ [0])])
    [0x1200; n; 0x1000; 0x1300]) as (st & E & Ha & _).
  - cbn. lia.
  - repeat apply Forall_cons_2; try apply Forall_nil_2; unfold fits; cbn; lia.
  - unfold demo_vsnprintf, demo_args. by rewrite E.
Qed.

Lemma stays_in_buffer_witness :
  (uc_mem_read (uc_of (snd (do_strlcpy Arm64 demo_strlcpy))) 0x1200 5 = Some (bs "a l" ++ [0; 0]) /\
   changed_beside 0x1200 4 None (uc_of demo_strlcpy) (uc_of (snd (do_strlcpy Arm64 demo_strlcpy)))) /\
  (let st := demo_vsnprintf 4 in let st' := snd (do_vsnprintf Arm64 (fun _ => []) st) in
   uc_mem_read (uc_of st') 0x1200 5 = Some (bs "a l" ++ [0; 0]) /\
   changed_beside 0x1200 4 (Some 0x1300) (uc_of st) (uc_of st')).
Proof.
  split; (split; [vm_compute; reflexivity|]).
  - apply (stays_in_buffer Arm64 eq_refl (fun _ => []) (fun _ => []) (do_strlcpy Arm64) [0x1200; 0x1000; 4]
           0x1200 4 None demo_strlcpy (fst (do_strlcpy Arm64 demo_strlcpy))).
    + constructor.
    + exact demo_strlcpy_args.
    + lia.
    + exact I.
    + apply surjective_pairing.
  - apply (stays_in_buffer Arm64 eq_refl (fun _ => []) (fun _ => []) (do_vsnprintf Arm64 (fun _ => [])) [0x1200; 4; 0x1000; 0x1300]
           0x1200 4 (Some 0x1300) (demo_vsnprintf 4) (fst (do_vsnprintf Arm64 (fun _ => []) (demo_vsnprintf 4)))).
    + constructor. lia.
    + apply demo_vsnprintf_args. lia.
    + lia.
    + lia.
    + apply surjective_pairing.
Defined.

(** With a size of 0 the twelve bytes are written all the same. *)
Example vsnprintf_size_zero :
  uc_mem_read (uc_of (snd (do_vsnprintf Arm64 (fun _ => []) (demo_vsnprintf 0)))) 0x1200 12 = Some (bs "a long text" ++ [0]).
Proof. vm_compute. reflexivity. Qed.

(** ** Copies *)

Section Copies.
Context {U : Type} `{UcLaws U}.
#[local] Abbreviation L := (Libc U).
Variable abi : Abi.
Hypothesis Harm : kIsArm abi = true.
Implicit Types (st : L).

Lemma memcpy_run d s l st :
  args_are abi st [d; s; zlen l] -> holds (uc_of st) s l -> zlen l < 2 ^ 63 ->
  (forall x, d <= x < d + zlen l -> is_Some (byte_at (uc_of st) x)) ->
  exists st', do_memcpy abi st = result abi d st' /\ holds (uc_of st') d l /\
    changed_in d (zlen l) (uc_of st) (uc_of st').
Proof.
  intros Ha Hl Hn Hx. destruct (wr_run st d l) as (u' & Hu & Hw); [by eapply holds_bytes|done|].
  assert (exists st', copy_bytes d s (zlen l) st = (Ret tt, st') /\ holds (uc_of st') d l /\
    changed_in d (zlen l) (uc_of st) (uc_of st')) as (st' & Hc & Hh & Hch).
  { unfold copy_bytes. destruct (Z.eqb_spec (zlen l) 0) as [E|E].
    - exists st. destruct l; [|unfold zlen in E; cbn in E; lia]. split; [done|]. split; [by intros [|i] c Hi|by intros x].
    - exists (set_uc st u'). unfold vec. rewrite (proj2 (Z.leb_gt _ _)), bind_skip by lia.
      rewrite (bind_run _ _ _ _ _ (rd_run _ _ _ Hl)). split; [done|]. change (uc_of (set_uc st u')) with u'.
      split; [eapply write_holds; [by eapply holds_bytes|done]|by eapply write_changed]. }
  exists st'. split; [|done]. unfold do_memcpy. change A0 with (arg_reg 0). change A1 with (arg_reg 1). change A2 with (arg_reg 2).
  rewrite (bind_run _ _ _ _ _ (carg_run abi Harm 0 st _ d Ha eq_refl)).
  rewrite (bind_run _ _ _ _ _ (carg_run abi Harm 1 st _ s Ha eq_refl)).
  rewrite (bind_run _ _ _ _ _ (carg_run abi Harm 2 st _ (zlen l) Ha eq_refl)).
  by rewrite (bind_run _ _ _ _ _ Hc).
Qed.

(** [memcpy] and [memmove] are the same stub, and it is the latter: what was
    at the source is afterwards at the destination, even when they overlap. *)
Lemma copy_overlaps d s l st :
  Forall (fits abi) [d; s; zlen l] -> holds (uc_of st) s l -> zlen l < 2 ^ 63 ->
  (forall x, d <= x < d + zlen l -> is_Some (byte_at (uc_of st) x)) ->
  exists st', call_stub abi (do_memcpy abi) [d; s; zlen l] st = (Ret d, st') /\
    holds (uc_of st') d l /\ changed_in d (zlen l) (uc_of st) (uc_of st').
Proof.
  intros Hf Hl Hn Hx.
  destruct (call_stub_run abi Harm (do_memcpy abi) [d; s; zlen l] st) as (st1 & Hr & Ha & Hc);
    [destruct abi; done || (cbn; lia)|done|].
  pose proof (regs_only_bytes _ _ Hr) as Hs.
  destruct (memcpy_run d s l st1) as (st2 & E & Hh & Hch); [done|by rewrite <- Hs|done| |].
  { intros x Hx'. rewrite Hs. by apply Hx. }
  destruct (Hc d st2 E) as (st3 & E3 & Hr3); [by apply Forall_cons in Hf as [? _]|].
  apply regs_only_bytes in Hr3. exists st3. split; [done|]. split; [by rewrite <- Hr3|].
  intros x Hx'. rewrite Hr3, (Hch x Hx'). apply Hs.
Qed.
End Copies.
