(* ===== verification/LibcNum.v ===== *)
(** Numbers the stubs print are the numbers they parse:
    [core/android/stubs.cpp], [sprintf] with [atol], [inet_ntoa] with
    [inet_addr]. *)

From stdpp Require Import strings.
From S2P Require Import Prelude.
From S2P Require Import Words.
From S2P Require Import Loops.
From S2P Require Import Abi.
From S2P Require Import Unicorn.
From S2P Require Import Bytes.
From S2P Require Import Engine.
From S2P Require Import Memory.
From S2P Require Import CText.
From S2P Require Import Libc.
From S2P Require Import LibcStr.
From S2P Require Import LibcFmt.
From S2P Require Import LibcWide.
From S2P Require Import LibcFacts.
From Stdlib Require Import Ascii.
#[local] Open Scope Z_scope.

(** ** Decimal digits *)

Definition dec_digits (l : list Z) : Prop := Forall (fun c => 48 <= c <= 57) l.

Lemma dec_value_snoc l c : dec_value (l ++ [c]) = dec_value l * 10 + (c - 48).
Proof. unfold dec_value. by rewrite fold_left_app. Qed.

Lemma digits_of_acc fuel b up n acc : digits_of fuel b up n acc = digits_of fuel b up n [] ++ acc.
Proof.
  revert n acc. induction fuel as [|k IH]; intros n acc; cbn [digits_of]; [done|].
  destruct (n =? 0); [done|]. rewrite IH, (IH _ [_]), <- app_assoc. done.
Qed.
Lemma digits_of_dec fuel n :
  0 <= n < 10 ^ Z.of_nat fuel ->
  dec_value (digits_of fuel 10 false n []) = n /\ dec_digits (digits_of fuel 10 false n []) /\
  (length (digits_of fuel 10 false n []) <= fuel)%nat /\ (n <> 0 -> digits_of fuel 10 false n [] <> []).
Proof.
  revert n. induction fuel as [|k IH]; intros n Hn.
  - cbn [digits_of]. rewrite Nat2Z.inj_0, Z.pow_0_r in Hn.
    split; [cbn; lia|]. split; [constructor|]. split; [cbn; lia|lia].
  - rewrite Nat2Z.inj_succ, Z.pow_succ_r in Hn by lia. cbn [digits_of]. destruct (Z.eqb_spec n 0) as [->|Hz].
    { split; [done|]. split; [constructor|]. split; [cbn; lia|done]. }
    rewrite digits_of_acc.
    pose proof (Z.div_mod n 10 ltac:(lia)) as E. pose proof (Z.mod_pos_bound n 10 ltac:(lia)) as Hm.
    destruct (IH (n / 10)) as (Hv & Hd & Hl & _).
    { split; [apply Z.div_pos; lia|apply Z.div_lt_upper_bound; lia]. }
    rewrite (proj2 (Z.ltb_lt _ _)) by lia. rewrite dec_value_snoc, Hv, length_app. cbn [length].
    split; [lia|]. split; [apply Forall_app_2; [done|apply Forall_singleton; lia]|]. split; [lia|].
    intros _ Hnil. by apply app_nil in Hnil as [_ ?].
Qed.
(** More fuel than digits changes nothing. *)
Lemma digits_of_more k fuel n acc :
  0 <= n < 10 ^ Z.of_nat k -> (k <= fuel)%nat -> digits_of fuel 10 false n acc = digits_of k 10 false n acc.
Proof.
  revert fuel n acc. induction k as [|k IH]; intros fuel n acc Hn Hk.
  - rewrite Nat2Z.inj_0, Z.pow_0_r in Hn. assert (n = 0) as -> by lia. by destruct fuel.
  - destruct fuel as [|fuel]; [lia|]. rewrite Nat2Z.inj_succ, Z.pow_succ_r in Hn by lia.
    cbn [digits_of]. destruct (n =? 0); [done|]. apply IH; [|lia].
    split; [apply Z.div_pos; lia|apply Z.div_lt_upper_bound; lia].
Qed.
Lemma number_text_spec n :
  0 <= n < 2 ^ 64 ->
  dec_value (number_text 10 false n) = n /\ dec_digits (number_text 10 false n) /\
  (length (number_text 10 false n) <= 20)%nat /\ number_text 10 false n <> [].
Proof.
  intros Hn. unfold number_text. destruct (Z.eqb_spec n 0) as [->|Hz].
  { split; [done|]. split; [apply Forall_singleton; lia|]. split; [cbn; lia|done]. }
  rewrite (digits_of_more 20 64) by lia.
  destruct (digits_of_dec 20 n) as (H1 & H2 & H3 & H4); [lia|]. auto.
Qed.

Lemma dec_digits_c l : dec_digits l -> Forall (fun c => c <> 0) l /\ bytes_ok l.
Proof. intros Hl. split; eapply Forall_impl; [exact Hl| |exact Hl|]; intros c Hc; cbn in Hc |- *; unfold is_byte; lia. Qed.
Lemma dec_digits_run l r :
  dec_digits l -> (forall c, head r = Some c -> is_digit c = false) -> run_length is_digit (l ++ r) = length l.
Proof.
  intros Hl Hr. induction Hl as [|c l Hc Hl IH]; cbn.
  - destruct r as [|c r]; [done|]. cbn. by rewrite Hr.
  - unfold is_digit. rewrite (proj2 (Z.leb_le 48 c)), (proj2 (Z.leb_le c 57)) by lia. cbn. by rewrite <- IH.
Qed.

(** *** What [strtol] makes of them *)

Lemma char_code c : 0 <= c < 256 -> N_of_ascii (ascii_of_N (Z.to_N c)) = Z.to_N c.
Proof. intros Hc. apply N_ascii_embedding. lia. Qed.
Lemma digit_char c : 48 <= c <= 57 -> digit (ascii_of_N (Z.to_N c)) = c - 48.
Proof.
  intros Hc. unfold digit. rewrite char_code by lia. rewrite Z2N.id by lia.
  by rewrite (proj2 (Z.leb_le 48 c)), (proj2 (Z.leb_le c 57)) by lia.
Qed.
Lemma digits_text l acc k :
  dec_digits l ->
  digits 10 acc k (text l) = (fold_left (fun a c => a * 10 + (c - 48)) l acc, (k + length l)%nat).
Proof.
  intros Hl. revert acc k. induction Hl as [|c l Hc Hl IH]; intros acc k; cbn -[digit].
  - by rewrite Nat.add_0_r.
  - fold (text l). rewrite digit_char by done. rewrite (proj2 (Z.ltb_lt _ 10)) by lia.
    rewrite IH. f_equal. lia.
Qed.
Lemma magnitude_text l : dec_digits l -> l <> [] -> magnitude 10 (text l) = Some (dec_value l).
Proof.
  intros Hl Hne. unfold magnitude. cbn -[digits text]. rewrite digits_text by done. cbn.
  by destruct l.
Qed.

Lemma ascii_below a b : 0 <= a < 256 -> a <> Z.of_N (N_of_ascii b) -> Ascii.eqb (ascii_of_N (Z.to_N a)) b = false.
Proof.
  intros Ha Hne. apply Ascii.eqb_neq. intros E. apply (f_equal N_of_ascii) in E.
  rewrite char_code in E by done. lia.
Qed.
Lemma not_space c : 33 <= c < 256 -> is_space (ascii_of_N (Z.to_N c)) = false.
Proof.
  intros Hc. unfold is_space, nat_of_ascii. rewrite char_code by lia.
  apply orb_false_iff. split; [apply Nat.eqb_neq; lia|]. apply andb_false_iff. right. apply Nat.leb_gt. lia.
Qed.

Lemma scan_digits l : dec_digits l -> l <> [] -> CText.scan_number 10 (text l) = Some (false, dec_value l).
Proof.
  intros Hl Hne. destruct l as [|c r]; [done|]. pose proof Hl as [Hc Hr]%Forall_cons.
  unfold CText.scan_number. change (text (c :: r)) with (String (ascii_of_N (Z.to_N c)) (text r)).
  cbn [skip_space]. rewrite not_space by lia.
  rewrite !ascii_below by (lia || (cbn; lia)).
  change (String (ascii_of_N (Z.to_N c)) (text r)) with (text (c :: r)). by rewrite magnitude_text.
Qed.
Lemma scan_minus l : dec_digits l -> l <> [] -> CText.scan_number 10 (text (45 :: l)) = Some (true, dec_value l).
Proof.
  intros Hl Hne. unfold CText.scan_number. change (text (45 :: l)) with (String "-" (text l)).
  change (skip_space (String "-" (text l))) with (String "-" (text l)).
  change (("-" =? "-")%char) with true. cbv beta iota. by rewrite magnitude_text.
Qed.

Lemma strtol_dec_text n : - 2 ^ 63 <= n < 2 ^ 63 -> strtol 10 (text (dec_text n)) = n.
Proof.
  intros Hn. unfold strtol, strtol_opt, dec_text. destruct (Z.ltb_spec n 0).
  - destruct (number_text_spec (- n)) as (Hv & Hd & _ & Hne); [lia|]. rewrite scan_minus, Hv by done. cbn. lia.
  - destruct (number_text_spec n) as (Hv & Hd & _ & Hne); [lia|]. rewrite scan_digits, Hv by done. cbn. lia.
Qed.

Lemma dec_text_ok n :
  - 2 ^ 63 <= n < 2 ^ 63 ->
  bytes_ok (dec_text n) /\ Forall (fun c => c <> 0) (dec_text n) /\ 1 <= zlen (dec_text n) <= 21.
Proof.
  intros Hn. unfold dec_text. destruct (Z.ltb_spec n 0).
  - destruct (number_text_spec (- n)) as (_ & [Hz Hb]%dec_digits_c & Hl & Hne); [lia|].
    split; [apply Forall_cons; by split; [unfold is_byte; lia|]|]. split; [by apply Forall_cons|].
    unfold zlen. cbn [length]. lia.
  - destruct (number_text_spec n) as (_ & [Hz Hb]%dec_digits_c & Hl & Hne); [lia|].
    split; [done|]. split; [done|]. unfold zlen. destruct (number_text 10 false n); [done|]. cbn [length] in *. lia.
Qed.

(** ** Through a format *)

Lemma c_str_nonzero l : Forall (fun c => c <> 0) l -> c_str l = l.
Proof.
  intros Hl. unfold c_str. rewrite take_ge; [done|]. induction Hl as [|c l Hc Hl IH]; cbn; [lia|].
  rewrite (proj2 (Z.eqb_neq _ _)) by done. cbn. lia.
Qed.
Lemma flag_none w p c : flag (mkSpec [] w p) c = false.
Proof. apply bool_decide_eq_false_2, not_elem_of_nil. Qed.
Lemma pad_none z prefix body : pad (mkSpec [] 0 None) z prefix body = prefix ++ body.
Proof. unfold pad. rewrite flag_none. change (Z.to_nat (sp_width _)) with O. rewrite Nat.sub_0_l. by destruct z. Qed.
(** A bare [%d] prints the number. *)
Lemma host_signed_dec v : with_spec [37] (fun sp => host_signed sp v) = Ret (dec_text v).
Proof.
  assert (parse_spec (tl [37]) = Some (mkSpec [] 0 None)) as Ep by (vm_compute; reflexivity).
  unfold with_spec. rewrite Ep. unfold or_ub, mbind, outcome_mbind, outcome_bind.
  assert (digits_prec (mkSpec [] 0 None) 10 false (Z.abs v) = number_text 10 false (Z.abs v)) as Ed.
  { unfold digits_prec, number_text. cbn [sp_prec]. by destruct (Z.abs v =? 0). }
  unfold host_signed. rewrite Ed, !flag_none. unfold pad_number. rewrite pad_none. unfold dec_text.
  destruct (Z.ltb_spec v 0); [rewrite Z.abs_neq by lia|rewrite Z.abs_eq by lia]; reflexivity.
Qed.
#[local] Opaque number_text.

(** One directive, by its parts. *)
Lemma expand_directive {U} `{UcOps U} hp {T} (next : T -> M (Libc U) (Z * T)) k r t st w r1 t1 st1 p r2 t2 st2
    conv rest o t3 st3 o' t4 st4 res :
  star_or_digits next (drop (run_length is_flag r) r) t st = (Ret (w, r1, t1), st1) ->
  precision next r1 t1 st1 = (Ret (p, r2, t2), st2) ->
  drop (run_length is_len r2) r2 = conv :: rest ->
  convert hp next (37 :: take (run_length is_flag r) r ++ w ++ p) (len_of (take (run_length is_len r2) r2)) conv t2 st2
    = (Ret (o, t3), st3) ->
  expand hp next k rest t3 st3 = (Ret (o', t4), st4) -> o ++ o' = res ->
  expand hp next (S k) (37 :: r) t st = (Ret (res, t4), st4).
Proof.
  intros E1 E2 E3 E4 E5 <-. cbn [expand]. change (negb (37 =? 37)) with false. cbv beta iota zeta.
  rewrite (bind_run _ _ _ _ _ E1). cbv beta iota. rewrite (bind_run _ _ _ _ _ E2). cbv beta iota. rewrite E3.
  rewrite (bind_run _ _ _ _ _ E4). cbv beta iota. by rewrite (bind_run _ _ _ _ _ E5).
Qed.

Lemma u64_s64 v : u64 (s64 v) = u64 v.
Proof.
  unfold s64, sext. destruct (_ <? _); unfold u64; [by rewrite Zmod_mod|].
  rewrite <- (Z_mod_plus_full _ 1 (2 ^ 64)), Z.mul_1_l, Z.sub_add. by rewrite Zmod_mod.
Qed.

Section Print.
Context {U : Type} `{UcLaws U}.
#[local] Abbreviation L := (Libc U).
Variable host_pointer : Z -> list Z.
Implicit Types (st : L).

Lemma aapcs_arg_run i st l v :
  args_are Arm64 st l -> l !! i = Some v -> aapcs_arg Arm64 i st = (Ret (v, S i), st).
Proof.
  intros [Hn Ha] Hi. destruct (Ha i v Hi) as [Hv Hf]. pose proof (lookup_lt_Some _ _ _ Hi) as Hlt.
  cbn in Hn. unfold aapcs_arg. rewrite (proj2 (Nat.ltb_lt i 8)) by lia.
  erewrite bind_run; [|by apply on_uc_run]. rewrite set_uc_id. cbn in Hv. rewrite Hv.
  by rewrite (fits_u64 Arm64 eq_refl).
Qed.

(** [%ld] with the argument at [i]. *)
Lemma expand_ld i v st l :
  args_are Arm64 st l -> l !! i = Some v ->
  expand host_pointer (aapcs_arg Arm64) 3 (bs "%ld") i st = (Ret (dec_text (s64 v), S i), st).
Proof.
  intros Ha Hi. change (bs "%ld") with [37; 108; 100].
  assert (convert host_pointer (aapcs_arg Arm64) [37] 1 100 i st = (Ret (dec_text (s64 v), S i), st)) as Hc.
  { unfold convert. change (100 =? 37) with false. change (in_set (bs "di") 100) with true. cbv beta iota.
    rewrite (bind_run _ _ _ _ _ (aapcs_arg_run _ _ _ _ Ha Hi)). change (1 <=? 1) with true. cbv beta iota.
    rewrite host_signed_dec, bind_lift_ret. rewrite c_str_nonzero; [done|].
    apply dec_text_ok. exact (sext_range 64 v ltac:(lia)). }
  eapply expand_directive; [done|done|done|exact Hc|done|by rewrite app_nil_r].
Qed.

Lemma sprintf_ld st dst f v :
  args_are Arm64 st [dst; f; v] -> cstring (uc_of st) f (bs "%ld") ->
  (forall x, dst <= x < dst + 22 -> is_Some (byte_at (uc_of st) x)) ->
  exists st', do_sprintf Arm64 host_pointer st = result Arm64 (zlen (dec_text (s64 v))) st' /\
    cstring (uc_of st') dst (dec_text (s64 v)).
Proof.
  intros Ha Hf Hx. destruct (dec_text_ok (s64 v)) as (Hb & Hz & Hl); [exact (sext_range 64 v ltac:(lia))|].
  destruct (wr_run st dst (dec_text (s64 v) ++ [0])) as (u' & Hu & Hw).
  - by apply bytes_ok_app; [|apply zero_ok].
  - intros x. rewrite zlen_app. change (zlen [0]) with 1. intros ?. apply Hx. lia.
  - exists (set_uc st u'). split.
    + unfold do_sprintf. change A0 with (arg_reg 0). change A1 with (arg_reg 1).
      rewrite (bind_run _ _ _ _ _ (carg_run Arm64 eq_refl 0 st _ dst Ha eq_refl)).
      rewrite (bind_run _ _ _ _ _ (carg_run Arm64 eq_refl 1 st _ f Ha eq_refl)).
      assert (fmt_expand Arm64 host_pointer f 2 st = (Ret (dec_text (s64 v)), st)) as He.
      { unfold fmt_expand, fmt_expand_cb. rewrite (bind_run _ _ _ _ _ (cstr_run _ _ _ Hf ltac:(done))).
        by rewrite (bind_run _ _ _ _ _ (expand_ld 2 v st _ Ha eq_refl)). }
      rewrite (bind_run _ _ _ _ _ He). by rewrite (bind_run _ _ _ _ _ Hw).
    + split; [|done]. change (uc_of (set_uc st u')) with u'. eapply write_holds; [|exact Hu].
      by apply bytes_ok_app; [|apply zero_ok].
Qed.
Lemma atol_run st p n :
  args_are Arm64 st [p] -> cstring (uc_of st) p (dec_text n) -> - 2 ^ 63 <= n < 2 ^ 63 ->
  do_atol Arm64 st = result Arm64 (u64 n) st.
Proof.
  intros Ha Hs Hn. unfold do_atol. change A0 with (arg_reg 0).
  rewrite (bind_run _ _ _ _ _ (carg_run Arm64 eq_refl 0 st _ p Ha eq_refl)).
  destruct (dec_text_ok n Hn) as (_ & _ & Hl). rewrite (bind_run _ _ _ _ _ (cstr_run _ _ _ Hs ltac:(lia))).
  by rewrite strtol_dec_text.
Qed.

(** C18: A 64-bit number a program prints with [sprintf] and [%ld] comes back
    from [atol], whatever its sign. *)
Theorem number_round_trip st dst f v :
  cstring (uc_of st) f (bs "%ld") -> Forall (fits Arm64) [dst; f; v] ->
  (forall x, dst <= x < dst + 22 -> is_Some (byte_at (uc_of st) x)) ->
  exists st1 st2,
    call_stub Arm64 (do_sprintf Arm64 host_pointer) [dst; f; v] st = (Ret (zlen (dec_text (s64 v))), st1) /\
    cstring (uc_of st1) dst (dec_text (s64 v)) /\
    call_stub Arm64 (do_atol Arm64) [dst] st1 = (Ret v, st2).
Proof.
  intros Hf Hfit Hx. pose proof (sext_range 64 v ltac:(lia)) as Hn. change (sext 64 v) with (s64 v) in Hn.
  destruct (call_stub_run Arm64 eq_refl (do_sprintf Arm64 host_pointer) [dst; f; v] st) as (sa & Hr & Ha & Hc);
    [cbn; lia|done|]. pose proof (regs_only_bytes _ _ Hr) as Hs.
  destruct (sprintf_ld sa dst f v) as (sb & Hp & Ht); [done|by eapply cstring_same| |].
  { intros x Hx'. rewrite Hs. by apply Hx. }
  destruct (Hc _ _ Hp) as (st1 & E1 & Hr1).
  { destruct (dec_text_ok (s64 v) Hn) as (_ & _ & Hl). unfold fits. cbn. lia. }
  apply regs_only_bytes in Hr1. exists st1.
  destruct (call_stub_run Arm64 eq_refl (do_atol Arm64) [dst] st1) as (sc & Hr2 & Ha2 & Hc2);
    [cbn; lia|by apply Forall_cons in Hfit as [? _]; apply Forall_singleton|].
  pose proof (regs_only_bytes _ _ Hr2) as Hs2.
  assert (cstring (uc_of st1) dst (dec_text (s64 v))) as Ht1 by by eapply cstring_same.
  rewrite !Forall_cons in Hfit. destruct Hfit as (_ & _ & Hv & _).
  assert (u64 (s64 v) = v) as Ev by (rewrite u64_s64; by apply (fits_u64 Arm64 eq_refl)).
  destruct (Hc2 v sc) as (st2 & E2 & _); [|done|].
  { rewrite (atol_run sc dst (s64 v)); [by rewrite Ev|done|by eapply cstring_same|done]. }
  by exists st2.
Qed.
End Print.

Definition demo_print : Libc RefUc := demo_page_with [(0x1000, bs "%ld" ++ [0])].
Lemma number_round_trip_witness :
  dec_text (s64 (2 ^ 64 - 2024)) = bs "-2024" /\
  exists st1 st2,
    call_stub Arm64 (do_sprintf Arm64 (fun _ => [])) [0x1800; 0x1000; 2 ^ 64 - 2024] demo_print
      = (Ret (zlen (dec_text (s64 (2 ^ 64 - 2024)))), st1) /\
    cstring (uc_of st1) 0x1800 (dec_text (s64 (2 ^ 64 - 2024))) /\
    call_stub Arm64 (do_atol Arm64) [0x1800] st1 = (Ret (2 ^ 64 - 2024), st2).
Proof.
  split; [vm_compute; reflexivity|]. apply (number_round_trip (fun _ => []) demo_print 0x1800 0x1000 (2 ^ 64 - 2024)).
  - apply demo_cstring; vm_compute; reflexivity.
  - repeat apply Forall_cons_2; try apply Forall_nil_2; unfold fits; cbn; lia.
  - intros x Hx. apply byte_at_mapped. cbn. unfold ru_mapped. cbn. apply orb_true_iff. left.
    apply in_range_spec. lia.
Defined.

(** ** Dotted quads *)

Lemma number_head n : 0 <= n < 2 ^ 64 -> exists c r, number_text 10 false n = c :: r /\ 48 <= c <= 57.
Proof.
  intros Hn. destruct (number_text_spec n Hn) as (_ & Hd & _ & Hne).
  destruct (number_text 10 false n) as [|c r]; [done|]. apply Forall_cons in Hd as [Hc _]. by exists c, r.
Qed.
Lemma scan_u_digits n r :
  0 <= n < 2 ^ 32 -> (forall c, head r = Some c -> is_digit c = false) ->
  scan_u (dec_text n ++ r) = Some (Ret n, r).
Proof.
  intros Hn Hr. unfold dec_text. rewrite (proj2 (Z.ltb_ge n 0)) by lia.
  destruct (number_text_spec n) as (Hv & Hd & _ & Hne); [lia|].
  destruct (number_head n) as (c & l & El & Hc); [lia|].
  pose proof (dec_digits_run _ _ Hd Hr) as Hrun. unfold scan_u.
  assert (run_length c_isspace (number_text 10 false n ++ r) = O) as ->.
  { rewrite El. cbn [app run_length]. unfold c_isspace, between. rewrite (proj2 (Z.eqb_neq _ _)), (proj2 (Z.leb_gt c 13)) by lia.
    by rewrite andb_false_r. }
  rewrite drop_0, El in *. cbn [app] in *. cbv beta iota zeta.
  rewrite (proj2 (Z.eqb_neq c 45)), (proj2 (Z.eqb_neq c 43)) by lia. cbv beta iota zeta.
  rewrite Hrun. change (Nat.eqb (length (c :: l)) 0) with false. cbv beta iota zeta.
  change (c :: l ++ r) with ((c :: l) ++ r). rewrite take_app_length, drop_app_length, Hv.
  by rewrite (proj2 (Z.leb_gt _ _)) by lia.
Qed.

Lemma quad_value a : 0 <= a < 2 ^ 32 ->
  Z.lor (Z.lor (Z.lor (Z.shiftl (Z.land (Z.shiftr a 24) 255) 24) (Z.shiftl (Z.land (Z.shiftr a 16) 255) 16))
               (Z.shiftl (Z.land (Z.shiftr a 8) 255) 8)) (Z.land a 255) = a.
Proof.
  intros Ha. rewrite !land_255, !Z.shiftr_div_pow2 by lia. rewrite <- !Z.lor_assoc.
  pose proof (Z.mod_pos_bound a 256). pose proof (Z.mod_pos_bound (a / 2 ^ 8) 256).
  pose proof (Z.mod_pos_bound (a / 2 ^ 16) 256). pose proof (Z.mod_pos_bound (a / 2 ^ 24) 256).
  rewrite (lor_add_shift _ _ 8), (lor_add_shift _ _ 16), (lor_add_shift _ _ 24) by lia.
  pose proof (Z.div_mod a 256). pose proof (Z.div_mod (a / 2 ^ 8) 256). pose proof (Z.div_mod (a / 2 ^ 16) 256).
  assert (a / 2 ^ 16 = a / 2 ^ 8 / 256) as E1 by (by rewrite Z.div_div by lia).
  assert (a / 2 ^ 24 = a / 2 ^ 16 / 256) as E2 by (by rewrite Z.div_div by lia).
  assert (0 <= a / 2 ^ 24 < 256) by (split; [apply Z.div_pos; lia|apply Z.div_lt_upper_bound; lia]).
  rewrite (Z.mod_small (a / 2 ^ 24)) by lia. change (2 ^ 8) with 256 in *. lia.
Qed.

Lemma scan_dot_digits n r :
  0 <= n < 2 ^ 32 -> (forall c, head r = Some c -> is_digit c = false) ->
  scan_dot ([46] ++ dec_text n ++ r) ≫= scan_u = Some (Ret n, r).
Proof. intros Hn Hr. cbn [app scan_dot]. change (46 =? 46) with true. cbv iota. by apply scan_u_digits. Qed.

(** [inet_addr] understands what [inet_ntoa] writes. *)
Lemma quad_round_trip a : 0 <= a < 2 ^ 32 -> parse_quad (quad_text a) = Ret (Some a).
Proof.
  intros Ha. unfold quad_text, parse_quad.
  assert (forall k, 0 <= Z.land (Z.shiftr a k) 255 < 256) as Hb.
  { intros k. rewrite land_255. by apply Z.mod_pos_bound. }
  pose proof (Hb 0) as H0. rewrite Z.shiftr_0_r in H0.
  pose proof (Hb 8) as H8. pose proof (Hb 16) as H16. pose proof (Hb 24) as H24.
  rewrite scan_u_digits by (lia || by intros c [= <-]). cbn [mbind outcome_mbind outcome_bind].
  rewrite scan_dot_digits by (lia || by intros c [= <-]). cbn [mbind outcome_mbind outcome_bind].
  rewrite scan_dot_digits by (lia || by intros c [= <-]). cbn [mbind outcome_mbind outcome_bind].
  rewrite <- (app_nil_r (dec_text (Z.land (Z.shiftr a 24) 255))).
  rewrite scan_dot_digits by (lia || done). cbn [mbind outcome_mbind outcome_bind].
  rewrite !(proj2 (Z.ltb_lt _ 256)) by lia. cbn [andb]. by rewrite quad_value.
Qed.
