(* ===== verification/Civil.v ===== *)
(** The calendar of the host's C library: [gmtime_r] and [timegm], which the
    stubs [gmtime], [localtime] and [mktime] of [core/android/stubs.cpp] call.

    A day is counted from 1970-01-01 in the proleptic Gregorian calendar; the
    year follows from cycles of 400, 100, 4 and 1 years, the month from the
    table of month lengths. *)

From S2P Require Import Prelude.
From S2P Require Import Words.
#[local] Open Scope Z_scope.

(** [struct tm]; [std::tm t{}] is all zero. *)
Record Tm := mkTm {
  tm_sec : Z; tm_min : Z; tm_hour : Z;
  tm_mday : Z; tm_mon : Z; tm_year : Z;
  tm_wday : Z; tm_yday : Z; tm_isdst : Z;
}.

Definition leap (y : Z) : bool := (y mod 4 =? 0) && (negb (y mod 100 =? 0) || (y mod 400 =? 0)).
Definition month_lengths (y : Z) : list Z :=
  [31; if leap y then 29 else 28; 31; 30; 31; 30; 31; 31; 30; 31; 30; 31].
(** Days of year [y] before its month [m], from 0. *)
Definition days_before_month (y m : Z) : Z := foldr Z.add 0 (take (Z.to_nat m) (month_lengths y)).
(** Days from 0001-01-01 to the first of year [y]. *)
Definition days_before_year (y : Z) : Z :=
  let p := y - 1 in 365 * p + p / 4 - p / 100 + p / 400.
(** 1970-01-01. *)
Definition epoch_day : Z := 719162.

(** The year that day [n] after 0001-01-01 is in. *)
Definition year_of (n : Z) : Z :=
  let r := n mod 146097 in
  let c := Z.min (r / 36524) 3 in
  let q := (r - 36524 * c) / 1461 in
  let a := Z.min ((r - 36524 * c) mod 1461 / 365) 3 in
  400 * (n / 146097) + 100 * c + 4 * q + a + 1.
(** The month day [d] of year [y] is in: the last that does not begin after it. *)
Definition month_of (y d : Z) : Z :=
  foldr (fun m k => if days_before_month y m <=? d then m else k) 0 (rev (seqZ 0 12)).

Definition gmtime (t : Z) : Tm :=
  let n := t / 86400 + epoch_day in
  let rem := t mod 86400 in
  let y := year_of n in
  let d := n - days_before_year y in
  let m := month_of y d in
  mkTm (rem mod 60) (rem / 60 mod 60) (rem / 3600) (d - days_before_month y m + 1) m (y - 1900)
       ((t / 86400 + 4) mod 7) d 0.

(** The broken-down time need not be normal: months beyond the year carry
    into it, the other fields count on. *)
Definition timegm_sum (t : Tm) : Z :=
  let y := tm_year t + 1900 + tm_mon t / 12 in
  let day := days_before_year y - epoch_day + days_before_month y (tm_mon t mod 12) + (tm_mday t - 1) in
  tm_sec t + 60 * tm_min t + 3600 * tm_hour t + 86400 * day.
Definition is_int (v : Z) : bool := (- 2 ^ 31 <=? v) && (v <? 2 ^ 31).
(** The year has to be an [int]. *)
Definition timegm (t : Tm) : Z := if is_int (tm_year (gmtime (timegm_sum t))) then timegm_sum t else -1.

Example gmtime_leap_day :
  gmtime 951782400 = mkTm 0 0 0 29 1 100 2 59 0 /\ gmtime (-1) = mkTm 59 59 23 31 11 69 3 364 0 /\
  timegm (mkTm 0 0 0 1 14 100 0 0 0) = timegm (mkTm 0 0 0 1 2 101 0 0 0).
Proof. vm_compute. done. Qed.

(** ** The year and the month of a day *)

(** The four counts [year_of] takes off a day, and what is left. *)
Lemma year_parts n :
  exists k c q a d,
    n = 146097 * k + 36524 * c + 1461 * q + 365 * a + d /\
    year_of n = 400 * k + 100 * c + 4 * q + a + 1 /\
    0 <= c <= 3 /\ 0 <= q <= 24 /\ 0 <= a <= 3 /\ 0 <= d <= 365 /\
    (d = 365 -> a = 3 /\ (q = 24 -> c = 3)).
Proof.
  unfold year_of. set (r := n mod 146097). set (c := Z.min (r / 36524) 3).
  set (s := r - 36524 * c). set (q := s / 1461). set (a := Z.min (s mod 1461 / 365) 3).
  assert (n = 146097 * (n / 146097) + r) as Hn by apply Z_div_mod_eq_full.
  assert (0 <= r < 146097) as Hr by (apply Z.mod_pos_bound; lia).
  assert (0 <= c <= 3 /\ 0 <= s /\ (c < 3 -> s < 36524) /\ s < 36525) as (Hc & Hs0 & Hs1 & Hs2).
  { unfold s, c. pose proof (Z_div_mod_eq_full r 36524). pose proof (Z.mod_pos_bound r 36524 ltac:(lia)). lia. }
  assert (s = 1461 * q + s mod 1461) as Hs by apply Z_div_mod_eq_full.
  pose proof (Z.mod_pos_bound s 1461 ltac:(lia)) as Hm.
  assert (0 <= a <= 3 /\ 365 * a <= s mod 1461 /\ (a < 3 -> s mod 1461 < 365 * a + 365)) as (Ha & Ha1 & Ha2).
  { unfold a. pose proof (Z_div_mod_eq_full (s mod 1461) 365).
    pose proof (Z.mod_pos_bound (s mod 1461) 365 ltac:(lia)). lia. }
  exists (n / 146097), c, q, a, (s mod 1461 - 365 * a).
  assert (r = s + 36524 * c) as Hrs by (unfold s; lia).
  clearbody r s c q a. split; [lia|]. split; [done|]. lia.
Qed.

Lemma days_before_year_parts k c q a :
  0 <= c <= 3 -> 0 <= q <= 24 -> 0 <= a <= 3 ->
  days_before_year (400 * k + 100 * c + 4 * q + a + 1) = 146097 * k + 36524 * c + 1461 * q + 365 * a.
Proof.
  intros Hc Hq Ha. unfold days_before_year.
  replace (400 * k + 100 * c + 4 * q + a + 1 - 1) with (400 * k + 100 * c + 4 * q + a) by lia.
  rewrite <- (Z.div_unique_pos (400 * k + 100 * c + 4 * q + a) 4 (100 * k + 25 * c + q) a) by lia.
  rewrite <- (Z.div_unique_pos (400 * k + 100 * c + 4 * q + a) 100 (4 * k + c) (4 * q + a)) by lia.
  rewrite <- (Z.div_unique_pos (400 * k + 100 * c + 4 * q + a) 400 k (100 * c + 4 * q + a)) by lia.
  lia.
Qed.

Lemma leap_parts k c q : 0 <= c <= 3 -> 0 <= q <= 24 -> (q = 24 -> c = 3) ->
  leap (400 * k + 100 * c + 4 * q + 3 + 1) = true.
Proof.
  intros Hc Hq Hl. unfold leap.
  rewrite <- (Z.mod_unique_pos (400 * k + 100 * c + 4 * q + 3 + 1) 4 (100 * k + 25 * c + q + 1) 0) by lia.
  destruct (decide (q = 24)) as [->|Hn].
  - rewrite (Hl eq_refl).
    rewrite <- (Z.mod_unique_pos (400 * k + 100 * 3 + 4 * 24 + 3 + 1) 400 (k + 1) 0) by lia. by rewrite orb_true_r.
  - rewrite <- (Z.mod_unique_pos (400 * k + 100 * c + 4 * q + 3 + 1) 100 (4 * k + c) (4 * q + 4)) by lia.
    destruct (Z.eqb_spec (4 * q + 4) 0); [lia|done].
Qed.

(** A day is in its year. *)
Lemma day_in_year n :
  let y := year_of n in let d := n - days_before_year y in
  0 <= d < (if leap y then 366 else 365).
Proof.
  cbn zeta. destruct (year_parts n) as (k & c & q & a & d & Hn & Hy & Hc & Hq & Ha & Hd & Hl).
  rewrite Hy, days_before_year_parts by done.
  replace (n - _) with d by lia.
  destruct (decide (d = 365)) as [->|]; [|destruct (leap _); lia].
  destruct (Hl eq_refl) as [-> Hq24]. rewrite leap_parts by done. lia.
Qed.

(** The same table for all years of a kind. *)
Definition table (b : bool) : list Z := [31; if b then 29 else 28; 31; 30; 31; 30; 31; 31; 30; 31; 30; 31].
Definition before (b : bool) (m : Z) : Z := foldr Z.add 0 (take (Z.to_nat m) (table b)).
Definition month_in (b : bool) (d : Z) : Z :=
  foldr (fun m k => if before b m <=? d then m else k) 0 (rev (seqZ 0 12)).
Definition month_ok (b : bool) (d : Z) : bool :=
  let m := month_in b d in
  (0 <=? m) && (m <? 12) && (before b m <=? d) && (d - before b m <? nth (Z.to_nat m) (table b) 0).

Lemma months_ok b : forallb (month_ok b) (seqZ 0 (if b then 366 else 365)) = true.
Proof. destruct b; vm_compute; reflexivity. Qed.

Lemma day_in_month y d :
  0 <= d < (if leap y then 366 else 365) ->
  let m := month_of y d in
  0 <= m < 12 /\ days_before_month y m <= d < days_before_month y m + nth (Z.to_nat m) (month_lengths y) 0.
Proof.
  intros Hd. pose proof (months_ok (leap y)) as Ho. rewrite forallb_forall in Ho.
  assert (month_ok (leap y) d = true) as Hm.
  { apply Ho, base.list_elem_of_In, elem_of_seqZ. lia. }
  unfold month_ok in Hm. rewrite !andb_true_iff, !Z.leb_le, !Z.ltb_lt in Hm.
  cbn zeta. unfold month_of, days_before_month, month_lengths.
  unfold month_in, before, table in Hm. lia.
Qed.

(** A normal broken-down time: every field in its range. *)
Record normal (t : Tm) : Prop := {
  n_sec : 0 <= tm_sec t < 60;
  n_min : 0 <= tm_min t < 60;
  n_hour : 0 <= tm_hour t < 24;
  n_mon : 0 <= tm_mon t < 12;
  n_mday : 1 <= tm_mday t <= nth (Z.to_nat (tm_mon t)) (month_lengths (tm_year t + 1900)) 0;
  n_wday : 0 <= tm_wday t < 7;
  n_yday : 0 <= tm_yday t < 366;
}.

Lemma gmtime_normal t : normal (gmtime t).
Proof.
  pose proof (day_in_year (t / 86400 + epoch_day)) as Hd. cbn zeta in Hd.
  pose proof (day_in_month _ _ Hd) as Hm. cbn zeta in Hm.
  pose proof (Z.mod_pos_bound t 86400 ltac:(lia)) as Hr.
  split; cbn [gmtime tm_sec tm_min tm_hour tm_mon tm_mday tm_year tm_wday tm_yday].
  - apply Z.mod_pos_bound. lia.
  - apply Z.mod_pos_bound. lia.
  - split; [apply Z.div_pos; lia|apply Z.div_lt_upper_bound; lia].
  - lia.
  - rewrite Z.sub_add. lia.
  - apply Z.mod_pos_bound. lia.
  - destruct (leap _); lia.
Qed.

Lemma timegm_sum_gmtime t : timegm_sum (gmtime t) = t.
Proof.
  destruct (n_mon _ (gmtime_normal t)) as [Hm1 Hm2]. unfold timegm_sum.
  rewrite Z.div_small, Z.mod_small by lia.
  cbn [gmtime tm_sec tm_min tm_hour tm_mon tm_mday tm_year].
  rewrite Z.add_0_r, Z.sub_add.
  pose proof (Z_div_mod_eq_full t 86400) as H1.
  pose proof (Z_div_mod_eq_full (t mod 86400) 60) as H2'.
  pose proof (Z_div_mod_eq_full (t mod 86400 / 60) 60) as H3'.
  assert (t mod 86400 / 60 / 60 = t mod 86400 / 3600) as H4' by (rewrite Z.div_div by lia; done).
  lia.
Qed.

Lemma timegm_gmtime t : is_int (tm_year (gmtime t)) = true -> timegm (gmtime t) = t.
Proof. intros Hy. unfold timegm. by rewrite timegm_sum_gmtime, Hy. Qed.
