(* ===== verification/LibcTime.v ===== *)
(** Dates: the [struct tm] stubs of [core/android/stubs.cpp],
    [register_system].

    Nine ints in guest memory, the host's calendar in between ([Civil]).
    Local time is universal time. *)

From S2P Require Import Prelude.
From S2P Require Import Words.
From S2P Require Import Loops.
From S2P Require Import Abi.
From S2P Require Import Unicorn.
From S2P Require Import Bytes.
From S2P Require Import Engine.
From S2P Require Import Memory.
From S2P Require Import Libc.
From S2P Require Import LibcWide.
From S2P Require Import LibcFacts.
From S2P Require Import LibcBounds.
From S2P Require Import Civil.
#[local] Open Scope Z_scope.

Section Time.
Context {U : Type} `{UcOps U}.
#[local] Abbreviation L := (Libc U).
Variable abi : Abi.
Variable tight : bool.

#[local] Abbreviation arg := (arg abi).
#[local] Abbreviation result := (result abi).

(** Consecutive 32-bit words. *)
Fixpoint get_ints (n : nat) (p : Z) : M L (list Z) :=
  match n with
  | O => mret []
  | S k => v ← rd_word 4 p; l ← get_ints k (u64 (p + 4)); mret (s32 v :: l)
  end.
Fixpoint put_ints (p : Z) (l : list Z) : M L unit :=
  match l with [] => skip | v :: r => _ ← wr_word 4 p v; put_ints (u64 (p + 4)) r end.

Definition tm_ints (t : Tm) : list Z :=
  [tm_sec t; tm_min t; tm_hour t; tm_mday t; tm_mon t; tm_year t; tm_wday t; tm_yday t; tm_isdst t].
Definition tm_of (l : list Z) : Tm :=
  let f (i : nat) := nth i l 0 in mkTm (f 0%nat) (f 1%nat) (f 2%nat) (f 3%nat) (f 4%nat) (f 5%nat) (f 6%nat) (f 7%nat) (f 8%nat).

Definition rd_tm (p : Z) : M L Tm := l ← get_ints 9 p; mret (tm_of l).
Definition wr_tm (p : Z) (t : Tm) : M L unit :=
  s ← get;
  if is_mapped (regions_ (l_mem s)) p then put_ints p (tm_ints t) else skip.

(** A year that is no [int] leaves [r] as it is or not: the library says
    neither. *)
Definition gmtime_r (v : Z) : M L Tm :=
  let t := gmtime (s64 v) in if is_int (tm_year t) then mret t else lift UB.

Definition do_mktime : M L unit := p ← arg A0; t ← rd_tm p; result (u64 (timegm t)).
Definition do_gmtime_r : M L unit :=
  tp ← arg A0; v ← rd_word 8 tp; out ← arg A1;
  r ← gmtime_r v; _ ← wr_tm out r; result out.
Definition do_gmtime : M L unit :=
  buf ← get_slot tm_buf_;
  _ ← (if buf =? 0 then p ← heap tight 64; set_slot tm_buf_ p else skip);
  tp ← arg A0; v ← rd_word 8 tp;
  r ← gmtime_r v;
  buf ← get_slot tm_buf_;
  _ ← wr_tm buf r; result buf.
End Time.

(** ** A date comes back as the time it was made from *)

Section TimeFacts.
Context {U : Type} `{UcLaws U}.
#[local] Abbreviation L := (Libc U).

Lemma rd_word_run (st : L) n a l :
  holds (uc_of st) a l -> zlen l = Z.of_nat n -> rd_word n a st = (Ret (le_val l), st).
Proof.
  intros Hl%holds_read En. unfold rd_word. erewrite on_uc_run; [by rewrite set_uc_id|].
  unfold read_t. erewrite bind_run; [done|]. unfold e_read. by rewrite <- En, Hl.
Qed.
Lemma wr_word_run (st : L) n a v :
  (forall x, a <= x < a + Z.of_nat n -> is_Some (byte_at (uc_of st) x)) ->
  exists u', uc_mem_write (uc_of st) a (le_bytes n v) = Some u' /\ wr_word n a v st = (Ret tt, set_uc st u').
Proof.
  intros Hx. destruct (wr_run st a (le_bytes n v)) as (u' & Hu & Hw); [apply le_bytes_ok| |by exists u'].
  unfold zlen. by rewrite length_le_bytes.
Qed.

Lemma word_bytes n v : zlen (le_bytes n v) = Z.of_nat n.
Proof. unfold zlen. by rewrite length_le_bytes. Qed.

Lemma get_ints_run (st : L) l p :
  holds (uc_of st) p (units l) -> 0 <= p -> p + 4 * zlen l <= 2 ^ 64 - 1 ->
  Forall (fun v => - 2 ^ 31 <= v < 2 ^ 31) l -> get_ints (length l) p st = (Ret l, st).
Proof.
  revert p. induction l as [|v l IH]; intros p Hh Hp Hb Hv; [done|].
  apply Forall_cons in Hv as [Hv Hl]. change (units (v :: l)) with (le_bytes 4 v ++ units l) in Hh.
  apply holds_app in Hh as [Hw Hr]. rewrite word_bytes in Hr. change (Z.of_nat 4) with 4 in Hr.
  assert (zlen (v :: l) = zlen l + 1) as El by (unfold zlen; cbn [length]; lia). pose proof (zlen_nonneg l). cbn [length get_ints].
  rewrite (bind_run _ _ _ _ _ (rd_word_run _ 4 _ _ Hw (word_bytes 4 v))).
  rewrite u64_id by lia. rewrite (bind_run _ _ _ _ _ (IH (p + 4) Hr ltac:(lia) ltac:(lia) Hl)).
  unfold mret, M_mret, M_ret. do 3 f_equal. rewrite le_val_bytes. change (8 * Z.of_nat 4) with 32.
  unfold s32. by rewrite sext_mod, sext_id by lia.
Qed.

Lemma put_ints_run (st : L) l p :
  (forall x, p <= x < p + 4 * zlen l -> is_Some (byte_at (uc_of st) x)) ->
  0 <= p -> p + 4 * zlen l <= 2 ^ 64 - 1 ->
  exists u', put_ints p l st = (Ret tt, set_uc st u') /\ holds u' p (units l) /\
             changed_in p (4 * zlen l) (uc_of st) u'.
Proof.
  revert st p. induction l as [|v l IH]; intros st p Hx Hp Hb.
  - exists (uc_of st). rewrite set_uc_id. split; [done|]. split; [by intros i c|by apply changed_none].
  - assert (zlen (v :: l) = zlen l + 1) as El by (unfold zlen; cbn [length]; lia). pose proof (zlen_nonneg l). cbn [put_ints].
    destruct (wr_word_run st 4 p v) as (u1 & Hu1 & E1); [intros x Hr; apply Hx; lia|].
    rewrite (bind_run _ _ _ _ _ E1). rewrite u64_id by lia.
    pose proof (write_changed _ _ _ _ Hu1) as Hc1. rewrite word_bytes in Hc1. change (Z.of_nat 4) with 4 in Hc1.
    destruct (IH (set_uc st u1) (p + 4)) as (u2 & E2 & Hh2 & Hc2); [|lia..|].
    { intros x Hr. change (uc_of (set_uc st u1)) with u1. rewrite (Hc1 x) by lia. apply Hx. lia. }
    change (uc_of (set_uc st u1)) with u1 in Hc2.
    exists u2. split; [exact E2|]. split.
    + change (units (v :: l)) with (le_bytes 4 v ++ units l). apply holds_app. rewrite word_bytes.
      split; [|done]. eapply changed_in_holds; [exact Hc2|eapply write_holds; [apply le_bytes_ok|exact Hu1]|].
      rewrite word_bytes. lia.
    + eapply changed_trans; [apply (changed_sub _ _ p 4); [exact Hc1|lia..]|].
      apply (changed_sub _ _ (p + 4) (4 * zlen l)); [exact Hc2|lia..].
Qed.

Lemma tm_of_ints t : tm_of (tm_ints t) = t.
Proof. by destruct t. Qed.
Lemma Forall_nth_default (P : Z -> Prop) i l d : Forall P l -> P d -> P (nth i l d).
Proof.
  intros Hl Hd. destruct (nth_in_or_default i l d) as [Hi| ->]; [|done].
  rewrite Forall_forall in Hl. by apply Hl, base.list_elem_of_In.
Qed.
(** Every field of a date is an [int]. *)
Lemma gmtime_ints t : is_int (tm_year (gmtime t)) = true ->
  Forall (fun v => - 2 ^ 31 <= v < 2 ^ 31) (tm_ints (gmtime t)).
Proof.
  intros Hy. unfold is_int in Hy. rewrite andb_true_iff, Z.leb_le, Z.ltb_lt in Hy.
  destruct (gmtime_normal t) as [Hs Hm Hh Hn Hd Hw Hj].
  assert (nth (Z.to_nat (tm_mon (gmtime t))) (month_lengths (tm_year (gmtime t) + 1900)) 0 <= 31) as H31.
  { apply (Forall_nth_default (fun v => v <= 31)); [|lia]. unfold month_lengths.
    repeat apply Forall_cons_2; try apply Forall_nil_2; try destruct (leap _); lia. }
  unfold tm_ints. repeat apply Forall_cons_2; try apply Forall_nil_2; try lia.
  cbn [gmtime tm_isdst]. lia.
Qed.

Lemma do_gmtime_r_run (st : L) tp out t :
  args_are Arm64 st [tp; out] -> - 2 ^ 63 <= t < 2 ^ 63 -> is_int (tm_year (gmtime t)) = true ->
  holds (uc_of st) tp (le_bytes 8 (u64 t)) -> is_mapped (regions_ (l_mem st)) out = true ->
  (forall x, out <= x < out + 36 -> is_Some (byte_at (uc_of st) x)) -> 0 <= out -> out + 36 < 2 ^ 64 ->
  exists u', do_gmtime_r Arm64 st = result Arm64 out (set_uc st u') /\
             holds u' out (units (tm_ints (gmtime t))).
Proof.
  intros Ha Ht Hy Hh Hm Hx Ho1 Ho2. unfold do_gmtime_r. change A0 with (arg_reg 0). change A1 with (arg_reg 1).
  rewrite (bind_run _ _ _ _ _ (carg_run Arm64 eq_refl 0 st _ tp Ha eq_refl)).
  rewrite (bind_run _ _ _ _ _ (rd_word_run _ 8 _ _ Hh (word_bytes 8 _))).
  rewrite (bind_run _ _ _ _ _ (carg_run Arm64 eq_refl 1 st _ out Ha eq_refl)).
  assert (s64 (le_val (le_bytes 8 (u64 t))) = t) as Et.
  { rewrite le_val_bytes. change (8 * Z.of_nat 8) with 64. unfold s64, u64.
    by rewrite Z.mod_mod, sext_mod, sext_id by lia. }
  unfold gmtime_r. rewrite Et, Hy. rewrite (bind_run (mret (gmtime t)) _ st _ st eq_refl).
  destruct (put_ints_run st (tm_ints (gmtime t)) out) as (u' & E & Hh' & _); [exact Hx|lia|change (zlen (tm_ints _)) with 9; lia|].
  exists u'. split; [|exact Hh']. unfold wr_tm. erewrite bind_run; [done|]. rewrite bind_get, Hm. exact E.
Qed.

(** [mktime] undoes [gmtime_r] (and [localtime_r]): a time broken down
    into guest memory is read back from there as the same time, for every
    time whose year is an [int]. *)
Lemma date_round_trip (st : L) tp out t :
  Forall (fits Arm64) [tp; out] -> - 2 ^ 63 <= t < 2 ^ 63 -> is_int (tm_year (gmtime t)) = true ->
  holds (uc_of st) tp (le_bytes 8 (u64 t)) -> is_mapped (regions_ (l_mem st)) out = true ->
  (forall x, out <= x < out + 36 -> is_Some (byte_at (uc_of st) x)) -> out + 36 < 2 ^ 64 ->
  exists st1 st2,
    call_stub Arm64 (do_gmtime_r Arm64) [tp; out] st = (Ret out, st1) /\
    call_stub Arm64 (do_mktime Arm64) [out] st1 = (Ret (u64 t), st2).
Proof.
  intros Hf Ht Hy Hh Hm Hx Hlt. rewrite !Forall_cons in Hf. destruct Hf as (Hf1 & Hf2 & _).
  destruct (call_stub_run Arm64 eq_refl (do_gmtime_r Arm64) [tp; out] st) as (sa & (ua & -> & Hs) & Ha & Hc);
    [cbn; lia|by repeat apply Forall_cons_2; try apply Forall_nil_2|].
  destruct (do_gmtime_r_run (set_uc st ua) tp out t) as (ub & Eb & Hb); try done.
  { change (uc_of (set_uc st ua)) with ua. by rewrite <- Hs. }
  { intros x Hr. change (uc_of (set_uc st ua)) with ua. rewrite Hs. by apply Hx. }
  { apply Hf2. }
  destruct (Hc _ _ Eb Hf2) as (st1 & E1 & Hr1%regs_only_bytes). exists st1.
  destruct (call_stub_run Arm64 eq_refl (do_mktime Arm64) [out] st1) as (sc & Hr2%regs_only_bytes & Ha2 & Hc2);
    [cbn; lia|by apply Forall_singleton|].
  destruct (Hc2 (u64 t) sc) as (st2 & E2 & _); [|apply u64_range|by exists st2].
  unfold do_mktime. change A0 with (arg_reg 0).
  rewrite (bind_run _ _ _ _ _ (carg_run Arm64 eq_refl 0 sc _ out Ha2 eq_refl)).
  assert (rd_tm out sc = (Ret (gmtime t), sc)) as Er.
  { unfold rd_tm. erewrite bind_run; [by rewrite tm_of_ints|].
    apply (get_ints_run sc (tm_ints (gmtime t)) out);
      [|apply Hf2|change (zlen (tm_ints _)) with 9; lia|by apply gmtime_ints].
    rewrite <- Hr2, <- Hr1. exact Hb. }
  rewrite (bind_run _ _ _ _ _ Er). by rewrite timegm_gmtime.
Qed.
End TimeFacts.

(** A second before the epoch, on a page the memory manager knows. *)
Definition demo_date : Libc RefUc :=
  let st := demo_page_with [(0x1000, le_bytes 8 (u64 (-1)))] in
  mkLibc (with_regions (l_mem st) [mkRegion 0x1000 0x1000 UC_PROT_RW Heap "" false]) (l_cells st).
Lemma date_round_trip_witness :
  gmtime (-1) = mkTm 59 59 23 31 11 69 3 364 0 /\
  exists st1 st2,
    call_stub Arm64 (do_gmtime_r Arm64) [0x1000; 0x1100] demo_date = (Ret 0x1100, st1) /\
    call_stub Arm64 (do_mktime Arm64) [0x1100] st1 = (Ret (u64 (-1)), st2).
Proof.
  split; [vm_compute; reflexivity|]. apply (date_round_trip demo_date 0x1000 0x1100 (-1)).
  - repeat apply Forall_cons_2; try apply Forall_nil_2; unfold fits; cbn; lia.
  - lia.
  - vm_compute. reflexivity.
  - apply holds_iff. vm_compute. reflexivity.
  - vm_compute. reflexivity.
  - intros x Hx. apply byte_at_mapped. cbn. unfold ru_mapped. cbn. apply orb_true_iff. left.
    apply in_range_spec. lia.
  - lia.
Defined.
