(* ===== verification/Stubs.v ===== *)
(** The table of host stubs: [core/android/stubs.cpp],
    [include/vardoger/android/stubs.hpp].

    [Stubs] owns what the C library keeps between calls and hands the loader
    an address for every import: that of the stub registered under the name,
    or of a fresh one that answers 0.  A handler is a [std::function]; here a
    [Code] says which one it is, and [StubTable] gives each its meaning. *)

From stdpp Require Import strings.
From S2P Require Import Prelude.
From S2P Require Import Words.
From S2P Require Import Loops.
From S2P Require Import Abi.
From S2P Require Import Unicorn.
From S2P Require Import Engine.
From S2P Require Import Memory.
From S2P Require Import Scheduler.
From S2P Require Import Trampoline.
From S2P Require Import CText.
From S2P Require Import Vfs.
From S2P Require Import System.
From S2P Require Import Syscalls.
From S2P Require Import Libc.
#[local] Open Scope Z_scope.

(** The handler behind a stub: an entry of the table, the fallback of an
    unknown import, [getprogname], or one of the two stubs guest code returns
    to. *)
Inductive Code :=
| CStub (i : nat)
| CMissing (name : string)
| CProgname
| CWorkerReturn
| CPhdrReturn.

Record PhdrLib := mkPhdrLib { dlpi_addr : Z; phdr_addr : Z; phnum : Z; name_addr : Z }.

(** An iteration over the loaded libraries in progress. *)
Record Linker := mkLinker {
  phdr_libs_ : list PhdrLib;
  dl_cb_ : Z;
  dl_data_ : Z;
  dl_ret_lr_ : Z;
  dl_info_buf_ : Z;
  dl_return_stub_ : Z;
  dl_idx_ : nat;
}.
Definition init_linker : Linker := mkLinker [] 0 0 0 0 0 0.

(** A worker running on the stack of its creator's emulation. *)
Record ThreadCtx := mkThreadCtx { tc_tid : Z; ret_lr : Z; tc_sp : Z; saved : list Z }.

Record Threads := mkThreads {
  stub_next_tid : Z;
  thread_ctx_ : list ThreadCtx;          (* the last one on top *)
  thread_results_ : gmap Z Z;
  worker_stacks_ : list Z;
  thread_return_stub_ : Z;
  sems_ : gmap Z Z;
  tls_values_ : gmap Z Z;
  next_pthread_key_ : Z;
}.
Definition init_threads : Threads := mkThreads 0x1000 [] ∅ [] 0 ∅ ∅ 1.

Record DirState := mkDirState { ents : list (string * Z); idx : nat; dirbuf : Z }.

Record FileState := mkFileState {
  dirs_open : gmap Z DirState;
  dir_token_ : Z;
  popen_seq_ : Z;
  mkstemp_seq_ : Z;
  aasset_bufs_ : gmap Z Z;
}.
Definition init_files : FileState := mkFileState ∅ 0x0D190000 0 0 ∅.

(** The names that have an address, the page of stubs, and the process
    name. *)
Record Names := mkNames {
  by_name_ : gmap string Z;
  tramp_base : Z;
  tramp_next : Z;
  tramp_codes : list (string * Code);
  progname_cell_ : Z;
  progname_str_ : Z;
  progname_fn_ : bool;
}.
Definition init_names : Names := mkNames ∅ kTrampolineBase kTrampolineBase [] 0 0 false.

(** The kernel brings the memory manager and the device; the scheduler is
    there once [set_scheduler] was called, its copy of the memory manager is
    replaced whenever it runs; [ZS] is what zlib keeps per stream, [None] a
    stream whose memory was given back while its entry stayed. *)
Record Stubs (U ZS : Type) := mkStubs {
  st_kernel : Kernel U;
  st_cells : Cells;
  st_sched : option (Scheduler U);
  st_linker : Linker;
  st_threads : Threads;
  st_files : FileState;
  st_names : Names;
  st_zlib : gmap Z (option ZS);
}.
Arguments mkStubs {U ZS}.
Arguments st_kernel {U ZS}. Arguments st_cells {U ZS}. Arguments st_sched {U ZS}. Arguments st_linker {U ZS}.
Arguments st_threads {U ZS}. Arguments st_files {U ZS}. Arguments st_names {U ZS}. Arguments st_zlib {U ZS}.

Section Stubs.
Context {U ZS : Type} `{UcOps U}.
#[local] Abbreviation S := (Stubs U ZS).
Variable abi : Abi.
(** VARDOGER_NO_DALVIK_NULL. *)
Variable no_dalvik_null : bool.

(** ** The parts *)

Definition with_kernel (s : S) (k : Kernel U) : S :=
  mkStubs k (st_cells s) (st_sched s) (st_linker s) (st_threads s) (st_files s) (st_names s) (st_zlib s).
Definition with_cells (s : S) (c : Cells) : S :=
  mkStubs (st_kernel s) c (st_sched s) (st_linker s) (st_threads s) (st_files s) (st_names s) (st_zlib s).
Definition with_sched (s : S) (x : option (Scheduler U)) : S :=
  mkStubs (st_kernel s) (st_cells s) x (st_linker s) (st_threads s) (st_files s) (st_names s) (st_zlib s).
Definition set_linker (x : Linker) : M S unit := modify (fun s =>
  mkStubs (st_kernel s) (st_cells s) (st_sched s) x (st_threads s) (st_files s) (st_names s) (st_zlib s)).
Definition set_threads (x : Threads) : M S unit := modify (fun s =>
  mkStubs (st_kernel s) (st_cells s) (st_sched s) (st_linker s) x (st_files s) (st_names s) (st_zlib s)).
Definition set_files (x : FileState) : M S unit := modify (fun s =>
  mkStubs (st_kernel s) (st_cells s) (st_sched s) (st_linker s) (st_threads s) x (st_names s) (st_zlib s)).
Definition with_names (s : S) (x : Names) : S :=
  mkStubs (st_kernel s) (st_cells s) (st_sched s) (st_linker s) (st_threads s) (st_files s) x (st_zlib s).
Definition set_names (x : Names) : M S unit := modify (fun s => with_names s x).
Definition set_zlib (x : gmap Z (option ZS)) : M S unit := modify (fun s =>
  mkStubs (st_kernel s) (st_cells s) (st_sched s) (st_linker s) (st_threads s) (st_files s) (st_names s) x).

Definition on_kernel {A} (op : M (Kernel U) A) : M S A := fun s =>
  let '(r, k) := op (st_kernel s) in (r, with_kernel s k).
(** A stub of the C library proper. *)
Definition on_libc {A} (op : M (Libc U) A) : M S A := fun s =>
  let '(r, l) := op (mkLibc (k_mem (st_kernel s)) (st_cells s)) in
  (r, with_cells (with_kernel s (Syscalls.with_mem (st_kernel s) (l_mem l))) (l_cells l)).
(** [sched_->op()], a null pointer when there is none. *)
Definition on_sched {A} (op : M (Scheduler U) A) : M S A := fun s =>
  match st_sched s with
  | None => (UB, s)
  | Some c =>
      let '(r, c) := op (Scheduler.with_mem c (k_mem (st_kernel s))) in
      (r, with_sched (with_kernel s (Syscalls.with_mem (st_kernel s) (s_mem c))) (Some c))
  end.
Definition on_memory {A} (op : M (Memory U) A) : M S A := on_kernel (Syscalls.on_mem op).
Definition on_engine {A} (op : M U A) : M S A := on_memory (uc_do op).
Definition on_device {A} (op : M System A) : M S A := on_kernel (Syscalls.on_sys op).
Definition on_vfs_ {A} (op : M Vfs A) : M S A := on_device (on_vfs op).
Definition on_tramp {A} (op : M (Trampoline U Code) A) : M S A := fun s =>
  let n := st_names s in let k := st_kernel s in
  let '(r, t) := op (mkTrampoline (m_uc (k_mem k)) (tramp_base n) (tramp_next n) (tramp_codes n)) in
  (r, with_names (with_kernel s (Syscalls.with_mem k (with_m_uc (k_mem k) (tr_uc t))))
        (mkNames (by_name_ n) (base_ t) (next_ t) (handlers_ t) (progname_cell_ n) (progname_str_ n) (progname_fn_ n))).

(** The steps of a handler. *)
Definition arg_ (r : Reg) : M S Z := v ← on_engine (read_reg abi r); mret (u64 v).
Definition answer (v : Z) : M S unit := on_engine (write_reg abi Ret0 v).
Definition get_word (n : nat) (a : Z) : M S Z := on_engine (read_t n a).
Definition put_word (n : nat) (a v : Z) : M S unit := on_engine (write_t n a v).
Definition put_bytes (a : Z) (l : list Z) : M S unit := on_engine (e_write a l).
Definition get_bytes (a n : Z) : M S (list Z) := on_engine (e_read a n).
Definition get_cstr (a : Z) : M S (list Z) :=
  s ← get; mret (read_cstr a 4096 (m_uc (k_mem (st_kernel s)))).
Definition mapped_at (a : Z) : M S bool := gets (fun s => is_mapped (regions_ (k_mem (st_kernel s))) a).
Definition answer_signed (v : Z) : M S unit := answer (u64 v).

(** ** Names and addresses *)

Definition set_by_name (m : gmap string Z) : M S unit :=
  s ← get; let n := st_names s in
  set_names (mkNames m (tramp_base n) (tramp_next n) (tramp_codes n) (progname_cell_ n) (progname_str_ n) (progname_fn_ n)).
Definition bind_name (name : string) (a : Z) : M S unit :=
  s ← get; set_by_name (<[name := a]> (by_name_ (st_names s))).

Definition add (name : string) (h : Code) : M S unit :=
  a ← on_tramp (Trampoline.alloc abi name h); bind_name name a.
Fixpoint add_stubs (l : list (string * Code)) : M S unit :=
  match l with [] => skip | (name, h) :: r => _ ← add name h; add_stubs r end.

Definition known (s : S) (name : string) : Z := default 0 (by_name_ (st_names s) !! name).
Definition resolve (name : string) : M S Z :=
  s ← get;
  match by_name_ (st_names s) !! name with
  | Some a => mret a
  | None =>
      if negb no_dalvik_null && str_contains name "dvm" then mret 0 else
      a ← on_tramp (Trampoline.alloc abi ("MISSING:" +:+ name) (CMissing name));
      _ ← bind_name name a;
      mret a
  end.

(** ** The process name *)

Definition set_progname_str (v : Z) : M S unit :=
  s ← get; let n := st_names s in
  set_names (mkNames (by_name_ n) (tramp_base n) (tramp_next n) (tramp_codes n) (progname_cell_ n) v (progname_fn_ n)).
Definition set_progname_cell (v : Z) : M S unit :=
  s ← get; let n := st_names s in
  set_names (mkNames (by_name_ n) (tramp_base n) (tramp_next n) (tramp_codes n) v (progname_str_ n) (progname_fn_ n)).
Definition set_progname_fn : M S unit :=
  s ← get; let n := st_names s in
  set_names (mkNames (by_name_ n) (tramp_base n) (tramp_next n) (tramp_codes n) (progname_cell_ n) (progname_str_ n) true).

Definition set_progname (name : string) : M S unit :=
  str ← on_memory (mmap_alloc (Z.of_nat (String.length name) + 1) UC_PROT_RW "progname");
  _ ← put_bytes str (bs name ++ [0]);
  s ← get;
  _ ← (if progname_cell_ (st_names s) =? 0
       then c ← on_memory (mmap_alloc 8 UC_PROT_RW "__progname"); set_progname_cell c
       else skip);
  s ← get;
  let cell := progname_cell_ (st_names s) in
  _ ← put_word 8 cell str;
  _ ← set_progname_str str;
  _ ← bind_name "__progname" cell;
  _ ← bind_name "program_invocation_short_name" cell;
  _ ← bind_name "program_invocation_name" cell;
  s ← get;
  if progname_fn_ (st_names s) then skip else
  _ ← add "getprogname" CProgname; set_progname_fn.

(** ** Loaded libraries *)

Definition set_phdr_libs (l : list PhdrLib) : M S unit :=
  s ← get; let d := st_linker s in
  set_linker (mkLinker l (dl_cb_ d) (dl_data_ d) (dl_ret_lr_ d) (dl_info_buf_ d) (dl_return_stub_ d) (dl_idx_ d)).
Definition register_phdr_lib (base phdr num name : Z) : M S unit :=
  s ← get; set_phdr_libs (phdr_libs_ (st_linker s) ++ [mkPhdrLib base phdr num name]).
End Stubs.
