(* ===== verification/StubRuntime.v ===== *)
(** Stubs that are more than the C library: threads, semaphores, thread-local
    values, the dynamic linker, the auxiliary vector, exceptions and exits:
    [core/android/stubs.cpp], [register_pthreads], [register_defaults],
    [dl_iter_step]. *)

From stdpp Require Import strings.
From S2P Require Import Prelude.
From S2P Require Import Words.
From S2P Require Import Loops.
From S2P Require Import Abi.
From S2P Require Import Unicorn.
From S2P Require Import Engine.
From S2P Require Import Memory.
From S2P Require Import Scheduler.
From S2P Require Import CText.
From S2P Require Import System.
From S2P Require Import Syscalls.
From S2P Require Import Libc.
From S2P Require Import Stubs.
#[local] Open Scope Z_scope.

(** The environment variables that change an answer: VARDOGER_NO_DALVIK_NULL,
    _NO_DALVIK, _ART, _FAKE_DALVIK, _NO_TAMPER_EVASION, _SLEEP_NOOP,
    _THROW_NOOP, _ABORT_NOOP, _EXIT_NOOP, _LSEEK0 and _AASSET_FAKEMISS, the
    names in _DLOPEN_FAIL and the number in _SHELLSTATE. *)
Record StubEnv := mkStubEnv {
  no_dalvik_null : bool;
  no_dalvik : bool;
  art_mode : bool;
  fake_dalvik : bool;
  no_tamper_evasion : bool;
  sleep_noop : bool;
  throw_noop : bool;
  abort_noop : bool;
  exit_noop : bool;
  lseek0 : bool;
  aasset_fakemiss : bool;
  dlopen_fail : list string;
  shellstate : option Z;
}.
Definition no_stub_env : StubEnv :=
  mkStubEnv false false false false false false false false false false false [] None.

Definition kTamperLibs : list string := [
  "libsotweak"; "libxiaojianbang"; "libsubstrate"; "frida"; "libriru"; "libmemtrack_real"; "libwhale"; "libepic";
  "libsandhook"; "libdobby"; "libfrida-gadget"; "libhoudini_hook"; "libzygisk"; "libunpacker"; "libfupk"; "libfart";
  "libdexdump"]%string.
Definition kHookSyms : list string := [
  "binmt"; "signature_Hook"; "pine_backup"; "backup_trampoline"; "frida"; "gum_"; "gmain"; "gdbus"; "xposed"; "de_robv";
  "XposedBridge"; "substrate"; "MSHook"; "MSGetImage"; "sandhook"; "SandHook"; "yahfa"; "YAHFA"; "lsplant"; "lsposed";
  "LSPlant"; "shadowhook"; "bytehook"; "fasthook"; "epic_hook"; "me_weishu_epic"; "Dobby"; "dobby_"; "whale_";
  "hookzz"]%string.

Definition saved_id : list ucreg := A64_X <$> seq 19 12.

Section Runtime.
Context {U ZS : Type} `{UcOps U}.
#[local] Abbreviation S := (Stubs U ZS).
Variable abi : Abi.
Variable tight : bool.
Variable env : StubEnv.
Variable sys_env : Env.
(** [Syscalls]' yield hook; whether [set_syscalls] was called. *)
Variable yield_ : option (M (Kernel U) bool).
Variable have_syscalls : bool.
(** Addresses of real symbols and of sibling libraries' exports; 0 defers. *)
Variables dlsym_provider_ lib_resolver_ : option (string -> M S Z).

#[local] Abbreviation arg_ := (arg_ abi).
#[local] Abbreviation answer := (answer abi).
#[local] Abbreviation resolve := (resolve abi (no_dalvik_null env)).

Definition redirect_to (fn : Z) : M S unit := on_engine (redirect abi fn).
Definition set_reg (r : Reg) (v : Z) : M S unit := on_engine (write_reg abi r v).
Definition stop_guest : M S unit := on_kernel stop.
Definition heap_ (n : Z) : M S Z := on_memory (heap_alloc tight n 16).

(** ** syscall *)

(** The argument registers of C; the syscall's own are those [Syscalls] reads. *)
Definition c_regs : list ucreg :=
  match abi with
  | Arm64 => A64_X <$> seq 0 8
  | Arm32 => A32_R <$> seq 0 4
  | _ => [R_RDI; R_RSI; R_RDX; R_RCX; R_R8; R_R9]
  end.
Definition k_regs : list ucreg :=
  match abi with
  | Arm64 => A64_X <$> seq 0 6
  | Arm32 => A32_R <$> seq 0 6
  | X86_64 => [R_RDI; R_RSI; R_RDX; R_R10; R_R8; R_R9]
  | X86 => [R_EBX; R_ECX; R_EDX; R_ESI; R_EDI; R_EBP]
  end.
Fixpoint read_regs (l : list ucreg) : M S (list Z) :=
  match l with [] => mret [] | r :: t => v ← on_engine (read_uc_reg r); vs ← read_regs t; mret (u64 v :: vs) end.
Fixpoint read_words (n : nat) (a : Z) : M S (list Z) :=
  match n with O => mret [] | Datatypes.S k => v ← get_word 4 (u64 a); vs ← read_words k (a + 4); mret (v :: vs) end.
Fixpoint write_regs_ (rs : list ucreg) (vs : list Z) : M S unit :=
  match rs, vs with r :: rs, v :: vs => _ ← on_engine (write_uc_reg r v); write_regs_ rs vs | _, _ => skip end.
(** [nr] and six arguments, those that are in no register left 0. *)
Definition call_args : M S (list Z) :=
  match abi with
  | X86 => v ← on_engine (read_reg abi Sp); read_words 7 (u64 v + 4)
  | _ => l ← read_regs c_regs; mret (take 7 (l ++ replicate 7 0))
  end.
Definition do_syscall : M S unit :=
  l ← call_args;
  if negb have_syscalls then answer (u64 (-38)) else
  _ ← set_reg SyscallNr (hd 0 l);
  _ ← write_regs_ k_regs (tl l);
  on_kernel (Syscalls.dispatch abi sys_env yield_).

(** ** Threads *)

Definition sched_on : M S bool :=
  gets (fun s => match st_sched s with Some c => active c | None => false end).
(** A stub that only counts when threads are real. *)
Definition if_on (m e : M S unit) : M S unit := on ← sched_on; if on : bool then m else e.

Definition set_next_tid (v : Z) : M S unit :=
  s ← get; let t := st_threads s in
  set_threads (mkThreads v (thread_ctx_ t) (thread_results_ t) (worker_stacks_ t) (thread_return_stub_ t) (sems_ t)
                         (tls_values_ t) (next_pthread_key_ t)).
Definition set_thread_ctx (l : list ThreadCtx) : M S unit :=
  s ← get; let t := st_threads s in
  set_threads (mkThreads (stub_next_tid t) l (thread_results_ t) (worker_stacks_ t) (thread_return_stub_ t) (sems_ t)
                         (tls_values_ t) (next_pthread_key_ t)).
Definition set_results (m : gmap Z Z) : M S unit :=
  s ← get; let t := st_threads s in
  set_threads (mkThreads (stub_next_tid t) (thread_ctx_ t) m (worker_stacks_ t) (thread_return_stub_ t) (sems_ t)
                         (tls_values_ t) (next_pthread_key_ t)).
Definition set_worker_stacks (l : list Z) : M S unit :=
  s ← get; let t := st_threads s in
  set_threads (mkThreads (stub_next_tid t) (thread_ctx_ t) (thread_results_ t) l (thread_return_stub_ t) (sems_ t)
                         (tls_values_ t) (next_pthread_key_ t)).
Definition set_return_stub (a : Z) : M S unit :=
  s ← get; let t := st_threads s in
  set_threads (mkThreads (stub_next_tid t) (thread_ctx_ t) (thread_results_ t) (worker_stacks_ t) a (sems_ t)
                         (tls_values_ t) (next_pthread_key_ t)).
Definition set_sems (m : gmap Z Z) : M S unit :=
  s ← get; let t := st_threads s in
  set_threads (mkThreads (stub_next_tid t) (thread_ctx_ t) (thread_results_ t) (worker_stacks_ t) (thread_return_stub_ t) m
                         (tls_values_ t) (next_pthread_key_ t)).
Definition set_tls (m : gmap Z Z) (key : Z) : M S unit :=
  s ← get; let t := st_threads s in
  set_threads (mkThreads (stub_next_tid t) (thread_ctx_ t) (thread_results_ t) (worker_stacks_ t) (thread_return_stub_ t)
                         (sems_ t) m key).
Definition threads : M S Threads := gets st_threads.

(** [while (worker_stacks_.size() <= depth)]. *)
Fixpoint grow_stacks (n : nat) : M S unit :=
  match n with
  | O => skip
  | Datatypes.S k =>
      a ← on_memory (mmap_alloc 0x100000 UC_PROT_RW "thread stack");
      t ← threads; _ ← set_worker_stacks (worker_stacks_ t ++ [a]); grow_stacks k
  end.
(** The creator waits where it is while the worker runs on a stack of its
    own; the worker returns to [thread_return_stub_]. *)
Definition run_inline (out routine arg : Z) : M S unit :=
  t ← threads;
  let id := stub_next_tid t in
  _ ← set_next_tid (u64 (id + 1));
  _ ← (if out =? 0 then skip else put_word 8 out id);
  lr ← arg_ Lr; sp ← arg_ Sp;
  regs ← read_regs saved_id;
  t ← threads;
  let depth := length (thread_ctx_ t) in
  _ ← grow_stacks (Datatypes.S depth - length (worker_stacks_ t));
  t ← threads;
  _ ← set_thread_ctx (thread_ctx_ t ++ [mkThreadCtx id lr sp regs]);
  _ ← set_reg A0 arg;
  _ ← set_reg Sp (Z.land (u64 (nth depth (worker_stacks_ t) 0 + 0x100000)) (mask64 16));
  _ ← set_reg Lr (thread_return_stub_ t);
  redirect_to routine.
Definition do_pthread_create : M S unit :=
  out ← arg_ A0; routine ← arg_ A2; a ← arg_ A3;
  if_on (on_sched (spawn abi out routine a))
    (if decide (abi = Arm64) then run_inline out routine a else answer 0).
Definition do_worker_return : M S unit :=
  t ← threads;
  match last (thread_ctx_ t) with
  | None => lift UB
  | Some c =>
      _ ← set_thread_ctx (removelast (thread_ctx_ t));
      r ← arg_ Ret0;
      t ← threads;
      _ ← set_results (<[tc_tid c := r]> (thread_results_ t));
      _ ← write_regs_ saved_id (saved c);
      _ ← set_reg Sp (tc_sp c);
      _ ← answer 0;
      redirect_to (ret_lr c)
  end.
Definition do_pthread_join : M S unit :=
  id ← arg_ A0; out ← arg_ A1;
  if_on (on_sched (do_join abi id out))
    (t ← threads;
     _ ← (if out =? 0 then skip else put_word 8 out (default 0 (thread_results_ t !! id)));
     answer 0).
Definition do_pthread_self : M S unit :=
  s ← get; on ← sched_on;
  answer (if on : bool then match st_sched s with Some c => self_tid c | None => 1 end else 1).
Definition do_mutex_lock : M S unit := if_on (m ← arg_ A0; on_sched (mutex_lock abi m)) (answer 0).
Definition do_mutex_unlock : M S unit := _ ← if_on (m ← arg_ A0; on_sched (mutex_unlock m)) skip; answer 0.
Definition do_cond_wait : M S unit :=
  if_on (c ← arg_ A0; m ← arg_ A1; on_sched (cond_wait abi c m)) (answer 0).
Definition do_cond_wake (all : bool) : M S unit :=
  _ ← if_on (c ← arg_ A0; on_sched (cond_wake c all)) skip; answer 0.
Definition do_sleep : M S unit :=
  on ← sched_on; if on && negb (sleep_noop env) then on_sched (do_yield abi) else answer 0.
(** A getter that fills what its argument [r] points to. *)
Definition fill_out (r : Reg) (n : nat) (v : Z) : M S unit :=
  out ← arg_ r; if out =? 0 then skip else put_word n out v.
Definition do_attr_get (n : nat) (v : Z) : M S unit := _ ← fill_out A1 n v; answer 0.
Definition do_attr_getstack : M S unit :=
  ap ← arg_ A1; sp ← arg_ A2;
  _ ← (if ap =? 0 then skip else put_word 8 ap 0);
  _ ← (if sp =? 0 then skip else put_word 8 sp 0x100000);
  answer 0.

(** *** Semaphores: a count per address *)

Definition sem_count (a : Z) : M S Z := t ← threads; mret (default 0 (sems_ t !! a)).
Definition put_sem (a v : Z) : M S unit := t ← threads; set_sems (<[a := v]> (sems_ t)).
Definition do_sem_init : M S unit := a ← arg_ A0; v ← arg_ A2; _ ← put_sem a (s32 v); answer 0.
Definition do_sem_post : M S unit :=
  a ← arg_ A0; c ← sem_count a;
  if c =? 2 ^ 31 - 1 then lift UB else _ ← put_sem a (c + 1); answer 0.
Definition do_sem_wait : M S unit :=
  a ← arg_ A0; c ← sem_count a; _ ← put_sem a (if 0 <? c then c - 1 else c); answer 0.
Definition do_sem_trywait : M S unit :=
  a ← arg_ A0; c ← sem_count a; _ ← put_sem a (if 0 <? c then c - 1 else c);
  answer (if 0 <? c then 0 else u64 (-11)).
Definition do_sem_destroy : M S unit := a ← arg_ A0; t ← threads; _ ← set_sems (delete a (sems_ t)); answer 0.
Definition do_sem_getvalue : M S unit :=
  a ← arg_ A0; c ← sem_count a; _ ← put_sem a c; _ ← fill_out A1 4 c; answer 0.

(** *** Once, and thread-local values *)

Definition do_pthread_once : M S unit :=
  once ← arg_ A0; init ← arg_ A1;
  v ← get_word 4 once;
  if v =? 0 then _ ← put_word 4 once 2; redirect_to init else answer 0.
Definition do_key_create : M S unit :=
  t ← threads;
  let key := next_pthread_key_ t in
  _ ← set_tls (tls_values_ t) (u64 (key + 1));
  p ← arg_ A0;
  _ ← (if kPointerSize abi =? 8 then put_word 8 p key else put_word 4 p (u32 key));
  answer 0.
Definition do_setspecific : M S unit :=
  k ← arg_ A0; v ← arg_ A1; t ← threads; _ ← set_tls (<[k := v]> (tls_values_ t)) (next_pthread_key_ t); answer 0.
Definition do_getspecific : M S unit :=
  k ← arg_ A0; t ← threads; answer (default 0 (tls_values_ t !! k)).

(** ** The dynamic linker *)

Definition linker : M S Linker := gets st_linker.
Definition set_dl_idx (i : nat) : M S unit :=
  d ← linker;
  set_linker (mkLinker (phdr_libs_ d) (dl_cb_ d) (dl_data_ d) (dl_ret_lr_ d) (dl_info_buf_ d) (dl_return_stub_ d) i).
Definition set_dl_call (cb data lr : Z) : M S unit :=
  d ← linker; set_linker (mkLinker (phdr_libs_ d) cb data lr (dl_info_buf_ d) (dl_return_stub_ d) 0).
Definition set_dl_info (a : Z) : M S unit :=
  d ← linker;
  set_linker (mkLinker (phdr_libs_ d) (dl_cb_ d) (dl_data_ d) (dl_ret_lr_ d) a (dl_return_stub_ d) (dl_idx_ d)).
Definition set_dl_return (a : Z) : M S unit :=
  d ← linker;
  set_linker (mkLinker (phdr_libs_ d) (dl_cb_ d) (dl_data_ d) (dl_ret_lr_ d) (dl_info_buf_ d) a (dl_idx_ d)).

(** The record of the next library, and the call of the guest's callback. *)
Definition dl_iter_step : M S unit :=
  d ← linker;
  match phdr_libs_ d !! dl_idx_ d with
  | None => _ ← answer 0; redirect_to (dl_ret_lr_ d)
  | Some lib =>
      let buf := dl_info_buf_ d in
      _ ← set_dl_idx (Datatypes.S (dl_idx_ d));
      _ ← for_each (fun o => put_word 8 (u64 (buf + 8 * o)) 0) (seqZ 0 8);
      _ ← put_word 8 buf (dlpi_addr lib);
      _ ← put_word 8 (u64 (buf + 8)) (name_addr lib);
      _ ← put_word 8 (u64 (buf + 16)) (phdr_addr lib);
      _ ← put_word 2 (u64 (buf + 24)) (phnum lib);
      _ ← set_reg A0 buf;
      _ ← set_reg A1 64;
      _ ← set_reg A2 (dl_data_ d);
      _ ← set_reg Lr (dl_return_stub_ d);
      redirect_to (dl_cb_ d)
  end.
(** The callback came back: not 0 ends the iteration. *)
Definition do_phdr_return : M S unit :=
  r ← arg_ Ret0; d ← linker;
  if negb (r =? 0) then redirect_to (dl_ret_lr_ d) else dl_iter_step.
Definition do_dl_iterate_phdr : M S unit :=
  cb ← arg_ A0; data ← arg_ A1; lr ← arg_ Lr;
  _ ← set_dl_call cb data lr;
  d ← linker;
  _ ← (if dl_info_buf_ d =? 0
       then b ← on_memory (mmap_alloc 64 UC_PROT_RW "dl_phdr_info"); set_dl_info b else skip);
  if (cb =? 0) || bool_decide (phdr_libs_ d = []) then answer 0 else dl_iter_step.

(** The library with the greatest base not above [addr]. *)
Definition best_lib (addr : Z) (l : list PhdrLib) : option PhdrLib :=
  fold_left (fun best lib =>
    if (dlpi_addr lib <=? addr) && match best with None => true | Some b => dlpi_addr b <? dlpi_addr lib end
    then Some lib else best) l None.
Definition do_dladdr : M S unit :=
  addr ← arg_ A0; info ← arg_ A1; d ← linker;
  match best_lib addr (phdr_libs_ d) with
  | Some b =>
      if info =? 0 then answer 0 else
      _ ← put_word 8 info (name_addr b);
      _ ← put_word 8 (u64 (info + 8)) (dlpi_addr b);
      _ ← put_word 8 (u64 (info + 16)) 0;
      _ ← put_word 8 (u64 (info + 24)) 0;
      answer 1
  | None => answer 0
  end.

Definition names_any (l : list string) (name : string) : bool := existsb (fun sub => str_contains name sub) l.
(** Libraries that are not there: the Dalvik runtime in ART mode, hooking
    frameworks, and what VARDOGER_DLOPEN_FAIL lists. *)
Definition dlopen_null (p : Z) (name : string) : bool :=
  ((no_dalvik env || (art_mode env && negb (fake_dalvik env))) && str_contains name "libdvm")
  || (negb (no_tamper_evasion env) && negb (p =? 0) && names_any kTamperLibs name)
  || names_any (filter (fun n => n <> ""%string) (dlopen_fail env)) name.
Definition do_dlopen : M S unit :=
  p ← arg_ A0;
  name ← (if p =? 0 then mret ""%string else l ← get_cstr p; mret (text l));
  if dlopen_null p name then answer 0 else h ← heap_ 8; answer h.

(** [brk #0; ret]: what the debugger's rendezvous looks like when nobody
    hooked it. *)
Definition brk_stub : M S Z :=
  s ← get;
  _ ← (if slots (st_cells s) brk_stub_ =? 0 then
         a ← on_memory (mmap_alloc 8 (Z.lor UC_PROT_READ UC_PROT_EXEC) "rtld_db_dlactivity");
         _ ← on_libc (set_slot brk_stub_ a);
         _ ← put_word 4 a 0xD4200000;
         put_word 4 (u64 (a + 4)) 0xD65F03C0
       else skip);
  s ← get; mret (slots (st_cells s) brk_stub_).
Definition ask_provider (f : option (string -> M S Z)) (name : string) : M S Z :=
  match f with Some g => g name | None => mret 0 end.
Definition dlsym_of (name : string) : M S Z :=
  if names_any ["rtld_db_dlactivity"; "r_debug_state"]%string name then brk_stub
  else if names_any kHookSyms name then mret 0
  else
    a ← ask_provider dlsym_provider_ name;
    if negb (a =? 0) then mret a else
    a ← ask_provider lib_resolver_ name;
    if negb (a =? 0) then mret a else resolve name.
Definition do_dlsym : M S unit :=
  p ← arg_ A1;
  if p =? 0 then answer 0 else l ← get_cstr p; a ← dlsym_of (text l); answer a.

(** ** The auxiliary vector *)

Definition at_random : M S Z :=
  s ← get;
  _ ← (if slots (st_cells s) auxv_random_ =? 0 then
         a ← on_memory (mmap_alloc 16 UC_PROT_RW "AT_RANDOM");
         _ ← on_libc (set_slot auxv_random_ a);
         for_each (fun i => put_word 1 (u64 (a + i)) (u8 (0x3B * (i + 1)))) (seqZ 0 16)
       else skip);
  s ← get; mret (slots (st_cells s) auxv_random_).
Definition do_getauxval : M S unit :=
  t ← arg_ A0;
  v ← (if t =? 6 then mret 0x1000 else if t =? 4 then mret 56 else if t =? 16 then mret 0x20b7ff
       else if t =? 26 then mret 2 else if t =? 25 then at_random else mret 0);
  answer v.

(** ** Exceptions and exits *)

(** The line on stderr reads the link register. *)
Definition bail (noop : bool) (regs : list Reg) : M S unit :=
  _ ← for_each (fun r => _ ← arg_ r; skip) regs; if noop then skip else stop_guest.
Definition do_cxa_throw : M S unit := bail (throw_noop env) [A0; A1; Lr].
Definition do_cxa_rethrow : M S unit := bail (throw_noop env) [Lr].
Definition do_unwind : M S unit := bail false [Lr].
Definition do_abort : M S unit := bail (abort_noop env) [Lr].
Definition do_exit : M S unit := bail (exit_noop env) [A0; Lr].
Definition do__exit : M S unit := stop_guest.
Definition do_allocate_exception : M S unit :=
  sz ← arg_ A0; p ← heap_ (if sz =? 0 then 8 else sz); answer p.
Definition do_shell_state : M S unit := answer (default 1 (shellstate env)).
Definition do_echo (r : Reg) : M S unit := v ← arg_ r; answer v.
Definition do_answer (v : Z) : M S unit := answer v.
Definition do_progname : M S unit := s ← get; answer (progname_str_ (st_names s)).
End Runtime.
