(* ===== verification/StubFiles.v ===== *)
(** Stubs over the device: directories, clock, properties, files, mappings and
    assets: [core/android/stubs.cpp], [register_system].

    A [FILE*] and an [AAsset*] are descriptors of the file system; a [DIR*] is
    a token of a table of listings.  The descriptors are the ones system calls
    use. *)

From Stdlib Require Import Ascii.
From stdpp Require Import strings sorting.
From S2P Require Import Prelude.
From S2P Require Import Words.
From S2P Require Import Loops.
From S2P Require Import Abi.
From S2P Require Import Unicorn.
From S2P Require Import Engine.
From S2P Require Import Memory.
From S2P Require Import CText.
From S2P Require Import Vfs.
From S2P Require Import System.
From S2P Require Import Syscalls.
From S2P Require Import Libc.
From S2P Require Import LibcStr.
From S2P Require Import LibcFmt.
From S2P Require Import Stubs.
From S2P Require Import StubRuntime.
#[local] Open Scope Z_scope.

Definition kDtDir : Z := 4.
Definition kDtReg : Z := 8.
Definition kDtLnk : Z := 10.

(** ** Listings *)

(** Sorted by name, as [std::map] and [std::set] are. *)
Definition sorted (l : list string) : list string := merge_sort String.le l.

Definition put_entry (name : string) (type : Z) (ent : gmap string Z) : gmap string Z :=
  match ent !! name with
  | None => <[name := type]> ent
  | Some _ => if type =? kDtDir then <[name := kDtDir]> ent else ent
  end.
(** What follows [pre], when [s] starts with it. *)
Fixpoint after_prefix (pre s : string) : option string :=
  match pre, s with
  | EmptyString, _ => Some s
  | String c p, String d r => if Ascii.eqb c d then after_prefix p r else None
  | String _ _, EmptyString => None
  end.
(** The first component, and whether more follow. *)
Fixpoint component (s : string) : string * bool :=
  match s with
  | EmptyString => (EmptyString, false)
  | String c r => if Ascii.eqb c "/" then (EmptyString, true)
                  else let '(n, more) := component r in (String c n, more)
  end.
(** The child of [path] that [full] is or lies under. *)
Definition consider (path : string) (leaf_is_dir : bool) (ent : gmap string Z) (full : string) : gmap string Z :=
  match after_prefix (path +:+ "/") full with
  | None => ent
  | Some rest =>
      let '(comp, more) := component rest in
      if String.eqb comp "" then ent
      else put_entry comp (if more || leaf_is_dir then kDtDir else kDtReg) ent
  end.
Definition well_known (path : string) : gmap string Z :=
  if String.eqb path "/sys/class/net" then put_entry "wlan0" kDtLnk (put_entry "lo" kDtLnk ∅) else ∅.
Definition dir_map (v : Vfs) (path : string) : gmap string Z :=
  let ent := fold_left (consider path false) (sorted (map_to_list (store_ v)).*1) (well_known path) in
  fold_left (consider path true) (sorted (elements (dirs_ v))) ent.
Definition dir_entries (v : Vfs) (path : string) : list (string * Z) :=
  let ent := dir_map v (trim_path path) in
  [("."%string, kDtDir); (".."%string, kDtDir)] ++
  ((fun n => (n, default 0 (ent !! n))) <$> sorted (map_to_list ent).*1).

(** A template of [mkstemp]: where the last run of X begins, and what the
    name becomes; everything from there on is replaced. *)
Definition is_X (c : Z) : bool := c =? 88.
Definition template_start (l : list Z) : option nat :=
  x ← last_at is_X l;
  Some (match last_at (fun c => negb (is_X c)) (take (S x) l) with Some i => S i | None => O end).

(** The first 128 bytes of a [struct stat]. *)
Definition stat_bytes (mode size : Z) : list Z :=
  replicate 16 0 ++ le_bytes 4 mode ++ replicate 28 0 ++ le_bytes 8 size ++ replicate 72 0.
Definition sys_path (p : string) : bool :=
  String.prefix "/proc" p || String.prefix "/system" p || String.prefix "/apex" p || String.prefix "/dev" p.

(** The flags of [open] for a mode of [fopen]. *)
Definition fopen_flags (mode : string) : Z :=
  let f := if str_contains mode "w" then Z.lor kWrOnly (Z.lor kCreat kTrunc)
           else if str_contains mode "a" then Z.lor kWrOnly (Z.lor kCreat kAppend) else 0 in
  if str_contains mode "+" then Z.lor f kRdWr else f.

Section Files.
Context {U ZS : Type} `{UcOps U}.
#[local] Abbreviation S := (Stubs U ZS).
Variable abi : Abi.
Variable tight : bool.
Variable env : StubEnv.
Variable sys_env : Env.
(** What [printf] prints for [%p]. *)
Variable host_pointer : Z -> list Z.

#[local] Abbreviation arg_ := (arg_ abi).
#[local] Abbreviation answer := (answer abi).
#[local] Abbreviation heap_ := (heap_ tight).
#[local] Abbreviation host_p := host_pointer.

(** ** The device *)

Definition device : M S System := gets (fun s => k_sys (st_kernel s)).
Definition vfs_of : M S Vfs := s ← device; mret (vfs_ s).
Definition arg_int (r : Reg) : M S Z := v ← arg_ r; mret (s32 v).
Definition arg_str (r : Reg) : M S string := p ← arg_ r; l ← get_cstr p; mret (text l).
Definition open_file (path : string) (flags : Z) : M S Z := on_kernel (sys_vopen sys_env path flags).
Definition path_exists (path : string) : M S bool := on_kernel (sys_vexists sys_env path).
Definition is_open_ (fd : Z) : M S bool := v ← vfs_of; mret (is_open v fd).
Definition fsize (fd : Z) : M S Z := v ← vfs_of; mret (size_ v fd).
Definition fpos (fd : Z) : M S Z := v ← vfs_of; mret (tell v fd).
(** Unless the descriptor is open, the stub answers [v]. *)
Definition unless_open (fd v : Z) (m : M S unit) : M S unit :=
  op ← is_open_ fd; if op : bool then m else answer v.
Definition minus1 : Z := u64 (-1).

(** ** Directories *)

Definition set_dir_open (m : gmap Z DirState) (tok : Z) : M S unit :=
  s ← get; let f := st_files s in
  set_files (mkFileState m tok (popen_seq_ f) (mkstemp_seq_ f) (aasset_bufs_ f)).
Definition do_opendir : M S unit :=
  path ← arg_str A0;
  v ← vfs_of;
  let ents := dir_entries v path in
  s ← get; let f := st_files s in
  let tok := u64 (dir_token_ f + 0x100) in
  _ ← set_dir_open (dirs_open f) tok;
  buf ← heap_ 300;
  s ← get;
  _ ← set_dir_open (<[tok := mkDirState ents 0 buf]> (dirs_open (st_files s))) tok;
  answer tok.
Definition do_readdir : M S unit :=
  tok ← arg_ A0;
  s ← get; let f := st_files s in
  match dirs_open f !! tok with
  | None => answer 0
  | Some d =>
      match ents d !! idx d with
      | None => answer 0
      | Some (name, type) =>
          let b := dirbuf d in
          let i := Z.of_nat (idx d) + 1 in
          _ ← put_word 8 b i;
          _ ← put_word 8 (u64 (b + 8)) i;
          _ ← put_word 2 (u64 (b + 16)) 275;
          _ ← put_word 1 (u64 (b + 18)) type;
          _ ← put_bytes (u64 (b + 19)) (bs name ++ [0]);
          _ ← set_dir_open (<[tok := mkDirState (ents d) (Datatypes.S (idx d)) b]> (dirs_open f)) (dir_token_ f);
          answer b
      end
  end.
Definition do_closedir : M S unit :=
  tok ← arg_ A0;
  s ← get; let f := st_files s in
  _ ← set_dir_open (delete tok (dirs_open f)) (dir_token_ f);
  answer 0.

(** ** Clock and properties *)

Definition do_time : M S unit :=
  d ← device; out ← arg_ A0;
  let t := now_unix d in
  ok ← mapped_at out;
  _ ← (if negb (out =? 0) && ok then put_word 8 out t else skip);
  answer t.
Definition do_gettimeofday_ : M S unit :=
  tv ← arg_ A0;
  ok ← mapped_at tv;
  _ ← (if negb (tv =? 0) && ok then
         d ← device;
         _ ← put_word 8 tv (now_unix d);
         ns ← on_device now_ns;
         put_word 8 (u64 (tv + 8)) (ns / 1000 mod 1000000)
       else skip);
  answer 0.
Definition do_property_get : M S unit :=
  name ← arg_str A0; out ← arg_ A1;
  v ← on_device (get_property name);
  _ ← put_bytes out (bs v ++ [0]);
  answer (Z.of_nat (String.length v)).

(** ** Paths *)

Definition do_access_ : M S unit :=
  p ← arg_str A0; ok ← path_exists p; answer (if ok : bool then 0 else minus1).
(** The size is that of a descriptor opened for it and closed again. *)
Definition stat_of (p : string) : M S (Z * Z) :=
  fd ← open_file p 0;
  if negb (fd =? 0) then n ← fsize fd; _ ← on_vfs_ (close fd); mret (0x81a4, n) else
  v ← vfs_of;
  mret (if is_dir v p then (0x41ed, 4096) else (0x81a4, 0)).
Definition do_stat_ (path_reg buf_reg : Reg) : M S unit :=
  p ← arg_str path_reg;
  ok ← path_exists p;
  if negb ok && negb (sys_path p) then answer minus1 else
  buf ← arg_ buf_reg;
  _ ← (if buf =? 0 then skip else '(mode, n) ← stat_of p; put_bytes buf (stat_bytes mode n));
  answer 0.

(** ** Streams *)

Definition do_fopen : M S unit :=
  path ← arg_str A0; mode ← arg_str A1;
  fd ← open_file path (fopen_flags mode);
  answer (u64 fd).
Definition read_vec (a n : Z) : M S (list Z) :=
  _ ← on_libc (vec n); if n =? 0 then mret [] else get_bytes a n.
Definition do_fwrite : M S unit :=
  ptr ← arg_ A0; size ← arg_ A1; nmemb ← arg_ A2; fd ← arg_int A3;
  b ← read_vec ptr (u64 (size * nmemb));
  n ← on_vfs_ (write fd b);
  answer (if size =? 0 then 0 else n / size).
(** Descriptors up to 2 are the host's stderr. *)
Definition fput (fd : Z) (l : list Z) : M S unit :=
  if fd <=? 2 then on_libc (fputs l) else _ ← on_vfs_ (write fd l); skip.
Definition do_fprintf : M S unit :=
  fd ← arg_int A0; f ← arg_ A1; l ← on_libc (fmt_expand abi host_p f 2); _ ← fput fd l; answer (zlen l).
Definition do_vfprintf : M S unit :=
  fd ← arg_int A0; f ← arg_ A1; va ← arg_ A2; l ← on_libc (fmt_expand_va host_p f va); _ ← fput fd l;
  answer (zlen l).
Definition do_fputs : M S unit :=
  p ← arg_ A0; l ← get_cstr p; fd ← arg_int A1; _ ← fput fd l; answer (zlen l).
Definition do_fputc : M S unit :=
  c ← arg_int A0; fd ← arg_int A1; _ ← fput fd [u8 c]; answer (u64 c).

(** The mapped pages of the buffer, 16 MiB at most, zero elsewhere. *)
Definition read_guest_tolerant (a n : Z) : M S (list Z) :=
  on_kernel (copy_in a (if 0x1000000 <? n then 0x1000000 else n)).
Definition do_write_ : M S unit :=
  fd ← arg_int A0; buf ← arg_ A1; n ← arg_ A2;
  unless_open fd n (b ← read_guest_tolerant buf n; w ← on_vfs_ (write fd b); answer w).

Definition do_fgets : M S unit :=
  buf ← arg_ A0; n ← arg_ A1; fd ← arg_int A2;
  '(line, ok) ← on_vfs_ (gets_ fd [] n);
  if (ok : bool) then _ ← put_bytes buf (line ++ [0]); answer buf else answer 0.
(** [vread], and its bytes into guest memory. *)
Definition read_into (fd buf n : Z) : M S Z :=
  '(out, got) ← on_vfs_ (Vfs.read fd [] n);
  _ ← (if got =? 0 then skip else put_bytes buf out);
  mret got.
Definition do_fread : M S unit :=
  ptr ← arg_ A0; size ← arg_ A1; nmemb ← arg_ A2; fd ← arg_int A3;
  got ← read_into fd ptr (u64 (size * nmemb));
  answer (if size =? 0 then 0 else got / size).
Definition do_close_ : M S unit := fd ← arg_int A0; _ ← on_vfs_ (close fd); answer 0.

(** A number used once, as text; it is an [int]. *)
Definition next_of (v : Z) : M S (list Z) := if v =? 2 ^ 31 - 1 then lift UB else mret (dec_text v).
Definition set_seqs (popen mkstemp : Z) : M S unit :=
  s ← get; let f := st_files s in
  set_files (mkFileState (dirs_open f) (dir_token_ f) popen mkstemp (aasset_bufs_ f)).
Definition do_popen : M S unit :=
  _ ← arg_str A0;
  s ← get; let f := st_files s in
  d ← next_of (popen_seq_ f);
  _ ← set_seqs (popen_seq_ f + 1) (mkstemp_seq_ f);
  let p := ("/dev/__vdg_popen/" +:+ text d) in
  _ ← on_vfs_ (add_file p []);
  fd ← open_file p 0;
  answer (u64 fd).
Definition do_mkstemp : M S unit :=
  tmpl ← arg_ A0;
  l ← get_cstr tmpl;
  s ← get; let f := st_files s in
  d ← next_of (mkstemp_seq_ f);
  _ ← set_seqs (popen_seq_ f) (mkstemp_seq_ f + 1);
  path ← match template_start l with
         | Some i => _ ← put_bytes (u64 (tmpl + Z.of_nat i)) (d ++ [0]); mret (take i l ++ d)
         | None => mret l
         end;
  _ ← on_vfs_ (add_file (text path) []);
  fd ← open_file (text path) (Z.lor kRdWr kCreat);
  answer (if fd =? 0 then minus1 else u64 fd).

Definition do_feof : M S unit :=
  fd ← arg_int A0;
  unless_open fd 0 (p ← fpos fd; n ← fsize fd; answer (if n <=? p then 1 else 0)).
(** The sum is a signed 64-bit one. *)
Definition do_fseek : M S unit :=
  fd ← arg_int A0; o ← arg_ A1; whence ← arg_int A2;
  let off := s64 o in
  unless_open fd minus1
    (p ← fpos fd; n ← fsize fd;
     let base := if whence =? 1 then s64 p else if whence =? 2 then s64 n else 0 in
     let np := base + off in
     if (np <? - 2 ^ 63) || (2 ^ 63 <=? np) then lift UB else
     if np <? 0 then answer minus1 else
     _ ← on_vfs_ (seek fd np); answer 0).
Definition do_ftell : M S unit := fd ← arg_int A0; unless_open fd minus1 (p ← fpos fd; answer p).
Definition do_rewind : M S unit :=
  fd ← arg_int A0; op ← is_open_ fd; if op : bool then on_vfs_ (seek fd 0) else skip.

(** ** Locale *)

(** The decimal point, nine empty strings, and no value for the chars. *)
Definition lconv_bytes (dot empty : Z) : list Z :=
  le_bytes 8 dot ++ concat (replicate 9 (le_bytes 8 empty)) ++ replicate 48 0x7f.
Definition do_localeconv : M S unit :=
  s ← get;
  _ ← (if slots (st_cells s) lconv_ =? 0 then
         dot ← on_memory (mmap_alloc 2 UC_PROT_RW "lconv.dp");
         _ ← put_bytes dot [46; 0];
         empty ← on_memory (mmap_alloc 1 UC_PROT_RW "lconv.empty");
         _ ← put_bytes empty [0];
         a ← on_memory (mmap_alloc 0x80 UC_PROT_RW "lconv");
         _ ← on_libc (set_slot lconv_ a);
         put_bytes a (lconv_bytes dot empty)
       else skip);
  s ← get; answer (slots (st_cells s) lconv_).

(** ** Mappings *)

Definition without_wx (p : Z) : Z :=
  if wx_env sys_env && negb (Z.land p UC_PROT_WRITE =? 0) && negb (Z.land p UC_PROT_EXEC =? 0)
  then Z.land p (u32 (Z.lnot UC_PROT_EXEC)) else p.
Definition do_libc_mmap : M S unit :=
  reqaddr ← arg_ A0; len ← arg_ A1; prot ← arg_ A2; flags ← arg_ A3; off ← arg_ A5; a4 ← arg_ A4;
  let fd := s64 a4 in
  let p := if u32 prot =? 0 then 7 else u32 prot in
  if negb (no_mapfixed sys_env) && negb (Z.land flags kMapFixed =? 0) && negb (reqaddr =? 0) then
    let lo := page_align_down reqaddr in
    let hi := page_align_down (u64 (reqaddr + (if len =? 0 then 1 else len) + 0xfff)) in
    _ ← on_kernel (for_each (fix_page (without_wx p)) (pages_between lo hi));
    _ ← on_kernel (fill_from_file flags fd off len reqaddr);
    answer reqaddr
  else
    a ← try_catch (a ← on_memory (mmap_alloc len (without_wx p) "mmap (libc)"); mret (Some a)) (mret None);
    match a with
    | None => answer minus1
    | Some a => _ ← on_kernel (fill_from_file flags fd off len a); answer a
    end.

(** ** Descriptors *)

Definition do_open_ (path_reg flags_reg : Reg) : M S unit :=
  path ← arg_str path_reg; flags ← arg_int flags_reg;
  fd ← open_file path flags;
  answer (if fd =? 0 then minus1 else u64 fd).
(** [read] asks for 16 MiB at most, [__read_chk] and [AAsset_read] for all. *)
Definition do_read_ (cap : bool) : M S unit :=
  fd ← arg_int A0; buf ← arg_ A1; n ← arg_ A2;
  unless_open fd minus1
    (got ← read_into fd buf (if cap && (0x1000000 <? n) then 0x1000000 else n); answer got).
Definition do_lseek_ : M S unit :=
  fd ← arg_int A0;
  unless_open fd minus1
    (off ← arg_ A1; whence ← arg_int A2; cur ← fpos fd; n ← fsize fd;
     let p := seek_to whence cur n off in
     _ ← on_vfs_ (seek fd p); answer p).
Definition do_lseek64 : M S unit := if lseek0 env then answer 0 else do_lseek_.
Definition do_fstat_ : M S unit :=
  fd ← arg_int A0; st ← arg_ A1;
  unless_open fd minus1 (n ← fsize fd; _ ← on_kernel (write_stat64 st n 0x81A4); answer 0).

(** ** Assets *)

(** The first path that opens. *)
Fixpoint open_first (l : list string) : M S Z :=
  match l with
  | [] => mret 0
  | p :: r => fd ← open_file p 0; if negb (fd =? 0) then mret fd else open_first r
  end.
Definition do_asset_open : M S unit :=
  name ← arg_str A1;
  let asset := ("assets/" +:+ name) in
  fd ← open_first [asset; "/android_asset/" +:+ name; name]%string;
  fd ← (if (fd =? 0) && aasset_fakemiss env
        then _ ← on_vfs_ (add_file asset []); open_file asset 0 else mret fd);
  _ ← arg_ Lr;                                  (* the log line *)
  answer (u64 fd).
Definition do_asset_length : M S unit := fd ← arg_int A0; unless_open fd 0 (n ← fsize fd; answer n).
Definition do_asset_allocated : M S unit := fd ← arg_int A0; unless_open fd 0 (answer 1).
Definition set_asset_bufs (m : gmap Z Z) : M S unit :=
  s ← get; let f := st_files s in
  set_files (mkFileState (dirs_open f) (dir_token_ f) (popen_seq_ f) (mkstemp_seq_ f) m).
(** The whole asset on the guest heap, the first time. *)
Definition do_asset_buffer : M S unit :=
  fd ← arg_int A0;
  unless_open fd 0
    (s ← get;
     match aasset_bufs_ (st_files s) !! fd with
     | Some a => answer a
     | None =>
         n ← fsize fd;
         _ ← on_vfs_ (seek fd 0);
         '(l, _) ← on_vfs_ (Vfs.read fd [] n);
         _ ← on_vfs_ (seek fd 0);
         a ← heap_ (if n =? 0 then 1 else n);
         _ ← (if n =? 0 then skip else put_bytes a (take (Z.to_nat n) l));
         s ← get;
         _ ← set_asset_bufs (<[fd := a]> (aasset_bufs_ (st_files s)));
         answer a
     end).
Definition do_asset_close : M S unit :=
  fd ← arg_int A0;
  _ ← on_vfs_ (close fd);
  s ← get; _ ← set_asset_bufs (delete fd (aasset_bufs_ (st_files s)));
  answer 0.
End Files.

Example listing_of_a_directory :
  let v := mkVfs {["/d/a" := [1]; "/d/sub/x" := []; "/e/y" := []]} {["/d"; "/d/sub"; "/d/new/"]} ∅ 3 false [] in
  dir_entries v "/d/" = [("."%string, 4); (".."%string, 4); ("a"%string, 8); ("new"%string, 4); ("sub"%string, 4)] /\
  dir_entries v "/" = [("."%string, 4); (".."%string, 4)] /\
  dir_entries v "/sys/class/net" = [("."%string, 4); (".."%string, 4); ("lo"%string, 10); ("wlan0"%string, 10)].
Proof. vm_compute. done. Qed.
Example mkstemp_template :
  template_start (bs "/tmp/aXXXXXX") = Some 6%nat /\ template_start (bs "/X/tmp") = Some 1%nat.
Proof. vm_compute. done. Qed.
