(* ===== verification/StubZlib.v ===== *)
(** The zlib stubs: [core/android/stubs.cpp], [register_zlib].

    The host's zlib is not part of the program: [Zlib] is the record of its
    operations.  What is modelled is the bridge: one host stream per guest
    [z_stream], the windows copied in and out, the counters kept in the
    guest's structure, whose offsets are those of an LP64 target. *)

From S2P Require Import Prelude.
From S2P Require Import Words.
From S2P Require Import Loops.
From S2P Require Import Abi.
From S2P Require Import Unicorn.
From S2P Require Import Engine.
From S2P Require Import Memory.
From S2P Require Import Libc.
From S2P Require Import Stubs.
#[local] Open Scope Z_scope.

Definition OFF_NEXT_IN : Z := 0.
Definition OFF_AVAIL_IN : Z := 8.
Definition OFF_TOTAL_IN : Z := 16.
Definition OFF_NEXT_OUT : Z := 24.
Definition OFF_AVAIL_OUT : Z := 32.
Definition OFF_TOTAL_OUT : Z := 40.
Definition OFF_STATE : Z := 56.
(** zlib's codes. *)
Definition Z_OK : Z := 0.
Definition Z_STREAM_ERROR : Z := -2.

(** What one call of [inflate] leaves: its code, [avail_in], the bytes it
    wrote to the output window. *)
Record Inflated := mkInflated { z_rc : Z; z_avail_in : Z; z_out : list Z }.

(** [flush], the input and the room for output go in.  A stream that is ended
    is forgotten. *)
Record Zlib (ZS : Type) := mkZlib {
  inflateInit2 : Z -> Z * ZS;
  z_inflate : ZS -> Z -> list Z -> Z -> Inflated * ZS;
  z_reset : ZS -> Z * ZS;
  z_uncompress : list Z -> Z -> Z * Z * list Z;                  (* code, length, output *)
  z_crc32 : Z -> option (list Z) -> Z;                           (* [None] is Z_NULL *)
  z_adler32 : Z -> option (list Z) -> Z;
}.
Arguments mkZlib {ZS}. Arguments inflateInit2 {ZS}. Arguments z_inflate {ZS}. Arguments z_reset {ZS}.
Arguments z_uncompress {ZS}. Arguments z_crc32 {ZS}. Arguments z_adler32 {ZS}.

Section Zlib.
Context {U ZS : Type} `{UcOps U}.
#[local] Abbreviation S := (Stubs U ZS).
Variable abi : Abi.
Variable zlib : Zlib ZS.
(** VARDOGER_ZLIB_LOG: the log line reads the link register. *)
Variable zlib_log : bool.

#[local] Abbreviation arg_ := (arg_ abi).
#[local] Abbreviation answer := (answer abi).
#[local] Abbreviation answer_signed := (answer_signed abi).

Definition zstreams : M S (gmap Z (option ZS)) := gets st_zlib.
(** The stream behind an entry; one that was given back is no object. *)
Definition live (o : option ZS) : M S ZS := match o with Some z => mret z | None => lift UB end.

(** An old stream at the same place is ended first; when the new one cannot
    be made the entry of the old one stays. *)
Definition zinit (strm wbits : Z) : M S unit :=
  if strm =? 0 then answer_signed Z_STREAM_ERROR else
  m ← zstreams;
  _ ← match m !! strm with Some o => _ ← live o; set_zlib (<[strm := None]> m) | None => skip end;
  let '(rc, hs) := inflateInit2 zlib wbits in
  if negb (rc =? Z_OK) then answer_signed rc else
  m ← zstreams;
  _ ← set_zlib (<[strm := Some hs]> m);
  _ ← put_word 8 (u64 (strm + OFF_STATE)) 1;
  answer_signed Z_OK.
Definition do_inflateInit : M S unit := strm ← arg_ A0; zinit strm 47.
Definition do_inflateInit2 : M S unit := strm ← arg_ A0; w ← arg_ A1; zinit strm (s32 w).

(** A counter of the guest's structure, moved on. *)
Definition add_total (a n : Z) : M S unit := t ← get_word 8 a; put_word 8 a (u64 (t + n)).
Definition do_inflate : M S unit :=
  strm ← arg_ A0; f ← arg_ A1;
  m ← zstreams;
  match m !! strm with
  | None => answer_signed Z_STREAM_ERROR
  | Some o =>
      let at_ off := u64 (strm + off) in
      in_p ← get_word 8 (at_ OFF_NEXT_IN);
      in_n ← get_word 4 (at_ OFF_AVAIL_IN);
      out_p ← get_word 8 (at_ OFF_NEXT_OUT);
      out_n ← get_word 4 (at_ OFF_AVAIL_OUT);
      input ← (if in_n =? 0 then mret [] else get_bytes in_p in_n);
      hs ← live o;
      let '(r, hs) := z_inflate zlib hs (s32 f) input out_n in
      _ ← set_zlib (<[strm := Some hs]> m);
      let consumed := u32 (in_n - z_avail_in r) in
      let produced := zlen (z_out r) in
      _ ← (if produced =? 0 then skip else put_bytes out_p (z_out r));
      _ ← put_word 8 (at_ OFF_NEXT_IN) (u64 (in_p + consumed));
      _ ← put_word 4 (at_ OFF_AVAIL_IN) (z_avail_in r);
      _ ← add_total (at_ OFF_TOTAL_IN) consumed;
      _ ← put_word 8 (at_ OFF_NEXT_OUT) (u64 (out_p + produced));
      _ ← put_word 4 (at_ OFF_AVAIL_OUT) (u32 (out_n - produced));
      _ ← add_total (at_ OFF_TOTAL_OUT) produced;
      answer_signed (z_rc r)
  end.
Definition do_inflateEnd : M S unit :=
  strm ← arg_ A0;
  m ← zstreams;
  _ ← match m !! strm with Some o => _ ← live o; set_zlib (delete strm m) | None => skip end;
  _ ← put_word 8 (u64 (strm + OFF_STATE)) 0;
  answer_signed Z_OK.
Definition do_inflateReset : M S unit :=
  strm ← arg_ A0;
  m ← zstreams;
  match m !! strm with
  | Some o =>
      hs ← live o;
      let '(rc, hs) := z_reset zlib hs in
      _ ← set_zlib (<[strm := Some hs]> m);
      answer_signed rc
  | None => answer_signed Z_STREAM_ERROR
  end.

(** [dest] has room for what stands at [destLenP]; its length comes back
    there, whatever the code. *)
Definition do_uncompress : M S unit :=
  dest ← arg_ A0; destLenP ← arg_ A1; src ← arg_ A2; srcLen ← arg_ A3;
  destCap ← get_word 8 destLenP;
  _ ← on_libc (vec srcLen); _ ← on_libc (vec destCap);
  input ← (if srcLen =? 0 then mret [] else get_bytes src srcLen);
  let '(rc, outLen, out) := z_uncompress zlib input destCap in
  _ ← (if (rc =? Z_OK) && negb (outLen =? 0) then put_bytes dest (take (Z.to_nat outLen) out) else skip);
  _ ← put_word 8 destLenP outLen;
  _ ← (if zlib_log then _ ← arg_ Lr; skip else skip);
  answer_signed rc.

(** The checksum of a buffer that cannot be read is that of none. *)
Definition checksum (fn : Z -> option (list Z) -> Z) : M S unit :=
  a ← arg_ A0; buf ← arg_ A1; n ← arg_ A2;
  let init := Z.land a 0xffffffff in
  let len := u32 n in
  let none := fn init None in
  r ← (if (buf =? 0) || (len =? 0) then mret none
       else try_catch (b ← get_bytes buf len; mret (fn init (Some b))) (mret none));
  answer (Z.land r 0xffffffff).
Definition do_crc32 : M S unit := checksum (z_crc32 zlib).
Definition do_adler32 : M S unit := checksum (z_adler32 zlib).
End Zlib.
