(* ===== verification/StubTable.v ===== *)
(** The table of stubs, in the order the program registers them:
    [core/android/stubs.cpp], [register_defaults], [register_pthreads],
    [register_zlib], [register_system].

    A name registered twice is bound to the later stub; the earlier one stays
    on the page.  The handlers over floating-point registers and [fnmatch] are
    parameters. *)

From stdpp Require Import strings.
From S2P Require Import Prelude.
From S2P Require Import Words.
From S2P Require Import Loops.
From S2P Require Import Abi.
From S2P Require Import Unicorn.
From S2P Require Import Engine.
From S2P Require Import Memory.
From S2P Require Import Trampoline.
From S2P Require Import Syscalls.
From S2P Require Import Libc.
From S2P Require Import LibcStr.
From S2P Require Import LibcFmt.
From S2P Require Import LibcWide.
From S2P Require Import LibcScan.
From S2P Require Import LibcTime.
From S2P Require Import Stubs.
From S2P Require Import StubRuntime.
From S2P Require Import StubFiles.
From S2P Require Import StubZlib.
#[local] Open Scope Z_scope.

(** ** Names that share a handler *)

Definition signal_names : list string := [
  "sigaction"; "sigemptyset"; "sigfillset"; "sigaltstack"; "sigaddset"; "sigdelset"; "sigismember"; "sigprocmask";
  "sigaction64"; "sigemptyset64"; "sigfillset64"; "sigaddset64"; "sigdelset64"; "sigismember64"; "sigprocmask64"]%string.
Definition socket_names : list string := [
  "socket"; "connect"; "bind"; "listen"; "accept"; "accept4"; "send"; "recv"; "sendto"; "recvfrom"; "sendmsg";
  "recvmsg"; "setsockopt"; "getsockopt"; "shutdown"; "getaddrinfo"; "freeaddrinfo"; "gethostbyname"]%string.
Definition path_noop_names : list string := [
  "mkdir"; "mkdirat"; "rmdir"; "setenv"; "unsetenv"; "chmod"; "fchmod"; "chown"; "fchown"; "unlink"; "unlinkat";
  "rename"; "renameat"; "truncate"; "truncate64"; "ftruncate"; "ftruncate64"]%string.
Definition scanf_names : list string := ["scanf"; "vscanf"; "fscanf"; "vfscanf"; "vsscanf"]%string.
Definition with_f (l : list string) : list string := l ≫= (fun n => [n; n +:+ "f"]).
Definition unary_names : list string := with_f [
  "floor"; "ceil"; "round"; "trunc"; "fabs"; "sqrt"; "cbrt"; "exp"; "exp2"; "log"; "log2"; "log10"; "sin"; "cos";
  "tan"; "asin"; "acos"; "atan"; "sinh"; "cosh"; "tanh"]%string.
Definition binary_names : list string := with_f [
  "pow"; "fmod"; "atan2"; "hypot"; "fmin"; "fmax"; "copysign"; "remainder"]%string.
Definition other_float_names : list string := [
  "lround"; "lroundf"; "llround"; "llroundf"; "modf"; "modff"; "frexp"; "ldexp"; "scalbn"; "isinf"; "isnan";
  "isfinite"]%string.
Definition thread_noop_names : list string := [
  "pthread_mutex_trylock"; "pthread_mutex_init"; "pthread_mutex_destroy"; "pthread_cond_init"; "pthread_cond_destroy";
  "pthread_cond_timedwait"; "pthread_rwlock_init"; "pthread_rwlock_destroy"; "pthread_rwlock_rdlock";
  "pthread_rwlock_wrlock"; "pthread_rwlock_unlock"; "pthread_rwlock_tryrdlock"; "pthread_rwlock_trywrlock";
  "pthread_rwlock_timedrdlock"; "pthread_rwlock_timedwrlock"; "pthread_rwlockattr_init"; "pthread_rwlockattr_destroy";
  "pthread_rwlockattr_setpshared"; "pthread_rwlockattr_getpshared"; "pthread_attr_init"; "pthread_attr_destroy";
  "pthread_attr_setdetachstate"; "pthread_attr_setstacksize"; "pthread_attr_setschedpolicy";
  "pthread_attr_setschedparam"; "pthread_attr_setguardsize"; "pthread_attr_setinheritsched"; "pthread_attr_setstack";
  "pthread_attr_setaffinity_np"; "pthread_barrier_init"; "pthread_barrier_destroy"; "pthread_barrier_wait";
  "pthread_barrierattr_init"; "pthread_barrierattr_destroy"; "pthread_barrierattr_setpshared"; "pthread_spin_init";
  "pthread_spin_lock"; "pthread_spin_trylock"; "pthread_spin_unlock"; "pthread_spin_destroy"; "pthread_sigmask";
  "pthread_setname_np"; "pthread_getname_np"; "pthread_setaffinity_np"; "pthread_getaffinity_np"; "pthread_equal"]%string.
Definition unwind_noop_names : list string := [
  "_Unwind_DeleteException"; "_Unwind_Resume_or_Rethrow"; "_Unwind_Backtrace"]%string.
Definition unwind_get_names : list string := [
  "_Unwind_SetIP"; "_Unwind_SetGR"; "_Unwind_GetGR"; "_Unwind_GetRegionStart"; "_Unwind_GetDataRelBase";
  "_Unwind_GetTextRelBase"; "_Unwind_GetLanguageSpecificData"]%string.

Section Table.
Context {U ZS : Type} `{UcOps U}.
#[local] Abbreviation S := (Stubs U ZS).
Variable abi : Abi.
Variables tight legacy_malloc zlib_log : bool.
Variable env : StubEnv.
Variable sys_env : Env.
Variable yield_ : option (M (Kernel U) bool).
Variable have_syscalls : bool.
Variables dlsym_provider_ lib_resolver_ : option (string -> M S Z).
Variable zlib : Zlib ZS.
(** The host: what printf prints for %p, the text of an error number,
    [fnmatch], and the handlers over floating-point registers, by name. *)
Variable host_pointer host_strerror : Z -> list Z.
Variable host_fnmatch : list Z -> list Z -> Z -> Z.
Variable float_stub : string -> M S unit.

Definition Row : Type := string * M S unit.
#[local] Abbreviation libc := on_libc.
#[local] Abbreviation answers v := (do_answer abi v).

Definition row (n : string) (h : M S unit) : list Row := [(n, h)].
Definition rows (ns : list string) (h : M S unit) : list Row := (fun n => (n, h)) <$> ns.
Definition floats (ns : list string) : list Row := (fun n => (n, float_stub n)) <$> ns.

(** [::fnmatch], on the strings and the flags. *)
Definition do_fnmatch : M S unit :=
  p ← arg_ abi A0; pat ← get_cstr p; q ← arg_ abi A1; str ← get_cstr q; f ← arg_ abi A2;
  answer_signed abi (host_fnmatch pat str (s32 f)).

Definition memory_rows : list Row :=
  row "memcpy" (libc (do_memcpy abi)) ++ row "memmove" (libc (do_memcpy abi)) ++
  rows ["__memcpy_chk"; "__memmove_chk"]%string (libc (do_memcpy abi)) ++
  row "mempcpy" (libc (do_mempcpy abi)) ++ row "memset" (libc (do_memset abi)) ++
  row "memcmp" (libc (do_memcmp abi)).

Definition string_rows : list Row :=
  row "strlen" (libc (do_strlen abi)) ++ row "strnlen" (libc (do_strnlen abi)) ++
  row "memchr" (libc (do_memchr abi)) ++ row "strlcpy" (libc (do_strlcpy abi)) ++
  row "strchr" (libc (do_strchr abi)) ++ row "strrchr" (libc (do_strrchr abi)) ++
  row "strcpy" (libc (do_strcpy abi)) ++ row "strcat" (libc (do_strcat abi)) ++
  rows signal_names (answers 0) ++
  row "__strcpy_chk" (libc (do_strcpy abi)) ++ row "__strcat_chk" (libc (do_strcat abi)) ++
  row "__strncpy_chk" (libc (do_strncpy_chk abi)) ++
  row "rand" (answers 0x4d2) ++ row "srand" (answers 0) ++
  row "strspn" (libc (do_strspn abi)) ++ row "strcspn" (libc (do_strcspn abi)) ++
  row "strpbrk" (libc (do_strpbrk abi)) ++
  row "strtok" (libc (do_strtok abi)) ++ row "strtok_r" (libc (do_strtok_r abi)) ++
  row "fnmatch" do_fnmatch ++
  row "strlcat" (libc (do_strlcat abi)) ++ row "strcmp" (libc (do_strcmp abi)) ++
  row "strncmp" (libc (do_strncmp abi)).

Definition heap_rows : list Row :=
  row "malloc" (libc (do_malloc abi tight legacy_malloc)) ++
  row "calloc" (libc (do_calloc abi tight legacy_malloc)) ++
  row "realloc" (libc (do_realloc abi tight legacy_malloc)) ++ row "free" (libc do_free).

Definition format_rows : list Row :=
  row "__android_log_print" (libc (do_log_print abi host_pointer)) ++
  row "sprintf" (libc (do_sprintf abi host_pointer)) ++
  row "snprintf" (libc (do_snprintf abi host_pointer)) ++
  row "__snprintf_chk" (libc (do_snprintf_chk abi host_pointer)) ++
  row "__sprintf_chk" (libc (do_sprintf_chk abi host_pointer)) ++
  row "vsprintf" (libc (do_vsprintf abi host_pointer)) ++
  row "vsnprintf" (libc (do_vsnprintf abi host_pointer)) ++
  row "__vsprintf_chk" (libc (do_vsprintf_chk abi host_pointer)) ++
  row "__vsnprintf_chk" (libc (do_vsnprintf_chk abi host_pointer)) ++
  row "printf" (libc (do_printf abi host_pointer)) ++ row "vprintf" (libc (do_vprintf abi host_pointer)) ++
  row "puts" (libc (do_puts abi)) ++ row "putchar" (libc (do_putchar abi)).

Definition cxx_rows : list Row :=
  rows ["opendir"; "readdir"; "readdir64"; "closedir"]%string (answers 0) ++
  rows ["_Znwm"; "_Znam"]%string (libc (do_op_new abi tight)) ++
  rows ["_ZdlPv"; "_ZdaPv"; "_ZdlPvm"; "_ZdaPvm"]%string skip ++
  row "__cxa_guard_acquire" (libc (do_guard_acquire abi)) ++
  row "__cxa_guard_release" (libc (do_guard_release abi)) ++ row "__cxa_guard_abort" skip.

Definition number_rows : list Row :=
  row "atoi" (libc (do_atoi abi)) ++
  rows ["strtol"; "strtoll"]%string (libc (do_strto abi false)) ++
  rows ["strtoul"; "strtoull"]%string (libc (do_strto abi true)) ++
  floats ["strtod"; "atof"]%string ++
  rows ["atol"; "atoll"]%string (libc (do_atol abi)) ++
  row "strstr" (libc (do_strstr abi)) ++ row "getenv" (answers 0) ++ row "getpagesize" (answers 4096) ++
  row "sysconf" (libc (do_sysconf abi)).

Definition string2_rows : list Row :=
  row "strdup" (libc (do_strdup abi tight)) ++ row "strncpy" (libc (do_strncpy abi)) ++
  row "stpcpy" (libc (do_stpcpy abi)) ++ row "stpncpy" (libc (do_stpncpy abi)) ++
  row "strchrnul" (libc (do_strchrnul abi)) ++ row "memmem" (libc (do_memmem abi)) ++
  row "strerror" (libc (do_strerror abi tight host_strerror)) ++
  row "strerror_r" (libc (do_strerror_r abi host_strerror)) ++
  row "strverscmp" (libc (do_strverscmp abi)) ++
  rows ["__errno"; "__errno_location"]%string (libc (do_errno abi tight)).

Definition wide_rows : list Row :=
  row "wcslen" (libc (do_wcslen abi)) ++ row "wcscpy" (libc (do_wcscpy abi)) ++
  row "wcsncpy" (libc (do_wcsncpy abi)) ++ row "wcscat" (libc (do_wcscat abi)) ++
  row "wcscmp" (libc (do_wcscmp abi)) ++ row "wcsncmp" (libc (do_wcsncmp abi)) ++
  row "wcschr" (libc (do_wcschr abi)) ++ row "wcsstr" (libc (do_wcsstr abi)) ++
  row "mbstowcs" (libc (do_mbstowcs abi)) ++ row "wcstombs" (libc (do_wcstombs abi)) ++
  row "mbtowc" (libc (do_mbtowc abi)) ++ row "wctomb" (libc (do_wctomb abi)) ++
  row "setlocale" (libc (do_setlocale abi tight)) ++
  rows ["uselocale"; "newlocale"; "freelocale"]%string (answers 0).

Definition net_rows : list Row :=
  rows ["htons"; "ntohs"]%string (libc (do_swap16 abi)) ++ rows ["htonl"; "ntohl"]%string (libc (do_swap32 abi)) ++
  rows ["htonll"; "ntohll"]%string (libc (do_swap64 abi)) ++
  row "inet_addr" (libc (do_inet_addr abi)) ++ row "inet_ntoa" (libc (do_inet_ntoa abi tight)) ++
  row "inet_pton" (libc (do_inet_pton abi)) ++ row "inet_ntop" (libc (do_inet_ntop abi)) ++
  rows socket_names (answers minus1) ++
  row "dladdr" (do_dladdr abi) ++ row "dlopen" (do_dlopen abi tight env) ++
  row "dlsym" (do_dlsym abi env dlsym_provider_ lib_resolver_).

Definition class_rows : list Row :=
  row "isspace" (libc (do_class abi c_isspace)) ++ row "isdigit" (libc (do_class abi c_isdigit)) ++
  row "isxdigit" (libc (do_class abi c_isxdigit)) ++ row "isalpha" (libc (do_class abi c_isalpha)) ++
  row "toupper" (libc (do_toupper abi)) ++ row "tolower" (libc (do_tolower abi)) ++
  row "__ctype_b_loc" (libc (do_ctype_b_loc abi tight)) ++
  row "__ctype_tolower_loc" (libc (do_ctype_tolower_loc abi tight)) ++
  row "__ctype_toupper_loc" (libc (do_ctype_toupper_loc abi tight)) ++
  ((fun '(n, f) => (n, libc (do_wide_class abi f))) <$> [
    ("iswspace"%string, c_isspace); ("iswdigit"%string, c_isdigit); ("iswalpha"%string, c_isalpha);
    ("iswalnum"%string, c_isalnum); ("iswupper"%string, c_isupper); ("iswlower"%string, c_islower);
    ("iswprint"%string, c_isprint); ("iswpunct"%string, c_ispunct); ("iswcntrl"%string, c_iscntrl);
    ("iswxdigit"%string, c_isxdigit); ("iswblank"%string, c_isblank)]) ++
  row "towlower" (libc (do_wide_map abi c_tolower)) ++ row "towupper" (libc (do_wide_map abi c_toupper)) ++
  ((fun '(n, f) => (n, libc (do_host_class abi f))) <$> [
    ("isalnum"%string, c_isalnum); ("ispunct"%string, c_ispunct); ("isprint"%string, c_isprint);
    ("isupper"%string, c_isupper); ("islower"%string, c_islower); ("iscntrl"%string, c_iscntrl);
    ("isblank"%string, c_isblank)]).

Definition misc_rows : list Row :=
  rows path_noop_names (answers 0) ++
  row "realpath" (libc (do_realpath abi tight)) ++ row "mkstemp" (answers minus1) ++
  row "dup" (do_echo abi A0) ++ rows ["dup2"; "dup3"]%string (do_echo abi A1) ++
  rows ["pipe"; "pipe2"]%string (answers minus1) ++
  row "doSetShellState" (do_shell_state abi env) ++ row "dlclose" (answers 0) ++
  row "__strlen_chk" (libc (do_strnlen abi)) ++
  row "srand48" (libc (do_srand48 abi)) ++ row "seed48" (libc (do_seed48 abi)) ++ row "lcong48" (answers 0) ++
  rows ["lrand48"; "nrand48"]%string (libc (do_lrand48 abi)) ++
  rows ["mrand48"; "jrand48"]%string (libc (do_mrand48 abi)) ++
  row "mprotect" (libc (do_libc_mprotect abi)) ++
  row "strcasecmp" (libc (do_strcasecmp abi)) ++ row "strncasecmp" (libc (do_strncasecmp abi)) ++
  row "sscanf" (libc (do_sscanf abi)) ++
  row "asprintf" (libc (do_asprintf abi tight host_pointer)) ++
  row "vasprintf" (libc (do_vasprintf abi tight host_pointer)) ++
  rows scanf_names (answers 0) ++ rows ["dprintf"; "vdprintf"]%string (answers 0) ++
  row "__strncpy_chk2" (libc (do_strncpy_chk2 abi)).

Definition zlib_rows : list Row :=
  row "inflateInit_" (do_inflateInit abi zlib) ++ row "inflateInit2_" (do_inflateInit2 abi zlib) ++
  row "inflate" (do_inflate abi zlib) ++ row "inflateEnd" (do_inflateEnd abi) ++
  row "inflateReset" (do_inflateReset abi zlib) ++ row "uncompress" (do_uncompress abi zlib zlib_log) ++
  row "crc32" (do_crc32 abi zlib) ++ row "adler32" (do_adler32 abi zlib).

Definition math_rows : list Row :=
  floats unary_names ++ floats binary_names ++
  rows ["abs"; "labs"; "llabs"; "__abs"]%string (libc (do_abs abi)) ++ floats other_float_names.

Definition thread_rows : list Row :=
  row "pthread_join" (do_pthread_join abi) ++ row "pthread_self" (do_pthread_self abi) ++
  row "pthread_detach" (answers 0) ++
  row "pthread_mutex_lock" (do_mutex_lock abi) ++ row "pthread_mutex_unlock" (do_mutex_unlock abi) ++
  row "pthread_cond_wait" (do_cond_wait abi) ++ row "pthread_cond_signal" (do_cond_wake abi false) ++
  row "pthread_cond_broadcast" (do_cond_wake abi true) ++
  rows ["sleep"; "usleep"; "nanosleep"; "sched_yield"]%string (do_sleep abi env) ++
  rows thread_noop_names (answers 0) ++
  row "pthread_attr_getstacksize" (do_attr_get abi 8 0x100000) ++
  row "pthread_attr_getdetachstate" (do_attr_get abi 4 0) ++
  row "pthread_attr_getschedpolicy" (do_attr_get abi 4 0) ++
  row "pthread_attr_getschedparam" (do_attr_get abi 4 0) ++
  row "pthread_attr_getguardsize" (do_attr_get abi 8 4096) ++
  row "pthread_attr_getstack" (do_attr_getstack abi) ++
  row "pthread_attr_getinheritsched" (do_attr_get abi 4 1).

Definition sync_rows : list Row :=
  row "sem_init" (do_sem_init abi) ++ row "sem_post" (do_sem_post abi) ++
  rows ["sem_wait"; "sem_timedwait"]%string (do_sem_wait abi) ++
  row "sem_trywait" (do_sem_trywait abi) ++ row "sem_destroy" (do_sem_destroy abi) ++
  row "sem_getvalue" (do_sem_getvalue abi) ++
  row "pthread_once" (do_pthread_once abi) ++ row "pthread_key_create" (do_key_create abi) ++
  row "pthread_setspecific" (do_setspecific abi) ++ row "pthread_getspecific" (do_getspecific abi).

Definition runtime_rows : list Row :=
  row "dl_iterate_phdr" (do_dl_iterate_phdr abi) ++ row "getauxval" (do_getauxval abi) ++
  row "__cxa_throw" (do_cxa_throw abi env) ++ row "__cxa_rethrow" (do_cxa_rethrow abi env) ++
  row "__cxa_begin_catch" (do_echo abi A0) ++
  rows ["__cxa_end_catch"; "__cxa_current_exception_type"]%string (answers 0) ++
  row "__cxa_allocate_exception" (do_allocate_exception abi tight) ++
  rows ["__cxa_free_exception"; "__gxx_personality_v0"]%string (answers 0) ++
  rows ["_Unwind_RaiseException"; "_Unwind_Resume"]%string (do_unwind abi) ++
  rows unwind_noop_names (answers 0) ++ row "_Unwind_GetIP" (do_echo abi Lr) ++
  rows unwind_get_names (answers 0) ++
  rows ["__cxa_finalize"; "__cxa_atexit"; "atexit"]%string (answers 0) ++
  row "abort" (do_abort abi env) ++ row "exit" (do_exit abi env) ++
  rows ["_exit"; "_Exit"]%string do__exit ++ row "atexit" (answers 0).

Definition dir_time_rows : list Row :=
  row "ptrace" (answers 0) ++
  row "opendir" (do_opendir abi tight) ++ rows ["readdir"; "readdir64"]%string (do_readdir abi) ++
  row "closedir" (do_closedir abi) ++
  row "time" (do_time abi) ++ row "gettimeofday" (do_gettimeofday_ abi) ++
  row "mktime" (libc (do_mktime abi)) ++
  rows ["gmtime_r"; "localtime_r"]%string (libc (do_gmtime_r abi)) ++
  rows ["gmtime"; "localtime"]%string (libc (do_gmtime abi tight)) ++
  row "__system_property_get" (do_property_get abi) ++ row "__system_property_find" (answers 0) ++
  row "getpid" (answers 1234) ++ row "getppid" (answers 903) ++ row "gettid" (answers 1234) ++
  rows ["getuid"; "geteuid"]%string (answers 10234) ++
  row "access" (do_access_ abi sys_env) ++
  rows ["stat"; "stat64"; "lstat"; "lstat64"]%string (do_stat_ abi sys_env A0 A1) ++
  rows ["fstatat"; "fstatat64"; "newfstatat"]%string (do_stat_ abi sys_env A1 A2).

Definition stdio_rows : list Row :=
  row "fopen" (do_fopen abi sys_env) ++ row "fwrite" (do_fwrite abi) ++
  row "fprintf" (do_fprintf abi host_pointer) ++ row "vfprintf" (do_vfprintf abi host_pointer) ++
  row "fputs" (do_fputs abi) ++ rows ["fputc"; "putc"]%string (do_fputc abi) ++
  rows ["fflush"; "ferror"; "clearerr"]%string (answers 0) ++
  row "dprintf" (do_fprintf abi host_pointer) ++ row "vdprintf" (do_vfprintf abi host_pointer) ++
  row "write" (do_write_ abi) ++ row "fgets" (do_fgets abi) ++ row "fread" (do_fread abi) ++
  row "fclose" (do_close_ abi) ++
  row "popen" (do_popen abi sys_env) ++ row "pclose" (do_close_ abi) ++ row "mkstemp" (do_mkstemp abi sys_env) ++
  row "feof" (do_feof abi) ++ rows ["fseek"; "fseeko"]%string (do_fseek abi) ++
  rows ["ftell"; "ftello"]%string (do_ftell abi) ++ row "rewind" (do_rewind abi) ++ row "fileno" skip.

Definition file_rows : list Row :=
  row "localeconv" (do_localeconv abi) ++
  rows ["mmap"; "mmap64"]%string (do_libc_mmap abi sys_env) ++ row "munmap" (answers 0) ++
  row "open" (do_open_ abi sys_env A0 A1) ++ row "openat" (do_open_ abi sys_env A1 A2) ++
  row "__open_2" (do_open_ abi sys_env A0 A1) ++ row "__openat_2" (do_open_ abi sys_env A1 A2) ++
  row "read" (do_read_ abi true) ++ row "close" (do_close_ abi) ++ row "lseek" (do_lseek_ abi) ++
  row "fstat" (do_fstat_ abi) ++ row "lseek64" (do_lseek64 abi env) ++
  row "puts" (answers 1) ++ row "raise" (answers 0) ++ row "__read_chk" (do_read_ abi false).

Definition asset_rows : list Row :=
  row "AAssetManager_fromJava" (answers 0xA55E7000) ++ row "AAssetManager_open" (do_asset_open abi env sys_env) ++
  row "AAsset_read" (do_read_ abi false) ++
  rows ["AAsset_getLength"; "AAsset_getLength64"]%string (do_asset_length abi) ++
  row "AAsset_seek" (do_lseek_ abi) ++ row "AAsset_isAllocated" (do_asset_allocated abi) ++
  row "AAsset_getBuffer" (do_asset_buffer abi tight) ++ row "AAsset_close" (do_asset_close abi) ++
  row "__system_property_read" (answers 0).

(** ** Registration *)

Definition first_rows : list Row :=
  row "syscall" (do_syscall abi sys_env yield_ have_syscalls) ++
  memory_rows ++ string_rows ++ heap_rows ++ format_rows ++ cxx_rows ++ number_rows ++ string2_rows ++ wide_rows ++
  net_rows ++ class_rows ++ misc_rows.
Definition create_rows : list Row := row "pthread_create" (do_pthread_create abi).
Definition system_rows : list Row := dir_time_rows ++ stdio_rows ++ file_rows ++ asset_rows.

(** What is registered before the stub a worker returns to, from there to the
    stub [dl_iterate_phdr]'s callback returns to, and after it. *)
Definition part1 : list Row := first_rows ++ zlib_rows ++ math_rows ++ create_rows.
Definition part2 : list Row := thread_rows ++ sync_rows.
Definition part3 : list Row := runtime_rows.
Definition table : list Row := part1 ++ part2 ++ part3 ++ system_rows.

(** The rows of [l] are entries [i], [i + 1], ... of the table. *)
Fixpoint codes (i : nat) (l : list Row) : list (string * Code) :=
  match l with [] => [] | r :: t => (r.1, CStub i) :: codes (Datatypes.S i) t end.
Definition add_rows (before l : list Row) : M S unit := add_stubs abi (codes (length before) l).

Definition register_zlib : M S unit := add_rows first_rows zlib_rows.
(** The stub a worker returns to is made anew each time, the one the callback
    of [dl_iterate_phdr] returns to once. *)
Definition worker_return_stub : M S unit :=
  a ← on_tramp (Trampoline.alloc abi "pthread_worker_return" CWorkerReturn); set_return_stub a.
Definition phdr_return_stub : M S unit :=
  d ← linker;
  if dl_return_stub_ d =? 0
  then a ← on_tramp (Trampoline.alloc abi "dl_iterate_phdr_return" CPhdrReturn); set_dl_return a else skip.
Definition register_pthreads : M S unit :=
  _ ← add_rows (first_rows ++ zlib_rows ++ math_rows) create_rows;
  _ ← worker_return_stub;
  add_rows part1 thread_rows.
Definition register_defaults : M S unit :=
  _ ← add_rows [] first_rows;
  _ ← register_zlib;
  _ ← add_rows (first_rows ++ zlib_rows) math_rows;
  _ ← register_pthreads;
  _ ← add_rows (part1 ++ thread_rows) sync_rows;
  _ ← phdr_return_stub;
  add_rows (part1 ++ part2) part3.
Definition register_system : M S unit := add_rows (part1 ++ part2 ++ part3) system_rows.

(** ** A trap *)

Definition run_code (c : Code) : M S unit :=
  match c with
  | CStub i => match table !! i with Some r => r.2 | None => skip end
  | CMissing _ => do_answer abi 0
  | CProgname => do_progname abi
  | CWorkerReturn => do_worker_return abi
  | CPhdrReturn => do_phdr_return abi
  end.
(** [Trampoline.dispatch], the handler having all of [Stubs] to work on. *)
Definition trap : M S bool :=
  pc ← on_engine (read_reg abi Pc);
  s ← get;
  let n := st_names s in
  if negb ((tramp_base n <=? pc) && (pc <? tramp_base n + kTrampolineSize)) then mret false else
  match tramp_codes n !! Z.to_nat ((pc - tramp_base n) / kStubSize) with
  | Some (_, c) => _ ← run_code c; mret true
  | None => throw "trampoline dispatch: PC not on a known stub"
  end.
End Table.
