(* ===== verification/StubFacts.v ===== *)
(** The table of stubs refines a finite map from import names to handlers.

    [tracks st R] relates the state of [Stubs] to such a map: a name of [R]
    has an address on the page whose trap runs what [R] gives, any other name
    has none.  Registration and [resolve] act on both sides alike. *)

From stdpp Require Import strings.
From S2P Require Import Prelude.
From S2P Require Import Words.
From S2P Require Import Loops.
From S2P Require Import Abi.
From S2P Require Import Unicorn.
From S2P Require Import Engine.
From S2P Require Import Memory.
From S2P Require Import Trampoline.
From S2P Require Import CText.
From S2P Require Import System.
From S2P Require Import Syscalls.
From S2P Require Import Libc.
From S2P Require Import Stubs.
From S2P Require Import StubRuntime.
From S2P Require Import StubFiles.
From S2P Require Import StubZlib.
From S2P Require Import StubTable.
#[local] Open Scope Z_scope.

Section Registry.
Context {U ZS : Type} `{UcLaws U}.
#[local] Abbreviation S := (Stubs U ZS).
Variable abi : Abi.

(** The part of the state that is the page. *)
Definition tramp_of (s : S) : Trampoline U Code :=
  let n := st_names s in
  mkTrampoline (m_uc (k_mem (st_kernel s))) (tramp_base n) (tramp_next n) (tramp_codes n).
Definition slot_addr (i : nat) : Z := kTrampolineBase + 8 * Z.of_nat i.

(** The page is in order, and there is room for [room] more stubs. *)
Record page_ok (s : S) (room : Z) : Prop := {
  po_tramp : tramp_ok (tramp_of s);
  po_room : zlen (tramp_codes (st_names s)) + room <= kTrampolineSize / 8;
}.
(** Only memory and names differ. *)
Definition same_rest (s s' : S) : Prop := st_linker s' = st_linker s /\ st_cells s' = st_cells s.

Definition tracks (s : S) (R : gmap string Code) : Prop :=
  forall n, match R !! n with
            | Some c => exists i m, by_name_ (st_names s) !! n = Some (slot_addr i) /\
                                    tramp_codes (st_names s) !! i = Some (m, c)
            | None => by_name_ (st_names s) !! n = None
            end.

Lemma stub_alloc_run (s : S) room name c :
  page_ok s (room + 1) -> 0 <= room ->
  exists s', on_tramp (Trampoline.alloc abi name c) s =
               (Ret (slot_addr (length (tramp_codes (st_names s)))), s') /\
    page_ok s' room /\ same_rest s s' /\ st_threads s' = st_threads s /\
    by_name_ (st_names s') = by_name_ (st_names s) /\
    tramp_codes (st_names s') = tramp_codes (st_names s) ++ [(name, c)].
Proof.
  intros [Ht Hr] Hpos. pose proof (alloc_spec abi (tramp_of s) name c Ht) as Ha.
  change (handlers_ (tramp_of s)) with (tramp_codes (st_names s)) in Ha.
  destruct (decide _) as [_|Hf]; [|lia].
  destruct Ha as (t' & E & Hok & Hh & _). unfold on_tramp. fold (tramp_of s). rewrite E. eexists.
  split; [reflexivity|]. split; [split|].
  - change (tramp_ok (mkTrampoline (tr_uc t') (base_ t') (next_ t') (handlers_ t'))). by destruct t'.
  - change (zlen (handlers_ t') + room <= kTrampolineSize / 8). rewrite Hh, zlen_app.
    change (zlen [(name, c)]) with 1. lia.
  - by repeat split.
Qed.

Lemma tracks_alloc (s s' : S) R name c :
  tracks s R -> by_name_ (st_names s') = by_name_ (st_names s) ->
  tramp_codes (st_names s') = tramp_codes (st_names s) ++ [(name, c)] -> tracks s' R.
Proof.
  intros Hs Hb Hc n. specialize (Hs n). rewrite Hb, Hc. destruct (R !! n) as [d|]; [|done].
  destruct Hs as (i & m & Hi & Hm). exists i, m. split; [done|]. by apply lookup_app_l_Some.
Qed.

(** [bind_name] after [alloc]: what [add] and [resolve] do. *)
Lemma bind_run_ (s : S) name a :
  bind_name name a s = (Ret tt, with_names s (mkNames (<[name := a]> (by_name_ (st_names s)))
    (tramp_base (st_names s)) (tramp_next (st_names s)) (tramp_codes (st_names s))
    (progname_cell_ (st_names s)) (progname_str_ (st_names s)) (progname_fn_ (st_names s)))).
Proof. done. Qed.

Lemma bound_run (s : S) room label name c R :
  page_ok s (room + 1) -> 0 <= room -> tracks s R ->
  exists s', (a ← on_tramp (Trampoline.alloc abi label c); _ ← bind_name name a; mret a) s =
               (Ret (slot_addr (length (tramp_codes (st_names s)))), s') /\
    page_ok s' room /\ same_rest s s' /\ tracks s' (<[name := c]> R) /\
    by_name_ (st_names s') !! name = Some (slot_addr (length (tramp_codes (st_names s)))).
Proof.
  intros Hp Hpos Ht. destruct (stub_alloc_run s room label c Hp Hpos) as (s1 & E & [Hp1 Hr1] & Hs & _ & Hb & Hc).
  rewrite (bind_run _ _ _ _ _ E), (bind_run _ _ _ _ _ (bind_run_ _ _ _)). eexists. split; [reflexivity|].
  split; [split; [exact Hp1|exact Hr1]|]. split; [exact Hs|]. split; [|apply lookup_insert_eq].
  pose proof (tracks_alloc _ _ _ _ _ Ht Hb Hc) as Ht1. intros n. cbn [st_names with_names by_name_ tramp_codes].
  destruct (decide (n = name)) as [->|Hn].
  - rewrite lookup_insert_eq. eexists _, label. split; [by rewrite lookup_insert_eq|].
    rewrite Hc. by rewrite list_lookup_middle.
  - rewrite !lookup_insert_ne by done. apply Ht1.
Qed.
Lemma add_run (s : S) room name c R :
  page_ok s (room + 1) -> 0 <= room -> tracks s R ->
  exists s', add abi name c s = (Ret tt, s') /\ page_ok s' room /\ same_rest s s' /\ tracks s' (<[name := c]> R).
Proof.
  intros Hp Hpos Ht. destruct (bound_run s room name name c R Hp Hpos Ht) as (s' & E & Hp' & Hs & Ht' & _).
  exists s'. split; [|done]. unfold add. destruct (stub_alloc_run s room name c Hp Hpos) as (s1 & E1 & _).
  rewrite (bind_run _ _ _ _ _ E1) in E. rewrite (bind_run _ _ _ _ _ E1).
  rewrite (bind_run _ _ _ _ _ (bind_run_ _ _ _)) in E. by injection E as <-.
Qed.

(** The map after the stubs of [l], in order. *)
Definition bind_all (l : list (string * Code)) (R : gmap string Code) : gmap string Code :=
  fold_left (fun m e => <[e.1 := e.2]> m) l R.
Lemma add_stubs_run l (s : S) room R :
  page_ok s (room + zlen l) -> 0 <= room -> tracks s R ->
  exists s', add_stubs abi l s = (Ret tt, s') /\ page_ok s' room /\ same_rest s s' /\ tracks s' (bind_all l R).
Proof.
  revert s R. induction l as [|[n c] l IH]; intros s R Hp Hpos Ht.
  - exists s. split; [done|]. split; [|by split]. rewrite Z.add_0_r in Hp. exact Hp.
  - pose proof (zlen_nonneg l) as Hl. assert (zlen ((n, c) :: l) = zlen l + 1) as El by (unfold zlen; cbn [length]; lia).
    destruct (add_run s (room + zlen l) n c R) as (s1 & E & Hp1 & [Hs1 Hs2] & Ht1); [|lia|done|].
    { by replace (room + zlen l + 1) with (room + zlen ((n, c) :: l)) by lia. }
    destruct (IH s1 _ Hp1 Hpos Ht1) as (s2 & E2 & Hp2 & [Hs3 Hs4] & Ht2). exists s2.
    split; [cbn [add_stubs]; by rewrite (bind_run _ _ _ _ _ E)|]. split; [done|]. split; [|done].
    split; [by rewrite Hs3|by rewrite Hs4].
Qed.
End Registry.

Section Handlers.
Context {U ZS : Type} `{UcLaws U}.
#[local] Abbreviation S := (Stubs U ZS).
Variable abi : Abi.
Variables tight legacy_malloc zlib_log : bool.
Variable env : StubEnv.
Variable sys_env : Env.
Variable yield_ : option (M (Kernel U) bool).
Variable have_syscalls : bool.
Variables dlsym_provider_ lib_resolver_ : option (string -> M S Z).
Variable zlib : Zlib ZS.
Variable host_pointer host_strerror : Z -> list Z.
Variable host_fnmatch : list Z -> list Z -> Z -> Z.
Variable float_stub : string -> M S unit.

#[local] Abbreviation Row := (@Row U ZS).
#[local] Abbreviation table := (table abi tight legacy_malloc zlib_log env sys_env yield_ have_syscalls
  dlsym_provider_ lib_resolver_ zlib host_pointer host_strerror host_fnmatch float_stub).
#[local] Abbreviation run_code := (run_code abi tight legacy_malloc zlib_log env sys_env yield_ have_syscalls
  dlsym_provider_ lib_resolver_ zlib host_pointer host_strerror host_fnmatch float_stub).
#[local] Abbreviation trap := (trap abi tight legacy_malloc zlib_log env sys_env yield_ have_syscalls
  dlsym_provider_ lib_resolver_ zlib host_pointer host_strerror host_fnmatch float_stub).
#[local] Abbreviation register_defaults := (register_defaults abi tight legacy_malloc zlib_log env sys_env yield_
  have_syscalls dlsym_provider_ lib_resolver_ zlib host_pointer host_strerror host_fnmatch float_stub).
#[local] Abbreviation register_system := (register_system abi tight legacy_malloc zlib_log env sys_env yield_
  have_syscalls dlsym_provider_ lib_resolver_ zlib host_pointer host_strerror host_fnmatch float_stub).

(** *** The map the table stands for *)

Definition reg (l : list Row) : gmap string Code := bind_all (codes 0 l) ∅.
(** The row registered last under a name. *)
Definition row_of (l : list Row) (n : string) : option Row := last (filter (fun r => r.1 = n) l).

Lemma codes_app i (l1 l2 : list Row) : codes i (l1 ++ l2) = codes i l1 ++ codes (i + length l1) l2.
Proof.
  revert i. induction l1 as [|r l1 IH]; intros i; [by rewrite Nat.add_0_r|].
  cbn [app codes length]. by rewrite IH, Nat.add_succ_comm.
Qed.
Lemma zlen_codes i (l : list Row) : zlen (codes i l) = zlen l.
Proof.
  revert i. induction l as [|r l IH]; intros i; [done|]. specialize (IH (Datatypes.S i)).
  unfold zlen in *. cbn [codes length]. lia.
Qed.
Lemma reg_app (l1 l2 : list Row) : reg (l1 ++ l2) = bind_all (codes (length l1) l2) (reg l1).
Proof. unfold reg. rewrite codes_app. unfold bind_all. by rewrite fold_left_app. Qed.

Lemma reg_row (l : list Row) n :
  match reg l !! n with
  | Some c => exists i r, c = CStub i /\ l !! i = Some r /\ row_of l n = Some r
  | None => row_of l n = None
  end.
Proof.
  induction l as [|r l IH] using rev_ind; [done|].
  rewrite reg_app. cbn [codes]. unfold bind_all. cbn [fold_left fst snd].
  unfold row_of in *. rewrite filter_app. destruct (decide (n = r.1)) as [->|Hn].
  - rewrite lookup_insert_eq. exists (length l), r. split; [done|]. split; [by rewrite list_lookup_middle|].
    rewrite filter_cons_True by done. by rewrite filter_nil, last_snoc.
  - rewrite lookup_insert_ne by done. rewrite filter_cons_False by done. rewrite filter_nil, app_nil_r.
    destruct (reg l !! n) as [c|]; [|done]. destruct IH as (i & r' & Hc & Hi & Hr).
    exists i, r'. split; [done|]. split; [by apply lookup_app_l_Some|done].
Qed.

(** *** Registration *)

Lemma add_rows_run (before l : list Row) (s : S) room :
  page_ok s (room + zlen l) -> 0 <= room -> tracks s (reg before) ->
  exists s', add_rows abi before l s = (Ret tt, s') /\ page_ok s' room /\ same_rest s s' /\
             tracks s' (reg (before ++ l)).
Proof.
  intros Hp Hr Ht. rewrite reg_app. apply add_stubs_run; [by rewrite zlen_codes|done|done].
Qed.

Lemma table_fits : zlen table = 492.
Proof. reflexivity. Qed.

(** A stub under no name. *)
Lemma alloc_step (s : S) room name c R :
  page_ok s (room + 1) -> 0 <= room -> tracks s R ->
  exists a s', on_tramp (Trampoline.alloc abi name c) s = (Ret a, s') /\ page_ok s' room /\ same_rest s s' /\
               tracks s' R.
Proof.
  intros Hp Hr Ht. destruct (stub_alloc_run abi s room name c Hp Hr) as (s' & E & Hp' & Hs & _ & Hb & Hc).
  eexists _, s'. split; [exact E|]. split; [done|]. split; [done|]. by eapply tracks_alloc.
Qed.
Lemma set_return_run (s : S) a : exists s', set_return_stub a s = (Ret tt, s') /\
  st_names s' = st_names s /\ st_kernel s' = st_kernel s /\ same_rest s s'.
Proof. exists (snd (set_return_stub a s)). by repeat split. Qed.
Lemma set_dl_return_run (s : S) a : exists s', set_dl_return a s = (Ret tt, s') /\
  st_names s' = st_names s /\ st_kernel s' = st_kernel s.
Proof. exists (snd (set_dl_return a s)). by repeat split. Qed.
Lemma page_ok_parts (s s' : S) room :
  st_names s' = st_names s -> st_kernel s' = st_kernel s -> page_ok s room -> page_ok s' room.
Proof. intros En Ek [Ht Hr]. split; [|by rewrite En]. unfold tramp_of. by rewrite En, Ek. Qed.
Lemma tracks_parts (s s' : S) R : st_names s' = st_names s -> tracks s R -> tracks s' R.
Proof. intros En Ht n. rewrite En. apply Ht. Qed.
Lemma same_rest_trans (s1 s2 s3 : S) : same_rest s1 s2 -> same_rest s2 s3 -> same_rest s1 s3.
Proof. intros [] []. split; by etrans. Qed.

(** [m] runs from a state with room for [k] more stubs, the rows [b] registered,
    to one with [a]. *)
Definition registers (k : Z) (b a : list Row) (m : M S unit) : Prop :=
  forall s room, page_ok s (room + k) -> 0 <= room -> tracks s (reg b) ->
    exists s', m s = (Ret tt, s') /\ page_ok s' room /\ tracks s' (reg a).
Lemma registers_rows b l : registers (zlen l) b (b ++ l) (add_rows abi b l).
Proof.
  intros s room Hp Hr Ht. destruct (add_rows_run b l s room Hp Hr Ht) as (s' & E & Hp' & _ & Ht'). by exists s'.
Qed.
Lemma registers_bind k1 k2 b c a m1 m2 :
  0 <= k2 -> registers k1 b c m1 -> registers k2 c a m2 -> registers (k1 + k2) b a (_ ← m1; m2).
Proof.
  intros Hk H1 H2 s room Hp Hr Ht. destruct (H1 s (room + k2)) as (s1 & E1 & Hp1 & Ht1); [|lia|done|].
  { by replace (room + k2 + k1) with (room + (k1 + k2)) by lia. }
  destruct (H2 s1 room Hp1 Hr Ht1) as (s2 & E2 & Hp2 & Ht2). exists s2. by rewrite (bind_run _ _ _ _ _ E1).
Qed.
Lemma registers_le k k' b a m : k <= k' -> registers k b a m -> registers k' b a m.
Proof.
  intros Hk Hm s room [Ht Hf] Hr Htr. destruct (Hm s room) as (s' & ?); [split; [done|lia]|done|done|]. by exists s'.
Qed.
Lemma registers_worker b :
  registers 1 b b (worker_return_stub abi).
Proof.
  intros s room Hp Hr Ht. destruct (alloc_step s room "pthread_worker_return" CWorkerReturn _ Hp Hr Ht)
    as (a & s1 & E & Hp1 & _ & Ht1).
  unfold worker_return_stub. destruct (set_return_run s1 a) as (s2 & E2 & En & Ek & _). exists s2. rewrite (bind_run _ _ _ _ _ E).
  split; [done|]. split; [by eapply page_ok_parts|by eapply tracks_parts].
Qed.
Lemma registers_phdr b :
  registers 1 b b (phdr_return_stub abi).
Proof.
  intros s room Hp Hr Ht. unfold phdr_return_stub.
  assert (linker s = (Ret (st_linker s), s)) as El by done. rewrite (bind_run _ _ _ _ _ El).
  destruct (dl_return_stub_ (st_linker s) =? 0).
  - destruct (alloc_step s room "dl_iterate_phdr_return" CPhdrReturn _ Hp Hr Ht) as (a & s1 & E & Hp1 & _ & Ht1).
    destruct (set_dl_return_run s1 a) as (s2 & E2 & En & Ek). exists s2. rewrite (bind_run _ _ _ _ _ E).
    split; [done|]. split; [by eapply page_ok_parts|by eapply tracks_parts].
  - exists s. split; [done|]. split; [|done]. destruct Hp as [Hp1 Hp2]. split; [done|lia].
Qed.

Lemma registers_defaults :
  registers (zlen (part1 abi tight legacy_malloc zlib_log env sys_env yield_ have_syscalls dlsym_provider_
                     lib_resolver_ zlib host_pointer host_strerror host_fnmatch float_stub
                   ++ part2 abi env ++ part3 abi tight env) + 2) []
            (part1 abi tight legacy_malloc zlib_log env sys_env yield_ have_syscalls dlsym_provider_
               lib_resolver_ zlib host_pointer host_strerror host_fnmatch float_stub
             ++ part2 abi env ++ part3 abi tight env) register_defaults.
Proof.
  unfold StubTable.register_defaults, StubTable.register_zlib, StubTable.register_pthreads, StubTable.part2.
  set (f := first_rows _ _ _ _ _ _ _ _ _ _ _ _ _). set (z := zlib_rows _ _ _). set (m := math_rows _ _).
  set (th := thread_rows _ _). set (sy := sync_rows _). set (r := part3 _ _ _). set (c := create_rows _).
  change (part1 _ _ _ _ _ _ _ _ _ _ _ _ _ _ _) with (f ++ z ++ m ++ c).
  eapply (registers_le (zlen f + (zlen z + (zlen m + ((zlen c + (1 + zlen th)) + (zlen sy + (1 + zlen r))))))).
  { rewrite !zlen_app. lia. }
  pose proof (zlen_nonneg z). pose proof (zlen_nonneg m). pose proof (zlen_nonneg c). pose proof (zlen_nonneg th).
  pose proof (zlen_nonneg sy). pose proof (zlen_nonneg r).
  eapply registers_bind; [lia|apply registers_rows|]. cbn [app].
  eapply registers_bind; [lia|apply registers_rows|].
  eapply registers_bind; [lia|apply registers_rows|].
  eapply registers_bind; [lia| |].
  { eapply registers_bind; [lia|rewrite <- app_assoc; apply registers_rows|].
    eapply registers_bind; [lia|apply registers_worker|]. rewrite <- !app_assoc. apply registers_rows. }
  rewrite <- !app_assoc. eapply registers_bind; [lia| |].
  { match goal with |- registers _ ?b _ (add_rows _ ?x _) => replace x with b by by rewrite <- ?app_assoc end.
    apply registers_rows. }
  eapply registers_bind; [lia|apply registers_phdr|].
  match goal with |- registers _ ?b _ (add_rows _ ?x _) => replace x with b by by rewrite <- ?app_assoc end.
  match goal with |- registers _ ?b ?a _ => replace a with (b ++ r) by by rewrite <- ?app_assoc end.
  apply registers_rows.
Qed.
Lemma registers_all : registers 494 [] table (_ ← register_defaults; register_system).
Proof.
  eapply (registers_le (_ + 2 + _)); [|eapply registers_bind; [|apply registers_defaults|]].
  3: { unfold StubTable.register_system, StubTable.table. rewrite app_assoc.
       match goal with |- registers _ _ ?a (add_rows _ ?b ?l) => replace a with (b ++ l) by by rewrite <- !app_assoc end.
       apply registers_rows. }
  2: apply zlen_nonneg.
  vm_compute. discriminate.
Qed.

(** *** Traps *)

Lemma run_row i r : table !! i = Some r -> run_code (CStub i) = r.2.
Proof.
  intros Hi. unfold StubTable.run_code. change (StubTable.Row) with Row. unfold StubTable.Row in *. by rewrite Hi.
Qed.

(** Wherever in the stub at [a] the guest traps, [h] runs. *)
Definition traps (s : S) (a : Z) (h : M S unit) : Prop :=
  forall s' pc, st_names s' = st_names s -> a <= pc < a + 8 ->
    fst (read_reg abi Pc (m_uc (k_mem (st_kernel s')))) = Ret pc -> trap s' = (_ ← h; mret true) s'.

Lemma read_pc_run (s : S) pc :
  fst (read_reg abi Pc (m_uc (k_mem (st_kernel s)))) = Ret pc -> on_engine (read_reg abi Pc) s = (Ret pc, s).
Proof.
  intros Hpc. unfold on_engine, on_memory, on_kernel, Syscalls.on_mem, uc_do.
  destruct (read_reg abi Pc (m_uc (k_mem (st_kernel s)))) as [r u] eqn:E. cbn [fst] in Hpc. subst r.
  unfold read_reg, read_uc_reg in E. destruct (reg_id abi Pc); [|done|done]. injection E as _ <-.
  by destruct s as [[[]]].
Qed.

Lemma page_slot (s : S) room i : page_ok s room -> 0 <= room -> (i < length (tramp_codes (st_names s)))%nat ->
  tramp_base (st_names s) = kTrampolineBase /\ 8 * Z.of_nat i + 8 <= kTrampolineSize.
Proof.
  intros [Ht Hr] Hp Hi. split; [apply (to_base _ Ht)|].
  pose proof (to_fits _ Ht) as Hf. change (handlers_ (tramp_of s)) with (tramp_codes (st_names s)) in Hf.
  unfold zlen in Hf. lia.
Qed.
Lemma traps_at (s : S) room i m c :
  page_ok s room -> 0 <= room -> tramp_codes (st_names s) !! i = Some (m, c) ->
  traps s (slot_addr i) (run_code c).
Proof.
  intros Hp Hr Hi s' pc En Hpc Hrd. pose proof (lookup_lt_Some _ _ _ Hi) as Hlt.
  destruct (page_slot s room i Hp Hr Hlt) as [Hb Hf]. unfold slot_addr in Hpc.
  unfold StubTable.trap. rewrite (bind_run _ _ _ _ _ (read_pc_run _ _ Hrd)), bind_get, En, Hb.
  rewrite (proj2 (Z.leb_le _ _)), (proj2 (Z.ltb_lt _ _)) by lia. cbn [negb andb].
  assert (Z.to_nat ((pc - kTrampolineBase) / kStubSize) = i) as ->; [|by rewrite Hi].
  unfold kStubSize. rewrite <- (Z.div_unique_pos (pc - kTrampolineBase) 8 (Z.of_nat i) (pc - kTrampolineBase - 8 * Z.of_nat i));
    lia.
Qed.

(** [resolve] on a state that tracks [R]. *)
Lemma resolve_known (s : S) room nn name R c :
  page_ok s room -> 0 <= room -> tracks s R -> R !! name = Some c ->
  exists a, resolve abi nn name s = (Ret a, s) /\ traps s a (run_code c).
Proof.
  intros Hp Hr Ht Hn. specialize (Ht name). rewrite Hn in Ht. destruct Ht as (i & m & Hb & Hc).
  exists (slot_addr i). split; [unfold resolve; by rewrite bind_get, Hb|by eapply traps_at].
Qed.
Lemma resolve_missing (s : S) room nn name R :
  page_ok s (room + 1) -> 0 <= room -> tracks s R -> R !! name = None ->
  if negb nn && str_contains name "dvm" then resolve abi nn name s = (Ret 0, s)
  else exists a s', resolve abi nn name s = (Ret a, s') /\ page_ok s' room /\
                    tracks s' (<[name := CMissing name]> R) /\ resolve abi nn name s' = (Ret a, s').
Proof.
  intros Hp Hr Ht Hn. pose proof (Ht name) as Hb. rewrite Hn in Hb. unfold resolve. rewrite bind_get, Hb.
  destruct (negb nn && str_contains name "dvm"); [done|].
  destruct (bound_run abi s room ("MISSING:" +:+ name) name (CMissing name) R Hp Hr Ht) as (s' & E & Hp' & _ & Ht' & Hb').
  eexists _, s'. split; [exact E|]. split; [done|]. split; [done|]. by rewrite bind_get, Hb'.
Qed.

(** C11: What the loader gets for an import is the address of the stub whose
    handler was registered last under the name, wherever in the stub the guest
    traps; a name of the Dalvik runtime is NULL; any other name gets, once and
    for all, the address of a stub that answers 0.  All 494 stubs fit the page. *)
Theorem imports_resolve (s : S) nn :
  st_names s = init_names ->
  (forall x, kTrampolineBase <= x < kTrampolineBase + kTrampolineSize ->
             uc_mapped (m_uc (k_mem (st_kernel s))) x = true) ->
  exists s1, (_ ← register_defaults; register_system) s = (Ret tt, s1) /\
    forall name,
      match row_of table name with
      | Some r => exists a, resolve abi nn name s1 = (Ret a, s1) /\ traps s1 a r.2
      | None =>
          if negb nn && str_contains name "dvm" then resolve abi nn name s1 = (Ret 0, s1) else
          exists a s2, resolve abi nn name s1 = (Ret a, s2) /\ traps s2 a (do_answer abi 0) /\
                       resolve abi nn name s2 = (Ret a, s2)
      end.
Proof.
  intros Hn Hm.
  assert (page_ok s (1 + 494)) as Hp.
  { split; [|by rewrite Hn]. split; unfold tramp_of; cbn; rewrite ?Hn; try done. }
  destruct (registers_all s 1 Hp ltac:(lia)) as (s1 & E & Hp1 & Ht1).
  { intros n. by rewrite Hn. }
  exists s1. split; [exact E|]. intros name. pose proof (reg_row table name) as Hrow.
  destruct (reg table !! name) as [c|] eqn:Er.
  - destruct Hrow as (i & r & -> & Hi & ->).
    destruct (resolve_known s1 1 nn name _ _ Hp1 ltac:(lia) Ht1 Er) as (a & Ea & Htr). exists a. split; [done|].
    by rewrite (run_row i r Hi) in Htr.
  - rewrite Hrow. pose proof (resolve_missing s1 0 nn name _ Hp1 ltac:(lia) Ht1 Er) as Hmiss.
    destruct (negb nn && str_contains name "dvm"); [done|]. destruct Hmiss as (a & s2 & Ea & Hp2 & Ht2 & Ea2).
    destruct (resolve_known s2 0 nn name _ _ Hp2 ltac:(lia) Ht2 (lookup_insert_eq _ _ _)) as (b & Eb & Htr).
    rewrite Ea2 in Eb. injection Eb as ->. exists b, s2.
    split; [exact Ea|]. split; [exact Htr|exact Ea2].
Qed.
End Handlers.

(** ** On the reference emulator *)

Definition demo_zlib : Zlib unit :=
  mkZlib (fun _ => (Z_OK, tt)) (fun s _ _ _ => (mkInflated Z_OK 0 [], s)) (fun s => (Z_OK, s))
         (fun _ _ => (Z_OK, 0, [])) (fun _ _ => 0) (fun _ _ => 0).
Definition demo_stubs : Stubs RefUc unit :=
  mkStubs (mkKernel (snd (reserve_page demo_mem0)) (init_system default_identity false false) 0 ∅ false [] false [])
          init_cells None init_linker init_threads init_files init_names ∅.
Definition demo_table : list (@Row RefUc unit) :=
  table Arm64 false false false no_stub_env no_env None true None None demo_zlib
        (fun _ => []) (fun _ => []) (fun _ _ _ => 0) (fun _ => skip).

Lemma imports_resolve_witness :
  row_of demo_table "puts" = Some ("puts"%string, do_answer Arm64 1) /\
  exists s1, (_ ← register_defaults Arm64 false false false no_stub_env no_env None true None None demo_zlib
                    (fun _ => []) (fun _ => []) (fun _ _ _ => 0) (fun _ => skip);
              register_system Arm64 false false false no_stub_env no_env None true None None demo_zlib
                    (fun _ => []) (fun _ => []) (fun _ _ _ => 0) (fun _ => skip)) demo_stubs = (Ret tt, s1) /\
    exists a, resolve Arm64 false "puts" s1 = (Ret a, s1).
Proof.
  split; [reflexivity|].
  destruct (imports_resolve Arm64 false false false no_stub_env no_env None true None None demo_zlib
    (fun _ => []) (fun _ => []) (fun _ _ _ => 0) (fun _ => skip) demo_stubs false) as (s1 & E & Hr).
  - reflexivity.
  - apply demo_page_mapped.
  - exists s1. split; [exact E|]. specialize (Hr "puts"%string).
    change (row_of (table Arm64 false false false no_stub_env no_env None true None None demo_zlib
      (fun _ => []) (fun _ => []) (fun _ _ _ => 0) (fun _ => skip)) "puts") with (Some ("puts"%string, @do_answer RefUc unit _ Arm64 1)) in Hr.
    destruct Hr as (a & Ea & _). exists a. exact Ea.
Defined.
