(* ===== verification/StubDirs.v ===== *)
(** What a directory lists: [dir_entries] of [register_system] in
    [core/android/stubs.cpp], against the paths the file system holds. *)

From Stdlib Require Import Ascii.
From stdpp Require Import strings sorting.
From S2P Require Import Prelude.
From S2P Require Import Vfs.
From S2P Require Import System.
From S2P Require Import StubFiles.
#[local] Open Scope Z_scope.

(** [full] begins with [pre] and has the component [n] next; [deep] tells
    whether more components follow. *)
Fixpoint no_slash (s : string) : Prop :=
  match s with EmptyString => True | String c r => c <> "/"%char /\ no_slash r end.
Definition child (pre full n : string) (deep : bool) : Prop :=
  n <> ""%string /\ no_slash n /\
  if deep then exists tail, full = pre +:+ n +:+ "/" +:+ tail else full = pre +:+ n.
(** What the paths under a directory begin with. *)
Definition under (p : string) : string := if String.eqb p "/" then p else p +:+ "/".

Lemma String_append_assoc a b c : (a +:+ b) +:+ c = a +:+ (b +:+ c).
Proof. induction a as [|x a IH]; [done|]. by rewrite !append_cons, IH. Qed.
Lemma String_append_inj a b c : a +:+ b = a +:+ c -> b = c.
Proof. induction a as [|x a IH]; [done|]. rewrite !append_cons. intros [= H]. by apply IH. Qed.
Lemma after_prefix_iff pre s r : after_prefix pre s = Some r <-> s = pre +:+ r.
Proof.
  revert s. induction pre as [|c pre IH]; intros s; [split; [by intros [= ->]|by intros ->]|].
  destruct s as [|d s]; rewrite append_cons; cbn; [by split|].
  destruct (Ascii.eqb_spec c d) as [<-|Hn]; [rewrite IH; split; [by intros ->|by intros [=]]|].
  split; [done|by intros [= <-]].
Qed.
Lemma component_iff s n more :
  component s = (n, more) <->
  no_slash n /\ if more then exists tail, s = n +:+ "/" +:+ tail else s = n.
Proof.
  revert n. induction s as [|c s IH]; intros n; cbn [component].
  - split; [by intros [= <- <-]|]. intros [_ Hm]. destruct more; [|by rewrite <- Hm].
    destruct Hm as [tail Hm]. by destruct n.
  - destruct (Ascii.eqb_spec c "/"%char) as [->|Hc].
    + split; [intros [= <- <-]; split; [done|by exists s]|].
      intros [Hn Hm]. destruct n as [|d n].
      * destruct more; [done|by rewrite append_nil in Hm || discriminate].
      * destruct Hn as [Hd _]. exfalso. apply Hd. destruct more; [destruct Hm as [tail Hm]|]; by injection Hm.
    + destruct (component s) as [m b] eqn:E. split.
      * intros [= <- <-]. destruct (proj1 (IH m) eq_refl) as [Hm Hb]. split; [done|].
        destruct b; [destruct Hb as [tail ->]; by exists tail|by rewrite Hb].
      * intros [Hn Hm]. destruct n as [|d n].
        { destruct more; [destruct Hm as [tail Hm]|]; [by injection Hm|done]. }
        destruct Hn as [_ Hn]. assert ((m, b) = (n, more)) as [= -> ->].
        { apply IH. split; [done|]. destruct more; [destruct Hm as [tail Hm]; exists tail|]; by injection Hm. }
        destruct more; [destruct Hm as [tail Hm]|]; by injection Hm as ->.
Qed.

(** One path adds the child it stands under, if any. *)
Lemma consider_child p leaf ent full n deep :
  child (p +:+ "/") full n deep ->
  consider p leaf ent full = put_entry n (if deep || leaf then kDtDir else kDtReg) ent.
Proof.
  intros (Hne & Hns & Hf). unfold consider.
  assert (exists rest, after_prefix (p +:+ "/") full = Some rest /\ component rest = (n, deep)) as (rest & -> & ->).
  { destruct deep; [destruct Hf as [tail ->]; exists (n +:+ "/" +:+ tail)|subst full; exists n];
      (split; [by apply after_prefix_iff|apply component_iff; split; [done|]]);
      [by exists tail|done]. }
  by destruct (String.eqb_spec n "").
Qed.
Lemma consider_other p leaf ent full n :
  (forall deep, ~ child (p +:+ "/") full n deep) -> consider p leaf ent full !! n = ent !! n.
Proof.
  intros Hc. unfold consider. destruct (after_prefix (p +:+ "/") full) as [rest|] eqn:Er; [|done].
  destruct (component rest) as [m more] eqn:Em. destruct (String.eqb_spec m "") as [|Hm]; [done|].
  apply after_prefix_iff in Er. apply component_iff in Em as [Hs Hr].
  assert (m <> n) as Hn.
  { intros ->. apply (Hc more). split; [done|]. split; [done|].
    rewrite Er. destruct more; [destruct Hr as [tail ->]; by exists tail|by rewrite Hr]. }
  unfold put_entry. destruct (ent !! m); [destruct (_ =? _)|]; by rewrite ?lookup_insert_ne.
Qed.

(** *** A whole list of paths *)

Lemma put_same n t ent :
  put_entry n t ent !! n = Some (if t =? kDtDir then kDtDir else default t (ent !! n)).
Proof.
  unfold put_entry. destruct (ent !! n) as [o|] eqn:E; destruct (Z.eqb_spec t kDtDir) as [->|];
    by rewrite ?lookup_insert_eq.
Qed.
Lemma child_dec pre full n : (exists deep, child pre full n deep) \/ (forall deep, ~ child pre full n deep).
Proof.
  destruct (after_prefix pre full) as [rest|] eqn:Er.
  - destruct (component rest) as [m more] eqn:Em. apply after_prefix_iff in Er. apply component_iff in Em as [Hs Hr].
    destruct (decide (m = n)) as [->|Hn].
    + destruct (decide (n = ""%string)) as [->|Hne]; [right; by intros deep []|].
      left. exists more. split; [done|]. split; [done|]. rewrite Er.
      destruct more; [destruct Hr as [tail ->]; by exists tail|by rewrite Hr].
    + right. intros deep (_ & Hns & Hf). apply Hn.
      assert (component rest = (n, deep)) as Ec.
      { apply component_iff. split; [done|]. rewrite Er in Hf.
        destruct deep; [destruct Hf as [tail Hf]; exists tail|]; by apply String_append_inj in Hf. }
      assert (component rest = (m, more)) as Ec' by (by apply component_iff). congruence.
  - right. intros deep (_ & _ & Hf).
    assert (is_Some (after_prefix pre full)) as [r Hr]; [|congruence].
    destruct deep; [destruct Hf as [tail ->]|subst full]; eexists; by apply after_prefix_iff.
Qed.

(** The type a name has after the paths of [l], by what it was before. *)
Lemma fold_type p leaf l ent n :
  let r := fold_left (consider p leaf) l ent !! n in
  ((exists full deep, full ∈ l /\ child (p +:+ "/") full n deep /\ deep || leaf = true) /\ r = Some kDtDir) \/
  ((forall full deep, full ∈ l -> child (p +:+ "/") full n deep -> deep || leaf = false) /\
   (((exists full deep, full ∈ l /\ child (p +:+ "/") full n deep) /\ r = Some (default kDtReg (ent !! n))) \/
    ((forall full deep, full ∈ l -> ~ child (p +:+ "/") full n deep) /\ r = ent !! n))).
Proof.
  revert ent. induction l as [|x l IH]; intros ent; cbn zeta.
  { right. split; [intros ?? H; by apply not_elem_of_nil in H|]. right. split; [|done].
    intros ?? H. by apply not_elem_of_nil in H. }
  cbn [fold_left]. specialize (IH (consider p leaf ent x)). cbn zeta in IH.
  destruct (child_dec (p +:+ "/") x n) as [[d Hd]|Hno].
  - pose proof (consider_child p leaf ent x n d Hd) as Ec.
    assert (consider p leaf ent x !! n = Some (if d || leaf then kDtDir else default kDtReg (ent !! n))) as Ex.
    { rewrite Ec, put_same. by destruct (d || leaf). }
    destruct (d || leaf) eqn:Edl.
    + left. split; [exists x, d; split; [apply list_elem_of_here|done]|].
      destruct IH as [[_ ->]|[_ [[_ ->]|[_ ->]]]]; [done|by rewrite Ex|by rewrite Ex].
    + destruct IH as [[(f & e & Hf & Hc & He) Hr]|[Hall Hr]].
      * left. split; [exists f, e; split; [by apply list_elem_of_further|done]|done].
      * right. split.
        { intros f e [->|Hf]%elem_of_cons Hc; [|by apply (Hall f)].
          destruct Hd as (_ & Hs1 & Hf1), Hc as (_ & _ & Hf2). destruct e, d; try done.
          exfalso. destruct Hf2 as [tail Hf2]. rewrite Hf1 in Hf2.
          apply String_append_inj in Hf2. apply (f_equal String.length) in Hf2.
          rewrite string_length_append in Hf2. rewrite string_length_append in Hf2. cbn in Hf2. lia. }
        left. split; [exists x, d; split; [apply list_elem_of_here|done]|].
        destruct Hr as [[_ ->]|[_ ->]]; by rewrite Ex.
  - rewrite (consider_other p leaf ent x n Hno) in IH.
    destruct IH as [[(f & e & Hf & Hc & He) Hr]|[Hall Hr]].
    + left. split; [exists f, e; split; [by apply list_elem_of_further|done]|done].
    + right. split; [intros f e [->|Hf]%elem_of_cons Hc; [by destruct (Hno e)|by apply (Hall f)]|].
      destruct Hr as [[(f & e & Hf & Hc) ->]|[Hnone ->]].
      * left. split; [exists f, e; split; [by apply list_elem_of_further|done]|done].
      * right. split; [|done]. intros f e [->|Hf]%elem_of_cons; [apply Hno|by apply Hnone].
Qed.

(** *** The listing *)

(** A directory stands at [n] or above something that does; a file stands at
    [n]; [n] is one of the two network interfaces. *)
Definition has_dir (v : Vfs) (pre n : string) : Prop :=
  exists full, (full ∈ dirs_ v /\ exists deep, child pre full n deep) \/
               (is_Some (store_ v !! full) /\ child pre full n true).
Definition has_file (v : Vfs) (pre n : string) : Prop :=
  exists full, is_Some (store_ v !! full) /\ child pre full n false.
Definition has_link (p n : string) : Prop := p = "/sys/class/net"%string /\ (n = "lo" \/ n = "wlan0")%string.

Lemma sorted_elem (l : list string) x : x ∈ sorted l <-> x ∈ l.
Proof. unfold sorted. by rewrite merge_sort_Permutation. Qed.
Lemma sorted_files v x : x ∈ sorted (map_to_list (store_ v)).*1 <-> is_Some (store_ v !! x).
Proof.
  rewrite sorted_elem, list_elem_of_fmap. split.
  - intros ([k c] & -> & Hk%elem_of_map_to_list). by exists c.
  - intros [c Hc]. exists (x, c). split; [done|]. by apply elem_of_map_to_list.
Qed.
Lemma well_known_lookup p n :
  (has_link p n /\ well_known p !! n = Some kDtLnk) \/ (~ has_link p n /\ well_known p !! n = None).
Proof.
  unfold well_known, has_link. destruct (String.eqb_spec p "/sys/class/net") as [->|Hp]; [|right; split; [by intros []|done]].
  destruct (decide (n = "wlan0"%string)) as [->|Hw]; [left; split; [split; [done|by right]|done]|].
  destruct (decide (n = "lo"%string)) as [->|Hl]; [left; split; [split; [done|by left]|done]|].
  right. split; [intros [_ []]; done|].
  change (put_entry "wlan0" kDtLnk (put_entry "lo" kDtLnk ∅))
    with (<["wlan0"%string := kDtLnk]> (<["lo"%string := kDtLnk]> (∅ : gmap string Z))).
  by rewrite !lookup_insert_ne by done.
Qed.

(** The type a name has among the paths that begin with [pre], and the type
    it has in the directory [p]. *)
Definition typed (v : Vfs) (p pre n : string) (t : Z) : Prop :=
  (has_dir v pre n /\ t = kDtDir) \/
  (~ has_dir v pre n /\ has_link p n /\ t = kDtLnk) \/
  (~ has_dir v pre n /\ ~ has_link p n /\ has_file v pre n /\ t = kDtReg).
Definition listed (v : Vfs) (p n : string) (t : Z) : Prop := typed v p (under p) n t.

Lemma dir_map_type v p n t : dir_map v p !! n = Some t <-> typed v p (p +:+ "/") n t.
Proof.
  unfold dir_map. set (files := sorted (map_to_list (store_ v)).*1). set (dirs := sorted (elements (dirs_ v))).
  set (ent := fold_left (consider p false) files (well_known p)).
  assert (forall x, x ∈ files <-> is_Some (store_ v !! x)) as Hfs by apply sorted_files.
  assert (forall x, x ∈ dirs <-> x ∈ dirs_ v) as Hds by (intros x; unfold dirs; by rewrite sorted_elem, elem_of_elements).
  pose proof (fold_type p false files (well_known p) n) as H1. cbn zeta in H1. fold ent in H1.
  pose proof (fold_type p true dirs ent n) as H2'. cbn zeta in H2'. set (r := fold_left _ dirs ent !! n) in *.
  unfold typed.
  destruct H2' as [[(x & d & Hx & Hc & _) ->]|[Hnd Hr]].
  { assert (has_dir v (p +:+ "/") n) as Hd by (exists x; left; split; [by apply Hds|by exists d]).
    split; [intros [= <-]; by left|by intros [[_ ->]|[[? _]|[? _]]]]. }
  assert (forall x d, x ∈ dirs -> ~ child (p +:+ "/") x n d) as Hnod.
  { intros x d Hx Hc. specialize (Hnd x d Hx Hc). by rewrite orb_true_r in Hnd. }
  destruct Hr as [[(x & d & Hx & Hc) _]|[_ ->]]; [by destruct (Hnod x d Hx)|].
  destruct H1 as [[(x & d & Hx & Hc & Hd) ->]|[Hnf Hr]].
  { rewrite orb_false_r in Hd. subst d.
    assert (has_dir v (p +:+ "/") n) as Hd by (exists x; right; split; [by apply Hfs|done]).
    split; [intros [= <-]; by left|by intros [[_ ->]|[[? _]|[? _]]]]. }
  assert (~ has_dir v (p +:+ "/") n) as Hno.
  { intros [x [[Hx [d Hc]]|[Hx Hc]]]; [apply Hds in Hx; by apply (Hnod x d)|].
    apply Hfs in Hx. by specialize (Hnf x true Hx Hc). }
  assert (has_file v (p +:+ "/") n <-> exists x d, x ∈ files /\ child (p +:+ "/") x n d) as Hfile.
  { split; [intros (x & Hx & Hc); exists x, false; by rewrite Hfs|].
    intros (x & d & Hx & Hc). exists x. rewrite <- Hfs. split; [done|].
    specialize (Hnf x d Hx Hc). rewrite orb_false_r in Hnf. by subst d. }
  destruct (well_known_lookup p n) as [[Hl Ew]|[Hl Ew]]; rewrite Ew in Hr.
  - assert (ent !! n = Some kDtLnk) as -> by (by destruct Hr as [[_ ->]|[_ ->]]).
    split; [intros [= <-]; by right; left|]. by intros [[? _]|[(_ & _ & ->)|(_ & ? & _)]].
  - destruct Hr as [[Hx ->]|[Hx ->]].
    + split; [intros [= <-]; right; right; by rewrite Hfile|]. by intros [[? _]|[(_ & ? & _)|(_ & _ & _ & ->)]].
    + split; [done|]. intros [[? _]|[(_ & ? & _)|(_ & _ & Hf & _)]]; [done..|].
      apply Hfile in Hf as (x & d & Hf & Hc). by destruct (Hx x d Hf).
Qed.

(** What has a type has it from a path that begins so. *)
Lemma typed_held v p pre n t :
  typed v p pre n t -> ~ has_link p n -> exists r, pre +:+ r ∈ dirs_ v \/ is_Some (store_ v !! (pre +:+ r)).
Proof.
  assert (forall full deep, child pre full n deep -> exists r, full = pre +:+ r) as Hc.
  { intros full deep (_ & _ & Hf). destruct deep; [destruct Hf as [tail ->]|subst full]; by eexists. }
  intros [[(full & Hd) _]|[(_ & Hl & _)|(_ & _ & (full & Hs & Hf) & _)]] Hn; [|done|].
  - destruct Hd as [[Hd [deep Hf]]|[Hd Hf]]; destruct (Hc _ _ Hf) as [r ->]; exists r; [by left|by right].
  - destruct (Hc _ _ Hf) as [r ->]. exists r. by right.
Qed.

(** C17: A directory other than the root lists [.] and [..], then, sorted and each
    once, exactly the names something stands under: a directory when one is
    registered there or anything lies deeper, one of the two network
    interfaces as a link, else a regular file.  The root lists, after the
    same two, only names that stand under a doubled slash, so for
    the paths as they are registered, none: what stands under [/] is not seen. *)
Theorem dir_listing v path :
  let p := trim_path path in
  let l := dir_entries v path in
  take 2 l = [("."%string, kDtDir); (".."%string, kDtDir)] /\
  NoDup (drop 2 l).*1 /\ StronglySorted String.le (drop 2 l).*1 /\
  if String.eqb p "/" then
    forall n t, (n, t) ∈ drop 2 l -> exists r, "//" +:+ r ∈ dirs_ v \/ is_Some (store_ v !! ("//" +:+ r))
  else forall n t, (n, t) ∈ drop 2 l <-> listed v p n t.
Proof.
  cbn zeta. unfold dir_entries. set (p := trim_path path). set (ent := dir_map v p).
  change (drop 2 ([("."%string, kDtDir); (".."%string, kDtDir)] ++ ?l)) with l.
  split; [done|]. rewrite <- list_fmap_compose.
  assert ((fst ∘ (fun n : string => (n, default 0 (ent !! n)))) <$> sorted (map_to_list ent).*1 = sorted (map_to_list ent).*1)
    as -> by (apply list_fmap_id).
  split; [unfold sorted; rewrite merge_sort_Permutation; apply NoDup_fst_map_to_list|].
  split; [apply (StronglySorted_merge_sort String.le)|].
  assert (forall n t, (n, t) ∈ (fun n : string => (n, default 0 (ent !! n))) <$> sorted (map_to_list ent).*1 <->
    typed v p (p +:+ "/") n t) as Ht.
  { intros n t. rewrite <- dir_map_type. fold ent. rewrite list_elem_of_fmap. split.
    - intros (m & [= -> ->] & Hm). rewrite sorted_elem, list_elem_of_fmap in Hm.
      destruct Hm as ([k c] & -> & Hk%elem_of_map_to_list). cbn. by rewrite Hk.
    - intros Hn. exists n. rewrite Hn. split; [done|]. rewrite sorted_elem, list_elem_of_fmap.
      exists (n, t). split; [done|]. by apply elem_of_map_to_list. }
  unfold listed, under. destruct (String.eqb_spec p "/") as [Ep|_]; [|exact Ht].
  intros n t Hn. apply Ht in Hn. rewrite Ep in Hn. refine (typed_held _ _ _ _ _ Hn _). by intros [].
Qed.

(** The root, a directory, and an empty name, over a file system that holds
    [/system/bin/sh] and [/system/build.prop]. *)
Definition demo_tree : Vfs :=
  snd ((_ ← add_file "/system/build.prop" []; add_file "/system/bin/sh" []) (init_vfs false)).

Lemma dir_listing_witness :
  (forall n t, (n, t) ∈ drop 2 (dir_entries demo_tree "/system/") <-> listed demo_tree "/system" n t) /\
  dir_entries demo_tree "/" = [("."%string, kDtDir); (".."%string, kDtDir)] /\
  dir_entries demo_tree "/system/" =
    [("."%string, kDtDir); (".."%string, kDtDir); ("bin"%string, kDtDir); ("build.prop"%string, kDtReg)].
Proof.
  split; [|vm_compute; by split]. apply (dir_listing demo_tree "/system/").
Defined.
