(* ===== verification/InstallPaths.v ===== *)
(** Install paths of the emulated app: [core/android/android_env.cpp],
    [base64url_nopad], [android_code_path], [apply_install_paths].

    The directory names are tokens of 16 bytes drawn from a generator that the
    package name seeds.  A token is checked against a reference decoder: no
    two byte strings share one, and none holds a slash. *)

From stdpp Require Import strings.
From S2P Require Import Prelude.
From S2P Require Import Words.
From S2P Require Import CText.
From S2P Require Import System.
#[local] Open Scope Z_scope.

(** ** The generator *)

Definition fnv1a (s : list Z) : Z :=
  fold_left (fun h c => u64 (Z.lxor h c * 1099511628211)) s 1469598103934665603.
(** The output and the next state. *)
Definition splitmix64 (x : Z) : Z * Z :=
  let x := u64 (x + 0x9E3779B97F4A7C15) in
  let z := u64 (Z.lxor x (Z.shiftr x 30) * 0xBF58476D1CE4E5B9) in
  let z := u64 (Z.lxor z (Z.shiftr z 27) * 0x94D049BB133111EB) in
  (Z.lxor z (Z.shiftr z 31), x).
(** [n] bytes, eight to a draw. *)
Fixpoint fill_loop (fuel : nat) (state : Z) (n : nat) : list Z * Z :=
  match fuel, n with
  | S k, S _ =>
      let '(r, state) := splitmix64 state in
      let '(l, state) := fill_loop k state (n - 8) in
      (take n (le_bytes 8 r) ++ l, state)
  | _, _ => ([], state)
  end.
Definition fill_bytes (state : Z) (n : nat) : list Z * Z := fill_loop n state n.

(** ** base64url *)

Definition alphabet : list Z := bs "ABCDEFGHIJKLMNOPQRSTUVWXYZabcdefghijklmnopqrstuvwxyz0123456789-_".
Definition digit (v : Z) : Z := nth (Z.to_nat (Z.land v 63)) alphabet 0.
Fixpoint base64url_nopad (data : list Z) : list Z :=
  match data with
  | a :: b :: c :: r =>
      let v := Z.lor (Z.lor (Z.shiftl a 16) (Z.shiftl b 8)) c in
      digit (Z.shiftr v 18) :: digit (Z.shiftr v 12) :: digit (Z.shiftr v 6) :: digit v :: base64url_nopad r
  | [a] => let v := Z.shiftl a 16 in [digit (Z.shiftr v 18); digit (Z.shiftr v 12)]
  | [a; b] =>
      let v := Z.lor (Z.shiftl a 16) (Z.shiftl b 8) in
      [digit (Z.shiftr v 18); digit (Z.shiftr v 12); digit (Z.shiftr v 6)]
  | [] => []
  end.

(** ** Paths *)

Definition token (l : list Z) : string := text (base64url_nopad l).
Definition android_code_path (package : string) (sdk seed : Z) : string :=
  let state := if seed =? 0 then Z.lxor (fnv1a (bs package)) 0xA5A5A5A5A5A5A5A5 else seed in
  let '(t1, state) := fill_bytes state 16 in
  let '(t2, _) := fill_bytes state 16 in
  let suffix := token t2 in
  if 30 <=? sdk then "/data/app/~~" +:+ token t1 +:+ "/" +:+ package +:+ "-" +:+ suffix
  else if 26 <=? sdk then "/data/app/" +:+ package +:+ "-" +:+ suffix
  else "/data/app/" +:+ package +:+ "-1".
Definition apply_install_paths (id : DeviceIdentity) (lib_arch : string) (seed : Z) : DeviceIdentity :=
  let code := android_code_path (package_name id) (sdk_int id) seed in
  mkIdentity (package_name id) (code +:+ "/base.apk") ("/data/user/0/" +:+ package_name id +:+ "/files")
             (code +:+ "/lib/" +:+ lib_arch) (model id) (manufacturer id) (fingerprint id) (sdk_int id)
             (signing_cert id).

Example tokens_of_bytes :
  token [0x4d; 0x61; 0x6e] = "TWFu"%string /\ token [0x4d] = "TQ"%string /\ token [0xfb; 0xff] = "-_8"%string /\
  String.length (token (fst (fill_bytes 0 16))) = 22%nat.
Proof. vm_compute. done. Qed.

(** ** A reference decoder *)

Definition undigit (c : Z) : Z := Z.of_nat (default O (fst <$> list_find (eq c) alphabet)).
(** The value of a group, and the bytes it is made of. *)
Fixpoint undigits (l : list Z) : Z :=
  match l with [] => 0 | c :: r => undigit c * 64 ^ zlen r + undigits r end.
Fixpoint decode (l : list Z) : list Z :=
  match l with
  | a :: b :: c :: d :: r =>
      let v := undigits [a; b; c; d] in [v / 65536; v / 256 mod 256; v mod 256] ++ decode r
  | [a; b] => [undigits [a; b] / 16]
  | [a; b; c] => let v := undigits [a; b; c] in [v / 1024; v / 4 mod 256]
  | _ => []
  end.

Lemma undigit_digit v : undigit (digit v) = v mod 64.
Proof.
  unfold digit. change 63 with (Z.ones 6). rewrite Z.land_ones by lia. change (2 ^ 6) with 64.
  pose proof (Z.mod_pos_bound v 64 ltac:(lia)) as Hb. set (k := v mod 64) in *. clearbody k.
  assert (forallb (fun k => undigit (nth (Z.to_nat k) alphabet 0) =? k) (seqZ 0 64) = true) as Ha by (vm_compute; done).
  rewrite forallb_forall in Ha. apply Z.eqb_eq, Ha, base.list_elem_of_In, elem_of_seqZ. lia.
Qed.
Lemma digit_in v : digit v ∈ alphabet.
Proof.
  unfold digit. apply base.list_elem_of_In, nth_In. change 63 with (Z.ones 6). rewrite Z.land_ones by lia.
  pose proof (Z.mod_pos_bound v (2 ^ 6) ltac:(lia)) as Hb. change (length alphabet) with 64%nat. lia.
Qed.

Lemma group_value a b c : 0 <= b < 256 -> 0 <= c < 256 ->
  Z.lor (Z.lor (Z.shiftl a 16) (Z.shiftl b 8)) c = 65536 * a + 256 * b + c.
Proof.
  intros Hb Hc.
  assert (Z.lor (Z.shiftl a 16) (Z.shiftl b 8) = Z.shiftl (256 * a + b) 8) as ->.
  { rewrite (Z.shiftl_mul_pow2 b) by lia. rewrite lor_add_shift by lia. rewrite Z.shiftl_mul_pow2 by lia. lia. }
  rewrite lor_add_shift by lia. lia.
Qed.
Lemma undigit_shift v k : 0 <= k -> undigit (digit (Z.shiftr v k)) = v / 2 ^ k mod 64.
Proof. intros Hk. by rewrite undigit_digit, Z.shiftr_div_pow2. Qed.

Lemma base64_ind (P : list Z -> Prop) :
  P [] -> (forall a, P [a]) -> (forall a b, P [a; b]) -> (forall a b c r, P r -> P (a :: b :: c :: r)) ->
  forall l, P l.
Proof.
  intros H0 H1 H2 H3. refine (fix go l := _). destruct l as [|a [|b [|c r]]]; [done|apply H1|apply H2|apply H3, go].
Qed.

Lemma undigits_2 a b : undigits [a; b] = undigit a * 64 + undigit b.
Proof. cbn [undigits]. change (64 ^ zlen [b]) with 64. change (64 ^ zlen []) with 1. lia. Qed.
Lemma undigits_3 a b c : undigits [a; b; c] = undigit a * 4096 + undigits [b; c].
Proof. cbn [undigits]. by change (64 ^ zlen [b; c]) with 4096. Qed.
Lemma undigits_4 a b c d : undigits [a; b; c; d] = undigit a * 262144 + undigits [b; c; d].
Proof. cbn [undigits]. by change (64 ^ zlen [b; c; d]) with 262144. Qed.

(** The digits of a group spell its bits, the last ones cut off. *)
Lemma undigits_group v : 0 <= v < 2 ^ 24 ->
  undigits [digit (Z.shiftr v 18); digit (Z.shiftr v 12); digit (Z.shiftr v 6); digit v] = v /\
  undigits [digit (Z.shiftr v 18); digit (Z.shiftr v 12); digit (Z.shiftr v 6)] = v / 64 /\
  undigits [digit (Z.shiftr v 18); digit (Z.shiftr v 12)] = v / 4096.
Proof.
  intros Hv. rewrite undigits_4, !undigits_3, !undigits_2, !undigit_shift, undigit_digit by lia.
  change (2 ^ 18) with 262144. change (2 ^ 12) with 4096. change (2 ^ 6) with 64.
  split; [|split]; Z.div_mod_to_equations; lia.
Qed.

Lemma decode_base64 l : bytes_ok l -> decode (base64url_nopad l) = l.
Proof.
  induction l as [|a|a b|a b c r IH] using base64_ind; intros Hl; [done|..]; cbn [base64url_nopad decode].
  - apply Forall_cons in Hl as [Ha _]. unfold is_byte in Ha. rewrite Z.shiftl_mul_pow2 by lia.
    destruct (undigits_group (a * 2 ^ 16)) as (_ & _ & ->); [lia|]. f_equal. Z.div_mod_to_equations. lia.
  - apply Forall_cons in Hl as [Ha Hl]. apply Forall_cons in Hl as [Hb _]. unfold is_byte in Ha, Hb.
    pose proof (group_value a b 0 Hb ltac:(lia)) as E. rewrite Z.lor_0_r in E. rewrite E.
    destruct (undigits_group (65536 * a + 256 * b + 0)) as (_ & -> & _); [lia|].
    f_equal; [|f_equal]; Z.div_mod_to_equations; lia.
  - apply Forall_cons in Hl as [Ha Hl]. apply Forall_cons in Hl as [Hb Hl]. apply Forall_cons in Hl as [Hc Hl].
    unfold is_byte in Ha, Hb, Hc. rewrite (IH Hl), (group_value a b c Hb Hc).
    destruct (undigits_group (65536 * a + 256 * b + c)) as (-> & _); [lia|]. cbn [app].
    f_equal; [|f_equal; [|f_equal]]; Z.div_mod_to_equations; lia.
Qed.
Lemma base64_chars l : Forall (fun c => c ∈ alphabet) (base64url_nopad l).
Proof.
  induction l as [|a|a b|a b c r IH] using base64_ind; cbn [base64url_nopad];
    repeat apply Forall_cons_2; try apply digit_in; try apply Forall_nil_2. done.
Qed.
Lemma length_base64 l : length (base64url_nopad l) = ((4 * length l + 2) / 3)%nat.
Proof.
  induction l as [|a|a b|a b c r IH] using base64_ind; [done..|]. cbn [base64url_nopad length]. rewrite IH.
  replace (4 * S (S (S (length r))) + 2)%nat with (4 * length r + 2 + 4 * 3)%nat by lia.
  rewrite Nat.div_add by lia. lia.
Qed.

(** ** Drawing bytes *)

Lemma fill_loop_spec k : forall state n, (n <= k)%nat ->
  length (fill_loop k state n).1 = n /\ bytes_ok (fill_loop k state n).1.
Proof.
  induction k as [|k IH]; intros state n Hn; [by replace n with 0%nat by lia; split; [|apply Forall_nil_2]|].
  destruct n as [|n]; [by split; [|apply Forall_nil_2]|]. cbn [fill_loop].
  destruct (splitmix64 state) as [r state1] eqn:E1.
  destruct (IH state1 (S n - 8)%nat ltac:(lia)) as [Hl Hb]. destruct (fill_loop k state1 (S n - 8)) as [l state2].
  cbn [fst] in *. split.
  - rewrite length_app, length_take, length_le_bytes, Hl. lia.
  - apply Forall_app. split; [apply Forall_take, le_bytes_ok|done].
Qed.
Lemma fill_bytes_spec state n : length (fill_bytes state n).1 = n /\ bytes_ok (fill_bytes state n).1.
Proof. by apply fill_loop_spec. Qed.

(** ** Paths as bytes *)

Lemma bs_cons c s : bs (String c s) = Z.of_N (Ascii.N_of_ascii c) :: bs s.
Proof. done. Qed.
Lemma bs_app s t : bs (s +:+ t) = bs s ++ bs t.
Proof. induction s as [|c s IH]; [done|]. change (String c s +:+ t) with (String c (s +:+ t)). by rewrite !bs_cons, IH. Qed.
Lemma bs_inj s t : bs s = bs t -> s = t.
Proof.
  revert t. induction s as [|c s IH]; intros [|d t]; [done..|]. rewrite !bs_cons. intros [= E Et]. f_equal.
  - rewrite <- (Ascii.ascii_N_embedding c), <- (Ascii.ascii_N_embedding d). f_equal. lia.
  - by apply IH.
Qed.
Lemma bs_text l : bytes_ok l -> bs (text l) = l.
Proof.
  induction 1 as [|c l Hc _ IH]; [done|]. unfold is_byte in Hc.
  change (bs (text (c :: l))) with (Z.of_N (Ascii.N_of_ascii (Ascii.ascii_of_N (Z.to_N c))) :: bs (text l)).
  rewrite IH, Ascii.N_ascii_embedding by lia. f_equal. lia.
Qed.
Lemma alphabet_bytes c : c ∈ alphabet -> is_byte c /\ c <> 47.
Proof.
  assert (forallb (fun c => (0 <=? c) && (c <? 256) && negb (c =? 47)) alphabet = true) as Ha by (vm_compute; done).
  rewrite forallb_forall in Ha. intros Hc%base.list_elem_of_In%Ha. unfold is_byte. lia.
Qed.
Lemma bs_token l : bs (token l) = base64url_nopad l.
Proof.
  apply bs_text. eapply Forall_impl; [apply base64_chars|]. by intros c [Hc _]%alphabet_bytes.
Qed.

(** What the path is made of, as bytes. *)
Lemma code_path_shape p sdk seed : exists t1 t2,
  length t1 = 16%nat /\ length t2 = 16%nat /\ bytes_ok t1 /\ bytes_ok t2 /\
  bs (android_code_path p sdk seed) =
    if 30 <=? sdk then bs "/data/app/~~" ++ base64url_nopad t1 ++ [47] ++ bs p ++ [45] ++ base64url_nopad t2
    else if 26 <=? sdk then bs "/data/app/" ++ bs p ++ [45] ++ base64url_nopad t2
    else bs "/data/app/" ++ bs p ++ bs "-1".
Proof.
  unfold android_code_path. set (state := if seed =? 0 then _ else _).
  destruct (fill_bytes_spec state 16) as [L1 B1]. destruct (fill_bytes state 16) as [t1 state1].
  destruct (fill_bytes_spec state1 16) as [L2 B2]. destruct (fill_bytes state1 16) as [t2 state2].
  exists t1, t2. do 4 (split; [done|]). destruct (30 <=? sdk); [|destruct (26 <=? sdk)]; by rewrite !bs_app, ?bs_token.
Qed.

(** Two packages never share an install directory, whatever their seeds, on
    any API level. *)
Lemma install_dirs_apart p p' sdk seed seed' :
  android_code_path p sdk seed = android_code_path p' sdk seed' -> p = p'.
Proof.
  intros E. apply bs_inj. apply (f_equal bs) in E.
  destruct (code_path_shape p sdk seed) as (t1 & t2 & L1 & L2 & _ & _ & E1).
  destruct (code_path_shape p' sdk seed') as (u1 & u2 & M1 & M2 & _ & _ & E2).
  rewrite E1, E2 in E. clear E1 E2.
  assert (forall t u, length t = 16%nat -> length u = 16%nat -> length (base64url_nopad t) = length (base64url_nopad u))
    as Hlen by (intros t u Ht Hu; by rewrite !length_base64, Ht, Hu).
  destruct (30 <=? sdk); [|destruct (26 <=? sdk)]; apply app_inv_head in E.
  - apply app_inj_1 in E as [_ E]; [|by apply Hlen]. apply app_inv_head in E.
    apply app_inj_2 in E as [E _]; [done|]. cbn. f_equal. by apply Hlen.
  - apply app_inj_2 in E as [E _]; [done|]. cbn. f_equal. by apply Hlen.
  - by apply app_inv_tail in E.
Qed.

Lemma install_dirs_apart_witness : "com.a"%string = "com.a"%string.
Proof. apply (install_dirs_apart "com.a" "com.a" 25 1 2). vm_compute. reflexivity. Defined.
