(* ===== verification/EnvMethods.v ===== *)
(** Java methods the emulated device answers: the lambdas [AndroidEnv] and
    [build_context_graph] of [core/android/android_env.cpp] register.

    Each is a constructor of [EnvMethod], what it captures being the
    constructor's arguments; [env_run] is its body.  A text is the bytes of a
    [std::string].  [props] is the value of VARDOGER_PROPS, if it is set. *)

From stdpp Require Import strings pretty.
From S2P Require Import Prelude.
From S2P Require Import Words.
From S2P Require Import Abi.
From S2P Require Import Unicorn.
From S2P Require Import Engine.
From S2P Require Import Memory.
From S2P Require Import JavaRuntime.
From S2P Require Import Jni.
From S2P Require Import Framework.
#[local] Open Scope Z_scope.

Inductive EnvMethod :=
| EValue (v : DvmValue)          (* a constant, or a handle captured *)
| EText (s : list Z)             (* a new string *)
| EBytes (l : list Z)            (* a new byte array *)
| ENew (cls : string)            (* a new object *)
| EArray (l : list Z)            (* a new array of handles captured *)
| ESelf                          (* the receiver *)
| EField (name : string)         (* a field of the receiver *)
| EFileOf (path : list Z)        (* a new [File] *)
| EDefaultArg
| EGetBytes | ELength | EBuilderInit | EAppend | EBuilderString | EContains | EIsEmpty
| EEqualsIgnoreCase | EEquals | EHashCode | EStringOf | EBoxBoolean | EUnboxBoolean
| EFileInit | EParentFile | ECanonicalPath | EReflect | ESystemProperty
| EStackTrace | EAsList | EGraphProperty | EPathOr.

(** ** Text *)

(** [std::to_string] of a [double], six digits behind the point, rounded to
    the nearest, ties to even. *)
Definition half_even (n d : Z) : Z :=
  let q := n / d in
  let r := 2 * (n mod d) in
  if (d <? r) || ((r =? d) && Z.odd q) then q + 1 else q.
Definition digits6 (v : Z) : list Z :=
  (fun k => 48 + v / 10 ^ (5 - k) mod 10) <$> seqZ 0 6.
Definition double_text (d : Z) : list Z :=
  let sign := if Z.testbit d 63 then bs "-" else [] in
  let e := Z.land (Z.shiftr d 52) 0x7ff in
  let m := Z.land d (Z.ones 52) in
  if e =? 0x7ff then sign ++ (if m =? 0 then bs "inf" else bs "nan")
  else
    let sig := (if e =? 0 then m else 2 ^ 52 + m) * 10 ^ 6 in
    let x := Z.max e 1 - 1075 in
    let n := if 0 <=? x then sig * 2 ^ x else half_even sig (2 ^ (- x)) in
    sign ++ bs (pretty (n / 10 ^ 6)) ++ bs "." ++ digits6 (n mod 10 ^ 6).

(** The keys [System.getProperty] answers. *)
Definition system_props : list (string * string) := [
  ("java.vm.version", "2.1.0"); ("java.vm.name", "Dalvik"); ("java.runtime.name", "Android Runtime");
  ("java.vm.vendor", "The Android Project"); ("os.arch", "aarch64"); ("os.name", "Linux");
  ("os.version", "5.10.0"); ("java.io.tmpdir", "/data/local/tmp"); ("user.dir", "/");
  ("line.separator", String (Ascii.ascii_of_nat 10) ""); ("file.separator", "/"); ("path.separator", ":");
  ("java.vendor", "The Android Project"); ("java.version", "0"); ("http.agent", "Dalvik/2.1.0")]%string.
Definition graph_props : list (string * string) := [
  ("java.vm.version", "2.1.0"); ("java.vm.name", "Dalvik"); ("java.vm.vendor", "The Android Project");
  ("java.runtime.version", "0.9"); ("os.arch", "aarch64"); ("os.name", "Linux"); ("os.version", "4.14.0");
  ("java.io.tmpdir", "/data/local/tmp"); ("user.dir", "/");
  ("line.separator", String (Ascii.ascii_of_nat 10) ""); ("file.separator", "/"); ("path.separator", ":")]%string.
Fixpoint prop_of (l : list (string * string)) (k : list Z) : option (list Z) :=
  match l with
  | [] => None
  | (n, v) :: r => if bool_decide (k = bs n) then Some (bs v) else prop_of r k
  end.

(** VARDOGER_PROPS: [key=value] pairs between semicolons.  The first pair of
    the key counts; a later [=] belongs to the value. *)
Fixpoint find_override (s key val : list Z) (inval : bool) (k : list Z) : option (list Z) :=
  let hit := negb (bool_decide (key = [])) && bool_decide (key = k) in
  match s with
  | [] => if hit then Some val else None
  | c :: r =>
      if c =? 59 then if hit then Some val else find_override r [] [] false k
      else if (c =? 61) && negb inval then find_override r key val true k
      else if inval then find_override r key (val ++ [c]) inval k
      else find_override r (key ++ [c]) val inval k
  end.

Definition stack_frames : list string := [
  "dalvik.system.VMStack"; "java.lang.Thread"; "s.h.e.l.l.N"; "s.h.e.l.l.A"; "android.app.LoadedApk";
  "android.app.LoadedApk"; "android.app.ActivityThread"; "android.app.ActivityThread";
  "android.app.ActivityThread"; "android.os.Handler"; "android.os.Looper"; "android.app.ActivityThread";
  "java.lang.reflect.Method"; "com.android.internal.os.RuntimeInit"; "com.android.internal.os.ZygoteInit"]%string.

(** [p.substr(0, p.find_last_of('/'))], all of it when there is none. *)
Definition parent_or_self (p : list Z) : list Z := if bool_decide (47 ∈ p) then parent_path p else p.
(** [dir], a slash if there is none at its end, [name]. *)
Definition join_path (dir name : list Z) : list Z :=
  dir ++ (if bool_decide (dir = []) || bool_decide (last dir = Some 47) then [] else [47]) ++ name.

(** ** Bodies *)

Section Bodies.
Context {U HM : Type} `{UcOps U}.
#[local] Abbreviation J := (JavaRuntime U HM).
Variable props : option (list Z).

Definition field_text (j : J) (o : Z) (f : string) : option (list Z) :=
  match get_field j o (bs f) with DObject h => string_of j h | _ => None end.
Definition as_str (j : J) (v : DvmValue) : list Z :=
  match v with
  | DObject o => match string_of j o with Some s => s | None => default [] (field_text j o "sb") end
  | DInt i => bs (pretty i)
  | DDouble d => double_text d
  | DVoid => []
  end.
Definition arg_str (j : J) (a : list DvmValue) : list Z := match a with v :: _ => as_str j v | [] => [] end.
Definition int_of (v : DvmValue) : Z := match v with DInt i => i | _ => 0 end.

Definition set_string (o : Z) (f : string) (s : list Z) : M J unit :=
  v ← give_string s; set_field o (bs f) v.
Definition give_new (cls : string) : M J DvmValue := h ← new_object (bs cls); mret (DObject h).
Definition give_array (l : list Z) : M J DvmValue := h ← new_object_array l; mret (DObject h).
Definition give_bytes (l : list Z) : M J DvmValue := h ← new_byte_array l; mret (DObject h).
(** A field that holds a handle, or a new string. *)
Definition field_or (self : Z) (f : string) (s : list Z) : M J DvmValue :=
  j ← get;
  match get_field j self (bs f) with DObject h => mret (DObject h) | _ => give_string s end.
Definition new_file (path : list Z) : M J DvmValue :=
  f ← new_object (bs "java/io/File"); _ ← set_string f "path" path; mret (DObject f).

Definition e_append (self : Z) (a : list DvmValue) : M J DvmValue :=
  j ← get;
  _ ← set_string self "sb" (default [] (field_text j self "sb") ++ arg_str j a);
  mret (DObject self).
Definition e_equals (j : J) (self : Z) (a : list DvmValue) : bool :=
  match string_of j self, a with
  | Some s, v :: _ => bool_decide (s = as_str j v)
  | None, DObject o :: _ => o =? self
  | _, _ => false
  end.
Definition e_file_init (self : Z) (a : list DvmValue) : M J DvmValue :=
  j ← get;
  _ ← set_string self "path"
        match a with
        | x :: y :: _ => join_path (as_str j x) (as_str j y)
        | [x] => as_str j x
        | [] => []
        end;
  mret DVoid.
(** The new [File] comes first. *)
Definition e_parent_file (self : Z) : M J DvmValue :=
  f ← new_object (bs "java/io/File");
  j ← get;
  _ ← set_string f "path" (parent_or_self (default [] (field_text j self "path")));
  mret (DObject f).
Definition e_reflect (self : Z) (a : list DvmValue) : M J DvmValue :=
  m ← new_object (bs "java/lang/reflect/Method");
  _ ← match a with DObject o :: _ => set_field m (bs "name") (DObject o) | _ => skip end;
  _ ← set_field m (bs "declaringClass") (DObject self);
  mret (DObject m).
Definition key_arg (j : J) (a : list DvmValue) : list Z :=
  match a with DObject o :: _ => default [] (string_of j o) | _ => [] end.
Definition e_system_property (a : list DvmValue) : M J DvmValue :=
  j ← get;
  match prop_of system_props (key_arg j a) with
  | Some v => give_string v
  | None => mret match a with _ :: DObject o :: _ => DObject o | _ => DVoid end
  end.
Definition e_graph_property (a : list DvmValue) : M J DvmValue :=
  j ← get;
  let k := key_arg j a in
  match (s ← props; find_override s [] [] false k) with
  | Some v => give_string v
  | None => give_string (default [] (prop_of graph_props k))
  end.
Fixpoint e_frames (l : list string) : M J (list Z) :=
  match l with
  | [] => mret []
  | f :: r =>
      e ← new_object (bs "java/lang/StackTraceElement");
      _ ← set_string e "declaringClass" (bs f);
      es ← e_frames r;
      mret (e :: es)
  end.
Definition e_as_list (a : list DvmValue) : M J DvmValue :=
  match a with
  | DObject o :: _ => if o =? 0 then give_new "java/util/ArrayList" else mret (DObject o)
  | _ => give_new "java/util/ArrayList"
  end.
Definition e_box (a : list DvmValue) : M J DvmValue :=
  b ← new_object (bs "java/lang/Boolean");
  _ ← set_field b (bs "boolval") (of_bool (match a with v :: _ => negb (int_of v =? 0) | [] => false end));
  mret (DObject b).

Definition env_run (f : EnvMethod) (self : Z) (a : list DvmValue) : M J DvmValue :=
  j ← get;
  match f with
  | EValue v => mret v
  | EText s => give_string s
  | EBytes l => give_bytes l
  | ENew cls => give_new cls
  | EArray l => give_array l
  | ESelf => mret (DObject self)
  | EField n => mret (get_field j self (bs n))
  | EFileOf p => new_file p
  | EDefaultArg => mret match a with _ :: v :: _ => v | _ => DVoid end
  | EGetBytes => give_bytes (default [] (string_of j self))
  | ELength => mret (DInt (zlen (default [] (string_of j self))))
  | EBuilderInit => _ ← set_string self "sb" (arg_str j a); mret DVoid
  | EAppend => e_append self a
  | EBuilderString => field_or self "sb" []
  | EContains => mret (of_bool match string_of j self with Some s => has_sub (arg_str j a) s | None => false end)
  | EIsEmpty => mret (of_bool (bool_decide (default [] (string_of j self) = [])))
  | EEqualsIgnoreCase =>
      mret (of_bool match string_of j self with
                    | Some s => bool_decide ((tolower <$> s) = (tolower <$> arg_str j a))
                    | None => false
                    end)
  | EEquals => mret (of_bool (e_equals j self a))
  | EHashCode => mret (DInt (hash_code (default [] (string_of j self))))
  | EStringOf => give_string (arg_str j a)
  | EBoxBoolean => e_box a
  | EUnboxBoolean => mret (DInt (int_of (get_field j self (bs "boolval"))))
  | EFileInit => e_file_init self a
  | EParentFile => e_parent_file self
  | ECanonicalPath => field_or self "path" []
  | EReflect => e_reflect self a
  | ESystemProperty => e_system_property a
  | EStackTrace => es ← e_frames stack_frames; give_array es
  | EAsList => e_as_list a
  | EGraphProperty => e_graph_property a
  | EPathOr => field_or self "path" (bs "/data")
  end.
End Bodies.

Example double_texts :
  double_text 0x3FF0000000000000 = bs "1.000000" /\ double_text 0xBFE0000000000000 = bs "-0.500000" /\
  double_text 0x400921FB54442D18 = bs "3.141593" /\ double_text 0x7FF0000000000000 = bs "inf" /\
  double_text 0x3EB0C6F7A0B5ED8D = bs "0.000001" /\ double_text 0x4340000000000001 = bs "9007199254740994.000000" /\
  double_text 0x3FF0000000000000 <> double_text 0x3FF0010000000000.
Proof. vm_compute. done. Qed.
Example overrides :
  find_override (bs "a=1;b=x=y;a=2;=z") [] [] false (bs "a") = Some (bs "1") /\
  find_override (bs "a=1;b=x=y;a=2;=z") [] [] false (bs "b") = Some (bs "x=y") /\
  find_override (bs "a=1;b=x=y;a=2;=z") [] [] false [] = None.
Proof. vm_compute. done. Qed.
