(* ===== verification/AndroidEnv.v ===== *)
(** The environment of the emulated app: the constructor of [AndroidEnv] and
    [build_context_graph] of [core/android/android_env.cpp],
    [include/vardoger/android/android_env.hpp].

    Both register host methods ([EnvMethods]) with the Java table and build the
    objects packers walk.  [as_host] injects the methods into the host methods
    of the table.  The environment variables that change the graph are
    parameters of it. *)

From stdpp Require Import strings pretty.
From S2P Require Import Prelude.
From S2P Require Import Words.
From S2P Require Import Abi.
From S2P Require Import Unicorn.
From S2P Require Import Engine.
From S2P Require Import Memory.
From S2P Require Import JavaRuntime.
From S2P Require Import Jni.
From S2P Require Import Framework.
From S2P Require Import CText.
From S2P Require Import System.
From S2P Require Import EnvMethods.
#[local] Open Scope Z_scope.

(** ** Pure parts *)

(** The text up to a separator, and what follows it. *)
Fixpoint cut (d : Z) (s : list Z) : list Z * list Z :=
  match s with
  | [] => ([], [])
  | c :: r => if c =? d then ([], r) else let '(a, b) := cut d r in (c :: a, b)
  end.

(** [brand/product/device:release/id/incremental:type/tags] *)
Record BuildParts := mkParts {
  b_brand : list Z; b_product : list Z; b_device : list Z; b_release : list Z;
  b_id : list Z; b_incremental : list Z; b_type : list Z; b_tags : list Z;
}.
Definition or_text (s : list Z) (d : list Z) : list Z := if bool_decide (s = []) then d else s.
Definition build_parts (fp : list Z) : BuildParts :=
  let '(brand, r) := cut 47 fp in
  let '(product, rest) := cut 47 r in
  let '(device, r) := cut 58 rest in
  let '(release, r) := cut 47 r in
  let '(bid, r) := cut 47 r in
  let '(incr, r) := cut 58 r in
  let '(type, tags) := cut 47 r in
  let product := or_text product (bs "raven") in
  mkParts (or_text brand (bs "google")) product (or_text device product) (or_text release (bs "12"))
          (or_text bid (bs "SQ3A.220705.004")) (or_text incr (bs "8836240")) (or_text type (bs "user"))
          (or_text tags (bs "release-keys")).

Definition placeholder_cert : list Z :=
  [0x30; 0x82; 0x00; 0xFC] ++ ((fun i => u8 (0x40 + Z.land i 0x3F)) <$> seqZ 4 252).
Definition filled_cert (c : list Z) : list Z := if bool_decide (c = []) then placeholder_cert else c.
Definition with_cert (id : DeviceIdentity) (c : list Z) : DeviceIdentity :=
  mkIdentity (package_name id) (apk_path id) (data_dir id) (native_lib_dir id) (model id) (manufacturer id)
             (fingerprint id) (sdk_int id) c.

Section Env.
Context {U HM : Type} `{UcOps U}.
#[local] Abbreviation J := (JavaRuntime U HM).
Variable as_host : EnvMethod -> HM.

Fixpoint regs (l : list (string * EnvMethod)) : M J unit :=
  match l with
  | [] => skip
  | (name, f) :: r => _ ← register_method (bs name) (as_host f); regs r
  end.

(** ** The constructor of [AndroidEnv] *)

(** The Application, its ApplicationInfo, and what a Context is asked for. *)
Definition env_context (id : DeviceIdentity) : M J Z :=
  application ← new_object (bs "android/app/Application");
  app_info ← new_object (bs "android/content/pm/ApplicationInfo");
  _ ← set_string app_info "sourceDir" (bs (apk_path id));
  _ ← set_string app_info "nativeLibraryDir" (bs (native_lib_dir id));
  _ ← set_string app_info "dataDir" (bs (data_dir id));
  class_loader ← new_object (bs "dalvik/system/PathClassLoader");
  _ ← regs [
    ("getPackageName", EText (bs (package_name id)));
    ("getPackageCodePath", EText (bs (apk_path id)));
    ("getPackageResourcePath", EText (bs (apk_path id)));
    ("getProperty", EDefaultArg);
    ("getApplicationInfo", EValue (DObject app_info));
    ("getClassLoader", EValue (DObject class_loader));
    ("currentActivityThread", EValue (DObject application));
    ("currentApplication", EValue (DObject application));
    ("getApplication", EValue (DObject application));
    ("getApplicationContext", EValue (DObject application));
    ("getBaseContext", EValue (DObject application));
    ("setApiDenylistExemptions", EValue DVoid);
    ("setHiddenApiExemptions", EValue DVoid);
    ("myUserId", EValue (DInt 0));
    ("getFilesDir", EFileOf (bs (data_dir id)));
    ("getAbsolutePath", EField "path")]%string;
  mret application.

(** [java.lang] and [java.io]. *)
Definition env_library : list (string * EnvMethod) := [
  ("getBytes", EGetBytes); ("length", ELength); ("toString", ESelf);
  ("java/lang/StringBuilder#<init>", EBuilderInit); ("append", EAppend);
  ("java/lang/StringBuilder#toString", EBuilderString);
  ("contains", EContains); ("isEmpty", EIsEmpty); ("equalsIgnoreCase", EEqualsIgnoreCase);
  ("equals", EEquals); ("hashCode", EHashCode); ("toCharArray", EGetBytes);
  ("java/lang/String#valueOf", EStringOf); ("java/lang/String#intern", ESelf);
  ("java/lang/Class#getInterfaces", EArray []);
  ("java/lang/Boolean#valueOf", EBoxBoolean); ("booleanValue", EUnboxBoolean);
  ("java/io/File#<init>", EFileInit); ("exists", EValue (DInt 0)); ("mkdir", EValue (DInt 1));
  ("mkdirs", EValue (DInt 1)); ("getParentFile", EParentFile); ("getCanonicalPath", ECanonicalPath);
  ("readLine", EValue (DObject 0)); ("read", EValue (DInt (-1))); ("close", EValue DVoid);
  ("flush", EValue DVoid); ("load", EValue DVoid); ("loadLibrary", EValue DVoid); ("exit", EValue DVoid);
  ("setAccessible", EValue DVoid); ("getDeclaredMethod", EReflect); ("getMethod", EReflect);
  ("invoke", EValue (DObject 0))]%string.

Definition env_services : M J unit :=
  res ← new_object (bs "android/content/res/Resources");
  am ← new_object (bs "android/content/res/AssetManager");
  regs [
    ("getResources", EValue (DObject res));
    ("getAssets", EValue (DObject am));
    ("currentTimeMillis", EValue (DInt 1700000000000));
    ("nanoTime", EValue (DInt 1700000000000000000));
    ("elapsedRealtime", EValue (DInt 1000000));
    ("uptimeMillis", EValue (DInt 1000000));
    ("getProperty", ESystemProperty)]%string.

(** Static fields of one class, in order. *)
Fixpoint set_texts (cls : string) (l : list (string * list Z)) : M J unit :=
  match l with
  | [] => skip
  | (f, s) :: r => v ← give_string s; _ ← set_static (bs cls) (bs f) v; set_texts cls r
  end.
Fixpoint new_strings (l : list string) : M J (list Z) :=
  match l with [] => mret [] | s :: r => h ← new_string_utf (bs s); hs ← new_strings r; mret (h :: hs) end.
Definition set_abis (f : string) (l : list string) : M J unit :=
  hs ← new_strings l; v ← give_array hs; set_static (bs "android/os/Build") (bs f) v.

(** [Build.*], cut from the fingerprint. *)
Definition build_texts (id : DeviceIdentity) (b : BuildParts) : list (string * list Z) := [
  ("BRAND", b_brand b); ("MANUFACTURER", bs (manufacturer id)); ("MODEL", bs (model id));
  ("PRODUCT", b_product b); ("DEVICE", b_device b); ("BOARD", b_device b); ("HARDWARE", b_device b);
  ("FINGERPRINT", bs (fingerprint id)); ("DISPLAY", b_id b); ("ID", b_id b); ("TYPE", b_type b); ("TAGS", b_tags b);
  ("HOST", bs "abfarm"); ("USER", bs "android-build"); ("BOOTLOADER", bs "unknown");
  ("RADIO", bs "unknown"); ("SERIAL", bs "unknown"); ("CPU_ABI", bs "arm64-v8a"); ("CPU_ABI2", [])]%string.
Definition version_texts (id : DeviceIdentity) (b : BuildParts) : list (string * list Z) := [
  ("RELEASE", b_release b); ("RELEASE_OR_CODENAME", b_release b); ("CODENAME", bs "REL");
  ("INCREMENTAL", b_incremental b); ("SDK", bs (pretty (sdk_int id))); ("SECURITY_PATCH", bs "2022-07-05");
  ("BASE_OS", [])]%string.
Definition env_build (id : DeviceIdentity) : M J unit :=
  let b := build_parts (bs (fingerprint id)) in
  _ ← set_texts "android/os/Build" (build_texts id b);
  _ ← set_abis "SUPPORTED_ABIS" ["arm64-v8a"; "armeabi-v7a"; "armeabi"]%string;
  _ ← set_abis "SUPPORTED_64_BIT_ABIS" ["arm64-v8a"]%string;
  _ ← set_abis "SUPPORTED_32_BIT_ABIS" ["armeabi-v7a"; "armeabi"]%string;
  _ ← set_static (bs "android/os/Build$VERSION") (bs "SDK_INT") (DInt (sdk_int id));
  _ ← set_static (bs "android/os/Build$VERSION") (bs "PREVIEW_SDK_INT") (DInt 0);
  set_texts "android/os/Build$VERSION" (version_texts id b).

(** The signature chain: the package manager's answer, one signature in it,
    and the certificate's bytes. *)
Definition env_signatures (cert : list Z) : M J unit :=
  signature ← new_object (bs "android/content/pm/Signature");
  sig_array ← new_object_array [signature];
  pkg_info ← new_object (bs "android/content/pm/PackageInfo");
  _ ← set_field pkg_info (bs "signatures") (DObject sig_array);
  pm ← new_object (bs "android/content/pm/PackageManager");
  regs [
    ("getPackageManager", EValue (DObject pm));
    ("getPackageInfo", EValue (DObject pkg_info));
    ("toByteArray", EBytes cert)]%string.

Definition android_env (id : DeviceIdentity) : M J (Z * DeviceIdentity) :=
  application ← env_context id;
  _ ← regs env_library;
  _ ← env_services;
  _ ← env_build id;
  let id := with_cert id (filled_cert (signing_cert id)) in
  _ ← env_signatures (signing_cert id);
  mret (application, id).

(** ** [build_context_graph] *)

Record ContextGraphOptions := mkOptions {
  class_loader_class : string;
  app_class : string;
  extra_probes : bool;
}.
Record ContextGraph := mkGraph {
  context : Z; g_application : Z; activity_thread : Z; class_loader : Z; package_info : Z; app_info : Z;
}.
(** [c_str()] *)
Definition c_text (s : string) : list Z := fst (cut 0 (bs s)).

Definition set_new (o : Z) (f cls : string) : M J unit := v ← give_new cls; set_field o (bs f) v.

Definition graph_app_info (id : DeviceIdentity) : M J Z :=
  info ← new_object (bs "android/content/pm/ApplicationInfo");
  _ ← set_string info "sourceDir" (bs (apk_path id));
  _ ← set_string info "publicSourceDir" (bs (apk_path id));
  _ ← set_string info "dataDir" (bs "/data/user/0/" ++ bs (package_name id));
  _ ← set_string info "nativeLibraryDir" (bs (native_lib_dir id));
  _ ← set_string info "packageName" (bs (package_name id));
  _ ← set_field info (bs "flags") (DInt 0);
  mret info.
Definition graph_bind_data (id : DeviceIdentity) (info : Z) : M J Z :=
  bind ← new_object (bs "android/app/ActivityThread$AppBindData");
  _ ← set_field bind (bs "appInfo") (DObject info);
  _ ← set_string bind "processName" (bs (package_name id));
  _ ← set_new bind "providers" "java/util/ArrayList";
  mret bind.
Definition graph_package_info (id : DeviceIdentity) (info : Z) : M J Z :=
  pkg ← new_object (bs "android/content/pm/PackageInfo");
  _ ← set_field pkg (bs "applicationInfo") (DObject info);
  _ ← set_string pkg "packageName" (bs (package_name id));
  sig ← new_object (bs "android/content/pm/Signature");
  _ ← regs [("toByteArray", EBytes (signing_cert id))]%string;
  sigs ← give_array [sig];
  _ ← set_field pkg (bs "signatures") sigs;
  sign_info ← new_object (bs "android/content/pm/SigningInfo");
  _ ← set_field pkg (bs "signingInfo") (DObject sign_info);
  _ ← regs [
    ("getApkContentsSigners", EArray [sig]); ("getSigningCertificateHistory", EArray [sig]);
    ("getPackageInfo", EValue (DObject pkg))]%string;
  mret pkg.

(** The activity thread, the application and the services. *)
Definition graph_activity_thread (opt : ContextGraphOptions) (bind : Z) : M J (Z * Z) :=
  thread ← new_object (bs "android/app/ActivityThread");
  _ ← set_field thread (bs "mBoundApplication") (DObject bind);
  _ ← regs [("currentActivityThread", EValue (DObject thread))]%string;
  app ← new_object (c_text (app_class opt));
  _ ← set_field thread (bs "mInitialApplication") (DObject app);
  _ ← set_new thread "mAllApplications" "java/util/ArrayList";
  binder ← new_object (bs "android/os/BinderProxy");
  _ ← regs [("getContextObject", EValue (DObject binder))]%string;
  sm ← new_object (bs "android/os/IServiceManager");
  _ ← regs [
    ("asInterface", EValue (DObject sm)); ("getService", EValue (DObject binder));
    ("checkService", EValue (DObject binder))]%string;
  mret (thread, app).

Variable no_main_thread no_field_defaults : bool.

Definition graph_class_loader (opt : ContextGraphOptions) (ctx info thread : Z) : M J Z :=
  loader ← new_object (c_text (class_loader_class opt));
  path_list ← new_object (bs "dalvik/system/DexPathList");
  elements ← give_array [];
  _ ← set_field path_list (bs "dexElements") elements;
  _ ← set_field loader (bs "pathList") (DObject path_list);
  loaded_apk ← new_object (bs "android/app/LoadedApk");
  _ ← set_field loaded_apk (bs "mClassLoader") (DObject loader);
  _ ← set_field loaded_apk (bs "mApplicationInfo") (DObject info);
  _ ← set_field ctx (bs "mPackageInfo") (DObject loaded_apk);
  _ ← set_field ctx (bs "mOuterContext") (DObject ctx);
  _ ← (if no_main_thread then skip else set_field ctx (bs "mMainThread") (DObject thread));
  _ ← (if no_field_defaults then skip else
         _ ← set_field_default (bs "mPackageInfo") (DObject loaded_apk);
         _ ← set_field_default (bs "mOuterContext") (DObject ctx);
         if no_main_thread then skip else set_field_default (bs "mMainThread") (DObject thread));
  _ ← set_new thread "mH" "android/app/ActivityThread$H";
  mret loader.

Definition graph_methods (ctx loader thread : Z) : list (string * EnvMethod) := [
  ("currentThread", EValue (DObject thread)); ("getContextClassLoader", EValue (DObject loader));
  ("getSystemContext", EValue (DObject ctx)); ("getSystemContextInner", EValue (DObject ctx));
  ("getStackTrace", EStackTrace); ("getClassName", EField "declaringClass");
  ("sendEmptyMessageDelayed", EValue (DInt 1)); ("sendEmptyMessage", EValue (DInt 1));
  ("sendMessageDelayed", EValue (DInt 1)); ("sendMessage", EValue (DInt 1));
  ("post", EValue (DInt 1)); ("postDelayed", EValue (DInt 1)); ("add", EValue (DInt 1));
  ("asList", EAsList); ("toArray", EArray []); ("iterator", ENew "java/util/Iterator");
  ("hasNext", EValue (DInt 0)); ("enumeration", ENew "java/util/Enumeration");
  ("entries", ENew "java/util/Enumeration"); ("hasMoreElements", EValue (DInt 0));
  ("nextElement", EValue (DObject 0)); ("getProperty", EGraphProperty)]%string.

Definition graph_probes (jdir : list Z) : M J unit :=
  _ ← regs [
    ("getSoPath1", EText (jdir ++ bs "/libjiagu.so")); ("getSoPath2", EText (jdir ++ bs "/libjiagu_64.so"));
    ("checkPermission", EValue (DInt 0)); ("permissionToOp", EText (bs "android:none"))]%string;
  resolver ← new_object (bs "android/content/ContentResolver");
  _ ← regs [
    ("getContentResolver", EValue (DObject resolver)); ("getExternalStorageState", EText (bs "mounted"))]%string;
  data_dir ← new_object (bs "java/io/File");
  _ ← set_string data_dir "path" (bs "/data");
  _ ← regs [("getDataDirectory", EValue (DObject data_dir))]%string;
  ext_dir ← new_object (bs "java/io/File");
  _ ← set_string ext_dir "path" (bs "/storage/emulated/0");
  _ ← regs [
    ("getExternalStorageDirectory", EValue (DObject ext_dir)); ("getPath", EPathOr);
    ("getAbsolutePath", EPathOr)]%string;
  app_ops ← new_object (bs "android/app/AppOpsManager");
  _ ← regs [
    ("getSystemService", EValue (DObject app_ops)); ("noteOp", EValue (DInt 0)); ("isIsolated", EValue (DInt 0));
    ("installContentProviders", EValue DVoid); ("addAction", EValue DVoid); ("unregisterReceiver", EValue DVoid);
    ("registerReceiver", ENew "android/content/Intent"); ("getInstance", ENew "java/lang/Object");
    ("getDefault", ENew "java/util/Locale"); ("get", EText []); ("getLanguage", EText (bs "zh"));
    ("getCountry", EText (bs "CN"))]%string;
  set_texts "android/net/ConnectivityManager" [("CONNECTIVITY_ACTION", bs "android.net.conn.CONNECTIVITY_CHANGE")]%string.

(** What is left: methods, a thread, and the probes of the classic variant. *)
Definition graph_rest (ctx loader : Z) (jdir : list Z) (opt : ContextGraphOptions) : M J unit :=
  _ ← regs [
    ("getClassLoader", EValue (DObject loader)); ("getApplicationContext", EValue (DObject ctx));
    ("getBaseContext", EValue (DObject ctx)); ("getApplication", EValue (DObject ctx));
    ("currentApplication", EValue (DObject ctx)); ("getApplicationOnCreate", EValue (DObject ctx))]%string;
  jthread ← new_object (bs "java/lang/Thread");
  _ ← regs (graph_methods ctx loader jthread);
  if extra_probes opt then graph_probes jdir else skip.

Definition build_context_graph (id : DeviceIdentity) (opt : ContextGraphOptions) : M J ContextGraph :=
  let jdir := bs "/data/user/0/" ++ bs (package_name id) ++ bs "/.jiagu" in
  ctx ← new_object (bs "android/content/Context");
  _ ← regs [
    ("getAppContext", EValue (DObject ctx)); ("getDir", EText jdir);
    ("currentPackageName", EText (bs (package_name id)))]%string;
  info ← graph_app_info id;
  bind ← graph_bind_data id info;
  pkg ← graph_package_info id info;
  ta ← graph_activity_thread opt bind;
  let '(thread, app) := ta in
  loader ← graph_class_loader opt ctx info thread;
  _ ← graph_rest ctx loader jdir opt;
  mret (mkGraph ctx app thread loader pkg info).
End Env.
