(* ===== verification/EnvFacts.v ===== *)
(** What the environment of the emulated app ([AndroidEnv]) promises: Build
    fields that agree with the fingerprint, a signature chain that ends in the
    certificate, a graph whose links lead where a packer expects.

    [respects R m] says that every run of [m] relates its states by [R]; with the
    relations below it says what a step of the construction leaves alone. *)

From stdpp Require Import strings pretty.
From S2P Require Import Prelude.
From S2P Require Import Words.
From S2P Require Import Abi.
From S2P Require Import Unicorn.
From S2P Require Import Engine.
From S2P Require Import Memory.
From S2P Require Import JavaRuntime.
From S2P Require Import Jni.
From S2P Require Import Framework.
From S2P Require Import CText.
From S2P Require Import System.
From S2P Require Import EnvMethods.
From S2P Require Import AndroidEnv.
#[local] Open Scope Z_scope.

(** ** Relations a computation respects *)

Section Keeps.
Context {S : Type} (R : S -> S -> Prop) `{!PreOrder R}.
Definition respects {A} (m : M S A) : Prop := forall s r s', m s = (r, s') -> R s s'.

Lemma respects_ret {A} (a : A) : respects (M_ret a).
Proof. intros s r s' [= _ <-]. reflexivity. Qed.
Lemma respects_get : respects get.
Proof. intros s r s' [= _ <-]. reflexivity. Qed.
Lemma keeps_modify f : (forall s, R s (f s)) -> respects (modify f).
Proof. intros Hf s r s' [= _ <-]. apply Hf. Qed.
Lemma respects_bind {A B} (m : M S A) (f : A -> M S B) :
  respects m -> (forall a, respects (f a)) -> respects (M_bind f m).
Proof.
  intros Hm Hf s r s'. unfold M_bind. destruct (m s) as [[a|e|] s1] eqn:E; intros H.
  - transitivity s1; [by eapply Hm|by eapply Hf].
  - injection H as <- <-. by eapply Hm.
  - injection H as <- <-. by eapply Hm.
Qed.
End Keeps.

Lemma respects_weaken {S A} (R R' : S -> S -> Prop) (m : M S A) :
  (forall s s', R s s' -> R' s s') -> respects R m -> respects R' m.
Proof. intros HR Hm s r s' E. eapply HR, Hm, E. Qed.

(** The rule for a bind, and for a step that only modifies the state. *)
Ltac kbind := apply respects_bind; [exact _| |].


Section Relations.
Context {U HM : Type}.
#[local] Abbreviation J := (JavaRuntime U HM).

(** Field [n] of object [o]. *)
Definition has (j : J) (o : Z) (n : jstring) (v : DvmValue) : Prop :=
  exists r, handles_ j !! o = Some r /\ fields r !! n = Some v.

(** Only new records; methods, statics and defaults as before. *)
Record calm (j j' : J) : Prop := {
  cm_handles : handles_ j ⊆ handles_ j';
  cm_hosts : host_methods_ j' = host_methods_ j;
  cm_statics : static_fields_ j' = static_fields_ j;
}.
(** Fields called [n] are not changed, nor the method or the static under a key. *)
Definition same_field (n : jstring) (j j' : J) : Prop := forall o v, has j o n v -> has j' o n v.
Definition same_host (k : jstring) (j j' : J) : Prop := host_methods_ j' !! k = host_methods_ j !! k.
Definition same_static (k : jstring) (j j' : J) : Prop := static_fields_ j' !! k = static_fields_ j !! k.
(** Arrays keep their elements. *)
Definition same_elems (j j' : J) : Prop := forall h r, handles_ j !! h = Some r ->
  exists r', handles_ j' !! h = Some r' /\ kind r' = kind r /\ elems r' = elems r.

#[export] Instance calm_preorder : PreOrder calm.
Proof.
  split; [intros j; split; done|]. intros j1 j2 j3 [H1 E1 F1] [H2 E2 F2].
  split; [by transitivity (handles_ j2)|congruence..].
Qed.
#[export] Instance same_field_preorder n : PreOrder (same_field n).
Proof. split; [intros j o v; exact id|]. intros j1 j2 j3 H1 H2 o v H. auto. Qed.
#[export] Instance same_host_preorder k : PreOrder (same_host k).
Proof. split; [intros j; reflexivity|]. unfold same_host. intros j1 j2 j3 E1 E2. congruence. Qed.
#[export] Instance same_static_preorder k : PreOrder (same_static k).
Proof. split; [intros j; reflexivity|]. unfold same_static. intros j1 j2 j3 E1 E2. congruence. Qed.
#[export] Instance same_elems_preorder : PreOrder same_elems.
Proof.
  split; [intros j h r Hr; eauto|]. intros j1 j2 j3 H1 H2 h r Hr.
  destruct (H1 h r Hr) as (r2 & Hr2 & K2 & E2). destruct (H2 h r2 Hr2) as (r3 & Hr3 & K3 & E3).
  exists r3. split; [done|]. split; congruence.
Qed.

Lemma calm_field n j j' : calm j j' -> same_field n j j'.
Proof. intros [Hh _ _] o v (r & Hr & Hf). exists r. split; [|done]. by eapply lookup_weaken. Qed.
Lemma calm_host k j j' : calm j j' -> same_host k j j'.
Proof. intros [_ E _]. unfold same_host. by rewrite E. Qed.
Lemma calm_static k j j' : calm j j' -> same_static k j j'.
Proof. intros [_ _ E]. unfold same_static. by rewrite E. Qed.
Lemma calm_elems j j' : calm j j' -> same_elems j j'.
Proof. intros [Hh _ _] h r Hr. exists r. split; [by eapply lookup_weaken|done]. Qed.
End Relations.

(** ** What the operations of the table leave alone *)

Section Leaves.
Context {U HM : Type} `{UcOps U}.
#[local] Abbreviation J := (JavaRuntime U HM).

Lemma calm_mem {A} (op : M (Memory U) A) : respects calm (on_mem (HM := HM) op).
Proof. intros j r j'. unfold on_mem. destruct (op (j_mem j)). intros [= _ <-]. by split. Qed.
Lemma calm_alloc r : respects calm (alloc (U := U) (HM := HM) r).
Proof.
  kbind; [apply calm_mem|]. intros a. kbind; [|intros; apply respects_ret, _].
  apply keeps_modify. intros j. split; cbn; [|done..]. destruct (handles_ j !! a) eqn:E; [done|].
  by apply insert_subseteq.
Qed.
Lemma calm_find_class n : respects calm (find_class (U := U) (HM := HM) n).
Proof.
  kbind; [apply respects_get, _|]. intros j. case_match; [apply respects_ret, _|].
  kbind; [apply calm_alloc|]. intros h. kbind; [by apply keeps_modify; intros; split|].
  intros _. kbind; [apply calm_mem|intros; apply respects_ret, _].
Qed.
Lemma calm_member k mark c n s st : respects calm (get_member (U := U) (HM := HM) k mark c n s st).
Proof.
  kbind; [apply respects_get, _|]. intros j. cbv zeta. case_match; [apply respects_ret, _|].
  kbind; [apply calm_alloc|]. intros h.
  kbind; [by apply keeps_modify; intros; split|intros; apply respects_ret, _].
Qed.
Lemma calm_new_of r c : respects calm (new_of (U := U) (HM := HM) r c).
Proof.
  kbind; [apply calm_alloc|]. intros h. kbind; [apply calm_find_class|]. intros cl.
  kbind; [apply calm_mem|intros; apply respects_ret, _].
Qed.
Lemma calm_array l : respects calm (new_object_array (U := U) (HM := HM) l).
Proof.
  kbind; [apply calm_new_of|]. intros h. kbind; [apply calm_mem|intros; apply respects_ret, _].
Qed.
Lemma calm_bytes l : respects calm (new_byte_array (U := U) (HM := HM) l).
Proof.
  kbind; [apply calm_new_of|]. intros h. kbind; [apply calm_mem|intros; apply respects_ret, _].
Qed.
Lemma calm_give_string s : respects calm (give_string (U := U) (HM := HM) s).
Proof. kbind; [apply calm_new_of|intros; apply respects_ret, _]. Qed.
Lemma calm_give_new c : respects calm (give_new (U := U) (HM := HM) c).
Proof. kbind; [apply calm_new_of|intros; apply respects_ret, _]. Qed.
Lemma calm_give_array l : respects calm (give_array (U := U) (HM := HM) l).
Proof. kbind; [apply calm_array|intros; apply respects_ret, _]. Qed.
Lemma calm_give_bytes l : respects calm (give_bytes (U := U) (HM := HM) l).
Proof. kbind; [apply calm_bytes|intros; apply respects_ret, _]. Qed.

(** A relation implied by [calm]. *)
Class CalmImplies (R : J -> J -> Prop) : Prop := calm_implies j j' : calm j j' -> R j j'.
#[export] Instance calm_implies_field n : CalmImplies (same_field n) := calm_field n.
#[export] Instance calm_implies_host k : CalmImplies (same_host k) := calm_host k.
#[export] Instance calm_implies_static k : CalmImplies (same_static k) := calm_static k.
#[export] Instance calm_implies_elems : CalmImplies same_elems := calm_elems.
Lemma keeps_calm R `{!CalmImplies R} {A} (m : M J A) : respects calm m -> respects R m.
Proof. apply respects_weaken, calm_implies. Qed.

(** Updating a record: the others stay, and so do methods and statics. *)
Lemma update_handles h f (j : J) :
  handles_ (snd (update_rec h f j)) = alter f h (handles_ j).
Proof.
  unfold update_rec, modify, get_rec. cbn [snd]. destruct (handles_ j !! h) as [r|] eqn:E.
  - cbn. apply map_eq. intros i. destruct (decide (i = h)) as [->|Hn].
    + by rewrite lookup_insert_eq, lookup_alter_eq, E.
    + by rewrite lookup_insert_ne, lookup_alter_ne by done.
  - apply map_eq. intros i. destruct (decide (i = h)) as [->|Hn]; [by rewrite lookup_alter_eq, E|].
    by rewrite lookup_alter_ne.
Qed.
Lemma set_field_field n o n' v : n <> n' -> respects (same_field n) (set_field (U := U) (HM := HM) o n' v).
Proof.
  intros Hn j r j' E o' v' (r0 & Hr & Hf). unfold has.
  assert (handles_ j' = alter (fun r => with_fields (<[n' := v]> (fields r)) r) o (handles_ j)) as ->.
  { rewrite <- update_handles. unfold set_field in E. by rewrite E. }
  destruct (decide (o' = o)) as [->|Ho]; [|rewrite lookup_alter_ne by done; eauto].
  rewrite lookup_alter_eq, Hr. cbn. eexists. split; [done|]. cbn. by rewrite lookup_insert_ne.
Qed.
Lemma set_field_elems o n v : respects same_elems (set_field (U := U) (HM := HM) o n v).
Proof.
  intros j r j' E h r0 Hr.
  assert (handles_ j' = alter (fun r => with_fields (<[n := v]> (fields r)) r) o (handles_ j)) as ->.
  { rewrite <- update_handles. unfold set_field in E. by rewrite E. }
  destruct (decide (h = o)) as [->|Ho]; [|rewrite lookup_alter_ne by done; eauto].
  rewrite lookup_alter_eq, Hr. cbn. by eexists.
Qed.
Lemma set_field_host k o n v : respects (same_host k) (set_field (U := U) (HM := HM) o n v).
Proof. apply keeps_modify. intros j. by destruct (get_rec j o). Qed.
Lemma set_field_static k o n v : respects (same_static k) (set_field (U := U) (HM := HM) o n v).
Proof. apply keeps_modify. intros j. by destruct (get_rec j o). Qed.
Lemma set_field_has o n v (j : J) r j' :
  is_Some (handles_ j !! o) -> set_field o n v j = (r, j') -> has j' o n v.
Proof.
  intros [r0 Hr] E. unfold has.
  assert (handles_ j' = alter (fun r => with_fields (<[n := v]> (fields r)) r) o (handles_ j)) as ->.
  { rewrite <- update_handles. unfold set_field in E. by rewrite E. }
  rewrite lookup_alter_eq, Hr. cbn. eexists. split; [done|]. cbn. by rewrite lookup_insert_eq.
Qed.
End Leaves.

(** ** What the steps of the construction leave alone *)

Section Steps.
Context {U HM : Type} `{UcOps U}.
#[local] Abbreviation J := (JavaRuntime U HM).
Variable as_host : EnvMethod -> HM.

Definition names (l : list (string * EnvMethod)) : list jstring := (fun p => bs p.1) <$> l.

Lemma keeps_regs (R : J -> J -> Prop) `{!PreOrder R} l :
  (forall k f j, k ∈ names l -> R j (with_hosts (<[k := f]> (host_methods_ j)) j)) ->
  respects R (regs (U := U) as_host l).
Proof.
  induction l as [|[n f] l IH]; intros Hl; [apply respects_ret, _|]. kbind; [|intros _; apply IH].
  - apply keeps_modify. intros j. apply Hl, list_elem_of_here.
  - intros k g j Hk. by apply Hl, list_elem_of_further.
Qed.
Lemma regs_field n l : respects (same_field n) (regs (U := U) as_host l).
Proof. apply keeps_regs; [exact _|]. intros k f j _ o v. exact id. Qed.
Lemma regs_elems l : respects same_elems (regs (U := U) as_host l).
Proof. apply keeps_regs; [exact _|]. intros k f j _ h r Hr. by exists r. Qed.
Lemma regs_static k l : respects (same_static k) (regs (U := U) as_host l).
Proof. apply keeps_regs; [exact _|done]. Qed.
Lemma regs_host k l : k ∉ names l -> respects (same_host k) (regs (U := U) as_host l).
Proof.
  intros Hk. apply keeps_regs; [exact _|]. intros k' f j Hk'. unfold same_host. cbn.
  rewrite lookup_insert_ne; [done|]. intros ->. by apply Hk.
Qed.
(** The last registration of a name counts. *)
Lemma regs_lookup l1 n f l2 (j : J) r j' :
  bs n ∉ names l2 -> regs as_host (l1 ++ (n, f) :: l2) j = (r, j') -> host_methods_ j' !! bs n = Some (as_host f).
Proof.
  intros Hn. revert j. induction l1 as [|[n1 f1] l1 IH]; intros j E; cbn [app regs] in E; unfold register_method in E;
    rewrite bind_modify in E.
  - rewrite (regs_host (bs n) l2 Hn _ _ _ E). cbn. apply lookup_insert_eq.
  - by eapply IH.
Qed.

(** Every row of a list without repetitions is registered by it. *)
Lemma regs_lookup_in l n f (j : J) r j' :
  NoDup (names l) -> (n, f) ∈ l -> regs as_host l j = (r, j') -> host_methods_ j' !! bs n = Some (as_host f).
Proof.
  intros Hd Hin. apply list_elem_of_split in Hin as (l1 & l2 & ->). apply regs_lookup.
  unfold names in *. rewrite fmap_app in Hd. apply NoDup_app in Hd as (_ & _ & Hd). cbn in Hd.
  by apply NoDup_cons in Hd as [? _].
Qed.

Lemma set_static_field n c f v : respects (same_field n) (set_static (U := U) (HM := HM) c f v).
Proof. apply keeps_modify. intros j o w. exact id. Qed.
Lemma set_static_elems c f v : respects same_elems (set_static (U := U) (HM := HM) c f v).
Proof. apply keeps_modify. intros j h r Hr. by exists r. Qed.
Lemma set_static_host k c f v : respects (same_host k) (set_static (U := U) (HM := HM) c f v).
Proof. by apply keeps_modify. Qed.
Lemma set_static_static k c f v : k <> skey c f -> respects (same_static k) (set_static (U := U) (HM := HM) c f v).
Proof. intros Hk. apply keeps_modify. intros j. unfold same_static. cbn. by rewrite lookup_insert_ne. Qed.
Lemma default_field n f v : respects (same_field n) (set_field_default (U := U) (HM := HM) f v).
Proof. apply keeps_modify. intros j o w. exact id. Qed.
Lemma default_elems f v : respects same_elems (set_field_default (U := U) (HM := HM) f v).
Proof. apply keeps_modify. intros j h r Hr. by exists r. Qed.
Lemma default_host k f v : respects (same_host k) (set_field_default (U := U) (HM := HM) f v).
Proof. by apply keeps_modify. Qed.
Lemma default_static k f v : respects (same_static k) (set_field_default (U := U) (HM := HM) f v).
Proof. by apply keeps_modify. Qed.

Definition keys_of (cls : string) (l : list (string * list Z)) : list jstring := (fun p => skey (bs cls) (bs p.1)) <$> l.
Lemma keeps_texts (R : J -> J -> Prop) `{!PreOrder R} `{!CalmImplies R} cls l :
  (forall f v, skey (bs cls) (bs f) ∈ keys_of cls l -> respects R (set_static (U := U) (HM := HM) (bs cls) (bs f) v)) ->
  respects R (set_texts (U := U) (HM := HM) cls l).
Proof.
  induction l as [|[f s] l IH]; intros Hl; [apply respects_ret, _|].
  kbind; [apply keeps_calm; [exact _|apply calm_give_string]|]. intros v.
  kbind; [apply Hl, list_elem_of_here|]. intros _. apply IH. intros f' v' Hf. by apply Hl, list_elem_of_further.
Qed.
Lemma texts_static k cls l : k ∉ keys_of cls l -> respects (same_static k) (set_texts (U := U) (HM := HM) cls l).
Proof.
  intros Hk. apply keeps_texts; [exact _..|]. intros f v Hf. apply set_static_static. intros ->. by apply Hk.
Qed.
Lemma texts_host k cls l : respects (same_host k) (set_texts (U := U) (HM := HM) cls l).
Proof. apply keeps_texts; [exact _..|]. intros. apply set_static_host. Qed.
Lemma texts_field n cls l : respects (same_field n) (set_texts (U := U) (HM := HM) cls l).
Proof. apply keeps_texts; [exact _..|]. intros. apply set_static_field. Qed.
Lemma texts_elems cls l : respects same_elems (set_texts (U := U) (HM := HM) cls l).
Proof. apply keeps_texts; [exact _..|]. intros. apply set_static_elems. Qed.
Lemma calm_strings l : respects calm (new_strings (U := U) (HM := HM) l).
Proof.
  induction l as [|s l IH]; [apply respects_ret, _|]. kbind; [apply calm_new_of|]. intros h.
  kbind; [exact IH|intros; apply respects_ret, _].
Qed.
End Steps.

(** Two texts that differ; a text that a list does not hold. *)
Ltac text_differs := apply (bool_decide_unpack _); vm_compute; exact I.
(** [respects R m] for the straight-line parts of the construction. *)
Ltac leaves_step :=
  lazymatch goal with
  | |- respects (same_field _) (regs _ _) => apply regs_field
  | |- respects same_elems (regs _ _) => apply regs_elems
  | |- respects (same_static _) (regs _ _) => apply regs_static
  | |- respects (same_host _) (regs _ _) => apply regs_host; text_differs
  | |- respects (same_field _) (set_field _ _ _) => apply set_field_field; text_differs
  | |- respects same_elems (set_field _ _ _) => apply set_field_elems
  | |- respects (same_static _) (set_field _ _ _) => apply set_field_static
  | |- respects (same_host _) (set_field _ _ _) => apply set_field_host
  | |- respects (same_field _) (set_static _ _ _) => apply set_static_field
  | |- respects same_elems (set_static _ _ _) => apply set_static_elems
  | |- respects (same_static _) (set_static _ _ _) => apply set_static_static; text_differs
  | |- respects (same_host _) (set_static _ _ _) => apply set_static_host
  | |- respects (same_field _) (set_texts _ _) => apply texts_field
  | |- respects same_elems (set_texts _ _) => apply texts_elems
  | |- respects (same_static _) (set_texts _ _) => apply texts_static; text_differs
  | |- respects (same_host _) (set_texts _ _) => apply texts_host
  | |- respects (same_field _) (set_field_default _ _) => apply default_field
  | |- respects same_elems (set_field_default _ _) => apply default_elems
  | |- respects (same_static _) (set_field_default _ _) => apply default_static
  | |- respects (same_host _) (set_field_default _ _) => apply default_host
  | |- respects _ (new_object _) => apply keeps_calm; [exact _|apply calm_new_of]
  | |- respects _ (new_string_utf _) => apply keeps_calm; [exact _|apply calm_new_of]
  | |- respects _ (new_object_array _) => apply keeps_calm; [exact _|apply calm_array]
  | |- respects _ (give_string _) => apply keeps_calm; [exact _|apply calm_give_string]
  | |- respects _ (give_new _) => apply keeps_calm; [exact _|apply calm_give_new]
  | |- respects _ (give_array _) => apply keeps_calm; [exact _|apply calm_give_array]
  | |- respects _ (new_strings _) => apply keeps_calm; [exact _|apply calm_strings]
  | |- respects _ (mret _) => apply respects_ret; exact _
  | |- respects _ skip => apply respects_ret; exact _
  | |- respects _ (mbind _ _) => kbind; [|intros]
  | |- respects _ (match ?x with _ => _ end) => destruct x
  end.
Ltac in_list := first [apply list_elem_of_here|apply list_elem_of_further; in_list].
Ltac leaves := repeat leaves_step.

(** ** New records *)

Section Records.
Context {U HM : Type} `{UcLaws U}.
#[local] Abbreviation J := (JavaRuntime U HM).

Lemma new_record r c (j : J) h j' :
  java_ok j -> new_of r c j = (Ret h, j') ->
  java_ok j' /\ extends j j' /\ calm j j' /\ handles_ j !! h = None /\ handles_ j' !! h = Some r.
Proof.
  intros Hj E. destruct (grows_new_of r c _ _ _ Hj E) as [Hj' X]. pose proof (calm_new_of r c _ _ _ E) as Hc.
  apply bind_ret_inv in E as (h1 & j1 & E1 & E). destruct (alloc_run _ _ _ _ Hj E1) as (Hj1 & _ & _ & _ & Hh).
  destruct (Hh _ eq_refl) as [Hn Hr].
  apply bind_ret_inv in E as (cl & j2 & E2 & E). apply bind_ret_inv in E as (? & j3 & E3 & E). injection E as <- <-.
  do 4 (split; [done|]). destruct (calm_find_class c _ _ _ E2) as [S2 _ _].
  destruct (calm_mem _ _ _ _ E3) as [S3 _ _]. eapply lookup_weaken; [|exact S3]. by eapply lookup_weaken.
Qed.

Definition array_of (j : J) (arr : Z) (l : list Z) : Prop :=
  exists r, handles_ j !! arr = Some r /\ kind r = RObjectArray /\ elems r = l.

Lemma new_array_run l (j : J) h j' :
  java_ok j -> new_object_array l j = (Ret h, j') ->
  java_ok j' /\ extends j j' /\ calm j j' /\ handles_ j !! h = None /\ array_of j' h l.
Proof.
  intros Hj E. pose proof (calm_array l _ _ _ E) as Hc. destruct (grows_new_sized _ _ _ _ _ _ Hj E) as [Hj' X].
  do 3 (split; [done|]). apply bind_ret_inv in E as (h1 & j1 & E1 & E).
  destruct (new_record _ _ _ _ _ Hj E1) as (_ & _ & _ & Hn & Hr).
  apply bind_ret_inv in E as (? & j2 & E2 & E). injection E as <- <-. split; [done|].
  destruct (calm_mem _ _ _ _ E2) as [S2 _ _]. eexists. split; [by eapply lookup_weaken|]. by split.
Qed.
Lemma new_bytes_run l (j : J) h j' :
  java_ok j -> new_byte_array l j = (Ret h, j') -> bytes_view j' h = Some l.
Proof.
  intros Hj E. apply bind_ret_inv in E as (h1 & j1 & E1 & E).
  destruct (new_record _ _ _ _ _ Hj E1) as (_ & _ & _ & Hn & Hr).
  apply bind_ret_inv in E as (? & j2 & E2 & E). injection E as <- <-.
  destruct (calm_mem _ _ _ _ E2) as [S2 _ _]. unfold bytes_view, get_kind, get_rec.
  by rewrite (lookup_weaken _ _ _ _ Hr S2).
Qed.
Lemma array_of_keeps (j j' : J) arr l : same_elems j j' -> array_of j arr l -> array_of j' arr l.
Proof.
  intros S (r & Hr & K & E). destruct (S _ _ Hr) as (r' & Hr' & K' & E'). exists r'. split; [done|]. split; congruence.
Qed.
Lemma has_get (j : J) o n v : has j o n v -> get_field j o n = v.
Proof. intros (r & Hr & Hf). unfold get_field, get_rec. by rewrite Hr; cbn; rewrite Hf. Qed.
Lemma array_element (j : J) arr x l : array_of j arr (x :: l) -> object_array_element j arr 0 = x.
Proof.
  intros (r & Hr & K & E). unfold object_array_element, get_kind, get_rec. by rewrite Hr, decide_True, E by done.
Qed.

(** Running the pieces of the construction respects the table well formed. *)
Lemma grows_regs as_host l : grows (regs (U := U) (HM := HM) as_host l).
Proof.
  induction l as [|[n f] l IH]; [apply grows_ret|]. apply grows_bind; [by apply grows_modify|intros _; exact IH].
Qed.
Lemma grows_set_string o f s : grows (set_string (U := U) (HM := HM) o f s).
Proof. apply grows_bind; [apply grows_give|intros; apply grows_set_field]. Qed.
Lemma grows_give_new c : grows (give_new (U := U) (HM := HM) c).
Proof. apply grows_bind; [apply grows_new_of|intros; apply grows_ret]. Qed.
Lemma grows_give_array l : grows (give_array (U := U) (HM := HM) l).
Proof. apply grows_bind; [apply grows_new_sized|intros; apply grows_ret]. Qed.
Lemma grows_give_bytes l : grows (give_bytes (U := U) (HM := HM) l).
Proof. apply grows_bind; [apply grows_new_sized|intros; apply grows_ret]. Qed.
Lemma grows_set_static c f v : grows (set_static (U := U) (HM := HM) c f v).
Proof. by apply grows_modify. Qed.
Lemma grows_default f v : grows (set_field_default (U := U) (HM := HM) f v).
Proof. by apply grows_modify. Qed.
Lemma grows_texts cls l : grows (set_texts (U := U) (HM := HM) cls l).
Proof.
  induction l as [|[f s] l IH]; [apply grows_ret|]. apply grows_bind; [apply grows_give|]. intros v.
  apply grows_bind; [apply grows_set_static|intros _; exact IH].
Qed.
Lemma grows_strings l : grows (new_strings (U := U) (HM := HM) l).
Proof.
  induction l as [|s l IH]; [apply grows_ret|]. apply grows_bind; [apply grows_new_of|]. intros h.
  apply grows_bind; [exact IH|intros; apply grows_ret].
Qed.
End Records.

(** [grows m] for the straight-line parts. *)
Ltac grow_step :=
  lazymatch goal with
  | |- grows (regs _ _) => apply grows_regs
  | |- grows (set_string _ _ _) => apply grows_set_string
  | |- grows (give_new _) => apply grows_give_new
  | |- grows (give_array _) => apply grows_give_array
  | |- grows (give_bytes _) => apply grows_give_bytes
  | |- grows (give_string _) => apply grows_give
  | |- grows (set_static _ _ _) => apply grows_set_static
  | |- grows (set_field_default _ _) => apply grows_default
  | |- grows (set_texts _ _) => apply grows_texts
  | |- grows (new_strings _) => apply grows_strings
  | |- grows (set_field _ _ _) => apply grows_set_field
  | |- grows (new_object_array _) => apply grows_new_sized
  | |- grows (new_byte_array _) => apply grows_new_sized
  | |- grows (new_object _) => apply grows_new_of
  | |- grows (new_string_utf _) => apply grows_new_of
  | |- grows (mret _) => apply grows_ret
  | |- grows skip => apply grows_ret
  | |- grows get => apply grows_get
  | |- grows (mbind _ _) => apply grows_bind; [|intros]
  | |- grows (match ?x with _ => _ end) => destruct x
  end.
Ltac grow := repeat grow_step.

(** The methods keep the table well formed too, so what holds of a bridge or a
    lifecycle with well-behaved host methods holds of one with these. *)
Section MethodsGrow.
Context {U HM : Type} `{UcLaws U}.

Lemma grows_frames l : grows (e_frames (U := U) (HM := HM) l).
Proof.
  induction l as [|f l IH]; [apply grows_ret|]. cbn [e_frames]. apply grows_bind; [apply grows_new_of|]. intros e.
  apply grows_bind; [apply grows_set_string|]. intros _. apply grows_bind; [exact IH|intros; apply grows_ret].
Qed.
Lemma env_grows props f self a : grows (env_run (U := U) (HM := HM) props f self a).
Proof.
  apply grows_bind; [apply grows_get|]. intros j.
  destruct f; cbn [env_run];
    unfold new_file, field_or, e_append, e_box, e_file_init, e_parent_file, e_reflect, e_system_property,
      e_graph_property, e_as_list; cbv zeta; grow.
  apply grows_frames.
Qed.
End MethodsGrow.

(** From here on a list of registrations is not run in proofs. *)
#[local] Opaque regs.

(** ** The signature chain *)

Section Chain.
Context {U C : Type} `{UcLaws U}.
#[local] Abbreviation HM := (EnvMethod + C)%type.
#[local] Abbreviation J := (JavaRuntime U HM).
Variable props : option (list Z).
Variable client : C -> Z -> list DvmValue -> M J DvmValue.
Variable observe : jstring -> jstring -> jstring -> list DvmValue -> bool -> M J unit.
(** The method observer only watches. *)
Hypothesis observe_watches : forall o n s a b j, observe o n s a b j = (Ret tt, j).

Definition env_host (h : HM) : Z -> list DvmValue -> M J DvmValue :=
  match h with inl f => env_run props f | inr c => client c end.
Definition jcall := call_method observe env_host.

(** What a guest does to see who signed its package, with the method ids of
    [Context.getPackageManager], [PackageManager.getPackageInfo] and
    [Signature.toByteArray]. *)
Definition read_certificate (m1 m2 m3 ctx : Z) (pkg : DvmValue) : M J (option (list Z)) :=
  pm ← jcall m1 ctx [];
  info ← jcall m2 (obj_of pm) [pkg; DInt 64];
  sigs ← gets (fun j => get_field j (obj_of info) (bs "signatures"));
  sig ← gets (fun j => object_array_element j (obj_of sigs) 0);
  arr ← jcall m3 sig [];
  gets (fun j => bytes_view j (obj_of arr)).

Definition is_method (j : J) (m : Z) (cls name : string) : Prop :=
  exists r, handles_ j !! m = Some r /\ kind r = RMethod /\ owner r = bs cls /\ rname r = bs name.
(** Nothing stands under the class-qualified name. *)
Definition unqualified (j : J) (cls name : string) : Prop :=
  host_methods_ j !! (bs cls ++ bs "#" ++ bs name) = None.

Lemma is_method_later j j' m cls name : extends j j' -> is_method j m cls name -> is_method j' m cls name.
Proof.
  intros X (r & Hr & K & O & N). destruct (ex_handles _ _ X _ _ Hr) as (r' & Hr' & (K' & N' & _ & O' & _)).
  exists r'. split; [done|]. split; [congruence|]. split; congruence.
Qed.

Lemma jcall_run (j : J) m cls name f self args :
  is_method j m cls name -> unqualified j cls name -> host_methods_ j !! bs name = Some (inl f) -> cls <> ""%string ->
  jcall m self args j = env_run props f self args j.
Proof.
  intros (r & Hr & K & O & N) Hq Hf Hc. unfold jcall, call_method. rewrite bind_get.
  unfold get_kind, get_rec. rewrite Hr, decide_True by done. cbv zeta. rewrite O, N.
  rewrite (bind_run _ _ _ tt j) by apply observe_watches.
  assert (find_impl j (bs cls) (bs name) = Some (inl f)) as ->; [|done].
  unfold find_impl. rewrite bool_decide_eq_false_2; [by rewrite Hq|]. by destruct cls.
Qed.

(** The links of the chain, and the three ids. *)
Record chain_ready (j : J) (m1 m2 m3 pm info arr sig : Z) (cert : list Z) : Prop := {
  cr_m1 : is_method j m1 "android/content/Context" "getPackageManager";
  cr_m2 : is_method j m2 "android/content/pm/PackageManager" "getPackageInfo";
  cr_m3 : is_method j m3 "android/content/pm/Signature" "toByteArray";
  cr_u1 : unqualified j "android/content/Context" "getPackageManager";
  cr_u2 : unqualified j "android/content/pm/PackageManager" "getPackageInfo";
  cr_u3 : unqualified j "android/content/pm/Signature" "toByteArray";
  cr_pm : host_methods_ j !! bs "getPackageManager" = Some (inl (EValue (DObject pm)));
  cr_info : host_methods_ j !! bs "getPackageInfo" = Some (inl (EValue (DObject info)));
  cr_bytes : host_methods_ j !! bs "toByteArray" = Some (inl (EBytes cert));
  cr_field : has j info (bs "signatures") (DObject arr);
  cr_array : array_of j arr [sig];
}.

Lemma chain_read j m1 m2 m3 pm info arr sig cert ctx pkg x j' :
  java_ok j -> chain_ready j m1 m2 m3 pm info arr sig cert ->
  read_certificate m1 m2 m3 ctx pkg j = (Ret x, j') -> x = Some cert.
Proof.
  intros Hj [M1 M2 M3 U1 U2 U3 P I B F A] E. unfold read_certificate in E.
  rewrite (bind_run _ _ _ (DObject pm) j) in E by (by rewrite (jcall_run _ _ _ _ _ _ _ M1 U1 P)).
  rewrite (bind_run _ _ _ (DObject info) j) in E by (by rewrite (jcall_run _ _ _ _ _ _ _ M2 U2 I)).
  rewrite bind_gets in E. cbn [obj_of] in E. rewrite (has_get _ _ _ _ F) in E.
  rewrite bind_gets in E. cbn [obj_of] in E. rewrite (array_element _ _ _ _ A) in E.
  apply bind_ret_inv in E as (v & j1 & E1 & E). rewrite (jcall_run _ _ _ _ _ _ _ M3 U3 B) in E1 by done.
  unfold env_run in E1. rewrite bind_get in E1. apply bind_ret_inv in E1 as (h & j2 & E1 & E2).
  injection E2 as <- <-. injection E as <- <-. cbn [obj_of]. by eapply new_bytes_run.
Qed.

(** *** The constructor *)

#[local] Abbreviation ah := (@inl EnvMethod C).

Lemma signatures_run cert (j : J) x j' :
  java_ok j -> env_signatures ah cert j = (Ret x, j') ->
  java_ok j' /\ extends j j' /\ exists pm info arr sig,
    host_methods_ j' !! bs "getPackageManager" = Some (inl (EValue (DObject pm))) /\
    host_methods_ j' !! bs "getPackageInfo" = Some (inl (EValue (DObject info))) /\
    host_methods_ j' !! bs "toByteArray" = Some (inl (EBytes cert)) /\
    has j' info (bs "signatures") (DObject arr) /\ array_of j' arr [sig].
Proof.
  intros Hj E. assert (grows (env_signatures (U := U) ah cert)) as Hg by (unfold env_signatures; grow).
  destruct (Hg _ _ _ Hj E) as [Hj' X]. split; [done|]. split; [done|].
  apply bind_ret_inv in E as (sig & j1 & E1 & E). destruct (new_record _ _ _ _ _ Hj E1) as (Hj1 & _ & _ & _ & _).
  apply bind_ret_inv in E as (arr & j2 & E2 & E). destruct (new_array_run _ _ _ _ Hj1 E2) as (Hj2 & _ & _ & _ & A).
  apply bind_ret_inv in E as (info & j3 & E3 & E). destruct (new_record _ _ _ _ _ Hj2 E3) as (Hj3 & _ & C3 & _ & R3).
  apply bind_ret_inv in E as ([] & j4 & E4 & E).
  pose proof (set_field_has _ _ _ _ _ _ ltac:(by eexists) E4) as F. pose proof (set_field_elems _ _ _ _ _ _ E4) as S4.
  apply bind_ret_inv in E as (pm & j5 & E5 & E). pose proof (calm_new_of _ _ _ _ _ E5) as C5.
  exists pm, info, arr, sig.
  split; [eapply (regs_lookup ah []); [|exact E]; text_differs|].
  split; [eapply (regs_lookup ah [_]); [|exact E]; text_differs|].
  split; [eapply (regs_lookup ah [_; _]); [|exact E]; text_differs|]. split.
  - exact (regs_field ah _ _ _ _ _ E _ _ (calm_field _ _ _ C5 _ _ F)).
  - eapply array_of_keeps; [exact (regs_elems ah _ _ _ _ E)|]. eapply array_of_keeps; [exact (calm_elems _ _ C5)|].
    eapply array_of_keeps; [exact S4|]. by eapply array_of_keeps; [exact (calm_elems _ _ C3)|].
Qed.
(** The class-qualified names of the chain. *)
Definition chain_names : list (string * string) := [
  ("android/content/Context", "getPackageManager"); ("android/content/pm/PackageManager", "getPackageInfo");
  ("android/content/pm/Signature", "toByteArray")]%string.
Definition chain_key (p : string * string) : jstring := bs p.1 ++ bs "#" ++ bs p.2.

Lemma chain_cases (P : string * string -> Prop) :
  P ("android/content/Context", "getPackageManager")%string ->
  P ("android/content/pm/PackageManager", "getPackageInfo")%string ->
  P ("android/content/pm/Signature", "toByteArray")%string -> forall p, p ∈ chain_names -> P p.
Proof.
  intros P1 P2 P3 p Hp. apply elem_of_cons in Hp as [->|Hp]; [exact P1|].
  apply elem_of_cons in Hp as [->|Hp]; [exact P2|]. by apply list_elem_of_singleton in Hp as ->.
Qed.

Lemma context_host id : forall p, p ∈ chain_names -> respects (same_host (chain_key p)) (env_context (U := U) ah id).
Proof. apply (chain_cases (fun p => respects (same_host (chain_key p)) (env_context (U := U) ah id))); unfold env_context, set_string; leaves. Qed.
Lemma library_host : forall p, p ∈ chain_names -> respects (same_host (chain_key p)) (regs (U := U) ah env_library).
Proof. apply (chain_cases (fun p => respects (same_host (chain_key p)) (regs (U := U) ah env_library))); leaves. Qed.
Lemma services_host : forall p, p ∈ chain_names -> respects (same_host (chain_key p)) (env_services (U := U) ah).
Proof. apply (chain_cases (fun p => respects (same_host (chain_key p)) (env_services (U := U) ah))); unfold env_services; leaves. Qed.
Lemma build_host k id : respects (same_host k) (env_build (U := U) (HM := HM) id).
Proof. unfold env_build, set_abis. leaves. Qed.
Lemma signatures_host cert : forall p, p ∈ chain_names -> respects (same_host (chain_key p)) (env_signatures (U := U) ah cert).
Proof. apply (chain_cases (fun p => respects (same_host (chain_key p)) (env_signatures (U := U) ah cert))); unfold env_signatures; leaves. Qed.
Lemma grows_env_context id : grows (env_context (U := U) ah id).
Proof. unfold env_context. grow. Qed.
Lemma grows_env_services : grows (env_services (U := U) ah).
Proof. unfold env_services. grow. Qed.
Lemma grows_env_build id : grows (env_build (U := U) (HM := HM) id).
Proof. unfold env_build, set_abis. grow. Qed.
Lemma grows_env_signatures cert : grows (env_signatures (U := U) ah cert).
Proof. unfold env_signatures. grow. Qed.

Lemma env_unqualified id (j : J) r j' :
  android_env ah id j = (r, j') -> forall p, p ∈ chain_names -> same_host (chain_key p) j j'.
Proof.
  intros E p Hp. revert j r j' E. change (respects (same_host (chain_key p)) (android_env (U := U) ah id)).
  unfold android_env. cbv zeta.
  kbind; [by apply context_host|]. intros app. kbind; [by apply library_host|]. intros _.
  kbind; [by apply services_host|]. intros _. kbind; [apply build_host|]. intros _.
  kbind; [by apply signatures_host|]. intros _. apply respects_ret, _.
Qed.
Lemma grows_android_env id : grows (android_env (U := U) ah id).
Proof.
  unfold android_env. cbv zeta. apply grows_bind; [apply grows_env_context|]. intros app.
  apply grows_bind; [apply grows_regs|]. intros _. apply grows_bind; [apply grows_env_services|]. intros _.
  apply grows_bind; [apply grows_env_build|]. intros _. apply grows_bind; [apply grows_env_signatures|]. intros _.
  apply grows_ret.
Qed.

Lemma signing_cert_with id c : signing_cert (with_cert id c) = c.
Proof. reflexivity. Qed.
Lemma chain_at (j : J) m1 m2 m3 pm info arr sig cert :
  (forall p, p ∈ chain_names -> host_methods_ j !! chain_key p = None) ->
  is_method j m1 "android/content/Context" "getPackageManager" ->
  is_method j m2 "android/content/pm/PackageManager" "getPackageInfo" ->
  is_method j m3 "android/content/pm/Signature" "toByteArray" ->
  host_methods_ j !! bs "getPackageManager" = Some (inl (EValue (DObject pm))) ->
  host_methods_ j !! bs "getPackageInfo" = Some (inl (EValue (DObject info))) ->
  host_methods_ j !! bs "toByteArray" = Some (inl (EBytes cert)) ->
  has j info (bs "signatures") (DObject arr) -> array_of j arr [sig] ->
  chain_ready j m1 m2 m3 pm info arr sig cert.
Proof.
  intros Hn M1 M2 M3 P I B F A.
  assert (forall cls name, (cls, name) ∈ chain_names -> unqualified j cls name) as Hu by (intros cls name; apply (Hn (_, _))).
  split; try assumption; apply Hu; unfold chain_names; rewrite !elem_of_cons; auto.
Qed.

Definition chain_free (j : J) : Prop := forall p, p ∈ chain_names -> host_methods_ j !! chain_key p = None.

(** What the constructor leaves: the links of the chain. *)
Lemma android_env_run id (j : J) app id' j1 :
  java_ok j -> android_env ah id j = (Ret (app, id'), j1) ->
  java_ok j1 /\ id' = with_cert id (filled_cert (signing_cert id)) /\
  exists pm info arr sig,
    host_methods_ j1 !! bs "getPackageManager" = Some (inl (EValue (DObject pm))) /\
    host_methods_ j1 !! bs "getPackageInfo" = Some (inl (EValue (DObject info))) /\
    host_methods_ j1 !! bs "toByteArray" = Some (inl (EBytes (filled_cert (signing_cert id)))) /\
    has j1 info (bs "signatures") (DObject arr) /\ array_of j1 arr [sig].
Proof.
  intros Hj E. unfold android_env in E. cbv zeta in E. rewrite signing_cert_with in E.
  apply bind_ret_inv in E as (a & ja & Ea & E). destruct (grows_env_context _ _ _ _ Hj Ea) as [Hja _].
  apply bind_ret_inv in E as (? & jb & Eb & E). destruct (grows_regs _ _ _ _ _ Hja Eb) as [Hjb _].
  apply bind_ret_inv in E as (? & jc & Ec & E). destruct (grows_env_services _ _ _ Hjb Ec) as [Hjc _].
  apply bind_ret_inv in E as (? & jd & Ed & E). destruct (grows_env_build _ _ _ _ Hjc Ed) as [Hjd _].
  apply bind_ret_inv in E as (? & je & Ee & E). injection E as <- <- <-.
  destruct (signatures_run _ _ _ _ Hjd Ee) as (Hje & _ & Hc). split; [exact Hje|]. split; [reflexivity|exact Hc].
Qed.

(** Asked who signed the app right after the constructor, the environment
    answers with the certificate of the identity it was built from, or with
    its placeholder when there is none.  What a guest reads once the context
    graph is built is in [EnvGraph]. *)
Lemma certificate_constructed id (j : J) app id' j1 m1 m2 m3 ctx pkg x j2 :
  java_ok j -> chain_free j -> android_env ah id j = (Ret (app, id'), j1) ->
  is_method j1 m1 "android/content/Context" "getPackageManager" ->
  is_method j1 m2 "android/content/pm/PackageManager" "getPackageInfo" ->
  is_method j1 m3 "android/content/pm/Signature" "toByteArray" ->
  read_certificate m1 m2 m3 ctx pkg j1 = (Ret x, j2) ->
  x = Some (filled_cert (signing_cert id)) /\ signing_cert id' = filled_cert (signing_cert id).
Proof.
  intros Hj Hfree E M1 M2 M3 Er. pose proof (env_unqualified _ _ _ _ E) as Hq.
  destruct (android_env_run _ _ _ _ _ Hj E) as (Hj1 & -> & pm & info & arr & sig & P & I & B & F & A).
  rewrite signing_cert_with. split; [|reflexivity].
  refine (chain_read _ _ _ _ pm info arr sig _ _ _ _ _ Hj1 _ Er). apply chain_at; try assumption.
  intros p Hp. rewrite (Hq p Hp). by apply Hfree.
Qed.
End Chain.

(** ** Build fields *)

(** A text with separators, cut. *)
Lemma cut_app d a b : d ∉ a -> cut d (a ++ d :: b) = (a, b).
Proof.
  induction a as [|c a IH]; cbn; intros Hd; [by rewrite Z.eqb_refl|]. apply not_elem_of_cons in Hd as [Hne Hd].
  destruct (Z.eqb_spec c d) as [->|_]; [done|]. by rewrite IH.
Qed.

(** A fingerprint as Android composes it. *)
Definition spelled (b : BuildParts) : list Z :=
  b_brand b ++ 47 :: b_product b ++ 47 :: b_device b ++ 58 :: b_release b ++ 47 :: b_id b ++ 47 ::
  b_incremental b ++ 58 :: b_type b ++ 47 :: b_tags b.
Definition plain (s : list Z) : Prop := s <> [] /\ (47 ∉ s) /\ (58 ∉ s).
Definition parts_plain (b : BuildParts) : Prop :=
  Forall plain [b_brand b; b_product b; b_device b; b_release b; b_id b; b_incremental b; b_type b; b_tags b].

Lemma or_text_plain s d : plain s -> or_text s d = s.
Proof. intros (Hs & _). unfold or_text. by rewrite bool_decide_eq_false_2. Qed.
Lemma build_parts_spelled b : parts_plain b -> build_parts (spelled b) = b.
Proof.
  unfold parts_plain. rewrite !Forall_cons. intros (H1 & H2 & H3 & H4 & H5 & H6 & H7 & H8 & _).
  unfold build_parts, spelled.
  rewrite (cut_app 47 (b_brand b)), (cut_app 47 (b_product b)), (cut_app 58 (b_device b)),
    (cut_app 47 (b_release b)), (cut_app 47 (b_id b)), (cut_app 58 (b_incremental b)), (cut_app 47 (b_type b))
    by (unfold plain in *; tauto).
  rewrite !or_text_plain by done. by destruct b.
Qed.

Section Build.
Context {U HM : Type} `{UcLaws U}.
#[local] Abbreviation J := (JavaRuntime U HM).
Variable as_host : EnvMethod -> HM.

(** The text of a static field. *)
Definition static_text (j : J) (cls f : string) : option (list Z) :=
  match get_static j (bs cls) (bs f) with DObject h => string_of j h | _ => None end.

Lemma static_text_later (j j' : J) cls f s :
  same_static (skey (bs cls) (bs f)) j j' -> extends j j' -> static_text j cls f = Some s -> static_text j' cls f = Some s.
Proof.
  unfold same_static, static_text, get_static. intros -> X.
  destruct (default DVoid _); [done..|]. by apply string_of_keeps.
Qed.

Lemma set_texts_run cls l : NoDup (keys_of cls l) -> forall (j : J) x j', java_ok j -> set_texts cls l j = (Ret x, j') ->
  forall f s, (f, s) ∈ l -> static_text j' cls f = Some s.
Proof.
  induction l as [|[f1 s1] l IH]; intros Hnd j x j' Hj E f s Hin; [by apply not_elem_of_nil in Hin|].
  cbn [keys_of fmap list_fmap] in Hnd. apply NoDup_cons in Hnd as [Hni Hnd].
  apply bind_ret_inv in E as (v & j1 & E1 & E). destruct (grows_give _ _ _ _ Hj E1) as [Hj1 _].
  destruct (give_string_run _ _ _ _ Hj E1) as (_ & h & -> & _ & Hs).
  apply bind_ret_inv in E as ([] & j2 & E2 & E). destruct (grows_set_static _ _ _ _ _ _ Hj1 E2) as [Hj2 X2].
  apply elem_of_cons in Hin as [[= -> ->]|Hin]; [|by eapply IH].
  eapply static_text_later; [exact (texts_static _ _ _ Hni _ _ _ E)|by eapply grows_texts|].
  unfold static_text, get_static. injection E2 as <-. cbn. rewrite lookup_insert_eq. cbn.
  by eapply string_of_keeps.
Qed.

Lemma build_text_keys id b :
  NoDup (keys_of "android/os/Build" (build_texts id b)) /\ NoDup (keys_of "android/os/Build$VERSION" (version_texts id b)).
Proof. split; text_differs. Qed.
(** The second half of [env_build] sets other fields than the first. *)
Lemma versions_static id b : Forall (fun f => respects (same_static (skey (bs "android/os/Build") (bs f)))
  (_ ← set_abis (U := U) (HM := HM) "SUPPORTED_ABIS" ["arm64-v8a"; "armeabi-v7a"; "armeabi"]%string;
   _ ← set_abis "SUPPORTED_64_BIT_ABIS" ["arm64-v8a"]%string;
   _ ← set_abis "SUPPORTED_32_BIT_ABIS" ["armeabi-v7a"; "armeabi"]%string;
   _ ← set_static (bs "android/os/Build$VERSION") (bs "SDK_INT") (DInt (sdk_int id));
   _ ← set_static (bs "android/os/Build$VERSION") (bs "PREVIEW_SDK_INT") (DInt 0);
   set_texts "android/os/Build$VERSION" (version_texts id b))) (fst <$> build_texts id b).
Proof. cbn [build_texts fmap list_fmap fst]. repeat apply Forall_cons_2; try apply Forall_nil_2; unfold set_abis; leaves. Qed.
Lemma grows_abis f l : grows (set_abis (U := U) (HM := HM) f l).
Proof. unfold set_abis. grow. Qed.

Lemma env_build_run id (j : J) x j' : java_ok j -> env_build id j = (Ret x, j') ->
  java_ok j' /\
  (forall f s, (f, s) ∈ build_texts id (build_parts (bs (fingerprint id))) -> static_text j' "android/os/Build" f = Some s) /\
  (forall f s, (f, s) ∈ version_texts id (build_parts (bs (fingerprint id))) ->
     static_text j' "android/os/Build$VERSION" f = Some s).
Proof.
  intros Hj E. unfold env_build in E. cbv zeta in E. set (b := build_parts _) in *.
  destruct (build_text_keys id b) as [K1 K2].
  apply bind_ret_inv in E as ([] & j1 & E1 & E). destruct (grows_texts _ _ _ _ _ Hj E1) as [Hj1 _].
  pose proof (set_texts_run _ _ K1 _ _ _ Hj E1) as T1.
  assert (forall f s, (f, s) ∈ build_texts id b -> same_static (skey (bs "android/os/Build") (bs f)) j1 j') as S1.
  { intros f s Hf. pose proof (versions_static id b) as Hv. rewrite Forall_forall in Hv.
    refine (Hv f _ _ _ _ E). apply list_elem_of_fmap. by exists (f, s). }
  assert (extends j1 j' /\ java_ok j' /\ forall f s, (f, s) ∈ version_texts id b ->
    static_text j' "android/os/Build$VERSION" f = Some s) as (X & Hj' & T2).
  { clear T1 S1 E1. do 3 (apply bind_ret_inv in E as ([] & ? & Ea & E); destruct (grows_abis _ _ _ _ _ ltac:(eassumption) Ea) as [? ?]; clear Ea).
    do 2 (apply bind_ret_inv in E as ([] & ? & Ea & E); destruct (grows_set_static _ _ _ _ _ _ ltac:(eassumption) Ea) as [? ?]; clear Ea).
    match goal with Hj : java_ok ?jj, E : set_texts _ _ ?jj = _ |- _ => destruct (grows_texts _ _ _ _ _ Hj E) as [? ?];
      pose proof (set_texts_run _ _ K2 _ _ _ Hj E) as T2 end.
    split; [|split; [done|exact T2]]. do 5 (eapply extends_trans; [eassumption|]). done. }
  split; [done|]. split; [|exact T2]. intros f s Hf.
  eapply static_text_later; [by eapply S1|done|by apply T1].
Qed.

(** What the fields of [Build] say, each with the part of the fingerprint it
    stands for. *)
Definition build_says (id : DeviceIdentity) (b : BuildParts) : list (string * string * list Z) := [
  ("android/os/Build", "BRAND", b_brand b); ("android/os/Build", "PRODUCT", b_product b);
  ("android/os/Build", "DEVICE", b_device b); ("android/os/Build", "BOARD", b_device b);
  ("android/os/Build", "HARDWARE", b_device b); ("android/os/Build$VERSION", "RELEASE", b_release b);
  ("android/os/Build", "ID", b_id b); ("android/os/Build", "DISPLAY", b_id b);
  ("android/os/Build$VERSION", "INCREMENTAL", b_incremental b);
  ("android/os/Build", "TYPE", b_type b); ("android/os/Build", "TAGS", b_tags b);
  ("android/os/Build", "FINGERPRINT", spelled b); ("android/os/Build", "MODEL", bs (model id));
  ("android/os/Build", "MANUFACTURER", bs (manufacturer id));
  ("android/os/Build$VERSION", "SDK", bs (pretty (sdk_int id)))]%string.

Lemma signatures_static k cert : respects (same_static k) (env_signatures (U := U) as_host cert).
Proof. unfold env_signatures. leaves. Qed.
Lemma grows_signatures cert : grows (env_signatures (U := U) as_host cert).
Proof. unfold env_signatures. grow. Qed.
Lemma grows_context id : grows (env_context (U := U) as_host id).
Proof. unfold env_context. grow. Qed.
Lemma grows_services : grows (env_services (U := U) as_host).
Proof. unfold env_services. grow. Qed.

(** C32: The [Build] fields a packer reads agree with the fingerprint: for a
    fingerprint of the form Android composes, each of them is the part of the
    fingerprint it stands for, and [FINGERPRINT] is the whole. *)
Theorem build_matches_fingerprint id b (j : J) app id' j1 :
  parts_plain b -> bs (fingerprint id) = spelled b -> java_ok j ->
  android_env as_host id j = (Ret (app, id'), j1) ->
  Forall (fun p => static_text j1 p.1.1 p.1.2 = Some p.2) (build_says id b).
Proof.
  intros Hb Hf Hj E. unfold android_env in E. cbv zeta in E. rewrite signing_cert_with in E.
  apply bind_ret_inv in E as (a & ja & Ea & E). destruct (grows_context _ _ _ _ Hj Ea) as [Hja _].
  apply bind_ret_inv in E as (? & jb & Eb & E). destruct (grows_regs _ _ _ _ _ Hja Eb) as [Hjb _].
  apply bind_ret_inv in E as (? & jc & Ec & E). destruct (grows_services _ _ _ Hjb Ec) as [Hjc _].
  apply bind_ret_inv in E as (? & jd & Ed & E). destruct (env_build_run _ _ _ _ Hjc Ed) as (Hjd & T1 & T2).
  apply bind_ret_inv in E as (? & je & Ee & E). injection E as <- <- <-.
  destruct (grows_signatures _ _ _ _ Hjd Ee) as [_ X].
  rewrite Hf, (build_parts_spelled b Hb) in T1, T2.
  assert (forall cls f s, static_text jd cls f = Some s -> static_text je cls f = Some s) as Hl.
  { intros cls f s. apply static_text_later; [exact (signatures_static _ _ _ _ _ Ee)|exact X]. }
  unfold build_says. rewrite <- Hf.
  repeat apply Forall_cons_2; try apply Forall_nil_2; cbn [fst snd]; apply Hl;
    lazymatch goal with
    | |- static_text _ "android/os/Build" _ = _ => apply T1; unfold build_texts
    | |- _ => apply T2; unfold version_texts
    end; in_list.
Qed.
End Build.
