(* ===== verification/EnvGraph.v ===== *)
(** The context graph: what [build_context_graph] of
    [core/android/android_env.cpp] wires together, as a packer walks it.

    [link j o f o'] says that field [f] of object [o] holds [o'], [says] that it
    holds a text. *)

From stdpp Require Import strings.
From S2P Require Import Prelude.
From S2P Require Import Words.
From S2P Require Import Abi.
From S2P Require Import Unicorn.
From S2P Require Import Engine.
From S2P Require Import Memory.
From S2P Require Import JavaRuntime.
From S2P Require Import Jni.
From S2P Require Import Framework.
From S2P Require Import CText.
From S2P Require Import System.
From S2P Require Import EnvMethods.
From S2P Require Import AndroidEnv.
From S2P Require Import EnvFacts.
#[local] Open Scope Z_scope.
#[local] Opaque regs.

Section Graph.
Context {U HM : Type} `{UcLaws U}.
#[local] Abbreviation J := (JavaRuntime U HM).
Variable as_host : EnvMethod -> HM.
Variable no_main_thread no_field_defaults : bool.

(** A field that holds another object, and one that holds a text. *)
Definition link (j : J) (o : Z) (f : string) (o' : Z) : Prop := has j o (bs f) (DObject o').
Definition says (j : J) (o : Z) (f : string) (s : list Z) : Prop := exists h, link j o f h /\ string_of j h = Some s.
(** An object of a class. *)
Definition instance_of (j : J) (o : Z) (cls : list Z) : Prop :=
  exists r, handles_ j !! o = Some r /\ kind r = RObject /\ owner r = cls.

(** Host methods registered between the constructor and the graph (the program
    installs those of ART there, when asked to), under names other than
    these. *)
Definition reserved : list jstring :=
  [bs "getApplicationInfo"; bs "getPackageManager"] ++ (chain_key <$> chain_names).
Definition more_hosts (j j' : J) : Prop :=
  exists hm, j' = with_hosts hm j /\ forall k, k ∈ reserved -> hm !! k = host_methods_ j !! k.
Lemma more_hosts_refl (j : J) : more_hosts j j.
Proof. exists (host_methods_ j). split; [by destruct j|done]. Qed.
Lemma more_hosts_register n fn (j j' : J) r :
  bs n ∉ reserved -> register_method (bs n) fn j = (r, j') -> more_hosts j j'.
Proof.
  intros Hn [= _ <-]. eexists. split; [done|]. intros k Hk. apply lookup_insert_ne. by intros <-.
Qed.
Lemma more_hosts_trans (j1 j2 j3 : J) : more_hosts j1 j2 -> more_hosts j2 j3 -> more_hosts j1 j3.
Proof.
  intros (h1 & -> & K1) (h2 & -> & K2). exists h2. split; [done|]. intros k Hk. by rewrite (K2 k Hk), <- K1.
Qed.
Lemma more_hosts_ok (j j' : J) : more_hosts j j' -> java_ok j -> java_ok j'.
Proof. intros (hm & -> & _) [A B C D E]. by split. Qed.
Lemma more_hosts_key k (j j' : J) : k ∈ reserved -> more_hosts j j' -> same_host k j j'.
Proof. intros Hk (hm & -> & K). by apply K. Qed.
Lemma more_hosts_table (j j' : J) : more_hosts j j' ->
  (forall o c, instance_of j o c -> instance_of j' o c) /\ (forall o f s, says j o f s -> says j' o f s).
Proof. by intros (hm & -> & _). Qed.

Lemma link_later (j j' : J) o f o' : same_field (bs f) j j' -> link j o f o' -> link j' o f o'.
Proof. intros S. apply S. Qed.
Lemma says_later (j j' : J) o f s : same_field (bs f) j j' -> extends j j' -> says j o f s -> says j' o f s.
Proof. intros S X (h & L & T). exists h. split; [by apply S|by eapply string_of_keeps]. Qed.
Lemma instance_later (j j' : J) o cls : extends j j' -> instance_of j o cls -> instance_of j' o cls.
Proof.
  intros X (r & Hr & K & O). destruct (ex_handles _ _ X _ _ Hr) as (r' & Hr' & (K' & _ & _ & O' & _)).
  exists r'. split; [done|]. split; congruence.
Qed.
Lemma instance_known (j : J) o cls : instance_of j o cls -> is_Some (handles_ j !! o).
Proof. intros (r & Hr & _). by exists r. Qed.

Lemma new_instance cls (j : J) o j' :
  java_ok j -> new_object cls j = (Ret o, j') -> java_ok j' /\ extends j j' /\ instance_of j' o cls.
Proof.
  intros Hj E. destruct (new_record _ _ _ _ _ Hj E) as (Hj' & X & _ & _ & Hr).
  split; [done|]. split; [done|]. by eexists.
Qed.
Lemma set_link o f o' (j : J) x j' cls :
  java_ok j -> instance_of j o cls -> set_field o (bs f) (DObject o') j = (Ret x, j') ->
  java_ok j' /\ extends j j' /\ link j' o f o'.
Proof.
  intros Hj Ho E. destruct (grows_set_field _ _ _ _ _ _ Hj E) as [Hj' X]. split; [done|]. split; [done|].
  exact (set_field_has _ _ _ _ _ _ (instance_known _ _ _ Ho) E).
Qed.
Lemma set_says o f s (j : J) x j' cls :
  java_ok j -> instance_of j o cls -> set_string o f s j = (Ret x, j') ->
  java_ok j' /\ extends j j' /\ says j' o f s.
Proof.
  intros Hj Ho E. destruct (grows_set_string _ _ _ _ _ _ Hj E) as [Hj' X]. split; [done|]. split; [done|].
  apply bind_ret_inv in E as (v & j1 & E1 & E). destruct (give_string_run _ _ _ _ Hj E1) as (Hj1 & h & -> & _ & Hs).
  destruct (grows_give _ _ _ _ Hj E1) as [_ X1]. pose proof (instance_later _ _ _ _ X1 Ho) as Ho1.
  destruct (set_link _ _ _ _ _ _ _ Hj1 Ho1 E) as (_ & X2 & L). exists h. split; [exact L|by eapply string_of_keeps].
Qed.
End Graph.

(** What the rest of a run, [E], does to a field, and that it extends the table. *)
Ltac rest_field E := refine ((_ : respects (same_field _) _) _ _ _ E); unfold set_string, set_new; leaves.
Ltac rest_extends Hj E := refine (proj2 ((_ : grows _) _ _ _ Hj E)); unfold set_new; grow.
Ltac rest_ok Hj E := refine (proj1 ((_ : grows _) _ _ _ Hj E)); unfold set_new; grow.

(** The same for whole phases, and carrying a fact over one. *)
Ltac phases :=
  unfold graph_app_info, graph_bind_data, graph_package_info, graph_activity_thread, graph_class_loader, graph_rest,
    graph_probes, set_string, set_new; leaves.
Ltac keep_host E := refine ((_ : respects (same_host _) _) _ _ _ E); phases.
Ltac keep_elems E := refine ((_ : respects same_elems _) _ _ _ E); phases.
Ltac keep_field E := refine ((_ : respects (same_field _) _) _ _ _ E); phases.
Ltac carry L E X :=
  lazymatch type of E with
  | _ = (_, ?j') =>
      lazymatch type of L with
      | link ?j ?o ?f ?o' =>
          let L' := fresh in assert (link j' o f o') as L' by (eapply link_later; [keep_field E|exact L]); clear L;
          rename L' into L
      | says ?j ?o ?f ?s =>
          let L' := fresh in assert (says j' o f s) as L' by (eapply says_later; [keep_field E|exact X|exact L]); clear L;
          rename L' into L
      end
  end.

Section GraphRun.
Context {U HM : Type} `{UcLaws U}.
#[local] Abbreviation J := (JavaRuntime U HM).
Variable as_host : EnvMethod -> HM.
Variable no_main_thread no_field_defaults : bool.

Lemma grows_app_info id : grows (graph_app_info (U := U) (HM := HM) id).
Proof. unfold graph_app_info. grow. Qed.
Lemma app_info_run id (j : J) info j' :
  java_ok j -> graph_app_info id j = (Ret info, j') ->
  instance_of j' info (bs "android/content/pm/ApplicationInfo") /\
  says j' info "sourceDir" (bs (apk_path id)) /\ says j' info "nativeLibraryDir" (bs (native_lib_dir id)).
Proof.
  intros Hj E. unfold graph_app_info in E.
  apply bind_ret_inv in E as (o & j1 & E1 & E). destruct (new_instance _ _ _ _ Hj E1) as (Hj1 & _ & I1).
  assert (o = info /\ extends j1 j') as [-> X1].
  { split; [|rest_extends Hj1 E]. repeat (apply bind_ret_inv in E as (? & ? & _ & E)). by injection E. }
  split; [by eapply instance_later|].
  apply bind_ret_inv in E as (? & j2 & E2 & E). destruct (set_says _ _ _ _ _ _ _ Hj1 I1 E2) as (Hj2 & X2 & S2).
  pose proof (instance_later _ _ _ _ X2 I1) as I2.
  split; [eapply says_later; [rest_field E|rest_extends Hj2 E|exact S2]|].
  apply bind_ret_inv in E as (? & j3 & E3 & E). destruct (set_says _ _ _ _ _ _ _ Hj2 I2 E3) as (Hj3 & X3 & _).
  pose proof (instance_later _ _ _ _ X3 I2) as I3.
  apply bind_ret_inv in E as (? & j4 & E4 & E). destruct (set_says _ _ _ _ _ _ _ Hj3 I3 E4) as (Hj4 & X4 & _).
  pose proof (instance_later _ _ _ _ X4 I3) as I4.
  apply bind_ret_inv in E as (? & j5 & E5 & E). destruct (set_says _ _ _ _ _ _ _ Hj4 I4 E5) as (Hj5 & X5 & S5).
  eapply says_later; [rest_field E|rest_extends Hj5 E|exact S5].
Qed.

Lemma grows_bind_data id info : grows (graph_bind_data (U := U) (HM := HM) id info).
Proof. unfold graph_bind_data, set_new. grow. Qed.
Lemma bind_data_run id info (j : J) bind j' :
  java_ok j -> graph_bind_data id info j = (Ret bind, j') ->
  link j' bind "appInfo" info /\ says j' bind "processName" (bs (package_name id)).
Proof.
  intros Hj E. unfold graph_bind_data in E.
  apply bind_ret_inv in E as (o & j1 & E1 & E). destruct (new_instance _ _ _ _ Hj E1) as (Hj1 & _ & I1).
  assert (o = bind) as -> by (repeat (apply bind_ret_inv in E as (? & ? & _ & E)); by injection E).
  apply bind_ret_inv in E as (? & j2 & E2 & E). destruct (set_link _ _ _ _ _ _ _ Hj1 I1 E2) as (Hj2 & X2 & L2).
  split; [eapply link_later; [rest_field E|exact L2]|]. pose proof (instance_later _ _ _ _ X2 I1) as I2.
  apply bind_ret_inv in E as (? & j3 & E3 & E). destruct (set_says _ _ _ _ _ _ _ Hj2 I2 E3) as (Hj3 & X3 & S3).
  eapply says_later; [rest_field E|rest_extends Hj3 E|exact S3].
Qed.

Lemma grows_package_info id info : grows (graph_package_info (U := U) as_host id info).
Proof. unfold graph_package_info. grow. Qed.
Lemma give_array_run l (j : J) v j' :
  java_ok j -> give_array l j = (Ret v, j') -> java_ok j' /\ extends j j' /\ exists arr, v = DObject arr /\ array_of j' arr l.
Proof.
  intros Hj E. destruct (grows_give_array _ _ _ _ Hj E) as [Hj' X]. apply bind_ret_inv in E as (arr & j1 & E1 & E).
  destruct (new_array_run _ _ _ _ Hj E1) as (_ & _ & _ & _ & A). injection E as <- <-. eauto.
Qed.
Lemma package_info_run id info (j : J) pkg j' :
  java_ok j -> graph_package_info as_host id info j = (Ret pkg, j') ->
  link j' pkg "applicationInfo" info /\ says j' pkg "packageName" (bs (package_name id)) /\
  host_methods_ j' !! bs "toByteArray" = Some (as_host (EBytes (signing_cert id))) /\
  host_methods_ j' !! bs "getPackageInfo" = Some (as_host (EValue (DObject pkg))) /\
  exists arr sig, link j' pkg "signatures" arr /\ array_of j' arr [sig].
Proof.
  intros Hj E. unfold graph_package_info in E.
  apply bind_ret_inv in E as (o & j1 & E1 & E). destruct (new_instance _ _ _ _ Hj E1) as (Hj1 & _ & I1).
  assert (o = pkg) as -> by (repeat (apply bind_ret_inv in E as (? & ? & _ & E)); by injection E).
  apply bind_ret_inv in E as (? & j2 & E2 & E). destruct (set_link _ _ _ _ _ _ _ Hj1 I1 E2) as (Hj2 & X2 & L2).
  split; [eapply link_later; [rest_field E|exact L2]|]. pose proof (instance_later _ _ _ _ X2 I1) as I2.
  apply bind_ret_inv in E as (? & j3 & E3 & E). destruct (set_says _ _ _ _ _ _ _ Hj2 I2 E3) as (Hj3 & X3 & S3).
  split; [eapply says_later; [rest_field E|rest_extends Hj3 E|exact S3]|]. pose proof (instance_later _ _ _ _ X3 I2) as I3.
  apply bind_ret_inv in E as (sig & j4 & E4 & E). destruct (new_instance _ _ _ _ Hj3 E4) as (Hj4 & X4 & _).
  pose proof (instance_later _ _ _ _ X4 I3) as I4.
  apply bind_ret_inv in E as (? & j5 & E5 & E). destruct (grows_regs _ _ _ _ _ Hj4 E5) as [Hj5 X5].
  pose proof (instance_later _ _ _ _ X5 I4) as I5. split.
  { transitivity (host_methods_ j5 !! bs "toByteArray").
    - refine ((_ : respects (same_host _) _) _ _ _ E). leaves.
    - eapply (regs_lookup as_host []); [|exact E5]; text_differs. }
  apply bind_ret_inv in E as (v & j6 & E6 & E). destruct (give_array_run _ _ _ _ Hj5 E6) as (Hj6 & X6 & arr & -> & A6).
  pose proof (instance_later _ _ _ _ X6 I5) as I6.
  apply bind_ret_inv in E as (? & j7 & E7 & E). destruct (set_link _ _ _ _ _ _ _ Hj6 I6 E7) as (Hj7 & X7 & L7).
  split; cycle 1.
  { exists arr, sig. split; [eapply link_later; [rest_field E|exact L7]|].
    eapply array_of_keeps; [refine ((_ : respects same_elems _) _ _ _ E); leaves|].
    eapply array_of_keeps; [exact (set_field_elems _ _ _ _ _ _ E7)|exact A6]. }
  apply bind_ret_inv in E as (si & j8 & E8 & E). apply bind_ret_inv in E as (? & j9 & E9 & E).
  apply bind_ret_inv in E as (? & j10 & E10 & E). injection E as <-.
  eapply (regs_lookup as_host [_; _]); [|exact E10]. text_differs.
Qed.

Lemma grows_activity_thread opt bind : grows (graph_activity_thread (U := U) as_host opt bind).
Proof. unfold graph_activity_thread, set_new. grow. Qed.
Lemma activity_thread_run opt bind (j : J) thread app j' :
  java_ok j -> graph_activity_thread as_host opt bind j = (Ret (thread, app), j') ->
  instance_of j' app (c_text (app_class opt)) /\ instance_of j' thread (bs "android/app/ActivityThread") /\
  link j' thread "mBoundApplication" bind /\ link j' thread "mInitialApplication" app /\
  host_methods_ j' !! bs "currentActivityThread" = Some (as_host (EValue (DObject thread))).
Proof.
  intros Hj E. unfold graph_activity_thread in E.
  apply bind_ret_inv in E as (o & j1 & E1 & E). destruct (new_instance _ _ _ _ Hj E1) as (Hj1 & _ & I1).
  apply bind_ret_inv in E as (? & j2 & E2 & E). destruct (set_link _ _ _ _ _ _ _ Hj1 I1 E2) as (Hj2 & X2 & L2).
  pose proof (instance_later _ _ _ _ X2 I1) as I2.
  assert (link j' o "mBoundApplication" bind) as L by (eapply link_later; [rest_field E|exact L2]).
  apply bind_ret_inv in E as (? & j3 & E3 & E). destruct (grows_regs _ _ _ _ _ Hj2 E3) as [Hj3 X3].
  pose proof (instance_later _ _ _ _ X3 I2) as I3.
  assert (host_methods_ j' !! bs "currentActivityThread" = Some (as_host (EValue (DObject o)))) as Hh.
  { transitivity (host_methods_ j3 !! bs "currentActivityThread").
    - refine ((_ : respects (same_host _) _) _ _ _ E). unfold set_new. leaves.
    - eapply (regs_lookup as_host []); [|exact E3]; text_differs. }
  apply bind_ret_inv in E as (a & j4 & E4 & E). destruct (new_instance _ _ _ _ Hj3 E4) as (Hj4 & X4 & I4).
  pose proof (instance_later _ _ _ _ X4 I3) as T4.
  assert (extends j4 j') as Xr by (rest_extends Hj4 E).
  apply bind_ret_inv in E as (? & j5 & E5 & E). destruct (set_link _ _ _ _ _ _ _ Hj4 T4 E5) as (Hj5 & X5 & L5).
  assert (link j' o "mInitialApplication" a) as L' by (eapply link_later; [rest_field E|exact L5]).
  repeat (apply bind_ret_inv in E as (? & ? & _ & E)). injection E as -> -> ->.
  split; [by eapply instance_later|]. split; [by eapply instance_later|]. done.
Qed.

Lemma grows_class_loader opt ctx info thread :
  grows (graph_class_loader (U := U) (HM := HM) no_main_thread no_field_defaults opt ctx info thread).
Proof. unfold graph_class_loader, set_new. grow. Qed.
Lemma class_loader_run opt ctx info thread (j : J) loader j' cls :
  java_ok j -> instance_of j ctx cls ->
  graph_class_loader no_main_thread no_field_defaults opt ctx info thread j = (Ret loader, j') ->
  instance_of j' loader (c_text (class_loader_class opt)) /\
  (exists apk, link j' ctx "mPackageInfo" apk /\ link j' apk "mClassLoader" loader /\ link j' apk "mApplicationInfo" info) /\
  link j' ctx "mOuterContext" ctx /\ (no_main_thread = false -> link j' ctx "mMainThread" thread).
Proof.
  intros Hj I0 E. unfold graph_class_loader in E.
  apply bind_ret_inv in E as (o & j1 & E1 & E). destruct (new_instance _ _ _ _ Hj E1) as (Hj1 & X1 & I1).
  assert (o = loader) as -> by (repeat (apply bind_ret_inv in E as (? & ? & _ & E)); by injection E).
  assert (extends j1 j') as Xr by (rest_extends Hj1 E). split; [by eapply instance_later|].
  pose proof (instance_later _ _ _ _ X1 I0) as C1.
  apply bind_ret_inv in E as (pl & j2 & E2 & E). destruct (new_instance _ _ _ _ Hj1 E2) as (Hj2 & X2 & _).
  pose proof (instance_later _ _ _ _ X2 C1) as C2.
  apply bind_ret_inv in E as (el & j3 & E3 & E). destruct (grows_give_array _ _ _ _ Hj2 E3) as [Hj3 X3].
  pose proof (instance_later _ _ _ _ X3 C2) as C3.
  apply bind_ret_inv in E as (? & j4 & E4 & E). destruct (grows_set_field _ _ _ _ _ _ Hj3 E4) as [Hj4 X4].
  pose proof (instance_later _ _ _ _ X4 C3) as C4.
  apply bind_ret_inv in E as (? & j5 & E5 & E). destruct (grows_set_field _ _ _ _ _ _ Hj4 E5) as [Hj5 X5].
  pose proof (instance_later _ _ _ _ X5 C4) as C5.
  apply bind_ret_inv in E as (apk & j6 & E6 & E). destruct (new_instance _ _ _ _ Hj5 E6) as (Hj6 & X6 & I6).
  pose proof (instance_later _ _ _ _ X6 C5) as C6.
  apply bind_ret_inv in E as (? & j7 & E7 & E). destruct (set_link _ _ _ _ _ _ _ Hj6 I6 E7) as (Hj7 & X7 & L7).
  pose proof (instance_later _ _ _ _ X7 C6) as C7. pose proof (instance_later _ _ _ _ X7 I6) as I7.
  assert (link j' apk "mClassLoader" loader) as La by (eapply link_later; [rest_field E|exact L7]).
  apply bind_ret_inv in E as (? & j8 & E8 & E). destruct (set_link _ _ _ _ _ _ _ Hj7 I7 E8) as (Hj8 & X8 & L8).
  pose proof (instance_later _ _ _ _ X8 C7) as C8.
  assert (link j' apk "mApplicationInfo" info) as Lb by (eapply link_later; [rest_field E|exact L8]).
  apply bind_ret_inv in E as (? & j9 & E9 & E). destruct (set_link _ _ _ _ _ _ _ Hj8 C8 E9) as (Hj9 & X9 & L9).
  pose proof (instance_later _ _ _ _ X9 C8) as C9.
  split; [exists apk; split; [eapply link_later; [rest_field E|exact L9]|done]|].
  apply bind_ret_inv in E as (? & j10 & E10 & E). destruct (set_link _ _ _ _ _ _ _ Hj9 C9 E10) as (Hj10 & X10 & L10).
  pose proof (instance_later _ _ _ _ X10 C9) as C10.
  split; [eapply link_later; [rest_field E|exact L10]|]. intros Hm.
  apply bind_ret_inv in E as (? & j11 & E11 & E). rewrite Hm in E11.
  destruct (set_link _ _ _ _ _ _ _ Hj10 C10 E11) as (Hj11 & X11 & L11).
  eapply link_later; [rest_field E|exact L11].
Qed.

(** The graph a packer walks. *)
Record wired (id : DeviceIdentity) (opt : ContextGraphOptions) (g : ContextGraph) (j : J) : Prop := {
  w_app : instance_of j (g_application g) (c_text (app_class opt));
  w_loader : instance_of j (class_loader g) (c_text (class_loader_class opt));
  w_apk : exists apk, link j (context g) "mPackageInfo" apk /\ link j apk "mClassLoader" (class_loader g) /\
                      link j apk "mApplicationInfo" (app_info g);
  w_outer : link j (context g) "mOuterContext" (context g);
  w_thread : no_main_thread = false -> link j (context g) "mMainThread" (activity_thread g);
  w_initial : link j (activity_thread g) "mInitialApplication" (g_application g);
  w_bound : exists bind, link j (activity_thread g) "mBoundApplication" bind /\ link j bind "appInfo" (app_info g) /\
                         says j bind "processName" (bs (package_name id));
  w_package : link j (package_info g) "applicationInfo" (app_info g);
  w_name : says j (package_info g) "packageName" (bs (package_name id));
  w_source : says j (app_info g) "sourceDir" (bs (apk_path id));
  w_libs : says j (app_info g) "nativeLibraryDir" (bs (native_lib_dir id));
  w_signed : exists arr sig, link j (package_info g) "signatures" arr /\ array_of j arr [sig];
}.
(** The methods that hand out an object of the graph.  Those that are asked
    for the application hand out the Context. *)
Definition context_methods : list string := [
  "getAppContext"; "getApplicationContext"; "getBaseContext"; "getApplication"; "currentApplication";
  "getApplicationOnCreate"; "getSystemContext"; "getSystemContextInner"]%string.
Definition handed (g : ContextGraph) : list (string * Z) :=
  ((fun n => (n, context g)) <$> context_methods) ++
  [("getClassLoader", class_loader g); ("getContextClassLoader", class_loader g);
   ("currentActivityThread", activity_thread g); ("getPackageInfo", package_info g)]%string.
Definition hands (j : J) (n : string) (o : Z) : Prop := host_methods_ j !! bs n = Some (as_host (EValue (DObject o))).

(** [id0] is the identity the constructor saw, [id] the one the graph is built from. *)
Record answers (id0 id : DeviceIdentity) (g : ContextGraph) (j : J) : Prop := {
  a_objects : Forall (fun p => hands j p.1 p.2) (handed g);
  a_cert : host_methods_ j !! bs "toByteArray" = Some (as_host (EBytes (signing_cert id)));
  a_application : context g <> g_application g;
  a_info : exists info, hands j "getApplicationInfo" info /\ info <> app_info g /\
    instance_of j info (bs "android/content/pm/ApplicationInfo") /\
    says j info "sourceDir" (bs (apk_path id0)) /\ says j info "nativeLibraryDir" (bs (native_lib_dir id0));
}.

Lemma grows_probes jdir : grows (graph_probes (U := U) as_host jdir).
Proof. unfold graph_probes. grow. Qed.

(** The phases one after the other, and the states between them. *)
Lemma graph_phases id opt (j : J) g j' :
  java_ok j -> build_context_graph as_host no_main_thread no_field_defaults id opt j = (Ret g, j') ->
  exists bind j1 j2 j3 j4 j5 j6,
    java_ok j1 /\ extends j j1 /\ (forall n, same_field n j j1) /\ instance_of j1 (context g) (bs "android/content/Context") /\
    hands j1 "getAppContext" (context g) /\
    graph_app_info id j1 = (Ret (app_info g), j2) /\
    graph_bind_data id (app_info g) j2 = (Ret bind, j3) /\
    graph_package_info as_host id (app_info g) j3 = (Ret (package_info g), j4) /\
    graph_activity_thread as_host opt bind j4 = (Ret (activity_thread g, g_application g), j5) /\
    graph_class_loader no_main_thread no_field_defaults opt (context g) (app_info g) (activity_thread g) j5
      = (Ret (class_loader g), j6) /\
    graph_rest as_host (context g) (class_loader g) (bs "/data/user/0/" ++ bs (package_name id) ++ bs "/.jiagu") opt j6
      = (Ret tt, j').
Proof.
  intros Hj E. unfold build_context_graph in E. cbv zeta in E.
  apply bind_ret_inv in E as (ctx & j0 & E0 & E). destruct (new_instance _ _ _ _ Hj E0) as (Hj0 & X0 & I0).
  apply bind_ret_inv in E as (? & j1 & E1 & E). destruct (grows_regs _ _ _ _ _ Hj0 E1) as [Hj1 X1].
  apply bind_ret_inv in E as (info & j2 & E2 & E). apply bind_ret_inv in E as (bind & j3 & E3 & E).
  apply bind_ret_inv in E as (pkg & j4 & E4 & E). apply bind_ret_inv in E as ([thread app] & j5 & E5 & E).
  apply bind_ret_inv in E as (loader & j6 & E6 & E). exists bind, j1, j2, j3, j4, j5, j6.
  apply bind_ret_inv in E as ([] & j7 & E7 & E). injection E as <- <-.
  split; [exact Hj1|]. split; [by eapply extends_trans|]. split.
  { intros n. transitivity j0; [exact (calm_field _ _ _ (calm_new_of _ _ _ _ _ E0))|exact (regs_field as_host n _ _ _ _ E1)]. }
  split; [exact (instance_later _ _ _ _ X1 I0)|]. split; [eapply (regs_lookup as_host []); [|exact E1]; text_differs|].
  repeat (split; [assumption|]). exact E7.
Qed.

Lemma grows_rest ctx loader jdir opt : grows (graph_rest (U := U) as_host ctx loader jdir opt).
Proof.
  unfold graph_rest. apply grows_bind; [apply grows_regs|]. intros _. apply grows_bind; [apply grows_new_of|]. intros t.
  apply grows_bind; [apply grows_regs|]. intros _. destruct (extra_probes opt); [apply grows_probes|apply grows_ret].
Qed.

(** The rows of the last phase. *)
Lemma rest_rows ctx loader jdir opt (j : J) x j' :
  graph_rest as_host ctx loader jdir opt j = (Ret x, j') ->
  Forall (fun p => hands j' p.1 p.2)
    (((fun n => (n, ctx)) <$> drop 1 context_methods) ++
     [("getClassLoader", loader); ("getContextClassLoader", loader)]%string).
Proof.
  intros E. unfold graph_rest in E. apply bind_ret_inv in E as (? & j1 & E1 & E).
  apply bind_ret_inv in E as (jt & j2 & E2 & E). apply bind_ret_inv in E as (? & j3 & E3 & E).
  cbn [context_methods drop fmap list_fmap app].
  repeat apply Forall_cons_2; try apply Forall_nil_2; cbn [fst snd]; unfold hands;
    lazymatch goal with |- host_methods_ _ !! ?k = _ =>
      first
        [ transitivity (host_methods_ j1 !! k);
          [transitivity (host_methods_ j3 !! k); [keep_host E|];
           transitivity (host_methods_ j2 !! k); [keep_host E3|keep_host E2]
          |refine (regs_lookup_in _ _ _ _ _ _ _ _ _ E1); [text_differs|in_list]]
        | transitivity (host_methods_ j3 !! k); [keep_host E|];
          refine (regs_lookup_in _ _ _ _ _ _ _ _ _ E3); [text_differs|unfold graph_methods; in_list] ]
    end.
Qed.

(** *** The constructor's ApplicationInfo *)

Lemma grows_ctx id : grows (env_context (U := U) as_host id).
Proof. unfold env_context. grow. Qed.
Lemma grows_rest_env id cert :
  grows (U := U) (HM := HM) (_ ← regs as_host env_library; _ ← env_services as_host; _ ← env_build id; env_signatures as_host cert).
Proof. unfold env_services, env_build, env_signatures, set_abis. grow. Qed.

Lemma context_info_run id (j : J) app j' :
  java_ok j -> env_context as_host id j = (Ret app, j') ->
  exists info, hands j' "getApplicationInfo" info /\
    instance_of j' info (bs "android/content/pm/ApplicationInfo") /\
    says j' info "sourceDir" (bs (apk_path id)) /\ says j' info "nativeLibraryDir" (bs (native_lib_dir id)).
Proof.
  intros Hj E. unfold env_context in E.
  apply bind_ret_inv in E as (a & ja & Ea & E). destruct (new_instance _ _ _ _ Hj Ea) as (Hja & _ & _).
  apply bind_ret_inv in E as (o & j1 & E1 & E). destruct (new_instance _ _ _ _ Hja E1) as (Hj1 & _ & I1).
  assert (extends j1 j') as X1 by rest_extends Hj1 E.
  exists o. split; cycle 1.
  - split; [by eapply instance_later|].
    apply bind_ret_inv in E as (? & j2 & E2 & E). destruct (set_says _ _ _ _ _ _ _ Hj1 I1 E2) as (Hj2 & X2 & S2).
    pose proof (instance_later _ _ _ _ X2 I1) as I2.
    split; [eapply says_later; [rest_field E|rest_extends Hj2 E|exact S2]|].
    apply bind_ret_inv in E as (? & j3 & E3 & E). destruct (set_says _ _ _ _ _ _ _ Hj2 I2 E3) as (Hj3 & X3 & S3).
    eapply says_later; [rest_field E|rest_extends Hj3 E|exact S3].
  - do 3 (apply bind_ret_inv in E as (? & ? & _ & E)). apply bind_ret_inv in E as (loader & j5 & E5 & E).
    apply bind_ret_inv in E as (? & j6 & E6 & E). injection E as _ <-.
    unfold hands. refine (regs_lookup_in _ _ _ _ _ _ _ _ _ E6); [text_differs|in_list].
Qed.

(** It is still the one that is handed out after the rest of the constructor. *)
Lemma env_info_run id (j : J) app id' j' :
  java_ok j -> android_env as_host id j = (Ret (app, id'), j') ->
  java_ok j' /\ exists info, hands j' "getApplicationInfo" info /\
    instance_of j' info (bs "android/content/pm/ApplicationInfo") /\
    says j' info "sourceDir" (bs (apk_path id)) /\ says j' info "nativeLibraryDir" (bs (native_lib_dir id)).
Proof.
  intros Hj E. unfold android_env in E. cbv zeta in E.
  apply bind_ret_inv in E as (a & j1 & E1 & E). destruct (grows_ctx _ _ _ _ Hj E1) as [Hj1 _].
  destruct (context_info_run _ _ _ _ Hj E1) as (info & Hh & Ii & Sa & Sb).
  assert (exists x, (_ ← regs as_host env_library; _ ← env_services as_host; _ ← env_build id;
    env_signatures as_host (signing_cert (with_cert id (filled_cert (signing_cert id))))) j1 = (Ret x, j')) as [x E2].
  { apply bind_ret_inv in E as (? & ja & Ea & E). apply bind_ret_inv in E as (? & jb & Eb & E).
    apply bind_ret_inv in E as (? & jc & Ec & E). apply bind_ret_inv in E as (y & jd & Ed & E). injection E as _ _ <-.
    exists y. by rewrite (bind_run _ _ _ _ _ Ea), (bind_run _ _ _ _ _ Eb), (bind_run _ _ _ _ _ Ec). }
  clear E. destruct (grows_rest_env _ _ _ _ _ Hj1 E2) as [Hj2 X2]. split; [exact Hj2|]. exists info.
  assert (forall R, PreOrder R -> respects R (regs as_host env_library) -> respects R (env_services as_host) ->
    respects R (env_build id) -> respects R (env_signatures as_host (signing_cert (with_cert id (filled_cert (signing_cert id))))) ->
    R j1 j') as Hr.
  { intros R HR R1 R2 R3 R4. refine ((_ : respects R _) _ _ _ E2).
    apply respects_bind; [exact HR|exact R1|intros _]. apply respects_bind; [exact HR|exact R2|intros _].
    apply respects_bind; [exact HR|exact R3|intros _; exact R4]. }
  assert (same_host (bs "getApplicationInfo") j1 j') as Sh
    by (apply (Hr (same_host (bs "getApplicationInfo"))); [exact _|..]; unfold env_services, env_build, set_abis, env_signatures; leaves).
  assert (same_field (bs "sourceDir") j1 j') as F1
    by (apply (Hr (same_field (bs "sourceDir"))); [exact _|..]; unfold env_services, env_build, set_abis, env_signatures; leaves).
  assert (same_field (bs "nativeLibraryDir") j1 j') as F2
    by (apply (Hr (same_field (bs "nativeLibraryDir"))); [exact _|..]; unfold env_services, env_build, set_abis, env_signatures; leaves).
  split; [unfold hands; by rewrite Sh|]. split; [by eapply instance_later|].
  split; by eapply says_later.
Qed.

(** Objects made later are others. *)
Lemma new_other cls (j : J) o h j' c : instance_of j h c -> java_ok j -> new_object cls j = (Ret o, j') -> h <> o.
Proof.
  intros (r & Hr & _) Hj E ->. destruct (new_record _ _ _ _ _ Hj E) as (_ & _ & _ & Hn & _). congruence.
Qed.
Lemma app_info_other id (j : J) info h j' c :
  instance_of j h c -> java_ok j -> graph_app_info id j = (Ret info, j') -> h <> info.
Proof.
  intros Hh Hj E. unfold graph_app_info in E. apply bind_ret_inv in E as (o & j1 & E1 & E).
  assert (o = info) as -> by (repeat (apply bind_ret_inv in E as (? & ? & _ & E)); by injection E).
  exact (new_other _ _ _ _ _ _ Hh Hj E1).
Qed.
Lemma application_other opt bind (j : J) thread app h j' c :
  instance_of j h c -> java_ok j -> graph_activity_thread as_host opt bind j = (Ret (thread, app), j') -> h <> app.
Proof.
  intros Hh Hj E. unfold graph_activity_thread in E.
  apply bind_ret_inv in E as (o & j1 & E1 & E). destruct (new_instance _ _ _ _ Hj E1) as (Hj1 & X1 & _).
  apply bind_ret_inv in E as (? & j2 & E2 & E). destruct (grows_set_field _ _ _ _ _ _ Hj1 E2) as [Hj2 X2].
  apply bind_ret_inv in E as (? & j3 & E3 & E). destruct (grows_regs _ _ _ _ _ Hj2 E3) as [Hj3 X3].
  apply bind_ret_inv in E as (a & j4 & E4 & E).
  assert (a = app) as -> by (repeat (apply bind_ret_inv in E as (? & ? & _ & E)); by injection E).
  refine (new_other _ _ _ _ _ _ _ Hj3 E4). eapply instance_later; [|exact Hh].
  exact (extends_trans _ _ _ X1 (extends_trans _ _ _ X2 X3)).
Qed.

Lemma graph_links id opt (j : J) g j' :
  java_ok j -> build_context_graph as_host no_main_thread no_field_defaults id opt j = (Ret g, j') -> wired id opt g j'.
Proof.
  intros Hj E. destruct (graph_phases _ _ _ _ _ Hj E) as (bind & j1 & j2 & j3 & j4 & j5 & j6 & Hj1 & _ & _ & I1 & _ & E1 & E2 & E3 & E4 & E5 & E6).
  destruct (grows_app_info _ _ _ _ Hj1 E1) as [Hj2 X1]. destruct (app_info_run _ _ _ _ Hj1 E1) as (Ii & Sa & Sb).
  destruct (grows_bind_data _ _ _ _ _ Hj2 E2) as [Hj3 X2]. destruct (bind_data_run _ _ _ _ _ Hj2 E2) as (La & Sc).
  destruct (grows_package_info _ _ _ _ _ Hj3 E3) as [Hj4 X3].
  destruct (package_info_run _ _ _ _ _ Hj3 E3) as (Lb & Sd & Ha & Hb & arr & sig & Lc & Ar).
  destruct (grows_activity_thread _ _ _ _ _ Hj4 E4) as [Hj5 X4].
  destruct (activity_thread_run _ _ _ _ _ _ Hj4 E4) as (Ia & It & Ld & Le & Hc).
  destruct (grows_class_loader _ _ _ _ _ _ _ Hj5 E5) as [Hj6 X5].
  pose proof (instance_later _ _ _ _ (extends_trans _ _ _ X1 (extends_trans _ _ _ X2 (extends_trans _ _ _ X3 X4))) I1) as I5.
  destruct (class_loader_run _ _ _ _ _ _ _ _ Hj5 I5 E5) as (Il & (apk & Lf & Lg & Lh) & Li & Lj).
  pose proof (grows_rest _ _ _ _ _ _ _ Hj6 E6) as [_ X6].
  carry La E3 X3. carry La E4 X4. carry La E5 X5. carry La E6 X6.
  carry Lb E4 X4. carry Lb E5 X5. carry Lb E6 X6. carry Lc E4 X4. carry Lc E5 X5. carry Lc E6 X6.
  carry Ld E5 X5. carry Ld E6 X6. carry Le E5 X5. carry Le E6 X6.
  carry Lf E6 X6. carry Lg E6 X6. carry Lh E6 X6. carry Li E6 X6.
  carry Sa E2 X2. carry Sa E3 X3. carry Sa E4 X4. carry Sa E5 X5. carry Sa E6 X6.
  carry Sb E2 X2. carry Sb E3 X3. carry Sb E4 X4. carry Sb E5 X5. carry Sb E6 X6.
  carry Sc E3 X3. carry Sc E4 X4. carry Sc E5 X5. carry Sc E6 X6. carry Sd E4 X4. carry Sd E5 X5. carry Sd E6 X6.
  split; try assumption.
  - exact (instance_later _ _ _ _ (extends_trans _ _ _ X5 X6) Ia).
  - exact (instance_later _ _ _ _ X6 Il).
  - by exists apk.
  - intros Hm. specialize (Lj Hm). carry Lj E6 X6. exact Lj.
  - by exists bind.
  - exists arr, sig. split; [exact Lc|].
    eapply array_of_keeps; [keep_elems E6|]. eapply array_of_keeps; [keep_elems E5|].
    eapply array_of_keeps; [keep_elems E4|exact Ar].
Qed.

(** What the building of the graph does to a method it does not register. *)
Lemma graph_keeps_host k id opt (j : J) r j' :
  respects (same_host k) (build_context_graph (U := U) as_host no_main_thread no_field_defaults id opt) ->
  build_context_graph as_host no_main_thread no_field_defaults id opt j = (r, j') -> same_host k j j'.
Proof. intros Hr E. exact (Hr _ _ _ E). Qed.
Lemma graph_grows id opt : grows (build_context_graph (U := U) as_host no_main_thread no_field_defaults id opt).
Proof.
  unfold build_context_graph. cbv zeta. apply grows_bind; [apply grows_new_of|intros ctx].
  apply grows_bind; [apply grows_regs|intros _]. apply grows_bind; [apply grows_app_info|intros info].
  apply grows_bind; [apply grows_bind_data|intros bind]. apply grows_bind; [apply grows_package_info|intros pkg].
  apply grows_bind; [apply grows_activity_thread|intros [thread app]].
  apply grows_bind; [apply grows_class_loader|intros loader]. apply grows_bind; [apply grows_rest|intros _]. apply grows_ret.
Qed.

(** The methods after the whole graph. *)
Lemma graph_rows id opt (j : J) g j' :
  java_ok j -> build_context_graph as_host no_main_thread no_field_defaults id opt j = (Ret g, j') ->
  Forall (fun p => hands j' p.1 p.2) (handed g) /\
  host_methods_ j' !! bs "toByteArray" = Some (as_host (EBytes (signing_cert id))).
Proof.
  intros Hj E. destruct (graph_phases _ _ _ _ _ Hj E) as (bind & j1 & j2 & j3 & j4 & j5 & j6 & Hj1 & _ & _ & I1 & Hc & E1 & E2 & E3 & E4 & E5 & E6).
  destruct (grows_app_info _ _ _ _ Hj1 E1) as [Hj2 _]. destruct (grows_bind_data _ _ _ _ _ Hj2 E2) as [Hj3 _].
  destruct (grows_package_info _ _ _ _ _ Hj3 E3) as [Hj4 _].
  destruct (package_info_run _ _ _ _ _ Hj3 E3) as (_ & _ & Ha & Hb & _).
  destruct (activity_thread_run _ _ _ _ _ _ Hj4 E4) as (_ & _ & _ & _ & Ht).
  pose proof (rest_rows _ _ _ _ _ _ _ E6) as Hr.
  assert (host_methods_ j' !! bs "getAppContext" = host_methods_ j1 !! bs "getAppContext") as Sc.
  { transitivity (host_methods_ j6 !! bs "getAppContext"); [keep_host E6|].
    transitivity (host_methods_ j5 !! bs "getAppContext"); [keep_host E5|].
    transitivity (host_methods_ j4 !! bs "getAppContext"); [keep_host E4|].
    transitivity (host_methods_ j3 !! bs "getAppContext"); [keep_host E3|].
    transitivity (host_methods_ j2 !! bs "getAppContext"); [keep_host E2|keep_host E1]. }
  assert (forall k, respects (same_host k) (graph_class_loader (U := U) (HM := HM) no_main_thread no_field_defaults opt (context g) (app_info g) (activity_thread g))) as Sl
    by (intros k; phases).
  split.
  - unfold handed. cbn [context_methods fmap list_fmap app drop] in *.
    apply Forall_cons_2; [unfold hands; cbn [fst snd]; by rewrite Sc|].
    do 9 (apply Forall_cons in Hr as [? Hr]; apply Forall_cons_2; [assumption|]).
    repeat apply Forall_cons_2; try apply Forall_nil_2; unfold hands; cbn [fst snd].
    + transitivity (host_methods_ j6 !! bs "currentActivityThread"); [keep_host E6|].
      transitivity (host_methods_ j5 !! bs "currentActivityThread"); [exact (Sl _ _ _ _ E5)|exact Ht].
    + transitivity (host_methods_ j6 !! bs "getPackageInfo"); [keep_host E6|].
      transitivity (host_methods_ j5 !! bs "getPackageInfo"); [exact (Sl _ _ _ _ E5)|].
      transitivity (host_methods_ j4 !! bs "getPackageInfo"); [keep_host E4|exact Hb].
  - transitivity (host_methods_ j6 !! bs "toByteArray"); [keep_host E6|].
    transitivity (host_methods_ j5 !! bs "toByteArray"); [exact (Sl _ _ _ _ E5)|].
    transitivity (host_methods_ j4 !! bs "toByteArray"); [keep_host E4|exact Ha].
Qed.

(** The Application is not the Context; no object from before is the graph's
    ApplicationInfo. *)
Lemma graph_others id opt (j : J) g j' h c :
  java_ok j -> build_context_graph as_host no_main_thread no_field_defaults id opt j = (Ret g, j') ->
  context g <> g_application g /\ (instance_of j h c -> h <> app_info g).
Proof.
  intros Hj E. destruct (graph_phases _ _ _ _ _ Hj E) as (bind & j1 & j2 & j3 & j4 & j5 & j6 & Hj1 & X0 & _ & I1 & _ & E1 & E2 & E3 & E4 & _).
  destruct (grows_app_info _ _ _ _ Hj1 E1) as [Hj2 X1]. destruct (grows_bind_data _ _ _ _ _ Hj2 E2) as [Hj3 X2].
  destruct (grows_package_info _ _ _ _ _ Hj3 E3) as [Hj4 X3]. split.
  - refine (application_other _ _ _ _ _ _ _ _ _ Hj4 E4). eapply instance_later; [|exact I1].
    exact (extends_trans _ _ _ X1 (extends_trans _ _ _ X2 X3)).
  - intros Hh. refine (app_info_other _ _ _ _ _ _ _ Hj1 E1). by eapply instance_later.
Qed.

(** The fields of one object. *)
Definition same_of (h : Z) (j j' : J) : Prop := forall n v, has j h n v -> has j' h n v.
#[local] Instance same_of_preorder h : PreOrder (same_of h).
Proof. split; [by intros j n v|]. intros j1 j2 j3 H1 H2 n v Hv. by apply H2, H1. Qed.
#[local] Instance same_of_calm h : CalmImplies (same_of h).
Proof. intros j j' Hc n v. by apply calm_field. Qed.
Lemma set_field_other h o n v : h <> o -> respects (same_of h) (set_field (U := U) (HM := HM) o n v).
Proof.
  intros Hn j r j' E n' v' (r0 & Hr & Hf). unfold has.
  assert (handles_ j' = alter (fun r => with_fields (<[n := v]> (fields r)) r) o (handles_ j)) as ->.
  { rewrite <- update_handles. unfold set_field in E. by rewrite E. }
  rewrite lookup_alter_ne by done. eauto.
Qed.
Lemma app_info_same id h (j : J) info j' c :
  instance_of j h c -> java_ok j -> graph_app_info id j = (Ret info, j') -> same_of h j j'.
Proof.
  intros Hh Hj E. unfold graph_app_info in E. apply bind_ret_inv in E as (o & j1 & E1 & E).
  pose proof (new_other _ _ _ _ _ _ Hh Hj E1) as Hn. transitivity j1.
  { intros n v. apply calm_field. exact (calm_new_of _ _ _ _ _ E1). }
  refine ((_ : respects (same_of h) _) _ _ _ E). unfold set_string.
  repeat lazymatch goal with
    | |- respects _ (mbind _ _) => kbind; [|intros]
    | |- respects _ (set_field _ _ _) => by apply set_field_other
    | |- respects _ (mret _) => apply respects_ret; exact _
    | |- respects _ (give_string _) => apply keeps_calm; [exact _|apply calm_give_string]
    end.
Qed.

(** The texts of an ApplicationInfo made before the graph. *)
Lemma graph_info_texts id opt (j : J) g j' h c s1 s2 :
  java_ok j -> build_context_graph as_host no_main_thread no_field_defaults id opt j = (Ret g, j') ->
  instance_of j h c -> says j h "sourceDir" s1 -> says j h "nativeLibraryDir" s2 ->
  says j' h "sourceDir" s1 /\ says j' h "nativeLibraryDir" s2.
Proof.
  intros Hj E Hh Sa Sb.
  destruct (graph_phases _ _ _ _ _ Hj E) as (bind & j1 & j2 & j3 & j4 & j5 & j6 & Hj1 & X0 & F0 & _ & _ & E1 & E2 & E3 & E4 & E5 & E6).
  destruct (grows_app_info _ _ _ _ Hj1 E1) as [Hj2 X1]. destruct (grows_bind_data _ _ _ _ _ Hj2 E2) as [Hj3 X2].
  destruct (grows_package_info _ _ _ _ _ Hj3 E3) as [Hj4 X3]. destruct (grows_activity_thread _ _ _ _ _ Hj4 E4) as [Hj5 X4].
  destruct (grows_class_loader _ _ _ _ _ _ _ Hj5 E5) as [Hj6 X5]. pose proof (grows_rest _ _ _ _ _ _ _ Hj6 E6) as [_ X6].
  pose proof (app_info_same _ _ _ _ _ _ (instance_later _ _ _ _ X0 Hh) Hj1 E1) as F1.
  apply (says_later _ _ _ _ _ (F0 _) X0) in Sa, Sb.
  assert (forall f s, says j1 h f s -> says j2 h f s) as S2.
  { intros f s (o & L & T). exists o. split; [by apply F1|by eapply string_of_keeps]. }
  apply S2 in Sa, Sb.
  carry Sa E2 X2. carry Sa E3 X3. carry Sa E4 X4. carry Sa E5 X5. carry Sa E6 X6.
  carry Sb E2 X2. carry Sb E3 X3. carry Sb E4 X4. carry Sb E5 X5. carry Sb E6 X6. done.
Qed.

(** C30: The graph is wired as on a device: from the Context a packer reaches the
    class loader, the ApplicationInfo and the activity thread, from there the
    bound application and the Application, with the classes the options ask
    for and the texts of the identity.  After the constructor of [AndroidEnv],
    methods registered in between under other names ([more_hosts]; those of
    ART are) and the building of the graph, the methods of [handed] hand out
    the objects of the graph, with two differences from a device.  Those asked for
    the application (getApplication, currentApplication and others) hand out
    the Context, which is not the Application of the graph; and getApplicationInfo still
    hands out the constructor's ApplicationInfo, another object than the
    graph's, with the paths of the constructor's identity. *)
Theorem graph_wired id0 id opt (j : J) app id' j0 j1 g j' :
  java_ok j -> android_env as_host id0 j = (Ret (app, id'), j0) -> more_hosts j0 j1 ->
  build_context_graph as_host no_main_thread no_field_defaults id opt j1 = (Ret g, j') ->
  wired id opt g j' /\ answers id0 id g j'.
Proof.
  intros Hj E0 Hm E. destruct (env_info_run _ _ _ _ _ Hj E0) as (Hj1 & info & Hi & Ii & Sa & Sb).
  destruct (more_hosts_table _ _ Hm) as [Ti Ts]. apply Ti in Ii. apply Ts in Sa, Sb. apply (more_hosts_ok _ _ Hm) in Hj1.
  unfold hands in Hi. rewrite <- (more_hosts_key (bs "getApplicationInfo") _ _ ltac:(unfold reserved; in_list) Hm) in Hi.
  split; [by eapply graph_links|]. destruct (graph_rows _ _ _ _ _ Hj1 E) as [Hr Hb].
  destruct (graph_others _ _ _ _ _ info (bs "android/content/pm/ApplicationInfo") Hj1 E) as [Hap Hinfo]. destruct (graph_grows _ _ _ _ _ Hj1 E) as [_ X].
  split; [exact Hr|exact Hb|exact Hap|]. exists info.
  split; [unfold hands; rewrite (graph_keeps_host (bs "getApplicationInfo") id opt j1 (Ret g) j');
    [exact Hi|unfold build_context_graph; cbv zeta; phases|exact E]|].
  split; [by apply Hinfo in Ii|]. split; [by eapply instance_later|].
  exact (graph_info_texts _ _ _ _ _ _ _ _ _ Hj1 E Ii Sa Sb).
Qed.
End GraphRun.

(** ** Who signed the app *)

Section Signed.
Context {U C : Type} `{UcLaws U}.
#[local] Abbreviation HM := (EnvMethod + C)%type.
#[local] Abbreviation J := (JavaRuntime U HM).
Variable props : option (list Z).
Variable client : C -> Z -> list DvmValue -> M J DvmValue.
Variable observe : jstring -> jstring -> jstring -> list DvmValue -> bool -> M J unit.
Hypothesis observe_watches : forall o n s a b j, observe o n s a b j = (Ret tt, j).
Variable no_main_thread no_field_defaults : bool.
#[local] Abbreviation ah := (@inl EnvMethod C).

Lemma graph_unqualified id opt : forall p, p ∈ chain_names ->
  respects (same_host (chain_key p)) (build_context_graph (U := U) ah no_main_thread no_field_defaults id opt).
Proof.
  apply (chain_cases (fun p => respects (same_host (chain_key p))
    (build_context_graph (U := U) ah no_main_thread no_field_defaults id opt)));
    unfold build_context_graph; cbv zeta; phases.
Qed.

(** C31: Asked who signed the app, the machine answers with the certificate of the
    identity the context graph is built from: [getPackageManager],
    [getPackageInfo], the field [signatures], its first element and
    [toByteArray] lead there.  When that identity has no certificate the answer is an
    empty array; the placeholder that the constructor of [AndroidEnv] puts is
    gone, since the graph registers [toByteArray] again.  Between the two the
    program may register other methods, those of ART. *)
Theorem certificate_read id0 id opt (j : J) app id' j0 j1 g j2 m1 m2 m3 ctx pkg x j3 :
  java_ok j -> chain_free j -> android_env ah id0 j = (Ret (app, id'), j0) -> more_hosts j0 j1 ->
  build_context_graph ah no_main_thread no_field_defaults id opt j1 = (Ret g, j2) ->
  is_method j2 m1 "android/content/Context" "getPackageManager" ->
  is_method j2 m2 "android/content/pm/PackageManager" "getPackageInfo" ->
  is_method j2 m3 "android/content/pm/Signature" "toByteArray" ->
  read_certificate props client observe m1 m2 m3 ctx pkg j2 = (Ret x, j3) ->
  x = Some (signing_cert id).
Proof.
  intros Hj Hfree E0 Hm E M1 M2 M3 Er. pose proof (env_unqualified _ _ _ _ E0) as Hq.
  destruct (android_env_run _ _ _ _ _ Hj E0) as (Hj1 & _ & pm & _ & _ & _ & P & _). apply (more_hosts_ok _ _ Hm) in Hj1.
  rewrite <- (more_hosts_key (bs "getPackageManager") _ _ ltac:(unfold reserved; in_list) Hm) in P.
  destruct (graph_rows ah _ _ _ _ _ _ _ Hj1 E) as [Hr Hb]. destruct (graph_grows ah _ _ _ _ _ _ _ Hj1 E) as [Hj2 _].
  destruct (w_signed _ _ _ _ _ (graph_links ah _ _ _ _ _ _ _ Hj1 E)) as (arr & sig & L & A).
  refine (chain_read props client observe observe_watches _ _ _ _ pm (package_info g) arr sig _ _ _ _ _ Hj2 _ Er).
  apply chain_at; try assumption.
  - intros p Hp. rewrite (graph_unqualified id opt p Hp _ _ _ E), (fun k => more_hosts_key (chain_key p) _ _ k Hm), (Hq p Hp);
      [by apply Hfree|]. apply elem_of_app. right. by apply list_elem_of_fmap_2.
  - rewrite <- P. refine (graph_keeps_host ah _ _ _ _ _ _ _ _ _ E). unfold build_context_graph. cbv zeta. phases.
  - rewrite Forall_forall in Hr. apply (Hr ("getPackageInfo"%string, package_info g)).
    unfold handed. apply elem_of_app. right. in_list.
Qed.
End Signed.

(** ** Concrete environments *)

#[local] Abbreviation HM0 := (EnvMethod + unit)%type.
#[local] Abbreviation J0 := (JavaRuntime RefUc HM0).
Definition demo_observe (o n s : jstring) (a : list DvmValue) (b : bool) : M J0 unit := skip.
Definition demo_client (c : unit) (self : Z) (a : list DvmValue) : M J0 DvmValue := mret DVoid.

(** The three method ids, on a table with nothing else. *)
Definition demo_ids : M J0 (Z * Z * Z) :=
  c1 ← find_class (bs "android/content/Context");
  m1 ← get_method_id c1 (bs "getPackageManager") (bs "()Landroid/content/pm/PackageManager;") false;
  c2 ← find_class (bs "android/content/pm/PackageManager");
  m2 ← get_method_id c2 (bs "getPackageInfo") (bs "(Ljava/lang/String;I)Landroid/content/pm/PackageInfo;") false;
  c3 ← find_class (bs "android/content/pm/Signature");
  m3 ← get_method_id c3 (bs "toByteArray") (bs "()[B") false;
  mret (m1, m2, m3).
Definition demo_table : J0 := snd (demo_ids (init_java demo_mem0)).
Definition demo_env_run := android_env inl default_identity demo_table.
Definition demo_env : J0 := snd demo_env_run.
Definition default_options : ContextGraphOptions :=
  mkOptions "dalvik/system/PathClassLoader" "android/app/Application" false.
Definition demo_graph_run := build_context_graph inl false false default_identity default_options demo_env.

Lemma demo_table_ok : java_ok demo_table.
Proof.
  assert (grows demo_ids) as Hg.
  { unfold demo_ids. repeat (apply grows_bind; [first [apply grows_find_class|apply grows_method]|intros ?]). apply grows_ret. }
  exact (proj1 (Hg _ _ _ (init_java_ok _ demo_arena) (surjective_pairing _))).
Qed.
Lemma demo_env_ok : java_ok demo_env.
Proof. exact (proj1 (grows_android_env default_identity _ _ _ demo_table_ok (surjective_pairing _))). Qed.
Lemma run_is {A B} (r : A * B) a : fst r = a -> r = (a, snd r).
Proof. destruct r. by intros <-. Qed.
Definition demo_filled : DeviceIdentity := with_cert default_identity placeholder_cert.
Lemma demo_env_is : android_env inl default_identity demo_table = (Ret (805307136, demo_filled), demo_env).
Proof. apply (run_is demo_env_run). vm_compute. reflexivity. Qed.
Definition demo_graph : ContextGraph := mkGraph 805314176 805316736 805316480 805317504 805315712 805314304.
Lemma demo_graph_is :
  build_context_graph inl false false default_identity default_options demo_env = (Ret demo_graph, snd demo_graph_run).
Proof. apply (run_is demo_graph_run). vm_compute. reflexivity. Qed.
Lemma demo_chain_free : chain_free demo_table.
Proof. refine (chain_cases (fun p => host_methods_ demo_table !! chain_key p = None) _ _ _); vm_compute; reflexivity. Qed.

(** A method id of the demo, found in its table. *)
Ltac demo_method := eexists; split; [vm_compute; reflexivity|]; repeat split.

(** A device whose app is signed. *)
Definition demo_signed : DeviceIdentity := with_cert default_identity [0x30; 0x82; 0x01].
Definition demo_signed_run := build_context_graph inl false false demo_signed default_options demo_env.

Lemma certificate_read_witness :
  fst (read_certificate None demo_client demo_observe 805306496 805306752 805307008 0 DVoid (snd demo_signed_run))
    = Ret (Some [0x30; 0x82; 0x01]).
Proof.
  destruct (read_certificate None demo_client demo_observe 805306496 805306752 805307008 0 DVoid (snd demo_signed_run)) as [o j2] eqn:Er.
  assert (exists x, o = Ret x) as [x ->].
  { assert (is_ret (fst (read_certificate None demo_client demo_observe 805306496 805306752 805307008 0 DVoid (snd demo_signed_run))) = true)
      as Hr by (vm_compute; reflexivity).
    rewrite Er in Hr. destruct o as [x| |]; [by exists x|discriminate Hr..]. }
  cbn [fst]. f_equal.
  refine (certificate_read None demo_client demo_observe _ false false default_identity demo_signed default_options demo_table 805307136
    demo_filled demo_env demo_env demo_graph (snd demo_signed_run) 805306496 805306752 805307008 0 DVoid x j2 _ _ _ _ _ _ _ _ Er).
  - intros. reflexivity.
  - exact demo_table_ok.
  - exact demo_chain_free.
  - exact demo_env_is.
  - apply more_hosts_refl.
  - apply (run_is demo_signed_run). vm_compute. reflexivity.
  - demo_method.
  - demo_method.
  - demo_method.
Defined.

Definition default_parts : BuildParts :=
  mkParts (bs "google") (bs "raven") (bs "raven") (bs "12") (bs "SQ3A.220705.004") (bs "8836240") (bs "user") (bs "release-keys").
Lemma build_matches_fingerprint_witness :
  static_text demo_env "android/os/Build$VERSION" "INCREMENTAL" = Some (bs "8836240").
Proof.
  pose proof (build_matches_fingerprint inl default_identity default_parts demo_table 805307136
    demo_filled demo_env) as Hw.
  rewrite Forall_forall in Hw. apply (Hw) with (x := ("android/os/Build$VERSION", "INCREMENTAL", bs "8836240")%string).
  - unfold parts_plain, plain, default_parts. cbn [b_brand b_product b_device b_release b_id b_incremental b_type b_tags].
    repeat apply Forall_cons_2; try apply Forall_nil_2; (split; [discriminate|]); split; text_differs.
  - vm_compute. reflexivity.
  - exact demo_table_ok.
  - exact demo_env_is.
  - unfold build_says. in_list.
Defined.

Lemma graph_wired_witness :
  link (snd demo_graph_run) 805316480 "mInitialApplication" 805316736 /\
  says (snd demo_graph_run) 805314304 "sourceDir" (bs (apk_path default_identity)).
Proof.
  destruct (graph_wired inl false false default_identity default_identity default_options demo_table 805307136
    demo_filled demo_env demo_env demo_graph (snd demo_graph_run)) as [W _].
  - exact demo_table_ok.
  - exact demo_env_is.
  - apply more_hosts_refl.
  - exact demo_graph_is.
  - split; [exact (w_initial _ _ _ _ _ W)|exact (w_source _ _ _ _ _ W)].
Defined.

(** The graph answers with the caller's identity, and that one has no
    placeholder: an app without a certificate is signed by nothing once the
    graph is built. *)
Example graph_drops_placeholder :
  fst (read_certificate None demo_client demo_observe 805306496 805306752 805307008 0 DVoid (snd demo_graph_run))
    = Ret (Some []).
Proof. vm_compute. reflexivity. Qed.
(** The data directory the two ApplicationInfos name is not the same. *)
Example data_dirs_differ :
  let dirs (j : J0) := (fun h => field_text j h "dataDir") <$> (keys (handles_ j)) in
  filter is_Some (dirs (snd demo_graph_run)) =
    [Some (bs "/data/user/0/com.victim.app/files"); Some (bs "/data/user/0/com.victim.app")].
Proof. vm_compute. reflexivity. Qed.
