(* ===== verification/ArtRuntime.v ===== *)
(** The DEX-load surface of ART: [core/art/art_runtime.cpp],
    [include/vardoger/art/art_runtime.hpp].

    [register_dex] puts a DEX into guest memory with the [art::DexFile] struct
    over it and the Java objects a packer walks to reach it; [ArtMethod] are the
    Java methods [install] registers and [art_run] their bodies.  The layout
    is the default one.  What [notify_bytes] hands to the observer is recorded;
    log lines are dropped. *)

From S2P Require Import Prelude.
From S2P Require Import Words.
From S2P Require Import Abi.
From S2P Require Import Unicorn.
From S2P Require Import Engine.
From S2P Require Import Memory.
From S2P Require Import JavaRuntime.
From S2P Require Import Jni.
From S2P Require Import DexFile.
From S2P Require Import Framework.
From S2P Require Import EnvMethods.
#[local] Open Scope Z_scope.

Record Dex := mkDex {
  bytes_addr : Z;
  bytes_len : Z;
  struct_addr : Z;
  cookie_arr : Z;
  dexfile_obj : Z;
  class_names : list jstring;
}.

(** [Layout], API 31 on arm64. *)
Definition kBeginOff : Z := 0x00.
Definition kSizeOff : Z := 0x08.
Definition kDataBeginOff : Z := 0x10.
Definition kDataSizeOff : Z := 0x18.
Definition kLocationOff : Z := 0x20.
Definition kStructSize : Z := 0x100.

Inductive ArtMethod :=
| AOpenInMemoryDexFile | AOpenInMemoryDexFilesNative | ACreateCookieWithArray | AOpenDexFileNative
| AMakeInMemoryDexElements | AMakePathElements | AMakeDexElements | ADefineClassNative
| AGetClassNameList | AEntries | AHasMoreElements | ANextElement.

Definition art_methods : list (string * ArtMethod) := [
  ("openInMemoryDexFile", AOpenInMemoryDexFile);
  ("openInMemoryDexFilesNative", AOpenInMemoryDexFilesNative);
  ("createCookieWithArray", ACreateCookieWithArray); ("openDexFileNative", AOpenDexFileNative);
  ("makeInMemoryDexElements", AMakeInMemoryDexElements); ("makePathElements", AMakePathElements);
  ("makeDexElements", AMakeDexElements); ("defineClassNative", ADefineClassNative);
  ("getClassNameList", AGetClassNameList); ("entries", AEntries);
  ("hasMoreElements", AHasMoreElements); ("nextElement", ANextElement)]%string.

(** [is_dex] *)
Definition is_dex (b : list Z) : bool := (8 <=? zlen b) && bool_decide (take 4 b = bs "dex" ++ [10]).

(** The class names of a DEX, none if it does not parse. *)
Definition dex_class_names (l : list Z) : list jstring :=
  let '(_, x) := parse empty_dex l in
  if valid_ x then (fun c => descriptor_to_binary (descriptor c)) <$> classes_ x else [].

(** [jlong[]{0, DexFile*}], as bytes. *)
Definition cookie_bytes (dfp : Z) : list Z := replicate 8 0 ++ le_bytes 8 dfp.

Record ArtRuntime (U HM : Type) := mkArt {
  a_java : JavaRuntime U HM;
  dexes_ : list Dex;
  a_notified : list (list Z * jstring);
}.
Arguments mkArt {U HM}. Arguments a_java {U HM}. Arguments dexes_ {U HM}. Arguments a_notified {U HM}.

Section ArtRuntime.
Context {U HM : Type} `{UcOps U}.
#[local] Abbreviation J := (JavaRuntime U HM).
#[local] Abbreviation A := (ArtRuntime U HM).

Definition on_java {X} (m : M J X) : M A X := fun a =>
  let '(r, j) := m (a_java a) in (r, mkArt j (dexes_ a) (a_notified a)).
Definition add_dex (d : Dex) : M A unit := modify (fun a => mkArt (a_java a) (dexes_ a ++ [d]) (a_notified a)).
(** [jrt_.notify_bytes] *)
Definition art_notify (l src : jstring) : M A unit := modify (fun a =>
  mkArt (a_java a) (dexes_ a) (a_notified a ++ [(l, src)])).

(** A new mapping that holds [l]; an empty [l] is given a page too. *)
Definition place (l : list Z) (label : string) : M J Z :=
  addr ← on_mem (mmap_alloc (if zlen l =? 0 then 1 else zlen l) UC_PROT_RW label);
  _ ← (if bool_decide (l = []) then skip else on_mem (uc_do (e_write addr l)));
  mret addr.
(** [write_t<uint64_t>(s + off, v)] *)
Definition put_word (s off v : Z) : M J unit := on_mem (uc_do (write_t 8 (u64 (s + off)) v)).

(** The [art::DexFile] struct. *)
Definition dex_struct (begin size : Z) (location : list Z) : M J Z :=
  s ← place (replicate (Z.to_nat kStructSize) 0) "art DexFile struct";
  _ ← put_word s kBeginOff begin;
  _ ← put_word s kSizeOff size;
  _ ← put_word s kDataBeginOff begin;
  _ ← put_word s kDataSizeOff size;
  loc ← place (location ++ [0]) "art dex location";
  _ ← put_word s kLocationOff loc;
  mret s.
(** The cookie and the Java object, [(cookie_arr, dexfile_obj)]. *)
Definition dex_object (dfp : Z) (location : list Z) : M J (Z * Z) :=
  cookie ← new_byte_array (cookie_bytes dfp);
  obj ← new_object (bs "dalvik/system/DexFile");
  _ ← set_field obj (bs "mCookie") (DObject cookie);
  _ ← set_field obj (bs "mInternalCookie") (DObject cookie);
  name ← new_string_utf location;
  _ ← set_field obj (bs "mFileName") (DObject name);
  mret (cookie, obj).
Definition new_dex (bytes location : list Z) : M J Dex :=
  addr ← place bytes "art dex bytes";
  dfp ← dex_struct addr (zlen bytes) location;
  co ← dex_object dfp location;
  mret (mkDex addr (zlen bytes) dfp co.1 co.2 (dex_class_names bytes)).
Definition register_dex (bytes location : list Z) : M A Dex :=
  d ← on_java (new_dex bytes location);
  _ ← add_dex d;
  mret d.

(** ** Objects over the registered files *)

Fixpoint new_elements (l : list Dex) : M J (list Z) :=
  match l with
  | [] => mret []
  | d :: r =>
      el ← new_object (bs "dalvik/system/DexPathList$Element");
      _ ← set_field el (bs "dexFile") (DObject (dexfile_obj d));
      _ ← set_field el (bs "dex") (DObject (dexfile_obj d));
      rest ← new_elements r;
      mret (el :: rest)
  end.
Definition build_classloader (dexes : list Dex) (parent : Z) : M J Z :=
  elems ← new_elements dexes;
  path_list ← new_object (bs "dalvik/system/DexPathList");
  arr ← new_object_array elems;
  _ ← set_field path_list (bs "dexElements") (DObject arr);
  loader ← new_object (bs "dalvik/system/PathClassLoader");
  _ ← set_field loader (bs "pathList") (DObject path_list);
  _ ← (if parent =? 0 then skip else set_field loader (bs "parent") (DObject parent));
  mret loader.
Definition make_elements : M A DvmValue :=
  a ← get;
  es ← on_java (new_elements (dexes_ a));
  arr ← on_java (new_object_array es);
  mret (DObject arr).

(** ** Loading *)

(** A buffer too big to allocate throws, as reading it does. *)
Definition extract_dex_bytes (h : Z) : M J (list Z) :=
  j ← get;
  if h =? 0 then mret [] else
  match bytes_view j h with
  | Some b => mret b
  | None =>
      let addr := int_of (get_field j h (bs "address")) in
      let cap := int_of (get_field j h (bs "capacity")) in
      if negb (addr =? 0) && (0 <? cap) && is_mapped (regions_ (j_mem j)) (u64 addr)
      then on_mem (uc_do (e_read (u64 addr) cap)) else mret []
  end.

Definition capture (b src : list Z) : M A unit :=
  _ ← register_dex b (bs "InMemoryDex"); art_notify b src.
(** The loop over a [ByteBuffer[]], from element [i] on; no turn changes the
    array. *)
Fixpoint load_elements (n : nat) (h i : Z) (src : list Z) : M A unit :=
  match n with
  | O => skip
  | S k =>
      a ← get;
      b ← on_java (extract_dex_bytes (object_array_element (a_java a) h i));
      _ ← (if is_dex b then capture b src else skip);
      load_elements k h (i + 1) src
  end.
(** The lambda [load]: the last registered file, which need not be of this
    call. *)
Definition load (h : Z) (src : list Z) : M A (option Dex) :=
  bytes ← on_java (extract_dex_bytes h);
  a ← get;
  _ ← (if is_dex bytes then capture bytes src
       else load_elements (Z.to_nat (array_length (a_java a) h)) h 0 src);
  a ← get;
  mret (last (dexes_ a)).

Definition arg_obj (a : list DvmValue) : Z := match a with v :: _ => obj_of v | [] => 0 end.
Definition load_first (a : list DvmValue) (src : string) : M A (option Dex) :=
  match a with [] => mret None | _ => load (arg_obj a) (bs src) end.
Definition give_dex (f : Dex -> Z) (d : option Dex) : DvmValue :=
  match d with Some d => DObject (f d) | None => DVoid end.
(** [openDexFileNative]: the first object argument that loads. *)
Fixpoint load_any (a : list DvmValue) (src : list Z) : M A DvmValue :=
  match a with
  | [] => mret DVoid
  | DObject o :: r =>
      d ← load o src;
      match d with Some d => mret (DObject (cookie_arr d)) | None => load_any r src end
  | _ :: r => load_any r src
  end.

(** ** Class names *)

Fixpoint new_names (l : list jstring) : M J (list Z) :=
  match l with
  | [] => mret []
  | n :: r => h ← new_string_utf n; rest ← new_names r; mret (h :: rest)
  end.
Definition all_names (l : list Dex) : list jstring := concat (class_names <$> l).
Definition class_name_list : M A Z :=
  a ← get;
  hs ← on_java (new_names (all_names (dexes_ a)));
  on_java (new_object_array hs).
Definition art_entries : M A DvmValue :=
  a ← get;
  hs ← on_java (new_names (all_names (dexes_ a)));
  en ← on_java (new_object (bs "java/util/Enumeration"));
  arr ← on_java (new_object_array hs);
  _ ← on_java (set_field en (bs "__names") (DObject arr));
  _ ← on_java (set_field en (bs "__idx") (DInt 0));
  mret (DObject en).
Definition enum_array (j : J) (en : Z) : Z := obj_of (get_field j en (bs "__names")).
Definition enum_index (j : J) (en : Z) : Z := int_of (get_field j en (bs "__idx")).
Definition in_enum (j : J) (arr i : Z) : bool := negb (arr =? 0) && (u64 i <? array_length j arr).
Definition has_more_elements (self : Z) : M J DvmValue :=
  j ← get; mret (of_bool (in_enum j (enum_array j self) (enum_index j self))).
(** [i + 1] on [int64_t]. *)
Definition next_element (self : Z) : M J DvmValue :=
  j ← get;
  let arr := enum_array j self in
  let i := enum_index j self in
  if i =? 2 ^ 63 - 1 then lift UB else
  _ ← set_field self (bs "__idx") (DInt (i + 1));
  j ← get;
  mret (DObject (if in_enum j arr i then object_array_element j arr (u64 i) else 0)).

Definition define_class_native (a : list DvmValue) : M J DvmValue :=
  j ← get;
  let name := match a with
              | DObject o :: _ => dots_to_slashes (default [] (string_of j o))
              | _ => []
              end in
  if bool_decide (name = []) then mret (DObject 0) else
  c ← find_class name; mret (DObject c).

(** ** Bodies *)

Definition art_run (f : ArtMethod) (self : Z) (a : list DvmValue) : M A DvmValue :=
  match f with
  | AOpenInMemoryDexFile => d ← load_first a "openInMemoryDexFile"; mret (give_dex dexfile_obj d)
  | AOpenInMemoryDexFilesNative =>
      d ← load_first a "openInMemoryDexFilesNative"; mret (give_dex cookie_arr d)
  | ACreateCookieWithArray => d ← load_first a "createCookieWithArray"; mret (give_dex cookie_arr d)
  | AOpenDexFileNative => load_any a (bs "openDexFileNative")
  | AMakeInMemoryDexElements => _ ← load_first a "makeInMemoryDexElements"; make_elements
  | AMakePathElements | AMakeDexElements => make_elements
  | ADefineClassNative => on_java (define_class_native a)
  | AGetClassNameList => arr ← class_name_list; mret (DObject arr)
  | AEntries => art_entries
  | AHasMoreElements => on_java (has_more_elements self)
  | ANextElement => on_java (next_element self)
  end.

Fixpoint register_art (as_host : ArtMethod -> HM) (l : list (string * ArtMethod)) : M J unit :=
  match l with
  | [] => skip
  | (n, f) :: r => _ ← register_method (bs n) (as_host f); register_art as_host r
  end.
Definition install (as_host : ArtMethod -> HM) : M A unit := on_java (register_art as_host art_methods).

Definition dex_begin (d : Dex) : M J Z := on_mem (uc_do (read_t 8 (u64 (struct_addr d + kBeginOff)))).
Definition dex_size (d : Dex) : M J Z := on_mem (uc_do (read_t 8 (u64 (struct_addr d + kSizeOff)))).

(** What native code does to reach a DEX from its [DexFile] object: [mCookie],
    the pointer in it, [begin_] and [size_], the bytes. *)
Definition word_at (j : J) (a : Z) : option Z := le_val <$> uc_mem_read (m_uc (j_mem j)) a 8.
Definition native_walk (j : J) (obj : Z) : option (list Z) :=
  match get_field j obj (bs "mCookie") with
  | DObject cookie =>
      b ← bytes_view j cookie;
      let dfp := le_val (take 8 (drop 8 b)) in
      begin ← word_at j (dfp + kBeginOff);
      size ← word_at j (dfp + kSizeOff);
      uc_mem_read (m_uc (j_mem j)) begin size
  | _ => None
  end.
End ArtRuntime.
