(* ===== verification/ArtFrame.v ===== *)
(** What the Java table and the allocators leave alone in guest memory.

    [frame j j'] says that memory mapped in [j] stays mapped, that its bytes
    outside the Java arena keep their value, and that byte arrays and cookies
    of the table stay.  [framed m]: every run of [m] from a live table ends in
    one, framed.  [ArtFacts] proves what [ArtRuntime] promises with them. *)

From stdpp Require Import strings.
From S2P Require Import Prelude.
From S2P Require Import Words.
From S2P Require Import Abi.
From S2P Require Import Unicorn.
From S2P Require Import Engine.
From S2P Require Import Memory.
From S2P Require Import JavaRuntime.
From S2P Require Import Jni.
From S2P Require Import Framework.
From S2P Require Import EnvMethods.
From S2P Require Import AndroidEnv.
From S2P Require Import EnvFacts.
From S2P Require Import ArtRuntime.
#[local] Open Scope Z_scope.

(** ** Memory *)

Definition outside (a n : Z) : Prop := a + n <= kJavaBase \/ kJavaEnd <= a.

Definition anywhere (a n : Z) : Prop := True.

Section MemFrame.
Context {U : Type} `{UcLaws U}.

(** What is mapped stays mapped, and keeps its bytes in the ranges [area]. *)
Record mem_frame (area : Z -> Z -> Prop) (u u' : U) : Prop := {
  mf_mapped x : uc_mapped u x = true -> uc_mapped u' x = true;
  mf_bytes a n l : 0 < n -> area a n -> uc_mem_read u a n = Some l -> uc_mem_read u' a n = Some l;
}.
#[export] Instance mem_frame_preorder area : PreOrder (mem_frame area).
Proof. split; [intros u; by split|]. intros u1 u2 u3 [A1 B1] [A2 B2]. split; eauto. Qed.

(** A range that reads meets none that is not mapped. *)
Lemma read_apart u a n l b m :
  0 < n -> 0 < m -> uc_mem_read u a n = Some l -> (forall x, b <= x < b + m -> uc_mapped u x = false) ->
  a + n <= b \/ b + m <= a.
Proof.
  intros Hn Hm Hr Hf. destruct (decide (a + n <= b)); [by left|]. destruct (decide (b + m <= a)); [by right|].
  pose proof (law_read_mapped _ _ _ _ (Z.max a b) Hr ltac:(lia)). rewrite (Hf (Z.max a b)) in * by lia. done.
Qed.
Lemma map_frame area u b m p u' : uc_mem_map u b m p = Some u' -> mem_frame area u u'.
Proof.
  intros E. pose proof (law_map_args _ _ _ _ _ E) as (_ & Hm & _). split.
  - intros x Hx. by rewrite (law_map_mapped _ _ _ _ _ _ E), Hx.
  - intros a n l Hn _ Hr. rewrite (law_read_map _ _ _ _ _ _ _ E); [done|].
    eapply read_apart; [done|exact Hm|exact Hr|]. intros x Hx. by eapply law_map_free.
Qed.
Lemma read_nil u a l : uc_mem_read u a 0 = Some l -> l = [].
Proof. intros [E _]%law_read_len. by apply length_zero_iff_nil; unfold zlen in E; lia. Qed.
Lemma read_0 u a : uc_mem_read u a 0 = Some [].
Proof. destruct (law_read_ok u a 0) as [l E]; [lia..|]. by rewrite E, (read_nil _ _ _ E). Qed.

(** A write to what was not mapped at first. *)
Lemma write_frame area u0 u b l u' :
  mem_frame area u0 u -> 0 < zlen l -> (forall x, b <= x < b + zlen l -> uc_mapped u0 x = false) ->
  uc_mem_write u b l = Some u' -> mem_frame area u0 u'.
Proof.
  intros [Hm Hb] Hl Hf E. split.
  - intros x Hx. rewrite (law_write_mapped _ _ _ _ _ E). auto.
  - intros a n v Hn Ho Hr. rewrite (law_read_write_ne _ _ _ _ _ _ E); [by apply Hb|].
    eapply read_apart; [done..|exact Hr|exact Hf].
Qed.
(** A write inside the arena. *)
Lemma write_in_arena u b l u' :
  kJavaBase <= b -> b + zlen l <= kJavaEnd -> uc_mem_write u b l = Some u' -> mem_frame outside u u'.
Proof.
  intros Hlo Hhi E. split.
  - intros x Hx. by rewrite (law_write_mapped _ _ _ _ _ E).
  - intros a n v Hn Ho Hr. rewrite (law_read_write_ne _ _ _ _ _ _ E); [done|]. unfold outside in Ho. lia.
Qed.
Lemma mem_frame_outside u u' : mem_frame anywhere u u' -> mem_frame outside u u'.
Proof. intros [Hm Hb]. split; [done|]. intros a n l Hn _. by apply Hb. Qed.
End MemFrame.

(** ** The table *)

Section Frame.
Context {U HM : Type} `{UcLaws U}.
#[local] Abbreviation J := (JavaRuntime U HM).

Definition j_uc (j : J) : U := m_uc (j_mem j).

(** The arena is mapped whole once it is in use; byte arrays hold bytes. *)
Record live (j : J) : Prop := {
  lv_ok : java_ok j;
  lv_arena : java_next_ (j_mem j) = 0 \/ forall x, kJavaBase <= x < kJavaEnd -> uc_mapped (j_uc j) x = true;
  lv_bytes h r : handles_ j !! h = Some r -> bytes_ok (jbytes r);
}.

Definition same_bytes (j j' : J) : Prop := forall h r, handles_ j !! h = Some r ->
  exists r', handles_ j' !! h = Some r' /\ kind r' = kind r /\ jbytes r' = jbytes r.
Record frame (j j' : J) : Prop := {
  fr_mem : mem_frame outside (j_uc j) (j_uc j');
  fr_bytes : same_bytes j j';
  fr_cookie : same_field (bs "mCookie") j j';
}.
#[export] Instance same_bytes_preorder : PreOrder same_bytes.
Proof.
  split; [intros j h r Hr; by exists r|]. intros j1 j2 j3 H1 H2 h r Hr.
  destruct (H1 h r Hr) as (r2 & Hr2 & K2 & E2). destruct (H2 h r2 Hr2) as (r3 & Hr3 & K3 & E3).
  exists r3. split; [done|]. split; congruence.
Qed.
#[export] Instance frame_preorder : PreOrder frame.
Proof.
  split; [intros j; split; reflexivity|]. intros j1 j2 j3 [A1 B1 C1] [A2 B2 C2].
  split; [by transitivity (j_uc j2)|by transitivity j2..].
Qed.

Lemma calm_bytes_kept j j' : calm j j' -> same_bytes j j'.
Proof. intros [Hh _ _] h r Hr. exists r. split; [by eapply lookup_weaken|done]. Qed.
Lemma bytes_view_frame j j' h b : frame j j' -> bytes_view j h = Some b -> bytes_view j' h = Some b.
Proof.
  intros F. unfold bytes_view, get_kind, get_rec. destruct (handles_ j !! h) as [r|] eqn:Er; [|done].
  destruct (fr_bytes _ _ F _ _ Er) as (r' & -> & K & E). rewrite K. destruct (decide (kind r = RByteArray)); [|done].
  cbn. by rewrite E.
Qed.

Definition framed {A} (m : M J A) : Prop := forall j r j', live j -> m j = (r, j') -> live j' /\ frame j j'.

Lemma framed_ret {A} (a : A) : framed (M_ret a).
Proof. intros j r j' Hj [= _ <-]. by split. Qed.
Lemma framed_get : framed get.
Proof. intros j r j' Hj [= _ <-]. by split. Qed.
Lemma framed_lift {A} (o : outcome A) : framed (lift o).
Proof. intros j r j' Hj [= _ <-]. by split. Qed.
Lemma framed_bind {A B} (m : M J A) (f : A -> M J B) : framed m -> (forall a, framed (f a)) -> framed (M_bind f m).
Proof.
  intros Hm Hf j r j' Hj. unfold M_bind. destruct (m j) as [[a|e|] j1] eqn:E; intros E'.
  - destruct (Hm _ _ _ Hj E) as [H1 F1]. destruct (Hf a _ _ _ H1 E') as [H2 F2].
    split; [done|by transitivity j1].
  - injection E' as _ <-. by eapply Hm.
  - injection E' as _ <-. by eapply Hm.
Qed.
Lemma framed_with_get {A} (f : J -> M J A) : (forall j, framed (f j)) -> framed (M_bind f get).
Proof. intros Hf. apply framed_bind; [apply framed_get|exact Hf]. Qed.

(** A run that leaves the arena's cursor and the records alone. *)
Lemma on_mem_run {A} (op : M (Memory U) A) (j : J) r j' :
  on_mem op j = (r, j') -> exists m, op (j_mem j) = (r, m) /\ j' = with_j_mem j m.
Proof. unfold on_mem. destruct (op (j_mem j)) as [o m]. intros [= <- <-]. by exists m. Qed.
Lemma live_mem (j : J) m :
  live j -> java_next_ m = java_next_ (j_mem j) -> java_end_ m = java_end_ (j_mem j) ->
  mem_frame outside (j_uc j) (m_uc m) -> live (with_j_mem j m) /\ frame j (with_j_mem j m).
Proof.
  intros [[A B C D E] L T] En Ee F. split; [split|split].
  - split; cbn; unfold arena_in in *; rewrite ?En, ?Ee; done.
  - cbn. rewrite En. destruct L as [L|L]; [by left|right]. intros x Hx. apply (mf_mapped _ _ _ F), L, Hx.
  - exact T.
  - exact F.
  - intros h r Hr. by exists r.
  - intros o v. exact id.
Qed.
Lemma modify_framed (f : J -> J) :
  (forall j, j_mem (f j) = j_mem j /\ handles_ (f j) = handles_ j /\
             class_by_name_ (f j) = class_by_name_ j /\ member_cache_ (f j) = member_cache_ j) ->
  framed (modify f).
Proof.
  intros Hf j r j' Hj [= _ <-]. destruct (grows_modify f Hf j _ _ (lv_ok _ Hj) eq_refl) as [Ok _].
  destruct (Hf j) as (Em & Eh & _). destruct Hj as [_ L T].
  split; [split|split]; unfold j_uc in *; rewrite ?Em, ?Eh.
  - exact Ok.
  - exact L.
  - exact T.
  - reflexivity.
  - intros h r0 Hr. exists r0. by rewrite Eh.
  - intros o v (r0 & Hr & Hf0). exists r0. by rewrite Eh.
Qed.

(** *** New records *)

Lemma java_alloc_frame (m m' : Memory U) r :
  (java_next_ m = 0 \/ forall x, kJavaBase <= x < kJavaEnd -> uc_mapped (m_uc m) x = true) ->
  java_alloc kShadowSize 16 m = (r, m') ->
  mem_frame outside (m_uc m) (m_uc m') /\
  (java_next_ m' = 0 \/ forall x, kJavaBase <= x < kJavaEnd -> uc_mapped (m_uc m') x = true) /\
  forall p, r = Ret p -> java_next_ m = 0 -> forall x, kJavaBase <= x < kJavaEnd -> uc_mapped (m_uc m) x = false.
Proof.
  intros L. unfold java_alloc. rewrite bind_get. unfold mbind at 1, M_mbind, M_bind at 1.
  destruct (Z.eqb_spec (java_next_ m) 0) as [E0|E0].
  - unfold mbind at 1, M_bind at 1. rewrite map_insert_eq.
    destruct (uc_mem_map (m_uc m) kJavaBase kJavaSize UC_PROT_RW) as [u'|] eqn:E;
      [|intros [= <- <-]; split; [done|]; split; done].
    pose proof (map_frame outside _ _ _ _ _ E) as F.
    assert (forall x, kJavaBase <= x < kJavaEnd -> uc_mapped u' x = true) as Hm.
    { intros x Hx. rewrite (law_map_mapped _ _ _ _ _ _ E), (proj2 (in_range_spec _ _ _)); [apply orb_true_r|exact Hx]. }
    unfold set_java at 1, modify at 1. cbv beta iota. rewrite bind_get.
    case_match; intros [= <- <-]; (split; [exact F|]; split; [right; exact Hm|intros p Hp]); [done|].
    intros _ x Hx. by eapply law_map_free.
  - unfold skip at 1, M_ret at 1. cbv beta iota. destruct L as [L|L]; [done|]. rewrite bind_get.
    case_match; intros [= <- <-]; (split; [done|]; split; [right; exact L|done]).
Qed.

Lemma alloc_frame rec (j : J) r j' :
  bytes_ok (jbytes rec) -> live j -> alloc rec j = (r, j') ->
  live j' /\ frame j j' /\
  forall h, r = Ret h -> java_next_ (j_mem j) = 0 ->
    forall x, kJavaBase <= x < kJavaEnd -> uc_mapped (j_uc j) x = false.
Proof.
  intros Hb Hj E. destruct (grows_alloc rec _ _ _ (lv_ok _ Hj) E) as [Ok _]. pose proof (calm_alloc rec _ _ _ E) as Hc.
  unfold alloc, mbind, M_mbind, M_bind, on_mem in E.
  destruct (java_alloc kShadowSize 16 (j_mem j)) as [p m'] eqn:Ea.
  destruct (java_alloc_frame _ _ _ (lv_arena _ Hj) Ea) as (F & L & Hfree).
  assert (j_mem j' = m' /\ (handles_ j' = handles_ j \/ exists h, handles_ j' = <[h := rec]> (handles_ j)) /\
          (is_ret r = is_ret p)) as (Em & Eh & Er).
  { destruct p as [h|e|]; injection E as <- <-; cbn; [|by auto..]. case_match; eauto. }
  split; [|split].
  - split; [done|by unfold j_uc; rewrite Em|]. intros h rc Hr. destruct Eh as [Eh|[h1 Eh]]; rewrite Eh in Hr.
    + by eapply (lv_bytes _ Hj).
    + apply lookup_insert_Some in Hr as [[_ <-]|[_ Hr]]; [done|by eapply (lv_bytes _ Hj)].
  - split; [by unfold j_uc; rewrite Em|by apply calm_bytes_kept|by apply calm_field].
  - intros h ->. destruct p as [p|e|]; [|done..]. by eapply Hfree.
Qed.
Lemma framed_alloc rec : bytes_ok (jbytes rec) -> framed (alloc rec).
Proof. intros Hb j r j' Hj E. by destruct (alloc_frame rec j r j' Hb Hj E) as (? & ? & _). Qed.

(** The word of a shadow. *)
Lemma write_shadow h off v (j : J) r j' :
  live j -> is_Some (handles_ j !! h) -> 0 <= off <= 8 -> write_u32 (h + off) v j = (r, j') ->
  live j' /\ frame j j' /\ handles_ j' = handles_ j.
Proof.
  intros Hj [rc Hr] Ho E. destruct (jo_shadow _ (lv_ok _ Hj) _ _ Hr) as (Hlo & Hhi & _).
  apply on_mem_run in E as (m & Em & ->). apply uc_do_run in Em as (u & Eu & ->).
  assert (java_next_ (j_mem j) <= kJavaEnd) as Hend.
  { pose proof (jo_arena _ (lv_ok _ Hj)) as A. unfold arena_in, kShadowSize, kJavaEnd, kJavaBase, kJavaSize in *. lia. }
  enough (mem_frame outside (j_uc j) u) as F by (destruct (live_mem j (with_m_uc (j_mem j) u) Hj) as [? ?]; done).
  unfold write_t, e_write, check in Eu. destruct (uc_mem_write _ _ _) as [u1|] eqn:Ew; injection Eu as _ <-; [|done].
  unfold kShadowSize, kJavaEnd, kJavaBase, kJavaSize in *. rewrite u64_id in Ew by lia.
  refine (write_in_arena _ _ _ _ _ _ Ew); unfold zlen, kJavaEnd, kJavaBase, kJavaSize; rewrite ?length_le_bytes; lia.
Qed.

Lemma framed_find_class n : framed (find_class (U := U) (HM := HM) n).
Proof.
  intros j r j' Hj. unfold find_class. rewrite bind_get.
  destruct (class_by_name_ j !! n) as [h|] eqn:En; [by intros [= _ <-]|].
  unfold mbind at 1, M_mbind, M_bind at 1. destruct (alloc _ j) as [p j1] eqn:Ea.
  destruct (framed_alloc (mkRecord RClass n [] [] [] false 0 ∅ [] []) (Forall_nil_2 _) _ _ _ Hj Ea) as [H1 F1].
  destruct p as [h|e|]; [|intros [= _ <-]; by split..].
  destruct (alloc_run _ _ _ _ (lv_ok _ Hj) Ea) as (_ & _ & Ec & _ & Hh). destruct (Hh _ eq_refl) as [_ Hr].
  rewrite bind_modify. destruct (cache_class n h _ j1 (lv_ok _ H1) Hr eq_refl eq_refl ltac:(by rewrite Ec)) as [Ok2 _].
  set (j2 := with_classes _ j1) in *.
  assert (live j2 /\ frame j1 j2) as [H2 F2].
  { destruct H1 as [_ L T]. split; [by split|]. split; [done| |].
    - intros k rc Hk. by exists rc.
    - intros o v. exact id. }
  unfold mbind, M_mbind, M_bind. destruct (write_u32 (h + 0) h j2) as [w j3] eqn:Ew.
  destruct (write_shadow h 0 h j2 w j3 H2 ltac:(by eexists) ltac:(lia) Ew) as (H3 & F3 & _).
  intros E. assert (j' = j3) as -> by (destruct w; by injection E).
  split; [done|]. transitivity j1; [done|]. by transitivity j2.
Qed.

(** A new object of a class, with a length at most. *)
Lemma framed_new_of rc c : bytes_ok (jbytes rc) -> framed (new_of (U := U) (HM := HM) rc c).
Proof.
  intros Hb j r j' Hj. unfold new_of. unfold mbind at 1, M_mbind, M_bind at 1. destruct (alloc rc j) as [p j1] eqn:Ea.
  destruct (framed_alloc _ Hb _ _ _ Hj Ea) as [H1 F1]. destruct p as [h|e|]; [|intros [= _ <-]; by split..].
  destruct (alloc_run _ _ _ _ (lv_ok _ Hj) Ea) as (_ & _ & _ & _ & Hh). destruct (Hh _ eq_refl) as [_ Hr].
  unfold mbind at 1, M_mbind, M_bind at 1. destruct (find_class c j1) as [q j2] eqn:Ef.
  destruct (framed_find_class c _ _ _ H1 Ef) as [H2 F2]. pose proof (transitivity F1 F2) as F12.
  destruct q as [cl|e|]; [|intros [= _ <-]; by split..].
  pose proof (cm_handles _ _ (calm_find_class c _ _ _ Ef)) as S2.
  unfold mbind, M_mbind, M_bind. destruct (write_u32 (h + kClassOff) cl j2) as [w j3] eqn:Ew.
  destruct (write_shadow h kClassOff cl j2 w j3 H2 ltac:(eexists; by eapply lookup_weaken) ltac:(unfold kClassOff; lia) Ew)
    as (H3 & F3 & _).
  intros E. assert (j' = j3) as -> by (destruct w; by injection E). split; [done|]. by transitivity j2.
Qed.
Lemma framed_new_sized rc c n : bytes_ok (jbytes rc) ->
  framed (h ← new_of (U := U) (HM := HM) rc c; _ ← write_u32 (h + kLengthOff) n; mret h).
Proof.
  intros Hb j r j' Hj. unfold mbind at 1, M_mbind, M_bind at 1. destruct (new_of rc c j) as [p j1] eqn:Ea.
  destruct (framed_new_of _ _ Hb _ _ _ Hj Ea) as [H1 F1]. destruct p as [h|e|]; [|intros [= _ <-]; by split..].
  destruct (new_record _ _ _ _ _ (lv_ok _ Hj) Ea) as (_ & _ & _ & _ & Hr).
  unfold mbind, M_mbind, M_bind. destruct (write_u32 (h + kLengthOff) n j1) as [w j3] eqn:Ew.
  destruct (write_shadow h kLengthOff n j1 w j3 H1 ltac:(by eexists) ltac:(unfold kLengthOff; lia) Ew) as (H3 & F3 & _).
  intros E. assert (j' = j3) as -> by (destruct w; by injection E). split; [done|]. by transitivity j1.
Qed.

(** *** Fields *)

Lemma set_field_live o n v (j : J) r j' : live j -> set_field o n v j = (r, j') ->
  live j' /\ j_mem j' = j_mem j /\ same_bytes j j'.
Proof.
  intros Hj E. destruct (grows_set_field o n v _ _ _ (lv_ok _ Hj) E) as [Ok _].
  assert (handles_ j' = alter (fun r => with_fields (<[n := v]> (fields r)) r) o (handles_ j)) as Eh.
  { rewrite <- update_handles. unfold set_field in E. by rewrite E. }
  assert (j_mem j' = j_mem j) as Em by (injection E as _ <-; by case_match).
  assert (same_bytes j j') as S.
  { intros h rc Hr. rewrite Eh. destruct (decide (h = o)) as [->|Hn].
    - rewrite lookup_alter_eq, Hr. by eexists.
    - rewrite lookup_alter_ne by done. by exists rc. }
  split; [|done]. split; [done|unfold j_uc; rewrite Em; apply (lv_arena _ Hj)|].
  intros h rc Hr. rewrite Eh in Hr. destruct (decide (h = o)) as [->|Hn].
  - rewrite lookup_alter_eq in Hr. destruct (handles_ j !! o) as [r0|] eqn:E0; [|done]. injection Hr as <-.
    apply (lv_bytes _ Hj _ _ E0).
  - rewrite lookup_alter_ne in Hr by done. by eapply (lv_bytes _ Hj).
Qed.
Lemma framed_set_field o n v : bs "mCookie" <> n -> framed (set_field (U := U) (HM := HM) o n v).
Proof.
  intros Hn j r j' Hj E. destruct (set_field_live _ _ _ _ _ _ Hj E) as (Hj' & Em & S). split; [done|].
  split; [unfold j_uc; by rewrite Em|done|by eapply set_field_field].
Qed.
(** A field of an object that was not there at first. *)
Lemma set_field_fresh o n v (j0 j : J) r j' :
  live j -> frame j0 j -> handles_ j0 !! o = None -> set_field o n v j = (r, j') -> live j' /\ frame j0 j'.
Proof.
  intros Hj F Hn E. destruct (set_field_live _ _ _ _ _ _ Hj E) as (Hj' & Em & S). split; [done|].
  assert (handles_ j' = alter (fun r => with_fields (<[n := v]> (fields r)) r) o (handles_ j)) as Eh.
  { rewrite <- update_handles. unfold set_field in E. by rewrite E. }
  destruct F as [Fm Fb Fc]. split; [unfold j_uc; by rewrite Em|by transitivity j|].
  intros h w Hh. destruct (Fc _ _ Hh) as (r1 & Hr1 & Hf1). exists r1. split; [|done]. rewrite Eh.
  destruct Hh as (r0 & Hr0 & _). rewrite lookup_alter_ne; [done|]. congruence.
Qed.
End Frame.
