(* ===== verification/ArtFacts.v ===== *)
(** What the DEX-load surface ([ArtRuntime]) promises a packer: native code that
    walks from a [DexFile] object through [mCookie] and the struct reaches the
    bytes registered, and goes on doing so; what a loader hands over is
    captured; the enumeration yields the class names. *)

From stdpp Require Import strings.
From S2P Require Import Prelude.
From S2P Require Import Words.
From S2P Require Import Abi.
From S2P Require Import Unicorn.
From S2P Require Import Engine.
From S2P Require Import Memory.
From S2P Require Import JavaRuntime.
From S2P Require Import Jni.
From S2P Require Import DexFile.
From S2P Require Import Framework.
From S2P Require Import EnvMethods.
From S2P Require Import AndroidEnv.
From S2P Require Import EnvFacts.
From S2P Require Import ArtRuntime.
From S2P Require Import ArtFrame.
#[local] Open Scope Z_scope.

(** Every run of [m] from [s] ends in a state of [R], and in one of [Q] with
    its result if it returns. *)
Definition runs {S A} (R : S -> Prop) (Q : A -> S -> Prop) (m : M S A) (s : S) : Prop :=
  forall r s', m s = (r, s') -> R s' /\ forall a, r = Ret a -> Q a s'.
Lemma runs_bind {S A B} (R : S -> Prop) (P : A -> S -> Prop) (Q : B -> S -> Prop) m f s :
  runs R P m s -> (forall a s1, R s1 -> P a s1 -> runs R Q (f a) s1) -> runs R Q (M_bind f m) s.
Proof.
  intros Hm Hf r s'. unfold M_bind. destruct (m s) as [[a|e|] s1] eqn:E; destruct (Hm _ _ E) as [H1 P1].
  - apply Hf; auto.
  - intros [= <- <-]. by split.
  - intros [= <- <-]. by split.
Qed.
Lemma runs_ret {S A} (R : S -> Prop) (Q : A -> S -> Prop) a s : R s -> Q a s -> runs R Q (M_ret a) s.
Proof. intros HR HQ r s' [= <- <-]. split; [done|]. by intros b [= <-]. Qed.
Lemma runs_weaken {S A} (R R' : S -> Prop) (Q Q' : A -> S -> Prop) m s :
  runs R Q m s -> (forall s', R s' -> R' s') -> (forall a s', R s' -> Q a s' -> Q' a s') -> runs R' Q' m s.
Proof. intros Hm HR HQ r s' E. destruct (Hm _ _ E) as [H1 H2]. split; [auto|]. intros a Ha. auto. Qed.

(** ** Placing bytes *)

Section Place.
Context {U HM : Type} `{UcLaws U}.
#[local] Abbreviation J := (JavaRuntime U HM).

Lemma mmap_run len prot l (m m' : Memory U) r :
  0 <= len -> mmap_alloc len prot l m = (r, m') ->
  java_next_ m' = java_next_ m /\ java_end_ m' = java_end_ m /\ mem_frame anywhere (m_uc m) (m_uc m') /\
  forall b, r = Ret b -> len <= 2 ^ 32 /\ 0 <= b < 2 ^ 64 /\ b + len <= 2 ^ 64 /\
    forall x, b <= x < b + len -> uc_mapped (m_uc m) x = false /\ uc_mapped (m_uc m') x = true.
Proof.
  intros Hlen. unfold mmap_alloc. destruct (Z.ltb_spec (2 ^ 32) len) as [Hb|Hb]; [by intros [= <- <-]|].
  rewrite bind_get. unfold mbind, M_mbind, M_bind. rewrite map_insert_eq.
  destruct (page_align_up_pos (if len =? 0 then 1 else len)) as (Hge & _ & Hpos); [destruct (Z.eqb_spec len 0); lia..|].
  assert (len <= page_align_up (if len =? 0 then 1 else len)) as Hle by (destruct (Z.eqb_spec len 0); lia).
  set (size := page_align_up _) in *. set (b := gap_search _ _ _ _). clearbody b size.
  destruct (uc_mem_map (m_uc m) b size prot) as [u'|] eqn:E; intros [= <- <-]; [|by destruct m].
  cbn. do 2 (split; [done|]). split; [by eapply map_frame|]. intros b' [= <-].
  pose proof (law_map_args _ _ _ _ _ E) as (H1 & H2 & H3 & _).
  do 3 (split; [lia|]). intros x Hx. split; [eapply law_map_free; [exact E|lia]|].
  rewrite (law_map_mapped _ _ _ _ _ _ E), (proj2 (in_range_spec _ _ _)) by lia. apply orb_true_r.
Qed.

(** Memory changed from [j0] on, the arena and the table not. *)
Record placed (j0 j : J) : Prop := {
  pl_live : live j;
  pl_mem : mem_frame anywhere (j_uc j0) (j_uc j);
  pl_cookie : same_field (bs "mCookie") j0 j;
  pl_handles : handles_ j = handles_ j0;
  pl_next : java_next_ (j_mem j) = java_next_ (j_mem j0);
}.
Lemma placed_refl j : live j -> placed j j.
Proof. intros Hj. by split. Qed.
Lemma placed_trans j0 j1 j2 : placed j0 j1 -> placed j1 j2 -> placed j0 j2.
Proof.
  intros [A1 B1 C1 D1 E1] [A2 B2 C2 D2 E2].
  split; [done|by transitivity (j_uc j1)|by transitivity j1|congruence..].
Qed.
Lemma placed_frame j0 j : placed j0 j -> frame j0 j.
Proof.
  intros [A B C D _]. split; [by apply mem_frame_outside| |done].
  intros h r Hr. exists r. by rewrite D.
Qed.
Lemma placed_mem (j0 j : J) m :
  placed j0 j -> java_next_ m = java_next_ (j_mem j) -> java_end_ m = java_end_ (j_mem j) ->
  mem_frame anywhere (j_uc j0) (m_uc m) -> (forall x, uc_mapped (j_uc j) x = true -> uc_mapped (m_uc m) x = true) ->
  placed j0 (with_j_mem j m).
Proof.
  intros [[[A B C D E] L T] Fm Fc Eh En] Hn He F Hmono. split; [split|..|cbn; congruence]; try done.
  - split; cbn; unfold arena_in in *; rewrite ?Hn, ?He; done.
  - cbn. rewrite Hn. destruct L as [L|L]; [by left|right]. intros x Hx. by apply Hmono, L.
Qed.

(** A block that was free in [j0] and is mapped in [j]. *)
Definition taken (j0 j : J) (a n : Z) : Prop :=
  0 <= a < 2 ^ 64 /\ a + n <= 2 ^ 64 /\
  forall x, a <= x < a + n -> uc_mapped (j_uc j0) x = false /\ uc_mapped (j_uc j) x = true.
Lemma taken_later j0 j j' a n : frame j j' -> taken j0 j a n -> taken j0 j' a n.
Proof.
  intros F (H1 & H2 & H3). do 2 (split; [done|]). intros x Hx. destruct (H3 x Hx) as [Hf Hm].
  split; [done|]. by apply (mf_mapped _ _ _ (fr_mem _ _ F)).
Qed.

Definition jread (j : J) (a n : Z) : option (list Z) := uc_mem_read (j_uc j) a n.

Lemma place_runs l label (j : J) :
  live j -> bytes_ok l ->
  runs (placed j) (fun a j' => zlen l <= 2 ^ 32 /\ taken j j' a (zlen l) /\ jread j' a (zlen l) = Some l) (place l label) j.
Proof.
  intros Hj Hl. pose proof (zlen_nonneg l) as H0l.
  eapply (runs_bind _ (fun a j1 => zlen l <= 2 ^ 32 /\ taken j j1 a (zlen l))).
  - intros r j1 (m & Em & ->)%on_mem_run. apply mmap_run in Em as (En & Ee & F & Ht); [|case_Z; lia].
    split; [apply placed_mem; [by apply placed_refl|done..|by intros x Hx; apply (mf_mapped _ _ _ F)]|].
    intros a ->. destruct (Ht a eq_refl) as (H1 & H2 & H3 & H4).
    destruct (Z.eqb_spec (zlen l) 0); (split; [lia|]; split; [done|]; split; [lia|]; intros x Hx; apply H4; lia).
  - intros a j1 P1 [Hsz T1]. case_bool_decide as El.
    { subst l. apply runs_ret; [done|]. do 2 (split; [done|]). apply read_0. }
    assert (0 < zlen l) as Hpos by (destruct l; [done|unfold zlen; cbn; lia]).
    eapply (runs_bind _ (fun _ j2 => taken j j2 a (zlen l) /\ jread j2 a (zlen l) = Some l));
      [|intros _ j2 P2 Q2; by apply runs_ret].
    intros r j2 (m & Em & ->)%on_mem_run. apply uc_do_run in Em as (u & Eu & ->). unfold e_write, check in Eu.
    destruct (uc_mem_write _ a l) as [u1|] eqn:Ew; injection Eu as <- <-; cbn [j_uc j_mem with_j_mem with_m_uc m_uc].
    + assert (forall x, uc_mapped u1 x = uc_mapped (j_uc j1) x) as Hm by (intros; by eapply law_write_mapped).
      split.
      * apply placed_mem; [done..| |intros x Hx; cbn; by rewrite Hm].
        eapply write_frame; [apply (pl_mem _ _ P1)|done| |exact Ew].
        intros x Hx. by apply T1.
      * intros _ _. destruct T1 as (T1 & T2 & T3). split; [do 2 (split; [done|])|by eapply law_read_write].
        intros x Hx. cbn. rewrite Hm. by apply T3.
    + split; [|done]. apply placed_mem; [done..| |done]. apply (pl_mem _ _ P1).
Qed.

(** A word in a block taken from [j0] on; others stay. *)
Definition in_block (s off : Z) (n : Z) : Prop := 0 <= off /\ off + 8 <= n.
Lemma put_word_runs s n off v (j0 j : J) :
  placed j0 j -> taken j0 j s n -> in_block s off n -> 0 <= v < 2 ^ 64 ->
  runs (placed j0)
    (fun _ j' => taken j0 j' s n /\ word_at j' (s + off) = Some v /\
       forall b, b + 8 <= s + off \/ s + off + 8 <= b -> word_at j' b = word_at j b) (put_word s off v) j.
Proof.
  intros Pj T [Ho1 Ho2] Hv r j2 (m & Em & ->)%on_mem_run. apply uc_do_run in Em as (u & Eu & ->).
  destruct T as (T1 & T2 & T3). unfold write_t, e_write, check in Eu. rewrite u64_id in Eu by lia.
  assert (zlen (le_bytes 8 v) = 8) as Hz by (unfold zlen; by rewrite length_le_bytes).
  destruct (uc_mem_write _ _ _) as [u1|] eqn:Ew; injection Eu as <- <-; cbn [j_uc j_mem with_j_mem with_m_uc m_uc].
  - assert (forall x, uc_mapped u1 x = uc_mapped (j_uc j) x) as Hm by (intros; by eapply law_write_mapped).
    split.
    + apply placed_mem; [done..| |intros x Hx; cbn; by rewrite Hm].
      eapply write_frame; [apply (pl_mem _ _ Pj)|rewrite Hz; lia| |exact Ew].
      intros x Hx. rewrite Hz in Hx. apply T3. lia.
    + intros _ _. split; [do 2 (split; [done|]); intros x Hx; cbn; rewrite Hm; by apply T3|].
      pose proof (law_read_write _ _ _ _ (le_bytes_ok 8 v) Ew) as Hr. rewrite Hz in Hr. unfold word_at. cbn. split.
      * rewrite Hr. cbn [fmap option_fmap option_map]. by rewrite le_val_bytes, Z.mod_small by done.
      * intros b Hb. by rewrite (law_read_write_ne _ _ _ _ _ _ Ew) by (rewrite Hz; lia).
  - split; [|done]. apply placed_mem; [done..| |done]. apply (pl_mem _ _ Pj).
Qed.

(** ** The struct and the objects *)

Definition struct_of (j : J) (s begin size : Z) : Prop :=
  word_at j (s + kBeginOff) = Some begin /\ word_at j (s + kSizeOff) = Some size.

(** Words in a block survive what keeps its bytes. *)
Lemma word_kept area (j j' : J) a v :
  mem_frame area (j_uc j) (j_uc j') -> area a 8 -> word_at j a = Some v -> word_at j' a = Some v.
Proof.
  intros F Ha. unfold word_at. destruct (uc_mem_read (m_uc (j_mem j)) a 8) as [l|] eqn:E; [|done].
  pose proof (mf_bytes _ _ _ F a 8 l ltac:(lia) Ha E) as Hr. unfold j_uc in Hr. by rewrite Hr.
Qed.
Lemma struct_kept area (j j' : J) s b n :
  mem_frame area (j_uc j) (j_uc j') -> (forall off, 0 <= off <= 8 -> area (s + off) 8) ->
  struct_of j s b n -> struct_of j' s b n.
Proof.
  intros F Ha [W1 W2]. split; (eapply word_kept; [exact F| |done]); apply Ha; unfold kBeginOff, kSizeOff; lia.
Qed.

Lemma dex_struct_runs begin size loc (j : J) :
  live j -> bytes_ok loc -> 0 <= begin < 2 ^ 64 -> 0 <= size < 2 ^ 64 ->
  runs (placed j) (fun s j' => taken j j' s kStructSize /\ struct_of j' s begin size) (dex_struct begin size loc) j.
Proof.
  intros Hj Hloc Hb Hs.
  eapply runs_bind; [apply place_runs; [done|apply Forall_replicate; unfold is_byte; lia]|].
  intros s j1 P1 (_ & T1 & _). change (zlen (replicate (Z.to_nat kStructSize) 0)) with kStructSize in T1.
  eapply runs_bind; [apply (put_word_runs s kStructSize); done|]. intros _ j2 P2 (T2 & W2 & _).
  eapply runs_bind; [apply (put_word_runs s kStructSize); done|]. intros _ j3 P3 (T3 & W3 & K3).
  rewrite <- K3 in W2 by (unfold kBeginOff, kSizeOff; lia).
  eapply runs_bind; [apply (put_word_runs s kStructSize); done|]. intros _ j4 P4 (T4 & _ & K4).
  rewrite <- K4 in W2, W3 by (unfold kBeginOff, kSizeOff, kDataBeginOff; lia).
  eapply runs_bind; [apply (put_word_runs s kStructSize); done|]. intros _ j5 P5 (T5 & _ & K5).
  rewrite <- K5 in W2, W3 by (unfold kBeginOff, kSizeOff, kDataSizeOff; lia).
  assert (struct_of j5 s begin size) as S5 by done.
  eapply runs_bind with (R := placed j) (P := fun a j6 => taken j j6 s kStructSize /\ struct_of j6 s begin size /\ 0 <= a < 2 ^ 64).
  { eapply runs_weaken; [apply place_runs; [apply (pl_live _ _ P5)|]| |].
    - apply Forall_app_2; [done|]. apply Forall_singleton. done.
    - intros j6. by apply placed_trans.
    - intros a j6 P6 (_ & T6 & _). split; [by eapply taken_later; [apply placed_frame|]|]. split; [|apply T6].
      eapply struct_kept; [apply (pl_mem _ _ P6)|done|done]. }
  intros a j6 P6 (T6 & S6 & Ha).
  eapply runs_bind; [apply (put_word_runs s kStructSize); done|]. intros _ j7 P7 (T7 & _ & K7).
  apply runs_ret; [done|]. split; [done|]. destruct S6 as [V1 V2].
  rewrite <- K7 in V1, V2 by (unfold kBeginOff, kSizeOff, kLocationOff; lia). done.
Qed.
End Place.

(** ** Registered files *)

Section Registered.
Context {U HM : Type} `{UcLaws U}.
#[local] Abbreviation J := (JavaRuntime U HM).
#[local] Abbreviation A := (ArtRuntime U HM).

Definition later (j j' : J) : Prop := live j' /\ frame j j'.
Lemma later_trans j0 j1 j2 : frame j0 j1 -> later j1 j2 -> later j0 j2.
Proof. intros F [L F']. split; [done|by transitivity j1]. Qed.

Definition arena_free (j : J) : Prop :=
  java_next_ (j_mem j) = 0 -> forall x, kJavaBase <= x < kJavaEnd -> uc_mapped (j_uc j) x = false.

Lemma framed_runs {X} (m : M J X) (j0 j : J) (Q : X -> J -> Prop) :
  framed m -> later j0 j -> (forall a j', m j = (Ret a, j') -> later j j' -> Q a j') -> runs (later j0) Q m j.
Proof.
  intros Hm [L F] HQ r j' E. destruct (Hm _ _ _ L E) as [L' F']. split; [split; [done|by transitivity j]|].
  intros a ->. apply HQ; [done|by split].
Qed.

Lemma cookie_bytes_ok dfp : bytes_ok (cookie_bytes dfp).
Proof. apply Forall_app_2; [apply Forall_replicate; unfold is_byte; lia|apply le_bytes_ok]. Qed.
Lemma framed_string s : framed (new_string_utf (U := U) (HM := HM) s).
Proof. apply framed_new_of. constructor. Qed.
Lemma framed_object c : framed (new_object (U := U) (HM := HM) c).
Proof. apply framed_new_of. constructor. Qed.
Lemma framed_array l : framed (new_object_array (U := U) (HM := HM) l).
Proof. apply framed_new_sized. constructor. Qed.

Lemma dex_object_runs dfp loc (j : J) :
  live j ->
  runs (later j) (fun co j' => arena_free j /\ bytes_view j' co.1 = Some (cookie_bytes dfp) /\
                    has j' co.2 (bs "mCookie") (DObject co.1)) (dex_object dfp loc) j.
Proof.
  intros Hj. assert (later j j) as L0 by (by split).
  eapply (runs_bind _ (fun c j1 => arena_free j /\ bytes_view j1 c = Some (cookie_bytes dfp))).
  { apply framed_runs; [apply framed_new_sized, cookie_bytes_ok|done|]. intros c j1 E _.
    split; [|by eapply new_bytes_run, E; apply Hj].
    apply bind_ret_inv in E as (h & j' & E & _). apply bind_ret_inv in E as (h' & j'' & E & _).
    destruct (alloc_frame (mkRecord RByteArray [] [] [] [] false 0 ∅ (cookie_bytes dfp) []) _ _ _ (cookie_bytes_ok dfp) Hj E)
      as (_ & _ & Hf). exact (Hf _ eq_refl). }
  intros c j1 L1 [Hfree B1].
  eapply (runs_bind _ (fun o j2 => later j1 j2 /\ handles_ j !! o = None /\ is_Some (handles_ j2 !! o))).
  { apply framed_runs; [apply framed_object|done|]. intros o j2 E L2. split; [done|].
    destruct (new_record _ _ _ _ _ (lv_ok _ (proj1 L1)) E) as (_ & _ & _ & Hn & Hr). split; [|by eexists].
    destruct (handles_ j !! o) as [r|] eqn:Er; [|done].
    destruct (fr_bytes _ _ (proj2 L1) _ _ Er) as (r' & Hr' & _). congruence. }
  intros o j2 L2 (L12 & Ho & Hso).
  eapply (runs_bind _ (fun _ j3 => bytes_view j3 c = Some (cookie_bytes dfp) /\ has j3 o (bs "mCookie") (DObject c))).
  { intros r j3 E. split; [by eapply set_field_fresh; [apply L2..| |exact E]|]. intros _ _.
    split; [|by eapply set_field_has].
    destruct (set_field_live _ _ _ _ _ _ (proj1 L2) E) as (_ & _ & Sb).
    pose proof (bytes_view_frame _ _ _ _ (proj2 L12) B1) as B2. clear - B2 Sb.
    unfold bytes_view, get_kind, get_rec in *. destruct (handles_ j2 !! c) as [rc|] eqn:Ec; [|done].
    destruct (Sb _ _ Ec) as (r' & -> & K & Eb). rewrite K. destruct (decide (kind rc = RByteArray)); [|done].
    cbn in *. by rewrite Eb. }
  intros _ j3 L3 [B3 H3].
  assert (forall j', later j3 j' -> bytes_view j' c = Some (cookie_bytes dfp) /\ has j' o (bs "mCookie") (DObject c))
    as Hkeep.
  { intros j' [_ F]. split; [by eapply bytes_view_frame|by apply (fr_cookie _ _ F)]. }
  eapply (runs_bind _ (fun _ j' => later j3 j')).
  { apply framed_runs; [apply framed_set_field; text_differs|done|done]. }
  intros _ j4 L4 L34.
  eapply (runs_bind _ (fun _ j' => later j3 j')).
  { apply framed_runs; [apply framed_string|done|]. intros n j5 _ L5. eapply later_trans; [apply L34|done]. }
  intros n j5 L5 L35.
  eapply (runs_bind _ (fun _ j' => later j3 j')).
  { apply framed_runs; [apply framed_set_field; text_differs|done|]. intros _ j6 _ L6. eapply later_trans; [apply L35|done]. }
  intros _ j6 L6 L36. apply runs_ret; [done|]. split; [done|]. by apply Hkeep.
Qed.

(** A DEX in memory: its bytes, the struct over them, the cookie, the object. *)
Record dex_ok (j : J) (d : Dex) (l : list Z) : Prop := {
  do_len : bytes_len d = zlen l;
  do_names : class_names d = dex_class_names l;
  do_bytes : jread j (bytes_addr d) (zlen l) = Some l;
  do_struct : struct_of j (struct_addr d) (bytes_addr d) (zlen l);
  do_cookie : bytes_view j (cookie_arr d) = Some (cookie_bytes (struct_addr d));
  do_object : has j (dexfile_obj d) (bs "mCookie") (DObject (cookie_arr d));
  do_range : 0 <= struct_addr d < 2 ^ 64;
  do_outside : (0 < zlen l -> outside (bytes_addr d) (zlen l)) /\ outside (struct_addr d) kStructSize;
}.

Lemma dex_ok_later j j' d l : frame j j' -> dex_ok j d l -> dex_ok j' d l.
Proof.
  intros F [A B C D E G I [O1 O2]]. split; try done.
  - pose proof (zlen_nonneg l). destruct (decide (zlen l = 0)) as [E0|E0].
    + rewrite E0 in *. unfold jread in *. rewrite (read_nil _ _ _ C). apply read_0.
    + apply (mf_bytes _ _ _ (fr_mem _ _ F)); [lia|apply O1; lia|done].
  - eapply struct_kept; [apply (fr_mem _ _ F)| |done]. intros off Ho. unfold outside, kStructSize in *. lia.
  - by eapply bytes_view_frame.
  - by apply (fr_cookie _ _ F).
Qed.

(** The walk of native code. *)
Lemma dex_ok_walk j d l : dex_ok j d l -> native_walk j (dexfile_obj d) = Some l.
Proof.
  intros [A B C [D1 D2] E G I _]. unfold native_walk. rewrite (has_get _ _ _ _ G), E. cbn [mbind option_bind].
  change (drop 8 (cookie_bytes (struct_addr d))) with (le_bytes 8 (struct_addr d)).
  rewrite take_ge by (by rewrite length_le_bytes). rewrite le_val_bytes, Z.mod_small by exact I.
  rewrite D1. cbn [option_bind]. rewrite D2. exact C.
Qed.

(** A block that is taken and was free lies outside the arena. *)
Lemma taken_outside (j0 j : J) a n :
  live j0 -> arena_free j -> java_next_ (j_mem j) = java_next_ (j_mem j0) -> 0 < n -> taken j0 j a n -> outside a n.
Proof.
  intros L0 Hf En Hn (_ & _ & T). unfold outside.
  destruct (decide (a + n <= kJavaBase)); [by left|]. destruct (decide (kJavaEnd <= a)); [by right|]. exfalso.
  assert (kJavaBase < kJavaEnd) by (unfold kJavaEnd, kJavaSize; lia).
  destruct (T (Z.max a kJavaBase) ltac:(lia)) as [T1 T2].
  destruct (lv_arena _ L0) as [E0|Hm].
  - rewrite (Hf ltac:(congruence)) in T2 by lia. done.
  - rewrite Hm in T1 by lia. done.
Qed.

Lemma new_dex_runs bytes loc (j : J) :
  live j -> bytes_ok bytes -> bytes_ok loc ->
  runs (later j) (fun d j' => dex_ok j' d bytes) (new_dex bytes loc) j.
Proof.
  intros Hj Hb Hloc. pose proof (zlen_nonneg bytes).
  assert (forall j', placed j j' -> later j j') as Hpl.
  { intros j' P. split; [apply (pl_live _ _ P)|by apply placed_frame]. }
  eapply (runs_bind _ (fun a j1 => placed j j1 /\ zlen bytes <= 2 ^ 32 /\ taken j j1 a (zlen bytes) /\
                               jread j1 a (zlen bytes) = Some bytes)).
  { eapply runs_weaken; [by apply place_runs|exact Hpl|done]. }
  intros a j1 L1 (P1 & Hsz & T1 & R1).
  eapply (runs_bind _ (fun s j2 => placed j j2 /\ mem_frame anywhere (j_uc j1) (j_uc j2) /\ taken j j2 s kStructSize /\
                               struct_of j2 s a (zlen bytes))).
  { eapply runs_weaken; [apply dex_struct_runs; [apply L1|done|apply T1|lia]| |].
    - intros j2 P2. apply Hpl. by eapply placed_trans.
    - intros s j2 P2 [(S1 & S2 & S3) W]. split; [by eapply placed_trans|]. split; [apply P2|]. split; [|done].
      do 2 (split; [done|]). intros x Hx. destruct (S3 x Hx) as [Hf Hm]. split; [|done].
      destruct (uc_mapped (j_uc j) x) eqn:Ex; [|done]. by rewrite (mf_mapped _ _ _ (pl_mem _ _ P1) x Ex) in Hf. }
  intros s j2 L2 (P2 & F12 & T2 & W2).
  eapply (runs_bind _ (fun co j3 => frame j2 j3 /\ arena_free j2 /\ bytes_view j3 co.1 = Some (cookie_bytes s) /\
                    has j3 co.2 (bs "mCookie") (DObject co.1))).
  { eapply runs_weaken; [apply dex_object_runs, L2| |].
    - intros j3. apply later_trans, L2.
    - intros co j3 L3 Q3. by split; [apply L3|]. }
  intros co j3 L3 (F3 & Hfree & B3 & C3). apply runs_ret; [done|].
  assert (outside s kStructSize) as Os by (eapply taken_outside; [exact Hj|exact Hfree|apply P2|done|exact T2]).
  assert (0 < zlen bytes -> outside a (zlen bytes)) as Oa.
  { intros Hpos. eapply taken_outside; [exact Hj|exact Hfree|apply P2|exact Hpos|].
    destruct T1 as (A1 & A2 & A3). do 2 (split; [done|]). intros x Hx. destruct (A3 x Hx) as [Hf Hm].
    split; [done|]. by apply (mf_mapped _ _ _ F12). }
  split; cbn; try done.
  - destruct (decide (zlen bytes = 0)) as [E0|E0].
    + rewrite E0 in *. unfold jread in *. rewrite (read_nil _ _ _ R1). apply read_0.
    + apply (mf_bytes _ _ _ (fr_mem _ _ F3)); [lia|apply Oa; lia|]. apply (mf_bytes _ _ _ F12); [lia|done..].
  - eapply struct_kept; [apply (fr_mem _ _ F3)| |done]. intros off Ho. unfold outside, kStructSize in *. lia.
  - apply T2.
Qed.
End Registered.
