(* ===== verification/ArtLoad.v ===== *)
(** The DEX-load methods of [ArtRuntime] at work: every run keeps the files
    registered and the captures, loading captures, the objects handed out lead
    to the files. *)

From stdpp Require Import strings.
From S2P Require Import Prelude.
From S2P Require Import Words.
From S2P Require Import Abi.
From S2P Require Import Unicorn.
From S2P Require Import Engine.
From S2P Require Import Memory.
From S2P Require Import JavaRuntime.
From S2P Require Import Jni.
From S2P Require Import DexFile.
From S2P Require Import Framework.
From S2P Require Import EnvMethods.
From S2P Require Import AndroidEnv.
From S2P Require Import EnvFacts.
From S2P Require Import EnvGraph.
From S2P Require Import ArtRuntime.
From S2P Require Import ArtFrame.
From S2P Require Import ArtFacts.
#[local] Open Scope Z_scope.

(** ** Operations that keep the files *)

Section Framed.
Context {U HM : Type} `{UcLaws U}.
#[local] Abbreviation J := (JavaRuntime U HM).

Lemma update_live h (f : JRecord -> JRecord) (j : J) r j' :
  (forall r, same_identity r (f r) /\ (bytes_ok (jbytes r) -> bytes_ok (jbytes (f r)))) ->
  live j -> update_rec (U := U) (HM := HM) h f j = (r, j') ->
  live j' /\ j_mem j' = j_mem j /\ handles_ j' = alter f h (handles_ j).
Proof.
  intros Hf Hj E. destruct (grows_update h f (fun r => proj1 (Hf r)) _ _ _ (lv_ok _ Hj) E) as [Ok _].
  assert (handles_ j' = alter f h (handles_ j)) as Eh by (rewrite <- update_handles; by rewrite E).
  assert (j_mem j' = j_mem j) as Em by (injection E as _ <-; by case_match).
  split; [|done]. split; [exact Ok|unfold j_uc; rewrite Em; apply (lv_arena _ Hj)|].
  intros k rc Hr. rewrite Eh in Hr. apply lookup_alter_Some in Hr as [(-> & r0 & Hr0 & ->)|[_ Hr]].
  - apply Hf. by eapply (lv_bytes _ Hj).
  - by eapply (lv_bytes _ Hj).
Qed.
Lemma update_framed h (f : JRecord -> JRecord) :
  (forall r, same_identity r (f r) /\ jbytes (f r) = jbytes r /\ fields (f r) = fields r) ->
  framed (update_rec (U := U) (HM := HM) h f).
Proof.
  intros Hf j r j' Hj E. destruct (update_live h f j r j') as (L & Em & Eh); [|done..|].
  { intros r0. destruct (Hf r0) as (I & -> & _). by split. }
  assert (forall k rc, handles_ j !! k = Some rc ->
            exists rc', handles_ j' !! k = Some rc' /\ kind rc' = kind rc /\ jbytes rc' = jbytes rc /\
                        fields rc' = fields rc) as Hk.
  { intros k rc Hr. rewrite Eh. destruct (decide (k = h)) as [->|Hn].
    - rewrite lookup_alter_eq, Hr. eexists. split; [done|]. destruct (Hf rc) as ((K & _) & B & F). by repeat split.
    - rewrite lookup_alter_ne by done. by exists rc. }
  split; [exact L|]. split.
  - unfold j_uc. by rewrite Em.
  - intros k rc Hr. destruct (Hk k rc Hr) as (rc' & ? & ? & ? & _). by exists rc'.
  - intros o v (rc & Hr & Hv). destruct (Hk o rc Hr) as (rc' & Hr' & _ & _ & F). exists rc'. by rewrite F.
Qed.
Lemma framed_member k mark c n s st :
  (k = RMethod /\ mark = "M|"%string) \/ (k = RField /\ mark = "F|"%string) ->
  framed (get_member (U := U) (HM := HM) k mark c n s st).
Proof.
  intros Hk j r j' Hj E. destruct (get_member_run _ _ _ _ _ _ _ _ _ Hk (lv_ok _ Hj) E) as (Ok & _).
  unfold get_member in E. rewrite bind_get in E. destruct (member_cache_ j !! _) as [h|]; [by injection E as _ <-|].
  unfold mbind at 1, M_mbind, M_bind at 1 in E. destruct (alloc _ j) as [p j1] eqn:Ea.
  destruct (framed_alloc (mkRecord k n s (class_name j c) [] st 0 ∅ [] []) (Forall_nil_2 _) _ _ _ Hj Ea) as [L1 F1].
  destruct p as [h|e|]; [|by injection E as _ <-..].
  rewrite bind_modify in E. injection E as _ <-. destruct L1 as [_ L T]. destruct F1 as [Fm Fb Fc]. split; by split.
Qed.
Lemma framed_native c n s fn : framed (register_native (U := U) (HM := HM) c n s fn).
Proof.
  apply framed_bind; [apply framed_member; by left|]. intros mid j r j' Hj. rewrite bind_get.
  destruct (get_rec j mid) as [r0|] eqn:Er; [|by intros [= _ <-]]. intros E.
  set (f := fun r => mkRecord (kind r) (rname r) (rsig r) (owner r) (utf8 r) (is_static r) fn (fields r) (jbytes r) (elems r)).
  assert (live (with_handles (<[mid := f r0]> (handles_ j)) j) /\ frame j (with_handles (<[mid := f r0]> (handles_ j)) j))
    as [L1 F1].
  { apply (update_framed mid f ltac:(intros; by repeat split) j (Ret tt)); [done|].
    unfold update_rec, modify. by rewrite Er. }
  assert (framed (U := U) (HM := HM) (modify (with_registered (registered_ j ++ [mkNative (class_name j c) n s fn])))) as Hm
    by (by apply modify_framed).
  destruct (Hm _ _ _ L1 E) as [L2 F2]. split; [exact L2|]. by etransitivity.
Qed.

(** Table operations that write neither a byte array nor [mCookie]: they frame
    everything. *)
Definition framing (o : JavaOp (HM := HM)) : Prop :=
  match o with
  | OSetBytes _ _ => False
  | OSetField _ n _ => bs "mCookie" <> n
  | ONewBytes l => bytes_ok l
  | _ => True
  end.
Lemma framed_to_unit {X} (m : M J X) : framed m -> framed (to_unit m).
Proof. intros Hm. apply framed_bind; [exact Hm|intros; apply framed_ret]. Qed.
Lemma framed_super c s : framed (set_superclass (U := U) (HM := HM) c s).
Proof. unfold set_superclass. case_match; [apply framed_ret|by apply modify_framed]. Qed.
Lemma framed_supers l : framed (set_superclasses (U := U) (HM := HM) l).
Proof.
  induction l as [|[c s] l IH]; [apply framed_ret|]. apply framed_bind; [apply framed_super|intros; exact IH].
Qed.
Lemma framed_zeroes n : framed (new_byte_array_zero (U := U) (HM := HM) n).
Proof.
  unfold new_byte_array_zero. case_match; [apply (framed_lift (Throw "vector"))|].
  apply framed_new_sized, Forall_replicate. unfold is_byte. lia.
Qed.
Lemma framed_op (o : JavaOp) : framing o -> framed (java_op (U := U) (HM := HM) o).
Proof.
  destruct o; cbn [java_op framing]; intros Ho; try (by apply modify_framed); try apply framed_to_unit.
  - apply framed_find_class.
  - apply framed_super.
  - exact (framed_member RMethod "M|" c n s st (or_introl (conj eq_refl eq_refl))).
  - exact (framed_member RField "F|" c n s st (or_intror (conj eq_refl eq_refl))).
  - apply framed_native.
  - apply framed_object.
  - apply framed_string.
  - by apply framed_new_sized.
  - apply framed_zeroes.
  - apply framed_array.
  - apply update_framed. intros r. repeat case_match; by repeat split.
  - by apply framed_set_field.
Qed.

(** The two others: a registered file survives them unless they hit its cookie
    array, or [mCookie] of its own object. *)
Lemma dex_ok_table (j j' : J) d l :
  j_mem j' = j_mem j ->
  (bytes_view j (cookie_arr d) = Some (cookie_bytes (struct_addr d)) ->
   bytes_view j' (cookie_arr d) = Some (cookie_bytes (struct_addr d))) ->
  (has j (dexfile_obj d) (bs "mCookie") (DObject (cookie_arr d)) ->
   has j' (dexfile_obj d) (bs "mCookie") (DObject (cookie_arr d))) ->
  dex_ok j d l -> dex_ok j' d l.
Proof.
  intros Em Hb Hh [A B C D E G I O]. unfold jread, struct_of, word_at, j_uc in *.
  split; unfold jread, struct_of, word_at, j_uc; rewrite ?Em; auto.
Qed.
Lemma set_bytes_dex arr l (j : J) r j' :
  live j -> bytes_ok l -> set_bytes arr l j = (r, j') ->
  live j' /\ forall d k, arr <> cookie_arr d -> dex_ok j d k -> dex_ok j' d k.
Proof.
  intros Hj Hl E. eapply update_live in E as (L & Em & Eh); [|intros r0; case_match; by repeat split|exact Hj].
  split; [exact L|]. intros d k Hd. apply dex_ok_table; [exact Em|..].
  - unfold bytes_view, get_kind, get_rec. by rewrite Eh, lookup_alter_ne.
  - intros (r0 & Hr & Hv). destruct (decide (dexfile_obj d = arr)) as [Ed|Hn].
    + eexists. rewrite Eh, Ed, lookup_alter_eq, <- Ed, Hr. split; [done|]. by case_match.
    + exists r0. by rewrite Eh, lookup_alter_ne.
Qed.
Lemma set_field_dex o n v (j : J) r j' :
  live j -> set_field o n v j = (r, j') ->
  live j' /\ forall d k, ~ (n = bs "mCookie" /\ o = dexfile_obj d) -> dex_ok j d k -> dex_ok j' d k.
Proof.
  intros Hj E. destruct (set_field_live _ _ _ _ _ _ Hj E) as (L & Em & _).
  eapply update_live in E as (_ & _ & Eh); [|intros r0; by repeat split|exact Hj].
  split; [exact L|]. intros d k Hd. apply dex_ok_table; [exact Em|..].
  - unfold bytes_view, get_kind, get_rec. rewrite Eh. destruct (decide (cookie_arr d = o)) as [->|Hn].
    + rewrite lookup_alter_eq. destruct (handles_ j !! o) as [r0|]; [|done]. cbn. by case_decide.
    + by rewrite lookup_alter_ne.
  - intros (r0 & Hr & Hv). destruct (decide (dexfile_obj d = o)) as [Ed|Hn].
    + eexists. rewrite Eh, Ed, lookup_alter_eq, <- Ed, Hr. split; [done|]. cbn. rewrite lookup_insert_ne; [done|].
      intros ->. by apply Hd.
    + exists r0. by rewrite Eh, lookup_alter_ne.
Qed.
(** Guest stores, mappings and the other allocators: the cursor of the arena
    and what is mapped of it stay; the bytes of the file and its struct are
    left alone. *)
Definition spares (u u' : U) (d : Dex) : Prop :=
  uc_mem_read u' (bytes_addr d) (bytes_len d) = uc_mem_read u (bytes_addr d) (bytes_len d) /\
  uc_mem_read u' (struct_addr d + kBeginOff) 8 = uc_mem_read u (struct_addr d + kBeginOff) 8 /\
  uc_mem_read u' (struct_addr d + kSizeOff) 8 = uc_mem_read u (struct_addr d + kSizeOff) 8.
Record other_memory (m m' : Memory U) : Prop := {
  om_next : java_next_ m' = java_next_ m;
  om_end : java_end_ m' = java_end_ m;
  om_arena x : kJavaBase <= x < kJavaEnd -> uc_mapped (m_uc m) x = true -> uc_mapped (m_uc m') x = true;
}.
Lemma other_memory_dex (j : J) m :
  live j -> other_memory (j_mem j) m ->
  live (with_j_mem j m) /\
  forall d l, spares (m_uc (j_mem j)) (m_uc m) d -> dex_ok j d l -> dex_ok (with_j_mem j m) d l.
Proof.
  intros [[A B C D E] L T] [Hn He Hm]. split; [split|].
  - split; cbn; unfold arena_in in *; rewrite ?Hn, ?He; done.
  - cbn. rewrite Hn. destruct L as [L|L]; [by left|right]. intros x Hx. apply Hm; [done|]. by apply L.
  - done.
  - intros d l (S1 & S2 & S3) [A' B' C' D' E' G I O].
    split; unfold jread, struct_of, word_at, j_uc in *; cbn; rewrite <- ?A', ?S1, ?S2, ?S3, ?A'; done.
Qed.

(** ** The methods of [ArtRuntime] on the table *)

Lemma framed_elements l : framed (new_elements (U := U) (HM := HM) l).
Proof.
  induction l as [|d l IH]; [apply framed_ret|]. apply framed_bind; [apply framed_object|]. intros el.
  apply framed_bind; [apply framed_set_field; text_differs|]. intros _.
  apply framed_bind; [apply framed_set_field; text_differs|]. intros _.
  apply framed_bind; [exact IH|intros; apply framed_ret].
Qed.
Lemma framed_names l : framed (new_names (U := U) (HM := HM) l).
Proof.
  induction l as [|n l IH]; [apply framed_ret|]. apply framed_bind; [apply framed_string|]. intros h.
  apply framed_bind; [exact IH|intros; apply framed_ret].
Qed.
Lemma framed_next self : framed (next_element (U := U) (HM := HM) self).
Proof.
  apply framed_with_get. intros j. cbv zeta. case_match; [apply framed_lift|].
  apply framed_bind; [apply framed_set_field; text_differs|]. intros _. apply framed_with_get. intros j'. apply framed_ret.
Qed.
Lemma framed_define a : framed (define_class_native (U := U) (HM := HM) a).
Proof.
  apply framed_with_get. intros j. cbv zeta. case_bool_decide; [apply framed_ret|].
  apply framed_bind; [apply framed_find_class|intros; apply framed_ret].
Qed.
(** Extracting changes nothing and gives bytes. *)
Lemma extract_run h (j : J) r j' :
  live j -> extract_dex_bytes h j = (r, j') -> j' = j /\ forall b, r = Ret b -> bytes_ok b.
Proof.
  intros Hj. unfold extract_dex_bytes. rewrite bind_get. case_match.
  { intros [= <- <-]. split; [done|]. intros b [= <-]. constructor. }
  destruct (bytes_view j h) as [b|] eqn:Eb.
  { intros [= <- <-]. split; [done|]. intros b' [= <-]. unfold bytes_view, get_kind, get_rec in Eb.
    destruct (handles_ j !! h) as [rc|] eqn:Er; [|done]. case_decide; [|done]. injection Eb as <-. by eapply (lv_bytes _ Hj). }
  case_match; [|intros [= <- <-]; split; [done|]; intros b [= <-]; constructor].
  unfold on_mem, uc_do, e_read. destruct (uc_mem_read _ _ _) as [l|] eqn:El; intros [= <- <-].
  - split; [by destruct j, j_mem|]. intros b [= <-]. by apply law_read_len in El as [_ ?].
  - split; [by destruct j, j_mem|done].
Qed.
End Framed.

(** ** States of the runtime *)

Section States.
Context {U HM : Type} `{UcLaws U}.
#[local] Abbreviation J := (JavaRuntime U HM).
#[local] Abbreviation A := (ArtRuntime U HM).

(** A captured blob is a DEX and one of the registered files. *)
Definition held (a : A) (c : list Z * jstring) : Prop :=
  is_dex c.1 = true /\ exists d, d ∈ dexes_ a /\ dex_ok (a_java a) d c.1.
Record art_ok (a : A) : Prop := {
  ao_live : live (a_java a);
  ao_dexes : Forall (fun d => exists l, dex_ok (a_java a) d l) (dexes_ a);
  ao_held : Forall (held a) (a_notified a);
}.
Record art_frame (a a' : A) : Prop := {
  af_java d l : d ∈ dexes_ a -> dex_ok (a_java a) d l -> dex_ok (a_java a') d l;
  af_dexes : dexes_ a `prefix_of` dexes_ a';
  af_notified : a_notified a `prefix_of` a_notified a';
}.
#[export] Instance art_frame_preorder : PreOrder art_frame.
Proof.
  split; [intros a; by split|]. intros a1 a2 a3 [A1 B1 C1] [A2 B2 C2].
  split; [|by transitivity (dexes_ a2)|by transitivity (a_notified a2)].
  intros d l Hd Ok. apply A2; [by eapply elem_of_prefix|by apply A1].
Qed.
Definition art_later (a a' : A) : Prop := art_ok a' /\ art_frame a a'.
Lemma art_later_refl a : art_ok a -> art_later a a.
Proof. by split. Qed.
Lemma art_later_trans a1 a2 a3 : art_later a1 a2 -> art_later a2 a3 -> art_later a1 a3.
Proof. intros [_ F1] [L2 F2]. split; [done|by transitivity a2]. Qed.

Definition art_keeps {X} (m : M A X) : Prop := forall a r a', art_ok a -> m a = (r, a') -> art_later a a'.
Lemma art_keeps_ret {X} (x : X) : art_keeps (M_ret x).
Proof. intros a r a' Ha [= _ <-]. by apply art_later_refl. Qed.
Lemma art_keeps_bind {X Y} (m : M A X) (f : X -> M A Y) : art_keeps m -> (forall x, art_keeps (f x)) -> art_keeps (M_bind f m).
Proof.
  intros Hm Hf a r a' Ha. unfold M_bind. destruct (m a) as [[x|e|] a1] eqn:E; intros E'.
  - pose proof (Hm _ _ _ Ha E) as L1. eapply art_later_trans; [exact L1|]. eapply Hf; [apply L1|exact E'].
  - injection E' as _ <-. by eapply Hm.
  - injection E' as _ <-. by eapply Hm.
Qed.
Lemma keeps_with_get {X} (f : A -> M A X) : (forall a, art_keeps (f a)) -> art_keeps (M_bind f get).
Proof. intros Hf. apply art_keeps_bind; [|exact Hf]. intros a r a' Ha [= _ <-]. by apply art_later_refl. Qed.

Lemma held_later j j' ds ds' ns ns' c :
  (forall d l, d ∈ ds -> dex_ok j d l -> dex_ok j' d l) -> ds `prefix_of` ds' ->
  held (mkArt j ds ns) c -> held (mkArt j' ds' ns') c.
Proof.
  intros F P (Hd & d & Hin & Ok). split; [done|]. exists d. split; [by eapply elem_of_prefix|by apply F].
Qed.
(** A step of the table that keeps the registered files. *)
Lemma art_java a j' :
  art_ok a -> live j' -> (forall d l, d ∈ dexes_ a -> dex_ok (a_java a) d l -> dex_ok j' d l) ->
  art_later a (mkArt j' (dexes_ a) (a_notified a)).
Proof.
  intros [L D N] L' F. split; [split; cbn; [done|..]|by split].
  - apply Forall_forall. intros d Hd. destruct (proj1 (Forall_forall _ _) D d Hd) as [l Ok]. exists l. by apply F.
  - eapply Forall_impl; [exact N|]. intros c. destruct a. by apply held_later.
Qed.
Lemma art_framed a j' : art_ok a -> later (a_java a) j' -> art_later a (mkArt j' (dexes_ a) (a_notified a)).
Proof. intros Ha [L F]. apply art_java; [done..|]. intros d l _. by apply dex_ok_later. Qed.
Lemma keeps_java {X} (m : M J X) : framed m -> art_keeps (on_java m).
Proof.
  intros Hm a r a' Ha. unfold on_java. destruct (m (a_java a)) as [o j'] eqn:E. intros [= _ <-].
  apply art_framed; [done|]. exact (Hm _ _ _ (ao_live _ Ha) E).
Qed.

(** Registering puts the file last, in order. *)
Lemma register_runs bytes loc a :
  art_ok a -> bytes_ok bytes -> bytes_ok loc ->
  runs (art_later a) (fun d a' => dex_ok (a_java a') d bytes /\ dexes_ a' = dexes_ a ++ [d] /\
                        a_notified a' = a_notified a) (register_dex bytes loc) a.
Proof.
  intros Ha Hb Hl r a' E. unfold register_dex, on_java, mbind, M_mbind, M_bind in E.
  destruct (new_dex bytes loc (a_java a)) as [o j'] eqn:Ed.
  destruct (new_dex_runs bytes loc _ (ao_live _ Ha) Hb Hl _ _ Ed) as [L Q].
  pose proof (art_framed a j' Ha L) as La.
  destruct o as [d|e|]; [|injection E as <- <-; by split..]. injection E as <- <-.
  specialize (Q d eq_refl). split; [|by intros ? [= <-]].
  destruct La as [[L1 D1 N1] [F1 P1 _]]. split; [split; cbn; [done|..]|split; cbn; [done|by apply prefix_app_r|done]].
  - apply Forall_app_2; [exact D1|]. apply Forall_singleton. by exists bytes.
  - eapply Forall_impl; [exact N1|]. intros c. apply held_later; [done|]. by apply prefix_app_r.
Qed.
Lemma capture_runs b src a :
  art_ok a -> bytes_ok b -> is_dex b = true ->
  runs (art_later a) (fun _ a' => exists d, last (dexes_ a') = Some d /\ dex_ok (a_java a') d b /\
                        a_notified a' = a_notified a ++ [(b, src)]) (capture b src) a.
Proof.
  intros Ha Hb Hd. eapply runs_bind; [apply register_runs; [done..|]|].
  { repeat constructor; unfold is_byte; cbn; lia. }
  intros d a1 L1 (Ok & Ed & En) r a' [= <- <-]. split.
  - eapply art_later_trans; [exact L1|]. destruct L1 as [[L D N] _].
    split; [split; cbn; [done|done|]|split; cbn; [done|done|by apply prefix_app_r]].
    apply Forall_app_2; [exact N|]. apply Forall_singleton. split; [done|]. exists d. split; [|done].
    cbn. rewrite Ed. apply elem_of_app. right. by apply list_elem_of_singleton.
  - intros _ _. exists d. cbn. split; [by rewrite Ed, last_snoc|]. split; [done|by rewrite En].
Qed.
End States.

(** ** Loading *)

Section Load.
Context {U HM : Type} `{UcLaws U}.
#[local] Abbreviation J := (JavaRuntime U HM).
#[local] Abbreviation A := (ArtRuntime U HM).

Lemma extract_art h (a : A) r a' :
  art_ok a -> on_java (extract_dex_bytes h) a = (r, a') -> a' = a /\ forall b, r = Ret b -> bytes_ok b.
Proof.
  intros Ha. unfold on_java. destruct (extract_dex_bytes h (a_java a)) as [o j] eqn:E. intros [= <- <-].
  destruct (extract_run h _ _ _ (ao_live _ Ha) E) as [-> Hb]. by destruct a.
Qed.
(** After [extract], the DEX is captured. *)
Lemma keeps_extract {X} h (f : list Z -> M A X) :
  (forall b, bytes_ok b -> art_keeps (f b)) -> art_keeps (M_bind f (on_java (extract_dex_bytes h))).
Proof.
  intros Hf a r a' Ha. unfold M_bind. destruct (on_java (extract_dex_bytes h) a) as [o a1] eqn:E.
  destruct (extract_art h a o a1 Ha E) as [-> Hb]. destruct o as [b|e|]; [|intros [= _ <-]; by apply art_later_refl..].
  intros E'. by eapply (Hf b (Hb b eq_refl)).
Qed.
Lemma keeps_capture b src : bytes_ok b -> is_dex b = true -> art_keeps (capture (U := U) (HM := HM) b src).
Proof. intros Hb Hd a r a' Ha E. by destruct (capture_runs b src a Ha Hb Hd r a' E). Qed.
Lemma keeps_load_elements n h i src : art_keeps (load_elements (U := U) (HM := HM) n h i src).
Proof.
  revert i. induction n as [|n IH]; intros i; [apply art_keeps_ret|]. apply keeps_with_get. intros a.
  apply keeps_extract. intros b Hb. apply art_keeps_bind; [|intros; apply IH].
  destruct (is_dex b) eqn:Ed; [by apply keeps_capture|apply art_keeps_ret].
Qed.
Lemma keeps_load h src : art_keeps (load (U := U) (HM := HM) h src).
Proof.
  apply keeps_extract. intros b Hb. apply keeps_with_get. intros a1.
  apply art_keeps_bind; [|intros; apply keeps_with_get; intros; apply art_keeps_ret].
  destruct (is_dex b) eqn:Ed; [by apply keeps_capture|apply keeps_load_elements].
Qed.
Lemma keeps_load_first args src : art_keeps (load_first (U := U) (HM := HM) args src).
Proof. destruct args; [apply art_keeps_ret|apply keeps_load]. Qed.
Lemma keeps_load_any args src : art_keeps (load_any (U := U) (HM := HM) args src).
Proof.
  induction args as [|[] args IH]; try exact IH; [apply art_keeps_ret|].
  apply art_keeps_bind; [apply keeps_load|]. intros [d|]; [apply art_keeps_ret|exact IH].
Qed.
Lemma keeps_make_elements : art_keeps (make_elements (U := U) (HM := HM)).
Proof.
  apply keeps_with_get. intros a. apply art_keeps_bind; [apply keeps_java, framed_elements|]. intros es.
  apply art_keeps_bind; [apply keeps_java, framed_array|intros; apply art_keeps_ret].
Qed.
Lemma keeps_class_names : art_keeps (class_name_list (U := U) (HM := HM)).
Proof.
  apply keeps_with_get. intros a. apply art_keeps_bind; [apply keeps_java, framed_names|]. intros es.
  apply keeps_java, framed_array.
Qed.
Lemma keeps_entries : art_keeps (art_entries (U := U) (HM := HM)).
Proof.
  apply keeps_with_get. intros a. apply art_keeps_bind; [apply keeps_java, framed_names|]. intros es.
  apply art_keeps_bind; [apply keeps_java, framed_object|]. intros en.
  apply art_keeps_bind; [apply keeps_java, framed_array|]. intros arr.
  apply art_keeps_bind; [apply keeps_java, framed_set_field; text_differs|]. intros _.
  apply art_keeps_bind; [apply keeps_java, framed_set_field; text_differs|intros; apply art_keeps_ret].
Qed.
Lemma keeps_art_run f self args : art_keeps (art_run (U := U) (HM := HM) f self args).
Proof.
  destruct f; cbn [art_run]; try apply keeps_make_elements; try apply keeps_load_any; try apply keeps_entries;
    try (apply art_keeps_bind; [apply keeps_load_first|intros; first [apply art_keeps_ret|apply keeps_make_elements]]).
  - apply keeps_java, framed_define.
  - apply art_keeps_bind; [apply keeps_class_names|intros; apply art_keeps_ret].
  - apply keeps_java, framed_with_get. intros j. apply framed_ret.
  - apply keeps_java, framed_next.
Qed.

(** What leaves the registered files alone: a byte array may be overwritten
    unless it is the cookie of a registered file, and [mCookie] may be set
    except on the object of one. *)
Definition harmless (a : A) (o : JavaOp (HM := HM)) : Prop :=
  match o with
  | OSetBytes arr l => bytes_ok l /\ forall d, d ∈ dexes_ a -> arr <> cookie_arr d
  | OSetField obj n _ => forall d, d ∈ dexes_ a -> ~ (n = bs "mCookie" /\ obj = dexfile_obj d)
  | ONewBytes l => bytes_ok l
  | _ => True
  end.

(** A method of ART runs, another part of the program uses the table, or guest
    memory changes outside it. *)
Inductive art_step : A -> A -> Prop :=
| step_method f self args a r a' : art_run f self args a = (r, a') -> art_step a a'
| step_table o a r a' : harmless a o -> on_java (java_op o) a = (r, a') -> art_step a a'
| step_memory m a :
    other_memory (j_mem (a_java a)) m ->
    (forall d, d ∈ dexes_ a -> spares (m_uc (j_mem (a_java a))) (m_uc m) d) ->
    art_step a (mkArt (with_j_mem (a_java a) m) (dexes_ a) (a_notified a)).

Lemma keeps_table o a r a' : art_ok a -> harmless a o -> on_java (java_op o) a = (r, a') -> art_later a a'.
Proof.
  intros Ha Ho E. destruct o;
    try match type of E with on_java (java_op ?o) _ = _ => exact (keeps_java _ (framed_op o Ho) _ _ _ Ha E) end;
    unfold on_java in E; cbn [java_op harmless] in *.
  - destruct (set_bytes _ _ _) as [x j'] eqn:Ej. injection E as _ <-. destruct Ho as [Hl Ho].
    destruct (set_bytes_dex _ _ _ _ _ (ao_live _ Ha) Hl Ej) as [L K]. apply art_java; [done..|]. intros d k Hd. by apply K, Ho.
  - destruct (set_field _ _ _ _) as [x j'] eqn:Ej. injection E as _ <-.
    destruct (set_field_dex _ _ _ _ _ _ (ao_live _ Ha) Ej) as [L K]. apply art_java; [done..|]. intros d k Hd. by apply K, Ho.
Qed.
Lemma art_step_later a a' : art_ok a -> art_step a a' -> art_later a a'.
Proof.
  intros Ha. destruct 1 as [f self args a r a' E|o a r a' Ho E|m a Hm Hs]; [by eapply keeps_art_run|by eapply keeps_table|].
  destruct (other_memory_dex _ _ (ao_live _ Ha) Hm) as [L K]. apply art_java; [done..|]. intros d l Hd. by apply K, Hs.
Qed.
Lemma art_reachable a a' : art_ok a -> star art_step a a' -> art_later a a'.
Proof.
  intros Ha. apply (star_invariant art_step (art_later a)); [|by apply art_later_refl].
  intros a1 a2 L1 S. eapply art_later_trans; [exact L1|]. by apply art_step_later; [apply L1|].
Qed.
Lemma art_start (j : J) : live j -> art_ok (mkArt j [] []).
Proof. intros Hj. split; cbn; [done|constructor..]. Qed.

(** C33: Native code that walks from the [DexFile] object of a registered file
    through [mCookie] and the struct reaches the bytes that were registered, in
    every state reachable by ART methods, by the other operations of the Java
    table, and by changes to guest memory, as long as nobody overwrites what
    the walk itself goes through: the content of that file's cookie array,
    [mCookie] of its object, its bytes and the two words of its struct, and
    the arena of the Java table stays mapped.  What was captured is a DEX and can be reached that way. *)
Theorem dexes_stay (j : J) a1 a2 :
  live j -> star art_step (mkArt j [] []) a1 -> star art_step a1 a2 ->
  (forall d, d ∈ dexes_ a1 -> d ∈ dexes_ a2 /\ exists l,
     native_walk (a_java a1) (dexfile_obj d) = Some l /\ native_walk (a_java a2) (dexfile_obj d) = Some l /\
     bytes_len d = zlen l /\ class_names d = dex_class_names l) /\
  (forall b src, (b, src) ∈ a_notified a2 -> is_dex b = true /\
     exists d, d ∈ dexes_ a2 /\ native_walk (a_java a2) (dexfile_obj d) = Some b).
Proof.
  intros Hj S1 S2. destruct (art_reachable _ _ (art_start j Hj) S1) as [O1 _].
  destruct (art_reachable _ _ O1 S2) as [O2 [F P _]]. split.
  - intros d Hd. split; [by eapply elem_of_prefix|].
    destruct (proj1 (Forall_forall _ _) (ao_dexes _ O1) d Hd) as [l Ok]. exists l.
    split; [by apply dex_ok_walk|]. split; [eapply dex_ok_walk; by apply F|]. split; apply Ok.
  - intros b src Hb. destruct (proj1 (Forall_forall _ _) (ao_held _ O2) _ Hb) as (Hd & d & Hin & Ok).
    split; [done|]. exists d. split; [done|by apply dex_ok_walk].
Qed.

(** C34: [openInMemoryDexFile] of a DEX in a byte array or a direct buffer hands
    out an object that leads to those bytes, and captures them. *)
Theorem open_captures (a a' : A) h rest self b v :
  art_ok a -> fst (extract_dex_bytes h (a_java a)) = Ret b -> is_dex b = true ->
  art_run AOpenInMemoryDexFile self (DObject h :: rest) a = (Ret v, a') ->
  exists d, v = DObject (dexfile_obj d) /\ d ∈ dexes_ a' /\
    native_walk (a_java a') (dexfile_obj d) = Some b /\
    a_notified a' = a_notified a ++ [(b, bs "openInMemoryDexFile")].
Proof.
  intros Ha Hx Hd E. cbn [art_run load_first arg_obj obj_of] in E.
  apply bind_ret_inv in E as (od & a1 & E & Ev). injection Ev as <- <-.
  apply bind_ret_inv in E as (b' & a2 & E1 & E). destruct (extract_art _ _ _ _ Ha E1) as [-> Hb].
  assert (b' = b) as ->.
  { unfold on_java in E1. destruct (extract_dex_bytes h (a_java a)) as [o j]. cbn in Hx. congruence. }
  apply bind_ret_inv in E as (? & ? & [= <- <-] & E). rewrite Hd in E. apply bind_ret_inv in E as (u & a3 & E3 & E).
  apply bind_ret_inv in E as (? & ? & [= <- <-] & E). injection E as <- <-.
  destruct (capture_runs b (bs "openInMemoryDexFile") a Ha (Hb _ eq_refl) Hd _ _ E3) as [_ Q].
  destruct (Q _ eq_refl) as (d & Hl & Ok & En). exists d. rewrite Hl. split; [done|].
  split; [by apply last_Some_elem_of|]. split; [by apply dex_ok_walk|done].
Qed.
End Load.

(** ** The objects handed out *)

Section Objects.
Context {U HM : Type} `{UcLaws U}.
#[local] Abbreviation J := (JavaRuntime U HM).
#[local] Abbreviation A := (ArtRuntime U HM).

Lemma elements_keep n l : n <> bs "dexFile" -> n <> bs "dex" ->
  respects (same_field n) (new_elements (U := U) (HM := HM) l).
Proof.
  intros N1 N2. induction l as [|d l IH]; [apply respects_ret, _|].
  kbind; [apply keeps_calm; [exact _|apply calm_new_of]|]. intros el.
  kbind; [by apply set_field_field|]. intros _. kbind; [by apply set_field_field|]. intros _.
  kbind; [exact IH|intros; apply respects_ret, _].
Qed.
(** The [dexFile] fields, made one after the other. *)
Lemma elements_links l (j : J) es j' :
  java_ok j -> new_elements l j = (Ret es, j') ->
  java_ok j' /\ extends j j' /\ (forall o v, is_Some (handles_ j !! o) -> has j o (bs "dexFile") v -> has j' o (bs "dexFile") v) /\
  Forall2 (fun el d => link j' el "dexFile" (dexfile_obj d)) es l.
Proof.
  revert j es. induction l as [|d l IH]; intros j es Hj E; cbn [new_elements] in E.
  { injection E as <- <-. split; [done|]. split; [apply extends_refl|]. by split; [|constructor]. }
  apply bind_ret_inv in E as (el & j1 & E1 & E). destruct (new_record _ _ _ _ _ Hj E1) as (H1 & X1 & C1 & Hn & Hr).
  apply bind_ret_inv in E as (? & j2 & E2 & E). destruct (grows_set_field _ _ _ _ _ _ H1 E2) as [H2 X2].
  pose proof (set_field_has _ _ _ _ _ _ ltac:(by eexists) E2) as L2.
  apply bind_ret_inv in E as (? & j3 & E3 & E). destruct (grows_set_field _ _ _ _ _ _ H2 E3) as [H3 X3].
  pose proof (set_field_field (bs "dexFile") el (bs "dex") (DObject (dexfile_obj d)) ltac:(text_differs) _ _ _ E3 _ _ L2) as L3.
  apply bind_ret_inv in E as (rest & j4 & E4 & E). injection E as <- <-.
  destruct (IH _ _ H3 E4) as (H4 & X4 & K4 & F4). pose proof (extends_trans _ _ _ X1 (extends_trans _ _ _ X2 (extends_trans _ _ _ X3 X4))) as X.
  split; [done|]. split; [done|]. split; [|constructor; [|done]].
  - intros o v Ho Hv. apply K4.
    + destruct Ho as [r Hr0]. destruct (ex_handles _ _ (extends_trans _ _ _ X1 (extends_trans _ _ _ X2 X3)) _ _ Hr0) as (r' & ? & _).
      by eexists.
    + apply (set_field_field (bs "dexFile") el (bs "dex") (DObject (dexfile_obj d)) ltac:(text_differs) _ _ _ E3).
      pose proof (calm_field (bs "dexFile") _ _ C1 _ _ Hv) as (r1 & Hr1 & Hf1). exists r1. split; [|done].
      assert (handles_ j2 = alter (fun r => with_fields (<[bs "dexFile" := DObject (dexfile_obj d)]> (fields r)) r) el (handles_ j1)) as ->.
      { rewrite <- update_handles. unfold set_field in E2. by rewrite E2. }
      rewrite lookup_alter_ne; [done|]. intros ->. destruct Ho as [r0 Hr0]. congruence.
  - apply K4; [|done]. destruct (ex_handles _ _ (extends_trans _ _ _ X2 X3) _ _ Hr) as (r' & ? & _). by eexists.
Qed.

Lemma array_of_view (j : J) arr l : array_of j arr l ->
  array_length j arr = zlen l /\ (object_array_element j arr <$> seqZ 0 (zlen l)) = l.
Proof.
  intros (r & Hr & K & El). unfold array_length, object_array_element, get_kind, get_rec. rewrite Hr, K, El. split; [done|].
  rewrite decide_True by done. apply list_eq. intros i. rewrite list_lookup_fmap.
  destruct (decide (i < length l)%nat) as [Hi|Hi].
  - rewrite lookup_seqZ_lt by (unfold zlen; lia). cbn [fmap option_fmap option_map]. unfold znth.
    rewrite (proj2 (Z.leb_le _ _)), El, Z.add_0_l, Nat2Z.id by lia. by destruct (lookup_lt_is_Some_2 l i Hi) as [x ->].
  - rewrite lookup_seqZ_ge by (unfold zlen; lia). symmetry. apply lookup_ge_None. lia.
Qed.

Lemma framed_classloader dexes parent : framed (build_classloader (U := U) (HM := HM) dexes parent).
Proof.
  apply framed_bind; [apply framed_elements|]. intros es. apply framed_bind; [apply framed_object|]. intros p.
  apply framed_bind; [apply framed_array|]. intros arr. apply framed_bind; [apply framed_set_field; text_differs|]. intros _.
  apply framed_bind; [apply framed_object|]. intros ld. apply framed_bind; [apply framed_set_field; text_differs|]. intros _.
  apply framed_bind; [|intros; apply framed_ret]. case_match; [apply framed_ret|apply framed_set_field; text_differs].
Qed.

(** C35: The class loader over some files leads to each of them, in order: the
    path list, its elements, the [DexFile] of each, and from there native code
    reaches the bytes. *)
Theorem classloader_walk dexes parent (j : J) ls loader j' :
  live j -> Forall2 (dex_ok j) dexes ls ->
  build_classloader dexes parent j = (Ret loader, j') ->
  exists path_list arr es objs,
    get_field j' loader (bs "pathList") = DObject path_list /\
    get_field j' path_list (bs "dexElements") = DObject arr /\
    array_length j' arr = zlen dexes /\
    (object_array_element j' arr <$> seqZ 0 (zlen dexes)) = es /\
    Forall2 (fun el o => get_field j' el (bs "dexFile") = DObject o) es objs /\
    Forall2 (fun o l => native_walk j' o = Some l) objs ls.
Proof.
  intros Hj Hok E. destruct (framed_classloader _ _ _ _ _ Hj E) as [_ F].
  apply bind_ret_inv in E as (es & j1 & E1 & E). destruct (elements_links _ _ _ _ (lv_ok _ Hj) E1) as (H1 & _ & _ & L1).
  assert (same_field (bs "dexFile") j1 j') as K1 by (destruct (parent =? 0); rest_field E).
  apply bind_ret_inv in E as (pl & j2 & E2 & E). destruct (new_instance _ _ _ _ H1 E2) as (H2 & _ & I2).
  apply bind_ret_inv in E as (arr & j3 & E3 & E). destruct (new_array_run _ _ _ _ H2 E3) as (H3 & X3 & _ & _ & A3).
  assert (same_elems j3 j') as K3.
  { destruct (parent =? 0); refine ((_ : respects same_elems _) _ _ _ E); leaves. }
  apply bind_ret_inv in E as (? & j4 & E4 & E).
  destruct (set_link _ _ _ _ _ _ _ H3 (instance_later _ _ _ _ X3 I2) E4) as (H4 & _ & L4).
  assert (same_field (bs "dexElements") j4 j') as K4 by (destruct (parent =? 0); rest_field E).
  apply bind_ret_inv in E as (ld & j5 & E5 & E). destruct (new_instance _ _ _ _ H4 E5) as (H5 & _ & I5).
  apply bind_ret_inv in E as (? & j6 & E6 & E). destruct (set_link _ _ _ _ _ _ _ H5 I5 E6) as (H6 & _ & L6).
  assert (same_field (bs "pathList") j6 j') as K6 by (destruct (parent =? 0); rest_field E).
  apply bind_ret_inv in E as (? & j7 & E7 & E). injection E as <- <-.
  pose proof (Forall2_length _ _ _ L1) as Len. destruct (array_of_view _ _ _ (array_of_keeps _ _ _ _ K3 A3)) as [Al Ae].
  assert (zlen es = zlen dexes) as Hz by (unfold zlen; by rewrite Len). rewrite Hz in Al, Ae.
  exists pl, arr, es, (dexfile_obj <$> dexes). split; [exact (has_get _ _ _ _ (K6 _ _ L6))|]. split; [exact (has_get _ _ _ _ (K4 _ _ L4))|].
  split; [exact Al|]. split; [exact Ae|].
  split.
  - apply Forall2_fmap_r. eapply Forall2_impl; [exact L1|]. intros el d L. by apply has_get, K1.
  - apply Forall2_fmap_l. eapply Forall2_impl; [exact Hok|]. intros d l Ok. by eapply dex_ok_walk, dex_ok_later.
Qed.

(** ** The enumeration of class names *)

Lemma names_run l (j : J) hs j' :
  java_ok j -> new_names l j = (Ret hs, j') ->
  java_ok j' /\ extends j j' /\ Forall2 (fun h n => string_of j' h = Some n) hs l.
Proof.
  revert j hs. induction l as [|n l IH]; intros j hs Hj E; cbn [new_names] in E.
  { injection E as <- <-. split; [done|]. split; [apply extends_refl|constructor]. }
  apply bind_ret_inv in E as (h & j1 & E1 & E). destruct (new_record _ _ _ _ _ Hj E1) as (H1 & X1 & _ & _ & Hr).
  apply bind_ret_inv in E as (rest & j2 & E2 & E). injection E as <- <-. destruct (IH _ _ H1 E2) as (H2 & X2 & F2).
  split; [done|]. split; [by eapply extends_trans|]. constructor; [|done]. eapply string_of_keeps; [exact X2|].
  unfold string_of, get_kind, get_rec. by rewrite Hr.
Qed.

(** What a client does with an enumeration: [hasMoreElements], [nextElement],
    until there are no more. *)
Fixpoint drain (n : nat) (en : Z) : M J (option (list Z)) :=
  match n with
  | O => mret None
  | S k =>
      more ← has_more_elements en;
      if int_of more =? 0 then mret (Some []) else
      v ← next_element en;
      rest ← drain k en;
      mret ((fun l => obj_of v :: l) <$> rest)
  end.

Record enum_at (j : J) (en arr : Z) (hs : list Z) (i : nat) : Prop := {
  ea_names : has j en (bs "__names") (DObject arr);
  ea_index : has j en (bs "__idx") (DInt (Z.of_nat i));
  ea_array : array_of j arr hs;
  ea_real : arr <> 0;
}.
(** One turn of the client: the element, and the index moves on. *)
Lemma enum_next (j : J) en arr hs i h :
  enum_at j en arr hs i -> java_ok j -> zlen hs < 2 ^ 63 -> hs !! i = Some h ->
  has_more_elements en j = (Ret (DInt 1), j) /\
  exists j', next_element en j = (Ret (DObject h), j') /\ enum_at j' en arr hs (S i) /\ extends j j' /\ java_ok j'.
Proof.
  intros [Hn Hi Ha H0a] Hj Hl Hh. pose proof (lookup_lt_Some _ _ _ Hh) as Hlt. unfold zlen in Hl.
  assert (u64 (Z.of_nat i) = Z.of_nat i) as Hu by (apply u64_id; lia).
  assert (forall j1 : J, array_of j1 arr hs -> in_enum j1 arr (Z.of_nat i) = true) as Hin.
  { intros j1 A1. destruct (array_of_view _ _ _ A1) as [Al _]. unfold in_enum.
    rewrite (proj2 (Z.eqb_neq arr 0) H0a), Al, Hu. cbn [negb andb]. apply Z.ltb_lt. unfold zlen. lia. }
  assert (enum_array j en = arr /\ enum_index j en = Z.of_nat i) as [Ea Ei].
  { unfold enum_array, enum_index. by rewrite (has_get _ _ _ _ Hn), (has_get _ _ _ _ Hi). }
  unfold has_more_elements, next_element. rewrite !bind_get. cbv zeta. rewrite Ea, Ei, (Hin j Ha). split; [done|].
  destruct (Z.eqb_spec (Z.of_nat i) (2 ^ 63 - 1)); [lia|].
  unfold mbind at 1, M_mbind, M_bind at 1.
  destruct (set_field en (bs "__idx") (DInt (Z.of_nat i + 1)) j) as [r j1] eqn:E.
  assert (r = Ret tt) as -> by (by injection E as <- _).
  assert (array_of j1 arr hs) as A1 by (eapply array_of_keeps; [exact (set_field_elems _ _ _ _ _ _ E)|done]).
  destruct (grows_set_field _ _ _ _ _ _ Hj E) as [Hj1 X1].
  rewrite bind_get, (Hin j1 A1), Hu. exists j1. split; [|split; [|done]].
  - destruct A1 as (rc & Hr & K & El). unfold object_array_element, get_kind, get_rec. rewrite Hr, decide_True, El by done.
    unfold znth. rewrite (proj2 (Z.leb_le _ _)), Nat2Z.id, Hh by lia. done.
  - split; [|replace (Z.of_nat (S i)) with (Z.of_nat i + 1) by lia|done..].
    + by eapply set_field_field; [| |exact Hn]; [|exact E]; text_differs.
    + eapply set_field_has; [|exact E]. destruct Hi as (r & Hr & _). by eexists.
Qed.
Lemma enum_end (j : J) en arr hs i :
  enum_at j en arr hs i -> (length hs <= i)%nat -> Z.of_nat i < 2 ^ 64 -> has_more_elements en j = (Ret (DInt 0), j).
Proof.
  intros [Hn Hi Ha H0a] Hle Hb. destruct (array_of_view _ _ _ Ha) as [Al _]. unfold has_more_elements. rewrite bind_get.
  unfold enum_array, enum_index, in_enum. rewrite (has_get _ _ _ _ Hn), (has_get _ _ _ _ Hi). cbn [obj_of int_of].
  rewrite Al, u64_id by lia. assert ((Z.of_nat i <? zlen hs) = false) as -> by (apply Z.ltb_ge; unfold zlen; lia).
  by rewrite andb_false_r.
Qed.
Lemma drain_from n (j : J) en arr hs i :
  enum_at j en arr hs i -> zlen hs < 2 ^ 63 -> (i <= length hs)%nat -> (length hs - i < n)%nat -> java_ok j ->
  exists j', drain n en j = (Ret (Some (drop i hs)), j') /\ extends j j'.
Proof.
  revert j i. induction n as [|n IH]; intros j i Hen Hl Hi Hlt Hj; [lia|]. cbn [drain].
  destruct (hs !! i) as [h|] eqn:Eh.
  - destruct (enum_next _ _ _ _ _ _ Hen Hj Hl Eh) as (Em & j1 & En & Hen1 & X1 & Hj1).
    pose proof (lookup_lt_Some _ _ _ Eh). destruct (IH j1 (S i) Hen1 Hl ltac:(lia) ltac:(lia) Hj1) as (j2 & Ed & X2).
    exists j2. split; [|by eapply extends_trans].
    rewrite (bind_run _ _ _ _ _ Em). cbn [int_of Z.eqb]. rewrite (bind_run _ _ _ _ _ En), (bind_run _ _ _ _ _ Ed).
    by rewrite (drop_S _ _ _ Eh).
  - apply lookup_ge_None in Eh. exists j. split; [|apply extends_refl].
    rewrite (bind_run _ _ _ _ _ (enum_end _ _ _ _ _ Hen Eh ltac:(unfold zlen in Hl; lia))). cbn [int_of Z.eqb].
    by rewrite drop_ge.
Qed.

Lemma on_java_ret {X} (m : M J X) (a : A) x a' :
  on_java m a = (Ret x, a') -> exists j', m (a_java a) = (Ret x, j') /\ a' = mkArt j' (dexes_ a) (a_notified a).
Proof. unfold on_java. destruct (m (a_java a)) as [o j']. intros [= -> <-]. by exists j'. Qed.

(** [DexFile.entries]: a client that asks on until there are no more elements
    ends, with the class names of every registered file, in order. *)
Lemma entries_enumerate (a a' : A) self args v :
  java_ok (a_java a) -> zlen (all_names (dexes_ a)) < 2 ^ 63 -> art_run AEntries self args a = (Ret v, a') ->
  exists en hs j', v = DObject en /\
    drain (S (length (all_names (dexes_ a)))) en (a_java a') = (Ret (Some hs), j') /\
    Forall2 (fun h n => string_of j' h = Some n) hs (all_names (dexes_ a)).
Proof.
  intros Hj Hl E. cbn [art_run] in E. apply bind_ret_inv in E as (? & ? & [= <- <-] & E).
  set (ns := all_names (dexes_ a)) in *.
  apply bind_ret_inv in E as (hs & a1 & E1 & E). apply on_java_ret in E1 as (j1 & E1 & ->).
  destruct (names_run _ _ _ _ Hj E1) as (H1 & X1 & F1).
  apply bind_ret_inv in E as (en & a2 & E2 & E). apply on_java_ret in E2 as (j2 & E2 & ->).
  destruct (new_instance _ _ _ _ H1 E2) as (H2 & X2 & I2).
  apply bind_ret_inv in E as (arr & a3 & E3 & E). apply on_java_ret in E3 as (j3 & E3 & ->).
  destruct (new_array_run _ _ _ _ H2 E3) as (H3 & X3 & _ & _ & A3).
  apply bind_ret_inv in E as (? & a4 & E4 & E). apply on_java_ret in E4 as (j4 & E4 & ->).
  destruct (set_link _ "__names" _ _ _ _ _ H3 (instance_later _ _ _ _ X3 I2) E4) as (H4 & X4 & L4).
  apply bind_ret_inv in E as (? & a5 & E5 & E). apply on_java_ret in E5 as (j5 & E5 & ->). injection E as <- <-.
  cbn [a_java] in *. destruct (grows_set_field _ _ _ _ _ _ H4 E5) as [H5 X5].
  assert (array_of j5 arr hs) as A5.
  { eapply array_of_keeps; [|exact A3]. transitivity j4; eapply set_field_elems; eassumption. }
  pose proof (extends_trans _ _ _ X2 (extends_trans _ _ _ X3 (extends_trans _ _ _ X4 X5))) as X.
  pose proof (Forall2_length _ _ _ F1) as Len.
  assert (enum_at j5 en arr hs 0) as Hen.
  { split; [| |done|].
    - eapply set_field_field; [| |exact L4]; [|exact E5]; text_differs.
    - eapply set_field_has; [|exact E5]. destruct L4 as (r & Hr & _). by eexists.
    - destruct A3 as (r & Hr & _). destruct (jo_shadow _ H3 _ _ Hr) as (Hlo & _). unfold kJavaBase in Hlo. lia. }
  destruct (drain_from (S (length ns)) j5 en arr hs 0 Hen) as (j6 & Ed & X6); [unfold zlen in *; lia|lia|lia|done|].
  exists en, hs, j6. split; [done|]. split; [exact Ed|]. eapply Forall2_impl; [exact F1|].
  intros h n Hs. eapply string_of_keeps; [exact X6|]. by eapply string_of_keeps.
Qed.
End Objects.
