(* ===== verification/ArtExamples.v ===== *)
(** [ArtRuntime] on a concrete emulator: the theorems of [ArtLoad] at a DEX of
    one class, and inputs on which the code does not do what it means to. *)

From stdpp Require Import strings.
From S2P Require Import Prelude.
From S2P Require Import Words.
From S2P Require Import Abi.
From S2P Require Import Unicorn.
From S2P Require Import Engine.
From S2P Require Import Memory.
From S2P Require Import JavaRuntime.
From S2P Require Import Jni.
From S2P Require Import DexFile.
From S2P Require Import Framework.
From S2P Require Import System.
From S2P Require Import EnvMethods.
From S2P Require Import AndroidEnv.
From S2P Require Import EnvFacts.
From S2P Require Import EnvGraph.
From S2P Require Import ArtRuntime.
From S2P Require Import ArtFrame.
From S2P Require Import ArtFacts.
From S2P Require Import ArtLoad.
#[local] Open Scope Z_scope.

(** A DEX that declares the class [a.B]. *)
Definition demo_class_dex : list Z :=
  bs "dex" ++ [10] ++ replicate 52 0 ++ le_bytes 4 1 ++ le_bytes 4 0x70 ++ le_bytes 4 1 ++ le_bytes 4 0x74 ++
  replicate 24 0 ++ le_bytes 4 1 ++ le_bytes 4 0x78 ++ replicate 8 0 ++ le_bytes 4 0x98 ++ le_bytes 4 0 ++
  replicate 32 0 ++ [5] ++ bs "La/B;" ++ [0].
Example demo_class_names : dex_class_names demo_class_dex = [bs "a.B"].
Proof. vm_compute. reflexivity. Qed.

#[local] Abbreviation HM0 := (EnvMethod + ArtMethod)%type.
#[local] Abbreviation A0 := (ArtRuntime RefUc HM0).
Definition demo_art0 : A0 := mkArt (init_java demo_mem0) [] [].
Definition demo_blob : Z := kJavaBase.
(** A byte array with the DEX, then [openInMemoryDexFile] of it. *)
Definition demo_art1 : A0 := snd (on_java (java_op (ONewBytes demo_class_dex)) demo_art0).
Definition demo_open := art_run AOpenInMemoryDexFile 0 [DObject demo_blob] demo_art1.
Definition demo_art2 : A0 := snd demo_open.

Lemma init_live m : arena_in m -> java_next_ m = 0 -> live (init_java (U := RefUc) (HM := HM0) m).
Proof. intros Ha Hn. split; [by apply init_java_ok|by left|done]. Qed.
Lemma demo_live : live (a_java demo_art0).
Proof. exact (init_live demo_mem0 demo_arena eq_refl). Qed.
Lemma demo_class_dex_ok : bytes_ok demo_class_dex.
Proof. apply (bool_decide_unpack (Forall _ _)). vm_compute. exact I. Qed.
Lemma demo_step1 : art_step demo_art0 demo_art1.
Proof. eapply (step_table (ONewBytes demo_class_dex)); [exact demo_class_dex_ok|exact (surjective_pairing _)]. Qed.
Lemma demo_step2 : art_step demo_art1 demo_art2.
Proof. eapply step_method. exact (surjective_pairing demo_open). Qed.
Lemma demo_ok1 : art_ok demo_art1.
Proof. refine (proj1 (art_reachable demo_art0 demo_art1 (art_start _ demo_live) _)). exact (star_one _ _ _ demo_step1). Qed.
Lemma demo_ok2 : art_ok demo_art2.
Proof. refine (proj1 (art_reachable demo_art1 demo_art2 demo_ok1 _)). exact (star_one _ _ _ demo_step2). Qed.
Definition demo_file : Z := default 0 (dexfile_obj <$> last (dexes_ demo_art2)).

(** The packer wipes its array afterwards; the file is a copy. *)
Definition demo_wipe : JavaOp (HM := HM0) := OSetBytes demo_blob [].
Definition demo_art3 : A0 := snd (on_java (java_op demo_wipe) demo_art2).
Lemma demo_step3 : art_step demo_art2 demo_art3.
Proof.
  eapply (step_table demo_wipe); [|exact (surjective_pairing _)]. split; [constructor|].
  apply Forall_forall, (bool_decide_unpack (Forall (fun d => demo_blob <> cookie_arr d) (dexes_ demo_art2))).
  vm_compute. exact I.
Qed.

Lemma dexes_stay_witness :
  bytes_view (a_java demo_art3) demo_blob = Some [] /\
  exists d, d ∈ dexes_ demo_art3 /\ native_walk (a_java demo_art3) (dexfile_obj d) = Some demo_class_dex.
Proof.
  split; [vm_compute; reflexivity|].
  destruct (dexes_stay (init_java demo_mem0) demo_art2 demo_art3 demo_live) as [_ Hc].
  - exact (star_trans _ _ _ _ (star_one _ _ _ demo_step1) (star_one _ _ _ demo_step2)).
  - exact (star_one _ _ _ demo_step3).
  - apply (Hc demo_class_dex (bs "openInMemoryDexFile")). vm_compute. left.
Defined.

(** Overwriting the cookie of the file ends the walk. *)
Definition demo_cookie : Z := default 0 (cookie_arr <$> last (dexes_ demo_art2)).
Example cookie_overwritten :
  native_walk (a_java demo_art2) demo_file = Some demo_class_dex /\
  native_walk (a_java (snd (on_java (java_op (OSetBytes demo_cookie [])) demo_art2))) demo_file = None.
Proof. vm_compute. split; reflexivity. Qed.

Lemma open_captures_witness :
  a_notified demo_art2 = [(demo_class_dex, bs "openInMemoryDexFile")].
Proof.
  destruct (open_captures demo_art1 demo_art2 demo_blob [] 0 demo_class_dex (DObject demo_file)) as (d & _ & _ & _ & E).
  - exact demo_ok1.
  - vm_compute. reflexivity.
  - vm_compute. reflexivity.
  - apply (run_is demo_open). vm_compute. reflexivity.
  - exact E.
Defined.

Definition demo_loader_run := build_classloader (dexes_ demo_art2) 0 (a_java demo_art2).
Lemma classloader_walk_witness : exists o, native_walk (snd demo_loader_run) o = Some demo_class_dex.
Proof.
  assert (exists d, dexes_ demo_art2 = [d] /\ dex_ok (a_java demo_art2) d demo_class_dex) as (d & Ed & Ok).
  { pose proof (ao_held _ demo_ok2) as Hh.
    assert (exists d, dexes_ demo_art2 = [d]) as [d Ed] by (eexists; vm_compute; reflexivity).
    exists d. split; [exact Ed|].
    assert (a_notified demo_art2 = [(demo_class_dex, bs "openInMemoryDexFile")]) as En by (vm_compute; reflexivity).
    rewrite En in Hh. apply Forall_singleton in Hh as (_ & d' & Hin & Ok). rewrite Ed in Hin.
    apply list_elem_of_singleton in Hin as ->. exact Ok. }
  assert (exists loader, fst demo_loader_run = Ret loader) as [loader El] by (eexists; vm_compute; reflexivity).
  destruct (classloader_walk [d] 0 (a_java demo_art2) [demo_class_dex] loader (snd demo_loader_run))
    as (pl & arr & es & objs & _ & _ & _ & _ & _ & F).
  - exact (ao_live _ demo_ok2).
  - by apply Forall2_cons_2.
  - rewrite <- Ed. exact (run_is _ _ El).
  - inversion F as [|o l os ls Hw F' E1 E2]; subst. by exists o.
Defined.

Definition demo_entries := art_run AEntries 0 [] demo_art2.
Lemma entries_enumerate_witness :
  exists h (j : JavaRuntime RefUc HM0), string_of j h = Some (bs "a.B").
Proof.
  assert (exists v, fst demo_entries = Ret v) as [v Ev] by (eexists; vm_compute; reflexivity).
  destruct (entries_enumerate demo_art2 (snd demo_entries) 0 [] v) as (en & hs & j & _ & _ & F).
  - exact (lv_ok _ (ao_live _ demo_ok2)).
  - vm_compute. reflexivity.
  - exact (run_is _ _ Ev).
  - assert (all_names (dexes_ demo_art2) = [bs "a.B"]) as En by (vm_compute; reflexivity). rewrite En in F.
    inversion F as [|h n hs' ns Hs F' E1 E2]; subst. by exists h, j.
Defined.

(** ** Where the code does not do what it means to *)

(** Opening what is no DEX answers with the file of an earlier call, and
    captures nothing. *)
Definition demo_junk := on_java (new_byte_array (bs "junk")) demo_art2.
Definition demo_junk_array : Z := match fst demo_junk with Ret h => h | _ => 0 end.
Definition demo_reopen := art_run AOpenInMemoryDexFile 0 [DObject demo_junk_array] (snd demo_junk).
Example stale_dex :
  bytes_view (a_java (snd demo_junk)) demo_junk_array = Some (bs "junk") /\
  fst demo_reopen = Ret (DObject demo_file) /\
  a_notified (snd demo_reopen) = a_notified demo_art2.
Proof. vm_compute. repeat split. Qed.

(** The context graph is built after ART is installed, and takes the
    enumeration over: [entries] gives an empty enumeration. *)
Section Taken.
Context {U HM : Type} `{UcLaws U}.
Variables (as_env : EnvMethod -> HM) (no_main_thread no_field_defaults : bool).
#[local] Opaque regs.
(** What ART registers leaves the names alone that [graph_wired] and
    [certificate_read] speak of. *)
Lemma install_more_hosts (as_art : ArtMethod -> HM) (a : ArtRuntime U HM) r a' :
  ArtRuntime.install as_art a = (r, a') -> more_hosts (a_java a) (a_java a').
Proof.
  unfold ArtRuntime.install, on_java. destruct (register_art as_art art_methods (a_java a)) as [o j'] eqn:E. intros [= _ <-].
  revert E. cbn [a_java]. generalize (a_java a) as j. assert (Forall (fun p => bs p.1 ∉ reserved) art_methods) as Hl.
  { apply (bool_decide_unpack (Forall _ _)). vm_compute. exact I. }
  induction Hl as [|[n f] l Hn _ IH]; intros j E; cbn [register_art] in E.
  - injection E as _ <-. apply more_hosts_refl.
  - unfold mbind, M_mbind, M_bind in E. destruct (register_method (bs n) (as_art f) j) as [q j1] eqn:E1.
    pose proof E1 as [= <- _]. eapply more_hosts_trans; [by eapply more_hosts_register|by apply IH].
Qed.
Lemma graph_takes_enumeration id opt (j : JavaRuntime U HM) g j' :
  build_context_graph as_env no_main_thread no_field_defaults id opt j = (Ret g, j') ->
  host_methods_ j' !! bs "entries" = Some (as_env (ENew "java/util/Enumeration")) /\
  host_methods_ j' !! bs "hasMoreElements" = Some (as_env (EValue (DInt 0))) /\
  host_methods_ j' !! bs "nextElement" = Some (as_env (EValue (DObject 0))).
Proof.
  intros E. unfold build_context_graph in E.
  do 6 apply bind_ret_inv in E as (? & ? & _ & E).
  destruct x9 as [thread app]. apply bind_ret_inv in E as (loader & j1 & _ & E).
  apply bind_ret_inv in E as (? & j2 & E & [= _ <-]). unfold graph_rest in E.
  apply bind_ret_inv in E as (? & j3 & _ & E). apply bind_ret_inv in E as (jthread & j4 & _ & E).
  apply bind_ret_inv in E as (? & j5 & E5 & E).
  assert (forall k, respects (same_host (bs k)) (graph_probes as_env (bs "/data/user/0/" ++ bs (package_name id) ++ bs "/.jiagu")) ->
            host_methods_ j2 !! bs k = host_methods_ j5 !! bs k) as Hk.
  { intros k Hp. destruct (extra_probes opt); [exact (Hp _ _ _ E)|]. by injection E as _ <-. }
  set (ms := graph_methods x loader jthread) in *.
  split; [|split].
  - rewrite Hk by phases. refine (regs_lookup as_env (take 18 ms) "entries" _ (drop 19 ms) _ _ _ _ E5). text_differs.
  - rewrite Hk by phases. refine (regs_lookup as_env (take 19 ms) "hasMoreElements" _ (drop 20 ms) _ _ _ _ E5). text_differs.
  - rewrite Hk by phases. refine (regs_lookup as_env (take 20 ms) "nextElement" _ (drop 21 ms) _ _ _ _ E5). text_differs.
Qed.
End Taken.
