(* ===== verification/ArtBringup.v ===== *)
(** Filling in the parts of a mapped libart that its code dereferences:
    [core/art/art_bringup.cpp], [include/vardoger/art/art_bringup.hpp].

    The file behind [art_file_path] is the list of its bytes, empty when it
    cannot be opened; locals that a callback of [for_each_symbol] captures are
    part of the state it runs on.  Log lines are dropped. *)

From S2P Require Import Prelude.
From S2P Require Import Words.
From S2P Require Import Loops.
From S2P Require Import Abi.
From S2P Require Import Unicorn.
From S2P Require Import Engine.
From S2P Require Import Memory.
From S2P Require Import Jni.
From S2P Require Import DexFile.
#[local] Open Scope Z_scope.

(** ** The symbols of a file *)

Record Sym := mkSym { y_name : list Z; y_value : Z; y_size : Z; y_type : Z }.

(** [memcpy] of [n] bytes out of the file. *)
Definition file_word (n : nat) (d : list Z) (o : Z) : outcome Z := l ← or_ub (slice d o n); Ret (le_val l).

Section Symbols.
Context {S : Type}.
Variable cb : Sym -> M S unit.
Variable d : list Z.

(** The symbol at [k], unless its name lies behind the end. *)
Definition report_symbol (stroff k : Z) : M S unit :=
  st_name ← lift (file_word 4 d k);
  st_info ← lift (file_word 1 d (u64 (k + 4)));
  st_value ← lift (file_word 8 d (u64 (k + 8)));
  st_size ← lift (file_word 8 d (u64 (k + 16)));
  let ns := u64 (stroff + st_name) in
  if zlen d <=? ns then skip
  else cb (mkSym (c_string (drop (Z.to_nat ns) d)) st_value st_size (Z.land st_info 0xf)).
Definition walk_symbols (off size ent stroff : Z) : M S unit :=
  while_ (fun k =>
    if (u64 (k + 24) <=? u64 (off + size)) && (u64 (k + 24) <=? zlen d)
    then _ ← report_symbol stroff k; mret (inl (u64 (k + ent)))
    else mret (inr tt)) off.

(** One section header; [false] ends the loop.  [i * shentsize] is an [int],
    [link * shentsize] an [unsigned]. *)
Definition symbol_section (shoff shentsize i : Z) : M S bool :=
  if 2 ^ 31 <=? i * shentsize then lift UB else
  let sh := u64 (shoff + i * shentsize) in
  if zlen d <? u64 (sh + 64) then mret false else
  type ← lift (file_word 4 d (u64 (sh + 4)));
  if negb (type =? 2) && negb (type =? 11) then mret true else
  off ← lift (file_word 8 d (u64 (sh + 24)));
  size ← lift (file_word 8 d (u64 (sh + 32)));
  link ← lift (file_word 4 d (u64 (sh + 40)));
  ent ← lift (file_word 8 d (u64 (sh + 56)));
  stroff ← lift (file_word 8 d (u64 (shoff + u32 (link * shentsize) + 24)));
  _ ← walk_symbols off size (if ent =? 0 then 24 else ent) stroff;
  mret true.
Fixpoint symbol_sections (n : nat) (shoff shentsize i : Z) : M S unit :=
  match n with
  | O => skip
  | Datatypes.S k =>
      symbol_section shoff shentsize i ≫= fun go : bool =>
      if go then symbol_sections k shoff shentsize (i + 1) else skip
  end.
Definition for_each_symbol : M S unit :=
  if (zlen d <? 0x40) || negb (bool_decide (take 4 d = 0x7f :: bs "ELF")) then skip else
  shoff ← lift (file_word 8 d 0x28);
  shentsize ← lift (file_word 2 d 0x3a);
  shnum ← lift (file_word 2 d 0x3c);
  symbol_sections (Z.to_nat shnum) shoff shentsize 0.
End Symbols.

(** Running on locals that start as [l]. *)
Definition with_local {S L A} (l : L) (op : M (S * L) A) : M S L := fun s =>
  match op (s, l) with
  | (Ret _, (s', l')) => (Ret l', s')
  | (Throw e, (s', _)) => (Throw e, s')
  | (UB, (s', _)) => (UB, s')
  end.
Definition on_fst {S L A} (op : M S A) : M (S * L) A := fun '(s, l) => let '(r, s') := op s in (r, (s', l)).
Definition set_local {S L} (f : L -> L) : M (S * L) unit := modify (fun '(s, l) => (s, f l)).

(** ** A64 instructions the scan decodes *)

Record Scan := mkScan { runtime_reg : Z; adrp_reg : Z }.
Definition w32 (code : list Z) (i : Z) : Z := le_val (take 4 (drop (Z.to_nat (i * 4)) code)).
(** The target of an ADRP as it is computed: the immediate is not extended. *)
Definition adrp_target (pc insn : Z) : Z :=
  let immhi := Z.land (Z.shiftr insn 5) 0x7FFFF in
  let immlo := Z.land (Z.shiftr insn 29) 0x3 in
  let imm := Z.shiftl (Z.lor (Z.shiftl immhi 2) immlo) 12 in
  u64 (Z.land pc (mask64 0x1000) + imm).
(** One instruction: the state after it, or the offset found. *)
Definition scan_insn (page low pc insn : Z) (s : Scan) : Scan + Z :=
  if Z.land insn 0x9F000000 =? 0x90000000 then
    inl (if adrp_target pc insn =? page then mkScan (runtime_reg s) (Z.land insn 0x1F) else s)
  else if Z.land insn 0xFFC00000 =? 0xF9400000 then
    let rt := Z.land insn 0x1F in
    let rn := Z.land (Z.shiftr insn 5) 0x1F in
    let off := Z.land (Z.shiftr insn 10) 0xFFF * 8 in
    if (rn =? adrp_reg s) && (off =? low) then inl (mkScan rt (adrp_reg s))
    else if (rn =? runtime_reg s) && (0x100 <=? off) then inr off
    else inl s
  else inl s.
Fixpoint scan_code (n : nat) (page low va : Z) (code : list Z) (i : Z) (s : Scan) : option Z :=
  match n with
  | O => None
  | S k =>
      match scan_insn page low (u64 (va + i * 4)) (w32 code i) s with
      | inr off => Some off
      | inl s' => scan_code k page low va code (i + 1) s'
      end
  end.
(** The loop leaves the last word of the code out. *)
Definition scan_class_linker (instance_va va : Z) (code : list Z) : Z :=
  default 0x610 (scan_code (Z.to_nat (zlen code / 4 - 1)) (Z.land instance_va (mask64 0x1000))
                   (Z.land instance_va 0xFFF) va code 0 (mkScan (-1) (-1))).

(** ** The four steps *)

Record ClassLinkerBringup := mkLinker {
  class_linker : Z; l_heap : Z; linear_alloc : Z; intern_table : Z; class_linker_off : Z }.
Definition no_linker : ClassLinkerBringup := mkLinker 0 0 0 0 0.

Record LinkerSymbols := mkLinkerSymbols { instance_va : Z; defineclass_va : Z; cl_vtable_va : Z }.

Definition is_lock (y : Sym) : bool :=
  (y_type y =? 1) && (y_size y =? 8) && has_sub (bs "3art5Locks") (y_name y).
Definition is_instance (y : Sym) : bool :=
  (y_type y =? 1) && (y_size y =? 8) && bool_decide (y_name y = bs "_ZN3art7Runtime9instance_E").
Definition is_started (y : Sym) : bool :=
  (y_type y =? 1) && (y_size y =? 1) && bool_decide (y_name y = bs "_ZN3art6Thread11is_started_E").
Definition linker_symbol (y : Sym) (l : LinkerSymbols) : LinkerSymbols :=
  let l := if bool_decide (y_name y = bs "_ZN3art7Runtime9instance_E")
           then mkLinkerSymbols (y_value y) (defineclass_va l) (cl_vtable_va l) else l in
  let p := bs "_ZN3art11ClassLinker11DefineClass" in
  let l := if bool_decide (take (length p) (y_name y) = p)
           then mkLinkerSymbols (instance_va l) (y_value y) (cl_vtable_va l) else l in
  if bool_decide (y_name y = bs "_ZTVN3art11ClassLinkerE")
  then mkLinkerSymbols (instance_va l) (defineclass_va l) (y_value y) else l.

Section Bringup.
Context {U : Type} `{UcOps U}.
Variable tight : bool.
Variable abi : Abi.
Variables (art_bias : Z) (file : list Z).
#[local] Abbreviation Mem := (Memory U).

Definition read_ptr (a : Z) : M Mem Z := uc_do (read_t 8 (u64 a)).
Definition write_ptr (a v : Z) : M Mem unit := uc_do (write_t 8 (u64 a) v).
(** A pointer slot that is null is given a new zeroed object. *)
Definition fill_slot (slot len : Z) : M Mem Z :=
  p ← read_ptr slot;
  if negb (p =? 0) then mret p else
  o ← heap_alloc tight len 16;
  _ ← write_ptr slot o;
  mret o.

Definition init_lock (y : Sym) : M (Mem * Z) unit :=
  if negb (is_lock y) then skip else
  let slot := u64 (art_bias + y_value y) in
  p ← on_fst (read_ptr slot);
  if negb (p =? 0) then skip else
  mtx ← on_fst (heap_alloc tight 0x60 16);
  _ ← on_fst (write_ptr slot mtx);
  set_local (fun n => n + 1).
Definition art_init_locks : M Mem Z := with_local 0 (for_each_symbol init_lock file).

Definition instance_slot : M Mem Z :=
  with_local 0 (for_each_symbol (fun y =>
    if is_instance y then set_local (fun _ => u64 (art_bias + y_value y)) else skip) file).
Definition art_init_runtime : M Mem Z :=
  slot ← instance_slot;
  if slot =? 0 then mret 0 else fill_slot slot 0x4000.

Definition start_thread (y : Sym) : M Mem unit :=
  if is_started y then uc_do (write_t 1 (u64 (art_bias + y_value y)) 1) else skip.
Definition art_init_thread : M Mem Z :=
  if negb (bool_decide (abi = Arm64)) then mret 0 else
  _ ← for_each_symbol start_thread file;
  tls ← uc_do (read_uc_reg A64_TPIDR_EL0);
  if tls =? 0 then mret 0 else fill_slot (tls + 0x38) 0x2000.

Definition find_linker : M Mem LinkerSymbols :=
  with_local (mkLinkerSymbols 0 0 0) (for_each_symbol (fun y => set_local (linker_symbol y)) file).
Definition linker_offset (l : LinkerSymbols) : M Mem Z :=
  if (defineclass_va l =? 0) || (instance_va l =? 0) then mret 0x610 else
  code ← uc_do (e_read (u64 (art_bias + defineclass_va l)) 0x200);
  mret (scan_class_linker (instance_va l) (defineclass_va l) code).
Definition art_init_classlinker (runtime_ptr : Z) : M Mem ClassLinkerBringup :=
  if negb (bool_decide (abi = Arm64)) || (runtime_ptr =? 0) then mret no_linker else
  l ← find_linker;
  off ← linker_offset l;
  cl ← heap_alloc tight 0x1000 16;
  heap ← heap_alloc tight 0x2000 16;
  arena ← heap_alloc tight 0x400 16;
  intern ← heap_alloc tight 0x400 16;
  _ ← (if cl_vtable_va l =? 0 then skip else write_ptr cl (u64 (art_bias + cl_vtable_va l + 0x10)));
  let slot := u64 (runtime_ptr + off) in
  p ← read_ptr slot;
  _ ← (if p =? 0 then write_ptr slot cl else skip);
  mret (mkLinker cl heap arena intern off).
End Bringup.
