(* ===== verification/BringupFacts.v ===== *)
(** What [ArtBringup] promises: the symbols of a well-formed file are reported
    once each and in order, null slots are filled once. *)

From S2P Require Import Prelude.
From S2P Require Import Words.
From S2P Require Import Loops.
From S2P Require Import Abi.
From S2P Require Import Unicorn.
From S2P Require Import Engine.
From S2P Require Import Memory.
From S2P Require Import DexFile.
From S2P Require Import ArtBringup.
#[local] Open Scope Z_scope.

(** ** The symbols of a file, as a list *)

(** A little-endian number in a file. *)
Definition num (n : nat) (d : list Z) (o : Z) : Z := le_val (take n (drop (Z.to_nat o) d)).
Lemma file_num n d o : 0 <= o -> o + Z.of_nat n <= zlen d -> file_word n d o = Ret (num n d o).
Proof.
  intros H0 H1. unfold file_word, slice, num. rewrite (proj2 (Z.leb_le 0 o)), (proj2 (Z.leb_le (o + _) _)) by lia. done.
Qed.
Lemma num_range n d o : bytes_ok d -> 0 <= num n d o < 2 ^ (8 * Z.of_nat n).
Proof.
  intros Hd. assert (bytes_ok (take n (drop (Z.to_nat o) d))) as Hb by (by apply Forall_take, Forall_drop).
  pose proof (le_val_range _ Hb) as [H0 H1]. unfold num. split; [done|]. eapply Z.lt_le_trans; [exact H1|].
  apply Z.pow_le_mono_r; [lia|]. unfold zlen. rewrite length_take. lia.
Qed.

Definition symbol_at (d : list Z) (stroff k : Z) : list Sym :=
  let ns := stroff + num 4 d k in
  if zlen d <=? ns then [] else
  [mkSym (c_string (drop (Z.to_nat ns) d)) (num 8 d (k + 8)) (num 8 d (k + 16)) (Z.land (num 1 d (k + 4)) 0xf)].
(** The entries of a table that lie in it and in the file. *)
Definition entry_count (d : list Z) (off size ent : Z) : Z :=
  let last := Z.min (off + size) (zlen d) - 24 in
  if last <? off then 0 else (last - off) / ent + 1.
Definition table_symbols (d : list Z) (off size ent stroff : Z) : list Sym :=
  concat ((fun i => symbol_at d stroff (off + i * ent)) <$> seqZ 0 (entry_count d off size ent)).

Section Header.
Variable d : list Z.
Definition e_shoff : Z := num 8 d 0x28.
Definition e_shentsize : Z := num 2 d 0x3a.
Definition e_shnum : Z := num 2 d 0x3c.
Definition header_at (i : Z) : Z := e_shoff + i * e_shentsize.
Definition sh_type (i : Z) : Z := num 4 d (header_at i + 4).
Definition sh_offset (i : Z) : Z := num 8 d (header_at i + 24).
Definition sh_size (i : Z) : Z := num 8 d (header_at i + 32).
Definition sh_link (i : Z) : Z := num 4 d (header_at i + 40).
Definition sh_entsize (i : Z) : Z := if num 8 d (header_at i + 56) =? 0 then 24 else num 8 d (header_at i + 56).
Definition has_symbols (i : Z) : bool := (sh_type i =? 2) || (sh_type i =? 11).
Definition section_symbols (i : Z) : list Sym :=
  if has_symbols i
  then table_symbols d (sh_offset i) (sh_size i) (sh_entsize i) (sh_offset (sh_link i)) else [].
Definition file_symbols : list Sym := concat (section_symbols <$> seqZ 0 e_shnum).

(** Headers lie in the file; a symbol table's numbers stay in half the range
    of a word and its string table has a header. *)
Record sections_ok : Prop := {
  so_bytes : bytes_ok d;
  so_elf : 0x40 <= zlen d < 2 ^ 62 /\ take 4 d = 0x7f :: bs "ELF";
  so_small : e_shnum * e_shentsize < 2 ^ 31;
  so_headers i : 0 <= i < e_shnum -> header_at i + 64 <= zlen d;
  so_tables i : 0 <= i < e_shnum -> has_symbols i = true ->
    sh_offset i + sh_size i < 2 ^ 62 /\ sh_entsize i < 2 ^ 62 /\
    0 <= sh_link i < e_shnum /\ sh_offset (sh_link i) < 2 ^ 62;
}.
End Header.

Section Reported.
Context {S : Type}.
Variable cb : Sym -> M S unit.
Variable d : list Z.

Lemma report_is stroff k :
  bytes_ok d -> zlen d < 2 ^ 62 -> 0 <= stroff < 2 ^ 62 -> 0 <= k -> k + 24 <= zlen d ->
  forall w, report_symbol cb d stroff k w = for_each cb (symbol_at d stroff k) w.
Proof.
  intros Hd Hlen Hs Hk Hin w. unfold report_symbol.
  rewrite (u64_id (k + 4)), (u64_id (k + 8)), (u64_id (k + 16)) by lia. rewrite !file_num by lia. rewrite !bind_lift_ret.
  pose proof (num_range 4 d k Hd) as Hn. cbn in Hn. rewrite u64_id by lia. unfold symbol_at.
  destruct (zlen d <=? stroff + num 4 d k); [done|]. rewrite for_each_cons. unfold M_bind, for_each. cbn [foldM].
  destruct (cb _ w) as [[[]|e|] w']; done.
Qed.

Lemma for_each_concat {B C} (f : B -> M S unit) (g : C -> list B) l w :
  for_each f (concat (g <$> l)) w = for_each (fun c => for_each f (g c)) l w.
Proof.
  revert w. induction l as [|c l IH]; intros w; [done|]. cbn [fmap list_fmap concat].
  rewrite for_each_app, for_each_cons. unfold M_bind. destruct (for_each f (g c) w) as [[[]|e|] w']; [apply IH|done..].
Qed.

Lemma walk_is off size ent stroff w :
  bytes_ok d -> zlen d < 2 ^ 62 -> 0 <= off -> 0 <= size -> off + size < 2 ^ 62 -> 0 < ent < 2 ^ 62 -> 0 <= stroff < 2 ^ 62 ->
  walk_symbols cb d off size ent stroff w = for_each cb (table_symbols d off size ent stroff) w.
Proof.
  intros Hd Hlen Ho Hsz Hos He Hst. unfold walk_symbols. set (step := fun k : Z => _).
  set (lim := Z.min (off + size) (zlen d) - 24).
  assert (forall k w, 0 <= k < 2 ^ 63 -> step k w =
    if k <=? lim then M_bind (fun _ => M_ret (inl (k + ent))) (for_each cb (symbol_at d stroff k)) w
    else (Ret (inr tt), w)) as Hstep.
  { intros k w' Hk. unfold step. rewrite (u64_id (k + 24)), (u64_id (off + size)) by lia.
    assert ((k + 24 <=? off + size) && (k + 24 <=? zlen d) = (k <=? lim)) as ->.
    { apply eq_true_iff_eq. rewrite andb_true_iff, !Z.leb_le. unfold lim. lia. }
    destruct (Z.leb_spec k lim) as [Hle|Hgt]; [|done].
    unfold mbind, M_mbind, M_bind. rewrite (report_is stroff k) by (unfold lim in Hle; lia || done).
    rewrite u64_id by (unfold lim in Hle; lia). done. }
  clearbody step. unfold table_symbols. rewrite for_each_concat. unfold entry_count. fold lim.
  set (count := if lim <? off then 0 else (lim - off) / ent + 1).
  assert (0 <= count /\ count <= 2 ^ 62 /\ (forall j, 0 <= j < count -> off + j * ent <= lim) /\ lim < off + count * ent)
    as (Hc0 & Hc & Hin & Hout).
  { unfold count. destruct (Z.ltb_spec lim off); [split; [lia|]; split; [lia|]; split; [intros j Hj; lia|lia]|].
    pose proof (Z.mul_div_le (lim - off) ent ltac:(lia)) as M1. pose proof (Z.mul_succ_div_gt (lim - off) ent ltac:(lia)) as M2.
    assert (0 <= (lim - off) / ent <= lim - off) by (split; [apply Z.div_pos|apply Z.div_le_upper_bound]; nia).
    set (q := (lim - off) / ent) in *. split; [lia|]. split; [unfold lim in *; lia|]. split; [intros j Hj; nia|nia]. }
  clearbody count.
  assert (forall n i w, 0 <= i -> Z.of_nat n = count - i ->
    ended (nat_loop (Datatypes.S n) step (off + i * ent) w)
    = Some (for_each (fun i => for_each cb (symbol_at d stroff (off + i * ent))) (seqZ i (Z.of_nat n)) w)) as Hloop.
  { induction n as [|n IH]; intros i w' Hi Hn.
    - replace i with count in * by lia. cbn [nat_loop]. unfold M_bind. destruct (decide (count = 0)) as [E0|E0].
      + rewrite Hstep by lia. rewrite (proj2 (Z.leb_gt _ _)) by lia. done.
      + pose proof (Hin (count - 1) ltac:(lia)). assert (off + count * ent = off + (count - 1) * ent + ent) as Hk by ring.
        assert (0 <= count * ent) by nia. rewrite Hstep by (unfold lim in *; lia).
        rewrite (proj2 (Z.leb_gt _ _)) by lia. done.
    - rewrite Nat2Z.inj_succ, seqZ_cons, Z.pred_succ, for_each_cons by lia. pose proof (Hin i ltac:(lia)).
      assert (0 <= i * ent) by nia. set (rest := nat_loop (Datatypes.S n) step).
      change (nat_loop _ step ?k w') with (M_bind (loop_then rest) (step k) w'). unfold M_bind at 1.
      rewrite Hstep by (unfold lim in *; lia). rewrite (proj2 (Z.leb_le _ _)) by lia.
      unfold M_bind. destruct (for_each cb (symbol_at _ _ _) w') as [[[]|e|] w2]; try done. cbn [loop_then M_ret].
      replace (off + i * ent + ent) with (off + Z.succ i * ent) by lia. apply (IH (Z.succ i)); lia. }
  apply (while_stop (Datatypes.S (Z.to_nat count))); [lia|].
  replace off with (off + 0 * ent) at 1 by lia. rewrite Hloop by lia. by rewrite Z2Nat.id by lia.
Qed.

Lemma section_is i w : sections_ok d -> 0 <= i < e_shnum d ->
  symbol_section cb d (e_shoff d) (e_shentsize d) i w =
  M_bind (fun _ => M_ret true) (for_each cb (section_symbols d i)) w.
Proof.
  intros [Hd [Hlen _] Hsm Hh Ht] Hi. pose proof (num_range 8 d 0x28 Hd) as R1. pose proof (num_range 2 d 0x3a Hd) as R2.
  cbn in R1, R2. fold (e_shoff d) in R1. fold (e_shentsize d) in R2. pose proof (Hh i Hi) as Hhi.
  assert (forall j, 0 <= j < e_shnum d -> 0 <= j * e_shentsize d < 2 ^ 31) as Hp.
  { intros j Hj. split; [apply Z.mul_nonneg_nonneg; lia|]. eapply Z.le_lt_trans; [|exact Hsm]. apply Z.mul_le_mono_nonneg_r; lia. }
  pose proof (Hp i Hi) as Hpi. unfold header_at in Hhi.
  unfold symbol_section. rewrite (proj2 (Z.leb_gt _ _)) by lia. rewrite !(u64_id (e_shoff d + _)) by lia.
  fold (header_at d i) in *. rewrite (u64_id (header_at d i + 64)), (proj2 (Z.ltb_ge _ _)) by (unfold header_at in *; lia).
  assert (0 <= header_at d i) as H0h by (unfold header_at; lia).
  rewrite (u64_id (header_at d i + 4)), (file_num 4 d (header_at d i + 4)) by lia. rewrite bind_lift_ret. fold (sh_type d i).
  unfold section_symbols, has_symbols. specialize (Ht i Hi). unfold has_symbols in Ht.
  rewrite <- negb_orb. destruct ((sh_type d i =? 2) || (sh_type d i =? 11)); cbn [negb]; [|done].
  destruct (Ht eq_refl) as (T1 & T2 & T3 & T4).
  rewrite (u64_id (header_at d i + 24)), (u64_id (header_at d i + 32)), (u64_id (header_at d i + 40)),
    (u64_id (header_at d i + 56)) by lia. rewrite !file_num by lia. rewrite !bind_lift_ret.
  fold (sh_offset d i) (sh_size d i) (sh_link d i).
  pose proof (Hp _ T3) as Hl. rewrite (u32_id (_ * _)) by lia.
  pose proof (Hh _ T3) as Hhl. unfold header_at in Hhl. rewrite (u64_id (e_shoff d + _ + 24)) by lia.
  rewrite file_num by lia. rewrite bind_lift_ret. fold (header_at d (sh_link d i)). fold (sh_offset d (sh_link d i)).
  pose proof (num_range 8 d (header_at d i + 24) Hd) as R3. pose proof (num_range 8 d (header_at d i + 32) Hd) as R4.
  pose proof (num_range 8 d (header_at d i + 56) Hd) as R5. pose proof (num_range 8 d (header_at d (sh_link d i) + 24) Hd) as R6.
  fold (sh_offset d i) in R3. fold (sh_size d i) in R4. fold (sh_offset d (sh_link d i)) in R6.
  unfold mbind, M_mbind, M_bind. rewrite walk_is; [done|done|lia..|unfold sh_entsize in *|lia].
  destruct (Z.eqb_spec (num 8 d (header_at d i + 56)) 0); lia.
Qed.

Lemma reported w :
  sections_ok d -> for_each_symbol cb d w = for_each cb (file_symbols d) w.
Proof.
  intros Hok. pose proof Hok as [Hd [Hlen Hmag] _ _ _]. unfold for_each_symbol.
  rewrite (proj2 (Z.ltb_ge _ _)), bool_decide_true by (lia || done). cbn [orb negb].
  rewrite !file_num by lia. rewrite !bind_lift_ret. fold (e_shoff d) (e_shentsize d) (e_shnum d).
  pose proof (num_range 2 d 0x3c Hd) as Hn. fold (e_shnum d) in Hn. unfold file_symbols. rewrite for_each_concat.
  assert (forall n i w, 0 <= i -> i + Z.of_nat n = e_shnum d ->
    symbol_sections cb d n (e_shoff d) (e_shentsize d) i w
    = for_each (fun i => for_each cb (section_symbols d i)) (seqZ i (Z.of_nat n)) w) as Hloop.
  { induction n as [|n IH]; intros i w' Hi Hsum; [done|].
    rewrite Nat2Z.inj_succ, seqZ_cons, Z.pred_succ, for_each_cons by lia. cbn [symbol_sections].
    unfold mbind, M_mbind, M_bind at 1 2. rewrite section_is by (lia || done). unfold M_bind.
    destruct (for_each cb (section_symbols d i) w') as [[[]|e|] w2]; try done. apply (IH (Z.succ i)); lia. }
  rewrite Hloop by lia. by rewrite Z2Nat.id by lia.
Qed.

(** C36: Of a well-formed file every entry of every symbol table that lies in the
    table and has a name in the file is reported once, in order. *)
Theorem symbols_reported w :
  sections_ok d -> for_each_symbol cb d w = for_each cb (file_symbols d) w.
Proof. apply reported. Qed.
End Reported.

(** ** Null slots *)

Section Slots.
Context {U : Type} `{UcLaws U}.
Variable tight : bool.
Variables (art_bias : Z) (file : list Z).
#[local] Abbreviation Mem := (Memory U).

Definition slot_value (m : Mem) (a : Z) : option Z := le_val <$> uc_mem_read (m_uc m) (u64 a) 8.

Lemma slot_read_run a (m : Mem) p m' : read_ptr a m = (Ret p, m') -> m' = m /\ slot_value m a = Some p.
Proof.
  unfold read_ptr, uc_do, read_t, mbind, M_mbind, M_bind, e_read, slot_value. change (Z.of_nat 8) with 8.
  destruct (uc_mem_read (m_uc m) (u64 a) 8) as [l|] eqn:E; [|done]. intros [= <- <-]. split; [by destruct m|done].
Qed.
Lemma read_ptr_is a (m : Mem) p : slot_value m a = Some p -> read_ptr a m = (Ret p, m).
Proof.
  unfold read_ptr, uc_do, read_t, mbind, M_mbind, M_bind, e_read, slot_value. change (Z.of_nat 8) with 8.
  destruct (uc_mem_read (m_uc m) (u64 a) 8) as [l|] eqn:E; [|done]. intros [= <-]. by destruct m.
Qed.
Lemma align16_range p : 0 <= align_up p 16 < 2 ^ 64.
Proof.
  unfold align_up. pose proof (u64_range (p + (16 - 1))) as Hr.
  pose proof (land_mask64 (u64 (p + (16 - 1))) 4 ltac:(lia) Hr) as El. change (2 ^ 4) with 16 in El. rewrite El.
  pose proof (Z.mod_pos_bound (u64 (p + (16 - 1))) 16 ltac:(lia)).
  pose proof (Z.mod_le (u64 (p + (16 - 1))) 16 ltac:(lia) ltac:(lia)). lia.
Qed.
Lemma heap_alloc_range len (m : Mem) p m' : heap_alloc tight len 16 m = (Ret p, m') -> 0 <= p < 2 ^ 64.
Proof.
  unfold heap_alloc. rewrite bind_get. intros E. apply bind_ret_inv in E as (? & m1 & _ & E).
  rewrite bind_get in E. case_match; [|apply bind_ret_inv in E as (? & ? & _ & [= <- _]); apply align16_range].
  apply bind_ret_inv in E as (ext & m2 & _ & E). case_match; [by injection E as <- _|].
  apply bind_ret_inv in E as (? & m3 & _ & E). case_match; [by injection E as <- _|].
  apply bind_ret_inv in E as (? & ? & _ & [= <- _]). apply align16_range.
Qed.
(** Filling a slot, then asking again. *)
Lemma fill_slot_run slot len (m : Mem) p m' :
  fill_slot tight slot len m = (Ret p, m') -> slot_value m' slot = Some p.
Proof.
  intros E. apply bind_ret_inv in E as (q & m1 & E1 & E). apply slot_read_run in E1 as [-> Ev].
  destruct (negb (q =? 0)); [by injection E as <- <-|].
  apply bind_ret_inv in E as (o & m2 & E2 & E). pose proof (heap_alloc_range _ _ _ _ E2) as Ho.
  apply bind_ret_inv in E as (? & m3 & E3 & [= <- <-]). unfold write_ptr, uc_do, write_t, e_write, check in E3.
  destruct (uc_mem_write (m_uc m2) (u64 slot) (le_bytes 8 o)) as [u|] eqn:Ew; [|discriminate E3].
  injection E3 as _ <-. pose proof (law_read_write _ _ _ _ (le_bytes_ok 8 o) Ew) as Hr. unfold slot_value. cbn [m_uc with_m_uc].
  replace (zlen (le_bytes 8 o)) with 8 in Hr by (unfold zlen; by rewrite length_le_bytes). rewrite Hr.
  cbn [fmap option_fmap option_map]. by rewrite le_val_bytes, Z.mod_small.
Qed.
Lemma fill_slot_again slot len (m : Mem) p : slot_value m slot = Some p -> p <> 0 -> fill_slot tight slot len m = (Ret p, m).
Proof.
  intros Hv Hp. unfold fill_slot. rewrite (bind_run _ _ _ _ _ (read_ptr_is _ _ _ Hv)).
  by rewrite (proj2 (Z.eqb_neq p 0) Hp).
Qed.

(** A walk that only changes a local. *)
Lemma local_walk {L} (f : Sym -> L -> L) (l : L) (m : Mem) :
  sections_ok file ->
  with_local l (for_each_symbol (fun y => set_local (f y)) file) m = (Ret (foldl (fun l y => f y l) l (file_symbols file)), m).
Proof.
  intros Hok. unfold with_local. rewrite reported by done. revert l.
  induction (file_symbols file) as [|y ys IH]; intros l; [done|]. rewrite for_each_cons. unfold M_bind, set_local, modify.
  apply IH.
Qed.
(** The slot of [Runtime::instance_]: that of the last such symbol. *)
Definition instance_slot_of : Z :=
  foldl (fun l y => if is_instance y then u64 (art_bias + y_value y) else l) 0 (file_symbols file).
Lemma instance_slot_is (m : Mem) : sections_ok file -> instance_slot art_bias file m = (Ret instance_slot_of, m).
Proof.
  intros Hok. unfold instance_slot, instance_slot_of.
  rewrite <- (local_walk (fun y l => if is_instance y then u64 (art_bias + y_value y) else l) 0 m Hok).
  unfold with_local. rewrite !reported by done.
  assert (forall l, for_each (fun y => if is_instance y then set_local (fun _ => u64 (art_bias + y_value y)) else skip)
    (file_symbols file) (m, l) =
    for_each (fun y => set_local (fun l => if is_instance y then u64 (art_bias + y_value y) else l))
    (file_symbols file) (m, l)) as E; [|by rewrite E].
  induction (file_symbols file) as [|y ys IH]; intros l; [done|]. rewrite !for_each_cons. unfold M_bind.
  destruct (is_instance y); apply IH.
Qed.

(** [Runtime::instance_] is set once: afterwards the slot of the symbol
    holds the object returned, and asking again returns it and changes
    nothing. *)
Theorem runtime_once (m m' : Mem) rt :
  sections_ok file -> art_init_runtime tight art_bias file m = (Ret rt, m') -> rt <> 0 ->
  slot_value m' instance_slot_of = Some rt /\ art_init_runtime tight art_bias file m' = (Ret rt, m').
Proof.
  intros Hok E Hrt. unfold art_init_runtime in E. rewrite (bind_run _ _ _ _ _ (instance_slot_is m Hok)) in E.
  unfold art_init_runtime. rewrite (bind_run _ _ _ _ _ (instance_slot_is m' Hok)).
  destruct (instance_slot_of =? 0); [by injection E as <- _|].
  pose proof (fill_slot_run _ _ _ _ _ E) as Hv. split; [done|]. by apply fill_slot_again.
Qed.
End Slots.

(** ** Concrete inputs *)

(** A file with one table of two symbols: [Runtime::instance_] at 0x2000 and a
    lock at 0x2008. *)
Definition demo_header (type off size link : Z) : list Z :=
  le_bytes 4 0 ++ le_bytes 4 type ++ replicate 16 0 ++ le_bytes 8 off ++ le_bytes 8 size ++ le_bytes 4 link ++
  replicate 20 0.
Definition demo_names : list Z := bs "_ZN3art7Runtime9instance_E" ++ [0] ++ bs "_ZN3art5Locks5lock_E" ++ [0].
Definition demo_sym (name va : Z) : list Z := le_bytes 4 name ++ [1; 0; 0; 0] ++ le_bytes 8 va ++ le_bytes 8 8.
Definition demo_libart_with (link : Z) : list Z :=
  [0x7f] ++ bs "ELF" ++ replicate 36 0 ++ le_bytes 8 0x40 ++ replicate 10 0 ++ le_bytes 2 64 ++ le_bytes 2 2 ++ [0; 0] ++
  demo_header 2 0xc0 48 link ++ demo_header 3 0xf0 48 0 ++ demo_sym 0 0x2000 ++ demo_sym 27 0x2008 ++ demo_names.
Definition demo_libart : list Z := demo_libart_with 1.
Example demo_symbols : y_name <$> file_symbols demo_libart = [bs "_ZN3art7Runtime9instance_E"; bs "_ZN3art5Locks5lock_E"].
Proof. vm_compute. reflexivity. Qed.
Lemma demo_sections : sections_ok demo_libart.
Proof.
  split.
  - apply (bool_decide_unpack (Forall _ _)). vm_compute. exact I.
  - split; [split|]; vm_compute; done.
  - vm_compute. reflexivity.
  - intros i Hi. assert (i = 0 \/ i = 1) as [->| ->] by (change (e_shnum demo_libart) with 2 in Hi; lia); vm_compute; discriminate.
  - intros i Hi. assert (i = 0 \/ i = 1) as [->| ->] by (change (e_shnum demo_libart) with 2 in Hi; lia); vm_compute; [|discriminate].
    intros _. repeat split; discriminate.
Qed.
Lemma symbols_reported_witness :
  for_each_symbol (fun y => modify (fun l => l ++ [y_value y])) demo_libart [] = (Ret tt, [0x2000; 0x2008]).
Proof. rewrite (symbols_reported _ demo_libart [] demo_sections). vm_compute. reflexivity. Defined.

(** A device with a page for the libart of [demo_libart]. *)
Definition demo_bias : Z := 0xe000.
Definition demo_art_mem : Memory RefUc := snd (map_fixed 0x10000 0x1000 UC_PROT_RW Lib "libart.so" demo_mem0).
Definition demo_runtime := art_init_runtime false demo_bias demo_libart demo_art_mem.
Lemma runtime_once_witness :
  slot_value (snd demo_runtime) 0x10000 = Some kHeapBase /\
  fst (art_init_runtime false demo_bias demo_libart (snd demo_runtime)) = Ret kHeapBase.
Proof.
  destruct (runtime_once false demo_bias demo_libart demo_art_mem (snd demo_runtime) kHeapBase) as [Hs Ha].
  - exact demo_sections.
  - assert (fst demo_runtime = Ret kHeapBase) as E by (vm_compute; reflexivity).
    fold demo_runtime. destruct demo_runtime as [r m]. cbn [fst snd] in *. by rewrite E.
  - discriminate.
  - split; [|by rewrite Ha]. assert (instance_slot_of demo_bias demo_libart = 0x10000) as <- by (vm_compute; reflexivity).
    exact Hs.
Defined.

(** The lock's slot is filled too, and only once. *)
Definition demo_locks := art_init_locks false demo_bias demo_libart demo_art_mem.
Example locks_once :
  fst demo_locks = Ret 1 /\ slot_value (snd demo_locks) 0x10008 = Some kHeapBase /\
  fst (art_init_locks false demo_bias demo_libart (snd demo_locks)) = Ret 0.
Proof. vm_compute. repeat split. Qed.

(** *** Where the code does not do what it means to *)

(** A section that names a string table behind the end of the file makes the
    reader read out of bounds. *)
Example link_out_of_bounds :
  fst (for_each_symbol (fun _ => skip) (demo_libart_with 1000) tt) = UB.
Proof. vm_compute. reflexivity. Qed.

(** The class linker is created anew by every call and wired by the first:
    the second call answers with one that the runtime does not hold. *)
Definition demo_wired := art_init_classlinker false Arm64 demo_bias demo_libart 0x10000 demo_art_mem.
Definition demo_rewired := art_init_classlinker false Arm64 demo_bias demo_libart 0x10000 (snd demo_wired).
Example relinked_unwired :
  match fst demo_wired, fst demo_rewired with
  | Ret l1, Ret l2 =>
      class_linker l1 <> class_linker l2 /\ slot_value (snd demo_rewired) (0x10000 + 0x610) = Some (class_linker l1)
  | _, _ => False
  end.
Proof. vm_compute. split; [discriminate|reflexivity]. Qed.

(** [adrp x0, -4096] at 0x5000 addresses the page 0x4000; the scan takes the
    immediate for unsigned, and does not find an offset behind it.  The same
    code with a page ahead is understood. *)
Definition demo_prologue (adrp : Z) : list Z :=
  le_bytes 4 adrp ++ le_bytes 4 0xF9400401 ++ le_bytes 4 0xF9431022 ++ replicate 500 0.
Example adrp_backward :
  adrp_target 0x5000 0xF0FFFFE0 = 0x200004000 /\
  scan_class_linker 0x4008 0x5000 (demo_prologue 0xF0FFFFE0) = 0x610 /\
  adrp_target 0x5000 0xB0000000 = 0x6000 /\
  scan_class_linker 0x6008 0x5000 (demo_prologue 0xB0000000) = 0x620.
Proof. vm_compute. repeat split. Qed.
