(* ===== verification/Extractor.v ===== *)
(** The payload extractor: [core/extract/extractor.cpp],
    [include/vardoger/extract/extractor.hpp].

    A region is scanned in a copy of its bytes.  The set of harvested strings
    is a [gset]; the order [std::set] iterates in is not kept.  Writing the
    artifacts to disk is not modelled. *)

From S2P Require Import Prelude.
From S2P Require Import Words.
From S2P Require Import Abi.
From S2P Require Import Unicorn.
From S2P Require Import Engine.
From S2P Require Import Memory.
From stdpp Require Import gmap sets.
From Stdlib Require Import Ascii.
#[local] Open Scope Z_scope.

(** ** Headers *)

Definition byte_at (p : list Z) (i : nat) : Z := nth i p 0.
Definition rd32 (p : list Z) (o : nat) : Z := le_val (take 4 (drop o p)).

(** The size and the version of the DEX or CDEX that [p] starts with. *)
Definition is_dex (p : list Z) : option (Z * list Z) :=
  let avail := zlen p in
  if avail <? 0x70 then None else
  let fsz := rd32 p 0x20 in
  if bool_decide (take 4 p = bs "dex" ++ [10]) && (byte_at p 7 =? 0) && (byte_at p 4 =? 0x30)
     && (byte_at p 5 =? 0x33) && (0x35 <=? byte_at p 6) && (byte_at p 6 <=? 0x39)
  then if negb (rd32 p 0x24 =? 0x70) || negb (rd32 p 0x28 =? 0x12345678) then None
       else if (fsz <? 0x70) || (avail <? fsz) then None
       else Some (fsz, bs "03" ++ [byte_at p 6])
  else if bool_decide (take 4 p = bs "cdex")
  then if (fsz <? 0x70) || (avail <? fsz) then None else Some (fsz, bs "cdex")
  else None.

Record FoundDex := mkFoundDex {
  fd_addr : Z;
  fd_region : string;
  fd_version : list Z;
  fd_bytes : list Z;
}.

(** ** Scanning a buffer *)

(** The loop of [scan_dex] over one region, from offset [off]. *)
Fixpoint scan_buf (fuel : nat) (base : Z) (label : string) (buf : list Z) (off : nat) :
    list FoundDex :=
  match fuel with
  | O => []
  | S k =>
      if zlen buf <? Z.of_nat off + 0x70 then [] else
      match is_dex (drop off buf) with
      | Some (size, ver) =>
          mkFoundDex (u64 (base + Z.of_nat off)) label ver (take (Z.to_nat size) (drop off buf))
          :: scan_buf k base label buf (off + Z.to_nat size)
      | None => scan_buf k base label buf (off + 4)
      end
  end.

Definition scannable (k : Kind) : bool :=
  match k with Heap | Mmap | Lib | Other => true | _ => false end.

(** ** Printable runs *)

Definition is_print (c : Z) : bool := (0x20 <=? c) && (c <=? 0x7e).

(** [run.find(needle) != npos] *)
Fixpoint starts_with (needle l : list Z) : bool :=
  match needle, l with
  | [], _ => true
  | a :: n, b :: r => (a =? b) && starts_with n r
  | _ :: _, [] => false
  end.
Fixpoint contains (needle l : list Z) : bool :=
  starts_with needle l || match l with [] => false | _ :: r => contains needle r end.

(** One region of [harvest_strings]: what goes into the set. *)
Definition harvest_flush (min_len : Z) (run : list Z) : list (list Z) :=
  if min_len <=? zlen run then [run] else [].
Fixpoint harvest_buf (min_len : Z) (run buf : list Z) : list (list Z) :=
  match buf with
  | [] => harvest_flush min_len run
  | c :: r => if is_print c then harvest_buf min_len (run ++ [c]) r
              else harvest_flush min_len run ++ harvest_buf min_len [] r
  end.

(** One region of [search_strings]: offset and text of each run kept. *)
Definition search_flush (needle : list Z) (min_len : Z) (start : nat) (run : list Z) :
    list (nat * list Z) :=
  if (min_len <=? zlen run) && (bool_decide (needle = []) || contains needle run)
  then [(start, run)] else [].
Fixpoint search_buf (needle : list Z) (min_len : Z) (i start : nat) (run buf : list Z) :
    list (nat * list Z) :=
  match buf with
  | [] => search_flush needle min_len start run
  | c :: r =>
      if is_print c
      then search_buf needle min_len (S i) (if bool_decide (run = []) then i else start) (run ++ [c]) r
      else search_flush needle min_len start run ++ search_buf needle min_len (S i) start [] r
  end.

Record FoundString := mkFoundString { fs_addr : Z; fs_text : list Z; fs_region : string }.

(** ** Over the memory map *)

Section Extractor.
Context {U : Type} `{UcOps U}.

(** [for (r : mem_.regions()) if (scannable(r.kind)) { read; out += f(r, buf) }] *)
Fixpoint over_regions {A} (f : Region -> list Z -> list A) (l : list Region) : M (Memory U) (list A) :=
  match l with
  | [] => mret []
  | r :: t =>
      if negb (scannable (r_kind r)) then over_regions f t else
      buf ← uc_do (e_read (r_base r) (r_size r));
      rest ← over_regions f t;
      mret (f r buf ++ rest)
  end.

Definition scan_region (r : Region) (buf : list Z) : list FoundDex :=
  scan_buf (length buf) (r_base r) (r_label r) buf 0.

Definition scan_dex : M (Memory U) (list FoundDex) :=
  m ← get; over_regions scan_region (regions_ m).

Definition harvest_strings (min_len : Z) : M (Memory U) (gset (list Z)) :=
  m ← get; l ← over_regions (fun _ buf => harvest_buf min_len [] buf) (regions_ m);
  mret (list_to_set l).

Definition search_region (needle : list Z) (min_len : Z) (r : Region) (buf : list Z) :
    list FoundString :=
  (fun e => mkFoundString (u64 (r_base r + Z.of_nat (fst e))) (snd e) (r_label r))
  <$> search_buf needle min_len 0 0 [] buf.

Definition search_strings (needle : list Z) (min_len : Z) : M (Memory U) (list FoundString) :=
  m ← get; over_regions (search_region needle min_len) (regions_ m).
End Extractor.

(** [observe]: the list [captured_] after it, and its result. *)
Definition observe (captured : list FoundDex) (bytes : list Z) (src : string) :
    bool * list FoundDex :=
  match is_dex bytes with
  | None => (false, captured)
  | Some (size, ver) => (true, captured ++ [mkFoundDex 0 src ver (take (Z.to_nat size) bytes)])
  end.

(** ** The scan for DEX files *)

Lemma is_dex_bounds p size ver : is_dex p = Some (size, ver) -> 0x70 <= size <= zlen p.
Proof.
  unfold is_dex. cbv zeta. destruct (zlen p <? 0x70); [done|].
  assert (forall v, (if (rd32 p 0x20 <? 0x70) || (zlen p <? rd32 p 0x20) then None
                     else Some (rd32 p 0x20, v)) = Some (size, ver) -> 0x70 <= size <= zlen p) as Hb.
  { intros v. destruct (_ || _) eqn:E; [done|]. intros [= <- _]. bool_to_Prop. lia. }
  match goal with |- (if ?b then _ else _) = _ -> _ => destruct b end.
  - destruct (negb _ || negb _); [done|apply Hb].
  - destruct (bool_decide _); [apply Hb|done].
Qed.

(** What the scan reports of offset [o]: a hit that starts there. *)
Definition hit_at (base : Z) (label : string) (buf : list Z) (o : nat) (r : FoundDex) : Prop :=
  exists size ver, is_dex (drop o buf) = Some (size, ver) /\
    r = mkFoundDex (u64 (base + Z.of_nat o)) label ver (take (Z.to_nat size) (drop o buf)).

(** The hits from [off] on, with their offsets: disjoint, in order, each one a
    DEX by its header and dumped in full. *)
Inductive hits (base : Z) (label : string) (buf : list Z) : nat -> list (nat * FoundDex) -> Prop :=
| hits_nil off : hits base label buf off []
| hits_cons off o r l :
    (off <= o)%nat -> hit_at base label buf o r -> (o + length (fd_bytes r) <= length buf)%nat ->
    hits base label buf (o + length (fd_bytes r)) l -> hits base label buf off ((o, r) :: l).

Lemma hits_weaken base label buf off off' l :
  hits base label buf off' l -> (off <= off')%nat -> hits base label buf off l.
Proof. intros Hh Hle. destruct Hh; econstructor; eauto; lia. Qed.

Definition covered (l : list (nat * FoundDex)) (o : nat) : Prop :=
  exists o' r, (o', r) ∈ l /\ (o' <= o < o' + length (fd_bytes r))%nat.

Lemma scan_buf_hits fuel base label buf off :
  (length buf <= off + fuel)%nat ->
  exists l, scan_buf fuel base label buf off = snd <$> l /\ hits base label buf off l /\
    (Forall (fun e => (length (fd_bytes (snd e)) mod 4 = 0)%nat) l ->
     forall o, (off <= o)%nat -> ((o - off) mod 4 = 0)%nat -> is_Some (is_dex (drop o buf)) -> covered l o).
Proof.
  revert off. induction fuel as [|k IH]; intros off Hf; cbn [scan_buf].
  - exists []. split; [done|]. split; [constructor|]. intros _ o Ho _ [[size ver] E].
    apply is_dex_bounds in E. unfold zlen in E. rewrite length_drop in E. lia.
  - destruct (Z.ltb_spec (zlen buf) (Z.of_nat off + 0x70)) as [Hlt|Hge].
    { exists []. split; [done|]. split; [constructor|]. intros _ o Ho _ [[size ver] E].
      apply is_dex_bounds in E. unfold zlen in *. rewrite length_drop in E. lia. }
    destruct (is_dex (drop off buf)) as [[size ver]|] eqn:E.
    + pose proof (is_dex_bounds _ _ _ E) as Hs. unfold zlen in *. rewrite length_drop in Hs.
      destruct (IH (off + Z.to_nat size)%nat) as (l & El & Hh & Hc); [lia|].
      set (r := mkFoundDex _ _ _ _).
      assert (length (fd_bytes r) = Z.to_nat size) as Hlr
        by (simpl; rewrite length_take, length_drop; lia).
      exists ((off, r) :: l). rewrite El. split; [done|]. split.
      { econstructor; [done|by eexists _, _|rewrite Hlr; lia|by rewrite Hlr]. }
      intros [Hm Hms]%Forall_cons o Ho Hmod Ho'. cbn [snd] in Hm. rewrite Hlr in Hm.
      destruct (decide (o < off + Z.to_nat size)%nat) as [Hin|Hout].
      { exists off, r. split; [by left|]. rewrite Hlr. lia. }
      destruct (Hc Hms o) as (o' & r' & Hin' & Hr'); [lia| |done|].
      { apply Nat.Div0.mod_divides in Hm as [a Ha]. apply Nat.Div0.mod_divides in Hmod as [b Hb].
        apply Nat.Div0.mod_divides. exists (b - a)%nat. lia. }
      exists o', r'. split; [by right|done].
    + destruct (IH (off + 4)%nat) as (l & El & Hh & Hc); [lia|].
      exists l. split; [done|]. split; [by eapply hits_weaken; [exact Hh|lia]|].
      intros Hms o Ho Hmod Ho'. destruct (decide (o = off)) as [->|Hne].
      { rewrite E in Ho'. by destruct Ho'. }
      apply Hc; [done| | |done].
      * apply Nat.Div0.mod_divides in Hmod as [b Hb]. lia.
      * apply Nat.Div0.mod_divides in Hmod as [b Hb]. apply Nat.Div0.mod_divides. exists (b - 1)%nat. lia.
Qed.

(** Scanning a region reports disjoint DEX images in ascending order, each
    recognised by its header and dumped to its declared size; and when the
    sizes of those images are multiples of four, no image at a 4-aligned
    offset outside them is missed. *)
Lemma scan_region_spec r buf :
  exists l, scan_region r buf = snd <$> l /\ hits (r_base r) (r_label r) buf 0 l /\
    (Forall (fun e => (length (fd_bytes (snd e)) mod 4 = 0)%nat) l ->
     forall o, (o mod 4 = 0)%nat -> is_Some (is_dex (drop o buf)) -> covered l o).
Proof.
  destruct (scan_buf_hits (length buf) (r_base r) (r_label r) buf 0 ltac:(lia)) as (l & E & Hh & Hc).
  exists l. split; [exact E|]. split; [done|]. intros Hm o Ho Hd. apply (Hc Hm); [lia| |done].
  by rewrite Nat.sub_0_r.
Qed.

(** ** Printable runs are maximal, and all found *)

Definition printable (l : list Z) : Prop := Forall (fun c => is_print c = true) l.

(** [t] is at offset [a] of [l], printable, and cannot be extended. *)
Definition maximal_run (l : list Z) (a : nat) (t : list Z) : Prop :=
  t <> [] /\ printable t /\ (forall k, (k < length t)%nat -> l !! (a + k)%nat = t !! k) /\
  (forall j c, a = S j -> l !! j = Some c -> is_print c = false) /\
  (forall c, l !! (a + length t)%nat = Some c -> is_print c = false).

Section Split.
Context (run : list Z) (c : Z) (r : list Z).
Hypotheses (Hr : printable run) (Hc : is_print c = false).

Lemma shift_lookup k : (run ++ c :: r) !! (length run + 1 + k)%nat = r !! k.
Proof.
  rewrite lookup_app_r by lia. by replace (length run + 1 + k - length run)%nat with (S k) by lia.
Qed.

Lemma maximal_run_avoids a t k :
  maximal_run (run ++ c :: r) a t -> (k < length t)%nat -> (a + k)%nat <> length run.
Proof.
  intros (_ & Hp & Ht & _) Hk E. pose proof (Ht k Hk) as Ek. rewrite E, list_lookup_middle in Ek by done.
  pose proof (Forall_lookup_1 _ _ _ _ Hp (eq_sym Ek)) as Hx. simpl in Hx. congruence.
Qed.

(** A run that starts before the byte [c] is all of [run]. *)
Lemma maximal_run_first a t :
  maximal_run (run ++ c :: r) a t -> (a < length run)%nat -> a = 0%nat /\ t = run.
Proof.
  intros Hm Hlt. pose proof (fun k => maximal_run_avoids a t k Hm) as Hout.
  destruct Hm as (Hne & Hp & Ht & Hl & Hend).
  assert (forall j, (j < length run)%nat -> exists e, (run ++ c :: r) !! j = Some e /\ is_print e = true)
    as Hin.
  { intros j Hj. destruct (lookup_lt_is_Some_2 run j Hj) as [e Ee]. exists e.
    split; [by rewrite lookup_app_l|]. by apply (Forall_lookup_1 _ _ _ _ Hr Ee). }
  assert (a + length t = length run)%nat as Hfull.
  { destruct (decide (a + length t <= length run)%nat); [|exfalso; apply (Hout (length run - a)%nat); lia].
    destruct (decide (a + length t < length run)%nat) as [Hx|]; [|lia].
    destruct (Hin _ Hx) as (e & Ee & Hpe). rewrite (Hend e Ee) in Hpe. done. }
  assert (a = 0)%nat as ->.
  { destruct a as [|j]; [done|]. destruct (Hin j) as (e & Ee & Hpe); [lia|].
    rewrite (Hl j e eq_refl Ee) in Hpe. done. }
  split; [done|]. apply (list_eq_same_length _ _ (length t)); [lia|done|].
  intros i x y Hi E1 E2. specialize (Ht i Hi). rewrite E1 in Ht. simpl in Ht.
  rewrite lookup_app_l in Ht by lia. congruence.
Qed.

(** Behind it runs are those of the rest. *)
Lemma maximal_run_shift b t :
  maximal_run (run ++ c :: r) (length run + 1 + b) t <-> maximal_run r b t.
Proof.
  assert (forall j x, b = S j -> (run ++ c :: r) !! (length run + 1 + j)%nat = Some x <-> r !! j = Some x)
    as Hj by (intros; by rewrite shift_lookup).
  unfold maximal_run. split; intros (Hne & Hp & Ht & Hl & Hend); (split; [done|]); (split; [done|]).
  - split; [|split].
    + intros k Hk. rewrite <- shift_lookup, Nat.add_assoc. by apply Ht.
    + intros j x Ej Ex. apply (Hl (length run + 1 + j)%nat x); [lia|]. by rewrite shift_lookup.
    + intros x Ex. apply Hend. by rewrite <- Nat.add_assoc, shift_lookup.
  - split; [|split].
    + intros k Hk. rewrite <- Nat.add_assoc, shift_lookup. by apply Ht.
    + intros j x Ej Ex. destruct b as [|b].
      * rewrite list_lookup_middle in Ex by lia. by injection Ex as <-.
      * apply (Hl b x); [done|]. rewrite <- shift_lookup, <- Ex. f_equal. lia.
    + intros x Ex. rewrite <- Nat.add_assoc, shift_lookup in Ex. by apply Hend.
Qed.

Lemma maximal_run_split a t :
  maximal_run (run ++ c :: r) a t <->
  (run <> [] /\ a = 0%nat /\ t = run) \/
  exists b, a = (length run + 1 + b)%nat /\ maximal_run r b t.
Proof.
  split.
  - intros Hm. destruct (decide (a < length run)%nat) as [Hlt|Hge].
    + destruct (maximal_run_first a t Hm Hlt) as [-> ->]. left. by split; [apply Hm|].
    + right. exists (a - (length run + 1))%nat.
      assert (a <> length run) as Hne.
      { rewrite <- (Nat.add_0_r a). apply (maximal_run_avoids a t 0 Hm).
        destruct Hm as [Hn _]. destruct t; [done|simpl; lia]. }
      split; [lia|]. apply maximal_run_shift.
      by replace (length run + 1 + (a - (length run + 1)))%nat with a by lia.
  - intros [(Hne & -> & ->)|(b & -> & Hm)]; [|by apply maximal_run_shift].
    split; [done|]. split; [done|]. split; [intros k Hk; by rewrite lookup_app_l|]. split; [done|].
    intros x. simpl. rewrite list_lookup_middle by done. by intros [= <-].
Qed.
End Split.

Lemma maximal_run_whole run a t :
  printable run -> maximal_run run a t <-> run <> [] /\ a = 0%nat /\ t = run.
Proof.
  intros Hr. split.
  - intros Hm. assert (maximal_run (run ++ [0]) a t) as Hm'.
    { destruct Hm as (Hne & Hp & Ht & Hl & Hend). split; [done|]. split; [done|].
      assert (forall j x, (run ++ [0]) !! j = Some x -> run !! j = Some x \/ is_print x = false) as Hx.
      { intros j x [?|[_ Hs]]%lookup_app_Some; [by left|right].
        by apply list_lookup_singleton_Some in Hs as [_ <-]. }
      split; [|split].
      - intros k Hk. specialize (Ht k Hk). destruct (lookup_lt_is_Some_2 t k Hk) as [e Ee].
        rewrite Ee in *. by apply lookup_app_l_Some.
      - intros j x Ej [Ex|Ex]%Hx; [by eapply Hl|done].
      - intros x [Ex|Ex]%Hx; [by apply Hend|done]. }
    apply maximal_run_split in Hm' as [?|(b & _ & Hb)]; [done| |done|done].
    destruct Hb as (Hne & _ & Ht & _). destruct t as [|x t]; [done|].
    specialize (Ht 0%nat). simpl in Ht. exfalso. discriminate Ht. lia.
  - intros (Hne & -> & ->). split; [done|]. split; [done|]. split; [done|]. split; [done|].
    intros x Ex%lookup_lt_Some. simpl in Ex. lia.
Qed.

Definition wanted (needle : list Z) (min_len : Z) (t : list Z) : Prop :=
  min_len <= zlen t /\ (needle = [] \/ contains needle t = true).

Lemma search_flush_elem needle min_len start run a t :
  (a, t) ∈ search_flush needle min_len start run <->
  a = start /\ t = run /\ wanted needle min_len run.
Proof.
  unfold search_flush, wanted.
  destruct (Z.leb_spec min_len (zlen run)) as [Hm|Hm]; simpl.
  - destruct (bool_decide_reflect (needle = [])) as [Hn|Hn]; simpl.
    + rewrite list_elem_of_singleton. intuition congruence.
    + destruct (contains needle run).
      * rewrite list_elem_of_singleton. intuition congruence.
      * rewrite elem_of_nil. intuition congruence.
  - rewrite elem_of_nil. split; [done|]. intros (_ & -> & ? & _). lia.
Qed.

(** The loop, with a run of printable bytes carried over that began at
    [start]. *)
Lemma search_buf_spec needle min_len buf i start run a t :
  1 <= min_len -> printable run -> (length run <= i)%nat ->
  (run <> [] -> start = i - length run)%nat ->
  (a, t) ∈ search_buf needle min_len i start run buf <->
  exists b, a = (i - length run + b)%nat /\ maximal_run (run ++ buf) b t /\ wanted needle min_len t.
Proof.
  intros Hmin. revert i start run. induction buf as [|c r IH]; intros i start run Hr Hi Hs; cbn [search_buf].
  - rewrite search_flush_elem, app_nil_r. split.
    + intros (-> & -> & Hw). assert (run <> []) as Hne
        by (intros ->; destruct Hw as [Hw _]; change (zlen []) with 0 in Hw; lia).
      exists 0%nat. rewrite (Hs Hne), maximal_run_whole by done. split; [lia|]. done.
    + intros (b & -> & (Hne & -> & ->)%maximal_run_whole & Hw); [|done].
      rewrite (Hs Hne). split; [lia|done].
  - destruct (is_print c) eqn:Hc.
    + rewrite IH.
      * rewrite length_app, <- app_assoc. simpl.
        by replace (S i - (length run + 1))%nat with (i - length run)%nat by lia.
      * apply Forall_app. by repeat constructor.
      * rewrite length_app. simpl. lia.
      * intros _. rewrite length_app. simpl. destruct (bool_decide_reflect (run = [])) as [->|Hne].
        -- simpl. lia.
        -- rewrite (Hs Hne). lia.
    + rewrite elem_of_app, search_flush_elem, IH; [|apply Forall_nil_2|simpl; lia|done].
      setoid_rewrite maximal_run_split; [|done|done]. simpl. split.
      * intros [(-> & -> & Hw)|(b & -> & Hm & Hw)].
        -- assert (run <> []) as Hne
             by (intros ->; destruct Hw as [Hw _]; change (zlen []) with 0 in Hw; lia).
           exists 0%nat. split; [rewrite (Hs Hne); lia|]. split; [by left|done].
        -- exists (length run + 1 + b)%nat. split; [lia|]. split; [right; by exists b|done].
      * intros (b & -> & [(Hne & -> & ->)|(b' & -> & Hm)] & Hw).
        -- left. rewrite (Hs Hne). split; [lia|done].
        -- right. exists b'. split; [lia|done].
Qed.

(** For a positive minimum length, [search_strings] reports of a region
    exactly its maximal printable runs of at least that length that contain
    the needle, each at the address it has in the guest. *)
Lemma search_region_spec needle min_len r buf e :
  1 <= min_len ->
  e ∈ search_region needle min_len r buf <->
  exists a t, maximal_run buf a t /\ wanted needle min_len t /\
              e = mkFoundString (u64 (r_base r + Z.of_nat a)) t (r_label r).
Proof.
  intros Hmin. unfold search_region. rewrite list_elem_of_fmap. split.
  - intros ([a t] & -> & Hin). apply search_buf_spec in Hin as (b & -> & Hm & Hw);
      [|done|apply Forall_nil_2|simpl; lia|done]. by exists b, t.
  - intros (a & t & Hm & Hw & ->). exists (a, t). split; [done|].
    apply search_buf_spec; [done|apply Forall_nil_2|simpl; lia|done|]. by exists a.
Qed.

Lemma search_region_spec_witness :
  let r := mkRegion 0x1000 8 3 Heap "heap" false in
  search_region [] 2 r [0; 65; 66; 67; 10; 68; 0; 0] = [mkFoundString 0x1001 [65; 66; 67] "heap"] /\
  exists a t, maximal_run [0; 65; 66; 67; 10; 68; 0; 0] a t /\ wanted [] 2 t /\
    mkFoundString 0x1001 [65; 66; 67] "heap" = mkFoundString (u64 (0x1000 + Z.of_nat a)) t "heap".
Proof.
  intros r. assert (search_region [] 2 r [0; 65; 66; 67; 10; 68; 0; 0]
                    = [mkFoundString 0x1001 [65; 66; 67] "heap"]) as E by (vm_compute; reflexivity).
  split; [exact E|].
  apply (proj1 (search_region_spec [] 2 r [0; 65; 66; 67; 10; 68; 0; 0] _ ltac:(done))).
  rewrite E. by left.
Defined.

(** The harvested strings are the texts of a search without a needle. *)
Lemma harvest_is_search min_len i start run buf :
  harvest_buf min_len run buf = snd <$> search_buf [] min_len i start run buf.
Proof.
  assert (forall s u, harvest_flush min_len u = snd <$> search_flush [] min_len s u) as Hf.
  { intros s u. unfold harvest_flush, search_flush. simpl. rewrite andb_true_r. by destruct (_ <=? _). }
  revert i start run. induction buf as [|c r IH]; intros i start run; cbn [harvest_buf search_buf]; [done|].
  destruct (is_print c); [apply IH|]. rewrite fmap_app. by rewrite <- IH, <- Hf.
Qed.

(** A DEX whose size is not a multiple of four leaves the scan misaligned:
    the image right behind it, at the next aligned offset, is missed. *)
Definition demo_header (size : Z) : list Z :=
  bs "dex" ++ [10; 0x30; 0x33; 0x35; 0] ++ replicate 24 0 ++ le_bytes 4 size ++ le_bytes 4 0x70
  ++ le_bytes 4 0x12345678 ++ replicate 68 0.

Example misaligned_missed :
  let buf := demo_header 0x71 ++ [0; 0; 0; 0] ++ demo_header 0x70 in
  length (scan_region (mkRegion 0x1000 0 3 Heap "" false) buf) = 1%nat /\
  is_dex (drop 0x74 buf) = Some (0x70, bs "035").
Proof. vm_compute. split; reflexivity. Qed.

(** A minimum length of zero reports an empty string per unprintable byte, at
    a stale offset. *)
Example empty_runs : search_buf [] 0 0 0 [] [65; 0; 0] = [(0%nat, [65]); (0%nat, []); (0%nat, [])].
Proof. vm_compute. reflexivity. Qed.
