(* ===== verification/Beside.v ===== *)
(** An emulator with a state kept beside it.

    A part of the program that works on the memory manager or on the Java table
    may call back into code that changes more than that: the import resolver
    of the loader allocates stubs, a Java method in the host loads a DEX.  Run
    on the emulator [U * X], such a part carries the rest of the program
    through unchanged, and a callback can reach it. *)

From S2P Require Import Prelude.
From S2P Require Import Words.
From S2P Require Import Unicorn.
From S2P Require Import Memory.
From S2P Require Import Scheduler.
From S2P Require Import JavaRuntime.

Section Beside.
Context {U X : Type} `{UcOps U}.

Definition beside (x : X) (o : option U) : option (U * X) := (fun u => (u, x)) <$> o.

#[export] Instance beside_ops : UcOps (U * X) := {
  uc_mapped s := uc_mapped s.1;
  uc_mem_map s a n p := beside s.2 (uc_mem_map s.1 a n p);
  uc_mem_unmap s a n := beside s.2 (uc_mem_unmap s.1 a n);
  uc_mem_protect s a n p := beside s.2 (uc_mem_protect s.1 a n p);
  uc_mem_read s := uc_mem_read s.1;
  uc_mem_write s a l := beside s.2 (uc_mem_write s.1 a l);
  uc_reg_read s := uc_reg_read s.1;
  uc_reg_write s r v := (uc_reg_write s.1 r v, s.2);
}.

Lemma beside_Some x o (s : U * X) : beside x o = Some s -> o = Some s.1 /\ s.2 = x.
Proof. unfold beside. destruct o as [u|]; [|done]. by intros [= <-]. Qed.
End Beside.

(** The state beside does not show: the emulator keeps its laws. *)
#[export] Instance beside_laws {U X} `{UcLaws U} : UcLaws (U * X).
Proof.
  split; cbn; intros;
    repeat match goal with E : beside _ _ = Some _ |- _ => apply beside_Some in E as [E _] end;
    lazymatch goal with
    | |- is_Some (beside _ _) => apply fmap_is_Some; by eapply law_write_ok
    | |- is_Some _ => by eapply law_read_ok
    | E : uc_mem_map _ _ _ _ = Some _ |- 0 <= _ /\ _ => by eapply law_map_args
    | E : uc_mem_map _ _ _ _ = Some _ |- _ = false => by eapply law_map_free
    | E : uc_mem_map _ _ _ _ = Some _ |- uc_mapped _ _ = _ => by eapply law_map_mapped
    | E : uc_mem_map _ _ _ _ = Some _ |- _ => by eapply law_read_map
    | E : uc_mem_unmap _ _ _ = Some _ |- _ => by eapply law_unmap_mapped
    | E : uc_mem_protect _ _ _ _ = Some _ |- _ => by eapply law_protect_mapped
    | E : uc_mem_write _ _ _ = Some _ |- uc_mapped _ _ = _ => by eapply law_write_mapped
    | E : uc_mem_write _ _ _ = Some _ |- uc_reg_read _ _ = _ => by eapply law_reg_mem
    | E : uc_mem_write _ _ _ = Some _ |- uc_mem_read _ _ (zlen _) = Some _ => by eapply law_read_write
    | E : uc_mem_write _ _ _ = Some _ |- _ => by eapply law_read_write_ne
    | |- uc_mapped (uc_reg_write _ _ _) _ = _ => apply law_reg_mapped
    | |- uc_mem_read (uc_reg_write _ _ _) _ _ = _ => apply law_read_reg
    | |- uc_reg_read (uc_reg_write _ ?r _) ?r = _ => by apply law_reg_same
    | |- uc_reg_read (uc_reg_write _ _ _) _ = _ => by apply law_reg_other
    | E : uc_mem_read _ _ (_ + _) = Some _ |- _ /\ _ => by apply law_read_split
    | E : uc_mem_read _ _ _ = Some _ |- zlen _ = _ /\ _ => by eapply law_read_len
    | E : uc_mem_read _ _ _ = Some _ |- _ => by eapply law_read_mapped
    end.
Qed.

(** ** The components over another emulator *)

Definition map_mem {U V} (f : U -> V) (m : Memory U) : Memory V :=
  mkMemory (f (m_uc m)) (regions_ m) (lib_next_ m) (mmap_next_ m) (big_next_ m) (heap_next_ m) (heap_end_ m)
           (java_next_ m) (java_end_ m).

Section Over.
Context {U V : Type}.
Definition java_over {HM} (m : Memory V) (j : JavaRuntime U HM) : JavaRuntime V HM :=
  mkJava m (handles_ j) (class_by_name_ j) (superclass_ j) (member_cache_ j) (static_fields_ j)
         (field_defaults_ j) (host_methods_ j) (registered_ j) (pending_exc_ j).
Definition sched_over (m : Memory V) (s : Scheduler U) : Scheduler V :=
  mkScheduler m (threads_ s) (mutex_owner_ s) (cur_ s) (next_tid_ s) (rr_ s) (prefer_ s) (slice_us_ s)
              (hybrid_ s) (running_ s) (stop_ s) (stopping s).
End Over.

Lemma map_mem_id {U V} (f : U -> V) (g : V -> U) m : g (f (m_uc m)) = m_uc m -> map_mem g (map_mem f m) = m.
Proof. unfold map_mem. cbn. intros ->. by destruct m. Qed.
Lemma java_over_same {U HM} (j : JavaRuntime U HM) : java_over (j_mem j) j = j.
Proof. by destruct j. Qed.
Lemma sched_over_same {U} (s : Scheduler U) : sched_over (s_mem s) s = s.
Proof. by destruct s. Qed.

(** The map is as well formed over the one emulator as over the other. *)
Lemma mem_wf_beside {U X} `{UcOps U} (x : X) (m : Memory U) : mem_wf m -> mem_wf (map_mem (fun u => (u, x)) m).
Proof. intros []. by split. Qed.
Lemma mem_wf_alone {U X} `{UcOps U} (m : Memory (U * X)) : mem_wf m -> mem_wf (map_mem fst m).
Proof. intros []. by split. Qed.
