(* ===== verification/Vm.v ===== *)
(** One whole machine: [struct VM] of [core/py/vardoger_capi.cpp].

    The parts share one emulator and one memory map.  The model keeps the memory
    manager once, in the kernel under the stubs; the Java table and the
    scheduler are kept over no emulator and get it when they run.  A [View] is
    the state of one part with the machine beside its emulator, so that what
    the part calls back reaches all of it.  The page of stubs is shared by the C
    library, the JNI bridge and the client: [VCode] says whose a handler is.

    The client's callbacks, Unicorn running the guest, the host's files and its
    environment variables are one parameter, [Outside].  No debugger is
    attached and no instrumentation is switched on. *)

From stdpp Require Import strings.
From S2P Require Import Prelude.
From S2P Require Import Words.
From S2P Require Import Abi.
From S2P Require Import Unicorn.
From S2P Require Import Engine.
From S2P Require Import Memory.
From S2P Require Import Scheduler.
From S2P Require Import Trampoline.
From S2P Require Import JavaRuntime.
From S2P Require Import Jni.
From S2P Require Import Elf.
From S2P Require Import ElfLoader.
From S2P Require Import CText.
From S2P Require Import Vfs.
From S2P Require Import System.
From S2P Require Import Syscalls.
From S2P Require Import Libc.
From S2P Require Import Stubs.
From S2P Require Import StubRuntime.
From S2P Require Import StubZlib.
From S2P Require Import StubTable.
From S2P Require Import EnvMethods.
From S2P Require Import AndroidEnv.
From S2P Require Import ArtRuntime.
From S2P Require Import ArtBringup.
From S2P Require Import Beside.
#[local] Open Scope Z_scope.

(** Whose handler a stub of the page runs. *)
Inductive VCode := VStub (c : Stubs.Code) | VJni (f : JniFn) | VUser (i : nat).

(** Whose implementation a Java method has; a client's method gives an object
    or a number. *)
Inductive VHost := HEnv (f : EnvMethod) | HArt (f : ArtMethod) | HUser (returns_object : bool) (i : nat).

(** What [mv_map_art] leaves for the driver. *)
Record ArtInfo := mkArtInfo {
  art_so : option SoInfo;
  art_bias : Z;
  art_size : Z;
  art_runtime : Z;
  art_thread : Z;
  art_linker : ClassLinkerBringup;
}.
Definition no_art : ArtInfo := mkArtInfo None 0 0 0 0 no_linker.

(** The parts that run while the guest does. *)
Record Runtime (U ZS : Type) := mkRuntime {
  rt_engine : Engine (U := unit);
  rt_stubs : Stubs U ZS;                          (* its page in [rt_page] *)
  rt_page : list (string * VCode);
  rt_java : JavaRuntime unit VHost;
  rt_tables : Z * Z * Z * Z;                      (* [env_], [env_table_], [vm_], [vm_table_] *)
  rt_notified : list (list Z * jstring);          (* handed to [notify_bytes] *)
  rt_dexes : list Dex;
}.
Arguments mkRuntime {U ZS}. Arguments rt_engine {U ZS}. Arguments rt_stubs {U ZS}. Arguments rt_page {U ZS}.
Arguments rt_java {U ZS}. Arguments rt_tables {U ZS}. Arguments rt_notified {U ZS}. Arguments rt_dexes {U ZS}.

Record VM (U ZS : Type) := mkVM {
  vm_rt : Runtime U ZS;
  vm_id : DeviceIdentity;
  sp0 : Z;
  javavm : Z;
  graph : ContextGraph;
  sos : list SoInfo;
  vm_art : ArtInfo;
  g_err : string;
}.
Arguments mkVM {U ZS}. Arguments vm_rt {U ZS}. Arguments vm_id {U ZS}. Arguments sp0 {U ZS}. Arguments javavm {U ZS}.
Arguments graph {U ZS}. Arguments sos {U ZS}. Arguments vm_art {U ZS}. Arguments g_err {U ZS}.

Definition no_mem : Memory unit := mkMemory tt [] 0 0 0 0 0 0 0.

(** The world outside: environment variables, host files and functions, the
    emulator, and the client's callbacks by number. *)
Record Outside (U ZS : Type) := mkOutside {
  sys_env : Env;
  stub_env : StubEnv;
  legacy_malloc : bool;                           (* VARDOGER_LEGACY_MALLOC *)
  zlib_log : bool;
  low_lib_base : bool;                            (* VARDOGER_LOW_LIB_BASE *)
  no_main_thread : bool;                          (* VARDOGER_NO_MMAINTHREAD *)
  no_field_defaults : bool;                       (* VARDOGER_NO_FIELD_DEFAULTS *)
  art_env : bool;                                 (* VARDOGER_ART *)
  wx_flip : bool;                                 (* VARDOGER_WX, not empty *)
  art_runtime_env : bool;                         (* VARDOGER_ART_RUNTIME *)
  art_linker_env : bool;                          (* VARDOGER_ART_CLASSLINKER *)
  art_hookable : bool;                            (* VARDOGER_ART_HOOKABLE *)
  progname_env : option string;                   (* VARDOGER_PROGNAME, MINVM_PROGNAME: not empty *)
  entry_class_env : option (list Z);              (* VARDOGER_ENTRY_CLASS *)
  props_env : option (list Z);                    (* VARDOGER_PROPS *)
  no_vregs : bool;
  tolerate_fault : bool;
  quantum : Z;
  max_preempt : Z;
  slice_us : Z;
  hybrid : bool;
  zlib : Zlib ZS;
  host_pointer : Z -> list Z;
  host_strerror : Z -> list Z;
  host_fnmatch : list Z -> list Z -> Z -> Z;
  float_stub : string -> M (Stubs U ZS) unit;
  host_file : string -> option (list Z);
  emu_start : Z -> Z -> Z -> Z -> M (VM U ZS) uc_err;
  tramp_cb : nat -> M (VM U ZS) unit;
  method_cb : nat -> Z -> list Z -> M (VM U ZS) Z;
  method_observer : list Z -> list Z -> list Z -> list Z -> bool -> M (VM U ZS) unit;
}.
Arguments sys_env {U ZS}. Arguments stub_env {U ZS}. Arguments legacy_malloc {U ZS}. Arguments zlib_log {U ZS}.
Arguments low_lib_base {U ZS}. Arguments no_main_thread {U ZS}. Arguments no_field_defaults {U ZS}.
Arguments art_env {U ZS}. Arguments wx_flip {U ZS}. Arguments art_runtime_env {U ZS}. Arguments art_linker_env {U ZS}.
Arguments art_hookable {U ZS}. Arguments progname_env {U ZS}. Arguments entry_class_env {U ZS}.
Arguments props_env {U ZS}. Arguments no_vregs {U ZS}. Arguments tolerate_fault {U ZS}. Arguments quantum {U ZS}.
Arguments max_preempt {U ZS}. Arguments slice_us {U ZS}. Arguments hybrid {U ZS}. Arguments zlib {U ZS}.
Arguments host_pointer {U ZS}. Arguments host_strerror {U ZS}. Arguments host_fnmatch {U ZS}.
Arguments float_stub {U ZS}. Arguments host_file {U ZS}. Arguments emu_start {U ZS}. Arguments tramp_cb {U ZS}.
Arguments method_cb {U ZS}. Arguments method_observer {U ZS}.

Section Vm.
Context {U ZS : Type} `{UcOps U}.
#[local] Abbreviation V := (VM U ZS).
#[local] Abbreviation UV := (U * VM U ZS)%type.

(** ** The parts *)

Definition with_rt (f : Runtime U ZS -> Runtime U ZS) (v : V) : V :=
  mkVM (f (vm_rt v)) (vm_id v) (sp0 v) (javavm v) (graph v) (sos v) (vm_art v) (g_err v).
Definition with_engine (e : Engine) : V -> V := with_rt (fun r =>
  mkRuntime e (rt_stubs r) (rt_page r) (rt_java r) (rt_tables r) (rt_notified r) (rt_dexes r)).
Definition with_stubs (s : Stubs U ZS) : V -> V := with_rt (fun r =>
  mkRuntime (rt_engine r) s (rt_page r) (rt_java r) (rt_tables r) (rt_notified r) (rt_dexes r)).
Definition with_page (p : list (string * VCode)) : V -> V := with_rt (fun r =>
  mkRuntime (rt_engine r) (rt_stubs r) p (rt_java r) (rt_tables r) (rt_notified r) (rt_dexes r)).
Definition with_java_table (j : JavaRuntime unit VHost) : V -> V := with_rt (fun r =>
  mkRuntime (rt_engine r) (rt_stubs r) (rt_page r) j (rt_tables r) (rt_notified r) (rt_dexes r)).
Definition with_tables (t : Z * Z * Z * Z) : V -> V := with_rt (fun r =>
  mkRuntime (rt_engine r) (rt_stubs r) (rt_page r) (rt_java r) t (rt_notified r) (rt_dexes r)).
Definition with_notified (l : list (list Z * jstring)) : V -> V := with_rt (fun r =>
  mkRuntime (rt_engine r) (rt_stubs r) (rt_page r) (rt_java r) (rt_tables r) l (rt_dexes r)).
Definition with_dexes (l : list Dex) : V -> V := with_rt (fun r =>
  mkRuntime (rt_engine r) (rt_stubs r) (rt_page r) (rt_java r) (rt_tables r) (rt_notified r) l).
Definition with_id (id : DeviceIdentity) (v : V) : V :=
  mkVM (vm_rt v) id (sp0 v) (javavm v) (graph v) (sos v) (vm_art v) (g_err v).
Definition with_sp0 (a : Z) (v : V) : V :=
  mkVM (vm_rt v) (vm_id v) a (javavm v) (graph v) (sos v) (vm_art v) (g_err v).
Definition with_javavm (a : Z) (v : V) : V :=
  mkVM (vm_rt v) (vm_id v) (sp0 v) a (graph v) (sos v) (vm_art v) (g_err v).
Definition with_graph (g : ContextGraph) (v : V) : V :=
  mkVM (vm_rt v) (vm_id v) (sp0 v) (javavm v) g (sos v) (vm_art v) (g_err v).
Definition with_sos (l : list SoInfo) (v : V) : V :=
  mkVM (vm_rt v) (vm_id v) (sp0 v) (javavm v) (graph v) l (vm_art v) (g_err v).
Definition with_art (a : ArtInfo) (v : V) : V :=
  mkVM (vm_rt v) (vm_id v) (sp0 v) (javavm v) (graph v) (sos v) a (g_err v).
Definition with_err (e : string) (v : V) : V :=
  mkVM (vm_rt v) (vm_id v) (sp0 v) (javavm v) (graph v) (sos v) (vm_art v) e.

Definition vm_stubs (v : V) : Stubs U ZS := rt_stubs (vm_rt v).
Definition vm_mem (v : V) : Memory U := k_mem (st_kernel (vm_stubs v)).
Definition put_mem (m : Memory U) (v : V) : V :=
  with_stubs (with_kernel (vm_stubs v) (Syscalls.with_mem (st_kernel (vm_stubs v)) m)) v.

(** The names, their page filled in or left out. *)
Definition names_on (base next : Z) (codes : list (string * Stubs.Code)) (n : Names) : Names :=
  mkNames (by_name_ n) base next codes (progname_cell_ n) (progname_str_ n) (progname_fn_ n).
Definition vm_names (v : V) : Names := st_names (vm_stubs v).
(** What the stubs see of the page: to a handler of another part they only
    append. *)
Definition as_stub (c : VCode) : Stubs.Code := match c with VStub c => c | _ => CMissing "" end.
Definition stubs_of (v : V) : Stubs U ZS :=
  let n := vm_names v in
  with_names (vm_stubs v)
    (names_on (tramp_base n) (tramp_next n) ((fun '(nm, c) => (nm, as_stub c)) <$> rt_page (vm_rt v)) n).
Definition put_stubs (s : Stubs U ZS) (v : V) : V :=
  let n := st_names s in
  let page := rt_page (vm_rt v) in
  with_page (page ++ ((fun '(nm, c) => (nm, VStub c)) <$> drop (length page) (tramp_codes n)))
    (with_stubs (with_names s (names_on (tramp_base n) (tramp_next n) (tramp_codes (vm_names v)) n)) v).
Definition on_stubs {A} (op : M (Stubs U ZS) A) : M V A := fun v =>
  let '(r, s) := op (stubs_of v) in (r, put_stubs s v).
Definition vm_kernel {A} (op : M (Kernel U) A) : M V A := on_stubs (on_kernel op).
Definition vm_device {A} (op : M System A) : M V A := on_stubs (on_device op).

(** ** Views *)

Class View (S : Type) := { split : V -> S; join : S -> V }.
(** An operation of the part run by the machine, and one of the machine called
    back by the part. *)
Definition on_view {S A} `{View S} (op : M S A) : M V A := fun v =>
  let '(r, s) := op (split v) in (r, join s).
Definition in_view {S A} `{View S} (op : M V A) : M S A := fun s =>
  let '(r, v) := op (join s) in (r, split v).

Definition split_mem (v : V) : Memory UV := map_mem (fun u => (u, v)) (vm_mem v).
Definition join_mem (m : Memory UV) : V := put_mem (map_mem fst m) (m_uc m).2.
#[export] Instance mem_view : View (Memory UV) := {| split := split_mem; join := join_mem |}.

#[export] Instance java_view : View (JavaRuntime UV VHost) := {|
  split v := java_over (split_mem v) (rt_java (vm_rt v));
  join j := with_java_table (java_over no_mem j) (join_mem (j_mem j));
|}.

#[export] Instance page_view : View (Trampoline UV VCode) := {|
  split v := let n := vm_names v in
    mkTrampoline (m_uc (vm_mem v), v) (tramp_base n) (tramp_next n) (rt_page (vm_rt v));
  join t := let v := put_mem (with_m_uc (vm_mem (tr_uc t).2) (tr_uc t).1) (tr_uc t).2 in
    with_page (handlers_ t)
      (with_stubs (with_names (vm_stubs v) (names_on (base_ t) (next_ t) (tramp_codes (vm_names v)) (vm_names v))) v);
|}.

(** Of the flags [Engine::run] reads, those it does not change itself are the
    machine's: a callback's change counts from the next run on. *)
#[export] Instance engine_view : View (@Engine UV) := {|
  split v := let e := rt_engine (vm_rt v) in
    mkEngine (m_uc (vm_mem v), v) (in_emu_ e) (wx_ e) (write_prot_flip_ e) (write_prot_lo_ e) (write_prot_hi_ e);
  join e := let v := put_mem (with_m_uc (vm_mem (es_uc e).2) (es_uc e).1) (es_uc e).2 in
    with_engine (with_in_emu (rt_engine (vm_rt v)) (in_emu_ e)) v;
|}.
(** The guest runs with [in_emu_] set. *)
Definition in_emulation {A} (op : M V A) : M UV A := fun '(u, v) =>
  let v := put_mem (with_m_uc (vm_mem v) u) v in
  let '(r, v) := op (with_engine (with_in_emu (rt_engine (vm_rt v)) true) v) in (r, (m_uc (vm_mem v), v)).

(** The scheduler is there once [set_scheduler] was called. *)
Definition split_sched (v : V) : option (Scheduler UV) :=
  (fun c => sched_over (split_mem v) c) <$> st_sched (vm_stubs v).
Definition join_sched (c : Scheduler UV) : V :=
  let v := join_mem (s_mem c) in with_stubs (with_sched (vm_stubs v) (Some (sched_over (vm_mem v) c))) v.
Definition on_scheduler {A} (op : M (Scheduler UV) A) : M V A := fun v =>
  match split_sched v with
  | Some c => let '(r, c) := op c in (r, join_sched c)
  | None => (UB, v)
  end.
Definition in_scheduler {A} (op : M V A) : M (Scheduler UV) A := fun c =>
  let '(r, v) := op (join_sched c) in
  match split_sched v with Some c => (r, c) | None => (UB, c) end.

(** The bridge, what it hands to [notify_bytes] appended. *)
Definition on_bridge {A} (op : M (JniBridge UV VHost VCode) A) : M V A := fun v =>
  let n := vm_names v in let '(e, et, w, wt) := rt_tables (vm_rt v) in
  let '(r, b) := op (mkJni (split v) (tramp_base n) (tramp_next n) (rt_page (vm_rt v)) e et w wt []) in
  let v := join (jb_java b) in
  (r, with_notified (rt_notified (vm_rt v) ++ notified b)
        (with_tables (env_ b, env_table_ b, vm_ b, vm_table_ b)
          (with_page (jb_handlers b)
            (with_stubs (with_names (vm_stubs v) (names_on (jb_base b) (jb_next b) (tramp_codes (vm_names v)) (vm_names v))) v)))).

Definition on_art {A} (op : M (ArtRuntime UV VHost) A) : M V A := fun v =>
  let '(r, a) := op (mkArt (split v) (rt_dexes (vm_rt v)) []) in
  let v := join (a_java a) in
  (r, with_dexes (dexes_ a) (with_notified (rt_notified (vm_rt v) ++ a_notified a) v)).

(** ** Callbacks *)

Variable abi : Abi.
Variable o : Outside U ZS.
#[local] Abbreviation tight := (heap_tight (sys_env o)).

(** An argument as the client gets it. *)
Definition arg_word (v : DvmValue) : Z := match v with DObject h => s64 h | _ => i_of v end.
Definition c_str (l : list Z) : list Z := fst (cut 0 l).

Definition run_method (m : VHost) (self : Z) (a : list DvmValue) : M V DvmValue :=
  match m with
  | HEnv f => on_view (env_run (HM := VHost) (props_env o) f self a)
  | HArt f => on_art (art_run f self a)
  | HUser ro i =>
      r ← method_cb o i self (arg_word <$> a);
      mret (if ro then DObject (u64 r) else DInt r)
  end.
Definition java_host (m : VHost) (self : Z) (a : list DvmValue) : M (JavaRuntime UV VHost) DvmValue :=
  in_view (run_method m self a).
Definition java_observe (owner name sig : jstring) (a : list DvmValue) (handled : bool) :
    M (JavaRuntime UV VHost) unit :=
  in_view (method_observer o (c_str owner) (c_str name) (c_str sig) (arg_word <$> a) handled).

(** The first library, in load order, that exports the name. *)
Fixpoint sibling (l : list SoInfo) (n : list Z) : Z :=
  match l with
  | [] => 0
  | so :: r => let a := lookup_sym (exports so) n in if a =? 0 then sibling r n else a
  end.
(** What [dlsym] asks: the libraries, and libart once it is mapped. *)
Definition lib_resolver (v : V) : option (string -> M (Stubs U ZS) Z) := Some (fun n => mret (sibling (sos v) (bs n))).
Definition dlsym_provider (v : V) : option (string -> M (Stubs U ZS) Z) :=
  (fun so n => mret (lookup_sym (exports so) (bs n))) <$> art_so (vm_art v).

Definition invoke (c : VCode) : M V unit :=
  match c with
  | VStub c =>
      v ← get;
      on_stubs (run_code abi tight (legacy_malloc o) (zlib_log o) (stub_env o) (sys_env o) None true
                  (dlsym_provider v) (lib_resolver v) (zlib o) (host_pointer o) (host_strerror o)
                  (host_fnmatch o) (float_stub o) c)
  | VJni f => on_bridge (jni_run abi tight (negb (no_tamper_evasion (stub_env o))) java_observe java_host f)
  | VUser i => tramp_cb o i
  end.

(** The interrupt hook: a stub of the page, or else a system call. *)
Definition page_dispatch : M V bool := on_view (Trampoline.dispatch abi (fun c => in_view (invoke c))).
Definition on_interrupt : M V unit :=
  b ← page_dispatch;
  if b : bool then skip else vm_kernel (Syscalls.dispatch abi (sys_env o) None).

(** ** Running guest code *)

Definition guest (start until timeout_us count : Z) : M UV uc_err := in_emulation (emu_start o start until timeout_us count).
Definition no_page_cb (page : Z) : M UV unit := skip.
Definition no_error_cb (err : uc_err) (pc : Z) : M UV unit := skip.
Definition vm_engine_run (start until timeout_us count : Z) : M V unit :=
  on_view (Engine.run abi guest no_page_cb no_error_cb start until timeout_us count).
(** [sched.run(fn, args)]; [None] is a run of more than [fuel] slices. *)
Definition sched_run (fuel : nat) (fn : Z) (args : list Z) : M V (option Z) :=
  on_scheduler (Scheduler.run (no_vregs o) (quantum o) (max_preempt o) (tolerate_fault o)
                  (fun a b c d => in_scheduler (vm_engine_run a b c d)) fuel fn args).

(** ** Imports *)

(** Our stubs, then the libraries already loaded, then a stub that logs. *)
Definition import_resolver (n : list Z) : M V Z :=
  v ← get;
  let a := known (vm_stubs v) (text n) in
  if negb (a =? 0) then mret a else
  let a := sibling (sos v) n in
  if negb (a =? 0) then mret a else
  on_stubs (resolve abi (no_dalvik_null (stub_env o)) (text n)).

(** [ElfLoader::load] *)
Definition after_last (l : list Z) (seps : list Z) : list Z :=
  foldl (fun acc c => if bool_decide (c ∈ seps) then [] else acc ++ [c]) [] l.
Definition load_so (path : string) : M V SoInfo :=
  match host_file o path with
  | None => throw ("ELF: cannot open " +:+ path)
  | Some data =>
      on_view (load_bytes (Some (fun n => in_view (import_resolver n))) data (text (after_last (bs path) [47; 92])))
  end.

(** ** The constructor *)

Definition default_graph : ContextGraphOptions :=
  mkOptions "dalvik/system/PathClassLoader" "android/app/Application" false.
Definition init_vm (id : DeviceIdentity) (u : U) : V :=
  mkVM (mkRuntime (mkEngine tt false false false 0 0)
          (mkStubs (mkKernel (init_memory abi (low_lib_base o) u) (init_system id false false) 0 ∅ false [] false [])
             init_cells None init_linker init_threads init_files init_names ∅)
          [] (init_java no_mem) (0, 0, 0, 0) [] [])
       id 0 0 (mkGraph 0 0 0 0 0 0) [] no_art "".

(** [stubs.set_scheduler(sched)], a scheduler as it is made. *)
Definition set_scheduler : M V unit := modify (fun v =>
  with_stubs (with_sched (vm_stubs v)
    (Some (mkScheduler (vm_mem v) ∅ ∅ 0 1 0 0 (slice_us o) (hybrid o) false SNone false))) v).
Definition put_progname (p : string) : M V unit :=
  _ ← on_stubs (Stubs.set_progname abi p); vm_device (System.set_progname p).
Definition observe_writes : M System unit := modify (fun s => let f := vfs_ s in
  with_vfs s (mkVfs (store_ f) (dirs_ f) (handles_ f) (next_fd_ f) true (observed f))).

Definition machine : M V unit :=
  _ ← on_view reserve_page;
  sp ← on_view (setup_stack abi kStackSize);
  _ ← modify (with_sp0 sp);
  _ ← on_view (setup_tls abi);
  on_stubs (register_defaults abi tight (legacy_malloc o) (zlib_log o) (stub_env o) (sys_env o) None true
              None None (zlib o) (host_pointer o) (host_strerror o) (host_fnmatch o) (float_stub o)).
Definition java_side (id : DeviceIdentity) : M V unit :=
  _ ← on_view (register_android_hierarchy (HM := VHost));
  j ← on_bridge (Jni.build abi VJni);
  _ ← modify (with_javavm j);
  _ ← on_view (android_env HEnv id);
  _ ← (if art_env o then on_art (ArtRuntime.install HArt) else skip);
  _ ← modify (fun v => let e := rt_engine (vm_rt v) in
        if wx_flip o then with_engine (snd (set_wx true e)) v else v);
  g ← on_view (build_context_graph HEnv (no_main_thread o) (no_field_defaults o) id default_graph);
  modify (with_graph g).
Definition construct (id : DeviceIdentity) : M V unit :=
  _ ← machine;
  _ ← put_progname (default (package_name id) (progname_env o));
  _ ← set_scheduler;
  _ ← java_side id;
  _ ← on_stubs (register_system abi tight (legacy_malloc o) (zlib_log o) (stub_env o) (sys_env o) None true
                  None None (zlib o) (host_pointer o) (host_strerror o) (host_fnmatch o) (float_stub o));
  vm_device observe_writes.
End Vm.
