(* ===== verification/Capi.v ===== *)
(** The flat C interface over one machine: the [mv_] functions of
    [core/py/vardoger_capi.cpp].

    A caller's buffer is the list of its bytes from the pointer on; writing past
    its end is undefined.  A list of callback invocations is returned in place
    of the callback.  Functions whose body is a [try] block are [guarded];
    the others let an exception out.  Registering hooks with Unicorn and the
    debugger's functions are not modelled. *)

From stdpp Require Import strings.
From S2P Require Import Prelude.
From S2P Require Import Words.
From S2P Require Import Abi.
From S2P Require Import Unicorn.
From S2P Require Import Engine.
From S2P Require Import Memory.
From S2P Require Import Scheduler.
From S2P Require Import Trampoline.
From S2P Require Import JavaRuntime.
From S2P Require Import Jni.
From S2P Require Import Elf.
From S2P Require Import ElfLoader.
From S2P Require Import DexFile.
From S2P Require Import Dalvik.
From S2P Require Import Lifecycle.
From S2P Require Import CText.
From S2P Require Import Vfs.
From S2P Require Import System.
From S2P Require Import Syscalls.
From S2P Require Import Stubs.
From S2P Require Import InstallPaths.
From S2P Require Import EnvMethods.
From S2P Require Import AndroidEnv.
From S2P Require Import ArtRuntime.
From S2P Require Import ArtBringup.
From S2P Require Import Extractor.
From S2P Require Import Beside.
From S2P Require Import Vm.
#[local] Open Scope Z_scope.

(** ** A caller's buffers *)

(** [memcpy(out, l, n)] at the start of a buffer. *)
Definition fill (out l : list Z) : outcome (list Z) :=
  if (length l <=? length out)%nat then Ret (l ++ drop (length l) out) else UB.
(** [memcpy] of the first [n] bytes of [s], and a NUL. *)
Definition put_text (s : list Z) (n : Z) (out : list Z) : outcome (list Z) :=
  l ← or_ub (if n <? 0 then None else slice s 0 (Z.to_nat n)); fill out (l ++ [0]).
(** [copy_out]: the buffer, and the full length. *)
Definition copy_out (s out : list Z) (cap : Z) : outcome (list Z * Z) :=
  let size := s32 (zlen s) in
  if 0 <? cap then out' ← put_text s (Z.min (cap - 1) size) out; Ret (out', size) else Ret (out, size).
(** The same without a look at [cap], as [mv_read_cstr], [mv_describe] and
    [mv_string_of] have it. *)
Definition text_out (s out : list Z) (cap : Z) : outcome (list Z * Z) :=
  let size := s32 (zlen s) in
  out' ← put_text s (Z.min (cap - 1) size) out; Ret (out', size).

Section Capi.
Context {U ZS : Type} `{UcOps U}.
#[local] Abbreviation V := (VM U ZS).
#[local] Abbreviation UV := (U * VM U ZS)%type.
Variable abi : Abi.
Variable o : Outside U ZS.
#[local] Abbreviation tight := (heap_tight (sys_env o)).

(** [try { m } catch (const std::exception& ex) { g_err = ex.what(); return d; }] *)
Definition guarded {A} (d : A) (m : M V A) : M V A := fun v =>
  match m v with (Throw e, v') => (Ret d, with_err e v') | r => r end.
(** [try { m } catch (...) { return d; }] *)
Definition quietly {A} (d : A) (m : M V A) : M V A := try_catch m (mret d).

Definition on_cpu {A} (op : M UV A) : M V A := on_view (uc_do op).
Definition on_jrt {A} (op : M (JavaRuntime UV VHost) A) : M V A := on_view op.
Definition jrt : M V (JavaRuntime UV VHost) := gets split.
Definition add_vfs (path : string) (l : list Z) : M V unit := vm_device (on_vfs (add_file path l)).
Definition add_vfs_dir (path : string) : M V unit := vm_device (on_vfs (add_dir path)).

(** ** Loading *)

(** [e_phoff] and [e_phnum], where a 64-bit file has them. *)
Definition phdr_fields (so : SoInfo) : M V (Z * Z) :=
  phoff ← on_cpu (read_t 8 (u64 (load_bias so + 32)));
  phnum ← on_cpu (read_t 2 (u64 (load_bias so + 56)));
  mret (phoff, phnum).
Definition place_name (guest_path label : string) : M V Z :=
  name ← on_view (mmap_alloc (Z.of_nat (String.length guest_path) + 1) UC_PROT_RW label);
  _ ← on_cpu (e_write name (bs guest_path ++ [0]));
  mret name.
Definition register_phdrs (so : SoInfo) (fields : Z * Z) (name : Z) : M V unit :=
  on_stubs (register_phdr_lib (load_bias so) (u64 (load_bias so + fields.1)) fields.2 name).

Definition files_dirs (pkg : string) : list string :=
  ["/data/data/" +:+ pkg +:+ "/files"; "/data/user/0/" +:+ pkg +:+ "/files"].
Fixpoint serve_in (libname : string) (l : list Z) (dirs : list string) : M V unit :=
  match dirs with
  | [] => skip
  | d :: r => _ ← add_vfs (d +:+ "/" +:+ libname) l; _ ← add_vfs_dir d; serve_in libname l r
  end.

Definition load_body (path : string) : M V Z :=
  so ← load_so abi o path;
  v ← get;
  let libname := text (after_last (bs path) [47]) in
  let lib_path := native_lib_dir (vm_id v) +:+ "/" +:+ libname in
  name ← place_name lib_path "soname";
  fields ← phdr_fields so;
  _ ← register_phdrs so fields name;
  let sob := default [] (host_file o path) in
  _ ← add_vfs lib_path sob;
  _ ← serve_in libname sob (files_dirs (package_name (vm_id v)));
  _ ← modify (fun v => with_sos (sos v ++ [so]) v);
  gets (fun v => s32 (u64 (zlen (sos v) - 1))).
Definition mv_load (path : string) : M V Z := guarded (-1) (load_body path).

Definition set_art (f : ArtInfo -> ArtInfo) : M V unit := modify (fun v => with_art (f (vm_art v)) v).
Definition art_guest : string := "/apex/com.android.art/lib64/libart.so".
(** Bring-up of the Runtime, the Thread and the ClassLinker, as asked for. *)
Definition art_runtime_up (bias : Z) (lib : list Z) : M V unit :=
  if negb (art_runtime_env o || art_linker_env o) then skip else
  r ← on_view (art_init_runtime tight bias lib);
  _ ← set_art (fun a => mkArtInfo (art_so a) (art_bias a) (art_size a) r (art_thread a) (art_linker a));
  t ← on_view (art_init_thread tight abi bias lib);
  set_art (fun a => mkArtInfo (art_so a) (art_bias a) (art_size a) (art_runtime a) t (art_linker a)).
Definition art_linker_up (bias : Z) (lib : list Z) : M V unit :=
  v ← get;
  let rt := art_runtime (vm_art v) in
  if negb (art_linker_env o) || (rt =? 0) then skip else
  cl ← on_view (art_init_classlinker tight abi bias lib rt);
  set_art (fun a => mkArtInfo (art_so a) (art_bias a) (art_size a) (art_runtime a) (art_thread a) cl).

Definition map_art_body (base : string) : M V Z :=
  let path := base +:+ "/libart.so" in
  so ← load_so abi o path;
  _ ← set_art (fun a => mkArtInfo (Some so) (art_bias a) (art_size a) (art_runtime a) (art_thread a) (art_linker a));
  let ab := default [] (host_file o path) in
  _ ← add_vfs art_guest ab;
  _ ← add_vfs "/system/lib64/libart.so" ab;
  fields ← phdr_fields so;
  name ← place_name art_guest "artname";
  _ ← register_phdrs so fields name;
  _ ← set_art (fun a => mkArtInfo (art_so a) (load_bias so) (so_size so) (art_runtime a) (art_thread a) (art_linker a));
  _ ← on_view (art_init_locks tight (load_bias so) ab);
  _ ← art_runtime_up (load_bias so) ab;
  _ ← art_linker_up (load_bias so) ab;
  _ ← modify (fun v => let e := rt_engine (vm_rt v) in
        if art_hookable o && negb (so_size so =? 0)
        then with_engine (snd (set_write_prot_flip (load_bias so) (u64 (load_bias so + so_size so)) e)) v else v);
  mret 0.
Definition mv_map_art (base : string) : M V Z := guarded (-1) (map_art_body base).

Definition art_get (f : ArtInfo -> Z) : M V Z := gets (fun v => f (vm_art v)).
Definition mv_art_bias : M V Z := art_get art_bias.
Definition mv_art_runtime : M V Z := art_get art_runtime.
Definition mv_art_thread : M V Z := art_get art_thread.
Definition mv_art_classlinker : M V Z := art_get (fun a => class_linker (art_linker a)).
Definition mv_art_heap : M V Z := art_get (fun a => l_heap (art_linker a)).
Definition mv_art_linear_alloc : M V Z := art_get (fun a => linear_alloc (art_linker a)).
Definition mv_art_intern_table : M V Z := art_get (fun a => intern_table (art_linker a)).
Definition mv_art_classlinker_off : M V Z := art_get (fun a => class_linker_off (art_linker a)).

(** ** Loaded libraries *)

Definition so_at (i : Z) : M V (option SoInfo) :=
  gets (fun v => if (0 <=? i) && (i <? s32 (zlen (sos v))) then sos v !! Z.to_nat i else None).
Definition so_get (f : SoInfo -> Z) (i : Z) : M V Z := s ← so_at i; mret (match s with Some s => f s | None => 0 end).
Definition mv_so_bias : Z -> M V Z := so_get load_bias.
Definition mv_so_size : Z -> M V Z := so_get so_size.
Definition mv_so_jni_onload : Z -> M V Z := so_get jni_onload.
Definition mv_so_init : Z -> M V Z := so_get init.
Definition mv_so_lookup (i : Z) (name : list Z) : M V Z := so_get (fun s => lookup_sym (exports s) name) i.
(** The words written, and the number there are. *)
Definition mv_so_init_array (i : Z) (out : list Z) (cap : Z) : M V (list Z * Z) :=
  s ← so_at i;
  match s with
  | None => mret (out, 0)
  | Some s =>
      let n := s32 (zlen (init_array s)) in
      out' ← lift (fill out (take (Z.to_nat (Z.min cap n)) (init_array s)));
      mret (out', n)
  end.

(** ** Execution *)

Definition mv_run_init (i : Z) : M V unit :=
  s ← so_at i;
  match s with
  | None => skip
  | Some s => guarded tt (on_view (ElfLoader.run_init abi (guest o) no_page_cb no_error_cb s))
  end.

(** What [run] gets of the caller's [nargs] words: eight at most. *)
Definition call_args (args : list Z) (nargs : Z) : outcome (list Z) :=
  if nargs <? 0 then Throw "cannot create std::vector larger than max_size()" else
  l ← or_ub (slice args 0 (Z.to_nat nargs)); Ret (take 8 l).
(** [None] is a run of more than [fuel] slices. *)
Definition mv_call (fuel : nat) (fn : Z) (args : list Z) (nargs : Z) : M V (option Z) :=
  guarded (Some 0) (
    v ← get;
    _ ← on_cpu (write_reg abi Sp (sp0 v));
    a ← lift (call_args args nargs);
    sched_run abi o fuel fn a).

(** The driver of the stub's own bytecode; a native that needs more than
    [fuel] slices counts as one that does not come back. *)
Definition native_call (fuel : nat) (fn : Z) (args : list Z) : M V Z :=
  r ← sched_run abi o fuel fn args;
  match r with Some v => mret v | None => lift UB end.
(** The driver's run, what it hands to [notify_bytes] after what the natives
    it ran did. *)
Definition on_driver {A} (op : M (DState (LWorld UV VHost)) A) : M V A := fun v =>
  let '(r, s) := op (mkDState 0 (mkLWorld (split v) [] [] [])) in
  let v' := join (lw_java (world s)) in
  (r, with_notified (rt_notified (vm_rt v') ++ lw_notified (world s)) v').
Definition stub_app : list Z := bs "com.stub.StubApp".
Definition mv_run_lifecycle (fuel nest : nat) (dex class_desc : list Z) (app ctx : Z) : M V Z :=
  guarded (-1) (
    let '(_, x) := parse empty_dex dex in
    v ← get;
    let '(env, _, _, _) := rt_tables (vm_rt v) in
    let cls := if bool_decide (class_desc = []) then stub_app else class_desc in
    _ ← on_driver (run_lifecycle x env true (default stub_app (entry_class_env o)) (java_observe o) (java_host o)
                 (fun fn args => Lifecycle.on_jrt (in_view (native_call fuel fn args))) None nest cls
                 (if app =? 0 then g_application (graph v) else app)
                 (if ctx =? 0 then context (graph v) else ctx));
    mret 0).

(** ** Configuration *)

Definition mv_set_property (k v : string) : M V unit := vm_device (set_property k v).
Definition mv_set_progname (name : option string) : M V unit := put_progname abi (default ""%string name).
(** A negative length is an empty certificate; the method is registered anew. *)
Definition mv_set_signing_cert (der : list Z) (n : Z) : M V unit :=
  cert ← lift (or_ub (slice der 0 (Z.to_nat n)));
  _ ← modify (fun v => with_id (with_cert (vm_id v) cert) v);
  on_jrt (register_method (bs "toByteArray") (HEnv (EBytes cert))).
Definition mv_set_now_unix (t : Z) : M V unit := vm_device (set_now_unix t).
Definition mv_vfs_add (guest : string) (data : list Z) (n : Z) : M V unit :=
  l ← lift (or_ub (slice data 0 (Z.to_nat n))); add_vfs guest l.
Definition mv_jni_env : M V Z := gets (fun v => let '(e, _, _, _) := rt_tables (vm_rt v) in e).
Definition mv_java_vm : M V Z := gets javavm.
Definition mv_app_object : M V Z := gets (fun v => g_application (graph v)).
Definition mv_context_object : M V Z := gets (fun v => context (graph v)).
Definition path_out (f : DeviceIdentity -> string) (out : list Z) (cap : Z) : M V (list Z * Z) :=
  v ← get; lift (copy_out (bs (f (vm_id v))) out cap).
Definition mv_apk_path := path_out apk_path.
Definition mv_data_dir := path_out data_dir.
Definition mv_native_lib_dir := path_out native_lib_dir.

(** ** Memory and registers *)

Definition mv_read (addr : Z) (out : list Z) (n : Z) : M V (list Z * Z) :=
  v ← get;
  if negb (is_mapped (regions_ (vm_mem v)) addr) then mret (out, 0) else
  quietly (out, 0) (l ← on_cpu (e_read addr n); out' ← lift (fill out l); mret (out', s32 n)).
Definition mv_write (addr : Z) (data : list Z) (n : Z) : M V unit :=
  l ← lift (or_ub (slice data 0 (Z.to_nat n))); quietly tt (on_cpu (e_write addr l)).
Definition mv_heap_alloc (n : Z) : M V Z := on_view (heap_alloc tight (if n =? 0 then 8 else n) 16).
Definition mv_read_u64 (addr : Z) : M V Z := quietly 0 (on_cpu (read_t 8 addr)).
Definition mv_write_u64 (addr w : Z) : M V unit := quietly tt (on_cpu (write_t 8 addr w)).
Definition mv_read_reg (r : ucreg) : M V Z := on_cpu (read_uc_reg r).
Definition mv_write_reg (r : ucreg) (w : Z) : M V unit := on_cpu (write_uc_reg r w).
Definition mv_read_cstr (addr : Z) (out : list Z) (cap : Z) : M V (list Z * Z) :=
  v ← get; lift (text_out (read_cstr addr 4096 (m_uc (vm_mem v))) out cap).
Definition mv_describe (addr : Z) (out : list Z) (cap : Z) : M V (list Z * Z) :=
  v ← get; lift (text_out (bs (describe (regions_ (vm_mem v)) addr)) out cap).
Definition mv_is_mapped (addr : Z) : M V Z :=
  gets (fun v => if is_mapped (regions_ (vm_mem v)) addr then 1 else 0).
Definition mv_regions : M V (list (Z * Z * Z * string)) :=
  gets (fun v => (fun r => (r_base r, r_size r, r_prot r, r_label r)) <$> regions_ (vm_mem v)).

(** A stub whose handler is the client's. *)
Definition mv_alloc_trampoline (i : nat) (name : option string) : M V Z :=
  on_view (Trampoline.alloc abi (default "py_stub"%string name) (VUser i)).

(** ** Java objects *)

(** [std::vector(p, p + n)] *)
Definition client_vector (l : list Z) (n : Z) : outcome (list Z) :=
  if n <? 0 then Throw "cannot create std::vector larger than max_size()" else or_ub (slice l 0 (Z.to_nat n)).
Definition mv_new_string (s : list Z) : M V Z := on_jrt (new_string_utf s).
Definition mv_new_byte_array (data : list Z) (n : Z) : M V Z :=
  l ← lift (client_vector data n); on_jrt (new_byte_array l).
Definition mv_new_object_array (l : list Z) (n : Z) : M V Z :=
  l ← lift (client_vector l n); on_jrt (new_object_array l).
Definition mv_find_class (name : list Z) : M V Z := quietly 0 (on_jrt (find_class name)).
Definition mv_new_object (cls : list Z) : M V Z := quietly 0 (on_jrt (new_object cls)).
Definition mv_register_method (name : list Z) (i : nat) (returns_object : Z) : M V unit :=
  on_jrt (register_method name (HUser (negb (returns_object =? 0)) i)).
Definition mv_string_of (h : Z) (out : list Z) (cap : Z) : M V (list Z * Z) :=
  j ← jrt;
  match string_of j h with
  | Some s => lift (text_out s out cap)
  | None => out' ← lift (if cap =? 0 then Ret out else fill out [0]); mret (out', -1)
  end.
Definition mv_set_field_obj (obj : Z) (name : list Z) (w : Z) : M V unit := on_jrt (set_field obj name (DObject w)).
Definition mv_set_field_int (obj : Z) (name : list Z) (w : Z) : M V unit := on_jrt (set_field obj name (DInt w)).
Definition kind_code (v : DvmValue) : Z := match v with DVoid => 0 | DInt _ => 1 | DDouble _ => 2 | DObject _ => 3 end.
(** The value and its kind. *)
Definition mv_get_field (obj : Z) (name : list Z) : M V (Z * Z) :=
  j ← jrt; let v := get_field j obj name in mret (arg_word v, kind_code v).
Definition mv_array_length (arr : Z) : M V Z := j ← jrt; mret (s32 (array_length j arr)).
Definition mv_array_read (arr : Z) (out : list Z) (cap : Z) : M V (list Z * Z) :=
  j ← jrt;
  match bytes_view j arr with
  | None => mret (out, -1)
  | Some b =>
      let n := Z.min cap (s32 (zlen b)) in
      l ← lift (or_ub (if n <? 0 then None else slice b 0 (Z.to_nat n)));
      out' ← lift (fill out l);
      mret (out', s32 (zlen b))
  end.

(** [b->resize(size)], zeroes at the end. *)
Definition grow (b : list Z) (size : Z) : outcome (list Z) :=
  if size <=? zlen b then Ret b else
  if 2 ^ 63 <=? size then Throw "vector::_M_default_append" else Ret (b ++ replicate (Z.to_nat (size - zlen b)) 0).
Definition mv_array_write (arr off : Z) (data : list Z) (n : Z) : M V unit :=
  j ← jrt;
  match bytes_view j arr with
  | None => skip
  | Some b =>
      if negb (s32 (off + n) =? off + n) then lift UB else
      b' ← lift (grow b (u64 (off + n)));
      _ ← on_jrt (set_bytes arr b');
      l ← lift (or_ub (if n <? 0 then None else slice data 0 (Z.to_nat n)));
      b'' ← lift (or_ub (if off <? 0 then None else blit b' off l));
      on_jrt (set_bytes arr b'')
  end.
Definition mv_object_array_element (arr i : Z) : M V Z := j ← jrt; mret (object_array_element j arr (u64 i)).

(** ** Capture *)

Definition mv_art_register_dex (dex : list Z) (location : list Z) : M V Z :=
  guarded 0 (d ← on_art (register_dex dex (if bool_decide (location = []) then bs "base.apk" else location));
             mret (dexfile_obj d)).
Definition mv_scan_dex : M V (list (list Z)) := l ← on_view scan_dex; mret (fd_bytes <$> l).
Definition mv_search_strings (needle : list Z) (min_len : Z) : M V (list (Z * list Z * string)) :=
  l ← on_view (search_strings needle (if 0 <? min_len then min_len else 4));
  mret ((fun s => (fs_addr s, c_str (fs_text s), fs_region s)) <$> l).
Definition mv_registered_natives : M V (list Native) :=
  gets (fun v => (fun n => mkNative (c_str (n_cls n)) (c_str (n_name n)) (c_str (n_sig n)) (n_fn n))
                 <$> registered_ (rt_java (vm_rt v))).
Definition mv_set_property_observer : M V unit := vm_device (modify (fun s =>
  mkSystem (id_ s) (props_ s) (progname_ s) (vfs_ s) (clock_ns_ s) (unix_epoch_ s) true (prop_reads s))).
Definition mv_set_syscall_observer : M V unit := vm_kernel (modify (fun k =>
  mkKernel (k_mem k) (k_sys k) (s_brk k) (seen k) (stopped k) (console k) true (trace k))).
End Capi.

(** ** A new machine *)

Definition pick_abi (abi : option string) : Abi := if decide (abi = Some "arm32"%string) then Arm32 else Arm64.
(** The identity a caller asks for, its install path drawn from the package. *)
Definition pick_identity (abi : Abi) (package : option string) (sdk : Z) : DeviceIdentity :=
  let id := default_identity in
  let pkg := match package with Some p => if String.eqb p "" then package_name id else p | None => package_name id end in
  let id := mkIdentity pkg (apk_path id) (data_dir id) (native_lib_dir id) (model id) (manufacturer id)
              (fingerprint id) (if 0 <? sdk then sdk else sdk_int id) (signing_cert id) in
  apply_install_paths id (if decide (abi = Arm64) then "arm64" else "arm") 0.
(** [None] is the null pointer, the reason in [mv_last_error]. *)
Definition mv_new {U ZS} `{UcOps U} (o : Outside U ZS) (abi package : option string) (sdk : Z) (u : U) :
    outcome (VM U ZS + string) :=
  let a := pick_abi abi in
  let id := pick_identity a package sdk in
  match (_ ← construct a o id; vm_device register_app_dirs) (init_vm a o id u) with
  | (Ret _, v) => Ret (inl v)
  | (Throw e, _) => Ret (inr e)
  | (UB, _) => UB
  end.
