(* ===== verification/CapiFacts.v ===== *)
(** One machine behind the C interface: what a call keeps, where an import
    leads, which handler a trap reaches, and what a caller's buffer gets. *)

From stdpp Require Import strings.
From S2P Require Import Prelude.
From S2P Require Import Words.
From S2P Require Import Abi.
From S2P Require Import Unicorn.
From S2P Require Import Engine.
From S2P Require Import Memory.
From S2P Require Import Scheduler.
From S2P Require Import Trampoline.
From S2P Require Import JavaRuntime.
From S2P Require Import Jni.
From S2P Require Import JniFacts.
From S2P Require Import Elf.
From S2P Require Import ElfLoader.
From S2P Require Import CText.
From S2P Require Import Vfs.
From S2P Require Import System.
From S2P Require Import Syscalls.
From S2P Require Import Stubs.
From S2P Require Import StubRuntime.
From S2P Require Import StubTable.
From S2P Require Import StubFacts.
From S2P Require Import AndroidEnv.
From S2P Require Import Beside.
From S2P Require Import Vm.
From S2P Require Import Capi.
#[local] Open Scope Z_scope.

(** ** The state beside the emulator *)

Section BesideInv.
Context {U X : Type} `{UcOps U}.

(** What the loader does to guest memory does not touch it. *)
#[export] Instance beside_inv (Q : X -> Prop) : LoadInv (fun m : Memory (U * X) => Q (m_uc m).2).
Proof.
  split.
  - intros a n m r m' Hq. unfold uc_do, e_read. cbn. destruct (uc_mem_read _ _ _); by intros [= <- <-].
  - intros a l m r m' Hq. unfold uc_do, e_write, check. cbn. destruct (uc_mem_write _ _ _); by intros [= <- <-].
  - intros a n p m r m' Hq. unfold uc_do, e_protect, check. cbn. destruct (uc_mem_protect _ _ _ _); by intros [= <- <-].
  - intros b n p k label m r m' Hq. rewrite map_insert_eq. cbn.
    destruct (uc_mem_map (m_uc m).1 _ _ _); cbn; by intros [= <- <-].
  - intros f Hf m r m' Hq [= _ <-]. by rewrite (proj1 (Hf m)).
Qed.
End BesideInv.

Lemma preserves_and {S A} (P Q : S -> Prop) (m : M S A) :
  preserves P m -> preserves Q m -> preserves (fun s => P s /\ Q s) m.
Proof. intros HP HQ s r s' [Hp Hq] E. split; [by eapply HP|by eapply HQ]. Qed.
#[export] Instance both_inv {U} `{UcOps U} (P Q : Memory U -> Prop) :
  LoadInv P -> LoadInv Q -> LoadInv (fun m => P m /\ Q m).
Proof.
  intros HP HQ. split; intros; apply preserves_and;
    solve [apply HP | apply HQ | by apply HP | by apply HQ].
Qed.

Section Machine.
Context {U ZS : Type} `{UcLaws U}.
#[local] Abbreviation V := (VM U ZS).
#[local] Abbreviation UV := (U * VM U ZS)%type.
Variable abi : Abi.
Variable o : Outside U ZS.

(** ** Views put back what they took *)

Lemma put_mem_same (v : V) : put_mem (vm_mem v) v = v.
Proof. by destruct v as [[? [[] ? ? ? ? ? ? ?] ? ? ? ? ?] ? ? ? ? ? ? ?]. Qed.
Lemma join_split_mem (v : V) : join_mem (split_mem v) = v.
Proof. unfold join_mem, split_mem. rewrite map_mem_id; [apply put_mem_same|done]. Qed.
Lemma join_split_page (v : V) : join (split (S := Trampoline UV VCode) v) = v.
Proof. by destruct v as [[? [[[]] ? ? ? ? ? [] ?] ? ? ? ? ?] ? ? ? ? ? ? ?]. Qed.
Lemma vm_mem_put (m : Memory U) (v : V) : vm_mem (put_mem m v) = m.
Proof. done. Qed.

(** ** What a call keeps *)

(** The memory map is well formed, the libraries are those of [v0], and every
    stub [v0] had has its handler. *)
Record later (v0 v : V) : Prop := {
  lt_wf : mem_wf (vm_mem v);
  lt_sos : sos v = sos v0;
  lt_page : rt_page (vm_rt v0) `prefix_of` rt_page (vm_rt v);
}.

Lemma later_refl v : mem_wf (vm_mem v) -> later v v.
Proof. by split. Qed.

Definition in_mem (v0 : V) (m : Memory UV) : Prop :=
  mem_wf m /\ (sos (m_uc m).2 = sos v0 /\ rt_page (vm_rt v0) `prefix_of` rt_page (vm_rt (m_uc m).2)).
#[local] Instance in_mem_inv v0 : LoadInv (in_mem v0).
Proof. apply both_inv; [apply mem_wf_inv|]. exact (beside_inv (fun v => sos v = sos v0 /\ rt_page (vm_rt v0) `prefix_of` rt_page (vm_rt v))). Qed.
Lemma in_mem_join v0 m : in_mem v0 m <-> later v0 (join_mem m).
Proof.
  split.
  - intros (Hw & Hs & Hp). split; [by apply mem_wf_alone|done|done].
  - intros [Hw Hs Hp]. split; [|done]. destruct Hw. by split.
Qed.

(** Keeping all that is kept by what runs on the memory manager. *)
Lemma on_mem_later {A} v0 (op : M (Memory UV) A) : preserves (in_mem v0) op -> preserves (later v0) (on_view op).
Proof.
  intros Hop v r v' Hv. unfold on_view. destruct (op (split v)) as [r1 m1] eqn:E. intros [= <- <-].
  apply in_mem_join. eapply Hop; [|exact E]. apply in_mem_join. cbn. by rewrite join_split_mem.
Qed.
Lemma in_mem_later {A} v0 (op : M V A) : preserves (later v0) op -> preserves (in_mem v0) (in_view op).
Proof.
  intros Hop m r m' Hm. unfold in_view. destruct (op (join m)) as [r1 v1] eqn:E. intros [= <- <-].
  apply in_mem_join. cbn. rewrite join_split_mem. eapply Hop; [|exact E]. by apply in_mem_join.
Qed.
Lemma on_stubs_later {A} v0 (op : M (Stubs U ZS) A) :
  preserves (fun s => mem_wf (k_mem (st_kernel s))) op -> preserves (later v0) (on_stubs op).
Proof.
  intros Hop v r v' [Hw Hs Hp]. unfold on_stubs. destruct (op (stubs_of v)) as [r1 s1] eqn:E. intros [= <- <-].
  split; [|done|by apply prefix_app_r]. exact (Hop (stubs_of v) _ _ Hw E).
Qed.
Lemma stub_mem_wf {A} (op : M (Trampoline U Stubs.Code) A) :
  (forall t r t', op t = (r, t') -> forall x, uc_mapped (tr_uc t') x = uc_mapped (tr_uc t) x) ->
  preserves (fun s : Stubs U ZS => mem_wf (k_mem (st_kernel s))) (Stubs.on_tramp op).
Proof.
  intros Hop s r s' [Hs Hr Hm]. unfold Stubs.on_tramp. destruct (op _) as [r1 t1] eqn:E. intros [= <- <-].
  pose proof (Hop _ _ _ E) as Hk. split; cbn in *; [done..|]. eapply Forall_impl; [exact Hm|].
  intros reg Hreg x Hx. rewrite Hk. by apply Hreg.
Qed.

(** *** Loading *)

#[local] Abbreviation stub_wf := (preserves (fun s : Stubs U ZS => mem_wf (k_mem (st_kernel s)))).

Lemma alloc_mapped {Fn} name (h : Fn) (t : Trampoline U Fn) r t' x :
  Trampoline.alloc abi name h t = (r, t') -> uc_mapped (tr_uc t') x = uc_mapped (tr_uc t) x.
Proof.
  assert (keeps_mapped (U := U) (write_stub abi (next_ t))) as Hk.
  { unfold write_stub. destruct abi; try apply keeps_write; apply keeps_mapped_bind; intros; apply keeps_write. }
  unfold Trampoline.alloc. rewrite bind_get. destruct (_ <? _); [by intros [= _ <-]|].
  rewrite bind_modify. unfold tr_do, mbind, M_mbind, M_bind. cbn.
  destruct (write_stub abi (next_ t) (tr_uc t)) as [[a|e|] u] eqn:E; intros [= _ <-]; by eapply Hk.
Qed.

Lemma bind_name_wf name a : stub_wf (bind_name (U := U) name a).
Proof. by intros s r s' Hs [= _ <-]. Qed.
Lemma resolve_wf nn name : stub_wf (resolve abi nn name).
Proof.
  unfold resolve. apply preserves_bind; [apply preserves_gets|]. intros s.
  destruct (by_name_ _ !! name); [apply preserves_ret|]. apply preserves_if; [apply preserves_ret|].
  apply preserves_bind; [apply stub_mem_wf; intros; by eapply alloc_mapped|]. intros a.
  apply preserves_bind; [apply bind_name_wf|]. intros []. apply preserves_ret.
Qed.
Lemma device_wf {A} (op : M System A) : stub_wf (on_device op).
Proof.
  intros s r s' Hs. unfold on_device, on_kernel, on_sys.
  destruct (op _) as [r1 d]. by intros [= _ <-].
Qed.

Lemma import_later v0 n : preserves (later v0) (import_resolver abi o n).
Proof.
  unfold import_resolver. apply preserves_bind; [apply preserves_gets|]. intros v. cbv zeta.
  apply preserves_if; [apply preserves_ret|]. apply preserves_if; [apply preserves_ret|].
  apply on_stubs_later, resolve_wf.
Qed.
Lemma load_so_later v0 path : preserves (later v0) (load_so abi o path).
Proof.
  unfold load_so. destruct (host_file o path) as [data|]; [|apply preserves_throw].
  apply on_mem_later. apply (load_bytes_keeps (in_mem v0)).
  intros f nm [= <-]. apply in_mem_later, import_later.
Qed.

Lemma read_later v0 n a : preserves (later v0) (on_cpu (read_t n a)).
Proof. apply on_mem_later. by apply (inv_read_t (in_mem v0)). Qed.
Lemma place_later v0 path label : preserves (later v0) (place_name path label).
Proof.
  unfold place_name. apply preserves_bind; [apply on_mem_later, inv_mmap; apply _|]. intros a.
  apply preserves_bind; [apply on_mem_later, inv_write|]. intros []. apply preserves_ret.
Qed.
Lemma fields_later v0 so : preserves (later v0) (phdr_fields so).
Proof.
  unfold phdr_fields. apply preserves_bind; [apply read_later|]. intros x.
  apply preserves_bind; [apply read_later|]. intros y. apply preserves_ret.
Qed.
Lemma phdrs_later v0 so f a : preserves (later v0) (register_phdrs so f a).
Proof. apply on_stubs_later. by intros s r s' Hs [= _ <-]. Qed.
Lemma vfs_later {A} v0 (op : M Vfs A) : preserves (later v0) (vm_device (on_vfs op)).
Proof. apply on_stubs_later, device_wf. Qed.
Lemma serve_later v0 lib l dirs : preserves (later v0) (serve_in lib l dirs).
Proof.
  induction dirs as [|d r IH]; [apply preserves_ret|]. cbn [serve_in].
  apply preserves_bind; [apply vfs_later|]. intros []. apply preserves_bind; [apply vfs_later|]. by intros [].
Qed.

(** One library more, at the end, its index returned. *)
Record loaded (v0 : V) (k : Z) (v : V) : Prop := {
  ld_wf : mem_wf (vm_mem v);
  ld_page : rt_page (vm_rt v0) `prefix_of` rt_page (vm_rt v);
  ld_index : k = zlen (sos v0);
  ld_sos : exists so, sos v = sos v0 ++ [so] /\ so_at k v = (Ret (Some so), v);
}.
Definition loads (v0 : V) (m : M V Z) (v : V) : Prop :=
  match m v with (Ret k, v') => loaded v0 k v' | (_, v') => later v0 v' end.

Lemma loads_bind {A} v0 (m : M V A) (f : A -> M V Z) v :
  preserves (later v0) m -> later v0 v -> (forall a v1, later v0 v1 -> loads v0 (f a) v1) -> loads v0 (m ≫= f) v.
Proof.
  intros Hm Hv Hf. unfold loads, mbind, M_mbind, M_bind. destruct (m v) as [[a|e|] v1] eqn:E; eauto.
  by apply Hf, (Hm _ _ _ Hv E).
Qed.
Lemma push_loads v0 so v :
  later v0 v -> zlen (sos v0) + 1 < 2 ^ 31 ->
  loads v0 (_ ← modify (fun v => with_sos (sos v ++ [so]) v); gets (fun v => s32 (u64 (zlen (sos v) - 1)))) v.
Proof.
  intros [Hw Hs Hp] Hn. unfold loads. rewrite bind_modify. unfold gets. cbn [sos with_sos]. rewrite Hs, zlen_app.
  change (zlen [so]) with 1. pose proof (zlen_nonneg (sos v0)) as H1.
  rewrite u64_id by lia. replace (zlen (sos v0) + 1 - 1) with (zlen (sos v0)) by lia.
  unfold s32. rewrite sext_id by lia. split; [done|done|done|]. exists so. split; [done|].
  unfold so_at, gets. cbn [sos with_sos]. rewrite zlen_app. change (zlen [so]) with 1.
  unfold s32. rewrite sext_id by lia. rewrite (proj2 (Z.leb_le _ _)), (proj2 (Z.ltb_lt _ _)) by lia. cbn [andb].
  rewrite lookup_app_r by (unfold zlen; lia). unfold zlen. by rewrite Nat2Z.id, Nat.sub_diag.
Qed.
Lemma load_body_loads v path :
  mem_wf (vm_mem v) -> zlen (sos v) + 1 < 2 ^ 31 -> loads v (load_body abi o path) v.
Proof.
  intros Hw Hn. unfold load_body.
  apply loads_bind; [apply load_so_later|by apply later_refl|]. intros so v1 H1.
  apply loads_bind; [apply preserves_gets|done|]. intros v1' v2 H2. cbv zeta.
  apply loads_bind; [apply place_later|done|]. intros name v3 H3.
  apply loads_bind; [apply fields_later|done|]. intros f v4 H4.
  apply loads_bind; [apply phdrs_later|done|]. intros [] v5 H5.
  apply loads_bind; [apply vfs_later|done|]. intros [] v6 H6.
  apply loads_bind; [apply serve_later|done|]. intros [] v7 H7.
  by apply push_loads.
Qed.

(** C37: Loading a library never lets an exception out.  It either
    returns -1 and leaves the list of libraries as it was, or puts one library
    at the end and returns its index, so that every index handed out before stays
    valid; in both cases, and even when the file makes the loader's behaviour
    undefined, the memory map stays well formed and no stub that guest code may
    hold the address of loses its handler. *)
Theorem load_appends (v : V) path r v' :
  mem_wf (vm_mem v) -> zlen (sos v) + 1 < 2 ^ 31 -> mv_load abi o path v = (r, v') ->
  match r with
  | Ret k => if k =? -1 then later v v' else loaded v k v'
  | Throw _ => False
  | UB => later v v'
  end.
Proof.
  intros Hw Hn. pose proof (load_body_loads v path Hw Hn) as Hl. pose proof (zlen_nonneg (sos v)) as Hz.
  unfold loads in Hl. unfold mv_load, Capi.guarded.
  destruct (load_body abi o path v) as [[k|e|] v1]; intros [= <- <-]; [|by destruct Hl|done].
  destruct (Z.eqb_spec k (-1)) as [->|]; [|done]. pose proof (ld_index _ _ _ Hl). lia.
Qed.

(** ** Traps *)

#[local] Abbreviation page v := (rt_page (vm_rt v)).
#[local] Abbreviation cpu v := (m_uc (vm_mem v)).

(** The page is in order, and there is room for [room] more stubs. *)
Record vm_page_ok (v : V) (room : Z) : Prop := {
  vp_tramp : tramp_ok (split (S := Trampoline UV VCode) v);
  vp_room : zlen (page v) + room <= kTrampolineSize / 8;
}.

Lemma read_reg_beside r (u : U) (v : V) : fst (read_reg abi r (u, v)) = fst (read_reg abi r u).
Proof. unfold read_reg, lift, mbind, M_mbind, M_bind. by destruct (reg_id abi r). Qed.

(** A trap in the slot of a stub runs its handler, on the whole machine. *)
Lemma trap_at (v : V) pc i nm c :
  tramp_base (vm_names v) = kTrampolineBase -> page v !! i = Some (nm, c) -> Z.of_nat i < 8192 ->
  slot_addr i <= pc < slot_addr i + 8 -> fst (read_reg abi Pc (cpu v)) = Ret pc ->
  on_interrupt abi o v = (_ ← invoke abi o c; skip) v.
Proof.
  intros Hb Hi Hl Hpc Hr. unfold on_interrupt, page_dispatch, on_view.
  unfold mbind at 1, M_mbind, M_bind.
  rewrite (dispatch_eq abi _ (split v) pc) by (cbn [split page_view tr_uc]; by rewrite read_reg_beside).
  unfold contains. cbn [split page_view base_ handlers_]. rewrite Hb. unfold slot_addr, kStubSize in *.
  unfold kTrampolineBase, kTrampolineSize in *.
  rewrite (proj2 (Z.leb_le _ _)), (proj2 (Z.ltb_lt _ _)) by lia. cbn [negb andb].
  rewrite <- (Z.div_unique (pc - 0x20000000) 8 (Z.of_nat i) (pc - 0x20000000 - 8 * Z.of_nat i)), Nat2Z.id by lia.
  rewrite Hi. unfold mbind, M_mbind, M_bind, in_view.
  assert (mkTrampoline (cpu v, v) 0x20000000 (tramp_next (vm_names v)) (page v) = split v) as ->
    by (cbn; by rewrite Hb).
  rewrite join_split_page. destruct (invoke abi o c v) as [[[]|e|] v1].
  all: cbv beta iota delta [mret M_mret M_ret].
  all: by rewrite join_split_page.
Qed.

(** From [v] on, for as long as stubs are only added, a trap at [a] runs [m]. *)
Definition reaches (v : V) (a : Z) (m : M V unit) : Prop :=
  forall v2 pc, page v `prefix_of` page v2 -> tramp_base (vm_names v2) = tramp_base (vm_names v) ->
    a <= pc < a + 8 -> fst (read_reg abi Pc (cpu v2)) = Ret pc ->
    on_interrupt abi o v2 = (_ ← m; skip) v2.

Lemma reaches_slot (v : V) room i nm c :
  vm_page_ok v room -> 0 <= room -> page v !! i = Some (nm, c) -> reaches v (slot_addr i) (invoke abi o c).
Proof.
  intros [Ht Hr] Hpos Hi v2 pc Hp Hb Hpc Hreg.
  eapply trap_at; [by rewrite Hb; apply (to_base _ Ht)|by eapply prefix_lookup_Some|..|exact Hpc|exact Hreg].
  apply lookup_lt_Some in Hi. unfold zlen, kTrampolineSize in Hr. change (65536 / 8) with 8192 in Hr. lia.
Qed.

(** C39: A stub a client asks for.  While the page has room the address is handed
    out, the guest finds the trap there, and from then on, whatever stubs are
    allocated after it, a trap at it runs the client's callback on
    the machine as it is at that moment, and nothing else; on a full page the call throws. *)
Theorem trampoline_reaches_client (v : V) i name :
  vm_page_ok v 0 ->
  if decide (zlen (page v) < 8192)
  then let a := slot_addr (length (page v)) in
       exists v1, mv_alloc_trampoline abi i name v = (Ret a, v1) /\ vm_page_ok v1 0 /\
         stub_at abi (cpu v1) a /\ reaches v1 a (tramp_cb o i)
  else mv_alloc_trampoline abi i name v = (Throw "trampoline page exhausted", v).
Proof.
  intros [Ht Hr]. pose proof (alloc_spec abi (split v) (default "py_stub"%string name) (VUser i) Ht) as Ha.
  unfold mv_alloc_trampoline, on_view. cbn [handlers_ split page_view] in Ha.
  change (kTrampolineSize / 8) with 8192 in *. destruct (decide _) as [Hlt|Hge].
  2: { unfold split, page_view. rewrite Ha. f_equal. apply (join_split_page v). }
  destruct Ha as (t & E & Hok & Hh & Hs & _). cbv zeta.
  assert (vm_page_ok (join t) 0) as Hj.
  { split; [|cbn; rewrite Hh, zlen_app; change (zlen [(_, VUser i)]) with 1; change (kTrampolineSize / 8) with 8192; lia].
    destruct Hok as [H1 H2 H3 H4]. by split. }
  exists (join t). unfold split, page_view. rewrite E. split; [done|]. split; [done|]. split.
  - unfold slot_addr. unfold stub_at, reads in *. by destruct abi.
  - eapply (reaches_slot (join t) 0 _ _ (VUser i)); [done|done|]. cbn. rewrite Hh. by rewrite lookup_app_r, Nat.sub_diag.
Qed.

(** ** Imports *)

(** [a] is the address under which the first library of [l] to export [n] does. *)
Definition exported_first (l : list SoInfo) (n : list Z) (a : Z) : Prop :=
  a <> 0 /\ exists l1 so l2, l = l1 ++ so :: l2 /\ lookup_sym (exports so) n = a /\
    Forall (fun s => lookup_sym (exports s) n = 0) l1.
Lemma sibling_spec l n :
  exported_first l n (sibling l n) \/ sibling l n = 0 /\ Forall (fun s => lookup_sym (exports s) n = 0) l.
Proof.
  induction l as [|so r IH]; [right; by split|]. cbn [sibling].
  destruct (Z.eqb_spec (lookup_sym (exports so) n) 0) as [E|E].
  - destruct IH as [(Ha & l1 & s & l2 & -> & Hs & Hl)|[Ez Hl]].
    + left. split; [done|]. exists (so :: l1), s, l2. split; [done|]. split; [done|]. by constructor.
    + right. split; [done|]. by constructor.
  - left. split; [done|]. by exists [], so, r.
Qed.

Lemma zlen_fmap {A B} (f : A -> B) l : zlen (f <$> l) = zlen l.
Proof. unfold zlen. by rewrite length_fmap. Qed.
Lemma stubs_page_ok v room : vm_page_ok v room -> page_ok (stubs_of v) room.
Proof.
  intros [[H1 H2 H3 H4] Hr]. cbn in *. split; [split|]; cbn [stubs_of st_names with_names tramp_codes names_on tramp_of
    handlers_ next_ base_ tr_uc]; rewrite ?zlen_fmap; try done.
Qed.

(** A stub the C library's side allocates on the machine's page. *)
Lemma vm_stub_alloc (v : V) label name c :
  vm_page_ok v 1 ->
  exists v', on_stubs (a ← Stubs.on_tramp (Trampoline.alloc abi label c); _ ← bind_name name a; mret a) v =
      (Ret (slot_addr (length (page v))), v') /\ vm_page_ok v' 0 /\
    page v' = page v ++ [(label, VStub c)] /\ sos v' = sos v /\
    by_name_ (vm_names v') = <[name := slot_addr (length (page v))]> (by_name_ (vm_names v)).
Proof.
  intros Hp. destruct (stub_alloc_run abi (stubs_of v) 0 label c (stubs_page_ok _ _ Hp) ltac:(done))
    as (s & E & [Ht Hr] & _ & _ & Hb & Hc).
  cbn [stubs_of st_names with_names tramp_codes names_on] in E, Hc. rewrite length_fmap in E.
  unfold on_stubs. rewrite (bind_run _ _ _ _ _ E), (bind_run _ _ _ _ _ (bind_run_ _ _ _)).
  eexists. split; [reflexivity|].
  assert (page (put_stubs (with_names s (names_on (tramp_base (st_names s)) (tramp_next (st_names s))
            (tramp_codes (st_names s)) (st_names s))) v) = page v ++ [(label, VStub c)]) as Hpage.
  { cbn. rewrite Hc, drop_app_length'; [done|by rewrite length_fmap]. }
  cbn in Hpage |- *. split; [split|].
  - destruct Ht as [T1 T2 T3 T4]. cbn in *. rewrite Hpage in *.
    assert (zlen (page v ++ [(label, VStub c)]) = zlen (tramp_codes (st_names s))) as El
      by (rewrite Hc, !zlen_app, zlen_fmap; done).
    split; cbn; rewrite ?Hpage, ?El; try done.
  - cbn. rewrite Hpage, zlen_app. destruct Hp as [_ Hp]. change (zlen [(label, VStub c)]) with 1. lia.
  - split; [exact Hpage|]. split; [done|]. by rewrite Hb.
Qed.

Lemma on_stubs_same {A} (a : A) (v : V) : on_stubs (mret a) v = (Ret a, v).
Proof.
  unfold on_stubs. cbn. f_equal. unfold put_stubs. cbn. rewrite drop_ge, app_nil_r by (by rewrite length_fmap).
  by destruct v as [[? [[[]] ? ? ? ? ? [] ?] ? ? ? ? ?] ? ? ? ? ? ? ?].
Qed.
Lemma resolve_new (v : V) nn name :
  by_name_ (vm_names v) !! name = None ->
  on_stubs (resolve abi nn name) v =
  on_stubs (if negb nn && str_contains name "dvm" then mret 0 else
            a ← Stubs.on_tramp (Trampoline.alloc abi ("MISSING:" +:+ name) (CMissing name));
            _ ← bind_name name a; mret a) v.
Proof.
  intros Hn. unfold on_stubs, resolve. rewrite bind_get.
  change (by_name_ (st_names (stubs_of v))) with (by_name_ (vm_names v)). by rewrite Hn.
Qed.

(** C38: What an import is resolved to: the C library's stub of the name, or else the
    first library loaded so far that exports it, or else NULL for a
    name of the Dalvik runtime, or else a new stub that answers 0, the same
    one whenever the name is asked for again. *)
Theorem import_order (v : V) n :
  vm_page_ok v 1 -> by_name_ (vm_names v) !! text n <> Some 0 ->
  match by_name_ (vm_names v) !! text n with
  | Some a => import_resolver abi o n v = (Ret a, v)
  | None =>
      (exists a, exported_first (sos v) n a /\ import_resolver abi o n v = (Ret a, v)) \/
      Forall (fun so => lookup_sym (exports so) n = 0) (sos v) /\
      if negb (no_dalvik_null (stub_env o)) && str_contains (text n) "dvm"
      then import_resolver abi o n v = (Ret 0, v)
      else exists a v', import_resolver abi o n v = (Ret a, v') /\ vm_page_ok v' 0 /\
             reaches v' a (on_stubs (do_answer abi 0)) /\ import_resolver abi o n v' = (Ret a, v')
  end.
Proof.
  intros Hp Hz. destruct (by_name_ (vm_names v) !! text n) as [a|] eqn:En.
  { unfold import_resolver, known. rewrite bind_get. fold (vm_names v). rewrite En. cbn.
    by destruct (Z.eqb_spec a 0) as [->|]. }
  assert (import_resolver abi o n v =
          if negb (sibling (sos v) n =? 0) then (Ret (sibling (sos v) n), v)
          else on_stubs (resolve abi (no_dalvik_null (stub_env o)) (text n)) v) as ->.
  { unfold import_resolver, known. rewrite bind_get. fold (vm_names v). rewrite En. cbn. by destruct (_ =? 0). }
  destruct (sibling_spec (sos v) n) as [Hs|[-> Hl]].
  { left. exists (sibling (sos v) n). split; [done|]. destruct Hs as [Hne _].
    by destruct (Z.eqb_spec (sibling (sos v) n) 0). }
  right. split; [done|]. cbn [Z.eqb negb]. rewrite (resolve_new _ _ _ En).
  destruct (negb _ && str_contains (text n) "dvm"); [apply on_stubs_same|].
  destruct (vm_stub_alloc v ("MISSING:" +:+ text n) (text n) (CMissing (text n)) Hp) as (v' & E & Hok & Hpg & Hso & Hb).
  exists (slot_addr (length (page v))), v'. split; [exact E|]. split; [done|]. split.
  - eapply (reaches_slot v' 0 _ _ (VStub (CMissing (text n)))); [done|done|]. rewrite Hpg.
    by rewrite lookup_app_r, Nat.sub_diag.
  - unfold import_resolver, known. rewrite bind_get. fold (vm_names v'). rewrite Hb, lookup_insert_eq. cbn [default from_option id].
    destruct (Z.eqb_spec (slot_addr (length (page v))) 0) as [E1|]; [|done]. unfold slot_addr, kTrampolineBase in E1. lia.
Qed.

(** ** Byte arrays *)

Lemma view_bytes (v : V) arr : bytes_view (split (S := JavaRuntime UV VHost) v) arr = bytes_view (rt_java (vm_rt v)) arr.
Proof. done. Qed.
Lemma jrt_set_bytes (v : V) arr b l :
  bytes_view (rt_java (vm_rt v)) arr = Some b ->
  exists v', on_jrt (set_bytes arr l) v = (Ret tt, v') /\ bytes_view (rt_java (vm_rt v')) arr = Some l.
Proof.
  intros Hb. unfold on_jrt, on_view. destruct (set_bytes arr l (split v)) as [r j] eqn:E.
  pose proof (bytes_view_set (split v) arr b l Hb) as Hl. rewrite E in Hl. cbn [snd] in Hl.
  injection E as <- _. by eexists.
Qed.
Lemma grow_spec b size :
  0 <= size < 2 ^ 63 ->
  exists b', grow b size = Ret b' /\ zlen b' = Z.max (zlen b) size /\
    forall i, b' !! i = if decide (zlen b <= Z.of_nat i < size) then Some 0 else b !! i.
Proof.
  intros Hs. unfold grow. destruct (Z.leb_spec size (zlen b)).
  { exists b. split; [done|]. split; [lia|]. intros i. by rewrite decide_False by lia. }
  destruct (Z.leb_spec (2 ^ 63) size); [lia|]. eexists. split; [reflexivity|]. unfold zlen in *.
  split; [rewrite length_app, length_replicate; lia|]. intros i. case_decide.
  - rewrite lookup_app_r by lia. apply lookup_replicate_2. lia.
  - destruct (decide (i < length b)%nat); [by apply lookup_app_l|].
    rewrite lookup_app_r by lia. rewrite (lookup_ge_None_2 b) by lia.
    apply lookup_ge_None_2. rewrite length_replicate. lia.
Qed.

(** Writing into a Java byte array from the host.  The array ends up as long as it was
    or as the end of the range, whichever is more; the range holds
    the caller's bytes, what lay outside keeps its bytes, and a gap between the
    old end and the range reads as zeroes. *)
Lemma array_written (v : V) arr b off data n :
  bytes_view (rt_java (vm_rt v)) arr = Some b -> 0 <= off -> 0 <= n <= zlen data -> off + n < 2 ^ 31 ->
  exists v' b', mv_array_write arr off data n v = (Ret tt, v') /\
    bytes_view (rt_java (vm_rt v')) arr = Some b' /\ zlen b' = Z.max (zlen b) (off + n) /\
    forall i, b' !! i = if decide (off <= Z.of_nat i < off + n) then data !! (i - Z.to_nat off)%nat
                        else if decide (zlen b <= Z.of_nat i < off) then Some 0 else b !! i.
Proof.
  intros Hb Ho Hn Hs. destruct (grow_spec b (off + n) ltac:(lia)) as (b1 & Eg & Hl1 & Hi1).
  destruct (jrt_set_bytes v arr b b1 Hb) as (v1 & E1 & Hv1).
  assert (zlen (take (Z.to_nat n) data) = n) as El by (unfold zlen in *; rewrite length_take; lia).
  set (b2 := take (Z.to_nat off) b1 ++ take (Z.to_nat n) data ++ drop (Z.to_nat off + length (take (Z.to_nat n) data)) b1).
  assert (blit b1 off (take (Z.to_nat n) data) = Some b2) as Eb by (apply blit_ok; lia).
  destruct (jrt_set_bytes v1 arr b1 b2 Hv1) as (v2 & E2 & Hv2). exists v2, b2. split; [|split; [done|split]].
  - unfold mv_array_write, jrt. rewrite bind_gets, view_bytes, Hb. unfold s32. rewrite sext_id, Z.eqb_refl by lia. cbn [negb].
    rewrite u64_id, Eg, bind_lift_ret, (bind_run _ _ _ _ _ E1) by lia.
    destruct (Z.ltb_spec n 0), (Z.ltb_spec off 0); try lia.
    rewrite slice_ok by lia. change (Z.to_nat 0) with O. rewrite drop_0. cbn [or_ub]. rewrite bind_lift_ret, Eb. cbn [or_ub].
    by rewrite bind_lift_ret.
  - pose proof (blit_length _ _ _ _ Eb) as Hlen. unfold zlen in *. lia.
  - intros i. rewrite (blit_lookup _ _ _ _ i Eb), Hi1. unfold zlen in El.
    repeat case_decide; try lia; try done. by rewrite lookup_take_lt by lia.
Qed.
End Machine.

(** ** A caller's buffer *)

Lemma c_str_app l r : c_str (l ++ 0 :: r) = c_str l.
Proof.
  unfold c_str. induction l as [|c l IH]; [done|]. cbn [app cut]. destruct (c =? 0); [done|].
  destruct (cut 0 (l ++ 0 :: r)), (cut 0 l). cbn in *. by f_equal.
Qed.

(** [n] bytes and a NUL, where there is room for them. *)
Lemma put_text_run s n out :
  0 <= n <= zlen s -> n + 1 <= zlen out ->
  put_text s n out = Ret (take (Z.to_nat n) s ++ 0 :: drop (Z.to_nat (n + 1)) out).
Proof.
  intros Hn Ho. unfold put_text. destruct (Z.ltb_spec n 0); [lia|].
  rewrite slice_ok by lia. change (Z.to_nat 0) with O. rewrite drop_0. cbn. unfold fill. rewrite length_app, length_take. unfold zlen in *. cbn [length].
  destruct (Nat.leb_spec (Z.to_nat n `min` length s + 1) (length out)); [|lia].
  rewrite <- app_assoc. cbn [app]. do 4 f_equal. lia.
Qed.

(** C40: What a text-returning function may do to its caller's buffer.
    With a capacity that is no lie, [copy_out] never writes at or past it and
    leaves a C string there: as much of the text as fits before a
    NUL, and always the text's full length as the answer; a capacity of 0 or less
    leaves the buffer alone.  The functions that copy by hand do the same for a
    positive capacity, and have undefined behaviour for any other. *)
Theorem copy_out_fits s out cap :
  zlen s < 2 ^ 31 -> cap <= zlen out ->
  exists out', copy_out s out cap = Ret (out', zlen s) /\ zlen out' = zlen out /\
    drop (Z.to_nat cap) out' = drop (Z.to_nat cap) out /\
    (0 < cap -> c_str out' = c_str (take (Z.to_nat (cap - 1)) s)) /\
    text_out s out cap = if 0 <? cap then Ret (out', zlen s) else UB.
Proof.
  intros Hs Ho. unfold copy_out, text_out. pose proof (zlen_nonneg s) as Hz.
  unfold s32. rewrite (sext_id 32 (zlen s)) by lia. destruct (Z.ltb_spec 0 cap) as [Hc|Hc].
  - rewrite put_text_run by lia. eexists. split; [reflexivity|].
    set (n := Z.min (cap - 1) (zlen s)). assert (0 <= n <= zlen s /\ n + 1 <= cap) as [Hn Hn1] by lia.
    assert (length (take (Z.to_nat n) s) = Z.to_nat n) as El
      by (rewrite length_take; unfold zlen in *; lia).
    split; [|split; [|split; [|done]]].
    + unfold zlen in *. rewrite length_app, El. cbn [length]. rewrite length_drop. lia.
    + replace (Z.to_nat cap) with (length (take (Z.to_nat n) s) + S (Z.to_nat (cap - n - 1)))%nat at 1 by lia.
      rewrite drop_app_add. cbn [drop]. rewrite drop_drop. f_equal. lia.
    + intros _. rewrite c_str_app. f_equal. unfold n.
      destruct (Z.min_spec (cap - 1) (zlen s)) as [[? ->]|[? ->]]; [done|].
      rewrite !take_ge; [done|unfold zlen in *; lia..].
  - exists out. split; [done|]. split; [done|]. split; [done|]. split; [lia|].
    unfold put_text. destruct (Z.ltb_spec (Z.min (cap - 1) (zlen s)) 0); [done|lia].
Qed.
