(* ===== verification/CapiExamples.v ===== *)
(** A machine on the reference emulator: the witnesses of the theorems about
    the C interface, and what it does in corner cases. *)

From stdpp Require Import strings.
From S2P Require Import Prelude.
From S2P Require Import Words.
From S2P Require Import Abi.
From S2P Require Import Unicorn.
From S2P Require Import Engine.
From S2P Require Import Memory.
From S2P Require Import Trampoline.
From S2P Require Import JavaRuntime.
From S2P Require Import Jni.
From S2P Require Import Elf.
From S2P Require Import ElfLoader.
From S2P Require Import System.
From S2P Require Import Syscalls.
From S2P Require Import Stubs.
From S2P Require Import StubRuntime.
From S2P Require Import StubTable.
From S2P Require Import StubFacts.
From S2P Require Import AndroidEnv.
From S2P Require Import Beside.
From S2P Require Import Vm.
From S2P Require Import Capi.
From S2P Require Import CapiFacts.
#[local] Open Scope Z_scope.

(** One host file, guest code that returns at once, and a client whose callback
    puts 7 into X0. *)
Definition demo_outside : Outside RefUc unit :=
  mkOutside RefUc unit no_env no_stub_env false false false false false false false false false false
    None None None false false 0 0 30000000 true demo_zlib (fun _ => []) (fun _ => []) (fun _ _ _ => 0) (fun _ => skip)
    (fun p => if String.eqb p "/host/libdemo.so" then Some demo_so else None)
    (fun _ until _ _ => _ ← mv_write_reg A64_PC until; mret UC_ERR_OK) (fun _ => mv_write_reg (A64_X 0) 7) (fun _ _ _ => mret 0) (fun _ _ _ _ _ => skip).
#[local] Abbreviation out := demo_outside.
Definition demo_fresh : VM RefUc unit := init_vm Arm64 out default_identity ru_init.
(** A machine with its page of stubs only. *)
Definition demo_page_vm : VM RefUc unit := snd (on_view reserve_page demo_fresh).

Lemma demo_page_wf : mem_wf (vm_mem demo_page_vm).
Proof.
  change (mem_wf (snd (reserve_page demo_mem0))).
  refine (map_fixed_wf _ _ _ _ _ demo_mem0 _ _ _ (surjective_pairing _)). split; constructor.
Qed.
Lemma demo_page_ok : vm_page_ok demo_page_vm 1.
Proof.
  split; [split|]; [done..| |by vm_compute]. exact demo_page_mapped.
Qed.

Lemma load_appends_witness :
  loaded demo_page_vm 0 (snd (mv_load Arm64 out "/host/libdemo.so" demo_page_vm)).
Proof.
  pose proof (load_appends Arm64 out demo_page_vm "/host/libdemo.so" _ _ demo_page_wf eq_refl
                (surjective_pairing _)) as Hl.
  replace (fst (mv_load Arm64 out "/host/libdemo.so" demo_page_vm)) with (Ret 0) in Hl by (vm_compute; reflexivity).
  exact Hl.
Defined.

Lemma trampoline_reaches_client_witness :
  exists v1, mv_alloc_trampoline Arm64 3 (Some "hook"%string) demo_page_vm = (Ret kTrampolineBase, v1) /\ vm_page_ok v1 0.
Proof.
  destruct (trampoline_reaches_client Arm64 out demo_page_vm 3 (Some "hook"%string)) as (v1 & E & Hok & _).
  - destruct demo_page_ok as [H1 H2]. split; [exact H1|]. by vm_compute.
  - exists v1. split; [exact E|exact Hok].
Defined.

Lemma import_order_witness :
  exists a v', import_resolver Arm64 out (bs "nope") demo_page_vm = (Ret a, v') /\
               import_resolver Arm64 out (bs "nope") v' = (Ret a, v').
Proof.
  destruct (import_order Arm64 out demo_page_vm (bs "nope") demo_page_ok ltac:(discriminate))
    as [(a & Ha & _)|[_ (a & v' & E & _ & _ & E')]].
  - destruct Ha as (_ & l1 & so & l2 & El & _). by destruct l1.
  - exists a, v'. split; [exact E|exact E'].
Defined.

Lemma copy_out_fits_witness :
  exists l, copy_out (bs "/data/app") (replicate 6 1) 4 = Ret (l, 9) /\ c_str l = bs "/da".
Proof.
  destruct (copy_out_fits (bs "/data/app") (replicate 6 1) 4 eq_refl ltac:(done)) as (l & E & _ & _ & Hc & _).
  exists l. split; [exact E|]. exact (Hc eq_refl).
Defined.

(** ** A whole machine *)

Definition demo_vm : VM RefUc unit := snd (construct Arm64 out default_identity demo_fresh).
(** X0 after a trap at [pc]. *)
Definition trap_x0 (pc : Z) : M (VM RefUc unit) Z :=
  _ ← mv_write_reg A64_PC pc; _ ← on_interrupt Arm64 out; mv_read_reg (A64_X 0).

(** The constructor ends well: 495 stubs of the C library and 320 of the bridge
    share the page. *)
Example machine_built :
  fst (construct Arm64 out default_identity demo_fresh) = Ret tt /\ length (rt_page (vm_rt demo_vm)) = 815%nat.
Proof. vm_compute. done. Qed.
(** [getpid], called through its stub and as a system call. *)
Example getpid_both_ways :
  fst (trap_x0 (known (vm_stubs demo_vm) "getpid") demo_vm) = Ret 1234 /\
  fst ((_ ← mv_write_reg (A64_X 8) 172; trap_x0 0x1000) demo_vm) = Ret 1234.
Proof. vm_compute. done. Qed.
(** The guest follows the JNIEnv pointer to slot 6 and traps: [FindClass] runs and
    returns the handle the client gets for the same name. *)
Example find_class_from_guest :
  match fst ((e ← mv_jni_env; t ← mv_read_u64 e; f ← mv_read_u64 (t + 8 * 6);
              name ← mv_heap_alloc out 32; _ ← mv_write name (bs "java/lang/String" ++ [0]) 17;
              _ ← mv_write_reg (A64_X 1) name; h ← trap_x0 f;
              c ← mv_find_class (bs "java/lang/String"); mret (h, c)) demo_vm) with
  | Ret (h, c) => h = c /\ h <> 0
  | _ => False
  end.
Proof. vm_compute. done. Qed.
(** A client's stub; and a guest function that returns at once. *)
Example client_stub :
  fst ((a ← mv_alloc_trampoline Arm64 0 None; trap_x0 a) demo_vm) = Ret 7.
Proof. vm_compute. done. Qed.
Example call_returns : fst (mv_call Arm64 out 1 0x1000 [5; 6] 2 demo_vm) = Ret (Some 5).
Proof. vm_compute. done. Qed.
(** Two loads of a library, and one of a file that is not there. *)
Example load_twice :
  match fst ((a ← mv_load Arm64 out "/host/libdemo.so"; b ← mv_load Arm64 out "/host/libdemo.so";
              c ← mv_load Arm64 out "/none"; x ← mv_so_bias 0; y ← mv_so_bias 1; z ← mv_so_bias 2;
              mret (a, b, c, (x, y, z))) demo_vm) with
  | Ret (a, b, c, (x, y, z)) => a = 0 /\ b = 1 /\ c = -1 /\ x <> y /\ z = 0
  | _ => False
  end.
Proof. vm_compute. done. Qed.

(** ** Corner cases *)

(** A capacity of 0 is no different from any other to the functions that copy by
    hand: they write from the start of the caller's buffer on without end. *)
Example no_room :
  text_out (bs "a") (replicate 4 1) 0 = UB /\ copy_out (bs "a") (replicate 4 1) 0 = Ret (replicate 4 1, 1).
Proof. vm_compute. done. Qed.
(** A negative offset writes in front of the array. *)
Example negative_offset :
  fst ((a ← mv_new_byte_array [1; 2; 3] 3; mv_array_write a (-1) [8; 9] 2) demo_vm) = UB.
Proof. vm_compute. done. Qed.
(** A negative length is an exception that leaves a C function. *)
Example exception_escapes :
  fst (mv_new_byte_array [1; 2; 3] (-1) demo_vm) = Throw "cannot create std::vector larger than max_size()".
Proof. vm_compute. done. Qed.
(** An array that [mv_array_write] made longer keeps the length the guest sees. *)
Example stale_length :
  fst ((a ← mv_new_byte_array [1; 2; 3] 3; _ ← mv_array_write a 2 [8; 9] 2;
        n ← mv_array_length a; w ← mv_read_u64 (a + kLengthOff); mret (n, w)) demo_vm) = Ret (4, 3).
Proof. vm_compute. done. Qed.
